(* ===== verification/_CoqProject ===== *)
-Q . S2P
Prelude.v
GoStrings.v
Dates.v
Floats.v
Metrics.v
Base64.v
Authz.v
RateLimiter.v
TtlCache.v
Subjects.v
LiveEncode.v
LiveMux.v
LiveSession.v
LiveEnding.v
Messages.v
Dlq.v
Streams.v
Replay.v
BlastRadius.v
Store.v
StoreFacts.v
Rbac.v
Http.v
Session.v
SessionFacts.v
RefreshFacts.v
CredentialFacts.v
UserService.v
Access.v
AccessFacts.v
Crypto.v
NatsAccounts.v
AccountHandlers.v
AccountFacts.v
AccountTables.v
AccountGrants.v
AccountErrors.v
AccountRuns.v
Runes.v
Sorting.v
Naming.v
NamingFacts.v
Catalog.v
CatalogFacts.v
PageFacts.v
CatalogEdits.v
Alerts.v
AlertHandlers.v
AlertAccess.v
NatsManager.v
NatsManagerFacts.v
Jsz.v
JszFacts.v
Monitoring.v
MonitoringQuery.v
MonitoringFacts.v
Architecture.v
ArchitectureFacts.v
ArchScore.v
ArchScoreFacts.v
Scrape.v
Samples.v
SamplesFacts.v
Collector.v
CollectorFacts.v
RouteFacts.v
Retention.v
Rfc3339.v
Incidents.v
IncidentFacts.v
Bottlenecks.v
BottleneckFacts.v
JsonValid.v
Durations.v
Probes.v
ProbeFacts.v
RequestReply.v
RequestReplyFacts.v
ArchExport.v
DrawIoFacts.v
