(* ===== verification/Prelude.v ===== *)
(** * Verification of NATS Consol

    NATS Consol (module github.com/gopherust-io/nats-consol) is a web console
    for NATS clusters: an HTTP server in Go that authenticates users, decides
    what they may see and change, talks to the NATS servers and keeps its own
    state in PostgreSQL.  This development models the parts of it that decide:
    who is admitted, what is allowed, what is remembered and for how long, what
    viewers of a live stream get, and when an alert opens.

    ** The program and the files

    A request passes the middlewares of internal/api/middleware in the order of
    internal/api/router.go, then a handler, which calls a service of
    internal/app or internal/auth, which reads and writes tables through
    internal/repo.  The decisions are functions of internal/domain.

    - [Prelude]: notations ([go_scope]), the boolean tactics, lists, machine
      integers, and the monad [M S E A = S → result E A * S] of Go functions
      that return an error and change shared state.
    - [GoStrings]: the functions of package strings, strconv and
      pkg/common/strings the program uses.  Strings are byte strings; the
      tables of Unicode outside ASCII are the class [GoUnicode].  [Base64]:
      encoding/base64.
    - [Authz]: internal/domain/{authz,permissions,access_rules,access_grant,
      role,user}.go: users, access rules, grants, every [Can...] predicate.
    - [Rbac]: paths and the role check of internal/api/middleware
      (mw.go, auth.go, path_prefixes.go), the filters of
      internal/api/apikit/rbac.go, the audit trail (internal/audit,
      internal/repo/audit.go).
    - [Http]: requests, responses and every middleware that can stop a request,
      composed as router.go composes them ([router_chain]); the class [Services]
      is what they ask of the services behind them.
    - [RateLimiter]: internal/api/middleware/limiter.go.
    - [TtlCache]: internal/auth/{ttl_cache,session_cache,user_cache}.go.
    - [Store]: the tables of users, roles, grants, invites, versions,
      revocations and refresh tokens with their constraints (migrations/), and
      the methods of internal/repo on them; [StoreFacts] has what they keep.
    - [UserService]: internal/app/users.go over the interface UserRepository,
      a record of operations with its laws, which [Store] implements.
    - [Session], with [SessionFacts], [RefreshFacts] and [CredentialFacts]:
      internal/auth/{auth,session_revoke,refresh,fingerprint}.go and the
      handlers of internal/api/auth_handlers.go.
    - [Access] and [AccessFacts]: internal/api/{users,access}_handlers.go with
      the checks of internal/api/apikit and of passwords and identifiers.
    - [Crypto]: internal/crypto, its uses in internal/repo/store.go and the
      rotation of the key, internal/repo/encryption_rotate.go.
    - [NatsAccounts]: the users, signing groups and exports of NATS accounts,
      internal/repo/{nats_account,nats_jwt,signing_groups,subject_permissions}.go
      with their queries and migrations; [AccountHandlers]: every handler of
      internal/api/accounts/handlers.go over them ([serve]).  [AccountFacts],
      [AccountTables], [AccountGrants] and [AccountErrors] have their theorems,
      [AccountRuns] runs of them.
    - [Subjects]: internal/subjectauth and internal/domain/zombie.go.  [Runes],
      [Naming] and [NamingFacts]: internal/domain/{subject_naming,event_genome}.go.
    - [Catalog]: internal/domain/{event_catalog,event_wikipedia}.go,
      internal/repo/event_catalog.go and the handlers that edit the catalog;
      [CatalogFacts], [PageFacts] and [CatalogEdits] have their theorems.
    - [Jsz], [JszFacts]: what is read from a topology,
      internal/app/monitoring/{types,extract}.go, and internal/domain/chaos_story.go.
      [Monitoring], [MonitoringQuery], [MonitoringFacts]: the hub of snapshots,
      internal/snapshot/hub.go, the reads internal/app/{query,monitoring} with
      their cache, the proxy and the report handlers of internal/api/insights.
    - [Architecture], [ArchitectureFacts]: internal/domain/event_architecture.go;
      [ArchScore], [ArchScoreFacts]: internal/domain/architecture_score.go with its
      table, service and handler; [ArchExport], [DrawIoFacts]:
      internal/domain/architecture_export.go.  [Sorting] has the stable sort, [Dates] the days
      and dates of package time, [Floats] the floats they use.
    - [LiveEncode] and [LiveMux]: internal/live/{encode,control,mux}.go.
    - [LiveSession] and [LiveEnding]: internal/live/hub.go, the goroutines of a
      viewer as programs of atomic operations that interleave.
    - [Messages]: internal/nats/{seq_exists,subject}.go, the navigation of
      internal/nats/client.go and internal/domain/message.go, over the class
      [NatsServer] of what NATS answers; [Dlq]: internal/domain/dlq.go and
      internal/nats/dlq.go over the same class.
    - [Streams]: the configurations of streams and consumers,
      internal/domain/jetstream*.go with internal/api/jetstream/requests.go and
      internal/api/apikit/natsconfig.go; [Replay]: internal/domain/replay*.go
      and the options of internal/nats/client.go; [BlastRadius]:
      internal/domain/blast_radius.go.
    - [Alerts]: internal/alerter, internal/repo/alerts.go,
      internal/domain/alerts.go, internal/mail/smtp.go; [AlertHandlers]:
      internal/api/alerts_handlers.go, with [AlertAccess].
    - [Metrics]: internal/domain/{metrics,slow_consumer}.go; [Scrape]:
      internal/nats/metrics_extract.go; [Samples]: the partitioned tables of
      internal/repo/{metrics,partitions,incident,bottleneck}.go; [Collector]:
      internal/snapshot/collector.go over the hub of [Monitoring], the alerts and
      the score.  [SamplesFacts], [CollectorFacts], [RouteFacts] and [Retention]
      have their theorems.
    - [Incidents], [IncidentFacts]: internal/domain/incident_reconstruction.go with
      its service and handlers; [Bottlenecks], [BottleneckFacts]:
      internal/domain/hidden_bottlenecks.go with its service and handler, both over
      [Samples].  [Rfc3339] and [Durations] are the parsers of package time they use.
    - [RequestReply], [RequestReplyFacts]: the inspector of connections,
      internal/nats/request_reply.go and its handler; [Probes], [ProbeFacts]: the
      probes, internal/domain/request_reply.go, internal/repo/request_reply_probes.go
      and internal/nats/request_reply_probes.go, with [JsonValid] for json.Valid.
    - [NatsManager] and [NatsManagerFacts]: internal/nats/{manager,session,
      connection}.go, the cached connections to the clusters, as programs of
      atomic sections that interleave with each other and with the callbacks of
      the NATS library.

    Definitions keep the names of the code, with a prefix where two packages
    use one name ([svc_Create], [rules_AllowsCluster]).  A struct is a record,
    a Go map that is only looked up a [gmap], a slice a list; a map that is
    ranged over into a result is the list of its entries in the order taken.  A
    method that can fail and changes state is a computation of [M]; a
    transaction that fails leaves the tables as they were.

    ** What is shown

    - Authorization ([Authz], [Rbac], [Http]).  Grants never take a right away;
      the rights on a cluster and its accounts are ordered; an account is
      reached only through a grant minted for it; the role check is decided by
      the rights of the user on the cluster named, for every spelling of a path;
      the complete list of what a read-only user can change; a handler behind
      the chain runs only for an authenticated, authorized, CSRF-checked
      request; listings and audit views show exactly the clusters the user
      reaches.
    - Delegated administration ([UserService]).  Users created or edited by a
      non-root actor stay within the rights of the actor, with the two gaps
      found stated as theorems of their own.  The access endpoints ([Access])
      give nobody a right the actor does not have, save one that is a finding;
      an invitation is used once.
    - Sessions ([SessionFacts], [RefreshFacts], [CredentialFacts]).  A logged
      out session is never accepted again under any interleaving of operations;
      an accepted one was signed for this device and is within its lifetime, up
      to the time to live of the cache; refresh tokens are single use, also in
      a race, and a replay revokes the family; logins need the stored password.
    - NATS accounts ([NatsAccounts], [AccountHandlers]).  Secrets go to those
      who may download them and nobody is shown a NATS user he may not see; the
      tables stay well formed and a group in use stays; a request that fails changes
      nothing, unless it updates a user or fails when it reads again what it has
      changed; an assignment moves the right to the credentials; the report on
      a subject agrees with the JWTs.  The encryption of the stored tokens at
      start-up ([Crypto]) keeps every token, however it ends; a rotation of the key
      does where the driver lets it run, which pgx does not.  Where a handler breaks
      one of these, a run shows it.
    - Bounds and refinement ([RateLimiter], [TtlCache]).  The limiter and the
      cache answer as specifications without compaction, purging or bounded
      maps do.
    - Live streams ([LiveMux], [LiveEncode]).  The multiplexer is a transition
      system of concurrent threads; its core is simulated by a small step
      relation, whose invariant gives: viewers share a subscription exactly
      when they ask for the same thing, nothing leaks, nobody waits forever.
      Frames whose texts are UTF-8 are well-formed JSON that reads back to what
      was sent; others are no JSON.  A viewer
      gets at most the configured number of frames, at the configured pace, and
      a closed session ends in a bounded number of operations.
    - Messages of a stream ([Messages], [Dlq], [Streams], [Replay],
      [BlastRadius]).  The search for a neighbour ends, and is right in a
      stream without gaps; a retried dead letter is deleted only after its copy was
      acknowledged, and no other is; collecting for a retry takes the queue
      in order; a configuration shown and sent back is unchanged but for subject
      transforms of sources and what the console does not read; a dry run
      promises no less than the replay delivers; the blast radius is exact.
    - Subjects and alerts.  Permission checks on every branch; the reports of
      unused subjects; after an evaluation the open alerts are those whose
      last sample meets the threshold; alerts and rules are shown to, and changed
      by, those who reach their clusters.
    - Scrapes ([Collector]).  Every sample of a scrape is stored and the alerts are
      evaluated on exactly these, unless two streams share a name; node events
      replay to the routes of the last scrape; cleaning up keeps what is young and
      the partitions the next days need.
    - Analyses of what was scraped ([Incidents], [Bottlenecks], [RequestReply],
      [Probes]).  The timeline of an incident is what is on record, but for growth of the
      lag after a plateau; a hidden bottleneck recurs, and what is cut off changes no verdict; the
      inspector shows exactly who listens to what; stored probes can be run, and are
      run as they were put.
    - Names and documentation ([Naming], [Catalog]).  Normal forms are final and
      lint-free; both reports are exact and, up to the order of the first, do not
      depend on Go's maps; the catalog lists exactly what is live or documented;
      the related events of a page are the subjects of its genome; what is put is
      shown until it is deleted.
    - Monitoring ([Monitoring]).  A subscriber of the hub misses no refresh,
      under every interleaving; a fresh topology is the answer of the cluster, to this
      request or to the one it joined, and a run shows what the cache may still hold;
      a proxied query asks for the allowed keys and no others; chaos stories stay within the inventory.
    - Architecture ([Architecture], [ArchScore]).  The review holds exactly the
      problems of its checks, counted, and on inputs where its matching is that of
      NATS they are about what NATS delivers; an inventory is within its limits and
      its Draw.io file reads back as the graph it shows; the score follows from the numbers of
      findings, lies between 0 and 100 and does not depend on Go's maps; what is
      stored for a day is what the next day compares with.
    - Connections ([NatsManager]).  Under every interleaving no client is
      lost, a handle ends with its client, and no call waits for ever.
    - Theorems that show a defect are stated as what the code does; each says in
      its comment what goes wrong.

    ** Assumptions

    Third-party code is a parameter: the JWT library, SHA-256, bcrypt and the
    random source are the class [AuthLib] of [Session], IP parsing [GoNet] of
    [Http], AES-GCM and its hash [Gcm] of [Crypto] (what is sealed opens), keys
    and JWTs of NATS users [NatsKeys] and the driver's reading of identifiers
    [PgUUID] of [NatsAccounts], JSON values and jsonb [CatalogJson] of [Catalog],
    letters and digits outside ASCII [GoLetters] of [ArchExport],
    the outcome of a NATS subscribe an argument of its step.  What is
    assumed of them is documented behaviour (a token parses to the claims it
    was signed with, a hash has no collision among the values at hand) and
    each witness instantiates them with concrete functions.  Times are
    nanoseconds in [Z]; the clock of a computation is part of its state or an
    argument.  64-bit counters wrap ([i64], [u64]).  Random tokens and
    identifiers are drawn from a supply; where a theorem needs them new, it
    says so.

    NATS is the class [NatsServer] of [Messages] (with the headers of its
    dead-letter library, [DlqHeaders]), the parsers of its Go client and of
    times [NatsLib] of [Streams], what it delivers for the options of a replay
    [ReplayServer] of [Replay], what its monitoring port answers
    [MonitoringLive] of [Monitoring] and how that reads as JSON [JszJson] of
    [Jsz], [ScrapeJson] of [Scrape] and [ConnzJson] of [RequestReply]; the names of
    content types in its library are [ProbeLib] of [Probes].

    Recursion follows the data, with fuel in four places: the JSON reader that
    specifies [LiveEncode] has the length of the text, the search of
    [Messages] 64 halvings of a 64-bit interval ([prev_fuel]), the paging of
    [Dlq] one page per wanted message, a duration of [Durations] the length of its
    text; theorems show each to be enough.  Loops
    that wait are steps, so that no theorem is about terminating runs only.

    ** What is not modelled

    Responses are their status and error code; logging, metrics, compression
    and panic recovery do nothing here.  SQL is what its statements do to the
    tables, one statement (or transaction) at a time.  Left out, for now: the
    capsule of an incident, the plan of a refactoring, the Excalidraw file of an export
    with its bundle and archive, the handlers of internal/api other than authentication, users,
    access, NATS accounts, the catalog, the proxy and reports of monitoring and
    the creation and update of streams, the alerts and architecture scores.  Left out for good: the plain calls
    of the NATS library, the assistant (an external model), configuration loading, the web client,
    rendering of mails, generated code. *)

From stdpp Require Export base list strings gmap sorting pretty.
From Stdlib Require Export ZArith Lia.
From Stdlib Require Import Ascii.

(** * Notations and tactics *)

Declare Scope go_scope.
Delimit Scope go_scope with go.

(** Go's [==] on strings, as a boolean. *)
Notation "s =s t" := (bool_decide (s = t)) (at level 70, no associativity) : go_scope.
Notation "s <>s t" := (negb (bool_decide (s = t))) (at level 70, no associativity) : go_scope.
(** [slices.Contains(l, x)] and membership in a [map[K]struct{}]. *)
Notation "x ∈b l" := (bool_decide (x ∈ l)) (at level 70, no associativity) : go_scope.

Open Scope go_scope.

Create HintDb go discriminated.
Create Rewrite HintDb go_rw.

#[global] Arguments bool_decide : simpl never.

(** Turn boolean equations into propositions, splitting conjunctions. *)
Ltac go_bool :=
  repeat match goal with
  | H : _ && _ = true |- _ => apply andb_true_iff in H as [? ?]
  | H : _ || _ = false |- _ => apply orb_false_iff in H as [? ?]
  | H : negb _ = true |- _ => apply negb_true_iff in H
  | H : negb _ = false |- _ => apply negb_false_iff in H
  | H : bool_decide _ = true |- _ => apply bool_decide_eq_true_1 in H
  | H : bool_decide _ = false |- _ => apply bool_decide_eq_false_1 in H
  | H : Is_true _ |- _ => apply Is_true_eq_true in H
  | H : true = false |- _ => discriminate H
  | H : false = true |- _ => discriminate H
  end.

(** Split the next boolean conditional of the goal and simplify. *)
Ltac go_if :=
  match goal with
  | |- context [if ?b then _ else _] => let E := fresh "E" in destruct b eqn:E
  end; go_bool.

(** ** Booleans and lists *)

Lemma existsb_true_iff {A} (f : A → bool) l :
  existsb f l = true ↔ ∃ x, x ∈ l ∧ f x = true.
Proof. rewrite existsb_exists. by setoid_rewrite list_elem_of_In. Qed.

Lemma forallb_true_iff {A} (f : A → bool) l :
  forallb f l = true ↔ ∀ x, x ∈ l → f x = true.
Proof. rewrite forallb_forall. by setoid_rewrite list_elem_of_In. Qed.

Lemma existsb_false_iff {A} (f : A → bool) l :
  existsb f l = false ↔ ∀ x, x ∈ l → f x = false.
Proof.
  rewrite <- not_true_iff_false, existsb_true_iff. split.
  - intros H x Hx. apply not_true_iff_false. eauto.
  - intros H (x & Hx & Hf). rewrite (H x Hx) in Hf. done.
Qed.

Lemma elem_of_bool_spec `{EqDecision A} (x : A) (l : list A) : (x ∈b l) = true ↔ x ∈ l.
Proof. apply bool_decide_eq_true. Qed.

(** Induction on the length of a list. *)
Lemma list_len_ind {A} (P : list A → Prop) :
  (∀ l, (∀ k, length k < length l → P k) → P l) → ∀ l, P l.
Proof.
  intros H l. remember (length l) as n eqn:Hn. revert l Hn.
  induction n as [n IH] using lt_wf_ind. intros l ->. eauto.
Qed.

(** Equality of booleans from equivalence of their truth. *)
Lemma bool_eq_iff (a b : bool) : (a = true ↔ b = true) → a = b.
Proof. destruct a, b; intuition congruence. Qed.

(** * Machine integers

    Go's [uint64] and [int] (64 bits on every platform the project builds for)
    are integers of [Z]; every operation that can leave the range is written
    with its wrap-around. *)

Definition max_uint64 : Z := 2 ^ 64 - 1.
Definition max_int64 : Z := 2 ^ 63 - 1.
Definition min_int64 : Z := - 2 ^ 63.

Definition u64 (x : Z) : Z := x mod 2 ^ 64.
Definition is_u64 (x : Z) : Prop := (0 ≤ x ≤ max_uint64)%Z.
(** Two's complement reading of the low 64 bits. *)
Definition i64 (x : Z) : Z := ((x + 2 ^ 63) mod 2 ^ 64 - 2 ^ 63)%Z.
Definition is_i64 (x : Z) : Prop := (min_int64 ≤ x ≤ max_int64)%Z.

Lemma u64_id x : is_u64 x → u64 x = x.
Proof. unfold is_u64, u64, max_uint64. intros. apply Z.mod_small. lia. Qed.
Lemma u64_range x : is_u64 (u64 x).
Proof.
  unfold is_u64, u64, max_uint64.
  pose proof (Z.mod_pos_bound x (2 ^ 64) ltac:(lia)). lia.
Qed.
Lemma i64_id x : is_i64 x → i64 x = x.
Proof.
  unfold is_i64, i64, max_int64, min_int64. intros.
  rewrite Z.mod_small; lia.
Qed.
Lemma i64_range x : is_i64 (i64 x).
Proof.
  unfold is_i64, i64, max_int64, min_int64.
  pose proof (Z.mod_pos_bound (x + 2 ^ 63) (2 ^ 64) ltac:(lia)). lia.
Qed.

#[export] Hint Resolve u64_range i64_range : go.

(** * Results and stateful operations

    A Go function returning [(T, error)] gives a [result]; one that also
    updates shared state (the database, a cache) is a computation of [M]. *)

Inductive result (E A : Type) :=
  | Ok (a : A)
  | Err (e : E).
Arguments Ok {E A} a.
Arguments Err {E A} e.

#[export] Instance result_eq_dec `{EqDecision E, EqDecision A} : EqDecision (result E A).
Proof. solve_decision. Defined.

Definition is_Ok {E A} (r : result E A) : bool :=
  match r with Ok _ => true | Err _ => false end.

Definition M (S E A : Type) : Type := S → result E A * S.

Section Monad.
Context {S E : Type}.

Definition ret {A} (a : A) : M S E A := λ s, (Ok a, s).
Definition fail {A} (e : E) : M S E A := λ s, (Err e, s).
Definition bind {A B} (m : M S E A) (k : A → M S E B) : M S E B := λ s,
  match m s with
  | (Ok a, s') => k a s'
  | (Err e, s') => (Err e, s')
  end.
(** Run and inspect the outcome: Go's [if err != nil]. *)
Definition attempt {A} (m : M S E A) : M S E (result E A) := λ s,
  let '(r, s') := m s in (Ok r, s').
Definition lift {A} (r : result E A) : M S E A := λ s, (r, s).
Definition get : M S E S := λ s, (Ok s, s).
Definition modify (f : S → S) : M S E unit := λ s, (Ok tt, f s).
Definition ensure (b : bool) (e : E) : M S E unit :=
  if b then ret tt else fail e.

Lemma bind_ok {A B} (m : M S E A) (k : A → M S E B) s r s' :
  bind m k s = (r, s') →
  (∃ a s1, m s = (Ok a, s1) ∧ k a s1 = (r, s')) ∨
  (∃ e, m s = (Err e, s') ∧ r = Err e).
Proof.
  unfold bind. destruct (m s) as [[a|e] s1]; intros H; [left|right]; eauto.
  injection H as <- <-. eauto.
Qed.

Lemma bind_Ok {A B} (m : M S E A) (k : A → M S E B) s b s' :
  bind m k s = (Ok b, s') → ∃ a s1, m s = (Ok a, s1) ∧ k a s1 = (Ok b, s').
Proof. by intros [?|(e & _ & [=])]%bind_ok. Qed.
End Monad.

Notation "'let!' x := m 'in' k" := (bind m (λ x, k))
  (at level 10, x binder, m at level 100, k at level 200) : go_scope.
Notation "m ;; k" := (bind m (λ _, k)) (at level 100, right associativity) : go_scope.

(** Invert a successful computation step by step. *)
Ltac m_inv :=
  repeat match goal with
  | H : bind _ _ _ = (Ok _, _) |- _ =>
      apply bind_ok in H as [(? & ? & ? & H)|(? & _ & [=])]
  | H : ret _ _ = _ |- _ => unfold ret in H; inversion H; clear H; subst
  | H : fail _ _ = (Ok _, _) |- _ => discriminate H
  | H : get _ = _ |- _ => unfold get in H; inversion H; clear H; subst
  | H : lift _ _ = (Ok _, _) |- _ => unfold lift in H; inversion H; clear H; subst
  | H : ensure ?b _ _ = (Ok _, _) |- _ =>
      let E := fresh "Hens" in unfold ensure in H; destruct b eqn:E; [|discriminate H]
  | H : (Err _, _) = (Ok _, _) |- _ => discriminate H
  | H : (Ok _, _) = (Ok _, _) |- _ => inversion H; clear H; subst
  end.

(** ** What a computation does to the state

    [runs R m]: whatever the result of [m], the states before and after it are
    related. *)
Section Runs.
Context {S E : Type} (R : relation S) `{!PreOrder R}.

Definition runs {A} (m : M S E A) : Prop := ∀ s, R s (snd (m s)).

Lemma runs_bind {A B} (m : M S E A) (k : A → M S E B) :
  runs m → (∀ a, runs (k a)) → runs (bind m k).
Proof.
  intros Hm Hk s. unfold bind. specialize (Hm s). destruct (m s) as [[a|e] s1]; cbn in *; [|done].
  etrans; [done|apply Hk].
Qed.
Lemma runs_attempt {A} (m : M S E A) : runs m → runs (attempt m).
Proof. intros Hm s. unfold attempt. specialize (Hm s). by destruct (m s). Qed.
Lemma runs_ret {A} (a : A) : runs (ret a).
Proof. by intros s. Qed.
Lemma runs_fail {A} e : runs (fail e : M S E A).
Proof. by intros s. Qed.
Lemma runs_lift {A} (r : result E A) : runs (lift r).
Proof. by intros s. Qed.
Lemma runs_get : runs get.
Proof. by intros s. Qed.
Lemma runs_ensure b e : runs (ensure b e).
Proof. intros s. unfold ensure. by destruct b. Qed.
Lemma runs_modify f : (∀ s, R s (f s)) → runs (modify f).
Proof. intros Hf s. apply Hf. Qed.
End Runs.

Create HintDb runs discriminated.
#[export] Hint Resolve runs_ret runs_fail runs_lift runs_get runs_ensure : runs.

(** Follow the structure of a computation; steps of its own are in the hints. *)
Ltac run_rules :=
  repeat first
    [ solve [auto 2 with runs typeclass_instances]
    | simple apply runs_bind; [apply _| |intros ?]
    | simple apply runs_attempt
    | match goal with |- runs _ (match ?x with _ => _ end) => destruct x end
    | match goal with |- runs _ (if ?b then _ else _) => destruct b end ].
