(* ===== verification/GoStrings.v ===== *)
(** Go's strings: byte sequences, with the functions of the [strings] and
    [strconv] packages and of pkg/common/strings that the source calls.

    A Go string is a sequence of bytes, here [string] (a list of 8-bit
    [ascii]).  Functions whose result depends on Unicode tables ([ToLower],
    [ToUpper], [EqualFold], and the case of a rune) are exact on ASCII strings and left to the class
    [GoUnicode] on the others; [TrimSpace] is exact on every string, the white
    space code points being few. *)

From S2P Require Export Prelude.
From Stdlib Require Import Ascii.

Local Notation "'byte' n" := (ascii_of_nat n) (at level 10, only parsing).

(** * Appending and prefixes *)

Lemma app_nil_l (s : string) : "" +:+ s = s.
Proof. done. Qed.
Lemma app_cons a (s t : string) : String a s +:+ t = String a (s +:+ t).
Proof. done. Qed.
Lemma app_nil_r (s : string) : s +:+ "" = s.
Proof. induction s as [|a s IH]; [done|]. rewrite app_cons. by f_equal. Qed.
Lemma app_assoc (s t u : string) : (s +:+ t) +:+ u = s +:+ (t +:+ u).
Proof. induction s as [|a s IH]; [done|]. rewrite !app_cons. by f_equal. Qed.
Lemma app_inv_l (s t u : string) : s +:+ t = s +:+ u → t = u.
Proof.
  induction s as [|a s IH]; [done|]. rewrite !app_cons. intros [= H]. auto.
Qed.
Lemma length_app_string (s t : string) :
  String.length (s +:+ t) = String.length s + String.length t.
Proof. induction s as [|a s IH]; [done|]. rewrite app_cons. simpl. by f_equal. Qed.

(** pkg/common/strings.IsEmpty *)
Definition IsEmpty (s : string) : bool := Nat.eqb (String.length s) 0.

Lemma IsEmpty_true s : IsEmpty s = true ↔ s = "".
Proof. destruct s; cbn; split; intros; congruence || done. Qed.
Lemma IsEmpty_false s : IsEmpty s = false ↔ s ≠ "".
Proof. destruct s; cbn; split; intros; congruence || done. Qed.

(** [strings.HasPrefix] *)
Definition HasPrefix (s p : string) : bool := String.prefix p s.

Lemma HasPrefix_spec s p : HasPrefix s p = true ↔ ∃ r, s = p +:+ r.
Proof.
  unfold HasPrefix. revert s. induction p as [|a p IH]; intros s.
  - destruct s; cbn; split; eauto; intros _; by eexists.
  - destruct s as [|b s]; cbn.
    + split; [done|]. by intros [r [=]].
    + destruct (ascii_dec a b) as [->|Hne].
      * rewrite IH. split.
        -- intros [r ->]. by exists r.
        -- intros [r Hr]. exists r. rewrite app_cons in Hr. congruence.
      * split; [done|]. intros [r Hr]. rewrite app_cons in Hr. congruence.
Qed.

Lemma HasPrefix_app p r : HasPrefix (p +:+ r) p = true.
Proof. apply HasPrefix_spec. eauto. Qed.

Fixpoint sdrop (n : nat) (s : string) : string :=
  match n, s with
  | S n, String _ s => sdrop n s
  | _, _ => s
  end.

Lemma sdrop_app s t : sdrop (String.length s) (s +:+ t) = t.
Proof. induction s as [|a s IH]; [by destruct t|]. done. Qed.

(** [strings.TrimPrefix], [strings.HasSuffix], [strings.TrimSuffix] *)
Definition TrimPrefix (s p : string) : string :=
  if HasPrefix s p then sdrop (String.length p) s else s.

Lemma TrimPrefix_app p r : TrimPrefix (p +:+ r) p = r.
Proof. unfold TrimPrefix. by rewrite HasPrefix_app, sdrop_app. Qed.

Definition HasSuffix (s suf : string) : bool :=
  Nat.leb (String.length suf) (String.length s) &&
  (sdrop (String.length s - String.length suf) s =s suf).

Lemma HasSuffix_app r suf : HasSuffix (r +:+ suf) suf = true.
Proof.
  unfold HasSuffix. rewrite length_app_string.
  replace (String.length r + String.length suf - String.length suf)
    with (String.length r) by lia.
  rewrite sdrop_app. apply andb_true_intro. split.
  - apply Nat.leb_le. lia.
  - by apply bool_decide_eq_true.
Qed.

(** [strings.Contains], [strings.ContainsRune] for one byte *)
Fixpoint Contains (s sub : string) : bool :=
  HasPrefix s sub ||
  match s with "" => false | String _ s' => Contains s' sub end.

Fixpoint ContainsByte (s : string) (c : ascii) : bool :=
  match s with
  | "" => false
  | String a s' => bool_decide (a = c) || ContainsByte s' c
  end.

Lemma ContainsByte_app s t x :
  ContainsByte (s +:+ t) x = ContainsByte s x || ContainsByte t x.
Proof.
  induction s as [|y s IH]; [done|]. rewrite app_cons. cbn.
  by rewrite IH, orb_assoc.
Qed.

(** [strings.Cut] for a one-byte separator: before, after, found *)
Fixpoint Cut (s : string) (c : ascii) : string * string * bool :=
  match s with
  | "" => ("", "", false)
  | String a s' =>
      if bool_decide (a = c) then ("", s', true)
      else let '(before, after, found) := Cut s' c in
           (String a before, after, found)
  end.

Lemma Cut_found s c b a :
  Cut s c = (b, a, true) → s = b +:+ String c a ∧ ContainsByte b c = false.
Proof.
  revert b a. induction s as [|x s IH]; intros b a; cbn; [done|].
  case_bool_decide as Hx.
  - intros [= <- <-]. subst. done.
  - destruct (Cut s c) as [[b' a'] f] eqn:E. intros [= <- <- ->].
    destruct (IH _ _ eq_refl) as [-> Hb]. rewrite app_cons. split; [done|].
    cbn. by rewrite bool_decide_eq_false_2.
Qed.

Lemma Cut_not_found s c b a : Cut s c = (b, a, false) → s = b ∧ a = "".
Proof.
  revert b a. induction s as [|x s IH]; intros b a; cbn; [by intros [= <- <-]|].
  case_bool_decide; [done|]. destruct (Cut s c) as [[b' a'] f]. intros [= <- <- ->].
  destruct (IH _ _ eq_refl) as [-> ->]. done.
Qed.

Lemma Cut_app b c a :
  ContainsByte b c = false → Cut (b +:+ String c a) c = (b, a, true).
Proof.
  induction b as [|x b IH]; cbn; intros Hb.
  - rewrite app_nil_l. cbn. by rewrite bool_decide_eq_true_2.
  - apply orb_false_iff in Hb as [Hx Hb]. rewrite app_cons. cbn.
    by rewrite Hx, IH.
Qed.

Lemma Cut_absent s c : ContainsByte s c = false → Cut s c = (s, "", false).
Proof.
  induction s as [|x s IH]; cbn; intros Hs; [done|].
  apply orb_false_iff in Hs as [-> Hs]. by rewrite IH.
Qed.

(** * Splitting and joining

    [strings.Split] for a one-byte separator: never the empty slice. *)

Fixpoint Split (s : string) (c : ascii) : list string :=
  match s with
  | "" => [""]
  | String a s' =>
      if bool_decide (a = c) then "" :: Split s' c
      else match Split s' c with
           | h :: t => String a h :: t
           | [] => [String a ""]
           end
  end.

(** [strings.Join] *)
Fixpoint Join (l : list string) (sep : string) : string :=
  match l with
  | [] => ""
  | [x] => x
  | x :: l' => x +:+ sep +:+ Join l' sep
  end.

Lemma Join_cons x y l sep : Join (x :: y :: l) sep = x +:+ sep +:+ Join (y :: l) sep.
Proof. done. Qed.

Lemma Split_nonempty s c : Split s c ≠ [].
Proof.
  destruct s as [|a s]; cbn; [done|]. case_bool_decide; [done|].
  by destruct (Split s c).
Qed.

Lemma Join_Split s c : Join (Split s c) (String c "") = s.
Proof.
  induction s as [|a s IH]; cbn; [done|].
  pose proof (Split_nonempty s c) as Hne.
  destruct (Split s c) as [|h t]; [done|].
  case_bool_decide as Ha.
  - rewrite Ha, Join_cons, IH. done.
  - destruct t as [|h' t]; [cbn in *; by rewrite IH|].
    rewrite Join_cons in *. rewrite app_cons. by rewrite IH.
Qed.

Lemma Split_no_sep s c t : t ∈ Split s c → ContainsByte t c = false.
Proof.
  revert t. induction s as [|a s IH]; cbn; intros t.
  - intros ->%list_elem_of_singleton. done.
  - case_bool_decide as Ha.
    + intros [->|Ht]%elem_of_cons; [done|auto].
    + pose proof (Split_nonempty s c).
      destruct (Split s c) as [|h l]; [done|].
      intros [->|Ht]%elem_of_cons.
      * cbn. rewrite bool_decide_eq_false_2 by done. apply IH. left.
      * apply IH. by right.
Qed.

Lemma Split_absent s c : ContainsByte s c = false → Split s c = [s].
Proof.
  induction s as [|a s IH]; cbn; intros Hs; [done|].
  apply orb_false_iff in Hs as [-> Hs]. by rewrite IH.
Qed.

Lemma Split_app s c t :
  ContainsByte s c = false → Split (s +:+ String c t) c = s :: Split t c.
Proof.
  induction s as [|a s IH]; cbn; intros Hs.
  - rewrite app_nil_l. cbn. by rewrite bool_decide_eq_true_2.
  - apply orb_false_iff in Hs as [Ha Hs]. rewrite app_cons. cbn.
    by rewrite Ha, IH.
Qed.

Lemma Split_Join l c :
  l ≠ [] → Forall (λ t, ContainsByte t c = false) l →
  Split (Join l (String c "")) c = l.
Proof.
  induction l as [|x l IH]; [done|]. intros _ [Hx Hl]%Forall_cons.
  destruct l as [|y l]; [by apply Split_absent|].
  rewrite Join_cons, app_cons, app_nil_l.
  rewrite Split_app, IH by done. done.
Qed.

Lemma Split_inj s t c : Split s c = Split t c → s = t.
Proof. intros H. by rewrite <- (Join_Split s c), H, Join_Split. Qed.

(** * White space

    The code points with [unicode.IsSpace], as UTF-8: six in ASCII, U+0085 and
    U+00A0 on two bytes, the others on three.  A byte that does not start such
    an encoding (an invalid one included) is not white space. *)

Definition space1 (a : ascii) : bool :=
  let n := nat_of_ascii a in
  Nat.eqb n 32 || (Nat.leb 9 n && Nat.leb n 13).
Definition space2 (a b : ascii) : bool :=
  let n := nat_of_ascii a in let m := nat_of_ascii b in
  Nat.eqb n 194 && (Nat.eqb m 133 || Nat.eqb m 160).
Definition space3 (a b c : ascii) : bool :=
  let n := nat_of_ascii a in let m := nat_of_ascii b in
  let k := nat_of_ascii c in
  (Nat.eqb n 225 && Nat.eqb m 154 && Nat.eqb k 128) ||                 (* U+1680 *)
  (Nat.eqb n 226 && Nat.eqb m 128 &&
     ((Nat.leb 128 k && Nat.leb k 138) ||                       (* U+2000-200A *)
      Nat.eqb k 168 || Nat.eqb k 169 || Nat.eqb k 175)) || (* 2028, 2029, 202F *)
  (Nat.eqb n 226 && Nat.eqb m 129 && Nat.eqb k 159) ||                 (* U+205F *)
  (Nat.eqb n 227 && Nat.eqb m 128 && Nat.eqb k 128).                   (* U+3000 *)

(** Dropping the white space encodings in front of a byte list. *)
Section Trim.
Context (s1 : ascii → bool) (s2 : ascii → ascii → bool)
        (s3 : ascii → ascii → ascii → bool).

Fixpoint trim_front (l : list ascii) : list ascii :=
  match l with
  | [] => []
  | a :: l1 =>
      if s1 a then trim_front l1
      else match l1 with
           | [] => l
           | b :: l2 =>
               if s2 a b then trim_front l2
               else match l2 with
                    | [] => l
                    | c :: l3 => if s3 a b c then trim_front l3 else l
                    end
           end
  end.

(** No encoding of a white space starts the list. *)
Definition no_lead (l : list ascii) : Prop :=
  match l with
  | [] => True
  | [a] => s1 a = false
  | [a; b] => s1 a = false ∧ s2 a b = false
  | a :: b :: c :: _ => s1 a = false ∧ s2 a b = false ∧ s3 a b c = false
  end.

Lemma trim_front_spec l :
  ∃ p, l = p ++ trim_front l ∧ no_lead (trim_front l).
Proof.
  induction l as [l IH] using list_len_ind.
  destruct l as [|a l1]; [by exists []|]. cbn [trim_front].
  destruct (s1 a) eqn:E1.
  { destruct (IH l1) as (p & Hp & Hn); [cbn; lia|].
    exists (a :: p). split; [|done]. cbn. by f_equal. }
  destruct l1 as [|b l2]; [by exists []|].
  destruct (s2 a b) eqn:E2.
  { destruct (IH l2) as (p & Hp & Hn); [cbn; lia|].
    exists (a :: b :: p). split; [|done]. cbn. by do 2 f_equal. }
  destruct l2 as [|c l3]; [by exists []|].
  destruct (s3 a b c) eqn:E3; [|by exists []].
  destruct (IH l3) as (p & Hp & Hn); [cbn; lia|].
  exists (a :: b :: c :: p). split; [|done]. cbn. by do 3 f_equal.
Qed.

Lemma trim_front_id l : no_lead l → trim_front l = l.
Proof.
  destruct l as [|a [|b [|c l]]]; cbn; [done|by intros ->| |];
    [intros [-> ->]|intros (-> & -> & ->)]; done.
Qed.

(** A prefix of a list without leading white space has none either. *)
Lemma no_lead_prefix p r : no_lead (p ++ r) → no_lead p.
Proof.
  destruct p as [|a [|b [|c p]]], r as [|x [|y r]]; cbn; tauto.
Qed.
End Trim.

Definition bytes_of (s : string) : list ascii := String.list_ascii_of_string s.
Definition of_bytes (l : list ascii) : string := String.string_of_list_ascii l.

Lemma of_bytes_of s : of_bytes (bytes_of s) = s.
Proof. apply String.string_of_list_ascii_of_string. Qed.
Lemma bytes_of_of l : bytes_of (of_bytes l) = l.
Proof. apply String.list_ascii_of_string_of_list_ascii. Qed.
Lemma bytes_of_app s t : bytes_of (s +:+ t) = bytes_of s ++ bytes_of t.
Proof. induction s as [|a s IH]; [by rewrite app_nil_l|]. rewrite app_cons. exact (f_equal (cons a) IH). Qed.
Lemma of_bytes_app l k : of_bytes (l ++ k) = of_bytes l +:+ of_bytes k.
Proof. induction l as [|a l IH]; [by rewrite app_nil_l|].
  etransitivity; [exact (f_equal (String a) IH)|]. by rewrite <- app_cons. Qed.
Lemma bytes_of_inj s t : bytes_of s = bytes_of t → s = t.
Proof. intros E. by rewrite <- (of_bytes_of s), E, of_bytes_of. Qed.

Definition trim_left : list ascii → list ascii := trim_front space1 space2 space3.
Definition trim_right (l : list ascii) : list ascii :=
  reverse (trim_front space1 (λ b a, space2 a b) (λ c b a, space3 a b c) (reverse l)).

(** [strings.TrimSpace] *)
Definition TrimSpace (s : string) : string :=
  of_bytes (trim_right (trim_left (bytes_of s))).

Lemma trim_right_prefix l : ∃ r, l = trim_right l ++ r.
Proof.
  unfold trim_right.
  destruct (trim_front_spec space1 (λ b a, space2 a b) (λ c b a, space3 a b c)
    (reverse l)) as (p & Hp & _).
  exists (reverse p). rewrite <- reverse_app, <- Hp. by rewrite reverse_involutive.
Qed.

Lemma TrimSpace_idemp s : TrimSpace (TrimSpace s) = TrimSpace s.
Proof.
  unfold TrimSpace. rewrite bytes_of_of. f_equal.
  destruct (trim_front_spec space1 space2 space3 (bytes_of s)) as (_ & _ & Hl).
  fold trim_left in Hl. set (l := trim_left (bytes_of s)) in *.
  destruct (trim_right_prefix l) as [r Hr]. rewrite Hr in Hl.
  apply no_lead_prefix in Hl. unfold trim_left at 1. rewrite trim_front_id by done.
  unfold trim_right.
  match goal with |- reverse (trim_front ?a ?b ?c _) = _ =>
    destruct (trim_front_spec a b c (reverse l)) as (_ & _ & Hn) end.
  rewrite reverse_involutive, (trim_front_id _ _ _ _ Hn). done.
Qed.

Lemma TrimSpace_empty : TrimSpace "" = "".
Proof. done. Qed.

#[export] Hint Rewrite TrimSpace_idemp TrimSpace_empty : go_rw.

Example TrimSpace_ex : TrimSpace "  orders.* " = "orders.*".
Proof. reflexivity. Qed.
(** A no-break space (C2 A0) is trimmed, a lone A0 byte is not. *)
Example TrimSpace_nbsp :
  TrimSpace (String (byte 194) (String (byte 160) (String (byte 160) "x")))
  = String (byte 160) "x".
Proof. reflexivity. Qed.

(** [strings.Trim(s, string(c))] for one byte *)
Fixpoint trim_byte_left (c : ascii) (l : list ascii) : list ascii :=
  match l with
  | [] => []
  | a :: r => if bool_decide (a = c) then trim_byte_left c r else l
  end.

Definition Trim (s : string) (c : ascii) : string :=
  of_bytes (rev (trim_byte_left c (rev (trim_byte_left c (bytes_of s))))).

Example Trim_slashes : Trim "//a/b/" "/" = "a/b".
Proof. reflexivity. Qed.

(** * Letter case *)

Definition is_ascii_byte (a : ascii) : bool := Nat.ltb (nat_of_ascii a) 128.
Definition is_ascii_string (s : string) : bool :=
  forallb is_ascii_byte (bytes_of s).

(** What the Unicode tables say of strings that are not ASCII. *)
Class GoUnicode := {
  unicode_to_lower : string → string;
  unicode_to_upper : string → string;
  unicode_equal_fold : string → string → bool;
  unicode_is_upper : string → bool;    (* of one rune, as UTF-8 *)
  unicode_is_lower : string → bool;
}.

Definition lower_byte (a : ascii) : ascii :=
  let n := nat_of_ascii a in
  if Nat.leb 65 n && Nat.leb n 90 then byte (n + 32) else a.
Definition upper_byte (a : ascii) : ascii :=
  let n := nat_of_ascii a in
  if Nat.leb 97 n && Nat.leb n 122 then byte (n - 32) else a.

Definition lower_ascii (s : string) : string := of_bytes (map lower_byte (bytes_of s)).
Definition upper_ascii (s : string) : string := of_bytes (map upper_byte (bytes_of s)).

(** [strings.ToLower], [strings.ToUpper], [strings.EqualFold] *)
Definition ToLower `{GoUnicode} (s : string) : string :=
  if is_ascii_string s then lower_ascii s else unicode_to_lower s.
Definition ToUpper `{GoUnicode} (s : string) : string :=
  if is_ascii_string s then upper_ascii s else unicode_to_upper s.
Definition EqualFold `{GoUnicode} (s t : string) : bool :=
  if is_ascii_string s && is_ascii_string t
  then lower_ascii s =s lower_ascii t
  else unicode_equal_fold s t.

(** An instance for examples: the tables seen as the identity. *)
Definition ascii_only : GoUnicode := {|
  unicode_to_lower s := s;
  unicode_to_upper s := s;
  unicode_equal_fold s t := s =s t;
  unicode_is_upper _ := false;
  unicode_is_lower _ := false;
|}.

(** * Decimal numbers *)

Definition digit (a : ascii) : option Z :=
  let n := nat_of_ascii a in
  if Nat.leb 48 n && Nat.leb n 57 then Some (Z.of_nat n - 48)%Z else None.

Fixpoint parse_digits (acc : Z) (s : string) : option Z :=
  match s with
  | "" => Some acc
  | String a s' =>
      match digit a with
      | Some d => parse_digits (acc * 10 + d)%Z s'
      | None => None
      end
  end.

(** [strconv.ParseUint(s, 10, 64)]: digits only, at least one, in range. *)
Definition ParseUint (s : string) : option Z :=
  if IsEmpty s then None
  else match parse_digits 0 s with
       | Some n => if (n <=? max_uint64)%Z then Some n else None
       | None => None
       end.

(** [strconv.Atoi] *)
Definition Atoi (s : string) : option Z :=
  let digits (t : string) : option Z :=
    if IsEmpty t then None else parse_digits 0 t in
  let in_range (n : option Z) : option Z :=
    match n with Some n => if Z.leb min_int64 n && Z.leb n max_int64 then Some n else None | None => None end in
  match s with
  | String a t =>
      if bool_decide (a = "-"%char) then in_range (Z.opp <$> digits t)
      else if bool_decide (a = "+"%char) then in_range (digits t)
      else in_range (digits s)
  | "" => None
  end.

Example ParseUint_max : ParseUint "18446744073709551615" = Some max_uint64.
Proof. reflexivity. Qed.
Example ParseUint_over : ParseUint "18446744073709551616" = None.
Proof. reflexivity. Qed.

(** [fmt.Sprintf("%d", n)] *)
Definition Itoa (n : Z) : string := pretty n.

(** Reading the digits at the head of a string. *)
Fixpoint read_digits (acc : Z) (s : string) : Z * string :=
  match s with
  | "" => (acc, "")
  | String a s' =>
      match digit a with
      | Some d => read_digits (acc * 10 + d)%Z s'
      | None => (acc, s)
      end
  end.

Lemma digit_char x : (x < 10)%N → digit (pretty_N_char x) = Some (Z.of_N x).
Proof.
  intros. assert (x = 0 ∨ x = 1 ∨ x = 2 ∨ x = 3 ∨ x = 4 ∨ x = 5 ∨ x = 6 ∨ x = 7 ∨ x = 8 ∨ x = 9)%N
    as H' by lia.
  by repeat destruct H' as [->|H']; [..|subst x].
Qed.

Lemma read_digits_go x s : read_digits 0 (pretty_N_go x s) = read_digits (Z.of_N x) s.
Proof.
  revert s. induction (N.lt_wf_0 x) as [x _ IH]; intros s.
  destruct (decide (0 < x)%N) as [Hx|]; [|by assert (x = 0%N) as -> by lia].
  rewrite pretty_N_go_step, IH by first [done|by apply N.div_lt]. cbn [read_digits].
  rewrite digit_char by (apply N.mod_lt; lia). f_equal.
  rewrite N2Z.inj_div, N2Z.inj_mod. pose proof (Z.div_mod (Z.of_N x) 10). lia.
Qed.

Lemma pretty_N_go_app x s t : pretty_N_go x s +:+ t = pretty_N_go x (s +:+ t).
Proof.
  revert s. induction (N.lt_wf_0 x) as [x _ IH]; intros s.
  destruct (decide (0 < x)%N) as [Hx|]; [|by assert (x = 0%N) as -> by lia].
  rewrite !(pretty_N_go_step x) by done. rewrite IH by by apply N.div_lt. by rewrite app_cons.
Qed.

Lemma Itoa_go n : (0 < n)%Z → Itoa n = pretty_N_go (Z.to_N n) "".
Proof. intros. destruct n as [|p|]; [lia|done|lia]. Qed.

(** A number is read back from the text in front of any non-digit. *)
Lemma read_digits_Itoa n t : (0 ≤ n)%Z →
  (match t with "" => True | String a _ => digit a = None end) →
  read_digits 0 (Itoa n +:+ t) = (n, t).
Proof.
  intros Hn Ht. assert (read_digits n t = (n, t)) as Hr by (destruct t; cbn; by rewrite ?Ht).
  destruct (decide (n = 0%Z)) as [->|]; [done|].
  rewrite Itoa_go, pretty_N_go_app, app_nil_l, read_digits_go, Z2N.id by lia. done.
Qed.

(** The text of a number starts with a digit. *)
Lemma Itoa_head n : (0 ≤ n)%Z → ∃ a s d, Itoa n = String a s ∧ digit a = Some d.
Proof.
  intros Hn. destruct (decide (n = 0%Z)) as [->|]; [by exists "0"%char, "", 0%Z|].
  rewrite Itoa_go by lia. pose proof (pretty_N_go_app (Z.to_N n) "" "x") as Ha.
  assert (read_digits 0 (pretty_N_go (Z.to_N n) "") = (n, "")) as Hr
    by (rewrite read_digits_go; cbn; f_equal; lia).
  destruct (pretty_N_go (Z.to_N n) "") as [|a s]; cbn in Hr; [injection Hr; lia|].
  destruct (digit a) as [d|] eqn:Hd; [eauto|]. injection Hr. done.
Qed.

(** * Ordering: [sort.Strings] *)

Definition SortStrings (l : list string) : list string := merge_sort String.le l.

Lemma SortStrings_perm l : SortStrings l ≡ₚ l.
Proof. apply merge_sort_Permutation. Qed.
Lemma SortStrings_sorted l : StronglySorted String.le (SortStrings l).
Proof. apply StronglySorted_merge_sort; apply _. Qed.

(** Sorting forgets the order it is given: the ranging over a Go map that
    precedes a sort does not show in the result. *)
Lemma SortStrings_unique l k : l ≡ₚ k → SortStrings l = SortStrings k.
Proof.
  intros H. apply (StronglySorted_unique String.le).
  - apply SortStrings_sorted.
  - apply SortStrings_sorted.
  - by rewrite !SortStrings_perm.
Qed.
