(* ===== verification/Dates.v ===== *)
(** Instants and days of package time: an instant is a number of nanoseconds since
    1970 UTC, its date that of the proleptic Gregorian calendar.  The conversions
    are inverse to each other on every day of the calendar. *)

From S2P Require Export Prelude GoStrings.

Definition second : Z := 1000000000.
Definition minute : Z := 60 * second.
Definition hour : Z := 60 * minute.
Definition day_ns : Z := 24 * hour.

(** Days since 1970. *)
Definition day_of (t : Z) : Z := (t / day_ns)%Z.
(** [t.Truncate(24 * time.Hour)], [t.Truncate(time.Hour)] *)
Definition truncate (d t : Z) : Z := (t / d * d)%Z.

(** * Dates *)

(** The first day of a year of an era of 400 years; years begin in March. *)
Definition year_start (y : Z) : Z := (365 * y + y / 4 - y / 100)%Z.
Definition year_of_era (doe : Z) : Z :=
  let y := (doe / 366)%Z in
  if Z.ltb y 399 && Z.leb (year_start (y + 1)) doe then (y + 1)%Z else y.
(** Month and day of a day of a year. *)
Definition month_day (doy : Z) : Z * Z :=
  let mp := ((5 * doy + 2) / 153)%Z in
  (if Z.ltb mp 10 then (mp + 3)%Z else (mp - 9)%Z, (doy - (153 * mp + 2) / 5 + 1)%Z).
Definition of_era (era doe : Z) : Z * Z * Z :=
  let yoe := year_of_era doe in
  let '(m, d) := month_day (doe - year_start yoe) in
  ((yoe + era * 400 + if Z.leb m 2 then 1 else 0)%Z, m, d).
Definition civil (days : Z) : Z * Z * Z :=
  let z := (days + 719468)%Z in of_era (z / 146097) (z mod 146097).
Definition day_of_year (m d : Z) : Z := ((153 * (m + if Z.ltb 2 m then -3 else 9) + 2) / 5 + d - 1)%Z.
Definition to_era (yoe m d : Z) : Z := (year_start yoe + day_of_year m d)%Z.
(** The days of a date; the day may lie outside its month. *)
Definition days_of (y m d : Z) : Z :=
  let y := if Z.leb m 2 then (y - 1)%Z else y in
  (y / 400 * 146097 + to_era (y mod 400) m d - 719468)%Z.

Definition leap (y : Z) : bool := Z.eqb (y mod 4) 0 && (negb (Z.eqb (y mod 100) 0) || Z.eqb (y mod 400) 0).
Definition month_length (y m : Z) : Z :=
  if Z.eqb m 2 then (if leap y then 29 else 28)%Z
  else if Z.eqb m 4 || Z.eqb m 6 || Z.eqb m 9 || Z.eqb m 11 then 30%Z else 31%Z.
Definition valid_date (y m d : Z) : bool :=
  Z.leb 1 m && Z.leb m 12 && Z.leb 1 d && Z.leb d (month_length y m).

(** [t.AddDate(0, months, days)], the time of day kept: a month may overflow into
    the next. *)
Definition add_date (months days t : Z) : Z :=
  let '(y, m, d) := civil (day_of t) in
  let m0 := (m - 1 + months)%Z in
  ((days_of (y + m0 / 12) (m0 mod 12 + 1) d + days) * day_ns + t mod day_ns)%Z.

(** * Formats *)

(** At least [width] digits. *)
Definition pad (width : nat) (n : Z) : string :=
  let s := Itoa n in String.concat "" (repeat "0" (width - String.length s)) +:+ s.
Definition format_day (t : Z) : string :=
  let '(y, m, d) := civil (day_of t) in pad 4 y +:+ "-" +:+ pad 2 m +:+ "-" +:+ pad 2 d.
Definition format_month (t : Z) : string :=
  let '(y, m, _) := civil (day_of t) in pad 4 y +:+ "-" +:+ pad 2 m.

(** * The calendar is consistent *)

Fixpoint all_below (n : nat) (i : Z) (p : Z → bool) : bool :=
  match n with O => true | S n => p i && all_below n (i + 1) p end.
Lemma all_below_spec n i p : all_below n i p = true → ∀ x, (i ≤ x < i + Z.of_nat n)%Z → p x = true.
Proof.
  revert i. induction n as [|n IH]; intros i; cbn; [lia|]. rewrite andb_true_iff. intros [Hi Hn] x Hx.
  destruct (decide (x = i)) as [->|]; [done|]. apply (IH (i + 1)%Z Hn). lia.
Qed.

(** The days of a year, from March on; the last one, if any, is the 29th of February. *)
Definition doy_ok (doy : Z) : bool :=
  let '(m, d) := month_day doy in
  Z.eqb (day_of_year m d) doy && Z.leb 1 m && Z.leb m 12 && Z.leb 1 d &&
  (if Z.eqb doy 365 then Z.eqb m 2 && Z.eqb d 29
   else Z.leb d (if Z.eqb m 2 then 28 else if Z.eqb m 4 || Z.eqb m 6 || Z.eqb m 9 || Z.eqb m 11 then 30 else 31)).
Lemma year_days : all_below 366 0 doy_ok = true.
Proof. vm_compute. reflexivity. Qed.

(** A day lies in its year, and the last day of a long year before a leap year. *)
Lemma year_of_era_spec doe : (0 ≤ doe < 146097)%Z → let y := year_of_era doe in
  (0 ≤ y < 400)%Z ∧ (0 ≤ doe - year_start y ≤ 365)%Z ∧ ((doe - year_start y = 365)%Z → leap (y + 1) = true).
Proof.
  intros Hd. unfold year_of_era. set (y := (doe / 366)%Z). assert (Hy : (366 * y ≤ doe < 366 * y + 366)%Z).
  { pose proof (Z.div_mod doe 366). pose proof (Z.mod_pos_bound doe 366). unfold y. lia. }
  assert (Hs : ∀ n, (365 * n + (n - 3) / 4 - n / 100 ≤ year_start n)%Z) by (intros n; unfold year_start; pose proof (Z.div_le_mono (n - 3) n 4); lia).
  destruct (Z.ltb_spec y 399) as [Hlt|Hge]; cbn [andb].
  - destruct (Z.leb_spec (year_start (y + 1)) doe) as [Hle|Hgt]; cbv zeta.
    + split; [lia|]. assert (Hb : (doe - year_start (y + 1) ≤ 364)%Z) by (unfold year_start in *; Z.to_euclidean_division_equations; lia).
      split; [lia|]. lia.
    + split; [lia|]. split; [unfold year_start in *; Z.to_euclidean_division_equations; lia|].
      intros E. unfold leap. assert (Hm : ((y + 1) mod 4 = 0 ∧ (y + 1) mod 100 ≠ 0)%Z) by (unfold year_start in *; Z.to_euclidean_division_equations; lia).
      destruct Hm as [-> Hm]. rewrite (proj2 (Z.eqb_neq _ _) Hm). done.
  - assert (y = 399)%Z as -> by lia. split; [lia|]. assert (year_start 399 = 145731)%Z as -> by reflexivity. split; [lia|]. done.
Qed.

Lemma of_era_shift era doe : of_era era doe = let '(y, m, d) := of_era 0 doe in ((y + era * 400)%Z, m, d).
Proof. unfold of_era. destruct (month_day _) as [m d]. f_equal. f_equal. lia. Qed.
Lemma leap_shift y k : leap (y + k * 400) = leap y.
Proof.
  unfold leap. rewrite Z_mod_plus_full. replace (k * 400)%Z with (k * 4 * 100)%Z by lia. rewrite Z_mod_plus_full.
  replace (k * 4 * 100)%Z with (k * 100 * 4)%Z by lia. by rewrite Z_mod_plus_full.
Qed.

Lemma of_era_spec doe : (0 ≤ doe < 146097)%Z → let '(y, m, d) := of_era 0 doe in
  let y' := if Z.leb m 2 then (y - 1)%Z else y in
  (0 ≤ y' < 400)%Z ∧ valid_date y m d = true ∧ to_era y' m d = doe.
Proof.
  intros Hd. unfold of_era. destruct (year_of_era_spec doe Hd) as (Hy & Hdoy & Hleap). set (yoe := year_of_era doe) in *.
  set (doy := (doe - year_start yoe)%Z) in *. assert (Hok : doy_ok doy = true) by (apply (all_below_spec _ _ _ year_days); lia).
  unfold doy_ok in Hok. destruct (month_day doy) as [m d]. rewrite !andb_true_iff, Z.eqb_eq, !Z.leb_le in Hok. destruct Hok as [[[[Ed Hm1] Hm2] Hd1] Hlast].
  assert (Hy' : (if Z.leb m 2 then (yoe + 0 * 400 + (if Z.leb m 2 then 1 else 0) - 1)%Z else (yoe + 0 * 400 + (if Z.leb m 2 then 1 else 0))%Z) = yoe)
    by (destruct (Z.leb m 2); lia).
  cbv zeta. rewrite Hy'. split; [done|]. split; [|unfold to_era; rewrite Ed; unfold doy; lia].
  unfold valid_date, month_length. rewrite !andb_true_iff, !Z.leb_le. split; [lia|].
  destruct (Z.eqb_spec doy 365) as [E|Hne].
  - rewrite andb_true_iff, !Z.eqb_eq in Hlast. destruct Hlast as [-> ->]. change (if 2 <=? 2 then 1 else 0)%Z with 1%Z. replace (yoe + 0 * 400 + 1)%Z with (yoe + 1)%Z by lia. by rewrite (Hleap E).
  - apply Z.leb_le in Hlast. revert Hlast. destruct (Z.eqb m 2); [|done]. clear; intros; case_match; lia.
Qed.

(** A day's date is valid, and is that of no other day. *)
Lemma days_of_civil z : let '(y, m, d) := civil z in days_of y m d = z ∧ valid_date y m d = true.
Proof.
  unfold civil. set (era := ((z + 719468) / 146097)%Z). set (doe := ((z + 719468) mod 146097)%Z).
  assert (Hdoe : (0 ≤ doe < 146097)%Z) by (apply Z.mod_pos_bound; lia).
  pose proof (of_era_spec doe Hdoe) as Hok. rewrite (of_era_shift era).
  destruct (of_era 0 doe) as [[y m] d]. destruct Hok as (Hy & Hv & Hd).
  split.
  - unfold days_of. replace (if Z.leb m 2 then (y + era * 400 - 1)%Z else (y + era * 400)%Z) with ((if Z.leb m 2 then (y - 1)%Z else y) + era * 400)%Z
      by (destruct (Z.leb m 2); lia).
    rewrite Z_div_plus_full, Z_mod_plus_full, Z.div_small, Z.mod_small, Hd by lia. unfold doe, era.
    pose proof (Z.div_mod (z + 719468) 146097). lia.
  - unfold valid_date, month_length in *. by rewrite leap_shift.
Qed.
Lemma civil_inj z z' : civil z = civil z' → z = z'.
Proof.
  intros E. pose proof (days_of_civil z) as H. pose proof (days_of_civil z') as H'. rewrite E in H.
  destruct (civil z') as [[y m] d]. destruct H as [<- _], H' as [<- _]. done.
Qed.
