(* ===== verification/Floats.v ===== *)
(** Binary64 numbers, Go's float64, in the format of Stdlib's [SpecFloat]. *)

From Stdlib.Floats Require Export SpecFloat.
From S2P Require Export Prelude.

(** The nearest number to an integer; arithmetic rounds to nearest, ties to even. *)
Definition f64 (n : Z) : spec_float := binary_normalize 53 1024 n 0 false.
Definition fadd : spec_float → spec_float → spec_float := SFadd 53 1024.
Definition fsub : spec_float → spec_float → spec_float := SFsub 53 1024.
Definition fmul : spec_float → spec_float → spec_float := SFmul 53 1024.
Definition fdiv : spec_float → spec_float → spec_float := SFdiv 53 1024.
(** [float64(n)/float64(d)], which an untyped constant [n/d] is converted to. *)
Definition fconst (n d : Z) : spec_float := fdiv (f64 n) (f64 d).
Definition fsum (l : list spec_float) : spec_float := foldl fadd (f64 0) l.
Definition fpos (x : spec_float) : bool := SFltb (f64 0) x.
(** [int(x)]: towards zero; out of range and for NaN what amd64 gives. *)
Definition f_int (x : spec_float) : Z :=
  match x with
  | S754_zero _ => 0%Z
  | S754_finite s m e =>
      let a := if Z.leb 0 e then (Zpos m * 2 ^ e)%Z else (Zpos m / 2 ^ (- e))%Z in
      let n := if s then (- a)%Z else a in
      if Z.leb min_int64 n && Z.leb n max_int64 then n else min_int64
  | _ => min_int64
  end.
(** [sort.Float64s]: NaN first. *)
Definition is_nan (x : spec_float) : bool := match x with S754_nan => true | _ => false end.
Definition float_le (x y : spec_float) : bool := negb (SFltb y x || (is_nan y && negb (is_nan x))).
Definition fmax (x y : spec_float) : spec_float := if SFltb x y then y else x.
