(* ===== verification/Metrics.v ===== *)
(** Names of metrics, steps of a history and slow consumers: internal/domain/metrics.go
    and slow_consumer.go, the history handler internal/api/metrics_history.go, and the
    names of probe metrics of internal/domain/request_reply.go. *)

From S2P Require Export Dates Floats.
From S2P Require Import GoStrings.
From Stdlib Require Import Ascii.

(** * Names *)

Definition CounterMetrics : list string :=
  ["server.in_msgs_total"; "server.out_msgs_total"; "server.in_bytes_total"; "server.out_bytes_total"].
Definition DefaultDashboardMetrics : list string :=
  ["jetstream.storage_bytes"; "jetstream.memory_bytes"; "jetstream.streams"; "jetstream.consumers"; "jetstream.slow_consumers";
   "jetstream.consumer_max_lag"; "jetstream.consumer_max_pending"; "jetstream.consumer_max_ack_pending"; "jsz.messages";
   "jsz.streams"; "jsz.consumers"; "server.connections"; "server.in_msgs_total"; "server.out_msgs_total";
   "server.in_bytes_total"; "server.out_bytes_total"; "server.cpu_percent"; "server.mem_bytes"].
Definition streamMetricKinds : list string := ["last_seq"; "bytes"; "delivered_seq"; "ack_floor_seq"].
Definition streamMetricGaugeKinds : list string := ["avg_payload_bytes"].
Definition ValidMetricName (name : string) : bool := name ∈b DefaultDashboardMetrics.
Definition IsStreamRateMetricKind (kind : string) : bool := kind ∈b streamMetricKinds.
Definition IsStreamGaugeMetricKind (kind : string) : bool := kind ∈b streamMetricGaugeKinds.

Definition StreamMetric (streamName kind : string) : string := "stream:" +:+ streamName +:+ ":" +:+ kind.
(** [A-Za-z0-9_/-] *)
Definition stream_name_char (a : ascii) : bool :=
  let n := nat_of_ascii a in
  (Nat.leb 65 n && Nat.leb n 90) || (Nat.leb 97 n && Nat.leb n 122) || (Nat.leb 48 n && Nat.leb n 57) ||
  bool_decide (a ∈ ["_"; "/"; "-"]%char).
(** The groups of [streamMetricRE]. *)
Definition ParseStreamMetric (metric : string) : option (string * string) :=
  if HasPrefix metric "stream:" then
    let '(name, kind, found) := Cut (TrimPrefix metric "stream:") ":" in
    if found && negb (IsEmpty name) && forallb stream_name_char (bytes_of name) &&
       (IsStreamRateMetricKind kind || IsStreamGaugeMetricKind kind)
    then Some (name, kind) else None
  else None.
Definition IsCounterMetric (name : string) : bool :=
  if name ∈b CounterMetrics then true
  else match ParseStreamMetric name with Some (_, kind) => IsStreamRateMetricKind kind | None => false end.

Definition RequestReplyProbeMetricPrefix : string := "request_reply.probe_latency_ms:".
Definition sanitizeProbeSubject (subject : string) : string :=
  let rewrite_byte a := if bool_decide (a ∈ [":"; ","; " "]%char) then "_"%char else a in
  of_bytes (rewrite_byte <$> bytes_of (TrimSpace subject)).
Definition RequestReplyProbeMetric (subject : string) : string := RequestReplyProbeMetricPrefix +:+ sanitizeProbeSubject subject.
Definition ParseRequestReplyProbeMetric (metric : string) : option string :=
  if negb (HasPrefix metric RequestReplyProbeMetricPrefix) then None
  else let subject := TrimPrefix metric RequestReplyProbeMetricPrefix in
       if IsEmpty subject then None else Some subject.
Definition ValidHistoryMetricName (name : string) : bool :=
  if ValidMetricName name then true
  else match ParseStreamMetric name with
  | Some (_, kind) =>
      if IsStreamRateMetricKind kind || IsStreamGaugeMetricKind kind then true
      else match ParseRequestReplyProbeMetric name with Some _ => true | None => false end
  | None => match ParseRequestReplyProbeMetric name with Some _ => true | None => false end
  end.
Definition StreamRateMetricsCSV (streamName : string) : string :=
  Join [StreamMetric streamName "last_seq"; StreamMetric streamName "delivered_seq";
        StreamMetric streamName "ack_floor_seq"; StreamMetric streamName "bytes"] ",".

(** Bytes per message, if messages advanced. *)
Definition AvgPayloadBytes (deltaBytes deltaMsgs : spec_float) : option spec_float :=
  if SFleb deltaMsgs (f64 0) || SFltb deltaBytes (f64 0) then None else Some (fdiv deltaBytes deltaMsgs).

(** * Steps *)

Section Steps.
Context `{GoUnicode}.
Definition ParseMetricsStep (raw : string) : option Z :=
  let raw := TrimSpace (ToLower raw) in
  if IsEmpty raw then Some 0%Z
  else if raw =s "1m" then Some minute
  else if raw =s "5m" then Some (5 * minute)%Z
  else if raw =s "15m" then Some (15 * minute)%Z
  else if raw =s "1h" then Some hour
  else if raw =s "1d" then Some (24 * hour)%Z
  else None.
Definition DefaultMetricsStep (from to : Z) : Z :=
  let rangeDur := (to - from)%Z in
  if Z.leb rangeDur (2 * hour) then minute
  else if Z.leb rangeDur (24 * hour) then (5 * minute)%Z
  else if Z.leb rangeDur (7 * 24 * hour) then hour
  else (24 * hour)%Z.
End Steps.

(** * A history: internal/api/metrics_history.go *)

Record MetricPoint := mkPoint { mp_T : Z; mp_V : spec_float }.
Definition wanted_metric (part : string) : option string :=
  let part := TrimSpace part in
  if IsEmpty part then None else if ValidHistoryMetricName part then Some part else None.
Definition parseMetricsQuery (raw : string) : list string :=
  if IsEmpty (TrimSpace raw) then DefaultDashboardMetrics
  else match omap wanted_metric (Split raw ",") with [] => DefaultDashboardMetrics | l => l end.
(** [d.Seconds()] of a duration of whole seconds and of any other *)
Definition seconds (d : Z) : spec_float := fadd (f64 (Z.quot d second)) (fdiv (f64 (Z.rem d second)) (f64 second)).
Definition rate_point (fallback : spec_float) (p q : MetricPoint) : MetricPoint :=
  let delta := fsub (mp_V q) (mp_V p) in
  let delta := if SFltb delta (f64 0) then f64 0 else delta in
  let secs := seconds (mp_T q - mp_T p) in
  let secs := if SFleb secs (f64 0) then fallback else secs in
  mkPoint (mp_T q) (fdiv delta secs).
Fixpoint rates (fallback : spec_float) (p : MetricPoint) (l : list MetricPoint) : list MetricPoint :=
  match l with [] => [] | q :: l => rate_point fallback p q :: rates fallback q l end.
Definition counterRates (points : list MetricPoint) (step : Z) : list MetricPoint :=
  let fallback := if SFleb (seconds step) (f64 0) then f64 60 else seconds step in
  match points with
  | [] => []
  | [p] => [mkPoint (mp_T p) (f64 0)]
  | p :: l => rates fallback p l
  end.
Definition series_points (step : Z) (series : gmap string (list MetricPoint)) (metric : string) : string * list MetricPoint :=
  let points := default [] (series !! metric) in
  (metric, if IsCounterMetric metric then counterRates points step else points).

(** * Slow consumers: internal/domain/slow_consumer.go *)

Record SlowConsumerThresholds := mkThresholds {
  th_PendingThreshold : Z;
  th_LagThreshold : Z;
  th_AckPendingRatio : spec_float;
}.
Definition WithDefaults (t : SlowConsumerThresholds) : SlowConsumerThresholds := mkThresholds
  (if Z.eqb (th_PendingThreshold t) 0 then 1000 else th_PendingThreshold t)
  (if Z.eqb (th_LagThreshold t) 0 then 1000 else th_LagThreshold t)
  (if SFleb (th_AckPendingRatio t) (f64 0) then fconst 9 10 else th_AckPendingRatio t).
Definition ConsumerLagMessages (streamLastSeq deliveredStreamSeq : Z) : Z :=
  if Z.leb streamLastSeq deliveredStreamSeq then 0 else (streamLastSeq - deliveredStreamSeq)%Z.
(** The number of unacknowledged messages from which on a consumer is slow. *)
Definition ack_limit (maxAckPending : Z) (ratio : spec_float) : Z := Z.max (f_int (fmul (f64 maxAckPending) ratio)) 1.
Definition EvaluateSlowConsumer (pending lag ackPending maxAckPending : Z) (thr : SlowConsumerThresholds) : bool * list string :=
  let thr := WithDefaults thr in
  let reasons :=
    (if Z.leb (th_PendingThreshold thr) pending then ["pending"] else []) ++
    (if Z.leb (th_LagThreshold thr) lag then ["lag"] else []) ++
    (if Z.ltb 0 maxAckPending && Z.leb (ack_limit maxAckPending (th_AckPendingRatio thr)) ackPending then ["ack_pending"] else []) in
  (Nat.ltb 0 (length reasons), reasons).
