(* ===== verification/Base64.v ===== *)
(** The part of Go's encoding/base64 the program relies on: the standard
    alphabet with padding, decoding as [base64.StdEncoding.DecodeString] does
    (line breaks are skipped, any other stray character is an error), and the
    encoder a client uses, with their round trip. *)

From S2P Require Export Prelude GoStrings.
From Stdlib Require Import Ascii.

(** * The alphabet *)

(** The six-bit value of a character of the standard alphabet. *)
Definition b64_value (a : ascii) : option Z :=
  let n := Z.of_nat (nat_of_ascii a) in
  if (65 <=? n)%Z && (n <=? 90)%Z then Some (n - 65)%Z          (* A-Z *)
  else if (97 <=? n)%Z && (n <=? 122)%Z then Some (n - 71)%Z    (* a-z *)
  else if (48 <=? n)%Z && (n <=? 57)%Z then Some (n + 4)%Z      (* 0-9 *)
  else if (n =? 43)%Z then Some 62%Z                            (* + *)
  else if (n =? 47)%Z then Some 63%Z                            (* / *)
  else None.

Definition b64_char (v : Z) : ascii :=
  ascii_of_nat (Z.to_nat
    (if (v <? 26)%Z then v + 65
     else if (v <? 52)%Z then v + 71
     else if (v <? 62)%Z then v - 4
     else if (v =? 62)%Z then 43 else 47)%Z).

Definition byte_of (z : Z) : ascii := ascii_of_nat (Z.to_nat z).
Definition val_of (a : ascii) : Z := Z.of_nat (nat_of_ascii a).

(** * Decoding *)

Definition line_break (a : ascii) : bool :=
  bool_decide (a = "010"%char) || bool_decide (a = "013"%char).

(** One quantum of four characters; padding ends the input. *)
Fixpoint decode_quanta (l : list ascii) : option (list ascii) :=
  match l with
  | [] => Some []
  | a :: b :: c :: d :: r =>
      match b64_value a, b64_value b with
      | Some x, Some y =>
          let b1 := byte_of (x * 4 + y / 16)%Z in
          if bool_decide (d = "="%char) then
            if bool_decide (c = "="%char) then
              match r with [] => Some [b1] | _ => None end
            else match b64_value c, r with
            | Some z, [] =>
                Some [b1; byte_of (y mod 16 * 16 + z / 4)%Z]
            | _, _ => None
            end
          else match b64_value c, b64_value d with
          | Some z, Some u =>
              match decode_quanta r with
              | Some out =>
                  Some (b1 :: byte_of (y mod 16 * 16 + z / 4)%Z
                        :: byte_of (z mod 4 * 64 + u)%Z :: out)
              | None => None
              end
          | _, _ => None
          end
      | _, _ => None
      end
  | _ => None
  end.

Definition DecodeString (s : string) : option string :=
  option_map of_bytes (decode_quanta (List.filter (λ a, negb (line_break a)) (bytes_of s))).

(** * Encoding *)

Fixpoint encode_bytes (l : list ascii) : list ascii :=
  match l with
  | [] => []
  | [a] =>
      [b64_char (val_of a / 4); b64_char (val_of a mod 4 * 16);
       "="%char; "="%char]
  | [a; b] =>
      [b64_char (val_of a / 4);
       b64_char (val_of a mod 4 * 16 + val_of b / 16);
       b64_char (val_of b mod 16 * 4); "="%char]
  | a :: b :: c :: r =>
      b64_char (val_of a / 4)
      :: b64_char (val_of a mod 4 * 16 + val_of b / 16)
      :: b64_char (val_of b mod 16 * 4 + val_of c / 64)
      :: b64_char (val_of c mod 64) :: encode_bytes r
  end.

Definition EncodeToString (s : string) : string := of_bytes (encode_bytes (bytes_of s)).

(** * Round trip *)

Definition six_bits : list Z := map Z.of_nat (seq 0 64).

Lemma six_bits_spec v : (0 ≤ v < 64)%Z → v ∈ six_bits.
Proof.
  intros. apply list_elem_of_In, in_map_iff. exists (Z.to_nat v).
  split; [lia|]. apply in_seq. lia.
Qed.

(** The facts about single characters hold by evaluation over the alphabet. *)
Lemma b64_alphabet :
  forallb (λ v, bool_decide (b64_value (b64_char v) = Some v) &&
                negb (bool_decide (b64_char v = "="%char)) &&
                negb (line_break (b64_char v))) six_bits = true.
Proof. vm_compute. reflexivity. Qed.

Lemma b64_char_spec v : (0 ≤ v < 64)%Z →
  b64_value (b64_char v) = Some v ∧ b64_char v ≠ "="%char ∧
  line_break (b64_char v) = false.
Proof.
  intros Hv%six_bits_spec. pose proof b64_alphabet as H.
  rewrite forallb_true_iff in H. specialize (H v Hv). cbn beta in H. by go_bool.
Qed.

Lemma val_of_range a : (0 ≤ val_of a < 256)%Z.
Proof. unfold val_of. pose proof (nat_ascii_bounded a). lia. Qed.
Lemma byte_of_val a : byte_of (val_of a) = a.
Proof. unfold byte_of, val_of. by rewrite Nat2Z.id, ascii_nat_embedding. Qed.

(** Induction three bytes at a time. *)
Lemma three_ind (P : list ascii → Prop) :
  P [] → (∀ a, P [a]) → (∀ a b, P [a; b]) →
  (∀ a b c r, P r → P (a :: b :: c :: r)) → ∀ l, P l.
Proof.
  intros H0 H1 H2 H3. apply list_len_ind. intros [|a [|b [|c r]]] IH; auto.
  apply H3, IH. cbn. lia.
Qed.

Lemma quantum_bytes a b c :
  let x := (val_of a / 4)%Z in
  let y := (val_of a mod 4 * 16 + val_of b / 16)%Z in
  let z := (val_of b mod 16 * 4 + val_of c / 64)%Z in
  let u := (val_of c mod 64)%Z in
  byte_of (x * 4 + y / 16) = a ∧ byte_of (y mod 16 * 16 + z / 4) = b ∧
  byte_of (z mod 4 * 64 + u) = c ∧
  (0 ≤ x < 64 ∧ 0 ≤ y < 64 ∧ 0 ≤ z < 64 ∧ 0 ≤ u < 64)%Z.
Proof.
  intros x y z u. pose proof (val_of_range a). pose proof (val_of_range b).
  pose proof (val_of_range c). subst x y z u.
  assert (∀ v w, v = w → byte_of v = byte_of w) as E by (by intros ?? ->).
  repeat split; try (etransitivity; [eapply E|apply byte_of_val]);
    Z.to_euclidean_division_equations; lia.
Qed.

(** Sextets of a byte stream are in range. *)
Ltac b64_range :=
  repeat match goal with
  | |- context [val_of ?a] =>
      lazymatch goal with
      | _ : (0 ≤ val_of a < 256)%Z |- _ => fail
      | _ => pose proof (val_of_range a)
      end
  end;
  Z.to_euclidean_division_equations; lia.

Lemma char_not_break v r : (0 ≤ v < 64)%Z →
  List.filter (λ a, negb (line_break a)) (b64_char v :: r) =
  b64_char v :: List.filter (λ a, negb (line_break a)) r.
Proof. intros (_ & _ & H)%b64_char_spec. cbn [List.filter]. by rewrite H. Qed.

Lemma filter_encoded l :
  List.filter (λ a, negb (line_break a)) (encode_bytes l) = encode_bytes l.
Proof.
  induction l as [|a|a b|a b c r IH] using three_ind; [done|..]; cbn [encode_bytes];
    rewrite ?char_not_break by b64_range; by rewrite ?IH.
Qed.

Lemma decode_encoded l : decode_quanta (encode_bytes l) = Some l.
Proof.
  assert (∀ v, (0 ≤ v < 64)%Z → b64_value (b64_char v) = Some v) as V
    by (intros; by apply b64_char_spec).
  assert (∀ v, (0 ≤ v < 64)%Z → bool_decide (b64_char v = "="%char) = false) as N
    by (intros; by apply bool_decide_eq_false_2, b64_char_spec).
  induction l as [|a|a b|a b c r IH] using three_ind; [done|..]; cbn [encode_bytes decode_quanta].
  - destruct (quantum_bytes a "000" "000") as (E & _).
    rewrite !V by b64_range. change (val_of "000" / 16)%Z with 0%Z in E.
    rewrite Z.add_0_r in E. by rewrite E.
  - destruct (quantum_bytes a b "000") as (E & E' & _).
    change (val_of "000" / 64)%Z with 0%Z in E'. rewrite Z.add_0_r in E'.
    rewrite !V, N by b64_range. by rewrite E, E'.
  - destruct (quantum_bytes a b c) as (E & E' & E'' & _).
    rewrite !V, N by b64_range. by rewrite IH, E, E', E''.
Qed.

Lemma DecodeString_encode s : DecodeString (EncodeToString s) = Some s.
Proof.
  unfold DecodeString, EncodeToString.
  rewrite bytes_of_of, filter_encoded, decode_encoded. cbn. by rewrite of_bytes_of.
Qed.

Example decode_hello : DecodeString "dXNlcjpwYXNz" = Some "user:pass".
Proof. vm_compute. reflexivity. Qed.
