(* ===== verification/Authz.v ===== *)
(** The authorization decisions of the console: internal/domain/{role,user,
    access_grant,access_rules,permissions,authz}.go and the wrappers of
    internal/app/policy and internal/auth/permissions.go over them.

    A user's rights come from four sources: the root bit, the role names, the
    optional access rules (none at all makes an admin a "legacy full admin")
    and the resource grants.  [Can] is the single decision function, a switch
    over [Action] to the [Can...] predicates. *)

From S2P Require Export Prelude GoStrings.
From Stdlib Require Import Ascii.

(** * Data *)

Definition RoleAdmin := "admin".
Definition RoleOperator := "operator".
Definition RoleViewer := "viewer".

Definition ResourceSystem := "system".
Definition ResourceAccount := "account".
Definition ResourceNATSUser := "nats_user".

Definition GrantAdmin := "admin".
Definition GrantObserver := "observer".
Definition GrantCredentialDownloader := "credential_downloader".

Record AccessRules := {
  ar_ClusterIDs : list string;
  ar_AssignableRoles : list string;
  ar_ManageUsers : bool;
  ar_ViewAudit : bool;
  ar_DeleteClusters : bool;
}.

(** The columns the decisions read; the audit columns (CreatedAt, UpdatedAt,
    Username, Email) are carried by the handlers unchanged. *)
Record AccessGrant := {
  g_ID : string;
  g_UserID : string;
  g_ResourceType : string;
  g_ResourceKey : string;
  g_Role : string;
}.

Record User := {
  u_ID : string;
  u_Username : string;
  u_Email : string;
  u_OIDCSub : string;
  u_Roles : list string;
  u_AccessRules : option AccessRules;  (* nil pointer: None *)
  u_Grants : list AccessGrant;
  u_IsRoot : bool;
  u_SessionVersion : Z;
  u_CreatedAt : Z;
}.

#[export] Instance AccessRules_eq_dec : EqDecision AccessRules.
Proof. solve_decision. Defined.
#[export] Instance AccessGrant_eq_dec : EqDecision AccessGrant.
Proof. solve_decision. Defined.
#[export] Instance User_eq_dec : EqDecision User.
Proof. solve_decision. Defined.

(** * Roles *)

Definition HasRole (roles : list string) (role : string) : bool := role ∈b roles.

Definition HighestRole (roles : list string) : string :=
  if HasRole roles RoleAdmin then RoleAdmin
  else if HasRole roles RoleOperator then RoleOperator
  else if HasRole roles RoleViewer then RoleViewer
  else "".

Lemma HighestRole_admin roles :
  (HighestRole roles =s RoleAdmin) = HasRole roles RoleAdmin.
Proof.
  unfold HighestRole. destruct (HasRole roles RoleAdmin); [done|].
  destruct (HasRole roles RoleOperator); [done|].
  by destruct (HasRole roles RoleViewer).
Qed.

(** * Resource keys *)

Definition AccountResourceKey (clusterID accountName : string) : string :=
  clusterID +:+ ":" +:+ accountName.

Definition NATSUserResourceKey (clusterID accountName natsUserID : string) : string :=
  clusterID +:+ ":" +:+ accountName +:+ ":" +:+ natsUserID.

(** [ErrInvalidInput] wrapped with the message. *)
Definition ValidateAccountName (name : string) : option string :=
  if IsEmpty (TrimSpace name) then Some "account name is required"
  else if ContainsByte name ":" then Some "account name must not contain ':'"
  else None.

Definition natsUserGrantCoversAccount (resourceKey clusterID accountName : string) : bool :=
  let prefix := clusterID +:+ ":" +:+ accountName +:+ ":" in
  if negb (HasPrefix resourceKey prefix) then false
  else let id := TrimPrefix resourceKey prefix in
       negb (IsEmpty id) && negb (ContainsByte id ":").

(** * Permissions *)

Record Permissions := {
  p_ClusterIDs : list string;
  p_AssignableRoles : list string;
  p_IsRoot : bool;
  p_AllClusters : bool;
  p_ManageUsers : bool;
  p_ViewAudit : bool;
  p_DeleteClusters : bool;
}.

Definition FullPermissions : Permissions := {|
  p_ClusterIDs := [];
  p_AssignableRoles := [RoleAdmin; RoleOperator; RoleViewer];
  p_IsRoot := true; p_AllClusters := true; p_ManageUsers := true;
  p_ViewAudit := true; p_DeleteClusters := true;
|}.

Definition PermissionsFor (user : User) : Permissions :=
  if u_IsRoot user then FullPermissions
  else match u_AccessRules user with
  | None =>
      if HasRole (u_Roles user) RoleAdmin then
        {| p_ClusterIDs := [];
           p_AssignableRoles := [RoleAdmin; RoleOperator; RoleViewer];
           p_IsRoot := false; p_AllClusters := true; p_ManageUsers := true;
           p_ViewAudit := true; p_DeleteClusters := true |}
      else
        {| p_ClusterIDs := []; p_AssignableRoles := []; p_IsRoot := false;
           p_AllClusters := false; p_ManageUsers := false;
           p_ViewAudit := false; p_DeleteClusters := false |}
  | Some rules =>
      {| p_ClusterIDs := ar_ClusterIDs rules;
         p_AssignableRoles := ar_AssignableRoles rules;
         p_IsRoot := false; p_AllClusters := false;
         p_ManageUsers := ar_ManageUsers rules;
         p_ViewAudit := ar_ViewAudit rules;
         p_DeleteClusters := ar_DeleteClusters rules |}
  end.

Definition AllowsCluster (p : Permissions) (clusterID : string) : bool :=
  if p_IsRoot p || p_AllClusters p then true else clusterID ∈b p_ClusterIDs p.

Definition AllowsRole (p : Permissions) (role : string) : bool :=
  if p_IsRoot p then true
  else if Nat.eqb (length (p_AssignableRoles p)) 0 then false
  else HasRole (p_AssignableRoles p) role.

Definition AllowsRoles (p : Permissions) (roles : list string) : bool :=
  forallb (AllowsRole p) roles.

Definition CanAssignAccessRules (p : Permissions) (rules : option AccessRules) : bool :=
  if p_IsRoot p then true
  else match rules with
  | None => false
  | Some rules =>
      if ar_ManageUsers rules && negb (p_ManageUsers p) then false
      else if ar_ViewAudit rules && negb (p_ViewAudit p) then false
      else if ar_DeleteClusters rules && negb (p_DeleteClusters p) then false
      else if negb (forallb (AllowsCluster p) (ar_ClusterIDs rules)) then false
      else forallb (AllowsRole p) (ar_AssignableRoles rules)
  end.

Definition SupersetOf (p other : Permissions) : bool :=
  if p_IsRoot p then true
  else if p_ManageUsers other && negb (p_ManageUsers p) then false
  else if p_ViewAudit other && negb (p_ViewAudit p) then false
  else if p_DeleteClusters other && negb (p_DeleteClusters p) then false
  else if negb (forallb (AllowsCluster p) (p_ClusterIDs other)) then false
  else forallb (AllowsRole p) (p_AssignableRoles other).

(** Methods of a nil-able [*AccessRules]. *)
Definition rules_AllowsCluster (r : option AccessRules) (clusterID : string) : bool :=
  match r with
  | None => false
  | Some r => clusterID ∈b ar_ClusterIDs r
  end.

Definition rules_AllowsRole (r : option AccessRules) (role : string) : bool :=
  match r with
  | None => false
  | Some r => if Nat.eqb (length (ar_AssignableRoles r)) 0 then false
              else HasRole (ar_AssignableRoles r) role
  end.

(** The first assignable role that is not one of the three known ones. *)
Definition known_role (role : string) : bool :=
  (role =s RoleAdmin) || (role =s RoleOperator) || (role =s RoleViewer).

Definition ValidateAccessRules (rules : option AccessRules) : option string :=
  match rules with
  | None => None
  | Some rules =>
      if Nat.eqb (length (ar_ClusterIDs rules)) 0
      then Some "clusterIds required: assign at least one cluster"
      else match List.find (λ role, negb (known_role role)) (ar_AssignableRoles rules) with
      | Some role => Some ("invalid assignable role: " +:+ role)
      | None =>
          if ar_ManageUsers rules && Nat.eqb (length (ar_AssignableRoles rules)) 0
          then Some "assignableRoles required when manageUsers is true"
          else None
      end
  end.

(** * Grants *)

Definition hasAdminOrObserverGrant (user : User) (resourceType resourceKey : string) : bool :=
  existsb (λ g, (g_ResourceType g =s resourceType) && (g_ResourceKey g =s resourceKey))
    (u_Grants user).

Definition hasAdminGrant (user : User) (resourceType resourceKey : string) : bool :=
  existsb (λ g, (g_ResourceType g =s resourceType) && (g_ResourceKey g =s resourceKey) &&
                (g_Role g =s GrantAdmin))
    (u_Grants user).

(** * Decisions *)

Definition isLegacyFullAdmin (user : User) : bool :=
  (HighestRole (u_Roles user) =s RoleAdmin) &&
  match u_AccessRules user with None => true | Some _ => false end.

Definition allowsClusterRules (user : User) (clusterID : string) : bool :=
  if u_IsRoot user || isLegacyFullAdmin user then true
  else match u_AccessRules user with
  | None => false
  | Some rules => clusterID ∈b ar_ClusterIDs rules
  end.

Definition CanWrite (user : User) : bool :=
  if u_IsRoot user then true
  else let role := HighestRole (u_Roles user) in
       (role =s RoleAdmin) || (role =s RoleOperator).

(** The three capabilities delegated by a flag of the access rules. *)
Definition delegated (user : User) (flag : AccessRules → bool) : bool :=
  if u_IsRoot user || isLegacyFullAdmin user then true
  else match u_AccessRules user with
  | Some rules => flag rules
  | None => false
  end.

Definition CanDeleteCluster (user : User) : bool := delegated user ar_DeleteClusters.
Definition CanManageUsers (user : User) : bool := delegated user ar_ManageUsers.
Definition CanViewAudit (user : User) : bool := delegated user ar_ViewAudit.

Definition CanViewProfiling (user : User) : bool :=
  if u_IsRoot user then true else HighestRole (u_Roles user) =s RoleAdmin.

Definition CanManageAlertRules (user : User) : bool :=
  if u_IsRoot user then true
  else (HighestRole (u_Roles user) =s RoleAdmin) || CanManageUsers user.

Definition CanAccessCluster (user : User) (clusterID : string) : bool :=
  if allowsClusterRules user clusterID then true
  else hasAdminOrObserverGrant user ResourceSystem clusterID.

(** A grant on an account or a NATS user of the cluster. *)
Definition grantTouchesCluster (clusterID : string) (g : AccessGrant) : bool :=
  ((g_ResourceType g =s ResourceAccount) || (g_ResourceType g =s ResourceNATSUser)) &&
  ((g_ResourceKey g =s clusterID) || HasPrefix (g_ResourceKey g) (clusterID +:+ ":")).

Definition CanAccessClusterOrAccount (user : User) (clusterID : string) : bool :=
  if CanAccessCluster user clusterID then true
  else existsb (grantTouchesCluster clusterID) (u_Grants user).

Definition grantCoversAccount (clusterID accountName : string) (g : AccessGrant) : bool :=
  if g_ResourceType g =s ResourceAccount
  then g_ResourceKey g =s AccountResourceKey clusterID accountName
  else if g_ResourceType g =s ResourceNATSUser
  then natsUserGrantCoversAccount (g_ResourceKey g) clusterID accountName
  else false.

Definition CanAccessAccount (user : User) (clusterID accountName : string) : bool :=
  if CanAccessCluster user clusterID then true
  else existsb (grantCoversAccount clusterID accountName) (u_Grants user).

Definition CanWriteCluster (user : User) (clusterID : string) : bool :=
  if u_IsRoot user then true
  else if hasAdminGrant user ResourceSystem clusterID then true
  else CanWrite user && allowsClusterRules user clusterID.

Definition CanManageJetStream (user : User) (clusterID : string) : bool :=
  if u_IsRoot user then true
  else if hasAdminGrant user ResourceSystem clusterID then true
  else (HighestRole (u_Roles user) =s RoleAdmin) && allowsClusterRules user clusterID.

Definition CanManageJetStreamAccount (user : User) (clusterID accountName : string) : bool :=
  if CanManageJetStream user clusterID then true
  else hasAdminGrant user ResourceAccount (AccountResourceKey clusterID accountName).

Definition grantAllowsCreds (accountKey natsUserKey : string) (g : AccessGrant) : bool :=
  if negb ((g_Role g =s GrantAdmin) || (g_Role g =s GrantCredentialDownloader)) then false
  else if g_ResourceType g =s ResourceAccount then g_ResourceKey g =s accountKey
  else if g_ResourceType g =s ResourceNATSUser
  then negb (IsEmpty natsUserKey) && (g_ResourceKey g =s natsUserKey)
  else false.

Definition CanDownloadCreds (user : User) (clusterID accountName natsUserID : string) : bool :=
  if u_IsRoot user then true
  else if hasAdminGrant user ResourceSystem clusterID then true
  else
    let accountKey := AccountResourceKey clusterID accountName in
    let natsUserKey :=
      if negb (IsEmpty natsUserID)
      then NATSUserResourceKey clusterID accountName natsUserID else "" in
    if existsb (grantAllowsCreds accountKey natsUserKey) (u_Grants user) then true
    else (HighestRole (u_Roles user) =s RoleAdmin) && allowsClusterRules user clusterID.

Definition CanManageSystemAccess (user : User) (clusterID : string) : bool :=
  if u_IsRoot user then true
  else if hasAdminGrant user ResourceSystem clusterID then true
  else CanManageUsers user && CanAccessCluster user clusterID.

Definition CanManageAccountAccess (user : User) (clusterID accountName : string) : bool :=
  if CanManageSystemAccess user clusterID then true
  else hasAdminGrant user ResourceAccount (AccountResourceKey clusterID accountName).

Definition CanMintAdminGrant (user : User) (resourceType resourceKey : string) : bool :=
  if u_IsRoot user || isLegacyFullAdmin user then true
  else hasAdminGrant user resourceType resourceKey.

(** * The decision function *)

(** [type Action string]: the sixteen constants, and any other string. *)
Inductive Action :=
  | ActionWrite | ActionDeleteCluster | ActionManageUsers | ActionViewAudit
  | ActionViewProfiling | ActionManageAlertRules | ActionAccessCluster
  | ActionAccessClusterOrAccount | ActionAccessAccount | ActionWriteCluster
  | ActionManageJetStream | ActionManageJetStreamAccount | ActionDownloadCreds
  | ActionManageSystemAccess | ActionManageAccountAccess | ActionMintAdminGrant
  | ActionOther (name : string).

Record Resource := {
  r_Type : string;
  r_Key : string;
  r_ClusterID : string;
  r_Account : string;
  r_NATSUserID : string;
}.

Definition Can (user : User) (action : Action) (resource : Resource) : bool :=
  match action with
  | ActionWrite => CanWrite user
  | ActionDeleteCluster => CanDeleteCluster user
  | ActionManageUsers => CanManageUsers user
  | ActionViewAudit => CanViewAudit user
  | ActionViewProfiling => CanViewProfiling user
  | ActionManageAlertRules => CanManageAlertRules user
  | ActionAccessCluster => CanAccessCluster user (r_ClusterID resource)
  | ActionAccessClusterOrAccount => CanAccessClusterOrAccount user (r_ClusterID resource)
  | ActionAccessAccount => CanAccessAccount user (r_ClusterID resource) (r_Account resource)
  | ActionWriteCluster => CanWriteCluster user (r_ClusterID resource)
  | ActionManageJetStream => CanManageJetStream user (r_ClusterID resource)
  | ActionManageJetStreamAccount =>
      CanManageJetStreamAccount user (r_ClusterID resource) (r_Account resource)
  | ActionDownloadCreds =>
      CanDownloadCreds user (r_ClusterID resource) (r_Account resource)
        (r_NATSUserID resource)
  | ActionManageSystemAccess => CanManageSystemAccess user (r_ClusterID resource)
  | ActionManageAccountAccess =>
      CanManageAccountAccess user (r_ClusterID resource) (r_Account resource)
  | ActionMintAdminGrant => CanMintAdminGrant user (r_Type resource) (r_Key resource)
  | ActionOther _ => false
  end.

(** * Grants only add rights *)

Definition with_grants (gs : list AccessGrant) (user : User) : User := {|
  u_ID := u_ID user; u_Username := u_Username user; u_Email := u_Email user;
  u_OIDCSub := u_OIDCSub user; u_Roles := u_Roles user;
  u_AccessRules := u_AccessRules user; u_Grants := gs;
  u_IsRoot := u_IsRoot user; u_SessionVersion := u_SessionVersion user;
  u_CreatedAt := u_CreatedAt user;
|}.

Lemma existsb_mono {A} (f : A → bool) l k :
  l ⊆ k → existsb f l = true → existsb f k = true.
Proof. rewrite !existsb_true_iff. intros H (x & ? & ?). eauto. Qed.

(** Boolean implication through the early returns of a decision: a test that
    can only become true keeps every decision built from it. *)
Definition bimpl (a b : bool) : Prop := a = true → b = true.

Lemma bimpl_refl a : bimpl a a.
Proof. by unfold bimpl. Qed.
Lemma bimpl_or_else a a' b b' :
  bimpl a a' → bimpl b b' → bimpl (if a then true else b) (if a' then true else b').
Proof. unfold bimpl. destruct a, a', b, b'; intuition congruence. Qed.
Lemma bimpl_and a a' b b' : bimpl a a' → bimpl b b' → bimpl (a && b) (a' && b').
Proof. unfold bimpl. destruct a, a', b, b'; intuition congruence. Qed.

Create HintDb authz discriminated.
#[export] Hint Resolve bimpl_refl bimpl_or_else bimpl_and : authz.

Section GrantsMono.
Context (user : User) (gs : list AccessGrant) (Hgs : u_Grants user ⊆ gs).
Let user' := with_grants gs user.

Lemma bimpl_existsb f : bimpl (existsb f (u_Grants user)) (existsb f gs).
Proof. intros ?. eapply existsb_mono; eauto. Qed.
#[local] Hint Resolve bimpl_existsb : authz.

Lemma hasAdminGrant_mono t k : bimpl (hasAdminGrant user t k) (hasAdminGrant user' t k).
Proof. apply bimpl_existsb. Qed.
Lemma hasAdminOrObserverGrant_mono t k :
  bimpl (hasAdminOrObserverGrant user t k) (hasAdminOrObserverGrant user' t k).
Proof. apply bimpl_existsb. Qed.
#[local] Hint Resolve hasAdminGrant_mono hasAdminOrObserverGrant_mono : authz.

Lemma CanAccessCluster_mono c : bimpl (CanAccessCluster user c) (CanAccessCluster user' c).
Proof. unfold CanAccessCluster. apply bimpl_or_else; auto with authz. Qed.
#[local] Hint Resolve CanAccessCluster_mono : authz.

Lemma CanManageJetStream_mono c :
  bimpl (CanManageJetStream user c) (CanManageJetStream user' c).
Proof. unfold CanManageJetStream. repeat apply bimpl_or_else; auto with authz. Qed.
#[local] Hint Resolve CanManageJetStream_mono : authz.

Lemma CanManageSystemAccess_mono c :
  bimpl (CanManageSystemAccess user c) (CanManageSystemAccess user' c).
Proof.
  unfold CanManageSystemAccess.
  repeat (apply bimpl_or_else || apply bimpl_and); auto with authz.
Qed.
#[local] Hint Resolve CanManageSystemAccess_mono : authz.

Lemma Can_mono action r : bimpl (Can user action r) (Can user' action r).
Proof.
  destruct action; cbn;
    unfold CanAccessClusterOrAccount, CanAccessAccount, CanWriteCluster,
      CanManageJetStreamAccount, CanDownloadCreds, CanManageAccountAccess,
      CanMintAdminGrant;
    repeat apply bimpl_or_else; auto with authz.
Qed.
End GrantsMono.

(** Giving a user more resource grants never takes a right away: for every
    action and resource, what [Can] allows with some grants it still allows
    with any larger set of grants, in whatever order they are listed. *)
Theorem Can_grants_monotone (user : User) (gs : list AccessGrant) action resource :
  u_Grants user ⊆ gs →
  Can user action resource = true →
  Can (with_grants gs user) action resource = true.
Proof. intros. by eapply Can_mono. Qed.

(** * The order between rights *)

Lemma hasAdminGrant_any user t k :
  hasAdminGrant user t k = true → hasAdminOrObserverGrant user t k = true.
Proof.
  unfold hasAdminGrant, hasAdminOrObserverGrant. rewrite !existsb_true_iff.
  intros (g & Hg & [H _]%andb_true_iff). eauto.
Qed.

Lemma hasAdminGrant_elem user t k :
  hasAdminGrant user t k = true ↔
  ∃ g, g ∈ u_Grants user ∧ g_ResourceType g = t ∧ g_ResourceKey g = k ∧
       g_Role g = GrantAdmin.
Proof.
  unfold hasAdminGrant. rewrite existsb_true_iff.
  setoid_rewrite andb_true_iff. setoid_rewrite andb_true_iff.
  setoid_rewrite bool_decide_eq_true. naive_solver.
Qed.

Lemma allowsClusterRules_access user c :
  allowsClusterRules user c = true → CanAccessCluster user c = true.
Proof. unfold CanAccessCluster. by intros ->. Qed.

Lemma root_allowsClusterRules user c :
  u_IsRoot user = true → allowsClusterRules user c = true.
Proof. unfold allowsClusterRules. by intros ->. Qed.

Lemma system_admin_access user c :
  hasAdminGrant user ResourceSystem c = true → CanAccessCluster user c = true.
Proof.
  unfold CanAccessCluster. intros H%hasAdminGrant_any. rewrite H. by go_if.
Qed.

#[export] Hint Resolve allowsClusterRules_access root_allowsClusterRules
  system_admin_access : authz.

Lemma NATSUserResourceKey_prefix c a u :
  NATSUserResourceKey c a u = (c +:+ ":" +:+ a +:+ ":") +:+ u.
Proof. unfold NATSUserResourceKey. by rewrite !app_assoc. Qed.

Lemma natsUserGrant_self c a u :
  u ≠ "" → ContainsByte u ":" = false →
  natsUserGrantCoversAccount (NATSUserResourceKey c a u) c a = true.
Proof.
  intros Hu Hc. unfold natsUserGrantCoversAccount.
  rewrite NATSUserResourceKey_prefix, HasPrefix_app, TrimPrefix_app. cbn.
  apply IsEmpty_false in Hu. by rewrite Hu, Hc.
Qed.

Lemma CanWriteCluster_access user c :
  CanWriteCluster user c = true → CanAccessCluster user c = true.
Proof.
  unfold CanWriteCluster. repeat go_if; eauto with authz.
  intros. go_bool. auto with authz.
Qed.

Lemma CanManageJetStream_write user c :
  CanManageJetStream user c = true → CanWriteCluster user c = true.
Proof.
  unfold CanManageJetStream, CanWriteCluster, CanWrite.
  destruct (u_IsRoot user); [done|]. destruct (hasAdminGrant _ _ _); [done|].
  by intros [-> ->]%andb_true_iff.
Qed.

Lemma CanManageSystemAccess_access user c :
  CanManageSystemAccess user c = true → CanAccessCluster user c = true.
Proof.
  unfold CanManageSystemAccess. repeat go_if; eauto with authz.
  intros. by go_bool.
Qed.

Lemma CanAccessCluster_account user c a :
  CanAccessCluster user c = true → CanAccessAccount user c a = true.
Proof. unfold CanAccessAccount. by intros ->. Qed.

#[export] Hint Resolve CanWriteCluster_access CanManageJetStream_write
  CanManageSystemAccess_access CanAccessCluster_account : authz.

Lemma account_admin_access user c a :
  hasAdminGrant user ResourceAccount (AccountResourceKey c a) = true →
  CanAccessAccount user c a = true.
Proof.
  rewrite hasAdminGrant_elem. intros (g & Hg & Ht & Hk & _).
  unfold CanAccessAccount. go_if; [done|].
  apply existsb_true_iff. exists g. split; [done|].
  unfold grantCoversAccount. rewrite Ht, Hk. by rewrite !bool_decide_eq_true_2.
Qed.
#[export] Hint Resolve account_admin_access : authz.

Lemma CanDownloadCreds_account user c a u :
  ContainsByte u ":" = false →
  CanDownloadCreds user c a u = true → CanAccessAccount user c a = true.
Proof.
  intros Hu. unfold CanDownloadCreds. cbn.
  destruct (u_IsRoot user) eqn:?; [eauto with authz|].
  destruct (hasAdminGrant _ _ _) eqn:?; [eauto with authz|].
  destruct (existsb _ _) eqn:Hg.
  2:{ intros. go_bool. eauto with authz. }
  intros _. apply existsb_true_iff in Hg as (g & Hg & Hd).
  unfold CanAccessAccount. go_if; [done|]. apply existsb_true_iff.
  exists g. split; [done|]. unfold grantAllowsCreds, grantCoversAccount in *.
  destruct (negb _); [done|]. case_bool_decide; [done|].
  case_bool_decide; [|done]. go_bool. subst.
  destruct (IsEmpty u) eqn:Eu; cbn in *; [done|].
  match goal with H : g_ResourceKey g = _ |- _ => rewrite H end.
  apply natsUserGrant_self; [by apply IsEmpty_false|done].
Qed.

Lemma HasPrefix_key c r : HasPrefix (c +:+ ":" +:+ r) (c +:+ ":") = true.
Proof. rewrite <- app_assoc. apply HasPrefix_app. Qed.

(** What a grant on an account or NATS user says, read off its key. *)
Lemma grantCoversAccount_iff c a g :
  grantCoversAccount c a g = true ↔
  (g_ResourceType g = ResourceAccount ∧ g_ResourceKey g = AccountResourceKey c a) ∨
  (g_ResourceType g = ResourceNATSUser ∧
   ∃ u, u ≠ "" ∧ ContainsByte u ":" = false ∧ g_ResourceKey g = NATSUserResourceKey c a u).
Proof.
  unfold grantCoversAccount. split.
  - case_bool_decide as Ht; [intros; go_bool; auto|].
    case_bool_decide as Hn; [|done]. unfold natsUserGrantCoversAccount.
    destruct (HasPrefix _ _) eqn:Hp; [|done]. cbn. intros H. go_bool.
    apply HasPrefix_spec in Hp as [u Hu]. rewrite Hu, TrimPrefix_app in *.
    right. split; [done|]. exists u. rewrite IsEmpty_false in *.
    by rewrite NATSUserResourceKey_prefix.
  - intros [[-> ->]|(-> & u & Hu & Hc & ->)]; [by rewrite !bool_decide_eq_true_2|].
    by rewrite natsUserGrant_self.
Qed.

Lemma CanAccessAccount_touches user c a :
  CanAccessAccount user c a = true → CanAccessClusterOrAccount user c = true.
Proof.
  unfold CanAccessAccount, CanAccessClusterOrAccount. go_if; [done|].
  rewrite !existsb_true_iff. intros (g & Hg & Hc). exists g. split; [done|].
  unfold grantTouchesCluster.
  apply grantCoversAccount_iff in Hc as [[-> ->]|(-> & u & _ & _ & ->)];
    unfold AccountResourceKey, NATSUserResourceKey;
    rewrite HasPrefix_key; (apply andb_true_iff; split; [reflexivity|apply orb_true_r]).
Qed.

(** The cluster and account rights form a hierarchy: managing JetStream
    implies writing the cluster, which implies reading it, which implies
    reading each of its accounts; every account right (managing its access,
    managing its JetStream, downloading the credentials of one of its users)
    implies reading the account; and reading an account implies reaching the
    cluster at all.  The identifier of a NATS user must be free of ':', as
    otherwise its key does not parse back to the account. *)
Theorem Can_hierarchy (user : User) c a u :
  (CanManageJetStream user c = true → CanWriteCluster user c = true) ∧
  (CanWriteCluster user c = true → CanAccessCluster user c = true) ∧
  (CanManageSystemAccess user c = true → CanAccessCluster user c = true) ∧
  (CanAccessCluster user c = true → CanAccessAccount user c a = true) ∧
  (CanManageAccountAccess user c a = true → CanAccessAccount user c a = true) ∧
  (CanManageJetStreamAccount user c a = true → CanAccessAccount user c a = true) ∧
  (ContainsByte u ":" = false →
   CanDownloadCreds user c a u = true → CanAccessAccount user c a = true) ∧
  (CanAccessAccount user c a = true → CanAccessClusterOrAccount user c = true).
Proof.
  repeat split; eauto using CanDownloadCreds_account, CanAccessAccount_touches with authz.
  - unfold CanManageAccountAccess. go_if; eauto with authz.
  - unfold CanManageJetStreamAccount. go_if; eauto 6 with authz.
Qed.

(** * Confinement of account grants *)

Definition colon_free (s : string) : Prop := ContainsByte s ":" = false.

(** A grant minted for an account, or for a NATS user of an account, with the
    key builders and colon-free names. *)
Inductive account_grant (g : AccessGrant) (c a : string) : Prop :=
  | on_account :
      g_ResourceType g = ResourceAccount →
      g_ResourceKey g = AccountResourceKey c a →
      account_grant g c a
  | on_nats_user u :
      g_ResourceType g = ResourceNATSUser →
      g_ResourceKey g = NATSUserResourceKey c a u →
      u ≠ "" → colon_free u →
      account_grant g c a.

Lemma account_grant_iff g c a : grantCoversAccount c a g = true ↔ account_grant g c a.
Proof.
  rewrite grantCoversAccount_iff. split.
  - intros [[]|(? & u & ? & ? & ?)]; [by eapply on_account|by eapply on_nats_user].
  - intros [|]; [by left|right]; eauto 6.
Qed.

Lemma colon_key_inj c c' r r' :
  colon_free c → colon_free c' → c +:+ ":" +:+ r = c' +:+ ":" +:+ r' → c = c' ∧ r = r'.
Proof.
  intros Hc Hc' H. apply (f_equal (λ s, Cut s ":")) in H.
  rewrite !(app_cons ":"), !app_nil_l, !Cut_app in H by done. by injection H.
Qed.

Lemma AccountResourceKey_inj c a c' a' :
  colon_free c → colon_free c' →
  AccountResourceKey c a = AccountResourceKey c' a' → c = c' ∧ a = a'.
Proof. apply colon_key_inj. Qed.

Lemma NATSUserResourceKey_inj c a u c' a' u' :
  colon_free c → colon_free c' → colon_free a → colon_free a' →
  NATSUserResourceKey c a u = NATSUserResourceKey c' a' u' → c = c' ∧ a = a' ∧ u = u'.
Proof.
  intros ???? H. apply colon_key_inj in H as [-> H]; [|done..].
  by apply colon_key_inj in H as [-> ->].
Qed.

(** Account confinement.  Take a user whose grants are all for accounts or
    NATS users, with colon-free names, and who has no cluster-wide access to
    [c].  Such a user reaches account [a] of [c] exactly through a grant minted
    for that very account: a grant for another account, or for an account of
    another cluster, never opens it. *)
Theorem CanAccessAccount_confined (user : User) c a :
  colon_free c → colon_free a →
  Forall (λ g, ∃ c' a', colon_free c' ∧ colon_free a' ∧ account_grant g c' a')
    (u_Grants user) →
  CanAccessCluster user c = false →
  CanAccessAccount user c a = true ↔
  ∃ g, g ∈ u_Grants user ∧
       ∀ c' a', colon_free c' → colon_free a' → account_grant g c' a' ↔ c' = c ∧ a' = a.
Proof.
  intros Hc Ha Hall Hno. unfold CanAccessAccount. rewrite Hno, existsb_true_iff.
  rewrite Forall_forall in Hall. split.
  - intros (g & Hg & Hcov%account_grant_iff). exists g. split; [done|].
    intros c' a' Hc' Ha'. split; [|by intros [-> ->]].
    intros H. destruct Hcov as [Ht Hk|u Ht Hk ? ?], H as [Ht' Hk'|u' Ht' Hk' ? ?];
      rewrite Ht in Ht'; try done; rewrite Hk in Hk'.
    + by apply AccountResourceKey_inj in Hk' as [-> ->].
    + by apply NATSUserResourceKey_inj in Hk' as (-> & -> & _).
  - intros (g & Hg & H). exists g. split; [done|]. apply account_grant_iff.
    by apply H.
Qed.

(** ** Sample users *)

Definition sample_grant (t k r : string) : AccessGrant :=
  {| g_ID := "g"; g_UserID := "u"; g_ResourceType := t; g_ResourceKey := k; g_Role := r |}.

Definition sample_user (root : bool) (roles : list string) (rules : option AccessRules)
    (gs : list AccessGrant) : User := {|
  u_ID := "u"; u_Username := "user"; u_Email := "user@local"; u_OIDCSub := "";
  u_Roles := roles; u_AccessRules := rules; u_Grants := gs;
  u_IsRoot := root; u_SessionVersion := 1; u_CreatedAt := 0;
|}.

Definition account_user : User :=
  sample_user false [RoleViewer] None
    [sample_grant ResourceNATSUser (NATSUserResourceKey "c1" "A" "n1") GrantObserver].

Lemma Can_grants_monotone_witness :
  Can (with_grants (sample_grant ResourceSystem "c2" GrantAdmin :: u_Grants account_user)
         account_user) ActionAccessAccount
      {| r_Type := ""; r_Key := ""; r_ClusterID := "c1"; r_Account := "A"; r_NATSUserID := "" |}
  = true.
Proof. apply Can_grants_monotone; [set_solver|reflexivity]. Defined.

Lemma Can_hierarchy_witness : CanAccessAccount account_user "c1" "A" = true.
Proof.
  destruct (Can_hierarchy
    (with_grants [sample_grant ResourceNATSUser (NATSUserResourceKey "c1" "A" "n1")
                    GrantCredentialDownloader] account_user) "c1" "A" "n1")
    as (_ & _ & _ & _ & _ & _ & H & _).
  pose proof (H eq_refl eq_refl). reflexivity.
Defined.

Lemma CanAccessAccount_confined_witness :
  CanAccessAccount account_user "c1" "A" = true ↔
  ∃ g, g ∈ u_Grants account_user ∧
       ∀ c' a', colon_free c' → colon_free a' →
         account_grant g c' a' ↔ c' = "c1" ∧ a' = "A".
Proof.
  apply CanAccessAccount_confined; [reflexivity|reflexivity| |reflexivity].
  apply Forall_singleton. exists "c1", "A". split; [reflexivity|].
  split; [reflexivity|]. apply (on_nats_user _ _ _ "n1"); done || reflexivity.
Defined.
