(* ===== verification/RateLimiter.v ===== *)
(** The per-address limiter of the login and invite endpoints
    (internal/api/middleware/limiter.go): a sliding window of the allowed
    requests of each address, compacted on use, with a purge of stale addresses
    every 256 allowed requests or when there are more than 512 of them.

    Times are integers of a monotone clock, handed to each call; the mutex makes
    each call atomic, so a history of the limiter is the list of its calls.  The
    specification keeps the whole log of allowed requests and counts those of
    the last window; the theorems show that compaction and purging do not change
    any answer, and the bound that follows. *)

From S2P Require Export Prelude.

Definition ipRateLimiterPurgeEvery : Z := 256.
Definition ipRateLimiterMaxStaleKeys : nat := 512.

Record ipRateLimiter := mkLimiter {
  rl_events : gmap string (list Z);
  rl_limit : Z;
  rl_window : Z;
  rl_allowCount : Z;
}.

Definition newIPRateLimiter (limit window : Z) : ipRateLimiter := mkLimiter ∅ limit window 0.

(** [t.After(cutoff)], kept in order: the compaction loop. *)
Definition compact (cutoff : Z) (times : list Z) : list Z :=
  List.filter (λ t, (cutoff <? t)%Z) times.

Definition purgeStaleLocked (cutoff : Z) (events : gmap string (list Z)) :
    gmap string (list Z) :=
  omap (λ times, match compact cutoff times with [] => None | l => Some l end) events.

Definition allow (key : string) (now : Z) (rl : ipRateLimiter) : bool * ipRateLimiter :=
  if (rl_limit rl <=? 0)%Z then (true, rl)
  else
    let cutoff := (now - rl_window rl)%Z in
    let times := compact cutoff (default [] (rl_events rl !! key)) in
    if (rl_limit rl <=? Z.of_nat (length times))%Z then
      (false, mkLimiter (<[key := times]> (rl_events rl)) (rl_limit rl) (rl_window rl)
                (rl_allowCount rl))
    else
      let events := <[key := times ++ [now]]> (rl_events rl) in
      let count := i64 (rl_allowCount rl + 1) in
      let events :=
        if (Z.rem count ipRateLimiterPurgeEvery =? 0)%Z ||
           Nat.ltb ipRateLimiterMaxStaleKeys (size events)
        then purgeStaleLocked cutoff events else events in
      (true, mkLimiter events (rl_limit rl) (rl_window rl) count).

(** A history of calls [(key, now)] and their answers. *)
Fixpoint run (calls : list (string * Z)) (rl : ipRateLimiter) : list bool * ipRateLimiter :=
  match calls with
  | [] => ([], rl)
  | (key, now) :: calls =>
      let '(ok, rl) := allow key now rl in
      let '(oks, rl) := run calls rl in
      (ok :: oks, rl)
  end.

(** * Specification: the log of allowed requests *)

Definition in_window (key : string) (lo hi : Z) (e : string * Z) : bool :=
  (e.1 =s key) && (lo <? e.2)%Z && (e.2 <=? hi)%Z.

Definition count_in (key : string) (lo hi : Z) (log : list (string * Z)) : nat :=
  length (List.filter (in_window key lo hi) log).

Definition spec_allow (limit window : Z) (key : string) (now : Z) (log : list (string * Z)) : bool :=
  (limit <=? 0)%Z || (Z.of_nat (count_in key (now - window) now log) <? limit)%Z.

Fixpoint spec_run (limit window : Z) (calls log : list (string * Z)) :
    list bool * list (string * Z) :=
  match calls with
  | [] => ([], log)
  | (key, now) :: calls =>
      let ok := spec_allow limit window key now log in
      let '(oks, log) := spec_run limit window calls (if ok then log ++ [(key, now)] else log) in
      (ok :: oks, log)
  end.

(** Calls in the order of the clock, none before [now]. *)
Fixpoint clocked (now : Z) (calls : list (string * Z)) : Prop :=
  match calls with
  | [] => True
  | (_, t) :: calls => (now ≤ t)%Z ∧ clocked t calls
  end.

(** * Simulation *)

Definition times_of (key : string) (log : list (string * Z)) : list Z :=
  (List.filter (λ e, e.1 =s key) log).*2.

Definition events_of (key : string) (rl : ipRateLimiter) : list Z :=
  default [] (rl_events rl !! key).

(** The limiter holds what the log holds, beyond every cutoff still to come. *)
Definition simulates (now : Z) (rl : ipRateLimiter) (log : list (string * Z)) : Prop :=
  (∀ e, e ∈ log → e.2 ≤ now)%Z ∧
  ∀ key cutoff, (now - rl_window rl ≤ cutoff)%Z →
    compact cutoff (events_of key rl) = compact cutoff (times_of key log).

#[local] Arguments compact : simpl never.

Lemma compact_cons c t l :
  compact c (t :: l) = if (c <? t)%Z then t :: compact c l else compact c l.
Proof. reflexivity. Qed.

Lemma compact_compact c c' l : (c ≤ c')%Z → compact c' (compact c l) = compact c' l.
Proof.
  intros Hc. induction l as [|t l IH]; [done|]. rewrite !compact_cons.
  destruct (Z.ltb_spec c t); rewrite ?compact_cons, IH; [done|].
  destruct (Z.ltb_spec c' t); [lia|done].
Qed.

Lemma compact_app c l k : compact c (l ++ k) = compact c l ++ compact c k.
Proof. apply List.filter_app. Qed.

Lemma times_of_app key log e :
  times_of key (log ++ [e]) = times_of key log ++ (if e.1 =s key then [e.2] else []).
Proof.
  unfold times_of. rewrite List.filter_app, fmap_app. cbn. by destruct (e.1 =s key).
Qed.

Lemma count_in_compact key lo hi log :
  (∀ e, e ∈ log → e.2 ≤ hi)%Z →
  count_in key lo hi log = length (compact lo (times_of key log)).
Proof.
  induction log as [|e log IH] using rev_ind; intros H; [done|].
  unfold count_in. rewrite List.filter_app, length_app, times_of_app, compact_app, length_app.
  fold (count_in key lo hi log).
  rewrite IH by (intros; apply H, elem_of_app; by left). f_equal. cbn.
  assert ((e.2 <=? hi)%Z = true) as E
    by (apply Z.leb_le, H, elem_of_app; right; by apply list_elem_of_singleton).
  unfold in_window. rewrite E, andb_true_r. destruct (e.1 =s key); [|done].
  rewrite compact_cons. by destruct (lo <? e.2)%Z.
Qed.

Lemma events_of_purge key cutoff c rl n :
  (cutoff ≤ c)%Z →
  compact c (events_of key (mkLimiter (purgeStaleLocked cutoff (rl_events rl))
                              (rl_limit rl) (rl_window rl) n)) =
  compact c (events_of key rl).
Proof.
  intros Hc. unfold events_of, purgeStaleLocked. cbn. rewrite lookup_omap.
  destruct (rl_events rl !! key) as [l|]; [|done]. cbn.
  rewrite <- (compact_compact cutoff c l) by done. by destruct (compact cutoff l).
Qed.

Lemma events_of_insert key key' times rl n :
  events_of key (mkLimiter (<[key' := times]> (rl_events rl)) (rl_limit rl) (rl_window rl) n) =
  if key' =s key then times else events_of key rl.
Proof.
  unfold events_of. cbn. case_bool_decide as E; [subst|].
  - by rewrite lookup_insert_eq.
  - by rewrite lookup_insert_ne.
Qed.

Lemma simulates_later now t rl log : simulates now rl log → (now ≤ t)%Z → simulates t rl log.
Proof.
  intros [H1 H2] Ht. split; [intros e He; specialize (H1 e He); lia|].
  intros key c Hc. apply H2. lia.
Qed.

Lemma simulates_purge now rl log n :
  simulates now rl log →
  simulates now (mkLimiter (purgeStaleLocked (now - rl_window rl) (rl_events rl))
                   (rl_limit rl) (rl_window rl) n) log.
Proof.
  intros [H1 H2]. split; [done|]. cbn. intros key c Hc. rewrite events_of_purge by done. auto.
Qed.

(** Storing the compacted times, with the call if it was allowed. *)
Lemma simulates_store now rl log key n (ok : bool) :
  simulates now rl log →
  simulates now
    (mkLimiter (<[key := compact (now - rl_window rl) (events_of key rl) ++
                         (if ok then [now] else [])]> (rl_events rl))
       (rl_limit rl) (rl_window rl) n)
    (log ++ if ok then [(key, now)] else []).
Proof.
  intros [H1 H2]. split; cbn.
  - intros e [He| He]%elem_of_app; [auto|]. destruct ok; [|by apply not_elem_of_nil in He].
    apply list_elem_of_singleton in He as ->. cbn. lia.
  - intros k c Hc. rewrite events_of_insert.
    assert (times_of k (log ++ (if ok then [(key, now)] else [])) =
            times_of k log ++ (if key =s k then if ok then [now] else [] else [])) as ->.
    { destruct ok; [by rewrite times_of_app|]. destruct (key =s k); by rewrite !app_nil_r. }
    case_bool_decide; subst; rewrite !compact_app, <- H2 by done.
    + by rewrite compact_compact.
    + by rewrite app_nil_r.
Qed.

(** One call keeps the simulation and answers as the specification. *)
Lemma allow_simulates now rl log key t :
  (0 < rl_limit rl)%Z → simulates now rl log → (now ≤ t)%Z →
  let '(ok, rl') := allow key t rl in
  ok = spec_allow (rl_limit rl) (rl_window rl) key t log ∧
  rl_limit rl' = rl_limit rl ∧ rl_window rl' = rl_window rl ∧
  simulates t rl' (if ok then log ++ [(key, t)] else log).
Proof.
  intros Hl Hsim Ht. apply (simulates_later now t) in Hsim; [|done].
  unfold allow, spec_allow. destruct (Z.leb_spec (rl_limit rl) 0); [lia|]. cbn [orb].
  rewrite count_in_compact by apply Hsim. rewrite <- (proj2 Hsim) by lia.
  change (default [] (rl_events rl !! key)) with (events_of key rl).
  destruct (Z.leb_spec (rl_limit rl)
    (Z.of_nat (length (compact (t - rl_window rl) (events_of key rl))))).
  - split; [symmetry; apply Z.ltb_ge; lia|]. repeat split.
    + apply Hsim.
    + pose proof (simulates_store t rl log key (rl_allowCount rl) false Hsim) as [_ H1].
      by rewrite !app_nil_r in H1.
  - split; [symmetry; apply Z.ltb_lt; lia|]. split; [done|]. split; [done|].
    pose proof (simulates_store t rl log key (i64 (rl_allowCount rl + 1)) true Hsim) as H1.
    destruct (_ || _); [|done].
    apply (simulates_purge _ _ _ (i64 (rl_allowCount rl + 1)) H1).
Qed.

Lemma run_simulates calls now rl log :
  (0 < rl_limit rl)%Z → simulates now rl log → clocked now calls →
  (run calls rl).1 = (spec_run (rl_limit rl) (rl_window rl) calls log).1.
Proof.
  revert now rl log. induction calls as [|[key t] calls IH]; intros now rl log Hl Hs Hc; [done|].
  destruct Hc as [Ht Hc]. cbn. pose proof (allow_simulates now rl log key t Hl Hs Ht) as H.
  destruct (allow key t rl) as [ok rl'] eqn:E. destruct H as (-> & Hl' & Hw' & Hs').
  rewrite <- Hl', <- Hw' in *. specialize (IH t rl' _ Hl Hs' Hc).
  destruct (run calls rl'), (spec_run _ _ calls _). cbn in *. by rewrite IH.
Qed.

Lemma new_simulates limit window now : simulates now (newIPRateLimiter limit window) [].
Proof.
  split; [intros e He; by apply not_elem_of_nil in He|].
  intros key c _. unfold events_of. cbn. by rewrite lookup_empty.
Qed.

(** A limit of zero or less switches the limiter off. *)
Lemma run_unlimited calls rl :
  (rl_limit rl ≤ 0)%Z → run calls rl = (map (λ _, true) calls, rl).
Proof.
  intros Hl. induction calls as [|[key t] calls IH]; [done|]. cbn. unfold allow.
  apply Z.leb_le in Hl as ->. by rewrite IH.
Qed.

Lemma spec_run_unlimited limit window calls log :
  (limit ≤ 0)%Z → (spec_run limit window calls log).1 = map (λ _, true) calls.
Proof.
  intros Hl. revert log. induction calls as [|[key t] calls IH]; intros log; [done|]. cbn.
  unfold spec_allow. assert ((limit <=? 0)%Z = true) as -> by (by apply Z.leb_le). cbn.
  specialize (IH (log ++ [(key, t)])). destruct (spec_run _ _ calls _). cbn in *. by rewrite IH.
Qed.

Lemma run_spec limit window now calls :
  clocked now calls →
  (run calls (newIPRateLimiter limit window)).1 = (spec_run limit window calls []).1.
Proof.
  intros Hc. destruct (Z.ltb_spec 0 limit).
  - by apply (run_simulates calls now), Hc; [..|apply new_simulates].
  - by rewrite run_unlimited, spec_run_unlimited.
Qed.

(** C6. Compaction and purging are transparent: under a monotone clock the
    limiter answers every history of calls exactly as the specification that
    keeps the whole log and counts the allowed requests of the last window. *)
Theorem limiter_refines_log (limit window now : Z) calls :
  clocked now calls →
  (run calls (newIPRateLimiter limit window)).1 = (spec_run limit window calls []).1.
Proof. apply run_spec. Qed.

(** * The bound *)

(** The calls a history allowed. *)
Fixpoint allowed (calls : list (string * Z)) (oks : list bool) : list (string * Z) :=
  match calls, oks with
  | c :: calls, ok :: oks => if ok then c :: allowed calls oks else allowed calls oks
  | _, _ => []
  end.

Lemma spec_run_log limit window calls log :
  (spec_run limit window calls log).2 =
  log ++ allowed calls (spec_run limit window calls log).1.
Proof.
  revert log. induction calls as [|[key t] calls IH]; intros log; cbn; [by rewrite app_nil_r|].
  destruct (spec_allow limit window key t log).
  - specialize (IH (log ++ [(key, t)])). destruct (spec_run _ _ calls _). cbn in *.
    by rewrite IH, <- List.app_assoc.
  - specialize (IH log). destruct (spec_run _ _ calls _). by cbn in *.
Qed.

Lemma filter_length_impl {A} (f g : A → bool) l :
  (∀ x, x ∈ l → f x = true → g x = true) →
  length (List.filter f l) ≤ length (List.filter g l).
Proof.
  induction l as [|x l IH]; intros H; [done|]. cbn.
  specialize (IH (λ y Hy, H y (list_elem_of_further _ _ _ Hy))).
  destruct (f x) eqn:E; [rewrite (H x (list_elem_of_here _ _) E); cbn; lia|].
  destruct (g x); cbn; lia.
Qed.

Definition bounded (limit window : Z) (log : list (string * Z)) : Prop :=
  ∀ key hi, (Z.of_nat (count_in key (hi - window) hi log) ≤ limit)%Z.

Lemma bounded_add limit window key t log :
  (∀ e, e ∈ log → e.2 ≤ t)%Z → bounded limit window log →
  (Z.of_nat (count_in key (t - window) t log) < limit)%Z →
  bounded limit window (log ++ [(key, t)]).
Proof.
  intros Hlog Hb Ha key' hi. unfold count_in. rewrite List.filter_app, length_app. cbn.
  destruct (in_window key' (hi - window) hi (key, t)) eqn:E; cbn.
  - unfold in_window in E. cbn in E. go_bool. subst key'.
    assert (length (List.filter (in_window key (hi - window) hi) log) ≤
            count_in key (t - window) t log).
    { apply filter_length_impl. intros e He. unfold in_window.
      specialize (Hlog e He). intros. go_bool.
      repeat (apply andb_true_iff; split); [by apply bool_decide_eq_true|lia..]. }
    lia.
  - specialize (Hb key' hi). unfold count_in in Hb. lia.
Qed.

Lemma spec_run_bounded limit window calls now log :
  (0 < limit)%Z → (∀ e, e ∈ log → e.2 ≤ now)%Z → clocked now calls →
  bounded limit window log → bounded limit window (spec_run limit window calls log).2.
Proof.
  intros Hl. revert now log. induction calls as [|[key t] calls IH]; intros now log Hlog Hc Hb; [done|].
  destruct Hc as [Ht Hc]. cbn.
  assert (∀ e, e ∈ log → e.2 ≤ t)%Z as Hlog' by (intros e He; specialize (Hlog e He); lia).
  unfold spec_allow at 1 2. destruct (Z.leb_spec limit 0); [lia|]. cbn.
  destruct (Z.ltb_spec (Z.of_nat (count_in key (t - window) t log)) limit) as [Hlt|Hge].
  - specialize (IH t (log ++ [(key, t)])). destruct (spec_run _ _ calls _). apply IH; [|done|].
    + intros e [He|He%list_elem_of_singleton]%elem_of_app; [auto|]; subst e. cbn. lia.
    + by apply bounded_add.
  - specialize (IH t log). destruct (spec_run _ _ calls _). by apply IH.
Qed.

(** The limiter bounds every window, not only the aligned ones: whatever
    calls are made under a monotone clock, and whatever purging happens in
    between, any interval of the window's length holds at most [limit] allowed
    requests of an address. *)
Theorem limiter_bound (limit window now : Z) calls key hi :
  (0 < limit)%Z → clocked now calls →
  (Z.of_nat (count_in key (hi - window) hi
     (allowed calls (run calls (newIPRateLimiter limit window)).1)) ≤ limit)%Z.
Proof.
  intros Hl Hc. rewrite (run_spec _ _ now) by done.
  pose proof (spec_run_log limit window calls []) as E. cbn in E. rewrite <- E.
  apply (spec_run_bounded _ _ calls now); [done| |done|].
  - intros e He. by apply not_elem_of_nil in He.
  - intros k h. cbn. lia.
Qed.

(** * Witnesses *)

Definition sample_calls : list (string * Z) :=
  [("10.0.0.1", 0); ("10.0.0.1", 10); ("10.0.0.2", 15); ("10.0.0.1", 20); ("10.0.0.1", 65);
   ("10.0.0.1", 71)]%Z.

Lemma limiter_refines_log_witness :
  (run sample_calls (newIPRateLimiter 2 60)).1 = [true; true; true; false; true; true].
Proof.
  transitivity (spec_run 2 60 sample_calls []).1; [|reflexivity].
  apply (limiter_refines_log 2 60 0). cbn. lia.
Defined.

Lemma limiter_bound_witness :
  (Z.of_nat (count_in "10.0.0.1" (71 - 60) 71
     (allowed sample_calls (run sample_calls (newIPRateLimiter 2 60)).1)) ≤ 2)%Z.
Proof. apply (limiter_bound 2 60 0); cbn; lia. Defined.
