(* ===== verification/TtlCache.v ===== *)
(** The cache with a time to live of internal/auth/ttl_cache.go, and its two
    instances session_cache.go and user_cache.go.

    Each method is one critical section on a monotone clock.  (Between the read
    and the write lock of [Get] another call may run; the second look at the
    entry under the write lock makes the deletion the one modelled here.)  The
    specification keeps every entry ever written and only compares times: the
    refinement theorem says that lazy deletion and purging never show. *)

From S2P Require Export Authz.

(** In nanoseconds. *)
Definition second : Z := 1000000000.
Definition defaultTTLCacheTTL : Z := 45 * second.
Definition ttlCachePurgeEvery : Z := 256.
Definition ttlCacheMaxStaleKeys : nat := 512.

Record ttlCacheEntry (V : Type) := mkEntry { te_expiresAt : Z; te_value : V }.
Arguments mkEntry {V} _ _.
Arguments te_expiresAt {V} _.
Arguments te_value {V} _.

Record ttlCache (V : Type) := mkCache {
  tc_entries : gmap string (ttlCacheEntry V);
  tc_ttl : Z;
  tc_ops : Z;   (* uint64 *)
}.
Arguments mkCache {V} _ _ _.
Arguments tc_entries {V} _.
Arguments tc_ttl {V} _.
Arguments tc_ops {V} _.

Section TtlCache.
Context {V : Type}.
Implicit Types (c : ttlCache V) (key : string) (now : Z).

Definition newTTLCache (ttl : Z) : ttlCache V :=
  mkCache ∅ (if (ttl <=? 0)%Z then defaultTTLCacheTTL else ttl) 0.

(** [!time.Now().After(expiresAt)] *)
Definition fresh_entry now (e : ttlCacheEntry V) : bool := (now <=? te_expiresAt e)%Z.

Definition Get key now c : option V * ttlCache V :=
  match tc_entries c !! key with
  | None => (None, c)
  | Some entry =>
      if fresh_entry now entry then (Some (te_value entry), c)
      else (None, mkCache (delete key (tc_entries c)) (tc_ttl c) (tc_ops c))
  end.

Definition purgeExpiredLocked now (entries : gmap string (ttlCacheEntry V)) :=
  filter (λ kv, fresh_entry now kv.2 = true) entries.

Definition ttl_Set key (value : V) now c : ttlCache V :=
  let entries := <[key := mkEntry (now + tc_ttl c) value]> (tc_entries c) in
  let ops := u64 (tc_ops c + 1) in
  let entries :=
    if (ops mod ttlCachePurgeEvery =? 0)%Z || Nat.ltb ttlCacheMaxStaleKeys (size entries)
    then purgeExpiredLocked now entries else entries in
  mkCache entries (tc_ttl c) ops.

Definition Invalidate key c : ttlCache V :=
  mkCache (delete key (tc_entries c)) (tc_ttl c) (tc_ops c).

(** * Specification *)

(** What a lookup answers, without the effect. *)
Definition live key now c : option V :=
  match tc_entries c !! key with
  | Some e => if fresh_entry now e then Some (te_value e) else None
  | None => None
  end.

Inductive op := OpGet (key : string) | OpSet (key : string) (v : V) | OpInvalidate (key : string).

Definition exec (o : op) now c : option V * ttlCache V :=
  match o with
  | OpGet key => Get key now c
  | OpSet key v => (None, ttl_Set key v now c)
  | OpInvalidate key => (None, Invalidate key c)
  end.

Fixpoint exec_all (h : list (op * Z)) c : list (option V) * ttlCache V :=
  match h with
  | [] => ([], c)
  | (o, now) :: h =>
      let '(a, c) := exec o now c in
      let '(l, c) := exec_all h c in (a :: l, c)
  end.

(** The specification: a store of values with the time they were written,
    never purged; a value is answered until it is [ttl] old. *)
Definition spec_live key now (ttl : Z) (store : gmap string (V * Z)) : option V :=
  match store !! key with
  | Some (v, t) => if (now <=? t + ttl)%Z then Some v else None
  | None => None
  end.

Definition spec_exec (o : op) now (ttl : Z) (store : gmap string (V * Z)) :
    option V * gmap string (V * Z) :=
  match o with
  | OpGet key => (spec_live key now ttl store, store)
  | OpSet key v => (None, <[key := (v, now)]> store)
  | OpInvalidate key => (None, delete key store)
  end.

Fixpoint spec_all (h : list (op * Z)) (ttl : Z) (store : gmap string (V * Z)) : list (option V) :=
  match h with
  | [] => []
  | (o, now) :: h =>
      let '(a, store) := spec_exec o now ttl store in a :: spec_all h ttl store
  end.

Fixpoint history_clocked now (h : list (op * Z)) : Prop :=
  match h with
  | [] => True
  | (_, t) :: h => (now ≤ t)%Z ∧ history_clocked t h
  end.

(** * Lemmas *)

Lemma Get_live key now c : (Get key now c).1 = live key now c.
Proof. unfold Get, live. destruct (_ !! key) as [e|]; [|done]. by destruct (fresh_entry now e). Qed.

Lemma Get_ttl key now c : tc_ttl (Get key now c).2 = tc_ttl c.
Proof. unfold Get. destruct (_ !! key) as [e|]; [|done]. by destruct (fresh_entry now e). Qed.

Lemma stale_later now now' (e : ttlCacheEntry V) :
  (now ≤ now')%Z → fresh_entry now e = false → fresh_entry now' e = false.
Proof. unfold fresh_entry. lia. Qed.

(** Neither a lookup nor a purge changes what later lookups answer. *)
Lemma live_Get key key' now now' c :
  (now ≤ now')%Z → live key' now' (Get key now c).2 = live key' now' c.
Proof.
  intros Ht. unfold Get, live. destruct (tc_entries c !! key) as [e|] eqn:E; [|done].
  destruct (fresh_entry now e) eqn:F; [done|]. cbn.
  destruct (decide (key = key')) as [->|Hk]; [|by rewrite lookup_delete_ne].
  rewrite lookup_delete_eq, E. by rewrite (stale_later now now').
Qed.

Lemma live_purge key now now' entries ttl ops :
  (now ≤ now')%Z →
  live key now' (mkCache (purgeExpiredLocked now entries) ttl ops) =
  live key now' (mkCache entries ttl ops).
Proof.
  intros Ht. unfold live, purgeExpiredLocked. cbn. rewrite map_lookup_filter.
  destruct (entries !! key) as [e|]; [|done]. cbn.
  destruct (decide (fresh_entry now e = true)) as [D|D].
  - rewrite option_guard_True by done. done.
  - rewrite option_guard_False by done. apply not_true_iff_false in D.
    by rewrite (stale_later now now').
Qed.

Lemma live_Set key key' v now now' c :
  (now ≤ now')%Z →
  live key' now' (ttl_Set key v now c) =
  if key =s key' then if (now' <=? now + tc_ttl c)%Z then Some v else None
  else live key' now' c.
Proof.
  intros Ht. unfold ttl_Set. destruct (_ || _); [rewrite live_purge by done|]; unfold live; cbn;
    (case_bool_decide as Hk; [subst; by rewrite lookup_insert_eq|by rewrite lookup_insert_ne]).
Qed.

Lemma live_Invalidate key key' now c :
  live key' now (Invalidate key c) = if key =s key' then None else live key' now c.
Proof.
  unfold live, Invalidate. cbn.
  case_bool_decide; [subst; by rewrite lookup_delete_eq|by rewrite lookup_delete_ne].
Qed.

(** A cache with [live] answers reads like any other with the same ones; a
    lookup that misses twice in the future. *)
Lemma live_expires key now now' c :
  (now ≤ now')%Z → live key now c = None → live key now' c = None.
Proof.
  unfold live. intros Ht. destruct (_ !! key) as [e|]; [|done].
  destruct (fresh_entry now e) eqn:F; [done|]. by rewrite (stale_later now now').
Qed.

(** An entry ends at most one time to live after it was written. *)
Definition ends_by (limit : Z) key c : Prop :=
  ∀ e, tc_entries c !! key = Some e → (te_expiresAt e ≤ limit)%Z.

Lemma ends_by_live limit key now c :
  ends_by limit key c → (limit < now)%Z → live key now c = None.
Proof.
  unfold ends_by, live, fresh_entry. intros He Ht. destruct (_ !! key) as [e|]; [|done].
  specialize (He e eq_refl). by destruct (Z.leb_spec now (te_expiresAt e)); [lia|].
Qed.

Definition simulates_store now c (store : gmap string (V * Z)) : Prop :=
  ∀ key now', (now ≤ now')%Z → live key now' c = spec_live key now' (tc_ttl c) store.

Lemma exec_simulates o now t c store :
  simulates_store now c store → (now ≤ t)%Z →
  (exec o t c).1 = (spec_exec o t (tc_ttl c) store).1 ∧
  tc_ttl (exec o t c).2 = tc_ttl c ∧
  simulates_store t (exec o t c).2 (spec_exec o t (tc_ttl c) store).2.
Proof.
  intros Hs Ht. unfold simulates_store. destruct o as [key|key v|key]; cbn.
  - rewrite Get_live, Get_ttl. split; [by apply Hs|]. split; [done|].
    intros k now' Hn. rewrite live_Get by done. apply Hs. lia.
  - split; [done|]. split; [done|]. intros k now' Hn. rewrite live_Set by done.
    unfold spec_live. case_bool_decide as Hk; [subst; by rewrite lookup_insert_eq|].
    rewrite lookup_insert_ne by done. apply Hs. lia.
  - split; [done|]. split; [done|]. intros k now' Hn. rewrite live_Invalidate.
    unfold spec_live. case_bool_decide as Hk; [subst; by rewrite lookup_delete_eq|].
    rewrite lookup_delete_ne by done. apply Hs. lia.
Qed.

Lemma newTTLCache_simulates now ttl : simulates_store now (newTTLCache ttl) ∅.
Proof. intros key now' _. unfold live, spec_live. cbn. by rewrite !lookup_empty. Qed.

(** C10. The cache is a store with a time to live: over every history of reads,
    writes and invalidations under a monotone clock, the answers are those of
    the specification, which keeps every value and answers the last one written
    to the key, unless it was invalidated since, as long as it is at most [ttl]
    old.  No stale value is ever answered and no live one is lost to a purge. *)
Theorem ttlCache_refines_store (h : list (op * Z)) ttl now :
  history_clocked now h →
  (exec_all h (newTTLCache ttl)).1 =
  spec_all h (tc_ttl (newTTLCache ttl)) ∅.
Proof.
  pose proof (newTTLCache_simulates now ttl) as Hs. revert Hs.
  generalize (newTTLCache ttl) (∅ : gmap string (V * Z)).
  revert now. induction h as [|[o t] h IH]; intros now c store Hs Hc; [done|].
  destruct Hc as [Ht Hc]. cbn. destruct (exec_simulates o now t c store Hs Ht) as (Ha & Hl & Hs').
  destruct (exec o t c) as [a c'], (spec_exec o t (tc_ttl c) store) as [a' store']. cbn in *.
  specialize (IH t c' store' Hs' Hc). destruct (exec_all h c') as [l c'']. cbn in *.
  by rewrite Ha, IH, Hl.
Qed.
End TtlCache.

Lemma ttlCache_refines_store_witness :
  (exec_all [(OpSet "k" 1, 0); (OpGet "k", 5); (OpSet "k" 2, 6); (OpGet "k", 16);
             (OpGet "k", 17); (OpSet "k" 3, 18); (OpInvalidate "k", 19); (OpGet "k", 20)]%Z
     (newTTLCache 10)).1
  = [None; Some 1%Z; None; Some 2%Z; None; None; None; None].
Proof.
  transitivity (spec_all [(OpSet "k" 1, 0); (OpGet "k", 5); (OpSet "k" 2, 6); (OpGet "k", 16);
             (OpGet "k", 17); (OpSet "k" 3, 18); (OpInvalidate "k", 19); (OpGet "k", 20)]%Z
     10 ∅); [|reflexivity].
  apply (ttlCache_refines_store _ 10 0). cbn. lia.
Defined.

(** * The instances *)

Definition defaultSessionCacheTTL : Z := 45 * second.
Definition defaultUserCacheTTL : Z := 5 * second.

Record cachedSession := { cs_fingerprint : string; cs_user : User }.

Definition newSessionCache (ttl : Z) : ttlCache cachedSession :=
  newTTLCache (if (ttl <=? 0)%Z then defaultSessionCacheTTL else ttl).

Definition sessions_Get (token fingerprint : string) (now : Z) (c : ttlCache cachedSession) :
    option User * ttlCache cachedSession :=
  match Get token now c with
  | (Some entry, c) => (if cs_fingerprint entry <>s fingerprint then None else Some (cs_user entry), c)
  | (None, c) => (None, c)
  end.

Definition sessions_Set (token fingerprint : string) (user : User) (now : Z)
    (c : ttlCache cachedSession) : ttlCache cachedSession :=
  if IsEmpty token then c
  else ttl_Set token {| cs_fingerprint := fingerprint; cs_user := user |} now c.

Definition sessions_Invalidate (token : string) (c : ttlCache cachedSession) :=
  if IsEmpty token then c else Invalidate token c.

Definition newUserCache (ttl : Z) : ttlCache User :=
  newTTLCache (if (ttl <=? 0)%Z then defaultUserCacheTTL else ttl).

Definition users_Set (user : User) (now : Z) (c : ttlCache User) : ttlCache User :=
  if IsEmpty (u_ID user) then c else ttl_Set (u_ID user) user now c.

Definition users_Invalidate (userID : string) (c : ttlCache User) : ttlCache User :=
  if IsEmpty userID then c else Invalidate userID c.
