(* ===== verification/Subjects.v ===== *)
(** NATS subjects and patterns: the matcher and the permission check of
    internal/subjectauth, and the unused-entity analysis of
    internal/domain/zombie.go, which carries its own copy of the matcher. *)

From S2P Require Export Prelude GoStrings.
From Stdlib Require Import Ascii.

(** * Matching: internal/subjectauth/match.go *)

(** The loop consumes a token of the pattern per iteration: recursion on it.
    A [">"] ends the match wherever it stands, the last one included. *)
Fixpoint matchTokens (sub pat : list string) : bool :=
  match pat with
  | [] => Nat.eqb (length sub) 0
  | p :: pat' =>
      if Nat.eqb (length pat) 1 && (p =s ">") then Nat.ltb 0 (length sub)
      else match sub with
      | [] => false
      | s :: sub' =>
          if p =s "*" then matchTokens sub' pat'
          else if p =s ">" then true
          else if s <>s p then false
          else matchTokens sub' pat'
      end
  end.

Definition MatchesPattern (subject pattern : string) : bool :=
  let subject := TrimSpace subject in
  let pattern := TrimSpace pattern in
  if IsEmpty subject || IsEmpty pattern then false
  else matchTokens (Split subject ".") (Split pattern ".").

(** * Permissions: internal/subjectauth/permissions.go *)

Record EffectiveSubjectPerms := {
  ep_Source : string;
  ep_PubAllow : list string;
  ep_PubDeny : list string;
  ep_SubAllow : list string;
  ep_SubDeny : list string;
}.

Record PermUser := {
  pu_PubAllow : list string;
  pu_PubDeny : list string;
  pu_SubAllow : list string;
  pu_SubDeny : list string;
}.

Record PermGroup := {
  pg_PubAllow : list string;
  pg_PubDeny : list string;
  pg_SubAllow : list string;
  pg_SubDeny : list string;
  pg_Scoped : bool;
}.

Definition PermSourceUser := "user".
Definition PermSourceSigningGroup := "signing-group".
Definition PermSourceUnrestricted := "unrestricted".

Definition nonempty {A} (l : list A) : bool := Nat.ltb 0 (length l).

Definition userHasExplicitPerms (u : PermUser) : bool :=
  nonempty (pu_PubAllow u) || nonempty (pu_PubDeny u) ||
  nonempty (pu_SubAllow u) || nonempty (pu_SubDeny u).

Definition ResolveEffectivePerms (user : PermUser) (group : option PermGroup) :
    EffectiveSubjectPerms :=
  if userHasExplicitPerms user then
    {| ep_Source := PermSourceUser;
       ep_PubAllow := pu_PubAllow user; ep_PubDeny := pu_PubDeny user;
       ep_SubAllow := pu_SubAllow user; ep_SubDeny := pu_SubDeny user |}
  else match group with
  | Some group =>
      if pg_Scoped group then
        {| ep_Source := PermSourceSigningGroup;
           ep_PubAllow := pg_PubAllow group; ep_PubDeny := pg_PubDeny group;
           ep_SubAllow := pg_SubAllow group; ep_SubDeny := pg_SubDeny group |}
      else {| ep_Source := PermSourceUnrestricted; ep_PubAllow := []; ep_PubDeny := [];
              ep_SubAllow := []; ep_SubDeny := [] |}
  | None => {| ep_Source := PermSourceUnrestricted; ep_PubAllow := []; ep_PubDeny := [];
               ep_SubAllow := []; ep_SubDeny := [] |}
  end.

(** The answer and the pattern that decided it. *)
Definition Permitted (subject : string) (allow deny : list string) : bool * string :=
  let subject := TrimSpace subject in
  if IsEmpty subject then (false, "")
  else match List.find (MatchesPattern subject) deny with
  | Some pattern => (false, pattern)
  | None =>
      if Nat.eqb (length allow) 0 then (true, "")
      else match List.find (MatchesPattern subject) allow with
      | Some pattern => (true, pattern)
      | None => (false, "")
      end
  end.

(** * Zombies: internal/domain/zombie.go *)

Definition matchSubjectPattern (subject pattern : string) : bool :=
  matchTokens (Split subject ".") (Split pattern ".").

Definition subjectsOverlap (a b : string) : bool :=
  let a := TrimSpace a in
  let b := TrimSpace b in
  if IsEmpty a || IsEmpty b then false
  else if a =s b then true
  else matchSubjectPattern a b || matchSubjectPattern b a.

Record ZombieConsumerInput := {
  zc_Name : string;
  zc_FilterSubject : string;
  zc_FilterSubjects : list string;
  zc_DeliveredConsSeq : Z;
  zc_DeliveredStrSeq : Z;
}.

Record ZombieStreamInput := {
  zs_Name : string;
  zs_Subjects : list string;
  zs_Consumers : list ZombieConsumerInput;
  zs_Messages : Z;
  zs_LastSeq : Z;
}.

Inductive ZombieKind :=
  | EmptyStream | IdleConsumer | UnconsumedSubject | UnpublishedSubject | UnboundConsumer.
#[export] Instance ZombieKind_eq_dec : EqDecision ZombieKind.
Proof. solve_decision. Defined.

Record ZombieFinding := mkFinding {
  zf_Kind : ZombieKind;
  zf_Stream : string;
  zf_Consumer : string;
  zf_Subject : string;
  zf_Reasons : list string;
}.

Record ZombieTotals := mkTotals {
  zt_EmptyStreams : nat;
  zt_IdleConsumers : nat;
  zt_UnconsumedSubjects : nat;
  zt_UnpublishedSubjects : nat;
  zt_UnboundConsumers : nat;
  zt_Total : nat;
}.

Definition tallyOne (t : ZombieTotals) (f : ZombieFinding) : ZombieTotals :=
  let '(mkTotals e i uc up ub n) := t in
  match zf_Kind f with
  | EmptyStream => mkTotals (S e) i uc up ub n
  | IdleConsumer => mkTotals e (S i) uc up ub n
  | UnconsumedSubject => mkTotals e i (S uc) up ub n
  | UnpublishedSubject => mkTotals e i uc (S up) ub n
  | UnboundConsumer => mkTotals e i uc up (S ub) n
  end.

Definition tallyZombieFindings (findings : list ZombieFinding) : ZombieTotals :=
  fold_left tallyOne findings (mkTotals 0 0 0 0 0 (length findings)).

(** The trimmed, non-empty strings of a list: the [continue] of the loops. *)
Definition trimmed (l : list string) : list string :=
  List.filter (λ s, negb (IsEmpty s)) (map TrimSpace l).

Definition consumerFilterList (c : ZombieConsumerInput) : list string :=
  trimmed (zc_FilterSubject c :: zc_FilterSubjects c).

Definition consumerFilters (consumers : list ZombieConsumerInput) : list string :=
  flat_map (λ c, match consumerFilterList c with [] => [""] | l => l end) consumers.

Definition subjectCoveredByFilters (streamSubject : string) (filters : list string) : bool :=
  existsb (λ f, IsEmpty f || subjectsOverlap streamSubject f) filters.

Definition filterMatchesAnySubject (filter : string) (subjects : list string) : bool :=
  existsb (λ s, subjectsOverlap s filter) (trimmed subjects).

(** The findings of a stream with the trimmed name [name]. *)
Definition empty_findings (name : string) (stream : ZombieStreamInput) : list ZombieFinding :=
  mkFinding EmptyStream name "" "" ["never_received"] ::
  map (λ subj, mkFinding UnpublishedSubject name "" subj ["empty_stream"; "never_received"])
    (trimmed (zs_Subjects stream)).

Definition unconsumed_findings (name : string) (stream : ZombieStreamInput) : list ZombieFinding :=
  let filters := consumerFilters (zs_Consumers stream) in
  if existsb IsEmpty filters then []
  else map (λ subj, mkFinding UnconsumedSubject name "" subj ["no_matching_consumer"])
         (List.filter (λ subj, negb (subjectCoveredByFilters subj filters))
            (trimmed (zs_Subjects stream))).

Definition consumer_findings (name : string) (empty : bool) (subjects : list string)
    (c : ZombieConsumerInput) : list ZombieFinding :=
  let cname := TrimSpace (zc_Name c) in
  if IsEmpty cname then []
  else
    (if negb empty && (zc_DeliveredConsSeq c =? 0)%Z
     then [mkFinding IdleConsumer name cname "" ["zero_delivered"]] else []) ++
    map (λ f, mkFinding UnboundConsumer name cname f ["orphan_filter"])
      (List.filter (λ f, negb (filterMatchesAnySubject f subjects))
         (trimmed (consumerFilterList c))).

Definition stream_empty (stream : ZombieStreamInput) : bool :=
  (zs_Messages stream =? 0)%Z && (zs_LastSeq stream =? 0)%Z.

Definition stream_findings (stream : ZombieStreamInput) : list ZombieFinding :=
  let name := TrimSpace (zs_Name stream) in
  if IsEmpty name then []
  else
    let empty := stream_empty stream in
    (if empty then empty_findings name stream else []) ++
    unconsumed_findings name stream ++
    flat_map (consumer_findings name empty (zs_Subjects stream)) (zs_Consumers stream).

Record ZombieSnapshot := { zn_Findings : list ZombieFinding; zn_Totals : ZombieTotals }.

Definition AnalyzeZombies (streams : list ZombieStreamInput) : ZombieSnapshot :=
  let findings := flat_map stream_findings streams in
  {| zn_Findings := findings; zn_Totals := tallyZombieFindings findings |}.

(** * What a pattern means

    A subject is a list of tokens; ["*"] stands for one token and [">"] for one
    or more. *)

Inductive matches : list string → list string → Prop :=
  | match_nil : matches [] []
  | match_star s sub pat : matches sub pat → matches (s :: sub) ("*" :: pat)
  | match_rest s sub pat : matches (s :: sub) (">" :: pat)
  | match_token s sub pat :
      s ≠ "*" → s ≠ ">" → matches sub pat → matches (s :: sub) (s :: pat).

Lemma matchTokens_cons sub p pat :
  matchTokens sub (p :: pat) =
  match sub with
  | [] => false
  | s :: sub' =>
      if p =s "*" then matchTokens sub' pat
      else if p =s ">" then true
      else if s <>s p then false else matchTokens sub' pat
  end.
Proof.
  destruct pat as [|q pat], sub as [|s sub]; cbn; [destruct (p =s ">")| |done..]; try done.
  destruct (p =s ">") eqn:E; [|done]. go_bool. by subst.
Qed.

Lemma matchTokens_iff sub pat : matchTokens sub pat = true ↔ matches sub pat.
Proof.
  split.
  - revert sub. induction pat as [|p pat IH]; intros sub.
    + destruct sub; [constructor|done].
    + rewrite matchTokens_cons. destruct sub as [|s sub]; [done|].
      case_bool_decide; [subst; intros; constructor; auto|].
      case_bool_decide; [subst; intros; constructor|].
      case_bool_decide; [subst|done]. cbn. intros. constructor; auto.
  - induction 1 as [|s sub pat _ IH|s sub pat|s sub pat H1 H2 _ IH]; [done|..];
      rewrite matchTokens_cons.
    + by rewrite bool_decide_eq_true_2.
    + done.
    + rewrite !bool_decide_eq_false_2 by done. by rewrite bool_decide_eq_true_2.
Qed.

(** Subject [s] matches pattern [p], trimmed and split at the dots. *)
Definition subject_matches (s p : string) : Prop :=
  TrimSpace s ≠ "" ∧ TrimSpace p ≠ "" ∧
  matches (Split (TrimSpace s) ".") (Split (TrimSpace p) ".").

Lemma MatchesPattern_iff s p : MatchesPattern s p = true ↔ subject_matches s p.
Proof.
  unfold MatchesPattern, subject_matches. rewrite <- matchTokens_iff, <- !IsEmpty_false.
  destruct (IsEmpty (TrimSpace s)), (IsEmpty (TrimSpace p)); cbn; naive_solver.
Qed.

Lemma MatchesPattern_trim s p : MatchesPattern (TrimSpace s) p = MatchesPattern s p.
Proof. unfold MatchesPattern. by rewrite TrimSpace_idemp. Qed.

Lemma find_spec {A} (f : A → bool) l :
  match List.find f l with
  | Some x => x ∈ l ∧ f x = true
  | None => ∀ x, x ∈ l → f x = false
  end.
Proof.
  destruct (List.find f l) as [x|] eqn:E.
  - apply find_some in E as [? ?]. split; [by apply list_elem_of_In|done].
  - intros x Hx. apply (find_none _ _ E), list_elem_of_In, Hx.
Qed.

(** The permission check, on every branch: a subject is allowed exactly when
    it is not blank, no deny pattern matches it, and there is no allow list or
    some allow pattern matches it; the pattern named with the answer is a deny
    pattern that matches for a refusal, an allow pattern that matches for a
    permission, and is empty when no pattern decided.  Matching is the relation
    of NATS: ["*"] for one token, [">"] for one or more. *)
Theorem Permitted_spec subject allow deny :
  let '(ok, pattern) := Permitted subject allow deny in
  (ok = true ↔ TrimSpace subject ≠ "" ∧ (∀ p, p ∈ deny → ¬ subject_matches subject p) ∧
     (allow = [] ∨ ∃ p, p ∈ allow ∧ subject_matches subject p)) ∧
  (ok = true → pattern ≠ "" → pattern ∈ allow ∧ subject_matches subject pattern) ∧
  (ok = false → pattern ≠ "" → pattern ∈ deny ∧ subject_matches subject pattern).
Proof.
  unfold Permitted. destruct (IsEmpty (TrimSpace subject)) eqn:He.
  { apply IsEmpty_true in He. rewrite He. naive_solver. }
  apply IsEmpty_false in He.
  pose proof (find_spec (MatchesPattern (TrimSpace subject)) deny) as Hd.
  destruct (List.find _ deny) as [p|].
  { destruct Hd as [Hp Hm]. rewrite MatchesPattern_trim, MatchesPattern_iff in Hm. naive_solver. }
  assert (∀ p, p ∈ deny → ¬ subject_matches subject p) as Hdeny.
  { intros p Hp Hm%MatchesPattern_iff. specialize (Hd p Hp). rewrite MatchesPattern_trim in Hd.
    congruence. }
  destruct allow as [|a allow]; [naive_solver|]. cbn [length Nat.eqb].
  pose proof (find_spec (MatchesPattern (TrimSpace subject)) (a :: allow)) as Ha.
  destruct (List.find _ (a :: allow)) as [p|].
  { destruct Ha as [Hp Hm]. rewrite MatchesPattern_trim, MatchesPattern_iff in Hm.
    split; [|done]. split; [|done]. intros _. eauto 6. }
  split; [|done]. split; [done|]. intros (_ & _ & [?|(p & Hp & Hm%MatchesPattern_iff)]); [done|].
  specialize (Ha p Hp). rewrite MatchesPattern_trim in Ha. congruence.
Qed.

(** * Overlap *)

(** A subject one can publish to: no wildcard token. *)
Definition concrete (sub : list string) : Prop := Forall (λ t, t ≠ "*" ∧ t ≠ ">") sub.

(** Two patterns share traffic when some concrete subject matches both. *)
Definition share_traffic (a b : string) : Prop :=
  ∃ sub, concrete sub ∧ matches sub (Split (TrimSpace a) ".") ∧
         matches sub (Split (TrimSpace b) ".").

(** Replace the wildcards of a pattern by a plain token. *)
Definition instance_of (pat : list string) : list string :=
  map (λ t, if (t =s "*") || (t =s ">") then "x" else t) pat.

Lemma instance_concrete pat : concrete (instance_of pat).
Proof.
  unfold concrete, instance_of. apply Forall_forall. intros t Ht.
  apply list_elem_of_fmap in Ht as (p & -> & _).
  destruct (_ || _) eqn:E; [done|]. by go_bool.
Qed.

Lemma instance_matches pat : matches (instance_of pat) pat.
Proof.
  induction pat as [|p pat IH]; cbn; [constructor|].
  destruct (p =s "*") eqn:E1; cbn; go_bool; [subst; by constructor|].
  destruct (p =s ">") eqn:E2; cbn; go_bool; [subst; by constructor|]. by constructor.
Qed.

(** What matches a pattern as a pattern does so in every instance. *)
Lemma instance_of_matches a b : matches a b → matches (instance_of a) b.
Proof.
  induction 1; cbn; [constructor|constructor; done|constructor|].
  rewrite !bool_decide_eq_false_2 by done. by constructor.
Qed.

(** The overlap test of the zombie analysis is sound: patterns it reports to
    overlap do share traffic, witnessed by a subject one can publish to. *)
Theorem subjectsOverlap_sound a b : subjectsOverlap a b = true → share_traffic a b.
Proof.
  unfold subjectsOverlap, share_traffic, matchSubjectPattern.
  destruct (_ || IsEmpty (TrimSpace b)); [done|].
  case_bool_decide as E.
  { rewrite <- E. intros _. exists (instance_of (Split (TrimSpace a) ".")).
    auto using instance_concrete, instance_matches. }
  intros [H|H]%orb_true_iff; apply matchTokens_iff in H.
  - exists (instance_of (Split (TrimSpace a) ".")).
    auto using instance_concrete, instance_matches, instance_of_matches.
  - exists (instance_of (Split (TrimSpace b) ".")).
    auto using instance_concrete, instance_matches, instance_of_matches.
Qed.

Lemma subjectsOverlap_sound_witness :
  subjectsOverlap "orders.*" "orders.created" = true ∧ share_traffic "orders.*" "orders.created".
Proof.
  split; [vm_compute; reflexivity|].
  apply (subjectsOverlap_sound "orders.*" "orders.created"). vm_compute. reflexivity.
Defined.

(** The overlap test is not complete: two patterns whose wildcards stand at
    different places share traffic without being reported, so a stream subject
    that a consumer does read is reported as unconsumed, and the consumer's
    filter as orphaned. *)
Theorem subjectsOverlap_incomplete :
  share_traffic "orders.*.new" "orders.eu.>" ∧
  subjectsOverlap "orders.*.new" "orders.eu.>" = false ∧
  let consumer := {| zc_Name := "eu"; zc_FilterSubject := "orders.eu.>"; zc_FilterSubjects := [];
                     zc_DeliveredConsSeq := 5; zc_DeliveredStrSeq := 5 |} in
  zn_Findings (AnalyzeZombies [{| zs_Name := "ORDERS"; zs_Subjects := ["orders.*.new"];
    zs_Consumers := [consumer]; zs_Messages := 5; zs_LastSeq := 5 |}]) =
  [mkFinding UnconsumedSubject "ORDERS" "" "orders.*.new" ["no_matching_consumer"];
   mkFinding UnboundConsumer "ORDERS" "eu" "orders.eu.>" ["orphan_filter"]].
Proof.
  split; [|split; vm_compute; reflexivity].
  exists ["orders"; "eu"; "new"]. split; [|split; apply matchTokens_iff; vm_compute; reflexivity].
  repeat constructor; discriminate.
Qed.

(** * Totals *)

Definition count_kind (k : ZombieKind) (findings : list ZombieFinding) : nat :=
  length (List.filter (λ f, bool_decide (zf_Kind f = k)) findings).

Lemma count_kind_cons k f l :
  count_kind k (f :: l) = (if bool_decide (zf_Kind f = k) then 1 else 0) + count_kind k l.
Proof. unfold count_kind. cbn. by destruct (bool_decide _). Qed.

Lemma tally_from findings e i uc up ub n :
  fold_left tallyOne findings (mkTotals e i uc up ub n) =
  mkTotals (e + count_kind EmptyStream findings) (i + count_kind IdleConsumer findings)
    (uc + count_kind UnconsumedSubject findings) (up + count_kind UnpublishedSubject findings)
    (ub + count_kind UnboundConsumer findings) n.
Proof.
  revert e i uc up ub. induction findings as [|f l IH]; intros *.
  - unfold count_kind. cbn. by rewrite !Nat.add_0_r.
  - cbn [fold_left]. rewrite !count_kind_cons. unfold tallyOne at 2.
    destruct (zf_Kind f); rewrite IH; f_equal;
      rewrite ?bool_decide_eq_true_2, ?bool_decide_eq_false_2 by done; lia.
Qed.

Lemma count_kinds findings :
  count_kind EmptyStream findings + count_kind IdleConsumer findings +
  count_kind UnconsumedSubject findings + count_kind UnpublishedSubject findings +
  count_kind UnboundConsumer findings = length findings.
Proof.
  induction findings as [|f l IH]; [done|]. rewrite !count_kind_cons. cbn [length].
  destruct (zf_Kind f); repeat case_bool_decide; try done; lia.
Qed.

(** What the analysis says of a stream, in terms of its consumers. *)
Definition has_unfiltered_consumer (stream : ZombieStreamInput) : Prop :=
  ∃ c, c ∈ zs_Consumers stream ∧ consumerFilterList c = [].

Lemma elem_of_flat_map {A B} (f : A → list B) l y :
  y ∈ flat_map f l ↔ ∃ x, x ∈ l ∧ y ∈ f x.
Proof.
  rewrite list_elem_of_In, in_flat_map. by setoid_rewrite list_elem_of_In.
Qed.

Lemma elem_of_filter_list {A} (f : A → bool) l x : x ∈ List.filter f l ↔ x ∈ l ∧ f x = true.
Proof. by rewrite !list_elem_of_In, filter_In. Qed.

Lemma trimmed_nonempty l s : s ∈ trimmed l → IsEmpty s = false.
Proof. intros [_ H]%elem_of_filter_list. by go_bool. Qed.

Lemma consumerFilters_empty consumers :
  existsb IsEmpty (consumerFilters consumers) = true ↔
  ∃ c, c ∈ consumers ∧ consumerFilterList c = [].
Proof.
  rewrite existsb_true_iff. unfold consumerFilters. setoid_rewrite elem_of_flat_map. split.
  - intros (f & (c & Hc & Hf) & He). exists c. split; [done|].
    destruct (consumerFilterList c) as [|g l] eqn:E; [done|]. rewrite <- E in Hf.
    apply trimmed_nonempty in Hf. congruence.
  - intros (c & Hc & E). exists "". split; [|done]. exists c. split; [done|]. rewrite E. by left.
Qed.

Lemma consumerFilters_in consumers f :
  f ∈ consumerFilters consumers → IsEmpty f = false →
  ∃ c, c ∈ consumers ∧ f ∈ consumerFilterList c.
Proof.
  unfold consumerFilters. rewrite elem_of_flat_map. intros (c & Hc & Hf) He. exists c.
  split; [done|]. destruct (consumerFilterList c); [|done].
  apply list_elem_of_singleton in Hf as ->. done.
Qed.

(** The other findings of a stream are of other kinds. *)
Lemma empty_findings_kind name stream f :
  f ∈ empty_findings name stream → zf_Kind f ≠ UnconsumedSubject.
Proof.
  unfold empty_findings. intros [->|H]%elem_of_cons; [done|].
  by apply list_elem_of_fmap in H as (? & -> & _).
Qed.
Lemma consumer_findings_kind name empty subjects c f :
  f ∈ consumer_findings name empty subjects c → zf_Kind f ≠ UnconsumedSubject.
Proof.
  unfold consumer_findings. destruct (IsEmpty _); [by intros ?%not_elem_of_nil|].
  intros [H|H]%elem_of_app.
  - destruct (_ && _); [|by apply not_elem_of_nil in H]. by apply list_elem_of_singleton in H as ->.
  - by apply list_elem_of_fmap in H as (? & -> & _).
Qed.

(** No filter covers a subject: none is blank, none overlaps. *)
Lemma not_covered subj consumers :
  existsb IsEmpty (consumerFilters consumers) = false →
  subjectCoveredByFilters subj (consumerFilters consumers) = false ↔
  ∀ c f, c ∈ consumers → f ∈ consumerFilterList c → subjectsOverlap subj f = false.
Proof.
  intros Hno. unfold subjectCoveredByFilters. rewrite existsb_false_iff.
  rewrite existsb_false_iff in Hno. split.
  - intros H c f Hc Hf.
    assert (f ∈ consumerFilters consumers) as Hin.
    { unfold consumerFilters. apply elem_of_flat_map. exists c. split; [done|].
      by destruct (consumerFilterList c); [apply not_elem_of_nil in Hf|]. }
    specialize (H f Hin). cbn beta in H. by apply orb_false_iff in H as [_ H].
  - intros H f Hin. rewrite (Hno f Hin). cbn.
    destruct (consumerFilters_in consumers f Hin (Hno f Hin)) as (c & Hc & Hf). eauto.
Qed.

Lemma unconsumed_of_stream stream name subj reasons :
  mkFinding UnconsumedSubject name "" subj reasons ∈ stream_findings stream ↔
  name = TrimSpace (zs_Name stream) ∧ IsEmpty (TrimSpace (zs_Name stream)) = false ∧
  reasons = ["no_matching_consumer"] ∧ subj ∈ trimmed (zs_Subjects stream) ∧
  ¬ has_unfiltered_consumer stream ∧
  ∀ c f, c ∈ zs_Consumers stream → f ∈ consumerFilterList c → subjectsOverlap subj f = false.
Proof.
  unfold stream_findings. destruct (IsEmpty (TrimSpace (zs_Name stream))) eqn:Hn.
  { split; [by intros ?%not_elem_of_nil|naive_solver]. }
  rewrite !elem_of_app, elem_of_flat_map. unfold unconsumed_findings, has_unfiltered_consumer.
  rewrite <- consumerFilters_empty. split.
  - intros [H|[H|(c & _ & H)]].
    + destruct (stream_empty stream); [|by apply not_elem_of_nil in H].
      by apply empty_findings_kind in H.
    + destruct (existsb IsEmpty _) eqn:He; [by apply not_elem_of_nil in H|].
      apply list_elem_of_fmap in H as (x & [= -> -> ->] & [Hx Hc]%elem_of_filter_list).
      apply negb_true_iff in Hc. rewrite (not_covered _ _ He) in Hc. by split_and!.
    + by apply consumer_findings_kind in H.
  - intros (-> & _ & -> & Hsub & He%not_true_iff_false & Hc). right. left. rewrite He.
    apply list_elem_of_fmap. exists subj. split; [done|]. apply elem_of_filter_list.
    split; [done|]. apply negb_true_iff. by apply not_covered.
Qed.

(** The report on unconsumed subjects, and its totals.  A (trimmed) subject of
    a named stream is reported exactly when every consumer of the stream has a
    filter and none of their filters overlaps it, and never when the stream has
    an unfiltered consumer; each total counts the findings of its kind and the
    overall total is their sum. *)
Theorem AnalyzeZombies_spec streams :
  let snapshot := AnalyzeZombies streams in
  (∀ name subj reasons,
     mkFinding UnconsumedSubject name "" subj reasons ∈ zn_Findings snapshot ↔
     reasons = ["no_matching_consumer"] ∧ ∃ stream, stream ∈ streams ∧
       name = TrimSpace (zs_Name stream) ∧ name ≠ "" ∧ subj ∈ trimmed (zs_Subjects stream) ∧
       ¬ has_unfiltered_consumer stream ∧
       ∀ c f, c ∈ zs_Consumers stream → f ∈ consumerFilterList c → subjectsOverlap subj f = false) ∧
  zn_Totals snapshot =
    mkTotals (count_kind EmptyStream (zn_Findings snapshot))
      (count_kind IdleConsumer (zn_Findings snapshot))
      (count_kind UnconsumedSubject (zn_Findings snapshot))
      (count_kind UnpublishedSubject (zn_Findings snapshot))
      (count_kind UnboundConsumer (zn_Findings snapshot)) (zt_Total (zn_Totals snapshot)) ∧
  zt_Total (zn_Totals snapshot) =
    zt_EmptyStreams (zn_Totals snapshot) + zt_IdleConsumers (zn_Totals snapshot) +
    zt_UnconsumedSubjects (zn_Totals snapshot) + zt_UnpublishedSubjects (zn_Totals snapshot) +
    zt_UnboundConsumers (zn_Totals snapshot).
Proof.
  intros snapshot. assert (zn_Totals snapshot = tallyZombieFindings (zn_Findings snapshot)) as -> by done.
  unfold tallyZombieFindings. rewrite tally_from. cbn [zt_Total zt_EmptyStreams zt_IdleConsumers
    zt_UnconsumedSubjects zt_UnpublishedSubjects zt_UnboundConsumers].
  split; [|by rewrite <- count_kinds].
  intros name subj reasons. unfold snapshot, AnalyzeZombies. cbn [zn_Findings].
  rewrite elem_of_flat_map. split.
  - intros (stream & Hs & Hf). apply unconsumed_of_stream in Hf as (-> & Hn & -> & Hsub & Hno & Hc).
    split; [done|]. exists stream. by rewrite <- IsEmpty_false.
  - intros (-> & stream & Hs & -> & Hn & Hsub & Hno & Hc). exists stream. split; [done|].
    apply unconsumed_of_stream. by rewrite IsEmpty_false.
Qed.
