(* ===== verification/LiveEncode.v ===== *)
(** The frames of the live WebSocket, internal/live/encode.go: the hand-written
    JSON encoder of strings, headers, control frames and message frames, with a
    reader of the JSON it writes as its specification; and the recognizer of
    the control messages of the client, internal/live/control.go.

    The buffers of the code are strings of bytes; their pooling and growth do
    not show.  A Go map is the list of its entries in the order the iteration
    takes.  The formatted time is an argument. *)

From Stdlib Require Import Ascii.
From S2P Require Export Prelude GoStrings Base64.

(** * Bytes *)

Definition dquote : ascii := "034".
Definition backslash : ascii := "092".
Definition str1 (a : ascii) : string := String a "".
(** The literal ["k"] of the source, quotes included. *)
Definition quoted (k : string) : string := str1 dquote +:+ k +:+ str1 dquote.

Definition code (a : ascii) : nat := nat_of_ascii a.

(** The bytes that may follow the first byte of a UTF-8 encoding, as ranges;
    [None] when no encoding starts with it: the tables of unicode/utf8. *)
Definition utf8_start (a : ascii) : option (list (nat * nat)) :=
  let c := code a in
  let cont := (128, 191) in
  if Nat.ltb c 128 then Some []
  else if Nat.ltb c 194 then None
  else if Nat.ltb c 224 then Some [cont]
  else if Nat.eqb c 224 then Some [(160, 191); cont]
  else if Nat.eqb c 237 then Some [(128, 159); cont]
  else if Nat.ltb c 240 then Some [cont; cont]
  else if Nat.eqb c 240 then Some [(144, 191); cont; cont]
  else if Nat.ltb c 244 then Some [cont; cont; cont]
  else if Nat.eqb c 244 then Some [(128, 143); cont; cont]
  else None.

Definition in_range (r : nat * nat) (a : ascii) : bool :=
  Nat.leb (fst r) (code a) && Nat.leb (code a) (snd r).

Fixpoint starts_in (ranges : list (nat * nat)) (s : string) : bool :=
  match ranges, s with
  | [], _ => true
  | r :: ranges', String a s' => in_range r a && starts_in ranges' s'
  | _ :: _, "" => false
  end.

(** [utf8.DecodeRuneInString] answers [RuneError] with size 1. *)
Definition rune_error (s : string) : bool :=
  match s with
  | "" => false
  | String a s' => match utf8_start a with None => true | Some p => negb (starts_in p s') end
  end.

(** * The encoder *)

Definition hexDigit (b : nat) : ascii :=
  if Nat.ltb b 10 then ascii_of_nat (48 + b) else ascii_of_nat (97 + (b - 10)).

(** What [appendJSONString] writes for the byte at the head of [s]: the byte
    itself on the [continue] of the loop, otherwise the [switch]. *)
Definition json_escape (c : ascii) (s : string) : string :=
  if Nat.leb 32 (code c) && negb (bool_decide (c = dquote)) && negb (bool_decide (c = backslash))
  then str1 c
  else if bool_decide (c = dquote) || bool_decide (c = backslash)
  then str1 backslash +:+ str1 c
  else if Nat.eqb (code c) 10 then str1 backslash +:+ "n"
  else if Nat.eqb (code c) 13 then str1 backslash +:+ "r"
  else if Nat.eqb (code c) 9 then str1 backslash +:+ "t"
  else if rune_error s then str1 backslash +:+ "uFFFD"
  else str1 backslash +:+ "u00" +:+ str1 (hexDigit (code c / 16)) +:+ str1 (hexDigit (code c mod 16)).

Fixpoint json_body (s : string) : string :=
  match s with
  | "" => ""
  | String c s' => json_escape c s +:+ json_body s'
  end.

Definition appendJSONString (dst s : string) : string :=
  dst +:+ str1 dquote +:+ json_body s +:+ str1 dquote.

Fixpoint append_headers (dst : string) (first : bool) (headers : list (string * string)) : string :=
  match headers with
  | [] => dst
  | (k, v) :: headers' =>
      let dst := if first then dst else dst +:+ "," in
      let dst := appendJSONString dst k in
      let dst := dst +:+ ":" in
      append_headers (appendJSONString dst v) false headers'
  end.

Definition appendJSONHeaders (dst : string) (headers : list (string * string)) : string :=
  append_headers (dst +:+ "{") true headers +:+ "}".

Fixpoint append_nats_headers (dst : string) (first : bool) (headers : list (string * list string)) :
    string :=
  match headers with
  | [] => dst
  | (k, []) :: headers' => append_nats_headers dst first headers'
  | (k, v :: _) :: headers' =>
      let dst := if first then dst else dst +:+ "," in
      let dst := appendJSONString dst k in
      let dst := dst +:+ ":" in
      append_nats_headers (appendJSONString dst v) false headers'
  end.

Definition appendJSONNATSHeaders (dst : string) (headers : list (string * list string)) : string :=
  append_nats_headers (dst +:+ "{") true headers +:+ "}".

Inductive FrameType := Paused | Resumed | Cleared | Error | Connected.
#[export] Instance FrameType_eq_dec : EqDecision FrameType.
Proof. solve_decision. Defined.

Definition FrameType_String (ft : FrameType) : string :=
  match ft with
  | Paused => "paused"
  | Resumed => "resumed"
  | Cleared => "cleared"
  | Error => "error"
  | Connected => "connected"
  end.

Record liveFrame := mkFrame {
  f_Type : FrameType;
  f_Subject : string;
  f_Time : string;
  f_Data : string;
  f_Headers : list (string * string);
  f_Error : string;
  f_Seq : Z;
}.

Definition encodeLiveFrame (frame : liveFrame) : string :=
  let buf := "{" +:+ quoted "type" +:+ ":" in
  let buf := appendJSONString buf (FrameType_String (f_Type frame)) in
  let buf := if negb (IsEmpty (f_Subject frame))
             then appendJSONString (buf +:+ "," +:+ quoted "subject" +:+ ":") (f_Subject frame)
             else buf in
  let buf := if negb (IsEmpty (f_Time frame))
             then appendJSONString (buf +:+ "," +:+ quoted "time" +:+ ":") (f_Time frame)
             else buf in
  let buf := if negb (IsEmpty (f_Data frame))
             then appendJSONString (buf +:+ "," +:+ quoted "data" +:+ ":") (f_Data frame)
             else buf in
  let buf := if Nat.ltb 0 (length (f_Headers frame))
             then appendJSONHeaders (buf +:+ "," +:+ quoted "headers" +:+ ":") (f_Headers frame)
             else buf in
  let buf := if negb (IsEmpty (f_Error frame))
             then appendJSONString (buf +:+ "," +:+ quoted "error" +:+ ":") (f_Error frame)
             else buf in
  let buf := if negb (f_Seq frame =? 0)%Z
             then buf +:+ "," +:+ quoted "seq" +:+ ":" +:+ Itoa (f_Seq frame)
             else buf in
  buf +:+ "}".

(** The fields shared by the two encoders of message frames: [now] is the
    formatted time. *)
Definition message_prefix (seq : Z) (subject payload now : string) : string :=
  let buf := "{" +:+ quoted "type" +:+ ":" +:+ quoted "message" +:+ "," +:+ quoted "seq" +:+ ":" in
  let buf := buf +:+ Itoa seq in
  let buf := buf +:+ "," +:+ quoted "subject" +:+ ":" in
  let buf := appendJSONString buf subject in
  let buf := buf +:+ "," +:+ quoted "time" +:+ ":" +:+ str1 dquote in
  let buf := buf +:+ now in
  let buf := buf +:+ str1 dquote +:+ "," +:+ quoted "data" +:+ ":" +:+ str1 dquote in
  let buf := buf +:+ EncodeToString payload in
  buf +:+ str1 dquote.

Definition encodeMessageFrame (seq : Z) (subject payload : string)
    (headers : list (string * string)) (now : string) : string :=
  let buf := message_prefix seq subject payload now in
  let buf := if Nat.ltb 0 (length headers)
             then appendJSONHeaders (buf +:+ "," +:+ quoted "headers" +:+ ":") headers
             else buf in
  buf +:+ "}".

Definition encodeMessageFrameFromNATS (seq : Z) (subject payload : string)
    (headers : list (string * list string)) (now : string) : string :=
  let buf := message_prefix seq subject payload now in
  let buf := if Nat.ltb 0 (length headers)
             then appendJSONNATSHeaders (buf +:+ "," +:+ quoted "headers" +:+ ":") headers
             else buf in
  buf +:+ "}".

(** * Control messages: internal/live/control.go *)

Inductive FrameAction := Pause | Resume | Clear.

(** [bytes.Index] and the rest after the match. *)
Fixpoint after_match (s sub : string) : option string :=
  if HasPrefix s sub then Some (sdrop (String.length sub) s)
  else match s with
  | "" => None
  | String _ s' => after_match s' sub
  end.

Definition action_literal (sp a : string) : string :=
  "{" +:+ quoted "action" +:+ ":" +:+ sp +:+ quoted a +:+ "}".

Definition parseControlAction (data : string) : option FrameAction :=
  let data := TrimSpace data in
  if (data =s action_literal "" "pause") || (data =s action_literal " " "pause") then Some Pause
  else if (data =s action_literal "" "resume") || (data =s action_literal " " "resume") then Some Resume
  else if (data =s action_literal "" "clear") || (data =s action_literal " " "clear") then Some Clear
  else match after_match data (quoted "action") with
  | Some rest =>
      match after_match rest ":" with
      | Some rest =>
          let rest := TrimSpace rest in
          if HasPrefix rest (quoted "pause") then Some Pause
          else if HasPrefix rest (quoted "resume") then Some Resume
          else if HasPrefix rest (quoted "clear") then Some Clear
          else None
      | None => None
      end
  | None => None
  end.

(** Flatten a concatenation. *)
Ltac str_norm := unfold str1; repeat first [rewrite app_assoc | rewrite app_cons | rewrite app_nil_l].

(** * UTF-8 *)

(** The text is a sequence of UTF-8 encodings; [pending] are the bytes the
    encoding begun still needs. *)
Fixpoint valid_utf8 (pending : list (nat * nat)) (s : string) : bool :=
  match s with
  | "" => match pending with [] => true | _ => false end
  | String a s' =>
      match pending with
      | [] => match utf8_start a with Some p => valid_utf8 p s' | None => false end
      | r :: p => in_range r a && valid_utf8 p s'
      end
  end.

(** Continuation bytes are 128 and above. *)
Definition high (pending : list (nat * nat)) : Prop := Forall (λ r, 128 ≤ fst r) pending.

Lemma high_nil : high [].
Proof. apply Forall_nil_2. Qed.
Lemma utf8_start_high a p : utf8_start a = Some p → high p.
Proof.
  unfold utf8_start. repeat case_match; intros [= <-]; repeat constructor; cbn; lia.
Qed.

Lemma valid_utf8_ascii pending a s : code a < 128 → high pending →
  valid_utf8 pending (String a s) = match pending with [] => valid_utf8 [] s | _ => false end.
Proof.
  intros Ha Hp. destruct pending as [|r p]; cbn [valid_utf8].
  - unfold utf8_start. by rewrite (proj2 (Nat.ltb_lt _ _) Ha).
  - apply Forall_cons in Hp as [Hr _]. unfold in_range.
    by rewrite (proj2 (Nat.leb_gt (fst r) (code a))) by lia.
Qed.

Lemma valid_utf8_ascii_app pending t s : t ≠ "" → forallb is_ascii_byte (bytes_of t) = true →
  high pending →
  valid_utf8 pending (t +:+ s) = match pending with [] => valid_utf8 [] s | _ => false end.
Proof.
  intros Ht. assert (forallb is_ascii_byte (bytes_of t) = true → valid_utf8 [] (t +:+ s) = valid_utf8 [] s)
    as Hnil.
  { clear Ht. induction t as [|a t IH]; [done|]. cbn [bytes_of String.list_ascii_of_string forallb].
    intros [Ha Ht]%andb_true_iff. rewrite app_cons, valid_utf8_ascii by
      (try apply Nat.ltb_lt, Ha; constructor). by apply IH. }
  intros Ha Hp. destruct t as [|a t]; [done|].
  destruct pending as [|r p]; [by apply Hnil|]. rewrite app_cons, valid_utf8_ascii; [done| |done].
  cbn [bytes_of String.list_ascii_of_string forallb] in Ha.
  apply andb_true_iff in Ha as [Ha _]. by apply Nat.ltb_lt.
Qed.

Lemma hexDigit_ascii n : n < 16 → is_ascii_byte (hexDigit n) = true.
Proof. intros. do 16 (destruct n as [|n]; [by vm_compute|]). lia. Qed.

Lemma json_escape_ascii c s : code c < 128 →
  json_escape c s ≠ "" ∧ forallb is_ascii_byte (bytes_of (json_escape c s)) = true.
Proof.
  intros Hc%Nat.ltb_lt. unfold json_escape, bytes_of, str1.
  assert (is_ascii_byte c = true ∧ is_ascii_byte backslash = true) as [Hc' Hb] by (split; [exact Hc|reflexivity]).
  do 6 (match goal with |- context [if ?b then _ else _] => destruct b end;
    [split; [done|]; str_norm; cbn -[is_ascii_byte]; rewrite ?Hc', ?Hb; reflexivity|]).
  split; [done|]. apply Nat.ltb_lt in Hc. str_norm. cbn -[is_ascii_byte hexDigit Nat.div Nat.modulo].
  rewrite !hexDigit_ascii; [done|apply Nat.mod_upper_bound; lia|].
  apply Nat.Div0.div_lt_upper_bound. lia.
Qed.

Lemma json_escape_high c s : 128 ≤ code c → json_escape c s = str1 c.
Proof.
  intros Hc. unfold json_escape. rewrite (proj2 (Nat.leb_le _ _)) by lia.
  rewrite !bool_decide_eq_false_2; [done|intros ->; vm_compute in Hc; lia..].
Qed.

Lemma valid_utf8_body pending s rest : high pending → forallb is_ascii_byte (bytes_of rest) = true →
  rest ≠ "" → valid_utf8 pending (json_body s +:+ rest) = valid_utf8 pending s.
Proof.
  intros Hp Hr Hne. revert pending Hp. induction s as [|c s IH]; intros pending Hp.
  { cbn [json_body]. rewrite app_nil_l, <- (app_nil_r rest).
    rewrite valid_utf8_ascii_app by done. by destruct pending. }
  cbn [json_body]. rewrite app_assoc. destruct (decide (code c < 128)) as [Hc|Hc].
  - destruct (json_escape_ascii c (String c s) Hc) as [? ?].
    rewrite valid_utf8_ascii_app, valid_utf8_ascii by done.
    destruct pending; [by apply IH|done].
  - rewrite json_escape_high by lia. unfold str1. rewrite app_cons, app_nil_l.
    cbn [valid_utf8]. destruct pending as [|r p].
    + destruct (utf8_start c) eqn:E; [|done]. apply IH, (utf8_start_high c), E.
    + f_equal. apply IH. by inversion Hp.
Qed.

Lemma valid_utf8_split pending s a r : high pending → code a < 128 →
  valid_utf8 pending (s +:+ String a r) = valid_utf8 pending s && valid_utf8 [] r.
Proof.
  intros Hp Ha. revert pending Hp. induction s as [|c s IH]; intros pending Hp.
  { rewrite app_nil_l, valid_utf8_ascii by done. by destruct pending. }
  rewrite app_cons. cbn [valid_utf8]. destruct pending as [|q pending].
  - destruct (utf8_start c) as [p|] eqn:E; [|done]. apply IH. by eapply utf8_start_high.
  - rewrite IH by (by inversion Hp). by rewrite andb_assoc.
Qed.
Lemma valid_utf8_json_body s : valid_utf8 [] (json_body s) = valid_utf8 [] s.
Proof.
  rewrite <- (valid_utf8_body [] s (str1 dquote) high_nil eq_refl) by discriminate.
  change (str1 dquote) with (String dquote ""). rewrite valid_utf8_split by (first [apply high_nil|vm_compute; lia]). by rewrite andb_true_r.
Qed.

(** * Reading the JSON back

    A reader of the JSON these encoders write: an object whose values are
    strings, natural numbers or flat objects of strings. *)

Inductive json := JStr (s : string) | JNum (n : Z) | JMap (m : list (string * string)).

Definition hex_value (a : ascii) : option nat :=
  let c := code a in
  if Nat.leb 48 c && Nat.leb c 57 then Some (c - 48)
  else if Nat.leb 97 c && Nat.leb c 102 then Some (c - 87) else None.

Definition unescape (a : ascii) : option ascii :=
  if bool_decide (a = dquote) || bool_decide (a = backslash) then Some a
  else if bool_decide (a = "n"%char) then Some (ascii_of_nat 10)
  else if bool_decide (a = "r"%char) then Some (ascii_of_nat 13)
  else if bool_decide (a = "t"%char) then Some (ascii_of_nat 9) else None.

(** Push a byte on the string read so far. *)
Definition push (a : ascii) (r : option (string * string)) : option (string * string) :=
  match r with Some (s, rest) => Some (String a s, rest) | None => None end.

(** The rest of a string after its opening quote. *)
Fixpoint read_body (s : string) : option (string * string) :=
  match s with
  | "" => None
  | String c r =>
      if bool_decide (c = dquote) then Some ("", r)
      else if bool_decide (c = backslash) then
        match r with
        | "" => None
        | String e r' =>
            if bool_decide (e = "u"%char) then
              match r' with
              | String "0" (String "0" (String h1 (String h2 r''))) =>
                  match hex_value h1, hex_value h2 with
                  | Some x, Some y => push (ascii_of_nat (16 * x + y)) (read_body r'')
                  | _, _ => None
                  end
              | _ => None
              end
            else match unescape e with Some a => push a (read_body r') | None => None end
        end
      else if Nat.ltb (code c) 32 then None
      else push c (read_body r)
  end.

Definition read_string (s : string) : option (string * string) :=
  match s with
  | String c r => if bool_decide (c = dquote) then read_body r else None
  | "" => None
  end.

Section Reader.
Context {A : Type} (read : string → option (A * string)).

(** The members of an object after its opening brace, up to and with the
    closing one. *)
Fixpoint read_members (fuel : nat) (s : string) : option (list (string * A) * string) :=
  match fuel with
  | 0 => None
  | S fuel =>
      match read_string s with
      | Some (k, String c r) =>
          if negb (bool_decide (c = ":"%char)) then None else
          match read r with
          | Some (v, String d r') =>
              if bool_decide (d = "}"%char) then Some ([(k, v)], r')
              else if bool_decide (d = ","%char) then
                match read_members fuel r' with
                | Some (l, rest) => Some ((k, v) :: l, rest)
                | None => None
                end
              else None
          | _ => None
          end
      | _ => None
      end
  end.

Definition read_object (s : string) : option (list (string * A) * string) :=
  match s with
  | String c r =>
      if negb (bool_decide (c = "{"%char)) then None
      else match r with
      | String d r' => if bool_decide (d = "}"%char) then Some ([], r')
                       else read_members (String.length s) r
      | "" => None
      end
  | "" => None
  end.

(** The members as they are written, [write] for the values. *)
Context (write : A → string).

Definition write_member (kv : string * A) : string :=
  quoted (json_body (fst kv)) +:+ ":" +:+ write (snd kv).
Definition write_object (l : list (string * A)) : string :=
  "{" +:+ Join (map write_member l) "," +:+ "}".
End Reader.

Definition write_string (s : string) : string := quoted (json_body s).
Definition write_value (v : json) : string :=
  match v with
  | JStr s => write_string s
  | JNum n => Itoa n
  | JMap m => write_object write_string m
  end.

Definition read_value (s : string) : option (json * string) :=
  match s with
  | "" => None
  | String c _ =>
      if bool_decide (c = dquote) then
        match read_string s with Some (x, r) => Some (JStr x, r) | None => None end
      else if bool_decide (c = "{"%char) then
        match read_object read_string s with Some (m, r) => Some (JMap m, r) | None => None end
      else match digit c with
      | Some _ => let '(n, r) := read_digits 0 s in Some (JNum n, r)
      | None => None
      end
  end.

Definition json_fields (s : string) : option (list (string * json)) :=
  match read_object read_value s with Some (l, "") => Some l | _ => None end.
(** A JSON text is UTF-8. *)
Definition json_parse (s : string) : option (list (string * json)) :=
  if valid_utf8 [] s then json_fields s else None.
(** The texts of the fields are. *)
Definition value_utf8 (v : json) : bool :=
  match v with
  | JStr s => valid_utf8 [] s
  | JNum _ => true
  | JMap m => forallb (λ kv, valid_utf8 [] kv.1 && valid_utf8 [] kv.2) m
  end.
Definition fields_utf8 (l : list (string * json)) : bool := forallb (λ kv, valid_utf8 [] kv.1 && value_utf8 kv.2) l.

(** ** Strings *)

Lemma quoted_app k r : quoted k +:+ r = String dquote (k +:+ String dquote r).
Proof. unfold quoted. by str_norm. Qed.

Lemma hexDigit_value n : n < 16 → hex_value (hexDigit n) = Some n.
Proof. intros. do 16 (destruct n as [|n]; [by vm_compute|]). lia. Qed.

Lemma read_body_escape e a r : e ≠ "u"%char → unescape e = Some a →
  read_body (String backslash (String e r)) = push a (read_body r).
Proof. intros He Ha. cbn [read_body]. rewrite (bool_decide_eq_false_2 (e = _)) by done. by rewrite Ha. Qed.

Lemma read_body_hex x y r : x < 16 → y < 16 →
  read_body (String backslash ("u00" +:+ str1 (hexDigit x) +:+ str1 (hexDigit y) +:+ r)) =
  push (ascii_of_nat (16 * x + y)) (read_body r).
Proof.
  intros Hx Hy. unfold str1. rewrite !app_cons, !app_nil_l. cbn [read_body].
  by rewrite !hexDigit_value.
Qed.

Lemma code_eq c n : Nat.eqb (code c) n = true → c = ascii_of_nat n.
Proof. intros <-%Nat.eqb_eq. unfold code. by rewrite ascii_nat_embedding. Qed.

(** A byte below 128 starts no longer encoding. *)
Lemma rune_error_ascii c s : code c < 128 → rune_error (String c s) = false.
Proof. intros H. unfold rune_error, utf8_start. by rewrite (proj2 (Nat.ltb_lt _ _) H). Qed.

Lemma json_escape_control c s : code c < 32 → Nat.eqb (code c) 10 = false →
  Nat.eqb (code c) 13 = false → Nat.eqb (code c) 9 = false →
  json_escape c (String c s) =
  str1 backslash +:+ "u00" +:+ str1 (hexDigit (code c / 16)) +:+ str1 (hexDigit (code c mod 16)).
Proof.
  intros H H1 H2 H3. unfold json_escape. rewrite H1, H2, H3, rune_error_ascii by lia.
  rewrite (proj2 (Nat.leb_gt _ _) H). cbn [andb].
  rewrite !bool_decide_eq_false_2; [done|intros ->; vm_compute in H; lia..].
Qed.

Lemma read_body_app s rest : read_body (json_body s +:+ String dquote rest) = Some (s, rest).
Proof.
  induction s as [|c s IH]; [done|]. cbn [json_body]. rewrite app_assoc.
  destruct (decide (c = dquote ∨ c = backslash)) as [Hc|Hc].
  { replace (json_escape c (String c s)) with (str1 backslash +:+ str1 c)
      by (by destruct Hc as [->| ->]).
    str_norm. rewrite (read_body_escape c c), IH; [done|..];
      by destruct Hc as [->| ->]. }
  assert (c ≠ dquote ∧ c ≠ backslash) as [Hq Hb] by tauto.
  destruct (Nat.leb 32 (code c)) eqn:E1.
  { unfold json_escape. rewrite E1, !bool_decide_eq_false_2 by done. cbn [andb negb].
    unfold str1. rewrite app_cons, app_nil_l. cbn [read_body].
    rewrite !bool_decide_eq_false_2 by done.
    by rewrite (proj2 (Nat.ltb_ge _ _) (proj1 (Nat.leb_le _ _) E1)), IH. }
  apply Nat.leb_gt in E1.
  destruct (Nat.eqb (code c) 10) eqn:E3; [apply code_eq in E3 as ->; exact (f_equal (push _) IH)|].
  destruct (Nat.eqb (code c) 13) eqn:E4; [apply code_eq in E4 as ->; exact (f_equal (push _) IH)|].
  destruct (Nat.eqb (code c) 9) eqn:E5; [apply code_eq in E5 as ->; exact (f_equal (push _) IH)|].
  rewrite json_escape_control by done. rewrite !app_assoc.
  unfold str1 at 1. rewrite app_cons, app_nil_l, read_body_hex, IH
    by (first [apply Nat.Div0.div_lt_upper_bound|apply Nat.mod_upper_bound]; lia).
  rewrite <- Nat.div_mod by lia. cbn [push]. unfold code. by rewrite ascii_nat_embedding.
Qed.

Lemma read_string_app s rest : read_string (write_string s +:+ rest) = Some (s, rest).
Proof. unfold write_string. rewrite quoted_app. apply read_body_app. Qed.

(** ** Objects *)

(** [commas [x; y]] is [",x,y"]: what follows the first member. *)
Definition commas (l : list string) : string := foldr (λ x r, "," +:+ x +:+ r) "" l.

Lemma Join_commas x l : Join (x :: l) "," = x +:+ commas l.
Proof.
  revert x. induction l as [|y l IH]; intros x; [by rewrite app_nil_r|].
  by rewrite Join_cons, IH.
Qed.

Section ReadBack.
Context {A : Type} (read : string → option (A * string)) (write : A → string) (good : A → Prop).

(** A value is read back in front of a comma or a closing brace. *)
Definition reads_back : Prop := ∀ v c r, good v → c = ","%char ∨ c = "}"%char →
  read (write v +:+ String c r) = Some (v, String c r).

Lemma read_members_step fuel k v c r : reads_back → good v → c = ","%char ∨ c = "}"%char →
  read_members read (S fuel) (write_member write (k, v) +:+ String c r) =
  if bool_decide (c = "}"%char) then Some ([(k, v)], r)
  else match read_members read fuel r with
       | Some (l, rest) => Some ((k, v) :: l, rest) | None => None end.
Proof.
  intros Hr Hv Hc. cbn [read_members]. unfold write_member; cbn [fst snd].
  rewrite app_assoc. change (quoted (json_body k)) with (write_string k).
  rewrite read_string_app, app_assoc, app_cons, app_nil_l. cbn [negb].
  rewrite (bool_decide_eq_true_2 (":"%char = _)) by done. cbn [negb].
  rewrite Hr by done. destruct Hc as [->| ->]; [|done].
  by rewrite (bool_decide_eq_false_2 (","%char = "}"%char)), (bool_decide_eq_true_2 (","%char = ","%char)).
Qed.

Lemma read_members_write fuel k v l rest : reads_back → good v → Forall (good ∘ snd) l →
  length l < fuel →
  read_members read fuel
    (write_member write (k, v) +:+ commas (map (write_member write) l) +:+ String "}" rest) =
  Some ((k, v) :: l, rest).
Proof.
  intros Hr. revert fuel k v. induction l as [|[k' v'] l IH]; intros fuel k v Hv Hl Hf;
    (destruct fuel as [|fuel]; [cbn in Hf; lia|]).
  - change (commas (map _ [])) with "". rewrite app_nil_l, read_members_step by auto. done.
  - apply Forall_cons in Hl as [Hv' Hl]. cbn [map commas foldr]. str_norm.
    rewrite read_members_step by auto. rewrite bool_decide_eq_false_2 by done.
    rewrite IH; [done|done|done|cbn in Hf; lia].
Qed.

Lemma commas_length l : length l ≤ String.length (commas l).
Proof.
  induction l as [|x l IH]; cbn [commas foldr length]; [lia|].
  rewrite !length_app_string. fold (commas l). cbn [String.length]. lia.
Qed.

Lemma read_object_write l rest : reads_back → Forall (good ∘ snd) l →
  read_object read (write_object write l +:+ rest) = Some (l, rest).
Proof.
  intros Hr Hl. unfold write_object. destruct l as [|[k v] l]; [done|].
  apply Forall_cons in Hl as [Hv Hl]. cbn [map]. rewrite Join_commas. str_norm.
  unfold read_object. rewrite (bool_decide_eq_true_2 ("{"%char = _)) by done. cbn [negb].
  assert (∃ m, write_member write (k, v) = String dquote m) as [m E]
    by (unfold write_member; rewrite quoted_app; eauto).
  rewrite E, app_cons, (bool_decide_eq_false_2 (dquote = "}"%char)) by done.
  rewrite <- app_cons, <- E. apply read_members_write; [done..|].
  cbn [String.length]. rewrite !length_app_string.
  pose proof (commas_length (map (write_member write) l)) as Hlen. rewrite length_map in Hlen. lia.
Qed.
End ReadBack.

(** Numbers are written when they are not negative. *)
Definition writable (v : json) : Prop := match v with JNum n => (0 ≤ n)%Z | _ => True end.

Lemma strings_read_back : reads_back read_string write_string (λ _, True).
Proof. intros s c r _ _. apply read_string_app. Qed.

Lemma all_true {A} (l : list A) : Forall (λ _, True) l.
Proof. by apply Forall_forall. Qed.

Lemma values_read_back : reads_back read_value write_value writable.
Proof.
  intros [s|n|m] c r Hv Hc; cbn [write_value writable] in *.
  - unfold write_string at 1. rewrite quoted_app. cbn [read_value].
    rewrite (bool_decide_eq_true_2 (dquote = _)) by done.
    rewrite <- quoted_app. change (quoted _) with (write_string s). by rewrite read_string_app.
  - destruct (Itoa_head n Hv) as (a & s & d & E & Hd).
    rewrite E, app_cons. cbn [read_value].
    rewrite !bool_decide_eq_false_2, Hd by (intros ->; vm_compute in Hd; done).
    rewrite <- app_cons, <- E, read_digits_Itoa; [done|done|]. by destruct Hc as [->| ->].
  - pose proof (read_object_write read_string write_string _ m (String c r)
      strings_read_back (all_true _)) as Ho.
    unfold write_object in *. revert Ho. str_norm. intros Ho. cbn [read_value].
    rewrite (bool_decide_eq_false_2 ("{"%char = dquote)), (bool_decide_eq_true_2 ("{"%char = _)) by done.
    by rewrite Ho.
Qed.

(** Writing keeps UTF-8, and does not make it. *)
Definition keeps_utf8 {A} (write : A → string) (ok : A → bool) : Prop := ∀ v a r, code a < 128 →
  valid_utf8 [] (write v +:+ String a r) = ok v && valid_utf8 [] r.
Lemma utf8_cons a r : code a < 128 → valid_utf8 [] (String a r) = valid_utf8 [] r.
Proof. intros Ha. by rewrite valid_utf8_ascii by (first [done|apply high_nil]). Qed.
Lemma quoted_utf8 s r : valid_utf8 [] (quoted (json_body s) +:+ r) = valid_utf8 [] s && valid_utf8 [] r.
Proof.
  rewrite quoted_app, utf8_cons by (vm_compute; lia). rewrite valid_utf8_split by (first [apply high_nil|vm_compute; lia]).
  by rewrite valid_utf8_json_body.
Qed.
Lemma write_string_utf8 : keeps_utf8 write_string (valid_utf8 []).
Proof. intros s a r Ha. unfold write_string. by rewrite quoted_utf8, utf8_cons. Qed.
Section ObjectUtf8.
Context {A : Type} (write : A → string) (ok : A → bool).
Context (Hwrite : keeps_utf8 write ok).
Definition member_utf8 (kv : string * A) : bool := valid_utf8 [] kv.1 && ok kv.2.
Lemma write_member_utf8 : keeps_utf8 (write_member write) member_utf8.
Proof using Hwrite.
  intros [k v] a r Ha. unfold write_member, member_utf8. cbn [fst snd]. rewrite app_assoc, quoted_utf8, app_assoc.
  change (":" +:+ (write v +:+ String a r)) with (String ":" (write v +:+ String a r)).
  rewrite utf8_cons by (vm_compute; lia). rewrite Hwrite by done. apply andb_assoc.
Qed.
(** In front of a text that starts with an ASCII byte. *)
Lemma write_member_front kv t : (∃ b t', t = String b t' ∧ code b < 128) →
  valid_utf8 [] (write_member write kv +:+ t) = member_utf8 kv && valid_utf8 [] t.
Proof using Hwrite. intros (b & t' & -> & Hb). by rewrite write_member_utf8, utf8_cons. Qed.
Lemma commas_front l (t : string) : (∃ b t', t = String b t' ∧ code b < 128) → ∃ b t', commas l +:+ t = String b t' ∧ code b < 128.
Proof.
  intros Ht. destruct l as [|x l]; [exact Ht|]. eexists ","%char, _. split; [reflexivity|]. vm_compute. lia.
Qed.
Lemma commas_utf8 l t : (∃ b t', t = String b t' ∧ code b < 128) →
  valid_utf8 [] (commas (map (write_member write) l) +:+ t) = forallb member_utf8 l && valid_utf8 [] t.
Proof using Hwrite.
  intros Ht. induction l as [|kv l IH]; [done|]. cbn [map forallb].
  change (commas (write_member write kv :: map (write_member write) l)) with ("," +:+ write_member write kv +:+ commas (map (write_member write) l)).
  rewrite !app_assoc. change ("," +:+ ?x) with (String "," x). rewrite utf8_cons by (vm_compute; lia).
  rewrite write_member_front by (by apply commas_front). by rewrite IH, andb_assoc.
Qed.
Lemma write_object_utf8 : keeps_utf8 (write_object write) (forallb member_utf8).
Proof using Hwrite.
  intros l a r Ha. unfold write_object. rewrite !app_assoc. change ("{" +:+ ?x) with (String "{" x). rewrite utf8_cons by (vm_compute; lia).
  change ("}" +:+ ?x) with (String "}" x). assert (Hend : ∃ b t', String "}" (String a r) = String b t' ∧ code b < 128) by (eexists _, _; split; [done|vm_compute; lia]).
  rewrite <- (utf8_cons a r) by done. rewrite <- (utf8_cons "}" (String a r)) by (vm_compute; lia).
  destruct l as [|kv l]; [done|]. cbn [map forallb]. rewrite Join_commas, app_assoc.
  rewrite write_member_front by (by apply commas_front). by rewrite commas_utf8, andb_assoc.
Qed.
End ObjectUtf8.
Lemma digit_code x : (x < 10)%N → code (pretty_N_char x) < 128.
Proof.
  intros. assert (x = 0 ∨ x = 1 ∨ x = 2 ∨ x = 3 ∨ x = 4 ∨ x = 5 ∨ x = 6 ∨ x = 7 ∨ x = 8 ∨ x = 9)%N as H' by lia.
  repeat destruct H' as [->|H']; [..|subst x]; vm_compute; lia.
Qed.
Lemma pretty_N_go_utf8 x s : valid_utf8 [] (pretty_N_go x s) = valid_utf8 [] s.
Proof.
  revert s. induction (N.lt_wf_0 x) as [x _ IH]; intros s.
  destruct (decide (0 < x)%N) as [Hx|]; [|by assert (x = 0%N) as -> by lia].
  rewrite pretty_N_go_step, IH by first [done|by apply N.div_lt]. apply utf8_cons, digit_code, N.mod_lt. lia.
Qed.
Lemma Itoa_utf8 n r : valid_utf8 [] (Itoa n +:+ r) = valid_utf8 [] r.
Proof.
  destruct (decide (n = 0%Z)) as [->|Hn0]; [apply (utf8_cons "0"); vm_compute; lia|]. destruct (decide (0 < n)%Z) as [Hp|Hp].
  - rewrite Itoa_go, pretty_N_go_app by lia. by rewrite pretty_N_go_utf8.
  - destruct n as [|p|p]; [done|lia|]. change (Itoa (Zneg p)) with (String "-" (Itoa (Zpos p))).
    rewrite app_cons, utf8_cons by (vm_compute; lia). rewrite Itoa_go, pretty_N_go_app by lia. by rewrite pretty_N_go_utf8.
Qed.
Lemma write_value_utf8 : keeps_utf8 write_value value_utf8.
Proof.
  intros [s|n|m] a r Ha; cbn [write_value value_utf8].
  - by apply write_string_utf8.
  - by rewrite Itoa_utf8, utf8_cons.
  - by apply (write_object_utf8 write_string (valid_utf8 []) write_string_utf8).
Qed.
Lemma json_parse_write l : Forall (writable ∘ snd) l →
  json_parse (write_object write_value l) = if fields_utf8 l then Some l else None.
Proof.
  intros Hl. unfold json_parse. assert (Hu : valid_utf8 [] (write_object write_value l) = fields_utf8 l).
  { pose proof (write_object_utf8 write_value value_utf8 write_value_utf8 l "}"%char "" ltac:(vm_compute; lia)) as Hw. cbn [valid_utf8] in Hw.
    rewrite valid_utf8_split in Hw by (first [apply high_nil|vm_compute; lia]). cbn [valid_utf8] in Hw. by rewrite !andb_true_r in Hw. }
  rewrite Hu. destruct (fields_utf8 l); [|done]. unfold json_fields. rewrite <- (app_nil_r (write_object _ _)).
  by rewrite (read_object_write _ _ writable) by auto using values_read_back.
Qed.

(** ** Frames *)

(** Bytes the encoder copies. *)
Definition json_plain (a : ascii) : bool :=
  Nat.leb 32 (code a) && negb (bool_decide (a = dquote)) && negb (bool_decide (a = backslash)).
Definition plain (s : string) : bool := forallb json_plain (bytes_of s).

Lemma json_body_plain s : plain s = true → json_body s = s.
Proof.
  induction s as [|c s IH]; [done|]. unfold plain. cbn [bytes_of String.list_ascii_of_string forallb].
  intros [Hc Hs]%andb_true_iff. cbn [json_body]. rewrite IH by done.
  unfold json_escape. unfold json_plain in Hc. by rewrite Hc.
Qed.

Lemma b64_char_plain : forallb (λ v, json_plain (b64_char v)) six_bits = true.
Proof. vm_compute. reflexivity. Qed.

Lemma b64_plain v : (0 ≤ v < 64)%Z → json_plain (b64_char v) = true.
Proof.
  intros H%six_bits_spec. pose proof b64_char_plain as F. rewrite forallb_true_iff in F. by apply F.
Qed.

Lemma EncodeToString_plain s : plain (EncodeToString s) = true.
Proof.
  unfold plain, EncodeToString. rewrite bytes_of_of.
  induction (bytes_of s) as [|a|a b|a b c r IH] using three_ind; [done|..];
    cbn [encode_bytes forallb]; rewrite !b64_plain by b64_range; by rewrite ?IH.
Qed.

Lemma appendJSONString_write dst s : appendJSONString dst s = dst +:+ write_string s.
Proof. done. Qed.

Lemma append_headers_write dst first headers :
  append_headers dst first headers =
  dst +:+ (if first then Join (map (write_member write_string) headers) ","
           else commas (map (write_member write_string) headers)).
Proof.
  revert dst first. induction headers as [|[k v] headers IH]; intros dst first.
  { by destruct first; rewrite app_nil_r. }
  cbn [append_headers map]. rewrite IH, Join_commas, !appendJSONString_write.
  unfold write_member; cbn [fst snd]. change (quoted (json_body k)) with (write_string k).
  destruct first; cbn [commas foldr]; by rewrite !app_assoc.
Qed.

Lemma appendJSONHeaders_write dst headers :
  appendJSONHeaders dst headers = dst +:+ write_object write_string headers.
Proof.
  unfold appendJSONHeaders, write_object. rewrite append_headers_write. by rewrite !app_assoc.
Qed.

(** The headers of a NATS message as they are shown: the first value of each. *)
Definition first_values (headers : list (string * list string)) : list (string * string) :=
  omap (λ '(k, vals), match vals with [] => None | v :: _ => Some (k, v) end) headers.

Lemma append_nats_headers_first dst first headers :
  append_nats_headers dst first headers = append_headers dst first (first_values headers).
Proof.
  revert dst first. induction headers as [|[k [|v vals]] headers IH]; intros dst first; [done|..];
    cbn; by rewrite IH.
Qed.

Lemma appendJSONNATSHeaders_write dst headers :
  appendJSONNATSHeaders dst headers = dst +:+ write_object write_string (first_values headers).
Proof.
  unfold appendJSONNATSHeaders. rewrite append_nats_headers_first. apply appendJSONHeaders_write.
Qed.

Definition message_fields (seq : Z) (subject payload now : string) : list (string * json) :=
  [("type", JStr "message"); ("seq", JNum seq); ("subject", JStr subject); ("time", JStr now);
   ("data", JStr (EncodeToString payload))].

(** A field shown unless it has its zero value. *)
Definition unless {A} (zero : bool) (k : string) (v : A) : list (string * A) :=
  if zero then [] else [(k, v)].

Definition live_fields (f : liveFrame) : list (string * json) :=
  ("type", JStr (FrameType_String (f_Type f))) ::
  unless (IsEmpty (f_Subject f)) "subject" (JStr (f_Subject f)) ++
  unless (IsEmpty (f_Time f)) "time" (JStr (f_Time f)) ++
  unless (IsEmpty (f_Data f)) "data" (JStr (f_Data f)) ++
  unless (negb (Nat.ltb 0 (length (f_Headers f)))) "headers" (JMap (f_Headers f)) ++
  unless (IsEmpty (f_Error f)) "error" (JStr (f_Error f)) ++
  unless (f_Seq f =? 0)%Z "seq" (JNum (f_Seq f)).

(** A prefix of an object, and one more member. *)
Definition open_object (l : list (string * json)) : string :=
  "{" +:+ Join (map (write_member write_value) l) ",".

Lemma close_object l : open_object l +:+ "}" = write_object write_value l.
Proof. unfold open_object, write_object. by rewrite app_assoc. Qed.

Lemma commas_snoc l x : commas (l ++ [x]) = commas l +:+ "," +:+ x.
Proof.
  induction l as [|y l IH]; cbn [commas foldr List.app]; [by rewrite app_nil_r|].
  fold (commas (l ++ [x])). rewrite IH. fold (commas l). by rewrite !app_assoc.
Qed.

Lemma open_object_snoc l k v : l ≠ [] → json_body k = k →
  open_object l +:+ "," +:+ quoted k +:+ ":" +:+ write_value v = open_object (l ++ [(k, v)]).
Proof.
  intros Hl Hk. destruct l as [|x l]; [done|]. unfold open_object.
  rewrite map_app. cbn [map List.app]. rewrite !Join_commas, commas_snoc.
  assert (write_member write_value (k, v) = quoted k +:+ ":" +:+ write_value v) as ->
    by (unfold write_member; cbn [fst snd]; by rewrite Hk).
  by rewrite !app_assoc.
Qed.

Lemma message_prefix_write seq subject payload now : plain now = true →
  message_prefix seq subject payload now = open_object (message_fields seq subject payload now).
Proof.
  intros Hn. unfold message_prefix, open_object, message_fields. cbn [map].
  rewrite Join_commas. cbn [commas foldr]. unfold write_member; cbn [fst snd write_value].
  unfold appendJSONString, write_string.
  rewrite (json_body_plain now), (json_body_plain (EncodeToString payload))
    by auto using EncodeToString_plain.
  rewrite (json_body_plain "type"), (json_body_plain "message"), (json_body_plain "seq"),
    (json_body_plain "subject"), (json_body_plain "time"), (json_body_plain "data") by done.
  unfold quoted. str_norm. reflexivity.
Qed.

Definition header_field (n : nat) (headers : list (string * string)) : list (string * json) :=
  if Nat.ltb 0 n then [("headers", JMap headers)] else [].

Lemma header_field_write n l headers : l ≠ [] →
  (if Nat.ltb 0 n
   then (open_object l +:+ "," +:+ quoted "headers" +:+ ":") +:+ write_object write_string headers
   else open_object l) +:+ "}" = write_object write_value (l ++ header_field n headers).
Proof.
  intros Hl. rewrite <- close_object. unfold header_field. f_equal.
  destruct (Nat.ltb 0 n); [|by rewrite List.app_nil_r].
  rewrite <- open_object_snoc by done. cbn [write_value]. by rewrite !app_assoc.
Qed.

Lemma encodeMessageFrameFromNATS_write seq subject payload headers now : plain now = true →
  encodeMessageFrameFromNATS seq subject payload headers now =
  write_object write_value (message_fields seq subject payload now ++
    header_field (length headers) (first_values headers)).
Proof.
  intros Hn. unfold encodeMessageFrameFromNATS.
  rewrite appendJSONNATSHeaders_write, message_prefix_write by done. by apply header_field_write.
Qed.

Lemma encodeMessageFrame_write seq subject payload headers now : plain now = true →
  encodeMessageFrame seq subject payload headers now =
  write_object write_value (message_fields seq subject payload now ++
    header_field (length headers) headers).
Proof.
  intros Hn. unfold encodeMessageFrame.
  rewrite appendJSONHeaders_write, message_prefix_write by done. by apply header_field_write.
Qed.

(** One conditional string field of [encodeLiveFrame]. *)
Lemma optional_write l k (zero : bool) v : l ≠ [] → json_body k = k →
  (if negb zero then (open_object l +:+ "," +:+ quoted k +:+ ":") +:+ write_value v
   else open_object l) = open_object (l ++ unless zero k v).
Proof.
  intros Hl Hk. destruct zero; cbn [negb unless]; [by rewrite List.app_nil_r|].
  by rewrite <- open_object_snoc, !app_assoc.
Qed.

Lemma encodeLiveFrame_write f : encodeLiveFrame f = write_object write_value (live_fields f).
Proof.
  unfold encodeLiveFrame. rewrite <- close_object. f_equal.
  rewrite !appendJSONHeaders_write, !appendJSONString_write.
  assert (∀ s, ("{" +:+ quoted "type" +:+ ":") +:+ write_string s = open_object [("type", JStr s)])
    as -> by (intros; unfold open_object; cbn; by rewrite !app_assoc).
  pose proof (λ l k z s, optional_write l k z (JStr s)) as Hs; cbn [write_value] in Hs.
  pose proof (λ l k z m, optional_write l k z (JMap m)) as Hm; cbn [write_value] in Hm.
  rewrite <- (negb_involutive (Nat.ltb 0 (length (f_Headers f)))).
  rewrite !Hs, Hm, Hs by done.
  assert (∀ l, l ≠ [] →
    (if negb (f_Seq f =? 0)%Z then open_object l +:+ "," +:+ quoted "seq" +:+ ":" +:+ Itoa (f_Seq f)
     else open_object l) = open_object (l ++ unless (f_Seq f =? 0)%Z "seq" (JNum (f_Seq f)))) as Hn.
  { intros l Hl. rewrite <- optional_write by done. by rewrite !app_assoc. }
  rewrite Hn by done. unfold live_fields. by rewrite <- !List.app_assoc.
Qed.

Lemma unless_writable zero k v : (zero = false → writable v) →
  Forall (writable ∘ snd) (unless zero k v).
Proof. destruct zero; cbn [unless]; auto. Qed.

(** C13. Every frame the server sends whose texts are UTF-8 is one JSON object whose
    fields are the frame's: reading it back gives the sequence number, the subject,
    the time and the header values byte for byte, whatever they contain (no quote,
    backslash, control byte or brace in a subject or a header can end its string or
    add a field).  A frame with a text that is not UTF-8 is no JSON at all: bytes are
    not repaired.  The payload, of any bytes, is recovered from its base64 text.  A
    header without a value is left out; of several values the first is shown.  A
    control frame leaves out exactly its empty fields. *)
Theorem frames_read_back seq subject payload headers nats_headers now frame :
  (0 ≤ seq)%Z → (0 ≤ f_Seq frame)%Z → plain now = true →
  let read_as text fields := json_parse text = if fields_utf8 fields then Some fields else None in
  read_as (encodeMessageFrameFromNATS seq subject payload nats_headers now)
    (message_fields seq subject payload now ++ header_field (length nats_headers) (first_values nats_headers)) ∧
  read_as (encodeMessageFrame seq subject payload headers now)
    (message_fields seq subject payload now ++ header_field (length headers) headers) ∧
  DecodeString (EncodeToString payload) = Some payload ∧
  read_as (encodeLiveFrame frame) (live_fields frame).
Proof.
  intros Hseq Hf Hn read_as.
  assert (∀ n hs, Forall (writable ∘ snd)
    (message_fields seq subject payload now ++ header_field n hs)) as Hw.
  { intros n hs. repeat constructor; [done|]. unfold header_field.
    destruct (Nat.ltb 0 n); by repeat constructor. }
  subst read_as. cbv beta.
  rewrite encodeMessageFrameFromNATS_write, encodeMessageFrame_write, encodeLiveFrame_write by done.
  rewrite !json_parse_write, DecodeString_encode; [done| |apply Hw|apply Hw].
  unfold live_fields. constructor; [done|]. rewrite !Forall_app.
  split_and!; by apply unless_writable.
Qed.

(** A frame, and one with a stray byte in its subject, which no reader takes. *)
Lemma frames_read_back_witness :
  (0 ≤ 7)%Z ∧ plain "2026-01-02T03:04:05Z" = true ∧
  json_parse (encodeMessageFrameFromNATS 7 "orders.new" ("{}" +:+ str1 dquote)
    [("Trace-Id", ["a"; "b"]); ("Empty", [])] "2026-01-02T03:04:05Z") =
  Some [("type", JStr "message"); ("seq", JNum 7); ("subject", JStr "orders.new");
        ("time", JStr "2026-01-02T03:04:05Z"); ("data", JStr "e30i");
        ("headers", JMap [("Trace-Id", "a")])] ∧
  json_parse (encodeMessageFrameFromNATS 7 ("orders." +:+ str1 (ascii_of_nat 200)) "" [] "2026-01-02T03:04:05Z") = None.
Proof.
  split; [lia|]. split; [vm_compute; reflexivity|]. split.
  - destruct (frames_read_back 7 "orders.new" ("{}" +:+ str1 dquote) []
      [("Trace-Id", ["a"; "b"]); ("Empty", [])] "2026-01-02T03:04:05Z"
      (mkFrame Paused "" "" "" [] "" 0)) as [H _]; [lia|vm_compute; discriminate|vm_compute; reflexivity|].
    rewrite H. vm_compute. reflexivity.
  - destruct (frames_read_back 7 ("orders." +:+ str1 (ascii_of_nat 200)) "" [] [] "2026-01-02T03:04:05Z"
      (mkFrame Paused "" "" "" [] "" 0)) as [H _]; [lia|vm_compute; discriminate|vm_compute; reflexivity|].
    rewrite H. vm_compute. reflexivity.
Defined.

(** The encoder neither repairs nor breaks UTF-8: what it writes for a string
    is valid UTF-8 exactly when the string is.  In particular its branch for
    invalid encodings, which would write U+FFFD, is never taken: it stands
    behind the test for control bytes, and a stray byte of a subject or of a
    header goes into the text frame as it is. *)
Theorem appendJSONString_keeps_utf8 s :
  valid_utf8 [] (appendJSONString "" s) = valid_utf8 [] s ∧
  ∀ b, 128 ≤ code b → valid_utf8 [] (str1 b) = false ∧
    appendJSONString "" (str1 b) = str1 dquote +:+ str1 b +:+ str1 dquote.
Proof.
  unfold appendJSONString. split.
  - rewrite app_nil_l. change (str1 dquote +:+ json_body s +:+ str1 dquote) with
      (String dquote (json_body s +:+ str1 dquote)).
    rewrite valid_utf8_ascii by (vm_compute; first [lia|constructor]).
    by apply valid_utf8_body; [constructor|..].
  - intros b Hb. split.
    + cbn [valid_utf8 str1]. unfold utf8_start. rewrite (proj2 (Nat.ltb_ge _ _)) by lia.
      by repeat case_match.
    + cbn [str1 json_body]. by rewrite json_escape_high, app_nil_l, app_nil_r.
Qed.

(** ** Control messages *)

(** The two spellings of every action are recognized inside white space, and
    a message that names no action is none. *)
Example parseControlAction_literals :
  map parseControlAction
    [action_literal "" "pause"; action_literal " " "resume"; "  " +:+ action_literal "" "clear" +:+ " ";
     "{" +:+ quoted "id" +:+ ":1," +:+ quoted "action" +:+ " :  " +:+ quoted "pause" +:+ "}";
     action_literal "" "stop"; "pause"] =
  [Some Pause; Some Resume; Some Clear; Some Pause; None; None].
Proof. vm_compute. reflexivity. Qed.
