(* ===== verification/LiveMux.v ===== *)
(** The multiplexer of live subscriptions, internal/live/mux.go: viewers of one
    stream, filter and start share one NATS subscription.

    Threads are steps on a shared state.  A viewer's thread runs [attach], waits
    for its session to end and runs [detach]; a subscription's thread runs
    [fanout] for one message at a time; a viewer's writer drains its queue.  A
    critical section is one step: [subMux.mu] is held from the lookup of a
    subscription to the update of its viewers, and nothing else writes them. *)

From Stdlib Require Import Ascii.
From S2P Require Export Prelude GoStrings LiveEncode.

(** * State *)

Definition viewerOutboundBuffer : nat := 64.

Record muxKey := mkKey {
  k_cluster : string;
  k_stream : string;
  k_filter : string;
  k_fromSeq : Z;
}.
#[export] Instance muxKey_eq_dec : EqDecision muxKey.
Proof. solve_decision. Defined.
#[export] Instance muxKey_countable : Countable muxKey.
Proof.
  apply (inj_countable' (λ k, (k_cluster k, k_stream k, k_filter k, k_fromSeq k))
           (λ '(c, s, f, n), mkKey c s f n)). by intros [].
Defined.

(** Viewers, shared subscriptions and NATS subscriptions are named by numbers:
    the addresses of the code. *)
Abbreviation vid := nat (only parsing).
Abbreviation ssid := nat (only parsing).
Abbreviation subid := nat (only parsing).

Record sharedSub := mkSS {
  ss_key : muxKey;
  ss_subErr : bool;
  ss_viewers : gset vid;
  ss_sub : option subid;
  ss_ready : bool;      (** the channel [ready] is closed *)
  ss_subStarted : bool;
}.

(** Where a viewer's thread stands. *)
Inductive pc :=
  | New
  | Subscribing (ss : ssid)                         (** before [subscribe(ss)] *)
  | Subscribed (ss : ssid) (sub : option subid)     (** its answer, not stored; [None]: an error *)
  | Announcing (ss : ssid) (failed : bool)          (** stored, [close(ready)] to come *)
  | Waiting (ss : ssid)                             (** [<-ready] *)
  | Attached
  | Detaching
  | Stopping (sub : option subid)                   (** out of the critical section of [detach] *)
  | Unsubscribing (sub : option subid)              (** after [viewer.stop()] *)
  | Gone.
#[export] Instance pc_eq_dec : EqDecision pc.
Proof. solve_decision. Defined.

Record muxViewer := mkViewer {
  v_key : muxKey;        (** the key it attaches with *)
  v_pc : pc;
  v_out : list string;   (** the channel [out], oldest first *)
  v_stopped : bool;      (** [out] is closed *)
  v_paused : bool;
  v_closed : bool;
  v_truncate : Z;
  v_written : list string; (** frames given to [deliver], newest first *)
}.

(** A message delivered by NATS, and the time of [time.Now()] as it is shown. *)
Record Msg := mkMsg {
  m_seq : option Z;      (** [msg.Metadata()] *)
  m_subject : string;
  m_data : string;
  m_header : list (string * list string);
  m_now : string;
}.

(** What [client.JetStream().Subscribe] is asked for, and the shared
    subscription its callback belongs to. *)
Record natsSub := mkSub {
  s_stream : string;
  s_subject : string;
  s_start : option Z;    (** [StartSequence]; [None]: [DeliverNew] *)
  s_owner : ssid;
}.

(** A [fanout] under way: the viewers still to be served, and the one whose
    flags were tested and whose send is next. *)
Record fan := mkFan {
  fan_rest : list vid;
  fan_sending : option vid;
  fan_frame : string;
}.

Record mux := mkMux {
  m_subs : gmap muxKey ssid;      (** [subMux.subs] *)
  m_heap : gmap ssid sharedSub;
  m_viewers : gmap vid muxViewer;
  m_open : gmap subid natsSub;    (** the subscriptions open at NATS *)
  m_fans : gmap subid fan;
  m_panic : bool;                 (** a send on a closed channel *)
}.

Definition newSubMux : mux := mkMux ∅ ∅ ∅ ∅ ∅ false.

Definition set_subs f (m : mux) := mkMux (f (m_subs m)) (m_heap m) (m_viewers m) (m_open m) (m_fans m) (m_panic m).
Definition set_heap f (m : mux) := mkMux (m_subs m) (f (m_heap m)) (m_viewers m) (m_open m) (m_fans m) (m_panic m).
Definition set_viewers f (m : mux) := mkMux (m_subs m) (m_heap m) (f (m_viewers m)) (m_open m) (m_fans m) (m_panic m).
Definition set_open f (m : mux) := mkMux (m_subs m) (m_heap m) (m_viewers m) (f (m_open m)) (m_fans m) (m_panic m).
Definition set_fans f (m : mux) := mkMux (m_subs m) (m_heap m) (m_viewers m) (m_open m) (f (m_fans m)) (m_panic m).
Definition panic (m : mux) := mkMux (m_subs m) (m_heap m) (m_viewers m) (m_open m) (m_fans m) true.

Definition at_pc (p : pc) (v : muxViewer) : muxViewer :=
  mkViewer (v_key v) p (v_out v) (v_stopped v) (v_paused v) (v_closed v) (v_truncate v) (v_written v).
Definition with_paused (b : bool) (v : muxViewer) : muxViewer :=
  mkViewer (v_key v) (v_pc v) (v_out v) (v_stopped v) b (v_closed v) (v_truncate v) (v_written v).
Definition with_closed (v : muxViewer) : muxViewer :=
  mkViewer (v_key v) (v_pc v) (v_out v) (v_stopped v) (v_paused v) true (v_truncate v) (v_written v).
Definition with_out (out : list string) (v : muxViewer) : muxViewer :=
  mkViewer (v_key v) (v_pc v) out (v_stopped v) (v_paused v) (v_closed v) (v_truncate v) (v_written v).
Definition with_written (f : string) (v : muxViewer) : muxViewer :=
  mkViewer (v_key v) (v_pc v) (v_out v) (v_stopped v) (v_paused v) (v_closed v) (v_truncate v) (f :: v_written v).
(** [muxViewer.stop] *)
Definition stop (v : muxViewer) : muxViewer :=
  mkViewer (v_key v) (v_pc v) (v_out v) true (v_paused v) (v_closed v) (v_truncate v) (v_written v).

Definition newMuxViewer (key : muxKey) (truncate : Z) : muxViewer :=
  mkViewer key New [] false false false truncate [].

Definition goto (i : vid) (p : pc) : mux → mux := set_viewers (alter (at_pc p) i).

(** * Steps *)

Definition newSharedSub (key : muxKey) : sharedSub := mkSS key false ∅ None false false.
Definition ss_join (i : vid) (r : sharedSub) : sharedSub :=
  mkSS (ss_key r) (ss_subErr r) ({[i]} ∪ ss_viewers r) (ss_sub r) (ss_ready r) true.
Definition ss_store (sub : option subid) (r : sharedSub) : sharedSub :=
  mkSS (ss_key r) (match sub with None => true | Some _ => false end) (ss_viewers r) sub
    (ss_ready r) (ss_subStarted r).
Definition ss_announce (r : sharedSub) : sharedSub :=
  mkSS (ss_key r) (ss_subErr r) (ss_viewers r) (ss_sub r) true (ss_subStarted r).
Definition ss_leave (i : vid) (r : sharedSub) : sharedSub :=
  let viewers := ss_viewers r ∖ {[i]} in
  mkSS (ss_key r) (ss_subErr r) viewers (if bool_decide (viewers = ∅) then None else ss_sub r)
    (ss_ready r) (ss_subStarted r).

(** The options [attach] subscribes with. *)
Definition subscribe_opts (key : muxKey) (owner : ssid) : natsSub :=
  mkSub (k_stream key) (if negb (IsEmpty (k_filter key)) then k_filter key else ">")
    (if (0 <? k_fromSeq key)%Z then Some (k_fromSeq key) else None) owner.

(** [attachWithSubscriber] up to the release of the locks; [new] is the address
    of the subscription it allocates if there is none. *)
Definition attach_enter (i : vid) (new : ssid) (m : mux) : option mux :=
  match m_viewers m !! i with
  | Some v =>
      if negb (bool_decide (v_pc v = New)) then None else
      match m_subs m !! v_key v with
      | Some ss =>
          match m_heap m !! ss with
          | Some r =>
              Some (goto i (if negb (ss_subStarted r) then Subscribing ss else Waiting ss)
                (set_heap <[ss := ss_join i r]> m))
          | None => None
          end
      | None =>
          match m_heap m !! new with
          | Some _ => None
          | None =>
              Some (goto i (Subscribing new)
                (set_heap <[new := ss_join i (newSharedSub (v_key v))]>
                  (set_subs <[v_key v := new]> m)))
          end
      end
  | None => None
  end.

(** [subscribe(ss)]: NATS opens a subscription, or fails. *)
Definition attach_subscribe (i : vid) (answer : option subid) (m : mux) : option mux :=
  match m_viewers m !! i with
  | Some v =>
      match v_pc v, answer with
      | Subscribing ss, Some s =>
          match m_heap m !! ss, m_open m !! s, m_fans m !! s with
          | Some r, None, None =>
              Some (goto i (Subscribed ss (Some s))
                (set_open <[s := subscribe_opts (ss_key r) ss]> m))
          | _, _, _ => None
          end
      | Subscribing ss, None => Some (goto i (Subscribed ss None) m)
      | _, _ => None
      end
  | None => None
  end.

(** [ss.sub = sub; ss.subErr = subErr] under [ss.mu]. *)
Definition attach_store (i : vid) (m : mux) : option mux :=
  match m_viewers m !! i with
  | Some v =>
      match v_pc v with
      | Subscribed ss sub =>
          Some (goto i (Announcing ss (match sub with None => true | Some _ => false end))
            (set_heap (alter (ss_store sub) ss) m))
      | _ => None
      end
  | None => None
  end.

(** [close(ready)], and on to the return of [attach] or to [detach]. *)
Definition attach_announce (i : vid) (m : mux) : option mux :=
  match m_viewers m !! i with
  | Some v =>
      match v_pc v with
      | Announcing ss failed =>
          Some (goto i (if failed then Detaching else Attached) (set_heap (alter ss_announce ss) m))
      | _ => None
      end
  | None => None
  end.

(** [<-ready] and the reading of [subErr]. *)
Definition attach_wait (i : vid) (m : mux) : option mux :=
  match m_viewers m !! i with
  | Some v =>
      match v_pc v with
      | Waiting ss =>
          match m_heap m !! ss with
          | Some r =>
              if ss_ready r then Some (goto i (if ss_subErr r then Detaching else Attached) m)
              else None
          | None => None
          end
      | _ => None
      end
  | None => None
  end.

(** The session calls [unsubscribe()]. *)
Definition leave (i : vid) (m : mux) : option mux :=
  match m_viewers m !! i with
  | Some v => if bool_decide (v_pc v = Attached) then Some (goto i Detaching m) else None
  | None => None
  end.

(** The critical section of [detach]. *)
Definition detach_section (i : vid) (m : mux) : option mux :=
  match m_viewers m !! i with
  | Some v =>
      if negb (bool_decide (v_pc v = Detaching)) then None else
      match m_subs m !! v_key v with
      | None => Some (goto i (Stopping None) m)
      | Some ss =>
          match m_heap m !! ss with
          | Some r =>
              let empty := bool_decide (ss_viewers r ∖ {[i]} = ∅) in
              Some (goto i (Stopping (if empty then ss_sub r else None))
                (set_heap <[ss := ss_leave i r]>
                  (if empty then set_subs (delete (v_key v)) m else m)))
          | None => None
          end
      end
  | None => None
  end.

(** [viewer.stop()], then [sub.Unsubscribe()]. *)
Definition detach_stop (i : vid) (m : mux) : option mux :=
  match m_viewers m !! i with
  | Some v =>
      match v_pc v with
      | Stopping sub => Some (goto i (Unsubscribing sub) (set_viewers (alter stop i) m))
      | _ => None
      end
  | None => None
  end.

Definition detach_unsubscribe (i : vid) (m : mux) : option mux :=
  match m_viewers m !! i with
  | Some v =>
      match v_pc v with
      | Unsubscribing sub =>
          Some (goto i Gone (match sub with Some s => set_open (delete s) m | None => m end))
      | _ => None
      end
  | None => None
  end.

(** ** Fan-out *)

Definition listening (v : muxViewer) : bool := negb (v_closed v || v_paused v).

(** The smallest positive bound of the viewers served. *)
Definition min_truncate (l : list muxViewer) : Z :=
  fold_left (λ t v, if (0 <? v_truncate v)%Z && ((t =? 0)%Z || (v_truncate v <? t)%Z)
                    then v_truncate v else t) l 0%Z.

Definition truncated (truncate : Z) (payload : string) : string :=
  if (0 <? truncate)%Z && (truncate <? Z.of_nat (String.length payload))%Z
  then String.substring 0 (Z.to_nat truncate) payload else payload.

Definition fanout_frame (truncate : Z) (msg : Msg) : string :=
  encodeMessageFrameFromNATS (default 0%Z (m_seq msg)) (m_subject msg)
    (truncated truncate (m_data msg)) (m_header msg) (m_now msg).

(** The viewers in the order the map is ranged over. *)
Definition viewers_of (m : mux) (order : list vid) : list (vid * muxViewer) :=
  omap (λ i, option_map (λ v, (i, v)) (m_viewers m !! i)) order.

(** [fanout] up to its loop: the callback of an open subscription. *)
Definition fan_start (s : subid) (msg : Msg) (order : list vid) (m : mux) : option mux :=
  match m_open m !! s, m_fans m !! s with
  | Some n, None =>
      match m_heap m !! s_owner n with
      | Some r =>
          if negb (bool_decide (order ≡ₚ elements (ss_viewers r))) then None else
          let viewers := List.filter (λ iv, listening (snd iv)) (viewers_of m order) in
          if Nat.eqb (length viewers) 0 then Some m
          else Some (set_fans <[s := mkFan (map fst viewers) None
                 (fanout_frame (min_truncate (map snd viewers)) msg)]> m)
      | None => None
      end
  | _, _ => None
  end.

(** [trySendFrame] up to its [select], or the end of the loop. *)
Definition fan_next (s : subid) (m : mux) : option mux :=
  match m_fans m !! s with
  | Some (mkFan [] None _) => Some (set_fans (delete s) m)
  | Some (mkFan (i :: rest) None frame) =>
      match m_viewers m !! i with
      | Some v =>
          let skip := v_closed v || v_paused v || IsEmpty frame in
          Some (set_fans <[s := mkFan rest (if skip then None else Some i) frame]> m)
      | None => None
      end
  | _ => None
  end.

(** The [select]: a send on a closed channel panics, a full one drops. *)
Definition fan_send (s : subid) (m : mux) : option mux :=
  match m_fans m !! s with
  | Some (mkFan rest (Some i) frame) =>
      match m_viewers m !! i with
      | Some v =>
          if v_stopped v then Some (panic m)
          else
            let m := set_fans <[s := mkFan rest None frame]> m in
            Some (if Nat.ltb (length (v_out v)) viewerOutboundBuffer
                  then set_viewers (alter (with_out (v_out v ++ [frame])) i) m else m)
      | None => None
      end
  | _ => None
  end.

(** An iteration of [writeLoop]. *)
Definition write_loop (i : vid) (m : mux) : option mux :=
  match m_viewers m !! i with
  | Some v =>
      match v_out v with
      | [] => None
      | frame :: out =>
          let v := with_out out v in
          Some (set_viewers <[i := if v_closed v then v else with_written frame v]> m)
      end
  | None => None
  end.

Inductive action :=
  | AOpen (i : vid) (key : muxKey) (truncate : Z)
  | AEnter (i : vid) (new : ssid)
  | ASubscribe (i : vid) (answer : option subid)
  | AStore (i : vid)
  | AAnnounce (i : vid)
  | AWait (i : vid)
  | ALeave (i : vid)
  | ADetach (i : vid)
  | AStop (i : vid)
  | AUnsubscribe (i : vid)
  | APause (i : vid) (b : bool)
  | AClose (i : vid)
  | AFanStart (s : subid) (msg : Msg) (order : list vid)
  | AFanNext (s : subid)
  | AFanSend (s : subid)
  | AWrite (i : vid).

Definition step (a : action) (m : mux) : option mux :=
  if m_panic m then None else
  match a with
  | AOpen i key truncate =>
      match m_viewers m !! i with
      | Some _ => None
      | None => Some (set_viewers <[i := newMuxViewer key truncate]> m)
      end
  | AEnter i new => attach_enter i new m
  | ASubscribe i answer => attach_subscribe i answer m
  | AStore i => attach_store i m
  | AAnnounce i => attach_announce i m
  | AWait i => attach_wait i m
  | ALeave i => leave i m
  | ADetach i => detach_section i m
  | AStop i => detach_stop i m
  | AUnsubscribe i => detach_unsubscribe i m
  | APause i b => Some (set_viewers (alter (with_paused b) i) m)
  | AClose i => Some (set_viewers (alter with_closed i) m)
  | AFanStart s msg order => fan_start s msg order m
  | AFanNext s => fan_next s m
  | AFanSend s => fan_send s m
  | AWrite i => write_loop i m
  end.

Fixpoint run (trace : list action) (m : mux) : option mux :=
  match trace with
  | [] => Some m
  | a :: trace => match step a m with Some m => run trace m | None => None end
  end.

Definition reachable (m : mux) : Prop := ∃ trace, run trace newSubMux = Some m.

(** * The core of the state

    Attaching and detaching touch the registry, the shared subscriptions, the
    places of the threads and the subscriptions open at NATS; pausing, closing,
    fanning out and writing touch none of them. *)

Record core := mkCore {
  c_subs : gmap muxKey ssid;
  c_heap : gmap ssid sharedSub;
  c_pcs : gmap vid (muxKey * pc);
  c_open : gmap subid natsSub;
}.

Definition place (v : muxViewer) : muxKey * pc := (v_key v, v_pc v).
Definition core_of (m : mux) : core := mkCore (m_subs m) (m_heap m) (place <$> m_viewers m) (m_open m).

(** What attaching and detaching do to it. *)
Inductive cstep : core → core → Prop :=
  | c_new S H P O i k :
      P !! i = None →
      cstep (mkCore S H P O) (mkCore S H (<[i := (k, New)]> P) O)
  | c_create S H P O i k ss :
      P !! i = Some (k, New) → S !! k = None → H !! ss = None →
      cstep (mkCore S H P O)
        (mkCore (<[k := ss]> S) (<[ss := ss_join i (newSharedSub k)]> H)
           (<[i := (k, Subscribing ss)]> P) O)
  | c_join S H P O i k ss r :
      P !! i = Some (k, New) → S !! k = Some ss → H !! ss = Some r →
      cstep (mkCore S H P O)
        (mkCore S (<[ss := ss_join i r]> H)
           (<[i := (k, if negb (ss_subStarted r) then Subscribing ss else Waiting ss)]> P) O)
  | c_subscribe S H P O i k ss r s :
      P !! i = Some (k, Subscribing ss) → H !! ss = Some r → O !! s = None →
      cstep (mkCore S H P O)
        (mkCore S H (<[i := (k, Subscribed ss (Some s))]> P) (<[s := subscribe_opts (ss_key r) ss]> O))
  | c_subscribe_err S H P O i k ss :
      P !! i = Some (k, Subscribing ss) →
      cstep (mkCore S H P O) (mkCore S H (<[i := (k, Subscribed ss None)]> P) O)
  | c_store S H P O i k ss sub :
      P !! i = Some (k, Subscribed ss sub) →
      cstep (mkCore S H P O)
        (mkCore S (alter (ss_store sub) ss H)
           (<[i := (k, Announcing ss (match sub with None => true | Some _ => false end))]> P) O)
  | c_announce S H P O i k ss failed :
      P !! i = Some (k, Announcing ss failed) →
      cstep (mkCore S H P O)
        (mkCore S (alter ss_announce ss H) (<[i := (k, if failed : bool then Detaching else Attached)]> P) O)
  | c_wait S H P O i k ss r :
      P !! i = Some (k, Waiting ss) → H !! ss = Some r → ss_ready r = true →
      cstep (mkCore S H P O)
        (mkCore S H (<[i := (k, if ss_subErr r then Detaching else Attached)]> P) O)
  | c_leave S H P O i k :
      P !! i = Some (k, Attached) →
      cstep (mkCore S H P O) (mkCore S H (<[i := (k, Detaching)]> P) O)
  | c_detach_absent S H P O i k :
      P !! i = Some (k, Detaching) → S !! k = None →
      cstep (mkCore S H P O) (mkCore S H (<[i := (k, Stopping None)]> P) O)
  | c_detach S H P O i k ss r :
      P !! i = Some (k, Detaching) → S !! k = Some ss → H !! ss = Some r →
      ss_viewers r ∖ {[i]} ≠ ∅ →
      cstep (mkCore S H P O)
        (mkCore S (<[ss := ss_leave i r]> H) (<[i := (k, Stopping None)]> P) O)
  | c_detach_last S H P O i k ss r :
      P !! i = Some (k, Detaching) → S !! k = Some ss → H !! ss = Some r →
      ss_viewers r ∖ {[i]} = ∅ →
      cstep (mkCore S H P O)
        (mkCore (delete k S) (<[ss := ss_leave i r]> H) (<[i := (k, Stopping (ss_sub r))]> P) O)
  | c_stop S H P O i k sub :
      P !! i = Some (k, Stopping sub) →
      cstep (mkCore S H P O) (mkCore S H (<[i := (k, Unsubscribing sub)]> P) O)
  | c_unsubscribe S H P O i k sub :
      P !! i = Some (k, Unsubscribing sub) →
      cstep (mkCore S H P O)
        (mkCore S H (<[i := (k, Gone)]> P) (match sub with Some s => delete s O | None => O end)).

Lemma place_goto i p m v : m_viewers m !! i = Some v →
  place <$> m_viewers (goto i p m) = <[i := (v_key v, p)]> (place <$> m_viewers m).
Proof. intros Hv. cbn. rewrite (alter_alt_Some _ _ _ v) by done. by rewrite fmap_insert. Qed.

Lemma place_alter f i (vs : gmap vid muxViewer) : (∀ v, place (f v) = place v) →
  place <$> alter f i vs = place <$> vs.
Proof.
  intros Hf. apply map_eq. intros j. rewrite !lookup_fmap.
  destruct (decide (i = j)) as [<-|]; [|by rewrite lookup_alter_ne].
  rewrite lookup_alter_eq. destruct (vs !! i); cbn; by rewrite ?Hf.
Qed.

Lemma core_goto i p m v : m_viewers m !! i = Some v →
  core_of (goto i p m) =
  mkCore (m_subs m) (m_heap m) (<[i := (v_key v, p)]> (place <$> m_viewers m)) (m_open m).
Proof. intros Hv. unfold core_of. by rewrite (place_goto i p m v). Qed.

(** Take a step apart: the guards of the code become hypotheses. *)
Ltac step_inv :=
  repeat match goal with
  | H : None = Some _ |- _ => discriminate H
  | H : Some _ = Some _ |- _ => injection H as H; subst
  | H : match ?x with _ => _ end = Some _ |- _ => destruct x eqn:?
  | H : (if ?b then _ else _) = Some _ |- _ => destruct b eqn:?
  end; go_bool.

(** Close a case of the simulation: the thread's record is [v]. *)
Ltac sim :=
  right; match goal with H : m_viewers _ !! ?i = Some ?v |- cstep _ (core_of (goto ?i _ _)) =>
    rewrite (core_goto i _ _ v) by exact H
  end; unfold core_of; cbn;
  match goal with Hp : ∀ i v, _ → _, H : m_viewers _ !! ?i = Some ?v, E : v_pc ?v = _ |- _ =>
    let Hi := fresh "Hi" in pose proof (Hp i v H) as Hi; rewrite E in Hi end.

(** A step of the program is a step on the core, or leaves it as it is. *)
Lemma step_core a m m' : step a m = Some m' → core_of m' = core_of m ∨ cstep (core_of m) (core_of m').
Proof.
  unfold step. destruct (m_panic m); [done|].
  assert (∀ i v, m_viewers m !! i = Some v →
    (place <$> m_viewers m) !! i = Some (v_key v, v_pc v)) as Hp
    by (intros i v Hv; by rewrite lookup_fmap, Hv).
  destruct a; intros Hs.
  - right. step_inv. unfold core_of. cbn. rewrite fmap_insert. apply c_new.
    by rewrite lookup_fmap, Heqo.
  - unfold attach_enter in Hs. step_inv; sim.
    + by eapply c_join.
    + by eapply c_create.
  - unfold attach_subscribe in Hs. step_inv; sim.
    + by eapply c_subscribe.
    + by eapply c_subscribe_err.
  - unfold attach_store in Hs. step_inv; sim. by eapply c_store.
  - unfold attach_announce in Hs. step_inv; sim. by eapply c_announce.
  - unfold attach_wait in Hs. step_inv; sim; by eapply c_wait.
  - unfold leave in Hs. step_inv; sim. by eapply c_leave.
  - unfold detach_section in Hs. step_inv; try case_bool_decide; sim.
    + by eapply c_detach_last.
    + by eapply c_detach.
    + by eapply c_detach_absent.
  - unfold detach_stop in Hs. step_inv. right.
    rewrite (core_goto i _ _ (stop m0)) by (cbn; by rewrite lookup_alter_eq, Heqo).
    unfold core_of. cbn. rewrite place_alter by done. eapply c_stop.
    by rewrite (Hp _ _ Heqo), Heqp.
  - unfold detach_unsubscribe in Hs. step_inv.
    pose proof (Hp _ _ Heqo) as Hi. rewrite Heqp in Hi. apply c_unsubscribe with (S := m_subs m)
      (H := m_heap m) (O := m_open m) in Hi.
    right. destruct sub; by rewrite (core_goto i _ _ m0) by exact Heqo.
  - left. step_inv. unfold core_of. cbn. by rewrite place_alter.
  - left. step_inv. unfold core_of. cbn. by rewrite place_alter.
  - left. unfold fan_start in Hs. by step_inv.
  - left. unfold fan_next in Hs. by step_inv.
  - left. unfold fan_send in Hs. step_inv; [done|]. unfold core_of.
    destruct (Nat.ltb _ _); cbn; by rewrite ?place_alter.
  - left. unfold write_loop in Hs. step_inv. unfold core_of. cbn. f_equal.
    apply map_eq. intros j. rewrite !lookup_fmap.
    destruct (decide (i = j)) as [<-|]; [|by rewrite lookup_insert_ne].
    rewrite lookup_insert_eq, Heqo. by destruct (v_closed _).
Qed.

(** * The invariant *)

(** The thread's viewer is among the viewers of [ss]; [Attached] and [Detaching]
    do not name it. *)
Definition inside (p : pc) (ss : ssid) : bool :=
  match p with
  | Subscribing s | Subscribed s _ | Announcing s _ | Waiting s => Nat.eqb s ss
  | Attached | Detaching => true
  | New | Stopping _ | Unsubscribing _ | Gone => false
  end.
Definition busy (p : pc) : bool :=
  match p with New | Stopping _ | Unsubscribing _ | Gone => false | _ => true end.

(** The thread that subscribes for [ss]. *)
Definition subscriber (p : pc) : option ssid :=
  match p with Subscribing s | Subscribed s _ | Announcing s _ => Some s | _ => None end.

(** The NATS subscription a thread has at hand. *)
Definition pc_sub (p : pc) : option subid :=
  match p with Subscribed _ o | Stopping o | Unsubscribing o => o | _ => None end.

(** What a thread's place says of its shared subscription. *)
Definition stage (p : pc) (ss : ssid) (r : sharedSub) : Prop :=
  match p with
  | Subscribing s | Subscribed s _ => s = ss ∧ ss_ready r = false ∧ ss_sub r = None
  | Announcing s f => s = ss ∧ ss_ready r = false ∧ ss_subErr r = f ∧ (f = false → ss_sub r ≠ None)
  | Waiting s => s = ss
  | Attached => ss_ready r = true ∧ ss_subErr r = false
  | Detaching => ss_ready r = true
  | _ => True
  end.

(** The NATS subscription [s] is kept by a shared subscription, or by a thread
    that has just opened it or is about to close it. *)
Definition holds (c : core) (h : ssid + vid) (s : subid) : Prop :=
  match h with
  | inl ss => ∃ r, c_heap c !! ss = Some r ∧ ss_sub r = Some s
  | inr i => ∃ k p, c_pcs c !! i = Some (k, p) ∧ pc_sub p = Some s
  end.
Definition owned (c : core) (h : ssid + vid) (n : natsSub) : Prop :=
  match h with
  | inl ss => s_owner n = ss
  | inr i => ∀ k ss o, c_pcs c !! i = Some (k, Subscribed ss o) → s_owner n = ss
  end.

Record registry_ok (c : core) : Prop := {
  subs_ok : ∀ k ss, c_subs c !! k = Some ss →
    ∃ r, c_heap c !! ss = Some r ∧ ss_key r = k ∧ ss_viewers r ≠ ∅ ∧ ss_subStarted r = true;
  mem_ok : ∀ ss r i, c_heap c !! ss = Some r → i ∈ ss_viewers r →
    c_subs c !! ss_key r = Some ss ∧ ∃ p, c_pcs c !! i = Some (ss_key r, p) ∧ inside p ss = true;
  pc_ok : ∀ i k p, c_pcs c !! i = Some (k, p) → busy p = true →
    ∃ ss r, c_subs c !! k = Some ss ∧ c_heap c !! ss = Some r ∧ i ∈ ss_viewers r ∧ stage p ss r;
  one_subscriber : ∀ i j k k' p p' ss, c_pcs c !! i = Some (k, p) → c_pcs c !! j = Some (k', p') →
    subscriber p = Some ss → subscriber p' = Some ss → i = j;
  awaited : ∀ ss r, c_heap c !! ss = Some r → ss_viewers r ≠ ∅ → ss_ready r = false →
    ∃ i k p, c_pcs c !! i = Some (k, p) ∧ subscriber p = Some ss;
  served : ∀ ss r, c_heap c !! ss = Some r → ss_viewers r ≠ ∅ → ss_ready r = true →
    ss_subErr r = false → ss_sub r ≠ None;
  left_none : ∀ ss r, c_heap c !! ss = Some r → ss_viewers r = ∅ → ss_sub r = None;
}.

Record holders_ok (c : core) : Prop := {
  open_held : ∀ s n, c_open c !! s = Some n → (∃ h, holds c h s) ∧
    ∃ r, c_heap c !! s_owner n = Some r ∧ n = subscribe_opts (ss_key r) (s_owner n);
  held_open : ∀ h s, holds c h s → ∃ n, c_open c !! s = Some n ∧ owned c h n;
  one_holder : ∀ h h' s, holds c h s → holds c h' s → h = h';
}.

(** Cases of a lookup in an updated map. *)
Ltac lk :=
  repeat match goal with
  | H : <[_ := _]> _ !! _ = Some _ |- _ => apply lookup_insert_Some in H as [[? ?]|[? ?]]
  | H : delete _ _ !! _ = Some _ |- _ => apply lookup_delete_Some in H as [? ?]
  end; simplify_eq/=.

(** A thread moves on, the registry stays. *)
Lemma registry_move S H P O O' i k p p' :
  registry_ok (mkCore S H P O) → P !! i = Some (k, p) →
  (∀ ss, inside p ss = true → inside p' ss = true) → subscriber p' = subscriber p →
  (busy p' = true → ∃ ss r, S !! k = Some ss ∧ H !! ss = Some r ∧ i ∈ ss_viewers r ∧ stage p' ss r) →
  registry_ok (mkCore S H (<[i := (k, p')]> P) O').
Proof.
  intros [I1 I2 I3 I4 I5 I6 I7] Hi Hin Hsub Hbusy. split; cbn in *; try done.
  - intros ss r j Hr Hj. destruct (I2 ss r j Hr Hj) as [? (q & Hq & Hq')]. split; [done|].
    destruct (decide (i = j)) as [<-|]; [|rewrite lookup_insert_ne by done; eauto].
    rewrite lookup_insert_eq. simplify_eq. eauto.
  - intros j k' q Hj Hb. lk; eauto.
  - assert (∀ j kj q ss, <[i := (k, p')]> P !! j = Some (kj, q) → subscriber q = Some ss →
      ∃ q', P !! j = Some (kj, q') ∧ subscriber q' = Some ss) as Hold.
    { intros j kj q ss Hj Hq. lk; [|eauto]. exists p. split; [done|congruence]. }
    intros a b ka kb pa pb ss Ha Hb Ha' Hb'.
    destruct (Hold _ _ _ _ Ha Ha') as (qa & Hqa & ?), (Hold _ _ _ _ Hb Hb') as (qb & Hqb & ?).
    by eapply (I4 a b ka kb qa qb ss).
  - intros ss r Hr Hne Hf. destruct (I5 ss r Hr Hne Hf) as (j & kj & q & Hj & Hq).
    destruct (decide (i = j)) as [<-|].
    + exists i, k, p'. rewrite lookup_insert_eq. simplify_eq. by rewrite Hsub.
    + exists j, kj, q. by rewrite lookup_insert_ne.
Qed.

(** The subscribing thread moves on and updates its shared subscription. *)
Lemma registry_update S H P O i k p p' ss r r' :
  registry_ok (mkCore S H P O) → P !! i = Some (k, p) → H !! ss = Some r → S !! k = Some ss →
  i ∈ ss_viewers r → subscriber p = Some ss →
  ss_key r' = ss_key r → ss_viewers r' = ss_viewers r → ss_subStarted r' = ss_subStarted r →
  inside p' ss = true → busy p' = true → stage p' ss r' →
  (∀ q, subscriber q ≠ Some ss → stage q ss r → stage q ss r') →
  (subscriber p' = Some ss ∧ ss_ready r' = false ∨ subscriber p' = None ∧ ss_ready r' = true) →
  (ss_ready r' = true → ss_subErr r' = false → ss_sub r' ≠ None) →
  registry_ok (mkCore S (<[ss := r']> H) (<[i := (k, p')]> P) O).
Proof.
  intros [I1 I2 I3 I4 I5 I6 I7] Hi Hss HS Hv Hsub Ek Ev Es Hin Hbusy Hst Hother Hs' Hserved.
  cbn in *.
  assert (ss_viewers r' ≠ ∅) as Hne by (rewrite Ev; set_solver).
  assert (∀ j kj q, P !! j = Some (kj, q) → subscriber q = Some ss → j = i) as Huniq
    by (intros j kj q Hj Hq; by eapply (I4 j i)).
  split; cbn.
  - intros k' ss' Hk. destruct (I1 k' ss' Hk) as (r0 & Hr0 & Hrest).
    destruct (decide (ss = ss')) as [<-|]; [|rewrite lookup_insert_ne by done; eauto].
    rewrite lookup_insert_eq. simplify_eq. exists r'. by rewrite Ek, Ev, Es.
  - intros ss' r0 j Hr Hj.
    assert (∃ r1, H !! ss' = Some r1 ∧ ss_key r1 = ss_key r0 ∧ ss_viewers r1 = ss_viewers r0)
      as (r1 & Hr1 & Ek1 & Ev1) by (lk; [exists r; by split_and!|eauto]).
    rewrite <- Ev1 in Hj. rewrite <- Ek1. destruct (I2 ss' r1 j Hr1 Hj) as [? (q & Hq & Hq')].
    split; [done|]. destruct (decide (i = j)) as [<-|]; [|rewrite lookup_insert_ne by done; eauto].
    rewrite lookup_insert_eq. simplify_eq. exists p'. by simplify_eq.
  - intros j kj q Hj Hb. lk.
    + exists ss, r'. rewrite lookup_insert_eq, Ev. by split_and!.
    + destruct (I3 j kj q) as (ss' & r0 & ? & Hr0 & ? & Hstq); [done..|].
      exists ss'. destruct (decide (ss = ss')) as [<-|].
      * exists r'. rewrite lookup_insert_eq, Ev. simplify_eq. split_and!; [done..|].
        apply Hother; [|done]. intros Hq. by destruct (Huniq j kj q).
      * exists r0. by rewrite lookup_insert_ne.
  - intros a b ka kb qa qb t Ha Hb Hqa Hqb.
    assert (∀ j kj q, <[i := (k, p')]> P !! j = Some (kj, q) → subscriber q = Some t →
      ∃ q', P !! j = Some (kj, q') ∧ subscriber q' = Some t) as Hold.
    { clear Ha Hb. intros j kj q Hj Hq. lk; [|eauto]. exists p. split; [done|].
      destruct Hs' as [[? ?]|[? ?]]; congruence. }
    destruct (Hold _ _ _ Ha Hqa) as (? & ? & ?), (Hold _ _ _ Hb Hqb) as (? & ? & ?).
    by eapply (I4 a b).
  - intros ss' r0 Hr Hne' Hf. lk.
    + destruct Hs' as [[? ?]|[? ?]]; [|congruence]. exists i, k, p'. by rewrite lookup_insert_eq.
    + destruct (I5 ss' r0) as (j & kj & q & Hj & Hq); [done..|].
      exists j, kj, q. rewrite lookup_insert_ne; [done|]. intros <-. simplify_eq.
  - intros ss' r0 Hr. lk; eauto.
  - intros ss' r0 Hr He. lk; eauto.
Qed.

Lemma union_not_empty (i : vid) (X : gset vid) : {[i]} ∪ X ≠ ∅.
Proof. set_solver. Qed.

(** A viewer joins a shared subscription, a fresh one included ([HS]). *)
Lemma registry_join S H P O i k p' ss r :
  registry_ok (mkCore S H P O) → P !! i = Some (k, New) → ss_key r = k →
  (S !! k = Some ss ∧ H !! ss = Some r ∧ p' = Waiting ss) ∨
  (S !! k = None ∧ H !! ss = None ∧ r = newSharedSub k ∧ p' = Subscribing ss) →
  registry_ok (mkCore (<[k := ss]> S) (<[ss := ss_join i r]> H) (<[i := (k, p')]> P) O).
Proof.
  intros [I1 I2 I3 I4 I5 I6 I7] Hi Ek Hcase. cbn in *.
  assert (inside p' ss = true ∧ busy p' = true) as [Hin Hbusy]
    by (destruct Hcase as [(_ & _ & ->)|(_ & _ & _ & ->)]; cbn; by rewrite Nat.eqb_refl).
  assert (∀ k' ss', S !! k' = Some ss' → k' ≠ k → ss' ≠ ss) as Hother.
  { intros k' ss' Hk Hne <-. destruct (I1 k' ss' Hk) as (r0 & Hr0 & Hk0 & _).
    destruct Hcase as [(_ & Hr & _)|(_ & Hr & _)]; congruence. }
  split; cbn.
  - intros k' ss' Hk. lk.
    + exists (ss_join i r). rewrite lookup_insert_eq. cbn. split_and!; [done..|apply union_not_empty|done].
    + rewrite lookup_insert_ne by (symmetry; eauto). eauto.
  - intros ss' r0 j Hr Hj. lk.
    + cbn. rewrite lookup_insert_eq. split; [done|].
      destruct (decide (i = j)) as [<-|Hij]; [rewrite lookup_insert_eq; eauto|].
      rewrite lookup_insert_ne by done. cbn in Hj.
      apply elem_of_union in Hj as [Hj%elem_of_singleton|Hj]; [congruence|].
      destruct Hcase as [(_ & Hr & _)|(_ & _ & Er & _)];
        [|rewrite Er in Hj; by apply elem_of_empty in Hj].
      by eapply (I2 _ r j).
    + destruct (I2 ss' r0 j) as [Hs (q & Hq & Hq')]; [done..|].
      rewrite (lookup_insert_ne P) by (intros <-; by simplify_eq).
      rewrite lookup_insert_ne by (intros Hk; rewrite <- Hk in Hs;
        destruct Hcase as [(? & _)|(? & _)]; congruence). eauto.
  - intros j kj q Hj Hb. destruct (decide (i = j)) as [<-|Hij].
    { rewrite lookup_insert_eq in Hj. injection Hj as <- <-.
      exists ss, (ss_join i r). rewrite !lookup_insert_eq. split_and!; [done..| |].
      * cbn. by apply elem_of_union_l, elem_of_singleton_2.
      * by destruct Hcase as [(_ & _ & ->)|(_ & _ & -> & ->)]. }
    rewrite lookup_insert_ne in Hj by done.
    destruct (I3 j kj q) as (ss' & r0 & Hs & Hr0 & Hm & Hst); [done..|].
      destruct (decide (ss = ss')) as [<-|Hne].
      * destruct Hcase as [(HS & Hr & _)|(_ & Hr & _)]; [|congruence].
        destruct (I1 _ _ Hs) as (r1 & ? & ? & _).
        assert (r1 = r ∧ r0 = r) as [-> ->] by (split; congruence).
        assert (kj = k) as -> by congruence.
        exists ss, (ss_join i r). rewrite !lookup_insert_eq. split_and!; [done..| |].
        -- cbn. by apply elem_of_union_r.
        -- by destruct q.
      * exists ss', r0. rewrite (lookup_insert_ne H) by done.
        rewrite lookup_insert_ne; [done|]. intros <-.
        destruct Hcase as [(? & _)|(? & _)]; congruence.
  - assert (∀ j kj q t, <[i := (k, p')]> P !! j = Some (kj, q) → subscriber q = Some t →
      j = i ∧ t = ss ∧ S !! k = None ∨ P !! j = Some (kj, q)) as Hold.
    { intros j kj q t Hj Hq. destruct (decide (i = j)) as [<-|];
        [|rewrite lookup_insert_ne in Hj by done; auto]. left.
      rewrite lookup_insert_eq in Hj. injection Hj as <- <-.
      destruct Hcase as [(_ & _ & ->)|(? & _ & _ & ->)]; [done|]. by injection Hq. }
    intros a b ka kb qa qb t Ha Hb Hqa Hqb.
    assert (∀ j kj q, P !! j = Some (kj, q) → subscriber q = Some t → S !! k = None → t ≠ ss) as Hfresh.
    { intros j kj q Hj Hq HS ->. destruct (I3 j kj q) as (ss' & r0 & ? & ? & _ & Hst);
        [done|by destruct q|]. destruct Hcase as [(? & _)|(_ & Hn & _)]; [congruence|].
      destruct q; cbn in Hq, Hst; simplify_eq; destruct Hst as [<- _]; congruence. }
    destruct (Hold _ _ _ _ Ha Hqa) as [(? & ? & ?)|Ha'], (Hold _ _ _ _ Hb Hqb) as [(? & ? & ?)|Hb'].
    + congruence.
    + by destruct (Hfresh _ _ _ Hb' Hqb).
    + by destruct (Hfresh _ _ _ Ha' Hqa).
    + by eapply (I4 a b).
  - intros ss' r0 Hr Hne Hf. destruct (decide (ss = ss')) as [<-|Hss].
    + rewrite lookup_insert_eq in Hr. injection Hr as <-. cbn in Hf.
      destruct Hcase as [(HS & Hr & _)|(_ & _ & _ & ->)].
      * destruct (I1 _ _ HS) as (? & ? & _ & Hne' & _). simplify_eq.
        destruct (I5 _ _ Hr Hne' Hf) as (j & kj & q & Hj & Hq).
        exists j, kj, q. rewrite lookup_insert_ne; [done|]. intros <-. by simplify_eq.
      * exists i, k, (Subscribing ss). by rewrite lookup_insert_eq.
    + rewrite lookup_insert_ne in Hr by done.
      destruct (I5 _ _ Hr Hne Hf) as (j & kj & q & Hj & Hq).
      exists j, kj, q. rewrite lookup_insert_ne; [done|]. intros <-. by simplify_eq.
  - intros ss' r0 Hr Hne Hy He. destruct (decide (ss = ss')) as [<-|Hss];
      [|rewrite lookup_insert_ne in Hr by done; eauto].
    rewrite lookup_insert_eq in Hr. injection Hr as <-. cbn in *.
    destruct Hcase as [(HS & Hr & _)|(_ & _ & -> & _)]; [|done].
    destruct (I1 _ _ HS) as (? & ? & _ & Hne' & _). simplify_eq. eauto.
  - intros ss' r0 Hr He. lk; [|eauto]. by apply union_not_empty in He.
Qed.

Lemma leave_member i j r : j ∈ ss_viewers (ss_leave i r) ↔ j ∈ ss_viewers r ∧ j ≠ i.
Proof. cbn. set_solver. Qed.

(** A viewer leaves; the last one takes the registration with it. *)
Lemma registry_leave S H P O i k ss r o :
  registry_ok (mkCore S H P O) → P !! i = Some (k, Detaching) → S !! k = Some ss →
  H !! ss = Some r →
  registry_ok (mkCore (if bool_decide (ss_viewers r ∖ {[i]} = ∅) then delete k S else S)
    (<[ss := ss_leave i r]> H) (<[i := (k, Stopping o)]> P) O).
Proof.
  intros [I1 I2 I3 I4 I5 I6 I7] Hi HS Hr. cbn in *.
  destruct (I1 _ _ HS) as (r1 & Hr1 & Ek & _ & Es). assert (r1 = r) as -> by congruence.
  set (S' := if bool_decide _ then delete k S else S).
  assert (∀ k' ss', S' !! k' = Some ss' →
    S !! k' = Some ss' ∧ (k' = k → ss_viewers (ss_leave i r) ≠ ∅)) as HS'.
  { unfold S'. intros k' ss' Hk. case_bool_decide as He; [|done].
    apply lookup_delete_Some in Hk as [? ?]. done. }
  assert (∀ k' ss', S !! k' = Some ss' → (k' = k → ss_viewers (ss_leave i r) ≠ ∅) →
    S' !! k' = Some ss') as HS''.
  { unfold S'. intros k' ss' Hk Hne. case_bool_decide as He; [|done].
    rewrite lookup_delete_ne; [done|]. intros <-. by apply (Hne eq_refl). }
  assert (∀ k' ss', S !! k' = Some ss' → ss' = ss → k' = k) as Hinj.
  { intros k' ss' Hk ->. destruct (I1 _ _ Hk) as (? & ? & ? & _). congruence. }
  assert (∀ j kj q t, <[i := (k, Stopping o)]> P !! j = Some (kj, q) → subscriber q = Some t →
    P !! j = Some (kj, q)) as Hold by (intros j kj q t Hj Hq; lk; done).
  split; cbn [c_subs c_heap c_pcs c_open].
  - intros k' ss' Hk. apply HS' in Hk as [Hk Hne]. destruct (decide (ss = ss')) as [<-|Hss].
    + rewrite lookup_insert_eq. exists (ss_leave i r). rewrite (Hinj _ _ Hk eq_refl) in *.
      split_and!; [done..|by apply Hne|done].
    + rewrite lookup_insert_ne by done. eauto.
  - intros ss' r0 j Hr0 Hj. destruct (decide (ss = ss')) as [<-|Hss].
    + rewrite lookup_insert_eq in Hr0. injection Hr0 as <-.
      pose proof Hj as [Hj1 Hj2]%leave_member. destruct (I2 _ _ _ Hr Hj1) as [? (q & Hq & ?)].
      split; [apply HS''; [done|intros _ He; rewrite He in Hj; by apply not_elem_of_empty in Hj]|].
      exists q. by rewrite lookup_insert_ne.
    + rewrite lookup_insert_ne in Hr0 by done. destruct (I2 _ _ _ Hr0 Hj) as [Hs (q & Hq & ?)].
      split; [apply HS''; [done|intros E; congruence]|].
      exists q. rewrite lookup_insert_ne; [done|]. intros <-. congruence.
  - intros j kj q Hj Hb. lk.
    destruct (I3 j kj q) as (ss' & r0 & Hs & Hr0 & Hm & Hst); [done..|].
    destruct (decide (ss = ss')) as [<-|Hne].
    + assert (r0 = r) as -> by congruence. exists ss, (ss_leave i r).
      assert (j ∈ ss_viewers (ss_leave i r)) as Hm' by (by apply leave_member).
      assert (ss_viewers (ss_leave i r) ≠ ∅) as Hne
        by (intros E; rewrite E in Hm'; by apply not_elem_of_empty in Hm').
      rewrite lookup_insert_eq. split_and!; [by apply HS''|done..|].
      clear -Hst Hne. destruct q; cbn in *; rewrite ?bool_decide_eq_false_2 by done; done.
    + exists ss', r0. rewrite lookup_insert_ne by done. split_and!; [|done..].
      apply HS''; [done|]. intros E. congruence.
  - intros a b ka kb qa qb t Ha Hb Hqa Hqb. eapply (I4 a b); eauto.
  - intros ss' r0 Hr0 Hne Hf. destruct (decide (ss = ss')) as [<-|Hss].
    + destruct (I5 ss r) as (j & kj & q & Hj & Hq); [done|..].
      { rewrite lookup_insert_eq in Hr0. injection Hr0 as <-. intros E. apply Hne. cbn. set_solver. }
      { rewrite lookup_insert_eq in Hr0. by injection Hr0 as <-. }
      exists j, kj, q. rewrite lookup_insert_ne; [done|]. intros <-. by simplify_eq.
    + rewrite lookup_insert_ne in Hr0 by done. destruct (I5 _ _ Hr0 Hne Hf) as (j & kj & q & Hj & Hq).
      exists j, kj, q. rewrite lookup_insert_ne; [done|]. intros <-. by simplify_eq.
  - intros ss' r0 Hr0 Hne Hy He. lk; [|eauto]. cbn in *. rewrite bool_decide_eq_false_2 by done.
    eapply I6; eauto. intros E. apply Hne. rewrite E. set_solver.
  - intros ss' r0 Hr0 He. lk; [|eauto]. cbn in *. by rewrite bool_decide_eq_true_2.
Qed.

(** ** Who holds a NATS subscription *)

Definition same_keys (H H' : gmap ssid sharedSub) : Prop :=
  ∀ ss r, H !! ss = Some r → ∃ r', H' !! ss = Some r' ∧ ss_key r' = ss_key r.

(** The holders may exchange their places. *)
Lemma holders_relabel c c' (σ : ssid + vid → ssid + vid) :
  holders_ok c → (∀ h, σ (σ h) = h) → (∀ h s, holds c' h s ↔ holds c (σ h) s) →
  c_open c' = c_open c → same_keys (c_heap c) (c_heap c') →
  (∀ h s n, holds c' h s → owned c (σ h) n → owned c' h n) → holders_ok c'.
Proof.
  intros [H1 H2 H3] Hσ Hh Ho Hk Hown. split.
  - intros s n Hs. rewrite Ho in Hs. destruct (H1 s n Hs) as [(h & Hhs) (r & Hr & En)]. split.
    + exists (σ h). apply Hh. by rewrite Hσ.
    + destruct (Hk _ _ Hr) as (r' & Hr' & Ek). exists r'. by rewrite Ek.
  - intros h s Hs. rewrite Ho. destruct (H2 (σ h) s) as (n & Hn & Hown'); [by apply Hh|]. eauto.
  - intros h h' s Hs Hs'. apply Hh in Hs, Hs'. rewrite <- (Hσ h), <- (Hσ h'). f_equal. eauto.
Qed.

(** The subscription kept in the heap is the same. *)
Definition same_subs (H H' : gmap ssid sharedSub) : Prop :=
  ∀ ss s, (∃ r, H' !! ss = Some r ∧ ss_sub r = Some s) ↔ (∃ r, H !! ss = Some r ∧ ss_sub r = Some s).

Lemma same_subs_insert (H : gmap ssid sharedSub) ss r' :
  (match H !! ss with Some r => ss_sub r' = ss_sub r ∧ ss_key r' = ss_key r | None => ss_sub r' = None end) →
  same_subs H (<[ss := r']> H) ∧ same_keys H (<[ss := r']> H).
Proof.
  intros Hr. split.
  - intros t s. destruct (decide (ss = t)) as [<-|]; [|by rewrite lookup_insert_ne].
    rewrite lookup_insert_eq. destruct (H !! ss) as [r|].
    + destruct Hr as [E _]. split; intros (r0 & [= <-] & ?); eexists; split; eauto; congruence.
    + split; intros (r0 & ? & ?); congruence.
  - intros t r0 Ht. destruct (decide (ss = t)) as [<-|]; [|rewrite lookup_insert_ne by done; eauto].
    rewrite lookup_insert_eq. rewrite Ht in Hr. destruct Hr. eauto.
Qed.

Lemma holders_keep S S' H H' P O i k p' :
  holders_ok (mkCore S H P O) → same_subs H H' → same_keys H H' →
  (match P !! i with Some (_, p) => pc_sub p' = pc_sub p | None => pc_sub p' = None end) →
  (∀ ss s, p' ≠ Subscribed ss (Some s)) →
  holders_ok (mkCore S' H' (<[i := (k, p')]> P) O).
Proof.
  intros Hh Hs Hk Hp Hns.
  assert (∀ j s, (∃ k0 p0, <[i := (k, p')]> P !! j = Some (k0, p0) ∧ pc_sub p0 = Some s) ↔
                 (∃ k0 p0, P !! j = Some (k0, p0) ∧ pc_sub p0 = Some s)) as Hj.
  { intros j s. destruct (decide (i = j)) as [<-|]; [|by rewrite lookup_insert_ne].
    rewrite lookup_insert_eq. destruct (P !! i) as [[k0 p]|].
    - split; intros (? & ? & [= <- <-] & ?); do 2 eexists; split; eauto; congruence.
    - split; intros (? & ? & ? & ?); congruence. }
  apply (holders_relabel _ _ id Hh); [done| |done|done|].
  - intros [ss|j] s; cbn; [apply Hs|apply Hj].
  - intros [ss|j] s n; cbn; [done|]. intros (k0 & p0 & Hl & Ep) Hown k1 ss o Hl'.
    rewrite Hl in Hl'. injection Hl' as -> ->. cbn in Ep. subst o. lk; [by destruct (Hns ss s)|eauto].
Qed.

Definition swap (ss : ssid) (i : vid) (h : ssid + vid) : ssid + vid :=
  match h with
  | inl t => if decide (t = ss) then inr i else inl t
  | inr j => if decide (j = i) then inl ss else inr j
  end.
Lemma swap_swap ss i h : swap ss i (swap ss i h) = h.
Proof. destruct h; cbn; case_decide; cbn; rewrite ?decide_True by done; rewrite ?decide_False by done; congruence. Qed.

(** The thread and the shared subscription exchange what they hold. *)
Lemma holders_swap S S' H P O i k p p' ss r r' :
  holders_ok (mkCore S H P O) → P !! i = Some (k, p) → H !! ss = Some r → ss_key r' = ss_key r →
  ss_sub r' = pc_sub p → pc_sub p' = ss_sub r → (∀ ss s, p' ≠ Subscribed ss (Some s)) →
  (∀ s, pc_sub p = Some s → p = Subscribed ss (Some s)) →
  holders_ok (mkCore S' (<[ss := r']> H) (<[i := (k, p')]> P) O).
Proof.
  intros Hh Hi Hr Ek Es Ep Hns Hp.
  apply (holders_relabel _ _ (swap ss i) Hh); [apply swap_swap| |done| |].
  - intros [t|j] s; cbn; case_decide; subst; cbn.
    + rewrite lookup_insert_eq. split.
      * intros (? & [= <-] & E). exists k, p. by rewrite <- Es.
      * intros (k0 & p0 & Hl & E). rewrite Hi in Hl. injection Hl as <- <-.
        eexists. split; [done|]. by rewrite Es.
    + by rewrite lookup_insert_ne.
    + rewrite lookup_insert_eq. split.
      * intros (? & ? & [= <- <-] & E). exists r. by rewrite <- Ep.
      * intros (r0 & Hl & E). rewrite Hr in Hl. injection Hl as <-.
        do 2 eexists. split; [done|]. by rewrite Ep.
    + by rewrite lookup_insert_ne.
  - intros t r0 Ht. cbn in *. destruct (decide (ss = t)) as [<-|]; [|rewrite lookup_insert_ne by done; eauto].
    rewrite lookup_insert_eq. exists r'. split; [done|congruence].
  - intros [t|j] s n; cbn; case_decide; subst; cbn; [| |..].
    + intros (r0 & Hl & E) Hown. rewrite lookup_insert_eq in Hl. injection Hl as <-.
      rewrite Es in E. apply Hp in E as ->. eauto.
    + done.
    + intros (k0 & p0 & Hl & E) _ k1 ss' o Hl'. rewrite lookup_insert_eq in Hl, Hl'. simplify_eq.
      cbn in E. subst. by destruct (Hns ss' s).
    + intros _ Hown k1 ss' o Hl'. rewrite lookup_insert_ne in Hl' by done. eauto.
Qed.

Lemma holders_subscribe S H P O i k ss r s :
  holders_ok (mkCore S H P O) → P !! i = Some (k, Subscribing ss) → H !! ss = Some r → O !! s = None →
  holders_ok (mkCore S H (<[i := (k, Subscribed ss (Some s))]> P) (<[s := subscribe_opts (ss_key r) ss]> O)).
Proof.
  intros [H1 H2 H3] Hi Hr Hs. set (c := mkCore S H P O) in *.
  set (c' := mkCore S H _ _).
  assert (∀ h t, holds c' h t ↔ (h = inr i ∧ t = s) ∨ (h ≠ inr i ∧ holds c h t)) as Hh.
  { intros [t|j] u; cbn; [naive_solver|]. destruct (decide (i = j)) as [<-|Hij].
    - rewrite lookup_insert_eq. split; [intros (? & ? & [= <- <-] & E); left; by injection E|].
      intros [[_ ->]|[? _]]; [eauto|done].
    - rewrite lookup_insert_ne by done. split; [intros ?; right; split; [congruence|done]|].
      by intros [[? _]|[_ ?]]; [congruence|]. }
  assert (∀ h t, holds c h t → h ≠ inr i) as Hni.
  { intros h t Ht ->. destruct Ht as (? & ? & Hl & E). cbn in Hl. rewrite Hi in Hl. by injection Hl as <- <-. }
  assert (∀ h t, holds c h t → t ≠ s) as Hnt.
  { intros h t Ht ->. destruct (H2 _ _ Ht) as (n & Hn & _). cbn in Hn. congruence. }
  split.
  - intros t n Ht. cbn in Ht. lk.
    + split; [exists (inr i); apply Hh; auto|]. exists r. split; [done|]. by cbn.
    + destruct (H1 t n) as [(h & Hht) Hn]; [done|]. split; [|done]. exists h. apply Hh. eauto.
  - intros h t Ht. apply Hh in Ht as [[-> ->]|[Hne Ht]]; cbn.
    + rewrite lookup_insert_eq. eexists. split; [done|]. intros k1 ss' o Hl.
      rewrite lookup_insert_eq in Hl. by injection Hl as <- <- <-.
    + destruct (H2 _ _ Ht) as (n & Hn & Hown). exists n. cbn in Hn.
      rewrite lookup_insert_ne by (symmetry; eauto). split; [done|].
      destruct h as [?|j]; [done|]. intros k1 ss' o Hl. cbn in *.
      rewrite lookup_insert_ne in Hl by congruence. eauto.
  - intros h h' t Ht Ht'. apply Hh in Ht as [[-> ->]|[_ Ht]], Ht' as [[-> Et]|[_ Ht']]; [done| | |eauto].
    + by destruct (Hnt _ _ Ht').
    + subst. by destruct (Hnt _ _ Ht).
Qed.

Lemma holders_unsubscribe S H P O i k sub :
  holders_ok (mkCore S H P O) → P !! i = Some (k, Unsubscribing sub) →
  holders_ok (mkCore S H (<[i := (k, Gone)]> P) (match sub with Some s => delete s O | None => O end)).
Proof.
  intros Hok Hi. destruct sub as [s|].
  2:{ eapply holders_keep; [done|done|intros ? ? ?; eauto|by rewrite Hi|done]. }
  destruct Hok as [H1 H2 H3]. set (c := mkCore S H P O) in *. set (c' := mkCore S H _ _).
  assert (holds c (inr i) s) as His by (cbn; eauto).
  assert (∀ h t, holds c' h t ↔ h ≠ inr i ∧ holds c h t) as Hh.
  { intros [t|j] u; cbn; [naive_solver|]. destruct (decide (i = j)) as [<-|Hij].
    - rewrite lookup_insert_eq. split; [intros (? & ? & [= <- <-] & E); done|]. by intros [? _].
    - rewrite lookup_insert_ne by done. split; [intros ?; split; [congruence|done]|]. by intros [_ ?]. }
  assert (∀ h t, holds c h t → h ≠ inr i → t ≠ s) as Hnt by (intros h t Ht Hne ->; eauto).
  split.
  - intros t n Ht. cbn in Ht. lk. destruct (H1 t n) as [(h & Hht) Hn]; [done|]. split; [|done].
    exists h. apply Hh. split; [|done]. intros ->. destruct Hht as (? & ? & Hl & E). cbn in Hl.
    rewrite Hi in Hl. injection Hl as <- <-. cbn in E. congruence.
  - intros h t Ht. apply Hh in Ht as [Hne Ht]. destruct (H2 _ _ Ht) as (n & Hn & Hown).
    exists n. cbn in *. rewrite lookup_delete_ne by (symmetry; eauto). split; [done|].
    destruct h as [?|j]; [done|]. intros k1 ss' o Hl. cbn in *.
    rewrite lookup_insert_ne in Hl by congruence. eauto.
  - intros h h' t [_ Ht]%Hh [_ Ht']%Hh. eauto.
Qed.

Lemma same_keys_refl H : same_keys H H.
Proof. intros ? ? ?. eauto. Qed.
Lemma same_subs_refl H : same_subs H H.
Proof. done. Qed.
#[local] Hint Resolve same_keys_refl same_subs_refl : core.

Lemma registry_new S H P O i k :
  registry_ok (mkCore S H P O) → P !! i = None →
  registry_ok (mkCore S H (<[i := (k, New)]> P) O).
Proof.
  intros [I1 I2 I3 I4 I5 I6 I7] Hi. split; cbn in *; try done.
  - intros ss r j Hr Hj. destruct (I2 ss r j Hr Hj) as [? (q & Hq & Hq')]. split; [done|].
    rewrite lookup_insert_ne by (intros <-; congruence). eauto.
  - intros j k' q Hj Hb. lk; eauto.
  - intros a b ka kb pa pb ss Ha Hb Ha' Hb'.
    apply lookup_insert_Some in Ha as [[-> [= <- <-]]|[? Ha]]; [done|].
    apply lookup_insert_Some in Hb as [[-> [= <- <-]]|[? Hb]]; [done|]. by eapply (I4 a b).
  - intros ss r Hr Hne Hf. destruct (I5 ss r Hr Hne Hf) as (j & kj & q & Hj & Hq).
    exists j, kj, q. rewrite lookup_insert_ne; [done|]. intros <-. congruence.
Qed.

Definition Inv (c : core) : Prop := registry_ok c ∧ holders_ok c.

(** What the invariant says of the thread that takes the step. *)
Ltac here I Hi :=
  let Hb := fresh in
  destruct (pc_ok _ I _ _ _ Hi eq_refl) as (ss' & r' & HS' & Hr' & Hm' & Hst'); cbn in HS', Hr', Hst'.

Lemma inv_step c c' : cstep c c' → Inv c → Inv c'.
Proof.
  intros Hstep [I J]. unfold Inv. destruct Hstep as [S H P O i k Hi|S H P O i k ss Hi HS Hr
    |S H P O i k ss r Hi HS Hr|S H P O i k ss r s Hi Hr Hs|S H P O i k ss Hi|S H P O i k ss sub Hi
    |S H P O i k ss failed Hi|S H P O i k ss r Hi Hr Hy|S H P O i k Hi|S H P O i k Hi HS
    |S H P O i k ss r Hi HS Hr He|S H P O i k ss r Hi HS Hr He|S H P O i k sub Hi|S H P O i k sub Hi].
  - split; [by apply registry_new|]. eapply holders_keep; [done|done..|by rewrite Hi|done].
  - split; [eapply registry_join; [done..|by right]|].
    destruct (same_subs_insert H ss (ss_join i (newSharedSub k))) as [? ?]; [by rewrite Hr|].
    eapply holders_keep; [done|done..|by rewrite Hi|done].
  - destruct (subs_ok _ I _ _ HS) as (r1 & Hr1 & Ek & _ & Es). cbn in Hr1.
    assert (r1 = r) as -> by congruence. rewrite Es. cbn [negb]. split.
    + rewrite <- (insert_id S k ss) by done. eapply registry_join; [done..|by left].
    + destruct (same_subs_insert H ss (ss_join i r)) as [? ?]; [by rewrite Hr|].
      eapply holders_keep; [done|done..|by rewrite Hi|done].
  - split; [|by apply holders_subscribe]. here I Hi. destruct Hst' as (<- & ? & ?).
    eapply registry_move; [done|done|done|done|]. intros _. by exists ss, r'.
  - here I Hi. destruct Hst' as (<- & ? & ?). split.
    + eapply registry_move; [done|done|done|done|]. intros _. by exists ss, r'.
    + eapply holders_keep; [done|done..|by rewrite Hi|done].
  - here I Hi. destruct Hst' as (<- & Hready & Hnone). rewrite (alter_alt_Some _ _ _ r') by done. split.
    + eapply registry_update; try done; cbn; [by rewrite Nat.eqb_refl| | |by left|congruence].
      * split_and!; [done..|]. by destruct sub.
      * intros q Hq. destruct q; cbn in *; try done; try congruence; intros; destruct_and?; congruence.
    + eapply holders_swap; [done|done|done|done| |by rewrite Hnone|done|by intros s [= ->]]. done.
  - here I Hi. destruct Hst' as (<- & Hready & Herr & Hsome).
    rewrite (alter_alt_Some _ _ _ r') by done. split.
    + eapply registry_update; try done; cbn; try by destruct failed.
      * intros q Hq. destruct q; cbn in *; try done; try congruence; intros; destruct_and?;
          split_and?; congruence.
      * right. by destruct failed.
      * intros _ Hf. apply Hsome. congruence.
    + destruct (same_subs_insert H ss (ss_announce r')) as [? ?]; [by rewrite Hr'|].
      eapply holders_keep; [done|done..|rewrite Hi; by destruct failed|by destruct failed].
  - here I Hi. subst ss'. assert (r' = r) as -> by congruence. split.
    + eapply registry_move; [done|done|by destruct (ss_subErr r)|by destruct (ss_subErr r)|].
      intros _. exists ss, r. split_and!; [done..|]. destruct (ss_subErr r) eqn:E; by cbn.
    + eapply holders_keep; [done|done..|rewrite Hi; by destruct (ss_subErr r)|by destruct (ss_subErr r)].
  - here I Hi. split.
    + eapply registry_move; [done|done|done|done|]. intros _. exists ss', r'.
      split_and!; [done..|]. by destruct Hst'.
    + eapply holders_keep; [done|done..|by rewrite Hi|done].
  - here I Hi. congruence.
  - split.
    + pose proof (registry_leave _ _ _ _ _ _ _ _ None I Hi HS Hr) as Hl.
      by rewrite bool_decide_eq_false_2 in Hl.
    + destruct (same_subs_insert H ss (ss_leave i r)) as [? ?].
      { rewrite Hr. cbn. by rewrite bool_decide_eq_false_2. }
      eapply holders_keep; [done|done..|by rewrite Hi|done].
  - split.
    + pose proof (registry_leave _ _ _ _ _ _ _ _ (ss_sub r) I Hi HS Hr) as Hl.
      by rewrite bool_decide_eq_true_2 in Hl.
    + eapply holders_swap; try done. cbn. by rewrite bool_decide_eq_true_2.
  - split.
    + by eapply registry_move.
    + eapply holders_keep; [done|done..|by rewrite Hi|done].
  - split; [by eapply registry_move|]. by apply holders_unsubscribe.
Qed.

Lemma inv_init : Inv (core_of newSubMux).
Proof.
  assert (∀ h s, ¬ holds (core_of newSubMux) h s) as Hn.
  { intros [ss|i] s; cbn; [intros (r & Hr & _)|intros (k & p & Hp & _)];
      [by rewrite lookup_empty in Hr|by rewrite fmap_empty, lookup_empty in Hp]. }
  split; split; cbn; try (intros *; rewrite ?fmap_empty, lookup_empty; done);
    by intros * ?%Hn.
Qed.

Lemma reachable_inv m : reachable m → Inv (core_of m).
Proof.
  intros [trace Hrun]. revert Hrun. generalize inv_init. generalize newSubMux.
  induction trace as [|a trace IH]; intros m0 H0; cbn; [by intros [= <-]|].
  destruct (step a m0) as [m1|] eqn:Hs; [|done]. apply IH.
  apply step_core in Hs as [E|Hc]; [by rewrite E|by eapply inv_step].
Qed.

(** * Properties *)

(** Viewer [i] is served by the NATS subscription [s]: it is among the viewers
    of the shared subscription that holds [s]. *)
Definition served_by (m : mux) (i : vid) (s : subid) : Prop :=
  ∃ v ss r, m_viewers m !! i = Some v ∧ m_subs m !! v_key v = Some ss ∧
    m_heap m !! ss = Some r ∧ i ∈ ss_viewers r ∧ ss_sub r = Some s.

Definition attached (m : mux) (i : vid) (v : muxViewer) : Prop :=
  m_viewers m !! i = Some v ∧ v_pc v = Attached.

Lemma attached_served m i v : Inv (core_of m) → attached m i v →
  ∃ s ss, served_by m i s ∧ m_open m !! s = Some (subscribe_opts (v_key v) ss) ∧
    m_subs m !! v_key v = Some ss.
Proof.
  intros [I J] [Hv Hp].
  destruct (pc_ok _ I i (v_key v) (v_pc v)) as (ss & r & HS & Hr & Hi & Hst).
  { cbn. by rewrite lookup_fmap, Hv. }
  { by rewrite Hp. }
  rewrite Hp in Hst. destruct Hst as [Hready Herr]. cbn in HS, Hr.
  destruct (subs_ok _ I _ _ HS) as (r1 & Hr1 & Ek & Hne & _). cbn in Hr1.
  assert (r1 = r) as -> by congruence.
  destruct (ss_sub r) as [s|] eqn:Hs; [|by destruct (served _ I ss r Hr)].
  destruct (held_open _ J (inl ss) s) as (n & Hn & Hown); [by exists r|]. cbn in Hn, Hown.
  destruct (open_held _ J _ _ Hn) as [_ (r2 & Hr2 & En)]. cbn in Hr2.
  rewrite Hown in Hr2, En. assert (r2 = r) as -> by congruence.
  exists s, ss. split; [by exists v, ss, r|]. split; [|done]. by rewrite Hn, En, Ek.
Qed.

(** C11. Viewers share NATS subscriptions exactly when they ask for the same:
    under every interleaving of attaching, detaching, failures and deliveries,
    an attached viewer is served by one open NATS subscription, which was made
    with the stream, the filter and the start sequence of that viewer; two
    attached viewers have the same one if and only if their keys are equal, so
    a viewer that replays from a sequence never takes its messages from a
    subscription at another position. *)
Theorem mux_shares_by_key m :
  reachable m →
  (∀ i v, attached m i v → ∃ s n, served_by m i s ∧ (∀ s', served_by m i s' → s' = s) ∧
     m_open m !! s = Some n ∧ s_stream n = k_stream (v_key v) ∧
     s_subject n = (if IsEmpty (k_filter (v_key v)) then ">" else k_filter (v_key v)) ∧
     s_start n = (if (0 <? k_fromSeq (v_key v))%Z then Some (k_fromSeq (v_key v)) else None)) ∧
  (∀ i j v w s t, attached m i v → attached m j w → served_by m i s → served_by m j t →
     s = t ↔ v_key v = v_key w).
Proof.
  intros Hm%reachable_inv. split.
  - intros i v Ha. destruct (attached_served m i v Hm Ha) as (s & ss & Hs & Ho & HS).
    exists s, (subscribe_opts (v_key v) ss).
    split_and!; [done| |done|done|by cbn; destruct (IsEmpty _)|done].
    intros s' (v1 & ss1 & r1 & ? & ? & ? & _ & ?). destruct Hs as (v2 & ss2 & r2 & ? & ? & ? & _ & ?).
    congruence.
  - intros i j v w s t [Hv _] [Hw _] (v1 & ss1 & r1 & ? & HS1 & Hr1 & _ & Hs1)
      (v2 & ss2 & r2 & ? & HS2 & Hr2 & _ & Hs2).
    assert (v1 = v ∧ v2 = w) as [-> ->] by (split; congruence).
    destruct Hm as [I J]. destruct (subs_ok _ I _ _ HS1) as (q1 & Hq1 & Ek1 & _).
    destruct (subs_ok _ I _ _ HS2) as (q2 & Hq2 & Ek2 & _). cbn in Hq1, Hq2.
    split; intros E; [|congruence]. subst t.
    assert (inl ss1 = (inl ss2 : ssid + vid)) as E
      by (apply (one_holder _ J _ _ s); [by exists r1|by exists r2]).
    congruence.
Qed.

(** A thread can take a step of its own. *)
Definition can_step (m : mux) (i : vid) : Prop :=
  ∃ a m', step a m = Some m' ∧
    a ∈ [AEnter i (fresh (dom (m_heap m))); ASubscribe i None; AStore i; AAnnounce i; AWait i;
         ALeave i; ADetach i; AStop i; AUnsubscribe i].

Ltac steps a := exists a; eexists; split; [|set_solver]; unfold step;
  match goal with H : m_panic _ = false |- _ => rewrite H end.

Lemma subscriber_steps m i v ss : m_panic m = false → m_viewers m !! i = Some v →
  subscriber (v_pc v) = Some ss → can_step m i.
Proof.
  intros Hp Hv Hs. unfold can_step. destruct (v_pc v) eqn:E; try done.
  - steps (ASubscribe i None). unfold attach_subscribe. by rewrite Hv, E.
  - steps (AStore i). unfold attach_store. by rewrite Hv, E.
  - steps (AAnnounce i). unfold attach_announce. by rewrite Hv, E.
Qed.

(** An open subscription is kept by a registered one, or by a thread. *)
Lemma open_subscription_kept m s n : Inv (core_of m) → m_open m !! s = Some n →
  (∃ key r, m_subs m !! key = Some (s_owner n) ∧ m_heap m !! s_owner n = Some r ∧
     ss_key r = key ∧ ss_viewers r ≠ ∅ ∧ ss_sub r = Some s) ∨
  (∃ i v, m_viewers m !! i = Some v ∧ pc_sub (v_pc v) = Some s).
Proof.
  intros [I J] Hn. destruct (open_held _ J _ _ Hn) as [([ss|i] & Hh) _].
  - destruct (held_open _ J _ _ Hh) as (n' & Hn' & Hown). cbn in Hn', Hown.
    assert (n' = n) as -> by congruence. subst ss. destruct Hh as (r & Hr & Hs). cbn in Hr.
    assert (ss_viewers r ≠ ∅) as Hne
      by (intros He; pose proof (left_none _ I _ _ Hr He); congruence).
    left. exists (ss_key r), r. split_and!; [|done..].
    pose proof Hne as [j Hj]%set_choose_L. by apply (mem_ok _ I (s_owner n) r j).
  - right. destruct Hh as (k & p & Hp & Hs). cbn in Hp. rewrite lookup_fmap in Hp.
    destruct (m_viewers m !! i) as [v|] eqn:Hv; [|done]. injection Hp as <- <-. eauto.
Qed.

Lemma all_gone_empty m : Inv (core_of m) →
  (∀ i v, m_viewers m !! i = Some v → v_pc v = Gone) → m_open m = ∅ ∧ m_subs m = ∅.
Proof.
  intros Hm Hgone. pose proof Hm as [I J].
  assert (m_subs m = ∅) as HS.
  { apply map_eq. intros k. rewrite lookup_empty. destruct (m_subs m !! k) as [ss|] eqn:Hk; [|done].
    destruct (subs_ok _ I _ _ Hk) as (r & Hr & _ & [j Hj]%set_choose_L & _).
    destruct (mem_ok _ I _ _ _ Hr Hj) as [_ (p & Hp & Hin)]. cbn in Hp. rewrite lookup_fmap in Hp.
    destruct (m_viewers m !! j) as [v|] eqn:Hv; [|done]. injection Hp as _ <-.
    by rewrite (Hgone _ _ Hv) in Hin. }
  split; [|done]. apply map_eq. intros s. rewrite lookup_empty.
  destruct (m_open m !! s) as [n|] eqn:Hn; [|done].
  destruct (open_subscription_kept _ _ _ Hm Hn) as [(k & r & Hk & _)|(i & v & Hv & Hs)].
  - by rewrite HS, lookup_empty in Hk.
  - by rewrite (Hgone _ _ Hv) in Hs.
Qed.

Lemma enter_steps m i v : Inv (core_of m) → m_panic m = false → m_viewers m !! i = Some v →
  v_pc v = New → can_step m i.
Proof.
  intros [I _] Hp Hv E. assert (∃ m', attach_enter i (fresh (dom (m_heap m))) m = Some m') as [m' Hm'].
  { unfold attach_enter. rewrite Hv, E, bool_decide_eq_true_2 by done. cbn [negb].
    destruct (m_subs m !! v_key v) as [ss|] eqn:HS.
    - destruct (subs_ok _ I _ _ HS) as (r & Hr & _). cbn in Hr. rewrite Hr. eauto.
    - destruct (m_heap m !! fresh _) eqn:Hf; [|eauto].
      exfalso. by apply elem_of_dom_2, is_fresh in Hf. }
  unfold can_step. steps (AEnter i (fresh (dom (m_heap m)))). done.
Qed.

Lemma wait_steps m i v ss : Inv (core_of m) → m_panic m = false → m_viewers m !! i = Some v →
  v_pc v = Waiting ss →
  can_step m i ∨ ∃ j w, m_viewers m !! j = Some w ∧ subscriber (v_pc w) = Some ss ∧ can_step m j.
Proof.
  intros [I _] Hp Hv E.
  destruct (pc_ok _ I i (v_key v) (v_pc v)) as (ss' & r & HS & Hr & Hi & Hst);
    [cbn; by rewrite lookup_fmap, Hv|by rewrite E|].
  rewrite E in Hst. cbn in HS, Hr, Hst. subst ss'. destruct (ss_ready r) eqn:Hready.
  - left. unfold can_step. steps (AWait i). unfold attach_wait. by rewrite Hv, E, Hr, Hready.
  - right. destruct (subs_ok _ I _ _ HS) as (r1 & Hr1 & _ & Hne & _). cbn in Hr1.
    assert (r1 = r) as -> by congruence.
    destruct (awaited _ I _ _ Hr Hne Hready) as (j & k & p & Hj & Hs). cbn in Hj.
    rewrite lookup_fmap in Hj. destruct (m_viewers m !! j) as [w|] eqn:Hw; [|done].
    injection Hj as <- <-. exists j, w. split_and!; [done..|]. by eapply subscriber_steps.
Qed.

Lemma detach_steps m i v : Inv (core_of m) → m_panic m = false → m_viewers m !! i = Some v →
  v_pc v = Detaching → can_step m i.
Proof.
  intros [I _] Hp Hv E.
  destruct (pc_ok _ I i (v_key v) (v_pc v)) as (ss & r & HS & Hr & _);
    [cbn; by rewrite lookup_fmap, Hv|by rewrite E|]. cbn in HS, Hr.
  unfold can_step. steps (ADetach i). unfold detach_section.
  by rewrite Hv, E, bool_decide_eq_true_2, HS, Hr.
Qed.

(** C12. Nothing leaks and nobody waits forever.  In every reachable state an open
    NATS subscription is kept by the registered subscription of its key, which
    has viewers, or is in the hands of a thread about to store or to close it;
    so when every session is over no subscription is open at NATS and the
    registry is empty.  A thread that waits for another's subscribe can go on,
    or the thread it waits for can; all others can always go on. *)
Theorem mux_leaves_nothing m :
  reachable m →
  (∀ s n, m_open m !! s = Some n →
     (∃ key r, m_subs m !! key = Some (s_owner n) ∧ m_heap m !! s_owner n = Some r ∧
        ss_key r = key ∧ ss_viewers r ≠ ∅ ∧ ss_sub r = Some s) ∨
     (∃ i v, m_viewers m !! i = Some v ∧ pc_sub (v_pc v) = Some s)) ∧
  ((∀ i v, m_viewers m !! i = Some v → v_pc v = Gone) → m_open m = ∅ ∧ m_subs m = ∅) ∧
  (m_panic m = false → ∀ i v, m_viewers m !! i = Some v → v_pc v ≠ Gone →
     can_step m i ∨ ∃ ss j w, v_pc v = Waiting ss ∧ m_viewers m !! j = Some w ∧
       subscriber (v_pc w) = Some ss ∧ can_step m j).
Proof.
  intros Hm%reachable_inv. split; [intros s n; by apply open_subscription_kept|].
  split; [by apply all_gone_empty|]. intros Hp i v Hv Hng.
  destruct (v_pc v) eqn:E; [..|done]; try (left; by eapply subscriber_steps; [..|rewrite E]).
  - left. by eapply enter_steps.
  - destruct (wait_steps m i v ss) as [?|(j & w & ? & ? & ?)]; [done..|by left|]. right. by exists ss, j, w.
  - left. unfold can_step. steps (ALeave i). unfold leave. by rewrite Hv, E, bool_decide_eq_true_2.
  - left. by eapply detach_steps.
  - left. unfold can_step. steps (AStop i). unfold detach_stop. by rewrite Hv, E.
  - left. unfold can_step. steps (AUnsubscribe i). unfold detach_unsubscribe. by rewrite Hv, E.
Qed.

(** ** Runs *)

Definition key_new : muxKey := mkKey "c1" "ORDERS" "" 0.
Definition key_from7 : muxKey := mkKey "c1" "ORDERS" "" 7.
Definition msg1 : Msg := mkMsg (Some 12%Z) "orders.new" "hello" [] "2026-01-02T03:04:05Z".

(** Three viewers, two of them on the same key; the second waits for the first. *)
Definition three_viewers : list action :=
  [AOpen 1 key_new 0; AOpen 2 key_new 3; AOpen 3 key_from7 0;
   AEnter 1 10; AEnter 2 11; AEnter 3 12; ASubscribe 3 (Some 21); ASubscribe 1 (Some 20);
   AStore 1; AAnnounce 1; AStore 3; AWait 2; AAnnounce 3;
   AFanStart 20 msg1 [2; 1]; AFanNext 20; AFanSend 20; AFanNext 20; AFanSend 20; AFanNext 20].
Definition sample_mux : mux := default newSubMux (run three_viewers newSubMux).

Lemma sample_reachable : reachable sample_mux.
Proof. exists three_viewers. vm_compute. reflexivity. Qed.

(** The bound of one viewer of a subscription cuts the payload of all: [hel] is
    ["aGVs"] in base64. *)
Example sample_frames :
  option_map (λ v, map json_parse (v_out v)) (m_viewers sample_mux !! 1) =
  Some [Some (message_fields 12 "orders.new" "hel" "2026-01-02T03:04:05Z")].
Proof. vm_compute. reflexivity. Qed.

Lemma mux_shares_by_key_witness :
  ∃ s n, served_by sample_mux 3 s ∧ m_open sample_mux !! s = Some n ∧
    s_subject n = ">" ∧ s_start n = Some 7%Z.
Proof.
  destruct (mux_shares_by_key sample_mux sample_reachable) as [H _].
  destruct (m_viewers sample_mux !! 3) as [v|] eqn:E; [|vm_compute in E; discriminate E].
  destruct (H 3 v) as (s & n & Hs & _ & Ho & _ & Hf & Hn).
  - split; [exact E|]. vm_compute in E. injection E as <-. reflexivity.
  - assert (v_key v = key_from7) as Hk by (vm_compute in E; injection E as <-; reflexivity).
    rewrite Hk in Hf, Hn. exists s, n. repeat split; [exact Hs|exact Ho|exact Hf|exact Hn].
Defined.

(** All three leave. *)
Definition all_leave : list action :=
  flat_map (λ i, [AClose i; ALeave i; ADetach i; AStop i; AUnsubscribe i]) [2; 1; 3].
Definition final_mux : mux := default newSubMux (run all_leave sample_mux).

Lemma mux_leaves_nothing_witness :
  reachable final_mux ∧ m_open final_mux = ∅ ∧ m_subs final_mux = ∅ ∧
  m_open sample_mux ≠ ∅.
Proof.
  assert (reachable final_mux) as Hr by (exists (three_viewers ++ all_leave); vm_compute; reflexivity).
  split; [exact Hr|]. destruct (mux_leaves_nothing final_mux Hr) as (_ & H & _).
  destruct H as [Ho Hs].
  - intros i v Hv. assert (map_Forall (λ _ v, v_pc v = Gone) (m_viewers final_mux)) as HF
      by (apply map_Forall_to_list; vm_compute; repeat constructor). exact (HF i v Hv).
  - split; [exact Ho|]. split; [exact Hs|]. vm_compute. discriminate.
Defined.

(** A viewer leaves between the test of its flags and the send. *)
Definition closing_race : list action :=
  [AOpen 1 key_new 0; AEnter 1 10; ASubscribe 1 (Some 20); AStore 1; AAnnounce 1;
   AFanStart 20 msg1 [1]; AFanNext 20;
   AClose 1; ALeave 1; ADetach 1; AStop 1;
   AFanSend 20].

(** A message can crash the server: [trySendFrame] tests [closed] and sends
    later, and nothing keeps [detach] from closing the channel in between.  In
    this run the session marks the viewer closed before it leaves, as
    [serveConn] does, and [fanout], which works on its own copy of the viewers,
    sends on the closed channel: a panic in the callback of the NATS client,
    which nothing recovers. *)
Theorem fanout_can_send_on_closed_channel :
  ∃ m v, run closing_race newSubMux = Some m ∧ m_panic m = true ∧
    m_viewers m !! 1 = Some v ∧ v_closed v = true ∧ v_stopped v = true.
Proof.
  destruct (run closing_race newSubMux) as [m|] eqn:E; [|vm_compute in E; discriminate].
  destruct (m_viewers m !! 1) as [v|] eqn:Hv;
    [|vm_compute in E; injection E as <-; vm_compute in Hv; discriminate].
  exists m, v. vm_compute in E. injection E as <-. vm_compute in Hv. by injection Hv as <-.
Qed.
