(* ===== verification/LiveSession.v ===== *)
(** One live session, internal/live/hub.go: the checks of [Handle], then
    [serveConn] with its goroutines: the loop that waits for the idle timer and
    polls the NATS connection, the reader of control messages, and the writer of
    the viewer ([writeLoop] of mux.go), which calls [sendMessageFrame].

    A goroutine is a value of [prog]: what it does next, one atomic operation at
    a time, and how it goes on with the answer.  A critical section of [mu],
    [idleMu] or [writeMu] is one operation.  The three run interleaved. *)

From S2P Require Export Prelude GoStrings LiveEncode.

(** * Settings *)

(** Durations are nanoseconds. *)
Definition second : Z := 1000000000.
Definition millisecond : Z := 1000000.

Definition defaultLiveWSMaxMessages : Z := 1000.
Definition defaultLiveWSIdleTimeout : Z := (5 * 60 * second)%Z.
Definition defaultLiveWSRateLimit : Z := (100 * millisecond)%Z.
Definition defaultGatewayTouchMax : Z := (30 * second)%Z.

Record LiveConfig := {
  cfg_MaxMessages : Z;
  cfg_IdleTimeout : Z;
  cfg_RateLimit : Z;
  cfg_ClientCacheTTL : Z;
  cfg_origins : list string;   (* CORSOrigins() *)
}.

Definition liveWSMaxMessages (cfg : LiveConfig) : Z :=
  if (0 <? cfg_MaxMessages cfg)%Z then cfg_MaxMessages cfg else defaultLiveWSMaxMessages.
Definition liveWSIdleTimeout (cfg : LiveConfig) : Z :=
  if (0 <? cfg_IdleTimeout cfg)%Z then cfg_IdleTimeout cfg else defaultLiveWSIdleTimeout.
Definition liveWSRateLimit (cfg : LiveConfig) : Z :=
  if (0 <? cfg_RateLimit cfg)%Z then cfg_RateLimit cfg else defaultLiveWSRateLimit.
Definition gatewayTouchInterval (cfg : LiveConfig) : Z :=
  let ttl := if (cfg_ClientCacheTTL cfg <=? 0)%Z then (5 * 60 * second)%Z else cfg_ClientCacheTTL cfg in
  Z.max (Z.min (Z.quot ttl 3) defaultGatewayTouchMax) second.

Definition checkOrigin (cfg : LiveConfig) (origin : string) : bool :=
  match cfg_origins cfg with
  | [] => true
  | origins =>
      IsEmpty origin || existsb (λ allowed, (allowed =s "*") || (allowed =s origin)) origins
  end.

(** * Handle *)

(** What [Handle] reads of the request; an absent argument is empty. *)
Record LiveRequest := {
  lr_clusterId : string;
  lr_origin : string;
  lr_stream : string;
  lr_subject : string;
  lr_fromSeq : string;
}.

Inductive executor := ExecOk | ExecNotFound | ExecFailed.

Inductive live_answer :=
  | Refused (message : string) (status : Z)
  | Served (clusterID stream subjectFilter : string) (fromSeq : Z).

(** [gateway.GetExecutor] answers [exec clusterID].  The upgrade itself checks
    the origin again, with the same function. *)
Definition Handle (cfg : LiveConfig) (exec : string → executor) (r : LiveRequest) : live_answer :=
  if IsEmpty (lr_clusterId r) then Refused "missing clusterId" 400
  else if negb (checkOrigin cfg (lr_origin r)) then Refused "origin not allowed" 403
  else if IsEmpty (lr_stream r) then Refused "missing stream" 400
  else
    let fromSeq :=
      if IsEmpty (lr_fromSeq r) then Some 0%Z else ParseUint (lr_fromSeq r) in
    match fromSeq with
    | None => Refused "invalid fromSeq" 400
    | Some fromSeq =>
        match exec (lr_clusterId r) with
        | ExecNotFound => Refused "cluster not found" 404
        | ExecFailed => Refused "NATS is unavailable" 502
        | ExecOk => Served (lr_clusterId r) (lr_stream r) (lr_subject r) fromSeq
        end
    end.

(** * Goroutines *)

(** A frame on the connection: [writeFrame] of a [liveFrame], or the bytes of a
    message frame. *)
Inductive wframe := WFrame (f : liveFrame) | WData (frame : string).

(** The verdict of the critical section of [sendMessageFrame]. *)
Inductive verdict := Stopped | Full | TooSoon | LetThrough.

Inductive prog :=
  | PDone                                         (* back at the head of its loop *)
  | PExit
  | PLoadClosed (k : bool → prog)                 (* closed.Load() *)
  | PCasClosed (k : bool → prog)                  (* closed.CompareAndSwap(false, true) *)
  | PCancel (k : prog)                            (* cancel() *)
  | PCtxDone (k : bool → prog)                    (* the select on sessionCtx.Done() *)
  | PWrite (f : wframe) (k : bool → prog)         (* writeMu.Lock(), then *)
  | PWriting (f : wframe) (k : bool → prog)       (* conn.WriteMessage, Unlock; true: nil *)
  | PRead (k : option string → prog)              (* conn.ReadMessage(); None: an error *)
  | PCloseConn (k : prog)                         (* conn.Close() *)
  | PNow (k : Z → prog)
  | PStoreActivity (now : Z) (k : prog)
  | PLoadActivity (k : Z → prog)
  | PRestart (k : prog)                           (* Stop, drain and Reset of the idle timer *)
  | PReset (k : prog)                             (* Reset alone *)
  | PStopTimer (k : prog)
  | PLoadTouch (k : Z → prog)
  | PCasTouch (prev now : Z) (k : bool → prog)
  | PTouch (k : prog)                             (* gateway.Touch(clusterID) *)
  | PAdmit (k : verdict → prog)                   (* the section of mu in sendMessageFrame *)
  | PZeroCount (k : prog)                         (* the section of mu that clears *)
  | PSetPaused (b : bool) (k : prog)
  | PNewViewer (k : prog)                         (* newMuxViewer: its writeLoop starts *)
  | PAttach (k : option string → prog)            (* mux.attach; Some: an error *)
  | PStartReader (k : prog)
  | PDetach (k : prog).                           (* unsub() *)

Definition frame (t : FrameType) (subject error : string) : liveFrame :=
  mkFrame t subject "" "" [] error 0.

Section Programs.
Context (cfg : LiveConfig).

Definition touchGateway (k : prog) : prog :=
  PNow (λ now, PLoadTouch (λ prev,
    if (now - prev <? gatewayTouchInterval cfg)%Z then k
    else PCasTouch prev now (λ won, if won then PTouch k else k))).

Definition resetIdle (k : prog) : prog :=
  PNow (λ now, PStoreActivity now (PRestart k)).

Definition closeSession (message : string) (k : prog) : prog :=
  PCasClosed (λ won,
    if won then
      PCancel (if IsEmpty message then PCloseConn k
               else PWrite (WFrame (frame Error "" message)) (λ _, PCloseConn k))
    else k).

Definition send (f : liveFrame) (k : bool → prog) : prog :=
  PLoadClosed (λ closed,
    if closed then k false
    else PWrite (WFrame f) (λ ok,
      if ok then resetIdle (touchGateway (k true)) else closeSession "" (k false))).

Definition sendMessageFrame (data : string) (k : bool → prog) : prog :=
  PAdmit (λ v,
    match v with
    | Stopped | TooSoon => k false
    | Full => send (frame Error "" "max messages reached") (λ _, closeSession "" (k false))
    | LetThrough =>
        PWrite (WData data) (λ ok,
          if ok then resetIdle (touchGateway (k true)) else closeSession "" (k false))
    end).

(** One turn of [writeLoop] with a frame received. *)
Definition writeLoop_turn (data : string) : prog :=
  PLoadClosed (λ closed, if closed then PDone else sendMessageFrame data (λ _, PDone)).

Definition reader_turn : prog :=
  PCtxDone (λ cancelled,
    if cancelled then PExit
    else PRead (λ r,
      match r with
      | None => closeSession "" PExit
      | Some data =>
          resetIdle (touchGateway (
            match parseControlAction data with
            | Some Pause => PSetPaused true (send (frame Paused "" "") (λ _, PDone))
            | Some Resume => PSetPaused false (send (frame Resumed "" "") (λ _, PDone))
            | Some Clear => PZeroCount (send (frame Cleared "" "") (λ _, PDone))
            | None => PDone
            end))
      end)).

(** The deferred calls, last first; [unsub] once the viewer is attached. *)
Definition deferred : prog := PStopTimer (PCancel (PCloseConn PExit)).

Definition idle_turn : prog :=
  PLoadActivity (λ last, PNow (λ now,
    if (now - last <? liveWSIdleTimeout cfg)%Z then PReset PDone
    else closeSession "idle timeout" (PDetach deferred))).

Definition poll_turn (connected : bool) : prog :=
  touchGateway (if connected then PDone
                else closeSession "nats disconnected" (PDetach deferred)).

Definition serveConn (stream : string) : prog :=
  send (frame Connected stream "") (λ ok,
    if ok then
      PNewViewer (PAttach (λ err,
        match err with
        | Some e => closeSession e deferred
        | None => PStartReader PDone
        end))
    else deferred).
End Programs.

(** * State *)

(** What happened, newest first in [s_log]. *)
Inductive event :=
  | LAdmit (at_ : Z)              (* a message frame was let through, [lastSent] *)
  | LClear
  | LWrote (f : wframe) (ok : bool)   (* an answered write *)
  | LTouch (at_ : Z)
  | LClosed.                      (* the first [closed.CompareAndSwap] *)

Record session := mkSession {
  s_now : Z;
  s_closed : bool;
  s_cancelled : bool;
  s_paused : bool;
  s_msgCount : Z;
  s_lastSent : option Z;          (* None: the zero time *)
  s_lastActivity : Z;
  s_lastTouch : Z;
  s_timer : option Z;             (* the deadline of the armed idle timer *)
  s_fired : bool;                 (* idleTimer.C holds a tick *)
  s_writeMu : bool;
  s_connOpen : bool;
  s_main : prog;
  s_reader : option prog;         (* None: not started *)
  s_writer : option prog;
  s_log : list event;
}.

Definition with_now n s := mkSession n (s_closed s) (s_cancelled s) (s_paused s) (s_msgCount s) (s_lastSent s) (s_lastActivity s) (s_lastTouch s) (s_timer s) (s_fired s) (s_writeMu s) (s_connOpen s) (s_main s) (s_reader s) (s_writer s) (s_log s).
Definition with_closed b s := mkSession (s_now s) b (s_cancelled s) (s_paused s) (s_msgCount s) (s_lastSent s) (s_lastActivity s) (s_lastTouch s) (s_timer s) (s_fired s) (s_writeMu s) (s_connOpen s) (s_main s) (s_reader s) (s_writer s) (s_log s).
Definition with_cancelled b s := mkSession (s_now s) (s_closed s) b (s_paused s) (s_msgCount s) (s_lastSent s) (s_lastActivity s) (s_lastTouch s) (s_timer s) (s_fired s) (s_writeMu s) (s_connOpen s) (s_main s) (s_reader s) (s_writer s) (s_log s).
Definition with_paused b s := mkSession (s_now s) (s_closed s) (s_cancelled s) b (s_msgCount s) (s_lastSent s) (s_lastActivity s) (s_lastTouch s) (s_timer s) (s_fired s) (s_writeMu s) (s_connOpen s) (s_main s) (s_reader s) (s_writer s) (s_log s).
Definition with_count n s := mkSession (s_now s) (s_closed s) (s_cancelled s) (s_paused s) n (s_lastSent s) (s_lastActivity s) (s_lastTouch s) (s_timer s) (s_fired s) (s_writeMu s) (s_connOpen s) (s_main s) (s_reader s) (s_writer s) (s_log s).
Definition with_lastSent t s := mkSession (s_now s) (s_closed s) (s_cancelled s) (s_paused s) (s_msgCount s) t (s_lastActivity s) (s_lastTouch s) (s_timer s) (s_fired s) (s_writeMu s) (s_connOpen s) (s_main s) (s_reader s) (s_writer s) (s_log s).
Definition with_activity t s := mkSession (s_now s) (s_closed s) (s_cancelled s) (s_paused s) (s_msgCount s) (s_lastSent s) t (s_lastTouch s) (s_timer s) (s_fired s) (s_writeMu s) (s_connOpen s) (s_main s) (s_reader s) (s_writer s) (s_log s).
Definition with_touch t s := mkSession (s_now s) (s_closed s) (s_cancelled s) (s_paused s) (s_msgCount s) (s_lastSent s) (s_lastActivity s) t (s_timer s) (s_fired s) (s_writeMu s) (s_connOpen s) (s_main s) (s_reader s) (s_writer s) (s_log s).
Definition with_timer t f s := mkSession (s_now s) (s_closed s) (s_cancelled s) (s_paused s) (s_msgCount s) (s_lastSent s) (s_lastActivity s) (s_lastTouch s) t f (s_writeMu s) (s_connOpen s) (s_main s) (s_reader s) (s_writer s) (s_log s).
Definition with_writeMu b s := mkSession (s_now s) (s_closed s) (s_cancelled s) (s_paused s) (s_msgCount s) (s_lastSent s) (s_lastActivity s) (s_lastTouch s) (s_timer s) (s_fired s) b (s_connOpen s) (s_main s) (s_reader s) (s_writer s) (s_log s).
Definition with_conn b s := mkSession (s_now s) (s_closed s) (s_cancelled s) (s_paused s) (s_msgCount s) (s_lastSent s) (s_lastActivity s) (s_lastTouch s) (s_timer s) (s_fired s) (s_writeMu s) b (s_main s) (s_reader s) (s_writer s) (s_log s).
Definition with_threads m r w s := mkSession (s_now s) (s_closed s) (s_cancelled s) (s_paused s) (s_msgCount s) (s_lastSent s) (s_lastActivity s) (s_lastTouch s) (s_timer s) (s_fired s) (s_writeMu s) (s_connOpen s) m r w (s_log s).
Definition with_event e s := mkSession (s_now s) (s_closed s) (s_cancelled s) (s_paused s) (s_msgCount s) (s_lastSent s) (s_lastActivity s) (s_lastTouch s) (s_timer s) (s_fired s) (s_writeMu s) (s_connOpen s) (s_main s) (s_reader s) (s_writer s) (e :: s_log s).

(** The peer's part in an operation, and the time between two readings of the
    clock inside one. *)
Inductive answer :=
  | ANone
  | AWrote (ok : bool)
  | ARead (r : option string)
  | AAttached (err : option string)
  | ADelay (d : Z).

Section Steps.
Context (cfg : LiveConfig).

(** The critical section of [sendMessageFrame]; the clock is read for
    [time.Since] and again for [lastSent]. *)
Definition admit_section (d : Z) (s : session) : verdict * session :=
  if s_closed s then (Stopped, s)
  else if (liveWSMaxMessages cfg <=? s_msgCount s)%Z then (Full, s)
  else
    let soon := match s_lastSent s with
                | None => false
                | Some t => (s_now s - t <? liveWSRateLimit cfg)%Z
                end in
    if soon then (TooSoon, s)
    else
      let s := with_now (s_now s + d) s in
      (LetThrough, with_event (LAdmit (s_now s))
         (with_lastSent (Some (s_now s)) (with_count (s_msgCount s + 1) s))).

Definition is_None {A} (o : option A) : bool := match o with None => true | Some _ => false end.

(** One operation of a goroutine; [None]: it cannot go on. *)
Definition exec (p : prog) (a : answer) (s : session) : option (prog * session) :=
  match p, a with
  | PLoadClosed k, ANone => Some (k (s_closed s), s)
  | PCasClosed k, ANone =>
      if s_closed s then Some (k false, s)
      else Some (k true, with_event LClosed (with_closed true s))
  | PCancel k, ANone => Some (k, with_cancelled true s)
  | PCtxDone k, ANone => Some (k (s_cancelled s), s)
  | PWrite f k, ANone =>
      if s_writeMu s then None else Some (PWriting f k, with_writeMu true s)
  | PWriting f k, AWrote ok =>
      if ok && negb (s_connOpen s) then None
      else Some (k ok, with_writeMu false (with_event (LWrote f ok) s))
  | PRead k, ARead r =>
      if negb (is_None r) && negb (s_connOpen s) then None else Some (k r, s)
  | PCloseConn k, ANone => Some (k, with_conn false s)
  | PNow k, ANone => Some (k (s_now s), s)
  | PStoreActivity now k, ANone => Some (k, with_activity now s)
  | PLoadActivity k, ANone => Some (k (s_lastActivity s), s)
  | PRestart k, ANone => Some (k, with_timer (Some (s_now s + liveWSIdleTimeout cfg)%Z) false s)
  | PReset k, ANone => Some (k, with_timer (Some (s_now s + liveWSIdleTimeout cfg)%Z) (s_fired s) s)
  | PStopTimer k, ANone => Some (k, with_timer None (s_fired s) s)
  | PLoadTouch k, ANone => Some (k (s_lastTouch s), s)
  | PCasTouch prev now k, ANone =>
      if (s_lastTouch s =? prev)%Z
      then Some (k true, with_event (LTouch now) (with_touch now s)) else Some (k false, s)
  | PTouch k, ANone => Some (k, s)
  | PAdmit k, ADelay d =>
      if (d <? 0)%Z then None
      else let '(v, s') := admit_section d s in Some (k v, s')
  | PZeroCount k, ANone => Some (k, with_event LClear (with_count 0 s))
  | PSetPaused b k, ANone => Some (k, with_paused b s)
  | PNewViewer k, ANone => Some (k, with_threads (s_main s) (s_reader s) (Some PDone) s)
  | PAttach k, AAttached err => Some (k err, s)
  | PStartReader k, ANone => Some (k, with_threads (s_main s) (Some PDone) (s_writer s) s)
  | PDetach k, ANone => Some (k, s)
  | _, _ => None
  end.

Inductive thread := Main | Reader | Writer.
#[export] Instance thread_eq_dec : EqDecision thread.
Proof. solve_decision. Defined.

Definition prog_of (th : thread) (s : session) : option prog :=
  match th with Main => Some (s_main s) | Reader => s_reader s | Writer => s_writer s end.
Definition set_prog (th : thread) (p : prog) (s : session) : session :=
  match th with
  | Main => with_threads p (s_reader s) (s_writer s) s
  | Reader => with_threads (s_main s) (Some p) (s_writer s) s
  | Writer => with_threads (s_main s) (s_reader s) (Some p) s
  end.

(** A step of the session.  [KMain...] are the branches of the select of the
    main loop, [KReader] the head of the reader's loop, [KDeliver] a frame taken
    from the viewer's queue; [KTick] and [KFire] are the clock and the timer. *)
Inductive label :=
  | KExec (th : thread) (a : answer)
  | KMainDone | KMainIdle | KMainReadDone | KMainPoll (connected : bool)
  | KReader
  | KDeliver (data : string)
  | KTick (d : Z)
  | KFire.

Definition at_head (p : prog) : bool := match p with PDone => true | _ => false end.
Definition exited (p : prog) : bool := match p with PExit => true | _ => false end.

Definition session_step (l : label) (s : session) : option session :=
  match l with
  | KExec th a =>
      match prog_of th s with
      | Some p => match exec p a s with Some (p', s') => Some (set_prog th p' s') | None => None end
      | None => None
      end
  | KMainDone =>
      if at_head (s_main s) && s_cancelled s
      then Some (set_prog Main (PDetach deferred) s) else None
  | KMainIdle =>
      if at_head (s_main s) && s_fired s
      then Some (set_prog Main (idle_turn cfg) (with_timer (s_timer s) false s)) else None
  | KMainReadDone =>
      if at_head (s_main s) && match s_reader s with Some p => exited p | None => false end
      then Some (set_prog Main (PDetach deferred) s) else None
  | KMainPoll connected =>
      if at_head (s_main s) then Some (set_prog Main (poll_turn cfg connected) s) else None
  | KReader =>
      match s_reader s with
      | Some PDone => Some (set_prog Reader (reader_turn cfg) s)
      | _ => None
      end
  | KDeliver data =>
      match s_writer s with
      | Some PDone => Some (set_prog Writer (writeLoop_turn cfg data) s)
      | _ => None
      end
  | KTick d => if (0 <=? d)%Z then Some (with_now (s_now s + d) s) else None
  | KFire =>
      match s_timer s with
      | Some t => if (t <=? s_now s)%Z then Some (with_timer None true s) else None
      | None => None
      end
  end.

(** [serveConn] begins: the idle timer is armed, nothing is closed. *)
Definition start (now : Z) (stream : string) : session :=
  mkSession now false false false 0 None now 0 (Some (now + liveWSIdleTimeout cfg)%Z) false
    false true (serveConn cfg stream) None None [].

Fixpoint session_run (ls : list label) (s : session) : option session :=
  match ls with
  | [] => Some s
  | l :: ls => match session_step l s with Some s => session_run ls s | None => None end
  end.

Definition session_reachable (s : session) : Prop :=
  ∃ now stream ls, session_run ls (start now stream) = Some s.
End Steps.

(** * What the log says *)

Fixpoint admits (l : list event) : nat :=
  match l with
  | [] => 0
  | LAdmit _ :: l => S (admits l)
  | _ :: l => admits l
  end.
(** Since the last [clear]. *)
Fixpoint admits_since (l : list event) : nat :=
  match l with
  | [] | LClear :: _ => 0
  | LAdmit _ :: l => S (admits_since l)
  | _ :: l => admits_since l
  end.
(** Message frames whose write was answered, and those that went out. *)
Fixpoint answered (l : list event) : nat :=
  match l with
  | [] => 0
  | LWrote (WData _) _ :: l => S (answered l)
  | _ :: l => answered l
  end.
Fixpoint sent (l : list event) : nat :=
  match l with
  | [] => 0
  | LWrote (WData _) true :: l => S (sent l)
  | _ :: l => sent l
  end.
Fixpoint last_admit (l : list event) : option Z :=
  match l with
  | [] => None
  | LAdmit t :: _ => Some t
  | _ :: l => last_admit l
  end.
Fixpoint last_touch (l : list event) : Z :=
  match l with
  | [] => 0
  | LTouch t :: _ => t
  | _ :: l => last_touch l
  end.

Section Facts.
Context (cfg : LiveConfig).

Definition event_ok (e : event) (l : list event) : Prop :=
  match e with
  | LAdmit t =>
      (Z.of_nat (admits_since l) < liveWSMaxMessages cfg)%Z ∧ admits l = answered l ∧
      ∀ t0, last_admit l = Some t0 → (t0 + liveWSRateLimit cfg ≤ t)%Z
  | LWrote (WData _) _ => answered l < admits l
  | LTouch t => (last_touch l + gatewayTouchInterval cfg ≤ t)%Z
  | _ => True
  end.
Fixpoint log_ok (l : list event) : Prop :=
  match l with [] => True | e :: l => event_ok e l ∧ log_ok l end.

(** [fits c n p]: [p] owes [n] writes of message frames it was let through for,
    writes no others, is let through only when [c], and claims a touch only
    when the interval is over. *)
Fixpoint fits (c : bool) (n : nat) (p : prog) : Prop :=
  match p with
  | PDone | PExit => n = 0
  | PWrite (WData _) k | PWriting (WData _) k => n = 1 ∧ ∀ b, fits c 0 (k b)
  | PWrite (WFrame _) k | PWriting (WFrame _) k => ∀ b, fits c n (k b)
  | PLoadClosed k | PCasClosed k | PCtxDone k => ∀ b, fits c n (k b)
  | PRead k => ∀ r, fits c n (k r)
  | PAttach k => ∀ r, fits c n (k r)
  | PNow k | PLoadActivity k | PLoadTouch k => ∀ t, fits c n (k t)
  | PCasTouch prev now k => (prev + gatewayTouchInterval cfg ≤ now)%Z ∧ ∀ b, fits c n (k b)
  | PAdmit k => c = true ∧ n = 0 ∧ fits c 1 (k LetThrough) ∧
      ∀ v, v ≠ LetThrough → fits c 0 (k v)
  | PCancel k | PCloseConn k | PStoreActivity _ k | PRestart k | PReset k | PStopTimer k
  | PTouch k | PZeroCount k | PSetPaused _ k | PNewViewer k | PStartReader k | PDetach k =>
      fits c n k
  end.

(** [spawns v r p]: [p] starts a writer at most once and only when [v], a reader
    at most once and only when [r]. *)
Fixpoint spawns (v r : bool) (p : prog) : Prop :=
  match p with
  | PDone | PExit => True
  | PWrite _ k | PWriting _ k | PLoadClosed k | PCasClosed k | PCtxDone k | PCasTouch _ _ k =>
      ∀ b, spawns v r (k b)
  | PRead k | PAttach k => ∀ a, spawns v r (k a)
  | PNow k | PLoadActivity k | PLoadTouch k => ∀ t, spawns v r (k t)
  | PAdmit k => ∀ a, spawns v r (k a)
  | PNewViewer k => v = true ∧ spawns false r k
  | PStartReader k => r = true ∧ spawns v false k
  | PCancel k | PCloseConn k | PStoreActivity _ k | PRestart k | PReset k | PStopTimer k
  | PTouch k | PZeroCount k | PSetPaused _ k | PDetach k => spawns v r k
  end.

Lemma fits_touchGateway c n k : fits c n k → fits c n (touchGateway cfg k).
Proof.
  intros Hk now prev. destruct (Z.ltb_spec (now - prev) (gatewayTouchInterval cfg)); [done|].
  split; [lia|]. intros b. by destruct b.
Qed.
Lemma fits_resetIdle c n k : fits c n k → fits c n (resetIdle k).
Proof. by intros Hk now. Qed.
Lemma fits_closeSession c n m k : fits c n k → fits c n (closeSession m k).
Proof. intros Hk []; cbn; [destruct (IsEmpty m)|]; cbn; auto. Qed.
Lemma fits_sent c n (ok : bool) (k : bool → prog) : (∀ b, fits c n (k b)) →
  fits c n (if ok then resetIdle (touchGateway cfg (k true)) else closeSession "" (k false)).
Proof.
  intros Hk. destruct ok; [apply fits_resetIdle, fits_touchGateway|apply fits_closeSession]; auto.
Qed.
Lemma fits_send c n f k : (∀ b, fits c n (k b)) → fits c n (send cfg f k).
Proof. intros Hk []; cbn; [auto|]. intros ok. by apply fits_sent. Qed.

Lemma spawns_touchGateway v r k : spawns v r k → spawns v r (touchGateway cfg k).
Proof. intros Hk now prev. go_if; [done|]. intros b. by destruct b. Qed.
Lemma spawns_resetIdle v r k : spawns v r k → spawns v r (resetIdle k).
Proof. by intros Hk now. Qed.
Lemma spawns_closeSession v r m k : spawns v r k → spawns v r (closeSession m k).
Proof. intros Hk []; cbn; [destruct (IsEmpty m)|]; cbn; auto. Qed.
Lemma spawns_sent v r (ok : bool) (k : bool → prog) : (∀ b, spawns v r (k b)) →
  spawns v r (if ok then resetIdle (touchGateway cfg (k true)) else closeSession "" (k false)).
Proof.
  intros Hk. destruct ok; [apply spawns_resetIdle, spawns_touchGateway|apply spawns_closeSession]; auto.
Qed.
Lemma spawns_send v r f k : (∀ b, spawns v r (k b)) → spawns v r (send cfg f k).
Proof. intros Hk []; cbn; [auto|]. intros ok. by apply spawns_sent. Qed.

Lemma fits_writeLoop_turn data : fits true 0 (writeLoop_turn cfg data).
Proof.
  intros []; cbn; [done|]. split; [done|]. split; [done|]. split.
  - split; [done|]. intros b. by apply (fits_sent _ _ _ (λ _, PDone)).
  - intros [] Hv; try done. apply fits_send. intros _. by apply fits_closeSession.
Qed.
Lemma spawns_writeLoop_turn v r data : spawns v r (writeLoop_turn cfg data).
Proof.
  intros []; cbn; [done|]. intros []; try done.
  - apply spawns_send. intros _. by apply spawns_closeSession.
  - intros b. by apply (spawns_sent _ _ _ (λ _, PDone)).
Qed.
Lemma fits_deferred : fits false 0 deferred.
Proof. done. Qed.
Lemma fits_reader_turn : fits false 0 (reader_turn cfg).
Proof.
  intros []; cbn; [done|]. intros [data|]; [|by apply fits_closeSession].
  apply fits_resetIdle, fits_touchGateway. destruct (parseControlAction data) as [[]|]; cbn; auto;
    intros []; cbn; auto; intros ok; by apply (fits_sent _ _ _ (λ _, PDone)).
Qed.
Lemma spawns_reader_turn v r : spawns v r (reader_turn cfg).
Proof.
  intros []; cbn; [done|]. intros [data|]; [|by apply spawns_closeSession].
  apply spawns_resetIdle, spawns_touchGateway. destruct (parseControlAction data) as [[]|]; cbn; auto;
    intros []; cbn; auto; intros ok; by apply (spawns_sent _ _ _ (λ _, PDone)).
Qed.
Lemma fits_idle_turn : fits false 0 (idle_turn cfg).
Proof. intros last now. go_if; [done|]. by apply fits_closeSession. Qed.
Lemma spawns_idle_turn v r : spawns v r (idle_turn cfg).
Proof. intros last now. go_if; [done|]. by apply spawns_closeSession. Qed.
Lemma fits_poll_turn b : fits false 0 (poll_turn cfg b).
Proof. apply fits_touchGateway. destruct b; [done|]. by apply fits_closeSession. Qed.
Lemma spawns_poll_turn v r b : spawns v r (poll_turn cfg b).
Proof. apply spawns_touchGateway. destruct b; [done|]. by apply spawns_closeSession. Qed.
Lemma fits_serveConn stream : fits false 0 (serveConn cfg stream).
Proof.
  apply fits_send. intros []; cbn; [|done]. intros [e|]; [by apply fits_closeSession|done].
Qed.
Lemma spawns_serveConn stream : spawns true true (serveConn cfg stream).
Proof.
  apply spawns_send. intros []; cbn; [|done]. split; [done|].
  intros [e|]; [by apply spawns_closeSession|done].
Qed.
End Facts.

(** * The invariant *)

Section Invariant.
Context (cfg : LiveConfig).

Definition fits_opt (c : bool) (n : nat) (p : option prog) : Prop :=
  match p with Some p => fits cfg c n p | None => n = 0 end.

Record live_ok (s : session) : Prop := {
  lo_log : log_ok cfg (s_log s);
  lo_count : s_msgCount s = Z.of_nat (admits_since (s_log s));
  lo_last : s_lastSent s = last_admit (s_log s);
  lo_touch : s_lastTouch s = last_touch (s_log s);
  lo_main : fits cfg false 0 (s_main s);
  lo_reader : fits_opt false 0 (s_reader s);
  lo_writer : fits_opt true (admits (s_log s) - answered (s_log s)) (s_writer s);
  lo_answered : answered (s_log s) ≤ admits (s_log s);
  lo_spawns : spawns (is_None (s_writer s)) (is_None (s_reader s)) (s_main s);
  lo_spawns_r : ∀ p, s_reader s = Some p → spawns false false p;
  lo_spawns_w : ∀ p, s_writer s = Some p → spawns false false p;
}.

(** The part of it an operation of a goroutine works on. *)
Record shared_ok (s : session) : Prop := {
  so_log : log_ok cfg (s_log s);
  so_count : s_msgCount s = Z.of_nat (admits_since (s_log s));
  so_last : s_lastSent s = last_admit (s_log s);
  so_touch : s_lastTouch s = last_touch (s_log s);
  so_answered : answered (s_log s) ≤ admits (s_log s);
}.
Definition owed (s : session) : nat := admits (s_log s) - answered (s_log s).

Lemma admit_section_ok d s v s' : shared_ok s → owed s = 0 → (0 ≤ d)%Z →
  admit_section cfg d s = (v, s') →
  shared_ok s' ∧ owed s' = (if v is LetThrough then 1 else 0).
Proof.
  intros [Hlog Hc Hl Ht Ha] Hw Hd. unfold admit_section, owed in *. intros E.
  destruct (s_closed s); [simplify_eq; by split; [split|]|].
  destruct (Z.leb_spec (liveWSMaxMessages cfg) (s_msgCount s)); [simplify_eq; by split; [split|]|].
  destruct (match s_lastSent s with Some _ => _ | None => _ end) eqn:Hsoon;
    [simplify_eq; by split; [split|]|].
  assert (∀ t0, last_admit (s_log s) = Some t0 → (t0 + liveWSRateLimit cfg ≤ s_now s + d)%Z).
  { intros t0 E'. rewrite Hl, E' in Hsoon. lia. }
  simplify_eq. split; [split|]; cbn in *; try done; try lia.
  split; [|done]. split_and!; [lia|lia|done].
Qed.

(** The writer may be let through; the others owe nothing before and after. *)
Lemma exec_ok c n p a s p' s' : shared_ok s → fits cfg c n p → n = (if c then owed s else 0) →
  exec cfg p a s = Some (p', s') →
  shared_ok s' ∧ owed s' = (if c then owed s' else owed s) ∧
  fits cfg c (if c then owed s' else 0) p'.
Proof.
  intros Hs Hp Hn He. assert (Hs' := Hs). destruct Hs' as [Hlog Hc Hl Ht Ha].
  destruct p; destruct a; cbn in He; try discriminate He;
    try (injection He as <- <-; cbn in Hp |- *; subst n; split_and!;
         [by split|by destruct c|by destruct c]).
  - destruct (s_closed s); simplify_eq; cbn in Hp; split_and!; try (by split); by destruct c.
  - destruct (s_writeMu s); simplify_eq. split_and!; [by split|by destruct c|].
    destruct f; cbn in Hp |- *; by destruct c.
  - destruct (ok && negb (s_connOpen s)); simplify_eq. destruct f as [f|data]; cbn in Hp |- *.
    + split_and!; [by split|by destruct c|]. by destruct c.
    + destruct Hp as [Hn Hp]. destruct c; [|done]. unfold owed in *. cbn.
      split_and!; [split; cbn; try done; try lia|done|].
      * split; [lia|done].
      * replace (admits (s_log s) - S (answered (s_log s))) with 0 by lia. apply Hp.
  - destruct (negb (is_None r) && negb (s_connOpen s)); simplify_eq; cbn in Hp.
    split_and!; [by split|by destruct c|by destruct c].
  - destruct Hp as [Hle Hp]. destruct (Z.eqb_spec (s_lastTouch s) prev); simplify_eq.
    + split_and!; [split; cbn; try done|by destruct c|by destruct c].
      split; [|done]. cbn. lia.
    + split_and!; [by split|by destruct c|by destruct c].
  - destruct Hp as (-> & -> & Hadm & Hno). destruct (Z.ltb_spec d 0); [done|].
    destruct (admit_section cfg d s) as [v s1] eqn:E. simplify_eq.
    apply admit_section_ok in E as [? Ho]; [|done..]. rewrite Ho.
    split_and!; [done|done|]. destruct v; auto.
Qed.

(** What an operation does to the three goroutines. *)
Lemma exec_threads p a s p' s' v r : exec cfg p a s = Some (p', s') → spawns v r p →
  s_main s' = s_main s ∧
  ((s_reader s' = s_reader s ∧ s_writer s' = s_writer s ∧ spawns v r p') ∨
   (v = true ∧ s_reader s' = s_reader s ∧ s_writer s' = Some PDone ∧ spawns false r p') ∨
   (r = true ∧ s_reader s' = Some PDone ∧ s_writer s' = s_writer s ∧ spawns v false p')).
Proof.
  intros He Hp.
  destruct p; destruct a; cbn in He; try discriminate He; unfold admit_section in He;
    repeat match type of He with
    | context [if ?b then _ else _] => destruct b
    | (let '_ := ?x in _) = _ => destruct x eqn:?
    end; simplify_eq; cbn in Hp |- *; try (split; [done|left]; by eauto);
    try (destruct Hp as [-> ?]; naive_solver).
  all: split; [done|left; destruct Hp; auto].
Qed.

Lemma live_shared s : live_ok s → shared_ok s.
Proof. intros []. by split. Qed.

Lemma exec_live th p a s p' s' : live_ok s → prog_of th s = Some p →
  exec cfg p a s = Some (p', s') → live_ok (set_prog th p' s').
Proof.
  intros H Hp He. assert (Hs := live_shared _ H). destruct H.
  assert (exec_shape : ∃ c n v r, fits cfg c n p ∧ n = (if c then owed s else 0) ∧ spawns v r p ∧
    match th with
    | Main => c = false ∧ v = is_None (s_writer s) ∧ r = is_None (s_reader s)
    | Reader => c = false ∧ v = false ∧ r = false
    | Writer => c = true ∧ v = false ∧ r = false
    end).
  { destruct th; cbn in Hp.
    - injection Hp as <-. exists false, 0. eauto 10.
    - rewrite Hp in lo_reader0. exists false, 0, false, false. eauto 10.
    - rewrite Hp in lo_writer0. exists true, (owed s), false, false. eauto 10. }
  destruct exec_shape as (c & n & v & r & Hfit & Hn & Hspawn & Hth).
  destruct (exec_ok c n p a s p' s' Hs Hfit Hn He) as ([] & Ho & Hfit').
  destruct (exec_threads p a s p' s' v r He Hspawn) as [Em Et].
  unfold owed in *. destruct th; destruct Hth as (-> & -> & ->); cbn in Hp.
  - destruct Et as [(Er & Ew & Hsp)|[(Hv & Er & Ew & Hsp)|(Hr & Er & Ew & Hsp)]];
      split; cbn; try done; rewrite ?Er, ?Ew; try done.
    + by rewrite Ho.
    + rewrite Ho. cbn. destruct (s_writer s); [done|]. done.
    + by intros q [= <-].
    + by rewrite Ho.
    + by intros q [= <-].
  - destruct Et as [(Er & Ew & Hsp)|[(Hv & _)|(Hr & _)]]; [|done..].
    rewrite Hp in lo_spawns0.
    split; cbn; try done; rewrite ?Em, ?Ew; try done; [by rewrite Ho|by intros q [= <-]].
  - destruct Et as [(Er & Ew & Hsp)|[(Hv & _)|(Hr & _)]]; [|done..].
    rewrite Hp in lo_spawns0.
    split; cbn; try done; rewrite ?Em, ?Er; try done. by intros q [= <-].
Qed.

Lemma step_live l s s' : live_ok s → session_step cfg l s = Some s' → live_ok s'.
Proof.
  intros H. destruct l; cbn.
  - destruct (prog_of th s) as [p|] eqn:Hp; [|done].
    destruct (exec cfg p a s) as [[p' s1]|] eqn:He; [|done]. intros [= <-]. eauto using exec_live.
  - destruct (_ && _); [|done]. intros [= <-]. destruct H. by split.
  - destruct (_ && _); [|done]. intros [= <-].
    destruct H. split; try done; [apply fits_idle_turn|apply spawns_idle_turn].
  - destruct (_ && _); [|done]. intros [= <-]. destruct H. by split.
  - destruct (at_head _); [|done]. intros [= <-].
    destruct H. split; try done; [apply fits_poll_turn|apply spawns_poll_turn].
  - destruct (s_reader s) as [[]|] eqn:Hr; try done. intros [= <-].
    destruct H. rewrite Hr in *. split; cbn; try done; [apply fits_reader_turn|].
    intros p [= <-]. apply spawns_reader_turn.
  - destruct (s_writer s) as [[]|] eqn:Hw; try done. intros [= <-].
    destruct H. rewrite Hw in *. cbn in lo_writer0. split; cbn; try done.
    + rewrite lo_writer0. apply fits_writeLoop_turn.
    + intros p [= <-]. apply spawns_writeLoop_turn.
  - destruct (0 <=? d)%Z; [|done]. intros [= <-]. destruct H. by split.
  - destruct (s_timer s) as [t|]; [|done]. destruct (t <=? s_now s)%Z; [|done].
    intros [= <-]. destruct H. by split.
Qed.

Lemma start_live now stream : live_ok (start cfg now stream).
Proof. split; try done; [apply fits_serveConn|apply spawns_serveConn]. Qed.

Lemma run_live ls s s' : live_ok s → session_run cfg ls s = Some s' → live_ok s'.
Proof.
  revert s. induction ls as [|l ls IH]; cbn; intros s H E; [by injection E as <-|].
  destruct (session_step cfg l s) as [s1|] eqn:Es; [|done]. eauto using step_live.
Qed.

Lemma reachable_live s : session_reachable cfg s → live_ok s.
Proof. intros (now & stream & ls & E). eauto using run_live, start_live. Qed.
End Invariant.

(** * What a viewer gets *)

Lemma sent_answered l : sent l ≤ answered l.
Proof. induction l as [|[| |[]  []| |] l IH]; cbn; lia. Qed.
Lemma admits_app l k : admits (l ++ k) = admits l + admits k.
Proof. induction l as [|[] l IH]; cbn; lia. Qed.
Lemma answered_app l k : answered (l ++ k) = answered l + answered k.
Proof. induction l as [|[| |[]| |] l IH]; cbn; lia. Qed.
Lemma admits_since_stretch l k : LClear ∉ l → admits l ≤ admits_since (l ++ k).
Proof.
  induction l as [|[] l IH]; cbn; [lia| | | | |]; intros Hn; apply not_elem_of_cons in Hn as [Hn Hl];
    try (by destruct Hn); specialize (IH Hl); lia.
Qed.

Section Bounds.
Context (cfg : LiveConfig).

Lemma log_ok_app l k : log_ok cfg (l ++ k) → log_ok cfg k.
Proof. induction l as [|e l IH]; cbn; [done|]. intros [_ H]. auto. Qed.

Lemma log_ok_pending l : log_ok cfg l → answered l ≤ admits l ≤ S (answered l).
Proof.
  induction l as [|[t| |[f|d] ok|t|] l IH]; cbn; [lia| | | | | |]; intros [He Hl]; specialize (IH Hl);
    lia.
Qed.

Lemma rate_pos : (0 < liveWSRateLimit cfg)%Z.
Proof. unfold liveWSRateLimit. go_if; [lia|done]. Qed.
Lemma max_pos : (0 < liveWSMaxMessages cfg)%Z.
Proof. unfold liveWSMaxMessages. go_if; [lia|done]. Qed.

Lemma last_admit_latest l t' : log_ok cfg l → LAdmit t' ∈ l →
  ∃ t0, last_admit l = Some t0 ∧ (t' ≤ t0)%Z.
Proof.
  induction l as [|e l IH]; intros Hok Hin; [by apply elem_of_nil in Hin|].
  destruct Hok as [He Hl]. apply elem_of_cons in Hin as [<-|Hin]; [cbn; eauto with lia|].
  destruct (IH Hl Hin) as (t0 & E0 & Hle). destruct e; cbn; eauto.
  destruct He as (_ & _ & Hr). specialize (Hr _ E0). pose proof rate_pos.
  eexists. split; [done|lia].
Qed.

Lemma admits_stretch_bound l k : log_ok cfg (l ++ k) → LClear ∉ l →
  (Z.of_nat (admits l) ≤ liveWSMaxMessages cfg)%Z.
Proof.
  pose proof max_pos. induction l as [|e l IH]; cbn; [lia|]. intros [He Hl] [Hne Hn]%not_elem_of_cons.
  specialize (IH Hl Hn). destruct e; try done.
  destruct He as (Hlt & _). pose proof (admits_since_stretch l k Hn). lia.
Qed.

(** C16. What one live viewer can be sent, under every interleaving of the reader,
    the writer, the idle timer and the poll, with any delays and failures: in any
    stretch of the session without a clear at most [liveWSMaxMessages] message
    frames are let through, and at most one more goes out (the frame let through
    just before the clear); two frames let through are [liveWSRateLimit] apart;
    no frame goes out that was not let through; and the gateway is touched at
    most once per [gatewayTouchInterval]. *)
Theorem live_session_bounds (s : session) (l1 l2 l3 : list event) :
  session_reachable cfg s → s_log s = l1 ++ l2 ++ l3 →
  (LClear ∉ l2 → (Z.of_nat (admits l2) ≤ liveWSMaxMessages cfg)%Z ∧
                 (Z.of_nat (sent l2) ≤ liveWSMaxMessages cfg + 1)%Z) ∧
  (∀ t l t' l', l2 = LAdmit t :: l ++ LAdmit t' :: l' → (t' + liveWSRateLimit cfg ≤ t)%Z) ∧
  sent (l2 ++ l3) ≤ admits (l2 ++ l3) ∧
  (∀ t l, l2 = LTouch t :: l → (last_touch (l ++ l3) + gatewayTouchInterval cfg ≤ t)%Z).
Proof.
  intros Hs%reachable_live E. destruct Hs. rewrite E in lo_log0. apply log_ok_app in lo_log0.
  pose proof (log_ok_pending _ lo_log0) as Hp. split_and!.
  - intros Hn. pose proof (admits_stretch_bound _ _ lo_log0 Hn). split; [done|].
    pose proof (log_ok_pending _ (log_ok_app _ _ lo_log0)).
    rewrite admits_app, answered_app in Hp. pose proof (sent_answered l2). lia.
  - intros t l t' l' ->. destruct lo_log0 as [(_ & _ & Hr) Hl].
    destruct (last_admit_latest _ t' Hl) as (t0 & E0 & Hle);
      [rewrite !elem_of_app, elem_of_cons; auto|].
    specialize (Hr _ E0). lia.
  - pose proof (sent_answered (l2 ++ l3)). lia.
  - intros t l ->. apply lo_log0.
Qed.

End Bounds.

(** A session of one message per clear: the frame let through before the clear
    goes out after it, and so does the next one. *)
Definition one_message : LiveConfig := {|
  cfg_MaxMessages := 1; cfg_IdleTimeout := 0; cfg_RateLimit := second;
  cfg_ClientCacheTTL := 0; cfg_origins := [] |}.
Definition steps (th : thread) (n : nat) : list label := replicate n (KExec th ANone).
Definition began : list label :=
  steps Main 2 ++ [KExec Main (AWrote true)] ++ steps Main 8 ++ [KExec Main (AAttached None)] ++
  steps Main 1.
Definition clear_race : list label :=
  began ++ [KDeliver "a"] ++ steps Writer 1 ++ [KExec Writer (ADelay 5)] ++
  [KReader] ++ steps Reader 1 ++ [KExec Reader (ARead (Some (action_literal "" "clear")))] ++
  steps Reader 6 ++ steps Writer 1 ++ [KExec Writer (AWrote true)] ++ steps Writer 5 ++
  [KTick second; KDeliver "b"] ++ steps Writer 1 ++ [KExec Writer (ADelay 0)] ++ steps Writer 1 ++
  [KExec Writer (AWrote true)].

Lemma no_clear l :
  forallb (λ e, match e with LClear => false | _ => true end) l = true → LClear ∉ l.
Proof. rewrite forallb_true_iff. intros H Hin. by specialize (H _ Hin). Qed.

Example live_session_bounds_witness :
  let s := default (start one_message 0 "") (session_run one_message clear_race
             (start one_message 1000000000000 "S")) in
  let l2 := take 3 (s_log s) in
  s_log s = [] ++ l2 ++ drop 3 (s_log s) ∧ LClear ∉ l2 ∧ sent l2 = 2 ∧
  liveWSMaxMessages one_message = 1%Z ∧ (Z.of_nat (sent l2) ≤ liveWSMaxMessages one_message + 1)%Z.
Proof.
  intros s l2. split; [vm_compute; reflexivity|].
  assert (LClear ∉ l2) as Hn by (apply no_clear; vm_compute; reflexivity).
  split; [exact Hn|]. split; [vm_compute; reflexivity|]. split; [reflexivity|].
  refine (proj2 (proj1 (live_session_bounds one_message s [] l2 (drop 3 (s_log s)) _ _) Hn)).
  - exists 1000000000000%Z, "S", clear_race.
    assert (is_None (session_run one_message clear_race (start one_message 1000000000000 "S"))
            = false) as Hrun by (vm_compute; reflexivity).
    subst s. by destruct (session_run _ _ _).
  - vm_compute. reflexivity.
Defined.
