(* ===== verification/LiveEnding.v ===== *)
(** How a live session ends: once closed, its goroutines have a bounded number
    of operations left, and the only thing that can hold them is a write the
    peer does not take. *)

From S2P Require Export LiveSession.

(** * The end of a session *)

Section Ending.
Context (cfg : LiveConfig).

(** [within c h n p]: at most [n] operations remain on every path of [p] (on
    those possible after [cancel], when [c]), a return to the head of the loop
    counting for [h]. *)
Fixpoint within (c : bool) (h n : nat) (p : prog) : Prop :=
  match p with
  | PExit => True
  | PDone => h ≤ n
  | PWrite _ k => ∃ m, n = S (S m) ∧ ∀ b, within c h m (k b)
  | PWriting _ k | PLoadClosed k | PCasClosed k | PCasTouch _ _ k =>
      ∃ m, n = S m ∧ ∀ b, within c h m (k b)
  | PCtxDone k => ∃ m, n = S m ∧ ∀ b, (c = true → b = true) → within c h m (k b)
  | PRead k | PAttach k => ∃ m, n = S m ∧ ∀ a, within c h m (k a)
  | PNow k | PLoadActivity k | PLoadTouch k => ∃ m, n = S m ∧ ∀ t, within c h m (k t)
  | PAdmit k => ∃ m, n = S m ∧ ∀ v, within c h m (k v)
  | PStartReader k => ∃ m, n = 3 + m ∧ within c h m k
  | PCancel k | PCloseConn k | PStoreActivity _ k | PRestart k | PReset k | PStopTimer k
  | PTouch k | PZeroCount k | PSetPaused _ k | PNewViewer k | PDetach k =>
      ∃ m, n = S m ∧ within c h m k
  end.

Lemma within_mono c h p : ∀ n n', n ≤ n' → within c h n p → within c h n' p.
Proof.
  induction p; cbn; intros n n' Hn H0; try done; try lia;
    destruct H0 as (m & -> & Hk);
    first [ exists (n' - 2); split; [lia|]; intros; eapply H; [|by eauto]; lia
          | exists (n' - 1); split; [lia|]; intros; eapply H; [|by eauto]; lia
          | exists (n' - 1); split; [lia|]; eapply IHp; [|by eauto]; lia
          | exists (n' - 3); split; [lia|]; eapply IHp; [|by eauto]; lia ].
Qed.

Lemma within_after c h p : ∀ n, within false h n p → within c h n p.
Proof.
  induction p; cbn; intros n Hn; try done; destruct Hn as (m & -> & Hk); eauto 6.
  exists m. split; [done|]. intros b _. apply H, Hk. done.
Qed.

Ltac within_op := hnf; match goal with |- ∃ m, _ = _ ∧ _ => eexists; split; [reflexivity|]; intros end.

Lemma within_touchGateway c h n k : within c h n k → within c h (4 + n) (touchGateway cfg k).
Proof.
  intros Hk. do 2 within_op. go_if; [by eapply within_mono; [|done]; lia|].
  within_op. destruct b; [by within_op|]. by eapply within_mono; [|done]; lia.
Qed.
Lemma within_resetIdle c h n k : within c h n k → within c h (3 + n) (resetIdle k).
Proof. intros Hk. by do 3 within_op. Qed.
Lemma within_closeSession c h n m k : within c h n k → within c h (5 + n) (closeSession m k).
Proof.
  intros Hk. within_op. destruct b; [|by eapply within_mono; [|done]; lia]. within_op.
  destruct (IsEmpty m); [within_op; by eapply within_mono; [|done]; lia|]. by do 2 within_op.
Qed.
Lemma within_sent c h n (ok : bool) (k : bool → prog) : (∀ b, within c h n (k b)) → within c h (7 + n)
  (if ok then resetIdle (touchGateway cfg (k true)) else closeSession "" (k false)).
Proof.
  intros Hk. destruct ok; [by apply (within_resetIdle _ _ (4 + n)), within_touchGateway|].
  eapply within_mono; [|by apply within_closeSession]. lia.
Qed.
Lemma within_send c h n f k : (∀ b, within c h n (k b)) → within c h (10 + n) (send cfg f k).
Proof.
  intros Hk. within_op. destruct b; [by eapply within_mono; [|done]; lia|].
  within_op. by apply within_sent.
Qed.

Lemma within_writeLoop_turn c data : within c 0 20 (writeLoop_turn cfg data).
Proof.
  within_op. destruct b; [cbn; lia|]. within_op. destruct v; [cbn; lia| |cbn; lia|].
  - apply (within_mono _ _ _ (10 + 5)); [lia|]. apply within_send. intros _.
    apply (within_closeSession _ _ 0). cbn. lia.
  - apply (within_mono _ _ _ (2 + 7)); [lia|]. within_op.
    apply (within_sent _ _ 0 _ (λ _, PDone)). intros _. cbn. lia.
Qed.
Lemma within_reader_turn c : within c 2 24 (reader_turn cfg).
Proof.
  within_op. destruct b; [done|]. within_op. destruct a as [data|].
  - apply (within_mono _ _ _ (3 + (4 + 13))); [lia|].
    apply within_resetIdle, within_touchGateway.
    destruct (parseControlAction data) as [[]|]; [| | |cbn; lia];
      within_op; apply (within_send _ _ 2); intros _; cbn; lia.
  - apply (within_mono _ _ _ (5 + 0)); [lia|]. by apply within_closeSession.
Qed.
Lemma within_reader_last : within true 2 1 (reader_turn cfg).
Proof. within_op. by rewrite H. Qed.
Lemma within_deferred c h n : within c h (3 + n) deferred.
Proof. by do 3 within_op. Qed.
Lemma within_leave c h n : within c h (4 + n) (PDetach deferred).
Proof. within_op. apply within_deferred. Qed.
Lemma within_idle_turn c : within c 5 11 (idle_turn cfg).
Proof.
  do 2 within_op. go_if; [within_op; cbn; lia|].
  by apply (within_closeSession _ _ 4), (within_leave _ _ 0).
Qed.
Lemma within_poll_turn c b : within c 5 13 (poll_turn cfg b).
Proof.
  apply (within_touchGateway _ _ 9). destruct b; [cbn; lia|].
  by apply (within_closeSession _ _ 4), (within_leave _ _ 0).
Qed.
Lemma within_serveConn c stream : within c 5 20 (serveConn cfg stream).
Proof.
  apply (within_send _ _ 10). intros []; [|apply (within_deferred _ _ 7)].
  within_op. within_op. destruct a as [e|].
  - by apply (within_closeSession _ _ 3), (within_deferred _ _ 0).
  - exists 5. split; [lia|]. cbn. lia.
Qed.

Lemma exec_within c h n p a s p' s' : within c h n p → exec cfg p a s = Some (p', s') →
  (c = true → s_cancelled s = true) →
  s_main s' = s_main s ∧ (s_cancelled s = true → s_cancelled s' = true) ∧
  (s_writer s' = s_writer s ∨ s_writer s' = Some PDone) ∧
  ∃ m, within c h m p' ∧
    ((n = S m ∧ s_reader s' = s_reader s) ∨ (n = 3 + m ∧ s_reader s' = Some PDone)).
Proof.
  intros Hw He Hc.
  destruct p; destruct a; cbn in He; try discriminate He; unfold admit_section in He;
    destruct Hw as (m & -> & Hk);
    repeat match type of He with
    | context [if ?b then _ else _] => destruct b
    | (let '_ := ?x in _) = _ => destruct x eqn:?
    end; simplify_eq; cbn; split_and!; eauto 6.
  exists (S m). split; [exists m; eauto|auto].
Qed.

(** What the three goroutines may still do. *)
Definition pots (c : bool) (m r w : nat) (s : session) : Prop :=
  within c 5 m (s_main s) ∧ (∀ p, s_reader s = Some p → within c 2 r p) ∧
  (∀ p, s_writer s = Some p → within c 0 w p).

(** Steps of the goroutines, and the events that give the loops a new turn. *)
Definition own (l : label) : bool :=
  match l with KExec _ _ | KMainDone | KMainReadDone | KReader => true | _ => false end.
Definition turn (l : label) : bool :=
  match l with KMainIdle | KMainPoll _ | KDeliver _ => true | _ => false end.
Definition count (f : label → bool) (ls : list label) : nat := length (List.filter f ls).

Lemma pots_reader c m r w s : pots c m r w s → s_reader s = Some PDone → 2 ≤ r.
Proof. intros (_ & Hr & _) E. apply (Hr _ E). Qed.
Lemma pots_main c m r w s : pots c m r w s → at_head (s_main s) = true → 5 ≤ m.
Proof. intros (Hm & _) E. by destruct (s_main s). Qed.

Lemma exec_pots c m r w th p a s p' s' : pots c m r w s → (c = true → s_cancelled s = true) →
  prog_of th s = Some p → exec cfg p a s = Some (p', s') →
  (s_cancelled s = true → s_cancelled s' = true) ∧
  ∃ m' r' w', pots c m' r' w' (set_prog th p' s') ∧ S (m' + r' + w') ≤ m + r + w ∧
    m' ≤ m ∧ r' ≤ Nat.max r 2 ∧ w' ≤ w.
Proof.
  intros (Hm & Hr & Hw) Hc Hp He.
  assert (within_done : ∀ n, within c 0 n PDone) by (intros n; cbn; lia).
  assert (reader_done : ∀ q, Some PDone = Some q → within c 2 2 q) by (intros q [= <-]; cbn; lia).
  destruct th; cbn in Hp.
  - injection Hp as <-. destruct (exec_within _ _ _ _ _ _ _ _ Hm He Hc) as (Em & Hcc & Ew & n & Hn & E).
    split; [done|].
    destruct E as [[-> Er]|[-> Er]]; [exists n, r, w|exists n, 2, w]; (split; [|split; lia]);
      (split; [done|]; cbn; rewrite Er; split; [by eauto|]; destruct Ew as [->| ->]; [by eauto|by intros q [= <-]]).
  - destruct (exec_within _ _ _ _ _ _ _ _ (Hr _ Hp) He Hc) as (Em & Hcc & Ew & n & Hn & E).
    split; [done|]. exists m, n, w. split; [|destruct E as [[-> _]|[-> _]]; split; lia].
    split; [by rewrite <- Em in Hm|]. cbn. split; [by intros q [= <-]|].
    destruct Ew as [->| ->]; [by eauto|by intros q [= <-]].
  - destruct (exec_within _ _ _ _ _ _ _ _ (Hw _ Hp) He Hc) as (Em & Hcc & Ew & n & Hn & E).
    split; [done|].
    destruct E as [[-> Er]|[-> Er]]; [exists m, r, n|exists m, 2, n]; (split; [|split; lia]);
      (split; [by rewrite <- Em in Hm|]; cbn; rewrite Er; split; [by eauto|by intros q [= <-]]).
Qed.

Lemma step_pots m r w l s s' : pots true m r w s → s_cancelled s = true →
  session_step cfg l s = Some s' →
  s_cancelled s' = true ∧ ∃ m' r' w', pots true m' r' w' s' ∧
    m' + r' + w' + (if own l then 1 else 0) ≤ m + r + w + (if turn l then 20 else 0).
Proof.
  intros Hp Hc Hs. assert (Hp' := Hp). destruct Hp' as (Hm & Hr & Hw). destruct l; cbn in Hs |- *.
  - destruct (prog_of th s) as [p|] eqn:Ep; [|done].
    destruct (exec cfg p a s) as [[p' s1]|] eqn:He; [|done]. injection Hs as <-.
    destruct (exec_pots _ _ _ _ _ _ _ _ _ _ Hp (λ _, Hc) Ep He) as (Hc' & m' & r' & w' & Hp' & Hle & _).
    split; [destruct th; auto|]. exists m', r', w'. split; [done|lia].
  - destruct (at_head (s_main s) && s_cancelled s) eqn:E; [|done]. injection Hs as <-. go_bool.
    pose proof (pots_main _ _ _ _ _ Hp ltac:(done)). split; [done|]. exists 4, r, w.
    split; [|lia]. split; [apply (within_leave _ _ 0)|done].
  - destruct (at_head (s_main s) && s_fired s) eqn:E; [|done]. injection Hs as <-.
    split; [done|]. exists 11, r, w. split; [|lia]. split; [apply within_idle_turn|done].
  - destruct (at_head (s_main s) && _) eqn:E; [|done]. injection Hs as <-. go_bool.
    pose proof (pots_main _ _ _ _ _ Hp ltac:(done)). split; [done|]. exists 4, r, w.
    split; [|lia]. split; [apply (within_leave _ _ 0)|done].
  - destruct (at_head (s_main s)) eqn:E; [|done]. injection Hs as <-.
    split; [done|]. exists 13, r, w. split; [|lia]. split; [apply within_poll_turn|done].
  - destruct (s_reader s) as [[]|] eqn:E; try done. injection Hs as <-.
    pose proof (pots_reader _ _ _ _ _ Hp E). split; [done|]. exists m, 1, w. split; [|lia].
    split; [done|]. split; [|done]. intros q [= <-]. apply within_reader_last.
  - destruct (s_writer s) as [[]|] eqn:E; try done. injection Hs as <-.
    split; [done|]. exists m, r, 20. split; [|lia]. split; [done|]. split; [done|].
    intros q [= <-]. apply within_writeLoop_turn.
  - destruct (0 <=? d)%Z; [|done]. injection Hs as <-. split; [done|]. exists m, r, w. split; [done|lia].
  - destruct (s_timer s) as [t|]; [|done]. destruct (t <=? s_now s)%Z; [|done]. injection Hs as <-.
    split; [done|]. exists m, r, w. split; [done|lia].
Qed.

Lemma run_pots ls : ∀ m r w s s', pots true m r w s → s_cancelled s = true →
  session_run cfg ls s = Some s' → count own ls ≤ m + r + w + 20 * count turn ls.
Proof.
  induction ls as [|l ls IH]; intros m r w s s' Hp Hc Hrun; cbn in Hrun; [cbn; lia|].
  destruct (session_step cfg l s) as [s1|] eqn:Es; [|done].
  destruct (step_pots _ _ _ _ _ _ Hp Hc Es) as (Hc1 & m' & r' & w' & Hp1 & Hle).
  specialize (IH _ _ _ _ _ Hp1 Hc1 Hrun). unfold count in *. cbn.
  destruct (own l), (turn l); cbn; lia.
Qed.

(** [tidy b p]: [p] closes the connection before it exits and does not read,
    unless [b], and who closes the session first cancels it. *)
Fixpoint tidy (b : bool) (p : prog) : Prop :=
  match p with
  | PDone => True
  | PExit => b = true
  | PCloseConn k => tidy true k
  | PCasClosed k => (∃ q, k true = PCancel q) ∧ ∀ w, tidy b (k w)
  | PWrite _ k | PWriting _ k | PLoadClosed k | PCtxDone k | PCasTouch _ _ k => ∀ w, tidy b (k w)
  | PRead k => b = true ∧ ∀ a, tidy b (k a)
  | PAttach k => ∀ a, tidy b (k a)
  | PNow k | PLoadActivity k | PLoadTouch k => ∀ t, tidy b (k t)
  | PAdmit k => ∀ v, tidy b (k v)
  | PCancel k | PStoreActivity _ k | PRestart k | PReset k | PStopTimer k | PStartReader k
  | PTouch k | PZeroCount k | PSetPaused _ k | PNewViewer k | PDetach k => tidy b k
  end.

Lemma tidy_mono p : ∀ b, tidy b p → tidy true p.
Proof.
  induction p; cbn; intros b' H0; eauto.
  all: destruct H0 as [Hq H0]; split; [done|]; intros w; eauto.
Qed.
Lemma tidy_touchGateway b k : tidy b k → tidy b (touchGateway cfg k).
Proof. intros Hk now prev. go_if; [done|]. intros w. by destruct w. Qed.
Lemma tidy_closeSession b m k : tidy b k → tidy b (closeSession m k).
Proof.
  intros Hk. split; [eauto|]. intros []; [|done]. cbn.
  destruct (IsEmpty m); cbn; [|intros _]; by eapply tidy_mono.
Qed.
Lemma tidy_sent b (ok : bool) (k : bool → prog) : (∀ w, tidy b (k w)) →
  tidy b (if ok then resetIdle (touchGateway cfg (k true)) else closeSession "" (k false)).
Proof.
  intros Hk. destruct ok; [intros ?; by apply tidy_touchGateway|by apply tidy_closeSession].
Qed.
Lemma tidy_send b f k : (∀ w, tidy b (k w)) → tidy b (send cfg f k).
Proof. intros Hk []; cbn; [auto|]. intros ok. by apply tidy_sent. Qed.
Lemma tidy_writeLoop_turn data : tidy true (writeLoop_turn cfg data).
Proof.
  intros []; [done|]. intros []; try done.
  - apply tidy_send. intros _. by apply tidy_closeSession.
  - intros ok. by apply (tidy_sent _ _ (λ _, PDone)).
Qed.
Lemma tidy_reader_turn : tidy true (reader_turn cfg).
Proof.
  intros []; cbn; [done|]. split; [done|]. intros [data|]; [|by apply tidy_closeSession].
  intros ?. apply tidy_touchGateway. destruct (parseControlAction data) as [[]|]; cbn; auto;
    intros []; cbn; auto; intros ok; by apply (tidy_sent _ _ (λ _, PDone)).
Qed.
Lemma tidy_idle_turn b : tidy b (idle_turn cfg).
Proof. intros last now. go_if; [done|]. by apply tidy_closeSession. Qed.
Lemma tidy_poll_turn b c : tidy b (poll_turn cfg c).
Proof. apply tidy_touchGateway. destruct c; [done|]. by apply tidy_closeSession. Qed.
Lemma tidy_serveConn stream : tidy false (serveConn cfg stream).
Proof. apply tidy_send. intros []; [|done]. intros [e|]; [by apply tidy_closeSession|done]. Qed.

Record ending_ok (s : session) : Prop := {
  eo_pots : pots false 20 24 20 s;
  eo_main : tidy (negb (s_connOpen s)) (s_main s);
  eo_reader : ∀ p, s_reader s = Some p → tidy true p;
  eo_writer : ∀ p, s_writer s = Some p → tidy true p;
  eo_lock : s_writeMu s = true → ∃ th f k, prog_of th s = Some (PWriting f k);
  eo_closed : s_closed s = true → s_cancelled s = true ∨ ∃ th k, prog_of th s = Some (PCancel k);
}.

(** What an operation does to the connection, the lock and the flags. *)
Lemma exec_flags b p a s p' s' : exec cfg p a s = Some (p', s') → tidy b p →
  (b = negb (s_connOpen s) → tidy (negb (s_connOpen s')) p') ∧ (b = true → tidy true p') ∧
  (s_connOpen s = false → s_connOpen s' = false) ∧
  (s_writeMu s' = true → (∃ f k, p' = PWriting f k) ∨
     (s_writeMu s = true ∧ ∀ f k, p ≠ PWriting f k)) ∧
  (s_closed s' = true → s_cancelled s' = true ∨ (∃ k, p' = PCancel k) ∨
     (s_closed s = true ∧ s_cancelled s = false ∧ ∀ k, p ≠ PCancel k)).
Proof.
  intros He Ht.
  destruct p; destruct a; cbn in He; try discriminate He; unfold admit_section in He;
    repeat match type of He with
    | context [if ?b then _ else _] => destruct b eqn:?
    | (let '_ := ?x in _) = _ => destruct x eqn:?
    end; simplify_eq; cbn in Ht |- *; split_and!; intros; subst; eauto;
    try (right; split; [done|]; intros; done);
    try (destruct Ht as [? Ht]; solve [auto 8]);
    match goal with |- s_cancelled ?s = true ∨ _ =>
      destruct (s_cancelled s) eqn:?; [by left|right; right; split_and!; [congruence|done|done]] end.
Qed.

Lemma pots_mono c m r w m' r' w' s : pots c m r w s → m ≤ m' → r ≤ r' → w ≤ w' → pots c m' r' w' s.
Proof. intros (Hm & Hr & Hw) ???. split_and!; intros; eapply within_mono; eauto. Qed.

Lemma prog_of_same th p s : prog_of th (set_prog th p s) = Some p.
Proof. by destruct th. Qed.
Lemma prog_of_other th th' p s : th' ≠ th → prog_of th' (set_prog th p s) = prog_of th' s.
Proof. by destruct th, th'. Qed.

(** The other goroutines stay where they are; one may begin. *)
Lemma exec_others th p a s p' s' : live_ok cfg s → prog_of th s = Some p →
  exec cfg p a s = Some (p', s') → ∀ th', th' ≠ th →
  prog_of th' s' = prog_of th' s ∨ (prog_of th' s = None ∧ prog_of th' s' = Some PDone).
Proof.
  intros [] Hp He.
  assert (∃ v r, spawns v r p ∧ (v = true → s_writer s = None) ∧ (r = true → s_reader s = None))
    as (v & r & Hsp & Hv & Hr).
  { destruct th; cbn in Hp; [injection Hp as <-|exists false, false; split_and!; by auto..].
    do 2 eexists. split; [done|]. by destruct (s_writer s), (s_reader s). }
  destruct (exec_threads _ _ _ _ _ _ _ _ He Hsp) as [Em Et].
  intros []; cbn; rewrite ?Em; auto;
    destruct Et as [(Er & Ew & _)|[(Hv' & Er & Ew & _)|(Hr' & Er & Ew & _)]]; rewrite ?Er, ?Ew; auto.
Qed.

Lemma exec_ending th p a s p' s' : live_ok cfg s → ending_ok s → prog_of th s = Some p →
  exec cfg p a s = Some (p', s') → ending_ok (set_prog th p' s').
Proof.
  intros Hl H Hp He. destruct H.
  destruct (exec_pots _ _ _ _ _ _ _ _ _ _ eo_pots0 ltac:(done) Hp He)
    as [_ (m & r & w & Hpots & _ & Hm & Hr & Hw)].
  pose proof (exec_others _ _ _ _ _ _ Hl Hp He) as Ho.
  assert (∃ b, tidy b p ∧ match th with Main => b = negb (s_connOpen s) | _ => b = true end)
    as (b & Ht & Hb) by (destruct th; cbn in Hp; [injection Hp as <-|..]; eauto).
  destruct (exec_flags _ _ _ _ _ _ He Ht) as (Fm & Fo & Fc & Flock & Fclosed).
  assert (∀ th' q, th' ≠ th → prog_of th' s = Some q → prog_of th' (set_prog th p' s') = Some q) as Hkeep.
  { intros th' q Hne Hq. rewrite prog_of_other by done. destruct (Ho _ Hne) as [->|[E _]]; congruence. }
  assert (∀ th' q, th' ≠ th → prog_of th' (set_prog th p' s') = Some q →
    prog_of th' s = Some q ∨ q = PDone) as Hback.
  { intros th' q Hne. rewrite prog_of_other by done. destruct (Ho _ Hne) as [->|[_ ->]]; [auto|intros [= <-]; auto]. }
  assert (∀ th' q, prog_of th' s = Some q → (∀ q', p = q' → q' ≠ q) →
    prog_of th' (set_prog th p' s') = Some q) as Hkeep'.
  { intros th' q Hq Hne. apply Hkeep; [|done]. intros ->. rewrite Hp in Hq. simplify_eq. by eapply Hne. }
  assert (∀ th', th' ≠ Main → ∀ q, prog_of th' (set_prog th p' s') = Some q → tidy true q) as Htidy.
  { intros th' Hm' q Hq. destruct (decide (th' = th)) as [->|Hne].
    - rewrite prog_of_same in Hq. simplify_eq. apply Fo. by destruct th.
    - destruct (Hback _ _ Hne Hq) as [E| ->]; [|done]. destruct th'; cbn in E; [done|by eauto..]. }
  split.
  - eapply pots_mono; [exact Hpots|lia..].
  - replace (s_connOpen (set_prog th p' s')) with (s_connOpen s') by by destruct th.
    destruct (decide (th = Main)) as [->|Hne]; [apply Fm, Hb|].
    assert (prog_of Main (set_prog th p' s') = Some (s_main (set_prog th p' s'))) as Hq by done.
    apply Hback in Hq as [[= <-]|E]; [|by rewrite E|by intros <-].
    destruct (s_connOpen s) eqn:Ec; [|by rewrite Fc].
    destruct (s_connOpen s'); [done|]. by eapply tidy_mono.
  - apply (Htidy Reader). done.
  - apply (Htidy Writer). done.
  - replace (s_writeMu (set_prog th p' s')) with (s_writeMu s') by by destruct th.
    intros E. destruct (Flock E) as [(f & k & ->)|(E' & Hne)].
    + exists th, f, k. apply prog_of_same.
    + destruct (eo_lock0 E') as (th' & f & k & Hq). exists th', f, k. apply Hkeep'; [done|].
      intros q <-. apply Hne.
  - replace (s_closed (set_prog th p' s')) with (s_closed s') by by destruct th.
    replace (s_cancelled (set_prog th p' s')) with (s_cancelled s') by by destruct th.
    intros E. destruct (Fclosed E) as [?|[(k & ->)|(E' & Ec & Hne)]]; [by left| |].
    + right. exists th, k. apply prog_of_same.
    + destruct (eo_closed0 E') as [?|(th' & k & Hq)]; [congruence|].
      right. exists th', k. apply Hkeep'; [done|]. intros q <-. apply Hne.
Qed.

Lemma turn_ending th p s : prog_of th s = Some PDone → ending_ok s →
  (∀ b, tidy b p) ∨ (th ≠ Main ∧ tidy true p) →
  within false (match th with Main => 5 | Reader => 2 | Writer => 0 end)
    (match th with Reader => 24 | _ => 20 end) p →
  ending_ok (set_prog th p s).
Proof.
  intros Hp [] Ht Hw.
  assert (tidy true p) by (destruct Ht as [Ht|[_ Ht]]; auto).
  assert (∀ th' q, prog_of th' s = Some q → q ≠ PDone → prog_of th' (set_prog th p s) = Some q) as Hkeep.
  { intros th' q Hq Hne. rewrite prog_of_other; [done|]. intros ->. congruence. }
  split.
  - destruct eo_pots0 as (Hm & Hr & Hw'). destruct th; cbn in Hw |- *; (split_and!; cbn; eauto);
      by intros q [= <-].
  - destruct th; [|done..]. cbn. destruct Ht as [Ht|[Hne _]]; [apply Ht|done].
  - destruct th; cbn; eauto. by intros q [= <-].
  - destruct th; cbn; eauto. by intros q [= <-].
  - replace (s_writeMu (set_prog th p s)) with (s_writeMu s) by by destruct th.
    intros E. destruct (eo_lock0 E) as (th' & f & k & Hq). exists th', f, k. by apply Hkeep.
  - replace (s_closed (set_prog th p s)) with (s_closed s) by by destruct th.
    replace (s_cancelled (set_prog th p s)) with (s_cancelled s) by by destruct th.
    intros E. destruct (eo_closed0 E) as [?|(th' & k & Hq)]; [by left|].
    right. exists th', k. by apply Hkeep.
Qed.

Lemma at_head_done p : at_head p = true → p = PDone.
Proof. by destruct p. Qed.

Lemma step_ending l s s' : live_ok cfg s → ending_ok s → session_step cfg l s = Some s' → ending_ok s'.
Proof.
  intros Hl H Hs. destruct l; cbn in Hs.
  - destruct (prog_of th s) as [p|] eqn:Ep; [|done].
    destruct (exec cfg p a s) as [[p' s1]|] eqn:He; [|done]. injection Hs as <-. eauto using exec_ending.
  - destruct (at_head (s_main s) && s_cancelled s) eqn:E; [|done]. injection Hs as <-. go_bool.
    apply (turn_ending Main); [by cbn; f_equal; apply at_head_done|done|by left; intros b|].
    eapply within_mono; [|apply (within_leave _ _ 0)]. lia.
  - destruct (at_head (s_main s) && s_fired s) eqn:E; [|done]. injection Hs as <-. go_bool.
    apply (turn_ending Main _ (with_timer (s_timer s) false s));
      [by cbn; f_equal; apply at_head_done| |left; intros b; apply tidy_idle_turn|].
    + destruct H. by split.
    + eapply within_mono; [|apply within_idle_turn]. lia.
  - destruct (at_head (s_main s) && _) eqn:E; [|done]. injection Hs as <-. go_bool.
    apply (turn_ending Main); [by cbn; f_equal; apply at_head_done|done|by left; intros b|].
    eapply within_mono; [|apply (within_leave _ _ 0)]. lia.
  - destruct (at_head (s_main s)) eqn:E; [|done]. injection Hs as <-.
    apply (turn_ending Main); [by cbn; f_equal; apply at_head_done|done|left; intros b; apply tidy_poll_turn|].
    eapply within_mono; [|apply within_poll_turn]. lia.
  - destruct (s_reader s) as [[]|] eqn:E; try done. injection Hs as <-.
    apply (turn_ending Reader); [done|done|right; split; [done|apply tidy_reader_turn]|apply within_reader_turn].
  - destruct (s_writer s) as [[]|] eqn:E; try done. injection Hs as <-.
    apply (turn_ending Writer); [done|done|right; split; [done|apply tidy_writeLoop_turn]|apply within_writeLoop_turn].
  - destruct (0 <=? d)%Z; [|done]. injection Hs as <-. destruct H. by split.
  - destruct (s_timer s) as [t|]; [|done]. destruct (t <=? s_now s)%Z; [|done]. injection Hs as <-.
    destruct H. by split.
Qed.

Lemma start_ending now stream : ending_ok (start cfg now stream).
Proof.
  split; try done; [|apply tidy_serveConn]. split; [apply within_serveConn|done].
Qed.

Lemma reachable_ending s : session_reachable cfg s → ending_ok s.
Proof.
  intros (now & stream & ls & E). assert (Hl := start_live cfg now stream).
  assert (H := start_ending now stream). revert Hl H E. generalize (start cfg now stream) as s0.
  induction ls as [|l ls IH]; intros s0 Hl H E; cbn in E; [by injection E as <-|].
  destruct (session_step cfg l s0) as [s1|] eqn:Es; [|done].
  eapply IH; [by eapply step_live|by eapply step_ending|done].
Qed.

(** A read or a write on an open connection waits for the peer. *)
Definition needs_peer (l : label) (s : session) : bool :=
  match l with KExec _ (AWrote _) | KExec _ (ARead _) => s_connOpen s | _ => false end.
(** No goroutine can go on by itself. *)
Definition at_rest (s : session) : Prop :=
  ∀ l, own l = true → needs_peer l s = false → session_step cfg l s = None.

Definition finished (s : session) : Prop :=
  s_main s = PExit ∧ s_connOpen s = false ∧ (∀ p, s_reader s = Some p → p = PExit) ∧
  (∀ p, s_writer s = Some p → p = PDone ∨ p = PExit).
(** A goroutine is inside a write on the open connection. *)
Definition writing (s : session) : Prop :=
  s_connOpen s = true ∧ ∃ th f k, prog_of th s = Some (PWriting f k).

Lemma rest_prog th p s : at_rest s → prog_of th s = Some p →
  match p with
  | PDone | PExit => True
  | PWrite _ _ => s_writeMu s = true
  | PWriting _ _ | PRead _ => s_connOpen s = true
  | _ => False
  end.
Proof.
  intros Hr Hp. assert (∀ a, needs_peer (KExec th a) s = false → exec cfg p a s = None) as Hx.
  { intros a Ha. specialize (Hr (KExec th a) eq_refl Ha). cbn in Hr. rewrite Hp in Hr.
    by destruct (exec cfg p a s) as [[]|]. }
  destruct p; try done;
    try (specialize (Hx ANone eq_refl); cbn in Hx; repeat case_match; done);
    try (destruct (s_connOpen s) eqn:Ec; [done|]).
  - by specialize (Hx (AWrote false) Ec).
  - by specialize (Hx (ARead None) Ec).
  - specialize (Hx (ADelay 0) eq_refl). cbn in Hx. by destruct (admit_section cfg 0 s).
  - by specialize (Hx (AAttached None) eq_refl).
Qed.

Lemma rest_ends s : ending_ok s → s_closed s = true → at_rest s → finished s ∨ writing s.
Proof.
  intros H Hc Hr. destruct H. pose proof (λ th p, rest_prog th p s Hr) as Hrest.
  destruct (s_writeMu s) eqn:El.
  { right. destruct (eo_lock0 eq_refl) as (th & f & k & Hp). specialize (Hrest _ _ Hp). split; eauto. }
  assert (s_cancelled s = true) as Hcan.
  { destruct (eo_closed0 Hc) as [?|(th & k & Hp)]; [done|]. by apply Hrest in Hp. }
  destruct (s_main s) eqn:Em; pose proof (Hrest Main _ ltac:(cbn; by rewrite Em)) as Hm; try done.
  - specialize (Hr KMainDone eq_refl eq_refl). cbn in Hr. by rewrite Em, Hcan in Hr.
  - cbn in eo_main0. apply negb_true_iff in eo_main0. left. split_and!; [done|done| |].
    + intros p Hp. specialize (Hrest Reader _ Hp). destruct p; try done; try congruence.
      specialize (Hr KReader eq_refl eq_refl). cbn in Hr. by rewrite Hp in Hr.
    + intros p Hp. specialize (Hrest Writer _ Hp). destruct p; auto; try done; congruence.
  - right. split; [done|]. exists Main. cbn. rewrite Em. eauto.
  - destruct eo_main0 as [E _]. by rewrite Hm in E.
Qed.

(** C17. A session that was closed (by an error, the idle timer, the poll or the
    viewer) comes to its end.  Once it is cancelled its goroutines take at most 64
    more operations, and 20 more for every further frame, tick of the idle timer
    or poll that arrives in the meantime; and when none of them can go on by
    itself, [serveConn] and the reader have returned, the connection is closed and
    the writer waits for frames, unless some goroutine is inside a write that the
    peer has not taken. *)
Theorem live_session_ends (s : session) :
  session_reachable cfg s → s_closed s = true →
  (s_cancelled s = true → ∀ ls s', session_run cfg ls s = Some s' →
    count own ls ≤ 64 + 20 * count turn ls) ∧
  (at_rest s → finished s ∨ writing s).
Proof.
  intros H%reachable_ending Hc. split; [|by apply rest_ends].
  intros Hcan ls s' Hrun. destruct H as [(Hm & Hr & Hw)]. eapply (run_pots ls 20 24 20); [|done..].
  split_and!; intros; by apply within_after; auto.
Qed.
End Ending.

(** The idle timer closes a session, and everything ends. *)
Definition idle_close : list label :=
  began ++ [KTick (10 * 60 * second); KFire; KMainIdle] ++ steps Main 5 ++ [KExec Main (AWrote true)] ++
  steps Main 1 ++ [KReader] ++ steps Reader 1.
Definition or_start (o : option session) : session := default (start one_message 0 "") o.

Example live_session_ends_witness :
  let s := or_start (session_run one_message idle_close (start one_message 1000000000000 "S")) in
  s_closed s = true ∧ s_cancelled s = true ∧ s_main s = PDetach deferred ∧
  (session_run one_message (steps Main 4) s = None → False) ∧
  4 ≤ 64 + 20 * count turn (steps Main 4).
Proof.
  intros s. assert (session_run one_message idle_close (start one_message 1000000000000 "S") = Some s) as Hs.
  { assert (is_None (session_run one_message idle_close (start one_message 1000000000000 "S"))
            = false) as Hrun by (vm_compute; reflexivity).
    subst s. by destruct (session_run _ _ _). }
  assert (s_closed s = true) as Hc by (vm_compute; reflexivity).
  split; [exact Hc|]. split; [vm_compute; reflexivity|]. split; [vm_compute; reflexivity|].
  assert (is_None (session_run one_message (steps Main 4) s) = false) as Hrun by (vm_compute; reflexivity).
  destruct (session_run one_message (steps Main 4) s) as [s'|] eqn:E; [|discriminate Hrun].
  split; [done|].
  refine (proj1 (live_session_ends one_message s _ Hc) _ (steps Main 4) s' E);
    [by exists 1000000000000%Z, "S", idle_close|vm_compute; reflexivity].
Defined.

(** A viewer that has stopped reading: the writer is inside a write, the idle
    timer closes the session, and the main loop waits for [writeMu] to say so. *)
Definition stalled : list label :=
  began ++ [KReader] ++ steps Reader 1 ++ [KDeliver "a"] ++ steps Writer 1 ++
  [KExec Writer (ADelay 0)] ++ steps Writer 1 ++
  [KTick (10 * 60 * second); KFire; KMainIdle] ++ steps Main 4.

Definition waits_to_write (p : prog) : bool := match p with PWrite _ _ => true | _ => false end.
Definition reads (p : prog) : bool := match p with PRead _ => true | _ => false end.
Definition writes (p : prog) : bool := match p with PWriting _ _ => true | _ => false end.
Definition is_stalled (s : session) : bool :=
  s_closed s && s_cancelled s && s_connOpen s && s_writeMu s && waits_to_write (s_main s) &&
  match s_reader s with Some p => reads p | None => false end &&
  match s_writer s with Some p => writes p | None => false end.

(** The idle timeout does not end a session whose peer has stopped reading: after
    it, no goroutine can go on by itself, the error frame waits behind the write
    under way, and the connection, which is closed only after it, is still open. *)
Lemma idle_timeout_waits_for_the_peer :
  ∃ s, session_reachable one_message s ∧ s_closed s = true ∧ s_connOpen s = true ∧
    at_rest one_message s ∧ ¬ finished s.
Proof.
  assert (match session_run one_message stalled (start one_message 1000000000000 "S") with
          | Some s => is_stalled s | None => false end = true) as Hst by (vm_compute; reflexivity).
  destruct (session_run one_message stalled (start one_message 1000000000000 "S")) as [s|] eqn:E; [|done].
  exists s. split; [by exists 1000000000000%Z, "S", stalled|]. clear E.
  unfold is_stalled in Hst. go_bool. destruct (s_reader s) as [r|] eqn:Er; [|done].
  destruct (s_writer s) as [w|] eqn:Ew; [|done]. split_and!; [done..| |].
  - intros l Hl Hn. destruct (s_main s) eqn:Em; try done. destruct r; try done. destruct w; try done.
    destruct l as [th a| | | | | | | |]; try done; cbn in *; rewrite ?Em, ?Er; try done.
    destruct th; cbn; rewrite ?Em, ?Er, ?Ew; destruct a; cbn in *; try done; try congruence.
    by destruct (s_writeMu s).
  - intros (Hx & _). by rewrite Hx in *.
Qed.
