(* ===== verification/Messages.v ===== *)
(** Stored messages: internal/domain/message.go, the navigation of
    internal/nats/client.go with its cache of known sequences (seq_exists.go),
    and the choice of a subject to publish on (internal/nats/subject.go).

    The JetStream server behind the NATS library is a parameter, the class
    [NatsServer]: an abstract state and what the calls of the library answer. *)

From S2P Require Export Prelude Base64 Subjects.
From Stdlib Require Import Ascii.
From S2P Require Import GoStrings.

(** * The server *)

(** [nats.ErrMsgNotFound], or another error of the library. *)
Inductive nerr := ErrMsgNotFound | ErrServer (m : string).

(** [nats.RawStreamMsg] and [libnats.StoredMessage] have the same fields; a nil
    header is the empty one. *)
Record RawStreamMsg := mkRaw {
  raw_Sequence : Z;
  raw_Subject : string;
  raw_Time : Z;
  raw_Data : string;
  raw_Header : gmap string (list string);
}.

(** The fields of [nats.StreamInfo] the program reads. *)
Record StreamInfoRaw := mkInfo {
  si_Name : string;
  si_Metadata : gmap string string;
  si_Subjects : list string;
  si_Msgs : Z;
  si_FirstSeq : Z;
  si_LastSeq : Z;
}.

(** [GetMsgRange] gives the stored messages (a nil among them is skipped) and
    whether it stopped at the limit, 0 for none. *)
Class NatsServer (S : Type) := {
  ns_StreamInfo : string → S → result nerr StreamInfoRaw;
  ns_GetMsg : string → Z → S → result nerr RawStreamMsg;
  ns_GetNextMsgAfter : string → Z → S → result nerr RawStreamMsg;
  ns_GetMsgRange : string → Z → Z → Z → S → result nerr (list (option RawStreamMsg) * bool);
  ns_DeleteMsg : string → Z → S → result nerr unit * S;
  ns_PublishRaw : string → string → gmap string string → S → result nerr Z * S;
  ns_FormatTime : Z → string;   (* time.UTC().Format(time.RFC3339Nano) *)
}.

(** * Messages *)

Record StreamMessage := mkMessage {
  sm_Headers : gmap string string;
  sm_Subject : string;
  sm_Time : string;
  sm_Data : string;    (* base64 *)
  sm_Seq : Z;
}.

(** The first value of every header that has one. *)
Definition first_values (h : gmap string (list string)) : gmap string string := omap head h.

Definition StreamMessageFromRaw `{NatsServer St} (msg : RawStreamMsg) : StreamMessage := {|
  sm_Headers := first_values (raw_Header msg); sm_Subject := raw_Subject msg;
  sm_Time := ns_FormatTime (raw_Time msg); sm_Data := EncodeToString (raw_Data msg);
  sm_Seq := raw_Sequence msg |}.

Definition storedRangeToDomain `{NatsServer St} (msgs : list (option RawStreamMsg)) :
    list StreamMessage := omap (fmap StreamMessageFromRaw) msgs.

Definition GetMessageRange `{NatsServer St} (stream : string) (startSeq endSeq limit : Z) (s : St) :
    result nerr (list StreamMessage * bool) :=
  match ns_GetMsgRange stream startSeq endSeq (if (0 <? limit)%Z then limit else 0) s with
  | Ok (msgs, truncated) => Ok (storedRangeToDomain msgs, truncated)
  | Err e => Err e
  end.

(** * The cache of known sequences *)

Record streamSeqBits := mkBits { present : gset Z; absent : gset Z }.
Abbreviation seqExistsCache := (gmap string streamSeqBits).

Definition known (stream : string) (seq : Z) (c : seqExistsCache) : option bool :=
  match c !! stream with
  | Some bits =>
      if bool_decide (seq ∈ present bits) then Some true
      else if bool_decide (seq ∈ absent bits) then Some false else None
  | None => None
  end.

Definition mark (stream : string) (seq : Z) (exists_ : bool) (c : seqExistsCache) : seqExistsCache :=
  let bits := default (mkBits ∅ ∅) (c !! stream) in
  let bits := if exists_ then mkBits ({[seq]} ∪ present bits) (absent bits ∖ {[seq]})
              else mkBits (present bits ∖ {[seq]}) ({[seq]} ∪ absent bits) in
  let bits := if Nat.ltb 4096 (size (present bits) + size (absent bits))
              then if exists_ then mkBits {[seq]} ∅ else mkBits ∅ {[seq]}
              else bits in
  <[stream := bits]> c.

(** * Navigation *)

Section Navigation.
Context `{NatsServer St} (s : St) (stream : string).

(** Is there a message [mid]?  [None]: the server failed. *)
Definition probe (mid : Z) (c : seqExistsCache) : option bool * seqExistsCache :=
  match known stream mid c with
  | Some b => (Some b, c)
  | None =>
      match ns_GetMsg stream mid s with
      | Ok _ => (Some true, mark stream mid true c)
      | Err ErrMsgNotFound => (Some false, mark stream mid false c)
      | Err (ErrServer _) => (None, c)
      end
  end.

(** The loop of [findPrevSeq]; [None]: out of fuel. *)
Fixpoint prev_loop (fuel : nat) (firstSeq lo hi : Z) (found : option Z) (c : seqExistsCache) :
    option (option Z * seqExistsCache) :=
  if (lo <=? hi)%Z then
    match fuel with
    | 0 => None
    | S fuel =>
        let mid := u64 (lo + u64 (hi - lo) / 2) in
        match probe mid c with
        | (None, c) => Some (None, c)
        | (Some true, c) => prev_loop fuel firstSeq (u64 (mid + 1)) hi (Some mid) c
        | (Some false, c) =>
            if (mid =? firstSeq)%Z then Some (found, c)
            else prev_loop fuel firstSeq lo (u64 (mid - 1)) found c
        end
    end
  else Some (found, c).

(** Each turn halves an interval of less than 2^64 numbers. *)
Definition prev_fuel : nat := 64.

Definition findPrevSeq (seq firstSeq : Z) (c : seqExistsCache) : option Z * seqExistsCache :=
  if (seq <=? firstSeq)%Z then (None, c)
  else default (None, c) (prev_loop prev_fuel firstSeq firstSeq (u64 (seq - 1)) None c).

Definition findNextSeq (seq lastSeq : Z) : option Z :=
  if (lastSeq <=? seq)%Z then None
  else match ns_GetNextMsgAfter stream seq s with
       | Ok msg => Some (raw_Sequence msg)
       | Err _ => None
       end.

Record MessageResult := mkResult {
  mr_Message : StreamMessage;
  mr_PrevSeq : option Z;
  mr_NextSeq : option Z;
}.

Definition GetMessageNav (seq : Z) (direction : string) (c : seqExistsCache) :
    result nerr MessageResult * seqExistsCache :=
  match ns_StreamInfo stream s with
  | Err e => (Err e, c)
  | Ok info =>
      let '(msg, c) :=
        if direction =s "next" then (ns_GetNextMsgAfter stream seq s, c)
        else if direction =s "prev" then
          if (seq <=? si_FirstSeq info)%Z then (Err ErrMsgNotFound, c)
          else match findPrevSeq seq (si_FirstSeq info) c with
               | (None, c) => (Err ErrMsgNotFound, c)
               | (Some prevSeq, c) => (ns_GetMsg stream prevSeq s, c)
               end
        else if negb (IsEmpty direction) then (Err (ErrServer "invalid direction"), c)
        else (ns_GetMsg stream seq s, c) in
      match msg with
      | Err e => (Err e, c)
      | Ok msg =>
          let c := mark stream (raw_Sequence msg) true c in
          let '(prev, c) := findPrevSeq (raw_Sequence msg) (si_FirstSeq info) c in
          (Ok (mkResult (StreamMessageFromRaw msg) prev
                 (findNextSeq (raw_Sequence msg) (si_LastSeq info))), c)
      end
  end.
End Navigation.

(** * Publishing *)

Inductive publish_error := ErrSubjectNotInStream | ErrSubjectRequired.

Definition ResolvePublishSubject (requested : string) (streamSubjects : list string) :
    result publish_error string :=
  let requested := TrimSpace requested in
  if negb (IsEmpty requested) then
    if existsb (MatchesPattern requested) streamSubjects then Ok requested
    else Err ErrSubjectNotInStream
  else match streamSubjects with
       | [only] =>
           if negb (ContainsByte only "*" || ContainsByte only ">") then Ok only
           else Err ErrSubjectRequired
       | _ => Err ErrSubjectRequired
       end.

(** * The nearest message before a sequence *)

Section Prev.
Context `{NatsServer St} (s : St) (stream : string) (rows : gmap Z RawStreamMsg).

(** The server answers from [rows]. *)
Definition answers_from : Prop := ∀ q,
  ns_GetMsg stream q s = match rows !! q with Some m => Ok m | None => Err ErrMsgNotFound end.
(** What the cache remembers of the stream holds. *)
Definition cache_right (c : seqExistsCache) : Prop :=
  ∀ q b, known stream q c = Some b → b = bool_decide (is_Some (rows !! q)).

Lemma known_mark_same q b c : known stream q (mark stream q b c) = Some b.
Proof.
  unfold known, mark. cbv zeta. rewrite lookup_insert_eq.
  destruct (Nat.ltb _ _), b; cbn; repeat case_bool_decide; try done; set_solver.
Qed.
Lemma known_mark_other q b c p e : p ≠ q →
  known stream p (mark stream q b c) = Some e → known stream p c = Some e.
Proof.
  intros Hne. unfold known, mark. cbv zeta. rewrite lookup_insert_eq.
  destruct (Nat.ltb _ _), b; cbn; destruct (c !! stream) as [[P A]|]; cbn;
    repeat case_bool_decide; try done; set_solver.
Qed.

Lemma cache_right_mark q c : cache_right c →
  cache_right (mark stream q (bool_decide (is_Some (rows !! q))) c).
Proof.
  intros Hc p b. destruct (decide (p = q)) as [->|Hne].
  - rewrite known_mark_same. by intros [= <-].
  - intros Hk%known_mark_other; auto.
Qed.

Lemma probe_right mid c : answers_from → cache_right c → ∃ c', cache_right c' ∧
  probe s stream mid c = (Some (bool_decide (is_Some (rows !! mid))), c').
Proof.
  intros Ha Hc. unfold probe. destruct (known stream mid c) as [b|] eqn:E.
  - exists c. split; [done|]. by rewrite (Hc _ _ E).
  - pose proof (cache_right_mark mid c Hc) as Hm. rewrite Ha.
    destruct (rows !! mid) eqn:Er; cbn in *; eauto.
Qed.

(** No sequence is missing below a message of the range. *)
Definition no_gaps (lo hi : Z) : Prop :=
  ∀ a b, (lo ≤ a ≤ b)%Z → (b ≤ hi)%Z → is_Some (rows !! b) → is_Some (rows !! a).

(** [found] is the last message below [lo], or there is none. *)
Definition so_far (firstSeq lo : Z) (found : option Z) : Prop :=
  match found with
  | Some f => f = (lo - 1)%Z ∧ (firstSeq ≤ f)%Z ∧ is_Some (rows !! f)
  | None => lo = firstSeq
  end.

Lemma mid_bounds lo hi : (0 ≤ lo)%Z → (lo ≤ hi)%Z → (hi < max_uint64)%Z →
  let mid := u64 (lo + u64 (hi - lo) / 2) in
  (lo ≤ mid ≤ hi)%Z ∧ (2 * (mid - lo) ≤ hi - lo < 2 * (mid - lo) + 2)%Z.
Proof.
  unfold max_uint64. intros Hlo Hle Hhi. rewrite (u64_id (hi - lo)) by (unfold is_u64, max_uint64; lia).
  pose proof (Z.mul_div_le (hi - lo) 2 ltac:(lia)). pose proof (Z.mul_succ_div_gt (hi - lo) 2 ltac:(lia)).
  rewrite u64_id by (unfold is_u64, max_uint64; lia). lia.
Qed.

Lemma prev_loop_spec fuel firstSeq top : answers_from → (0 ≤ firstSeq)%Z → (top < max_uint64)%Z →
  ∀ lo hi found c, cache_right c →
  (firstSeq ≤ lo)%Z → (lo ≤ hi + 1)%Z → (hi ≤ top)%Z → (hi - lo + 1 < 2 ^ Z.of_nat fuel)%Z →
  so_far firstSeq lo found →
  ∃ r c', prev_loop s stream fuel firstSeq lo hi found c = Some (r, c') ∧ cache_right c' ∧
    (∀ f, r = Some f → (firstSeq ≤ f < lo ∨ lo ≤ f ≤ hi)%Z ∧ is_Some (rows !! f)) ∧
    (∀ g, found = Some g → ∃ f, r = Some f ∧ (g ≤ f)%Z) ∧
    (no_gaps firstSeq hi → ∀ q, (lo ≤ q ≤ hi)%Z → is_Some (rows !! q) → ∃ f, r = Some f ∧ (q ≤ f)%Z).
Proof.
  intros Ha Hf Htop. induction fuel as [|fuel IH]; intros lo hi found c Hc Hlo Hlh Hhi Hfuel Hso;
    cbn [prev_loop]; (destruct (Z.leb_spec lo hi) as [Hle|Hgt];
      [|exists found, c; split; [done|]; split; [done|]; split_and!;
        [intros f ->; destruct Hso as (-> & ? & ?); split; [lia|done]|eauto with lia|lia]]).
  - cbn in Hfuel. lia.
  - destruct (mid_bounds lo hi) as [Hm Em]; [lia..|].
    set (mid := u64 _) in *. clearbody mid. rewrite Nat2Z.inj_succ, Z.pow_succ_r in Hfuel by lia.
    destruct (probe_right mid c Ha Hc) as (c1 & Hc1 & ->). case_bool_decide as He.
    + rewrite (u64_id (mid + 1)) by (unfold is_u64, max_uint64 in *; lia).
      destruct (IH (mid + 1)%Z hi (Some mid) c1) as (r & c' & -> & Hc' & Hr & Hg & Hq);
        [done|lia..|by split_and!; [lia|lia|]|].
      exists r, c'. split; [done|]. split; [done|]. split_and!.
      * intros f Ef. destruct (Hr f Ef). split; [lia|done].
      * intros g ->. destruct Hso as (-> & _). destruct (Hg mid eq_refl) as (f & ? & ?).
        exists f. split; [done|lia].
      * intros Hng q Hqr Hqe. destruct (decide (q ≤ mid)%Z).
        -- destruct (Hg mid eq_refl) as (f & ? & ?). exists f. split; [done|lia].
        -- apply Hq; [done|lia|done].
    + assert (no_gaps firstSeq hi → ∀ q, (lo ≤ q ≤ hi)%Z → is_Some (rows !! q) → (q < mid)%Z) as Hbelow.
      { intros Hng q Hqr Hqe. destruct (decide (q < mid)%Z); [done|]. destruct He.
        apply (Hng mid q); [lia..|done]. }
      destruct (Z.eqb_spec mid firstSeq) as [E|Hne].
      * exists found, c1. split; [done|]. split; [done|]. split_and!.
        -- intros f ->. destruct Hso as (-> & ? & ?). split; [lia|done].
        -- eauto with lia.
        -- intros Hng q Hqr Hqe. specialize (Hbelow Hng q Hqr Hqe). lia.
      * rewrite (u64_id (mid - 1)) by (unfold is_u64, max_uint64 in *; lia).
        destruct (IH lo (mid - 1)%Z found c1) as (r & c' & -> & Hc' & Hr & Hg & Hq); [done|lia..|done|].
        exists r, c'. split; [done|]. split; [done|]. split_and!; [|done|].
        -- intros f Ef. destruct (Hr f Ef). split; [lia|done].
        -- intros Hng q Hqr Hqe. specialize (Hbelow Hng q Hqr Hqe).
           apply Hq; [|lia|done]. intros a b Hab Hb. apply Hng; [done|lia].
Qed.

(** The search for the previous message always ends (64 probes are enough
    for any two sequences), keeps the cache right, and gives a message that
    exists, between the first sequence and the one asked for; when the messages
    below it have no gaps, it is the nearest one, and none only if there is none. *)
Theorem findPrevSeq_spec (seq firstSeq : Z) (c : seqExistsCache) :
  answers_from → cache_right c → is_u64 seq → is_u64 firstSeq →
  ((firstSeq < seq)%Z → prev_loop s stream prev_fuel firstSeq firstSeq (u64 (seq - 1)) None c ≠ None) ∧
  let '(r, c') := findPrevSeq s stream seq firstSeq c in
  cache_right c' ∧
  (∀ f, r = Some f → (firstSeq ≤ f < seq)%Z ∧ is_Some (rows !! f)) ∧
  (no_gaps firstSeq (seq - 1) → ∀ q, (firstSeq ≤ q < seq)%Z → is_Some (rows !! q) →
     ∃ f, r = Some f ∧ (q ≤ f)%Z).
Proof.
  intros Ha Hc Hs Hf. unfold is_u64 in *.
  unfold findPrevSeq. destruct (Z.leb_spec seq firstSeq) as [Hle|Hlt];
    [split; [lia|split_and!; [done|done|lia]]|].
  rewrite u64_id by (unfold is_u64; lia).
  destruct (prev_loop_spec prev_fuel firstSeq (seq - 1) Ha) with (lo := firstSeq)
    (hi := (seq - 1)%Z) (found := @None Z) (c := c) as (r & c' & -> & Hc' & Hr & _ & Hq);
    [unfold prev_fuel, max_uint64 in *; lia || done..|].
  split; [done|]. cbn. split; [done|]. split.
  - intros f Ef. destruct (Hr f Ef). split; [lia|done].
  - intros Hng q Hqr Hqe. apply Hq; [done|lia|done].
Qed.
End Prev.

(** * Sequences in order *)

(** The sequences from [a] to [b] that have a message, in order, and their rows. *)
Definition keys_between (a b : Z) (rows : gmap Z RawStreamMsg) : list Z :=
  merge_sort Z.le (elements (filter (λ q, (a ≤ q ≤ b)%Z) (dom rows))).
Definition rows_between (a b : Z) (rows : gmap Z RawStreamMsg) : list RawStreamMsg :=
  omap (λ q, rows !! q) (keys_between a b rows).

Lemma keys_between_elem a b rows q :
  q ∈ keys_between a b rows ↔ (a ≤ q ≤ b)%Z ∧ is_Some (rows !! q).
Proof.
  unfold keys_between. rewrite merge_sort_Permutation, elem_of_elements, elem_of_filter, elem_of_dom. done.
Qed.
Lemma keys_between_sorted a b rows : StronglySorted Z.lt (keys_between a b rows).
Proof.
  assert (NoDup (keys_between a b rows)) as Hnd
    by (unfold keys_between; rewrite merge_sort_Permutation; apply NoDup_elements).
  assert (StronglySorted Z.le (keys_between a b rows)) as Hs
    by (apply Sorted_StronglySorted; [exact Z.le_trans|apply Sorted_merge_sort; intros ??; lia]).
  induction Hs as [|q l Hs IH Hall]; constructor; apply NoDup_cons in Hnd as [Hq Hnd]; auto.
  rewrite Forall_forall in Hall |- *. intros x Hx. specialize (Hall x Hx).
  assert (x ≠ q) by (intros ->; done). lia.
Qed.
(** A strictly increasing list is determined by its elements. *)
Lemma increasing_unique (l k : list Z) : StronglySorted Z.lt l → StronglySorted Z.lt k →
  (∀ q, q ∈ l ↔ q ∈ k) → l = k.
Proof.
  assert (∀ l, StronglySorted Z.lt l → StronglySorted Z.le l ∧ NoDup l) as Hlt.
  { intros m. induction 1 as [|x m Hm [IH1 IH2] Hx]; [by repeat constructor|].
    rewrite Forall_forall in Hx. split; constructor; try done.
    - rewrite Forall_forall. intros y Hy. specialize (Hx y Hy). lia.
    - intros Hin. specialize (Hx x Hin). lia. }
  intros [Hl Hdl]%Hlt [Hk Hdk]%Hlt Heq. apply (StronglySorted_unique Z.le); [done..|].
  by apply NoDup_Permutation.
Qed.

Lemma sorted_app_inv (l k : list Z) : StronglySorted Z.lt (l ++ k) →
  StronglySorted Z.lt k ∧ ∀ x y, x ∈ l → y ∈ k → (x < y)%Z.
Proof.
  induction l as [|z l IH]; cbn; intros Hs; [split; [done|]; intros x y Hx; by apply elem_of_nil in Hx|].
  apply StronglySorted_inv in Hs as [Hs Hz]. destruct (IH Hs) as [Hk Hlk]. split; [done|].
  rewrite Forall_forall in Hz. intros x y [->|Hx]%elem_of_cons Hy; [|auto].
  apply Hz, elem_of_app. auto.
Qed.

(** What comes after [x] of the sequences is where the list goes on. *)
Lemma keys_between_split a b rows l x k :
  keys_between a b rows = (l ++ [x]) ++ k → keys_between (x + 1) b rows = k.
Proof.
  intros E. pose proof (keys_between_sorted a b rows) as Hs. rewrite E in Hs.
  destruct (sorted_app_inv _ _ Hs) as [Hk Hlk].
  apply increasing_unique; [apply keys_between_sorted|done|]. intros q.
  rewrite keys_between_elem. split.
  - intros [Hq He].
    assert (x ∈ keys_between a b rows) as [Hx _]%keys_between_elem
      by (rewrite E, !elem_of_app, list_elem_of_singleton; auto).
    assert (q ∈ keys_between a b rows) as Hin by (apply keys_between_elem; split; [lia|done]).
    rewrite E in Hin. apply elem_of_app in Hin as [Hin|Hin]; [|done].
    apply elem_of_app in Hin as [Hin|Hin%list_elem_of_singleton]; [|lia].
    pose proof (keys_between_sorted a b rows) as Hs'. rewrite E, <- (assoc_L (++)) in Hs'.
    destruct (sorted_app_inv _ _ Hs') as [_ Hlx].
    assert (q < x)%Z; [|lia]. apply Hlx; [done|]. cbn. left.
  - intros Hin. assert (q ∈ keys_between a b rows) as [Hq He]%keys_between_elem
      by (rewrite E, elem_of_app; auto).
    assert (x < q)%Z; [|split; [lia|done]].
    apply Hlk; [|done]. apply elem_of_app. right. by apply list_elem_of_singleton.
Qed.

(** * A server in memory

    Streams with their rows, and what was published; it answers as the
    documentation of the library says. *)

Record memory := mkMemory {
  mem_info : gmap string StreamInfoRaw;
  mem_rows : gmap string (gmap Z RawStreamMsg);
  mem_published : list (string * string * gmap string string);   (* newest first *)
}.

Definition rows_of (stream : string) (s : memory) : gmap Z RawStreamMsg :=
  default ∅ (mem_rows s !! stream).

Definition mem_GetMsgRange (stream : string) (a b limit : Z) (s : memory) :
    result nerr (list (option RawStreamMsg) * bool) :=
  let l := rows_between a b (rows_of stream s) in
  if (0 <? limit)%Z
  then Ok (Some <$> take (Z.to_nat limit) l, Nat.ltb (Z.to_nat limit) (length l))
  else Ok (Some <$> l, false).

#[export] Instance memory_server : NatsServer memory := {|
  ns_StreamInfo stream s :=
    match mem_info s !! stream with Some i => Ok i | None => Err (ErrServer "stream not found") end;
  ns_GetMsg stream q s :=
    match rows_of stream s !! q with Some m => Ok m | None => Err ErrMsgNotFound end;
  ns_GetNextMsgAfter stream q s :=
    match rows_between (q + 1) max_uint64 (rows_of stream s) with
    | m :: _ => Ok m
    | [] => Err ErrMsgNotFound
    end;
  ns_GetMsgRange := mem_GetMsgRange;
  ns_DeleteMsg stream q s :=
    match rows_of stream s !! q with
    | Some _ => (Ok tt, mkMemory (mem_info s) (<[stream := delete q (rows_of stream s)]> (mem_rows s))
                          (mem_published s))
    | None => (Err ErrMsgNotFound, s)
    end;
  ns_PublishRaw subject data headers s :=
    (Ok 1%Z, mkMemory (mem_info s) (mem_rows s) ((subject, data, headers) :: mem_published s));
  ns_FormatTime t := Itoa t;
|}.

Definition row (q : Z) (subject data : string) (headers : gmap string (list string)) : RawStreamMsg :=
  mkRaw q subject 0 data headers.
Definition keyed (l : list RawStreamMsg) : gmap Z RawStreamMsg :=
  list_to_map ((λ m, (raw_Sequence m, m)) <$> l).
Definition one_stream (info : StreamInfoRaw) (l : list RawStreamMsg) : memory :=
  mkMemory {[si_Name info := info]} {[si_Name info := keyed l]} [].

Definition gapless : memory :=
  one_stream (mkInfo "S" ∅ [] 3 1 3) [row 1 "a" "x" ∅; row 2 "a" "y" ∅; row 3 "a" "z" ∅].

Example findPrevSeq_spec_witness :
  fst (findPrevSeq gapless "S" 3 1 ∅) = Some 2%Z ∧
  ∃ f, fst (findPrevSeq gapless "S" 3 1 ∅) = Some f ∧ (2 ≤ f)%Z.
Proof.
  split; [vm_compute; reflexivity|].
  pose proof (findPrevSeq_spec gapless "S" (rows_of "S" gapless) 3 1 ∅) as H.
  destruct (findPrevSeq gapless "S" 3 1 ∅) as [r c] eqn:E.
  destruct H as (_ & _ & _ & H).
  - intros q. reflexivity.
  - intros q b Hk. discriminate Hk.
  - split; vm_compute; discriminate.
  - split; vm_compute; discriminate.
  - refine (H _ 2%Z _ _); [|split; vm_compute; [discriminate|reflexivity]|eexists; vm_compute; reflexivity].
    intros a b Hab Hb _. assert (a = 1%Z ∨ a = 2%Z) as [-> | ->] by lia.
    all: eexists; vm_compute; reflexivity.
Defined.

(** With a gap the search loses its way: of the messages 1, 2, 4, 5 and 6, the one
    before 6 is said to be 2, since 3 is missing; [prev] skips 4 and 5. *)
Definition gapped : memory :=
  one_stream (mkInfo "S" ∅ [] 5 1 6)
    [row 1 "a" "" ∅; row 2 "a" "" ∅; row 4 "a" "" ∅; row 5 "a" "" ∅; row 6 "a" "" ∅].

Lemma prev_skips_messages :
  match fst (GetMessageNav gapped "S" 6 "prev" ∅) with
  | Ok r => sm_Seq (mr_Message r) = 2%Z ∧ mr_NextSeq r = Some 4%Z
  | Err _ => False
  end ∧ is_Some (rows_of "S" gapped !! 5%Z).
Proof. split; [by vm_compute|by eexists; vm_compute]. Qed.
