(* ===== verification/Dlq.v ===== *)
(** Dead-letter queues: internal/domain/dlq.go and internal/nats/dlq.go.  A page
    of a queue, the collection of its sequences, and the retry of messages, which
    are published again on their original subject and then deleted. *)

From S2P Require Export Messages.
From S2P Require Import GoStrings.

Definition MetadataRoleKey := "nats-consol/role".
Definition MetadataRoleDLQ := "dlq".
Definition DLQNameSuffix := "_DLQ".
Definition DefaultDLQListLimit : Z := 100.
Definition MaxDLQListLimit : Z := 500.
Definition DefaultDLQRetryAllLimit : Z := 10000.
Definition MaxDLQRetryAllLimit : Z := 10000.
Definition headerTraceID := "Trace-Id".
Definition headerContentType := "Nats-Content-Type".
Definition headerMsgID := "Nats-Msg-Id".

(** The header names of the package github.com/gopherust-io/nats/dlq. *)
Class DlqHeaders := {
  HeaderReason : string;
  HeaderOriginalSubject : string;
  HeaderStream : string;
  HeaderConsumer : string;
  HeaderSequence : string;
  HeaderNumDelivered : string;
  HeaderAutopsyError : string;
  HeaderAutopsyHash : string;
  HeaderAutopsyStack : string;
}.

Inductive dlq_error :=
  | ErrNats (e : nerr)
  | ErrNotDLQStream
  | ErrDLQMissingOriginalSub
  | ErrDLQRetryEmpty
  | ErrSeqsMustBePositive
  | ErrDecodeData
  | ErrRepublish (subject : string) (e : nerr)
  | ErrDLQRepublishedNotDeleted (seq : Z) (e : nerr).

Record DLQMessage := mkDLQ {
  dm_Headers : gmap string string;
  dm_Subject : string;
  dm_Time : string;
  dm_Data : string;
  dm_Reason : string;
  dm_OriginalSubject : string;
  dm_SourceStream : string;
  dm_Consumer : string;
  dm_AutopsyError : string;
  dm_AutopsyHash : string;
  dm_AutopsyStack : string;
  dm_Seq : Z;
  dm_SourceSeq : Z;
  dm_NumDelivered : Z;
}.

Record DLQListResult := mkDLQList {
  dl_NextSeq : option Z;
  dl_Messages : list DLQMessage;
  dl_Truncated : bool;
}.

Record DLQRetryRequest := {
  dr_Seqs : list Z;
  dr_Limit : Z;
  dr_All : bool;
}.

Record DLQRetryResult := mkRetryResult {
  rr_Remaining : option Z;
  rr_Failed : list (Z * dlq_error);
  rr_Retried : Z;
  rr_Truncated : bool;
}.

(** * internal/domain/dlq.go *)

(** A lookup in a Go map of strings: absent is empty. *)
Definition lookup_string (m : gmap string string) (k : string) : string := default "" (m !! k).

Definition IsDLQStream (name : string) (metadata : gmap string string) : bool :=
  HasSuffix name DLQNameSuffix || (lookup_string metadata MetadataRoleKey =s MetadataRoleDLQ).

Definition NormalizeDLQListLimit (limit : Z) : Z :=
  if (limit <=? 0)%Z then DefaultDLQListLimit
  else if (MaxDLQListLimit <? limit)%Z then MaxDLQListLimit else limit.

Definition retry_Validate (r : DLQRetryRequest) : option dlq_error :=
  if dr_All r then None
  else match dr_Seqs r with
       | [] => Some ErrDLQRetryEmpty
       | seqs => if 0%Z ∈b seqs then Some ErrSeqsMustBePositive else None
       end.

Definition NormalizedLimit (r : DLQRetryRequest) : Z :=
  if (dr_Limit r <=? 0)%Z then DefaultDLQRetryAllLimit
  else if (MaxDLQRetryAllLimit <? dr_Limit r)%Z then MaxDLQRetryAllLimit else dr_Limit r.

(** A header that does not parse leaves zero. *)
Definition header_number (headers : gmap string string) (name : string) : Z :=
  let v := lookup_string headers name in
  if IsEmpty v then 0 else default 0%Z (ParseUint v).

Definition DLQMessageFromStream `{DlqHeaders} (msg : StreamMessage) : DLQMessage :=
  let h := sm_Headers msg in {|
  dm_Headers := h; dm_Subject := sm_Subject msg; dm_Time := sm_Time msg; dm_Data := sm_Data msg;
  dm_Reason := lookup_string h HeaderReason;
  dm_OriginalSubject := lookup_string h HeaderOriginalSubject;
  dm_SourceStream := lookup_string h HeaderStream;
  dm_Consumer := lookup_string h HeaderConsumer;
  dm_AutopsyError := lookup_string h HeaderAutopsyError;
  dm_AutopsyHash := lookup_string h HeaderAutopsyHash;
  dm_AutopsyStack := lookup_string h HeaderAutopsyStack;
  dm_Seq := sm_Seq msg;
  dm_SourceSeq := header_number h HeaderSequence;
  dm_NumDelivered := header_number h HeaderNumDelivered |}.

Definition retry_id (dlqStream : string) (dlqSeq : Z) : string :=
  "nats-consol-dlq-retry:" +:+ dlqStream +:+ ":" +:+ Itoa dlqSeq.

Definition RetryPublishHeaders (headers : gmap string string) (dlqStream : string) (dlqSeq : Z) :
    gmap string string :=
  let out := ∅ : gmap string string in
  let tid := lookup_string headers headerTraceID in
  let out := if negb (IsEmpty tid) then <[headerTraceID := tid]> out else out in
  let ct := lookup_string headers headerContentType in
  let out := if negb (IsEmpty ct) then <[headerContentType := ct]> out else out in
  <[headerMsgID := retry_id dlqStream dlqSeq]> out.

Definition DisplayError (m : DLQMessage) : string :=
  if negb (IsEmpty (dm_AutopsyError m)) then dm_AutopsyError m else dm_Reason m.

(** * internal/nats/dlq.go *)

Section Client.
Context `{DlqHeaders} `{NatsServer St}.

Definition ensureDLQStream (stream : string) (s : St) : result dlq_error StreamInfoRaw :=
  match ns_StreamInfo stream s with
  | Err e => Err (ErrNats e)
  | Ok info => if IsDLQStream (si_Name info) (si_Metadata info) then Ok info else Err ErrNotDLQStream
  end.

Definition ListDLQMessages (stream : string) (startSeq limit : Z) (s : St) :
    result dlq_error DLQListResult :=
  match ensureDLQStream stream s with
  | Err e => Err e
  | Ok info =>
      let limit := NormalizeDLQListLimit limit in
      if (si_Msgs info =? 0)%Z || (si_LastSeq info =? 0)%Z then Ok (mkDLQList None [] false)
      else
        let startSeq := if (startSeq =? 0)%Z || (startSeq <? si_FirstSeq info)%Z
                        then si_FirstSeq info else startSeq in
        if (si_LastSeq info <? startSeq)%Z then Ok (mkDLQList None [] false)
        else match GetMessageRange stream startSeq (si_LastSeq info) limit s with
        | Err e => Err (ErrNats e)
        | Ok (messages, truncated) =>
            let out := DLQMessageFromStream <$> messages in
            let lastSeq := match last messages with Some msg => sm_Seq msg | None => 0%Z end in
            let moreRemain := (0 <? lastSeq)%Z && (lastSeq <? si_LastSeq info)%Z in
            let fullPage := (limit <=? Z.of_nat (length messages))%Z in
            if moreRemain && (truncated || fullPage)
            then Ok (mkDLQList (Some (u64 (lastSeq + 1))) out true)
            else Ok (mkDLQList None out truncated)
        end
  end.

(** The loop of [collectDLQRetryAllSequences]; [None]: out of fuel. *)
Fixpoint collect_loop (fuel : nat) (stream : string) (info : StreamInfoRaw) (safetyMax : Z)
    (startSeq : Z) (sequences : list Z) (s : St) :
    option (result dlq_error (list Z * bool * option Z)) :=
  if (Z.of_nat (length sequences) <? safetyMax)%Z then
    match fuel with
    | 0 => None
    | S fuel =>
        let left := (safetyMax - Z.of_nat (length sequences))%Z in
        let pageLimit := if (left <? MaxDLQListLimit)%Z then left else MaxDLQListLimit in
        match ListDLQMessages stream startSeq pageLimit s with
        | Err e => Some (Err e)
        | Ok listed =>
            match dl_Messages listed with
            | [] => Some (Ok (sequences, false, None))
            | messages =>
                let sequences := sequences ++ map dm_Seq messages in
                match dl_NextSeq listed with
                | None => Some (Ok (sequences, false, None))
                | Some next =>
                    if (safetyMax <=? Z.of_nat (length sequences))%Z then
                      let left := if (si_Msgs info <=? max_int64)%Z
                                  then Z.max (si_Msgs info - Z.of_nat (length sequences)) 0 else 0%Z in
                      Some (Ok (sequences, true, Some left))
                    else collect_loop fuel stream info safetyMax next sequences s
                end
            end
        end
    end
  else Some (Ok (sequences, false, None)).

(** Every page adds a sequence, and at most [safetyMax] are wanted. *)
Definition collectDLQRetryAllSequences (stream : string) (info : StreamInfoRaw) (safetyMax : Z) (s : St) :
    result dlq_error (list Z * bool * option Z) :=
  let safetyMax := if (safetyMax <=? 0)%Z then DefaultDLQRetryAllLimit else safetyMax in
  default (Ok ([], false, None)) (collect_loop (Z.to_nat safetyMax) stream info safetyMax 0 [] s).

Definition on_server {A} (e : nerr → dlq_error) (call : St → result nerr A * St) : M St dlq_error A :=
  λ s, match call s with (Ok a, s) => (Ok a, s) | (Err x, s) => (Err (e x), s) end.

Definition retryOneDLQMessage (stream : string) (seq : Z) : M St dlq_error unit :=
  let! raw := on_server ErrNats (λ s, (ns_GetMsg stream seq s, s)) in
  let msg := StreamMessageFromRaw raw in
  let dlqMsg := DLQMessageFromStream msg in
  let original := TrimSpace (dm_OriginalSubject dlqMsg) in
  ensure (negb (IsEmpty original)) ErrDLQMissingOriginalSub ;;
  match DecodeString (sm_Data msg) with
  | None => fail ErrDecodeData
  | Some data =>
      let headers := RetryPublishHeaders (sm_Headers msg) stream seq in
      let! _ := on_server (ErrRepublish original) (ns_PublishRaw original data headers) in
      on_server (ErrDLQRepublishedNotDeleted seq) (ns_DeleteMsg stream seq)
  end.

(** The loop over the sequences: the failures, and how many succeeded. *)
Fixpoint retry_each (stream : string) (sequences : list Z) (failed : list (Z * dlq_error))
    (retried : Z) : M St dlq_error (list (Z * dlq_error) * Z) :=
  match sequences with
  | [] => ret (failed, retried)
  | seq :: sequences =>
      let! r := attempt (retryOneDLQMessage stream seq) in
      match r with
      | Err e => retry_each stream sequences (failed ++ [(seq, e)]) retried
      | Ok _ => retry_each stream sequences failed (retried + 1)
      end
  end.

(** The sequences to retry, whether more remain, and how many. *)
Definition retry_sequences (stream : string) (req : DLQRetryRequest) (info : StreamInfoRaw) (s : St) :
    result dlq_error (list Z * bool * option Z) :=
  if dr_All req then collectDLQRetryAllSequences stream info (NormalizedLimit req) s
  else Ok (dr_Seqs req, false, None).

Definition RetryDLQMessages (stream : string) (req : DLQRetryRequest) : M St dlq_error DLQRetryResult :=
  match retry_Validate req with
  | Some e => fail e
  | None =>
      let! s := get in
      let! info := lift (ensureDLQStream stream s) in
      let! '(sequences, truncated, remaining) := lift (retry_sequences stream req info s) in
      let! '(failed, retried) := retry_each stream sequences [] 0 in
      ret (mkRetryResult remaining failed retried truncated)
  end.
End Client.

(** * A retry loses nothing *)

Lemma retry_id_inj stream p q : (0 ≤ p)%Z → (0 ≤ q)%Z → retry_id stream p = retry_id stream q → p = q.
Proof.
  unfold retry_id. intros Hp Hq E. repeat apply app_inv_l in E.
  apply (f_equal (read_digits 0)) in E.
  rewrite <- (app_nil_r (Itoa p)), <- (app_nil_r (Itoa q)), !read_digits_Itoa in E by done.
  by injection E.
Qed.

(** What is asked of the server, in order, with what was answered: [before] is the
    server at the time. *)
Inductive dlq_call (St : Type) :=
  | CallPublish (before : St) (copy : string * string * gmap string string) (acknowledged : bool)
  | CallDelete (stream : string) (q : Z) (deleted : bool).
Arguments CallPublish {St}.
Arguments CallDelete {St}.

Section Retry.
Context `{DlqHeaders} `{NatsServer St} (stream : string).

(** The server with a log of the calls that change it. *)
#[local] Instance logged : NatsServer (St * list (dlq_call St)) := {|
  ns_StreamInfo name s := ns_StreamInfo name s.1;
  ns_GetMsg name q s := ns_GetMsg name q s.1;
  ns_GetNextMsgAfter name q s := ns_GetNextMsgAfter name q s.1;
  ns_GetMsgRange name a b limit s := ns_GetMsgRange name a b limit s.1;
  ns_DeleteMsg name q s :=
    let '(r, s') := ns_DeleteMsg name q s.1 in (r, (s', s.2 ++ [CallDelete name q (is_Ok r)]));
  ns_PublishRaw subject data headers s :=
    let '(r, s') := ns_PublishRaw subject data headers s.1 in
    (r, (s', s.2 ++ [CallPublish s.1 (subject, data, headers) (is_Ok r)]));
  ns_FormatTime := ns_FormatTime;
|}.
Abbreviation LM := (M (St * list (dlq_call St)) dlq_error).

(** The message of sequence [q] as it is published again. *)
Definition copy_of (q : Z) (m : RawStreamMsg) : string * string * gmap string string :=
  let h := first_values (raw_Header m) in
  (TrimSpace (lookup_string h HeaderOriginalSubject), raw_Data m, RetryPublishHeaders h stream q).

(** The calls for the message [q], with the result: its copy is published, and when
    that was acknowledged it is deleted. *)
Inductive one_retry (q : Z) : list (dlq_call St) → result dlq_error unit → Prop :=
  | retry_nothing e : one_retry q [] (Err e)
  | retry_refused before m e : ns_GetMsg stream q before = Ok m →
      one_retry q [CallPublish before (copy_of q m) false] (Err e)
  | retry_deleted before m deleted r : ns_GetMsg stream q before = Ok m → is_Ok r = deleted →
      one_retry q [CallPublish before (copy_of q m) true; CallDelete stream q deleted] r.
Inductive retries : list Z → list (dlq_call St) → list (Z * dlq_error) → Prop :=
  | retries_nil : retries [] [] []
  | retries_ok q seqs l ls failed : one_retry q l (Ok tt) → retries seqs ls failed → retries (q :: seqs) (l ++ ls) failed
  | retries_failed q seqs l ls e failed : one_retry q l (Err e) → retries seqs ls failed → retries (q :: seqs) (l ++ ls) ((q, e) :: failed).

Lemma retryOne_spec q s log : ∃ l, let '(r, (s', log')) := retryOneDLQMessage stream q (s, log) : result _ _ * (St * list (dlq_call St)) in
  log' = log ++ l ∧ one_retry q l r ∧ retryOneDLQMessage stream q s = (r, s').
Proof.
  unfold retryOneDLQMessage, bind, on_server, ensure, ret, fail. cbn [ns_GetMsg logged fst].
  destruct (ns_GetMsg stream q s) as [m|e] eqn:Eg; [|exists []; rewrite (right_id_L [] (++)); by split_and!; [|constructor|]].
  set (original := TrimSpace _). destruct (negb (IsEmpty original)); [|exists []; rewrite (right_id_L [] (++)); by split_and!; [|constructor|]].
  cbn [sm_Data StreamMessageFromRaw]. rewrite DecodeString_encode. cbn [ns_PublishRaw logged fst snd].
  destruct (ns_PublishRaw _ _ _ s) as [[a|e] s1] eqn:Ep.
  2: { eexists. split_and!; [done| |done]. by eapply retry_refused. }
  cbn [ns_DeleteMsg logged fst snd is_Ok]. destruct (ns_DeleteMsg stream q s1) as [[[]|e] s2] eqn:Ed.
  all: eexists; split_and!; [by rewrite <- (assoc_L (++))| |done]; by eapply retry_deleted.
Qed.

Lemma retry_each_spec seqs : ∀ failed n s log, ∃ l more,
  let '(r, (s', log')) := retry_each stream seqs failed n (s, log) : result _ _ * (St * list (dlq_call St)) in
  log' = log ++ l ∧ retries seqs l more ∧ r = Ok (failed ++ more, (n + Z.of_nat (length seqs) - Z.of_nat (length more))%Z) ∧
  retry_each stream seqs failed n s = (r, s').
Proof.
  induction seqs as [|q seqs IH]; intros failed n s log; cbn [retry_each].
  { exists [], []. unfold ret. rewrite !(right_id_L [] (++)). split_and!; [done|constructor|do 2 f_equal; cbn; lia|do 3 f_equal; cbn; lia]. }
  unfold bind, attempt. destruct (retryOne_spec q s log) as [l1 H1].
  destruct (retryOneDLQMessage stream q (s, log)) as [ro [s1 log1]]. destruct H1 as (-> & H1 & ->). destruct ro as [[]|e].
  - destruct (IH failed (n + 1)%Z s1 (log ++ l1)) as (l & more & H2). destruct (retry_each stream seqs failed (n + 1) (s1, log ++ l1)) as [r [s' log']].
    destruct H2 as (-> & H2 & -> & H3). exists (l1 ++ l), more. rewrite <- (assoc_L (++)). split_and!; [done|by constructor|do 2 f_equal; cbn; lia|by rewrite H3].
  - destruct (IH (failed ++ [(q, e)]) n s1 (log ++ l1)) as (l & more & H2). destruct (retry_each stream seqs (failed ++ [(q, e)]) n (s1, log ++ l1)) as [r [s' log']].
    destruct H2 as (-> & H2 & -> & H3). exists (l1 ++ l), ((q, e) :: more). rewrite <- !(assoc_L (++)).
    rewrite <- (assoc_L (++)) in H3. split_and!; [done|by apply retries_failed| |exact H3]. cbn [app length]. do 2 f_equal. lia.
Qed.
Lemma retry_sequences_logged req s log info :
  retry_sequences stream req info (s, log : list (dlq_call St)) = retry_sequences stream req info s.
Proof.
  unfold retry_sequences, collectDLQRetryAllSequences. destruct (dr_All req); [|done]. set (n := if (_ <=? _)%Z then _ else _).
  assert (Hloop : ∀ fuel start seqs, collect_loop fuel stream info n start seqs (s, log) = collect_loop fuel stream info n start seqs s).
  { induction fuel as [|fuel IH]; intros start seqs; cbn [collect_loop]; [done|].
    change (ListDLQMessages stream start ?p (s, log)) with (ListDLQMessages stream start p s).
    destruct (_ <? _)%Z; [|done]. destruct (ListDLQMessages _ _ _ s) as [listed|e]; [|done].
    destruct (dl_Messages listed); [done|]. destruct (dl_NextSeq listed); [|done]. destruct (n <=? _)%Z; [done|]. apply IH. }
  by rewrite Hloop.
Qed.
(** Every delete of a run follows the acknowledged publish of what it deletes. *)
Lemma retries_deletes seqs l failed : retries seqs l failed → ∀ l1 name q deleted l2, l = l1 ++ CallDelete name q deleted :: l2 →
  name = stream ∧ q ∈ seqs ∧ ∃ l0 before m, l1 = l0 ++ [CallPublish before (copy_of q m) true] ∧ ns_GetMsg stream q before = Ok m.
Proof.
  assert (Hone : ∀ q l r, one_retry q l r → ∀ l1 name p deleted l2, l = l1 ++ CallDelete name p deleted :: l2 →
    name = stream ∧ p = q ∧ ∃ before m, l1 = [CallPublish before (copy_of q m) true] ∧ ns_GetMsg stream q before = Ok m).
  { intros q l' r Hr l1 name p deleted l2 E. destruct Hr as [e|before m e Hm|before m ok r Hm Hok].
    - by destruct l1.
    - destruct l1 as [|? [|? ?]]; cbn in E; congruence.
    - destruct l1 as [|c [|d [|? ?]]]; cbn in E; try congruence. injection E as <- <- <- <- <-. split_and!; [done..|]. by exists before, m. }
  assert (Happ : ∀ q l ls r seqs, one_retry q l r →
    (∀ l1 name p deleted l2, ls = l1 ++ CallDelete name p deleted :: l2 → name = stream ∧ p ∈ seqs ∧
       ∃ l0 before m, l1 = l0 ++ [CallPublish before (copy_of p m) true] ∧ ns_GetMsg stream p before = Ok m) →
    ∀ l1 name p deleted l2, l ++ ls = l1 ++ CallDelete name p deleted :: l2 → name = stream ∧ p ∈ q :: seqs ∧
       ∃ l0 before m, l1 = l0 ++ [CallPublish before (copy_of p m) true] ∧ ns_GetMsg stream p before = Ok m).
  { intros q l' ls r seqs' Hq IH l1 name p deleted l2 E. apply app_eq_inv in E as [(k & -> & E)|(k & -> & E)].
    - destruct k as [|c k].
      + destruct (IH [] name p deleted l2) as (? & ? & l0 & before & m & E' & Hm); [by rewrite E|]. by destruct l0.
      + injection E as <- ->. destruct (Hone _ _ _ Hq l1 name p deleted k) as (? & -> & before & m & -> & Hm); [done|].
        split_and!; [done|by left|]. by exists [], before, m.
    - destruct (IH k name p deleted l2 E) as (? & ? & l0 & before & m & -> & Hm). split_and!; [done|by right|].
      exists (l' ++ l0), before, m. by rewrite (assoc_L (++)). }
  induction 1 as [|q seqs l ls failed Hq Hs IH|q seqs l ls e failed Hq Hs IH]; [by intros []|eapply Happ; done..].
Qed.
Lemma retries_counted seqs l failed : retries seqs l failed → length failed ≤ length seqs.
Proof. induction 1; cbn; lia. Qed.
Lemma retries_done seqs l failed : retries seqs l failed → ∀ q, q ∈ seqs → q ∉ failed.*1 → CallDelete stream q true ∈ l.
Proof.
  induction 1 as [|q seqs l ls failed Hq _ IH|q seqs l ls e failed Hq _ IH]; intros p Hp Hf; [by apply elem_of_nil in Hp| |].
  - apply elem_of_app. apply elem_of_cons in Hp as [->|Hp]; [left|right; by apply IH].
    inversion Hq; subst. right. by left.
  - rewrite fmap_cons in Hf. apply not_elem_of_cons in Hf as [Hne Hf]. apply elem_of_app. right.
    apply elem_of_cons in Hp as [->|Hp]; [done|by apply IH].
Qed.

(** C18. A retry of dead letters deletes nothing that was not published again: whatever
    the server answers and whatever fails on the way, each delete comes directly after
    the acknowledged publish of that very message, as the server had it, on its original
    subject with its data and under an identifier of its own.  Only the messages asked
    for (or, of a retry of all, those the pages hold) are deleted, and each that is not
    reported as failed is; a refused request asks nothing of the server.  (What an
    acknowledgement is worth is the server's: a copy may come back to a queue that
    listens on the original subject, which the program does not exclude.) *)
Theorem retry_deletes_what_was_acknowledged (req : DLQRetryRequest) (s : St) :
  let run : result dlq_error DLQRetryResult * (St * list (dlq_call St)) := RetryDLQMessages stream req (s, []) in
  let log := run.2.2 in
  RetryDLQMessages stream req s = (run.1, run.2.1) ∧
  (∀ l1 name q deleted l2, log = l1 ++ CallDelete name q deleted :: l2 → name = stream ∧
     ∃ l0 before m, l1 = l0 ++ [CallPublish before (copy_of q m) true] ∧ ns_GetMsg stream q before = Ok m) ∧
  (∀ p q m m', (0 ≤ p)%Z → (0 ≤ q)%Z → copy_of p m = copy_of q m' → p = q) ∧
  match run.1 with
  | Err _ => log = []
  | Ok res => ∃ seqs info, ensureDLQStream stream s = Ok info ∧
      retry_sequences stream req info s = Ok (seqs, rr_Truncated res, rr_Remaining res) ∧
      (rr_Retried res + Z.of_nat (length (rr_Failed res)) = Z.of_nat (length seqs))%Z ∧
      (∀ name q deleted, CallDelete name q deleted ∈ log → q ∈ seqs) ∧
      (∀ q, q ∈ seqs → q ∉ (rr_Failed res).*1 → CallDelete stream q true ∈ log)
  end.
Proof.
  assert (∀ p q m m', (0 ≤ p)%Z → (0 ≤ q)%Z → copy_of p m = copy_of q m' → p = q) as Hinj.
  { intros p q m m' Hp Hq Hc. injection Hc as _ _ Hh.
    apply (f_equal (λ h : gmap string string, h !! headerMsgID)) in Hh.
    unfold RetryPublishHeaders in Hh. rewrite !lookup_insert_eq in Hh.
    apply (inj Some) in Hh. by apply retry_id_inj in Hh. }
  pose proof (retry_sequences_logged req s []) as Hseqs. unfold RetryDLQMessages. destruct (retry_Validate req) as [e|]; [cbn; split_and!; [done|by intros []|done|done]|].
  unfold bind, get, lift. change (ensureDLQStream stream (s, [] : list (dlq_call St))) with (ensureDLQStream stream s).
  destruct (ensureDLQStream stream s) as [info|e] eqn:Ei; [|cbn; split_and!; [done|by intros []|done|done]].
  rewrite Hseqs. destruct (retry_sequences stream req info s) as [[[seqs tr] rem]|e] eqn:Es; [|cbn; split_and!; [done|by intros []|done|done]].
  destruct (retry_each_spec seqs [] 0 s []) as (l & more & H1). destruct (retry_each stream seqs [] 0 (s, [])) as [r [s' log]].
  destruct H1 as (-> & Hl & -> & ->). cbn [fst snd ret]. unfold ret. cbn [fst snd app].
  split_and!; [done| |done|].
  - intros l1 name q deleted l2 E. destruct (retries_deletes _ _ _ Hl _ _ _ _ _ E) as (? & _ & ?). done.
  - exists seqs, info. cbn [rr_Retried rr_Failed rr_Truncated rr_Remaining]. split_and!; [done..| | |].
    + pose proof (retries_counted _ _ _ Hl). lia.
    + intros name q deleted (l1 & l2 & E)%list_elem_of_split. by destruct (retries_deletes _ _ _ Hl _ _ _ _ _ E) as (_ & ? & _).
    + by apply retries_done.
Qed.
End Retry.
(** * The pages of a queue *)

Section Paging.
Context `{DlqHeaders} `{NatsServer St} (stream : string) (s : St) (rows : gmap Z RawStreamMsg).
Context (info : StreamInfoRaw).

(** The queue as the server reports it, and pages of it in order. *)
Record queue_laws : Prop := {
  law_info : ns_StreamInfo stream s = Ok info;
  law_dlq : IsDLQStream (si_Name info) (si_Metadata info) = true;
  law_msgs : si_Msgs info = Z.of_nat (size rows);
  law_last : (si_LastSeq info ≤ max_uint64)%Z;
  law_rows : ∀ q m, rows !! q = Some m →
    raw_Sequence m = q ∧ (0 < q)%Z ∧ (si_FirstSeq info ≤ q ≤ si_LastSeq info)%Z;
  law_range : ∀ a b limit, (0 < limit)%Z → ns_GetMsgRange stream a b limit s =
    Ok (Some <$> take (Z.to_nat limit) (rows_between a b rows),
        bool_decide (Z.to_nat limit < length (rows_between a b rows)));
}.
Context (laws : queue_laws).

Abbreviation LastSeq := (si_LastSeq info).

Lemma rows_between_seqs a b : raw_Sequence <$> rows_between a b rows = keys_between a b rows.
Proof.
  unfold rows_between.
  assert (∀ q, q ∈ keys_between a b rows → ∃ m, rows !! q = Some m ∧ raw_Sequence m = q) as Hk.
  { intros q [_ [m Hm]]%keys_between_elem. exists m. split; [done|]. by apply (law_rows laws) in Hm as [? _]. }
  induction (keys_between a b rows) as [|q l IH]; [done|]. cbn.
  destruct (Hk q) as (m & -> & Em); [by left|]. cbn. rewrite Em, IH; [done|].
  intros p Hp. apply Hk. by right.
Qed.
Lemma rows_between_length a b : length (rows_between a b rows) = length (keys_between a b rows).
Proof. by rewrite <- rows_between_seqs, length_fmap. Qed.

Lemma converted_seqs l :
  map dm_Seq (DLQMessageFromStream <$> storedRangeToDomain (Some <$> l)) = raw_Sequence <$> l.
Proof. unfold storedRangeToDomain. induction l as [|m l IH]; [done|]. cbn. by rewrite <- IH. Qed.

Lemma keys_none_above a : (LastSeq < a)%Z → keys_between a LastSeq rows = [].
Proof.
  intros Ha. apply list_nil_subseteq. intros q [Hq _]%keys_between_elem. lia.
Qed.

(** The first key a page starts from. *)
Definition page_start (startSeq : Z) : Z :=
  if (startSeq =? 0)%Z || (startSeq <? si_FirstSeq info)%Z then si_FirstSeq info else startSeq.

(** [listed] is the page of the first [p] of [ks], and says where the rest begins. *)
Definition page_of (p : Z) (ks : list Z) (listed : DLQListResult) : Prop :=
  map dm_Seq (dl_Messages listed) = take (Z.to_nat p) ks ∧
  match dl_NextSeq listed with
  | None => drop (Z.to_nat p) ks = []
  | Some next => (0 ≤ next)%Z ∧ keys_between (page_start next) LastSeq rows = drop (Z.to_nat p) ks
  end.
Lemma page_empty p ks : ks = [] → page_of p ks (mkDLQList None [] false).
Proof. intros ->. unfold page_of. by rewrite take_nil, drop_nil. Qed.

Lemma last_converted l : match last (storedRangeToDomain (Some <$> l)) with
  | Some msg => sm_Seq msg | None => 0%Z end = default 0%Z (last (raw_Sequence <$> l)).
Proof.
  rewrite fmap_last. unfold storedRangeToDomain.
  replace (omap (fmap StreamMessageFromRaw) (Some <$> l)) with (StreamMessageFromRaw <$> l)
    by (induction l as [|m l IH]; [done|]; cbn; by rewrite IH).
  rewrite fmap_last. by destruct (last l).
Qed.
Lemma length_converted l : length (storedRangeToDomain (Some <$> l)) = length l.
Proof. unfold storedRangeToDomain. induction l as [|m l IH]; [done|]. cbn. by rewrite IH. Qed.

(** The page that stops at [x]. *)
Lemma page_next a p ks x l : (0 < p)%Z → keys_between a LastSeq rows = ks →
  take (Z.to_nat p) ks = l ++ [x] →
  (0 < x ≤ LastSeq)%Z ∧
  keys_between (x + 1) LastSeq rows = drop (Z.to_nat p) ks ∧ page_start (x + 1) = (x + 1)%Z.
Proof.
  intros Hp Hks Htake.
  assert (x ∈ keys_between a LastSeq rows) as [_ [m Hm]]%keys_between_elem.
  { rewrite Hks, <- (take_drop (Z.to_nat p) ks), Htake, !elem_of_app, list_elem_of_singleton. auto. }
  apply (law_rows laws) in Hm as (_ & ? & ?). split_and!; [lia|lia| |].
  - apply (keys_between_split a _ _ l). by rewrite Hks, <- Htake, take_drop.
  - unfold page_start. destruct (Z.eqb_spec (x + 1) 0); [lia|].
    by destruct (Z.ltb_spec (x + 1) (si_FirstSeq info)); [lia|].
Qed.

Lemma list_page startSeq p ks : (0 < p ≤ MaxDLQListLimit)%Z →
  keys_between (page_start startSeq) LastSeq rows = ks →
  ∃ listed, ListDLQMessages stream startSeq p s = Ok listed ∧ page_of p ks listed.
Proof.
  intros Hp Hks. unfold ListDLQMessages, ensureDLQStream.
  rewrite (law_info laws), (law_dlq laws). unfold NormalizeDLQListLimit.
  destruct (Z.leb_spec p 0); [lia|]. destruct (Z.ltb_spec MaxDLQListLimit p); [lia|].
  destruct ((si_Msgs info =? 0)%Z || (si_LastSeq info =? 0)%Z) eqn:E0.
  { eexists. split; [done|]. apply page_empty, list_nil_subseteq.
    rewrite <- Hks. intros q [Hq [m Hm]]%keys_between_elem.
    pose proof (law_rows laws q m Hm). apply orb_true_iff in E0 as [E0|E0]; [|lia].
    rewrite (law_msgs laws) in E0. assert (size rows = 0) as Hz by lia.
    apply map_size_empty_inv in Hz. by rewrite Hz, lookup_empty in Hm. }
  fold (page_start startSeq). set (a := page_start startSeq) in *.
  destruct (Z.ltb_spec LastSeq a).
  { eexists. split; [done|]. apply page_empty. rewrite <- Hks. by apply keys_none_above. }
  unfold GetMessageRange. rewrite (proj2 (Z.ltb_lt 0 p)) by lia. rewrite (law_range laws) by lia.
  rewrite last_converted, length_converted, length_take, rows_between_length, fmap_take,
    rows_between_seqs, Hks.
  set (msgs := storedRangeToDomain _).
  assert (map dm_Seq (DLQMessageFromStream <$> msgs) = take (Z.to_nat p) ks) as Hmsgs.
  { unfold msgs. by rewrite converted_seqs, fmap_take, rows_between_seqs, Hks. }
  assert (Z.to_nat p < length ks ∨ drop (Z.to_nat p) ks = []) as Hrest.
  { destruct (decide (Z.to_nat p < length ks)); [by left|right]. apply drop_ge. lia. }
  destruct (last (take (Z.to_nat p) ks)) as [x|] eqn:Hlast; cbn [default]; unfold id.
  - apply last_Some in Hlast as [l Hl].
    destruct (page_next a p ks x l ltac:(lia) Hks Hl) as (Hx & Hdrop & Hst).
    match goal with |- context [if ?b then Ok (mkDLQList (Some _) _ _) else _] => destruct b eqn:Emore end;
      (eexists; split; [done|]; split; [exact Hmsgs|]; cbn).
    + go_bool. rewrite u64_id by (pose proof (law_last laws); unfold is_u64; lia).
      rewrite Hst. split; [lia|done].
    + destruct (Z.ltb_spec x LastSeq) as [Hlt|Hge].
      * rewrite (proj2 (Z.ltb_lt 0 x)) in Emore by lia. cbn in Emore.
        apply orb_false_iff in Emore as [Et%bool_decide_eq_false_1 _]. by destruct Hrest.
      * rewrite <- Hdrop. apply keys_none_above. lia.
  - apply last_None in Hlast. cbn. eexists. split; [done|]. split; [exact Hmsgs|].
    destruct ks as [|k ks]; [by rewrite drop_nil|].
    destruct (Z.to_nat p) eqn:Ep; [lia|done].
Qed.

(** All sequences of the queue, in order. *)
Definition all_seqs : list Z := keys_between (si_FirstSeq info) LastSeq rows.

Lemma all_seqs_size : Z.of_nat (length all_seqs) = si_Msgs info.
Proof.
  rewrite (law_msgs laws). f_equal. unfold all_seqs, keys_between.
  rewrite merge_sort_Permutation, <- size_dom.
  change (size (filter (λ q, (si_FirstSeq info ≤ q ≤ LastSeq)%Z) (dom rows)) = size (dom rows)).
  f_equal. apply set_eq. intros q.
  rewrite elem_of_filter, elem_of_dom. split; [tauto|]. intros [m Hm]. split; [|by exists m].
  by apply (law_rows laws) in Hm as (_ & _ & ?).
Qed.

Definition collected (n : Z) (r : option (result dlq_error (list Z * bool * option Z))) : Prop :=
  ∃ truncated remaining, r = Some (Ok (take (Z.to_nat n) all_seqs, truncated, remaining)) ∧
    if truncated : bool
    then (n ≤ Z.of_nat (length all_seqs))%Z ∧
         ((si_Msgs info ≤ max_int64)%Z → remaining = Some (Z.of_nat (length all_seqs) - n)%Z)
    else (Z.of_nat (length all_seqs) ≤ n)%Z ∧ remaining = None.

Lemma collect_loop_spec n fuel : (0 < n)%Z → ∀ k startSeq,
  (Z.to_nat n ≤ k + fuel) → (k < Z.to_nat n) → k ≤ length all_seqs →
  keys_between (page_start startSeq) LastSeq rows = drop k all_seqs →
  collected n (collect_loop fuel stream info n startSeq (take k all_seqs) s).
Proof.
  intros Hn. induction fuel as [|fuel IH]; intros k startSeq Hfuel Hk Hlen Hks; [lia|].
  cbn [collect_loop]. rewrite length_take_le by done.
  destruct (Z.ltb_spec (Z.of_nat k) n) as [_|]; [|lia].
  set (p := if (n - Z.of_nat k <? MaxDLQListLimit)%Z then _ else _).
  assert (0 < p ≤ MaxDLQListLimit ∧ p ≤ n - Z.of_nat k)%Z as [Hp Hpn].
  { unfold p. destruct (Z.ltb_spec (n - Z.of_nat k) MaxDLQListLimit); unfold MaxDLQListLimit in *; lia. }
  clearbody p. destruct (list_page startSeq p _ Hp Hks) as (listed & -> & Hmsgs & Hnext).
  rewrite drop_drop in Hnext.
  assert (take k all_seqs ++ map dm_Seq (dl_Messages listed) = take (k + Z.to_nat p) all_seqs) as Hacc.
  { by rewrite Hmsgs, take_take_drop. }
  assert (length all_seqs ≤ k + Z.to_nat p → ∀ j, length all_seqs ≤ j →
    collected n (Some (Ok (take j all_seqs, false, None)))) as Hend.
  { intros Hd j Hj. exists false, None. split; [|split; [lia|done]].
    by rewrite !take_ge by lia. }
  destruct (dl_Messages listed) as [|m ms].
  - cbn in Hmsgs. symmetry in Hmsgs. apply (f_equal length) in Hmsgs.
    rewrite length_take, length_drop in Hmsgs. cbn in Hmsgs. apply Hend; lia.
  - assert (k < length all_seqs) as Hmore.
    { apply (f_equal length) in Hmsgs. rewrite length_take, length_drop in Hmsgs. cbn in Hmsgs. lia. }
    rewrite Hacc. destruct (dl_NextSeq listed) as [next|];
      [|apply drop_nil_inv in Hnext; apply Hend; lia].
    destruct Hnext as [_ Hnext]. rewrite length_take. destruct (Z.leb_spec n (Z.of_nat ((k + Z.to_nat p) `min` length all_seqs))).
    + assert (Z.to_nat n = k + Z.to_nat p) as En by lia.
      exists true. eexists. split; [by rewrite En|]. split; [lia|]. intros Hmax.
      rewrite (proj2 (Z.leb_le _ _) Hmax). f_equal. rewrite <- all_seqs_size. lia.
    + replace (take (k + Z.to_nat p) all_seqs) with (take ((k + Z.to_nat p) `min` length all_seqs) all_seqs).
      2: { destruct (decide (k + Z.to_nat p ≤ length all_seqs)); [f_equal; lia|].
           rewrite !take_ge by lia. done. }
      apply IH; [lia..|]. rewrite Hnext.
      destruct (decide (k + Z.to_nat p ≤ length all_seqs)); [f_equal; lia|].
      rewrite !drop_ge by lia. done.
Qed.

(** Collecting the dead letters of a queue for a retry of all takes its pages
    to the end: the sequences found are the first [safetyMax] of the queue, in
    order and without repetition or omission across the pages; the loop ends
    within its fuel; and when it stops early it says so, with the number left. *)
Theorem collect_takes_all (safetyMax : Z) :
  let n := if (safetyMax <=? 0)%Z then DefaultDLQRetryAllLimit else safetyMax in
  collect_loop (Z.to_nat n) stream info n 0 [] s ≠ None ∧
  ∃ truncated remaining,
    collectDLQRetryAllSequences stream info safetyMax s =
      Ok (take (Z.to_nat n) all_seqs, truncated, remaining) ∧
    (n < Z.of_nat (length all_seqs) → truncated = true)%Z ∧
    (truncated = false → (Z.of_nat (length all_seqs) ≤ n)%Z ∧ remaining = None) ∧
    (truncated = true → (si_Msgs info ≤ max_int64)%Z →
       remaining = Some (Z.of_nat (length all_seqs) - n)%Z).
Proof.
  intros n. assert (0 < n)%Z as Hn.
  { unfold n, DefaultDLQRetryAllLimit. destruct (Z.leb_spec safetyMax 0); lia. }
  destruct (collect_loop_spec n (Z.to_nat n) Hn 0 0) as (tr & rem & Hl & Ht); [lia..| |].
  { unfold page_start, all_seqs. cbn. done. }
  unfold collectDLQRetryAllSequences. fold n. change (take 0 all_seqs) with (@nil Z) in Hl. rewrite Hl. split; [done|].
  exists tr, rem. split; [done|]. destruct tr; [|destruct Ht]; split_and!; intros; try done; try lia.
  by apply Ht.
Qed.
End Paging.

(** * A queue in memory *)

#[local] Instance example_headers : DlqHeaders := {|
  HeaderReason := "X-NATS-Reason"; HeaderOriginalSubject := "X-NATS-Original-Subject";
  HeaderStream := "X-NATS-Stream"; HeaderConsumer := "X-NATS-Consumer";
  HeaderSequence := "X-NATS-Sequence"; HeaderNumDelivered := "X-NATS-Num-Delivered";
  HeaderAutopsyError := "X-NATS-Error"; HeaderAutopsyHash := "X-NATS-Hash";
  HeaderAutopsyStack := "X-NATS-Stack" |}.

Definition from_orders : gmap string (list string) := {["X-NATS-Original-Subject" := ["orders.new"]]}.
(** Two dead letters, and one whose subject is not known. *)
Definition dead : memory := one_stream (mkInfo "O_DLQ" ∅ [] 3 2 5)
  [row 2 "dlq" "one" from_orders; row 3 "dlq" "two" ∅; row 5 "dlq" "three" from_orders].

Definition retry_all : DLQRetryRequest := {| dr_Seqs := []; dr_Limit := 0; dr_All := true |}.

(** The dead letter whose subject is unknown stays; the other two go out again and
    only then leave the queue. *)
Example retry_of_three :
  let r := RetryDLQMessages "O_DLQ" retry_all dead in
  r.1 = Ok (mkRetryResult None [(3%Z, ErrDLQMissingOriginalSub)] 2 false) ∧
  length (mem_published r.2) = 2 ∧ size (rows_of "O_DLQ" r.2) = 1.
Proof. vm_compute. done. Qed.

Lemma memory_queue_laws : queue_laws "O_DLQ" dead (rows_of "O_DLQ" dead) (mkInfo "O_DLQ" ∅ [] 3 2 5).
Proof.
  split; [by vm_compute..|vm_compute; discriminate| | ].
  - intros q m Hin.
    change (rows_of "O_DLQ" dead) with
      (keyed [row 2 "dlq" "one" from_orders; row 3 "dlq" "two" ∅; row 5 "dlq" "three" from_orders]) in Hin.
    apply elem_of_list_to_map_2 in Hin. cbn in Hin. rewrite !elem_of_cons in Hin.
    destruct Hin as [[= -> ->]|[[= -> ->]|[[= -> ->]|Hin]]]; [cbn; lia..|by apply elem_of_nil in Hin].
  - intros a b limit Hl. unfold ns_GetMsgRange, memory_server, mem_GetMsgRange.
    rewrite (proj2 (Z.ltb_lt 0 limit)) by lia. do 2 f_equal.
    apply bool_eq_iff. rewrite bool_decide_eq_true. apply Nat.ltb_lt.
Qed.

Example collect_takes_all_witness :
  collectDLQRetryAllSequences "O_DLQ" (mkInfo "O_DLQ" ∅ [] 3 2 5) 2 dead = Ok ([2; 3]%Z, true, Some 1%Z) ∧
  collect_loop 2 "O_DLQ" (mkInfo "O_DLQ" ∅ [] 3 2 5) 2 0 [] dead ≠ None.
Proof.
  split; [vm_compute; reflexivity|].
  exact (proj1 (collect_takes_all "O_DLQ" dead (rows_of "O_DLQ" dead) (mkInfo "O_DLQ" ∅ [] 3 2 5)
    memory_queue_laws 2)).
Defined.
