(* ===== verification/Streams.v ===== *)
(** Stream and consumer configurations: what the API shows of them
    (internal/domain/jetstream.go, jetstream_nats.go, jetstream_enums.go), what it
    accepts (internal/api/jetstream/requests.go, internal/api/apikit/
    natsconfig.go), and the handlers that create and update streams.

    Structs of the library, of the domain and of the requests that have the same
    fields are one record; fields of the library's structs that the program neither
    reads nor writes are the maps [*_unread].  Durations are nanoseconds; a nil map or slice is
    the empty one, which the conversions do not tell apart. *)

From Stdlib Require Import Ascii.
From S2P Require Export Prelude Dlq.
From S2P Require Import GoStrings.

(** * Enumerations

    The constants of github.com/nats-io/nats.go the tables name, and any other
    value of the type. *)

Inductive RetentionPolicy := LimitsPolicy | InterestPolicy | WorkQueuePolicy | OtherRetention (n : Z).
Inductive StorageType := FileStorage | MemoryStorage | OtherStorage (n : Z).
Inductive DiscardPolicy := DiscardOld | DiscardNew | OtherDiscard (n : Z).
Inductive StoreCompression := NoCompression | S2Compression | OtherCompression (n : Z).
Inductive DeliverPolicy :=
  | DeliverAllPolicy | DeliverLastPolicy | DeliverNewPolicy | DeliverByStartSequencePolicy
  | DeliverByStartTimePolicy | DeliverLastPerSubjectPolicy | OtherDeliver (n : Z).
Inductive AckPolicy := AckNonePolicy | AckAllPolicy | AckExplicitPolicy | OtherAck (n : Z).
Inductive ReplayPolicy := ReplayInstantPolicy | ReplayOriginalPolicy | OtherReplay (n : Z).

(** [enumString], one function per type; a value without a name is "". *)
Definition retentionPolicyNames (v : RetentionPolicy) : string :=
  match v with
  | LimitsPolicy => "limits" | InterestPolicy => "interest" | WorkQueuePolicy => "workqueue"
  | OtherRetention _ => ""
  end.
Definition storageTypeNames (v : StorageType) : string :=
  match v with FileStorage => "file" | MemoryStorage => "memory" | OtherStorage _ => "" end.
Definition discardPolicyNames (v : DiscardPolicy) : string :=
  match v with DiscardOld => "old" | DiscardNew => "new" | OtherDiscard _ => "" end.
Definition storeCompressionNames (v : StoreCompression) : string :=
  match v with NoCompression => "none" | S2Compression => "s2" | OtherCompression _ => "" end.
Definition deliverPolicyNames (v : DeliverPolicy) : string :=
  match v with
  | DeliverAllPolicy => "all" | DeliverLastPolicy => "last" | DeliverNewPolicy => "new"
  | DeliverByStartSequencePolicy => "by_start_sequence"
  | DeliverByStartTimePolicy => "by_start_time"
  | DeliverLastPerSubjectPolicy => "last_per_subject"
  | OtherDeliver _ => ""
  end.
Definition ackPolicyNames (v : AckPolicy) : string :=
  match v with
  | AckNonePolicy => "none" | AckAllPolicy => "all" | AckExplicitPolicy => "explicit" | OtherAck _ => ""
  end.
Definition replayPolicyNames (v : ReplayPolicy) : string :=
  match v with ReplayInstantPolicy => "instant" | ReplayOriginalPolicy => "original" | OtherReplay _ => "" end.

(** What the library's [UnmarshalJSON] of each type reads, and the package time:
    [time.Parse] with the layouts RFC3339Nano and RFC3339, and the format in UTC
    with nanoseconds. *)
Class NatsLib := {
  parse_retention : string → option RetentionPolicy;
  parse_storage : string → option StorageType;
  parse_discard : string → option DiscardPolicy;
  parse_compression : string → option StoreCompression;
  parse_deliver : string → option DeliverPolicy;
  parse_ack : string → option AckPolicy;
  parse_replay : string → option ReplayPolicy;
  time_ParseNano : string → option Z;
  time_Parse : string → option Z;
  time_Format : Z → string;
}.

(** [time.Parse] with the first layout, else with the second. *)
Definition parseRFC3339 `{NatsLib} (s : string) : option Z :=
  match time_ParseNano s with Some t => Some t | None => time_Parse s end.

(** * Streams *)

Record ExternalStream := mkExternal { ex_APIPrefix : string; ex_DeliverPrefix : string }.
Record Placement := mkPlacement { pl_Cluster : string; pl_Tags : list string }.
Record SubjectTransform := mkTransform { tr_Source : string; tr_Destination : string }.
Record RePublish := mkRePublish { rp_Source : string; rp_Destination : string; rp_HeadersOnly : bool }.
Record ConsumerLimits := mkLimits { cl_InactiveThreshold : Z; cl_MaxAckPending : Z }.

(** nats.StreamSource.  [unread], here and below: whatever other fields the library's
    struct has, those that are set, by name; the program neither reads nor writes them. *)
Record StreamSource := mkSource {
  src_Name : string;
  src_FilterSubject : string;
  src_OptStartSeq : Z;
  src_OptStartTime : option Z;
  src_External : option ExternalStream;
  src_SubjectTransforms : list SubjectTransform;
  src_unread : gmap string string;
}.
(** [StreamSourceDTO] and [StreamSourceRequest]. *)
Record StreamSourceDTO := mkSourceDTO {
  sd_Name : string;
  sd_FilterSubject : string;
  sd_OptStartSeq : Z;
  sd_OptStartTime : string;
  sd_External : option ExternalStream;
}.

(** The fields that are copied as they are. *)
Record StreamBasics := mkBasics {
  sb_Name : string;
  sb_Description : string;
  sb_Subjects : list string;
  sb_MaxMsgs : Z;
  sb_MaxBytes : Z;
  sb_MaxAge : Z;
  sb_MaxConsumers : Z;
  sb_MaxMsgsPerSubject : Z;
  sb_Replicas : Z;
  sb_Duplicates : Z;
  sb_FirstSeq : Z;
  sb_SubjectDeleteMarkerTTL : Z;
  sb_Metadata : gmap string string;
}.
Record StreamFlags := mkFlags {
  sf_AllowRollup : bool;
  sf_DenyDelete : bool;
  sf_DenyPurge : bool;
  sf_DiscardNewPerSubject : bool;
  sf_NoAck : bool;
  sf_Sealed : bool;
  sf_AllowDirect : bool;
  sf_MirrorDirect : bool;
  sf_AllowMsgTTL : bool;
}.

(** nats.StreamConfig *)
Record StreamConfig := mkStream {
  sc_Basics : StreamBasics;
  sc_Flags : StreamFlags;
  sc_MaxMsgSize : Z;          (* int32 *)
  sc_Retention : RetentionPolicy;
  sc_Storage : StorageType;
  sc_Discard : DiscardPolicy;
  sc_Compression : StoreCompression;
  sc_Placement : option Placement;
  sc_Mirror : option StreamSource;
  sc_Sources : list (option StreamSource);
  sc_SubjectTransform : option SubjectTransform;
  sc_RePublish : option RePublish;
  sc_ConsumerLimits : ConsumerLimits;
  sc_unread : gmap string string;
}.

Record StreamConfigDTO := mkStreamDTO {
  dto_Basics : StreamBasics;
  dto_Flags : StreamFlags;
  dto_MaxMsgSize : Z;
  dto_Retention : string;
  dto_Storage : string;
  dto_Discard : string;
  dto_Compression : string;
  dto_Placement : option Placement;
  dto_Mirror : option StreamSourceDTO;
  dto_Sources : list StreamSourceDTO;
  dto_SubjectTransform : option SubjectTransform;
  dto_RePublish : option RePublish;
  dto_ConsumerLimits : option ConsumerLimits;
}.

Definition streamSourceFromNATS `{NatsLib} (src : StreamSource) : StreamSourceDTO := {|
  sd_Name := src_Name src; sd_FilterSubject := src_FilterSubject src;
  sd_OptStartSeq := src_OptStartSeq src;
  sd_OptStartTime := match src_OptStartTime src with Some t => time_Format t | None => "" end;
  sd_External := src_External src |}.

Definition is_set (l : ConsumerLimits) : bool :=
  (0 <? cl_InactiveThreshold l)%Z || negb (cl_MaxAckPending l =? 0)%Z.

Definition streamConfigFromNATS `{NatsLib} (cfg : StreamConfig) : StreamConfigDTO := {|
  dto_Basics := sc_Basics cfg; dto_Flags := sc_Flags cfg; dto_MaxMsgSize := sc_MaxMsgSize cfg;
  dto_Retention := retentionPolicyNames (sc_Retention cfg);
  dto_Storage := storageTypeNames (sc_Storage cfg);
  dto_Discard := discardPolicyNames (sc_Discard cfg);
  dto_Compression := storeCompressionNames (sc_Compression cfg);
  dto_Placement :=
    match sc_Placement cfg with
    | Some p => if negb (IsEmpty (pl_Cluster p)) || nonempty (pl_Tags p) then Some p else None
    | None => None
    end;
  dto_Mirror := streamSourceFromNATS <$> sc_Mirror cfg;
  dto_Sources := omap (fmap streamSourceFromNATS) (sc_Sources cfg);
  dto_SubjectTransform :=
    match sc_SubjectTransform cfg with
    | Some t => if negb (IsEmpty (tr_Destination t)) then Some t else None
    | None => None
    end;
  dto_RePublish :=
    match sc_RePublish cfg with
    | Some r => if negb (IsEmpty (rp_Destination r)) then Some r else None
    | None => None
    end;
  dto_ConsumerLimits := if is_set (sc_ConsumerLimits cfg) then Some (sc_ConsumerLimits cfg) else None |}.

(** * Consumers *)

(** The fields that are copied as they are. *)
Record ConsumerBasics := mkConsumerBasics {
  cb_Durable : string;
  cb_Name : string;
  cb_Description : string;
  cb_FilterSubject : string;
  cb_FilterSubjects : list string;
  cb_OptStartSeq : Z;
  cb_AckWait : Z;
  cb_MaxDeliver : Z;
  cb_RateLimit : Z;
  cb_SampleFrequency : string;
  cb_MaxWaiting : Z;
  cb_MaxAckPending : Z;
  cb_FlowControl : bool;
  cb_Heartbeat : Z;
  cb_HeadersOnly : bool;
  cb_MaxRequestBatch : Z;
  cb_MaxRequestExpires : Z;
  cb_MaxRequestMaxBytes : Z;
  cb_DeliverSubject : string;
  cb_DeliverGroup : string;
  cb_InactiveThreshold : Z;
  cb_Replicas : Z;
  cb_MemoryStorage : bool;
  cb_Metadata : gmap string string;
}.

(** nats.ConsumerConfig *)
Record ConsumerConfig := mkConsumer {
  cc_Basics : ConsumerBasics;
  cc_DeliverPolicy : DeliverPolicy;
  cc_AckPolicy : AckPolicy;
  cc_ReplayPolicy : ReplayPolicy;
  cc_OptStartTime : option Z;
  cc_BackOff : list Z;
  cc_unread : gmap string string;
}.
(** [ConsumerConfigDTO] and [consumerConfigRequest]. *)
Record ConsumerConfigDTO := mkConsumerDTO {
  cd_Basics : ConsumerBasics;
  cd_DeliverPolicy : string;
  cd_AckPolicy : string;
  cd_ReplayPolicy : string;
  cd_OptStartTime : string;
  cd_BackoffNs : list Z;
}.

Definition consumerConfigFromNATS `{NatsLib} (cfg : ConsumerConfig) : ConsumerConfigDTO := {|
  cd_Basics := cc_Basics cfg;
  cd_DeliverPolicy := deliverPolicyNames (cc_DeliverPolicy cfg);
  cd_AckPolicy := ackPolicyNames (cc_AckPolicy cfg);
  cd_ReplayPolicy := replayPolicyNames (cc_ReplayPolicy cfg);
  cd_OptStartTime := match cc_OptStartTime cfg with Some t => time_Format t | None => "" end;
  cd_BackoffNs := cc_BackOff cfg |}.

(** * Requests *)

Inductive config_error :=
  | ErrMaxMsgSizeRange
  | ErrMirror | ErrSource (i : nat)
  | ErrRetention | ErrStorage | ErrDiscard | ErrCompression
  | ErrDeliverPolicy | ErrAckPolicy | ErrReplayPolicy
  | ErrOptStartTime | ErrBackoff (i : nat)
  | ErrNeedStartSeq | ErrNeedStartTime
  | ErrMissing (field : string) | ErrInvalidName | ErrNameChanged.

(** Absent flags are [None]. *)
Record FlagsRequest := mkFlagsRequest {
  fr_AllowRollup : option bool;
  fr_DenyDelete : option bool;
  fr_DenyPurge : option bool;
  fr_DiscardNewPerSubject : option bool;
  fr_NoAck : option bool;
  fr_Sealed : option bool;
  fr_AllowDirect : option bool;
  fr_MirrorDirect : option bool;
  fr_AllowMsgTTL : option bool;
}.

Record streamConfigRequest := mkStreamRequest {
  sr_Basics : StreamBasics;
  sr_Flags : FlagsRequest;
  sr_MaxMsgSize : Z;   (* int64 *)
  sr_Retention : string;
  sr_Storage : string;
  sr_Discard : string;
  sr_Compression : string;
  sr_Placement : option Placement;
  sr_Mirror : option StreamSourceDTO;
  sr_Sources : list StreamSourceDTO;
  sr_SubjectTransform : option SubjectTransform;
  sr_RePublish : option RePublish;
  sr_ConsumerLimits : option ConsumerLimits;
}.

Section Requests.
Context `{NatsLib}.

Definition source_ToNATS (r : StreamSourceDTO) : option StreamSource :=
  let external :=
    match sd_External r with
    | Some e => if negb (IsEmpty (ex_APIPrefix e)) || negb (IsEmpty (ex_DeliverPrefix e))
                then Some e else None
    | None => None
    end in
  let src t := mkSource (sd_Name r) (sd_FilterSubject r) (sd_OptStartSeq r) t external [] ∅ in
  if negb (IsEmpty (TrimSpace (sd_OptStartTime r))) then
    match parseRFC3339 (sd_OptStartTime r) with
    | Some t => Some (src (Some t))
    | None => None
    end
  else Some (src None).

(** Sources with a blank name are skipped; an error names the index. *)
Fixpoint sources_ToNATS (i : nat) (sources : list StreamSourceDTO) : result config_error (list (option StreamSource)) :=
  match sources with
  | [] => Ok []
  | r :: sources =>
      if IsEmpty (TrimSpace (sd_Name r)) then sources_ToNATS (S i) sources
      else match source_ToNATS r with
      | None => Err (ErrSource i)
      | Some src =>
          match sources_ToNATS (S i) sources with
          | Ok out => Ok (Some src :: out)
          | Err e => Err e
          end
      end
  end.
Definition SourcesToNATS := sources_ToNATS 0.

Definition ToNATSPlacement (r : option Placement) : option Placement :=
  match r with
  | Some p => if IsEmpty (pl_Cluster p) && negb (nonempty (pl_Tags p)) then None else Some p
  | None => None
  end.
Definition ToNATSRePublish (r : option RePublish) : option RePublish :=
  match r with
  | Some p => if IsEmpty (rp_Destination p) then None else Some p
  | None => None
  end.

Definition flags_toNATS (f : FlagsRequest) : StreamFlags := {|
  sf_AllowRollup := default true (fr_AllowRollup f);
  sf_DenyDelete := default false (fr_DenyDelete f);
  sf_DenyPurge := default false (fr_DenyPurge f);
  sf_DiscardNewPerSubject := default false (fr_DiscardNewPerSubject f);
  sf_NoAck := default false (fr_NoAck f);
  sf_Sealed := default false (fr_Sealed f);
  sf_AllowDirect := default false (fr_AllowDirect f);
  sf_MirrorDirect := default false (fr_MirrorDirect f);
  sf_AllowMsgTTL := default false (fr_AllowMsgTTL f) |}.

(** An enumeration that is left out keeps its default. *)
Definition enum_or {E} (parse : string → option E) (s : string) (d : E) (e : config_error) :
    result config_error E :=
  if negb (IsEmpty s) then match parse s with Some v => Ok v | None => Err e end else Ok d.

Definition rbind {A B} (r : result config_error A) (k : A → result config_error B) :
    result config_error B :=
  match r with Ok a => k a | Err e => Err e end.

Definition with_replicas_subjects (replicas : Z) (subjects : list string) (b : StreamBasics) : StreamBasics :=
  mkBasics (sb_Name b) (sb_Description b) subjects (sb_MaxMsgs b) (sb_MaxBytes b) (sb_MaxAge b)
    (sb_MaxConsumers b) (sb_MaxMsgsPerSubject b) replicas (sb_Duplicates b) (sb_FirstSeq b)
    (sb_SubjectDeleteMarkerTTL b) (sb_Metadata b).

Definition min_int32 : Z := - 2 ^ 31.
Definition max_int32 : Z := 2 ^ 31 - 1.

Definition stream_toNATS (r : streamConfigRequest) : result config_error StreamConfig :=
  let replicas := if (sb_Replicas (sr_Basics r) <=? 0)%Z then 1%Z else sb_Replicas (sr_Basics r) in
  if negb (sr_MaxMsgSize r =? 0)%Z &&
     ((sr_MaxMsgSize r <? min_int32)%Z || (max_int32 <? sr_MaxMsgSize r)%Z)
  then Err ErrMaxMsgSizeRange
  else
  rbind (match sr_Mirror r with
         | Some m => if IsEmpty (sd_Name m) then Ok (None, sb_Subjects (sr_Basics r))
                     else match source_ToNATS m with
                          | Some src => Ok (Some src, [])
                          | None => Err ErrMirror
                          end
         | None => Ok (None, sb_Subjects (sr_Basics r))
         end) (λ '(mirror, subjects),
  rbind (SourcesToNATS (sr_Sources r)) (λ sources,
  rbind (enum_or parse_retention (sr_Retention r) LimitsPolicy ErrRetention) (λ retention,
  rbind (enum_or parse_storage (sr_Storage r) FileStorage ErrStorage) (λ storage,
  rbind (enum_or parse_discard (sr_Discard r) DiscardOld ErrDiscard) (λ discard,
  rbind (enum_or parse_compression (sr_Compression r) NoCompression ErrCompression) (λ compression,
  Ok {| sc_Basics := with_replicas_subjects replicas subjects (sr_Basics r);
        sc_Flags := flags_toNATS (sr_Flags r); sc_MaxMsgSize := sr_MaxMsgSize r;
        sc_Retention := retention; sc_Storage := storage; sc_Discard := discard;
        sc_Compression := compression;
        sc_Placement := ToNATSPlacement (sr_Placement r);
        sc_Mirror := mirror; sc_Sources := sources;
        sc_SubjectTransform :=
          match sr_SubjectTransform r with
          | Some t => if negb (IsEmpty (tr_Destination t)) then Some t else None
          | None => None
          end;
        sc_RePublish := ToNATSRePublish (sr_RePublish r);
        sc_ConsumerLimits :=
          match sr_ConsumerLimits r with
          | Some l => if is_set l then l else mkLimits 0 0
          | None => mkLimits 0 0
          end;
        sc_unread := ∅ |})))))).

(** The first delay that is not positive. *)
Fixpoint bad_backoff (i : nat) (l : list Z) : option nat :=
  match l with
  | [] => None
  | ns :: l => if (ns <=? 0)%Z then Some i else bad_backoff (S i) l
  end.

Definition consumer_toNATS (r : ConsumerConfigDTO) : result config_error ConsumerConfig :=
  rbind (enum_or parse_deliver (cd_DeliverPolicy r) DeliverAllPolicy ErrDeliverPolicy) (λ deliver,
  rbind (enum_or parse_ack (cd_AckPolicy r) AckNonePolicy ErrAckPolicy) (λ ack,
  rbind (enum_or parse_replay (cd_ReplayPolicy r) ReplayInstantPolicy ErrReplayPolicy) (λ replay,
  rbind (if negb (IsEmpty (TrimSpace (cd_OptStartTime r)))
         then match parseRFC3339 (cd_OptStartTime r) with
              | Some t => Ok (Some t)
              | None => Err ErrOptStartTime
              end
         else Ok None) (λ start,
  match bad_backoff 0 (cd_BackoffNs r) with
  | Some i => Err (ErrBackoff i)
  | None =>
      let cfg := mkConsumer (cd_Basics r) deliver ack replay start (cd_BackoffNs r) ∅ in
      match deliver with
      | DeliverByStartSequencePolicy =>
          if (cb_OptStartSeq (cd_Basics r) =? 0)%Z then Err ErrNeedStartSeq else Ok cfg
      | DeliverByStartTimePolicy =>
          match start with None => Err ErrNeedStartTime | Some _ => Ok cfg end
      | _ => Ok cfg
      end
  end)))).

(** * Handlers: the configuration sent to NATS, or the refusal *)

(** [apikit.ValidateResourceName]: a letter or digit, then letters, digits and
    ._-/, 256 characters in all. *)
Definition name_first (a : Ascii.ascii) : bool :=
  let n := Ascii.nat_of_ascii a in
  (Nat.leb 97 n && Nat.leb n 122) || (Nat.leb 65 n && Nat.leb n 90) || (Nat.leb 48 n && Nat.leb n 57).
Definition name_rest (a : Ascii.ascii) : bool :=
  name_first a || existsb (Ascii.eqb a) ["."; "_"; "-"; "/"]%char.
Definition ValidateResourceName (name : string) : bool :=
  match bytes_of name with
  | [] => false
  | a :: l => Nat.leb (String.length name) 256 && name_first a && forallb name_rest l
  end.

Definition with_name (name : string) (b : StreamBasics) : StreamBasics :=
  mkBasics name (sb_Description b) (sb_Subjects b) (sb_MaxMsgs b) (sb_MaxBytes b) (sb_MaxAge b)
    (sb_MaxConsumers b) (sb_MaxMsgsPerSubject b) (sb_Replicas b) (sb_Duplicates b) (sb_FirstSeq b)
    (sb_SubjectDeleteMarkerTTL b) (sb_Metadata b).
Definition request_name (name : string) (r : streamConfigRequest) : streamConfigRequest :=
  mkStreamRequest (with_name name (sr_Basics r)) (sr_Flags r) (sr_MaxMsgSize r) (sr_Retention r)
    (sr_Storage r) (sr_Discard r) (sr_Compression r) (sr_Placement r) (sr_Mirror r) (sr_Sources r)
    (sr_SubjectTransform r) (sr_RePublish r) (sr_ConsumerLimits r).

Definition CreateStream (req : streamConfigRequest) : result config_error StreamConfig :=
  let name := sb_Name (sr_Basics req) in
  if IsEmpty name then Err (ErrMissing "name")
  else if negb (ValidateResourceName name) then Err ErrInvalidName
  else stream_toNATS req.

(** [name] is the route parameter; the stream updated is the one named by the
    configuration. *)
Definition UpdateStream (name : string) (req : streamConfigRequest) : result config_error StreamConfig :=
  stream_toNATS (if IsEmpty (sb_Name (sr_Basics req)) then request_name name req else req).

Definition with_durable (name : string) (b : ConsumerBasics) : ConsumerBasics :=
  mkConsumerBasics name (cb_Name b) (cb_Description b) (cb_FilterSubject b) (cb_FilterSubjects b)
    (cb_OptStartSeq b) (cb_AckWait b) (cb_MaxDeliver b) (cb_RateLimit b) (cb_SampleFrequency b)
    (cb_MaxWaiting b) (cb_MaxAckPending b) (cb_FlowControl b) (cb_Heartbeat b) (cb_HeadersOnly b)
    (cb_MaxRequestBatch b) (cb_MaxRequestExpires b) (cb_MaxRequestMaxBytes b) (cb_DeliverSubject b)
    (cb_DeliverGroup b) (cb_InactiveThreshold b) (cb_Replicas b) (cb_MemoryStorage b) (cb_Metadata b).
Definition request_durable (name : string) (r : ConsumerConfigDTO) : ConsumerConfigDTO :=
  mkConsumerDTO (with_durable name (cd_Basics r)) (cd_DeliverPolicy r) (cd_AckPolicy r)
    (cd_ReplayPolicy r) (cd_OptStartTime r) (cd_BackoffNs r).

Definition UpdateConsumer (consumer : string) (req : ConsumerConfigDTO) : result config_error ConsumerConfig :=
  let req := if IsEmpty (cb_Durable (cd_Basics req)) then request_durable consumer req else req in
  if cb_Durable (cd_Basics req) <>s consumer then Err ErrNameChanged else consumer_toNATS req.
End Requests.

(** * Edit and save *)

(** The request a client makes of what it was shown: the same JSON fields. *)
Definition flags_request (f : StreamFlags) : FlagsRequest := mkFlagsRequest
  (Some (sf_AllowRollup f)) (Some (sf_DenyDelete f)) (Some (sf_DenyPurge f))
  (Some (sf_DiscardNewPerSubject f)) (Some (sf_NoAck f)) (Some (sf_Sealed f))
  (Some (sf_AllowDirect f)) (Some (sf_MirrorDirect f)) (Some (sf_AllowMsgTTL f)).
Definition as_request (d : StreamConfigDTO) : streamConfigRequest := mkStreamRequest
  (dto_Basics d) (flags_request (dto_Flags d)) (dto_MaxMsgSize d) (dto_Retention d) (dto_Storage d)
  (dto_Discard d) (dto_Compression d) (dto_Placement d) (dto_Mirror d) (dto_Sources d)
  (dto_SubjectTransform d) (dto_RePublish d) (dto_ConsumerLimits d).

Section RoundTrip.
Context `{NatsLib}.
#[local] Arguments TrimSpace : simpl never.
#[local] Arguments IsEmpty : simpl never.
#[local] Arguments nonempty : simpl never.

(** The times RFC 3339 can write (years 0 to 9999). *)
Context (writable : Z → Prop).

(** The library reads the names of its constants, and times it has formatted. *)
Record lib_laws : Prop := {
  ll_retention : ∀ v, retentionPolicyNames v ≠ "" → parse_retention (retentionPolicyNames v) = Some v;
  ll_storage : ∀ v, storageTypeNames v ≠ "" → parse_storage (storageTypeNames v) = Some v;
  ll_discard : ∀ v, discardPolicyNames v ≠ "" → parse_discard (discardPolicyNames v) = Some v;
  ll_compression : ∀ v, storeCompressionNames v ≠ "" → parse_compression (storeCompressionNames v) = Some v;
  ll_deliver : ∀ v, deliverPolicyNames v ≠ "" → parse_deliver (deliverPolicyNames v) = Some v;
  ll_ack : ∀ v, ackPolicyNames v ≠ "" → parse_ack (ackPolicyNames v) = Some v;
  ll_replay : ∀ v, replayPolicyNames v ≠ "" → parse_replay (replayPolicyNames v) = Some v;
  ll_time : ∀ t, writable t → TrimSpace (time_Format t) ≠ "" ∧ time_ParseNano (time_Format t) = Some t;
}.
Context (laws : lib_laws).

(** The configurations NATS reports: named constants, at least one replica, no
    empty part where a part may be absent. *)
Record source_ok (src : StreamSource) : Prop := {
  so_name : TrimSpace (src_Name src) ≠ "";
  so_time : ∀ t, src_OptStartTime src = Some t → writable t;
  so_external : ∀ e, src_External src = Some e → ex_APIPrefix e ≠ "" ∨ ex_DeliverPrefix e ≠ "";
}.
Record stream_ok (cfg : StreamConfig) : Prop := {
  ok_replicas : (0 < sb_Replicas (sc_Basics cfg))%Z;
  ok_size : (min_int32 ≤ sc_MaxMsgSize cfg ≤ max_int32)%Z;
  ok_retention : retentionPolicyNames (sc_Retention cfg) ≠ "";
  ok_storage : storageTypeNames (sc_Storage cfg) ≠ "";
  ok_discard : discardPolicyNames (sc_Discard cfg) ≠ "";
  ok_compression : storeCompressionNames (sc_Compression cfg) ≠ "";
  ok_placement : ∀ p, sc_Placement cfg = Some p → pl_Cluster p ≠ "" ∨ pl_Tags p ≠ [];
  ok_mirror : ∀ m, sc_Mirror cfg = Some m → source_ok m ∧ sb_Subjects (sc_Basics cfg) = [];
  ok_sources : ∀ o, o ∈ sc_Sources cfg → ∃ src, o = Some src ∧ source_ok src;
  ok_transform : ∀ t, sc_SubjectTransform cfg = Some t → tr_Destination t ≠ "";
  ok_republish : ∀ r, sc_RePublish cfg = Some r → rp_Destination r ≠ "";
  ok_limits : is_set (sc_ConsumerLimits cfg) = true ∨ sc_ConsumerLimits cfg = mkLimits 0 0;
}.
Record consumer_ok (cfg : ConsumerConfig) : Prop := {
  ok_deliver : deliverPolicyNames (cc_DeliverPolicy cfg) ≠ "";
  ok_ack : ackPolicyNames (cc_AckPolicy cfg) ≠ "";
  ok_replay : replayPolicyNames (cc_ReplayPolicy cfg) ≠ "";
  ok_time : ∀ t, cc_OptStartTime cfg = Some t → writable t;
  ok_backoff : Forall (λ d, (0 < d)%Z) (cc_BackOff cfg);
  ok_start_seq : cc_DeliverPolicy cfg = DeliverByStartSequencePolicy → cb_OptStartSeq (cc_Basics cfg) ≠ 0%Z;
  ok_start_time : cc_DeliverPolicy cfg = DeliverByStartTimePolicy → cc_OptStartTime cfg ≠ None;
}.

Lemma enum_or_named {E} (parse : string → option E) (name : E → string) v d e :
  (∀ v, name v ≠ "" → parse (name v) = Some v) → name v ≠ "" → enum_or parse (name v) d e = Ok v.
Proof.
  intros Hp Hn. unfold enum_or. rewrite (proj2 (IsEmpty_false _) Hn), (Hp v Hn). done.
Qed.

(** What the console shows of a configuration: all but the subject transforms of its
    sources and of its mirror, and the fields it does not read. *)
Definition shown_source (src : StreamSource) : StreamSource :=
  mkSource (src_Name src) (src_FilterSubject src) (src_OptStartSeq src) (src_OptStartTime src) (src_External src) [] ∅.
Definition shown_stream (cfg : StreamConfig) : StreamConfig :=
  mkStream (sc_Basics cfg) (sc_Flags cfg) (sc_MaxMsgSize cfg) (sc_Retention cfg) (sc_Storage cfg) (sc_Discard cfg)
    (sc_Compression cfg) (sc_Placement cfg) (shown_source <$> sc_Mirror cfg) (option_map shown_source <$> sc_Sources cfg)
    (sc_SubjectTransform cfg) (sc_RePublish cfg) (sc_ConsumerLimits cfg) ∅.
Definition shown_consumer (con : ConsumerConfig) : ConsumerConfig :=
  mkConsumer (cc_Basics con) (cc_DeliverPolicy con) (cc_AckPolicy con) (cc_ReplayPolicy con) (cc_OptStartTime con) (cc_BackOff con) ∅.

Lemma source_roundtrip src : source_ok src →
  source_ToNATS (streamSourceFromNATS src) = Some (shown_source src).
Proof.
  intros [Hn Ht He]. destruct src as [name filter seq t ext trs un]. unfold source_ToNATS. cbn in *.
  assert ((match ext with
    | Some e => if negb (IsEmpty (ex_APIPrefix e)) || negb (IsEmpty (ex_DeliverPrefix e)) then Some e else None
    | None => None end) = ext) as ->.
  { destruct ext as [e|]; [|done].
    destruct (He e eq_refl) as [E|E]; apply IsEmpty_false in E; rewrite E; [done|]. by rewrite orb_true_r. }
  destruct t as [t|]; [|reflexivity].
  destruct (ll_time laws t (Ht t eq_refl)) as [Hb Hp]. apply IsEmpty_false in Hb. rewrite Hb. cbn.
  unfold parseRFC3339. by rewrite Hp.
Qed.

Lemma sources_roundtrip l i : (∀ o, o ∈ l → ∃ src, o = Some src ∧ source_ok src) →
  sources_ToNATS i (omap (fmap streamSourceFromNATS) l) = Ok (option_map shown_source <$> l).
Proof.
  revert i. induction l as [|o l IH]; intros i Hl; [done|].
  destruct (Hl o) as (src & -> & Hsrc); [by left|]. cbn -[source_ToNATS].
  rewrite (proj2 (IsEmpty_false _) (so_name _ Hsrc)), source_roundtrip by done.
  rewrite IH; [done|]. intros o' Ho. apply Hl. by right.
Qed.

Lemma guarded_some {A} (o : option A) (ok : A → bool) : (∀ a, o = Some a → ok a = true) →
  match o with Some a => if ok a then Some a else None | None => None end = o.
Proof. intros Ho. destruct o as [a|]; [|done]. by rewrite (Ho a eq_refl). Qed.

Lemma placement_roundtrip (pl : option Placement) :
  (∀ p, pl = Some p → pl_Cluster p ≠ "" ∨ pl_Tags p ≠ []) →
  ToNATSPlacement match pl with
    | Some p => if negb (IsEmpty (pl_Cluster p)) || nonempty (pl_Tags p) then Some p else None
    | None => None end = pl.
Proof.
  intros Hp. destruct pl as [p|]; [|done].
  assert (negb (IsEmpty (pl_Cluster p)) || nonempty (pl_Tags p) = true) as E.
  { destruct (Hp p eq_refl) as [E|E]; [apply IsEmpty_false in E; by rewrite E|].
    destruct (pl_Tags p); [done|]. apply orb_true_r. }
  rewrite E. unfold ToNATSPlacement.
  destruct (IsEmpty (pl_Cluster p)), (nonempty (pl_Tags p)); done.
Qed.

Lemma transform_roundtrip (tr : option SubjectTransform) :
  (∀ t, tr = Some t → tr_Destination t ≠ "") →
  match tr with Some t => if negb (IsEmpty (tr_Destination t)) then Some t else None | None => None end = tr.
Proof.
  intros Ht. apply guarded_some. intros t E. apply Ht, IsEmpty_false in E. by rewrite E.
Qed.
Lemma republish_roundtrip (rp : option RePublish) :
  (∀ r, rp = Some r → rp_Destination r ≠ "") →
  ToNATSRePublish match rp with
    | Some r => if negb (IsEmpty (rp_Destination r)) then Some r else None | None => None end = rp.
Proof.
  intros Hr. rewrite (guarded_some rp (λ r, negb (IsEmpty (rp_Destination r)))).
  - destruct rp as [r|]; [|done]. cbn. specialize (Hr r eq_refl). apply IsEmpty_false in Hr. by rewrite Hr.
  - intros r E. apply Hr, IsEmpty_false in E. by rewrite E.
Qed.

Lemma mirror_roundtrip (mir : option StreamSource) (subjects : list string) :
  (∀ m, mir = Some m → source_ok m ∧ subjects = []) →
  match streamSourceFromNATS <$> mir with
  | Some m => if IsEmpty (sd_Name m) then Ok (None, subjects)
              else match source_ToNATS m with
                   | Some src => Ok (Some src, [])
                   | None => Err ErrMirror
                   end
  | None => Ok (None, subjects)
  end = Ok (shown_source <$> mir, subjects).
Proof.
  intros Hm. destruct mir as [m|]; [|done]. destruct (Hm m eq_refl) as [Hok ->]. cbn -[source_ToNATS].
  assert (IsEmpty (src_Name m) = false) as ->.
  { apply IsEmpty_false. intros E. by destruct (so_name _ Hok); rewrite E. }
  by rewrite source_roundtrip.
Qed.

Lemma start_roundtrip (start : option Z) (fmt := match start with Some t => time_Format t | None => "" end) :
  (∀ t, start = Some t → writable t) →
  (if negb (IsEmpty (TrimSpace fmt))
   then match parseRFC3339 fmt with Some t => Ok (Some t) | None => Err ErrOptStartTime end
   else Ok None) = Ok start.
Proof.
  intros Hs. subst fmt. destruct start as [t|]; [|reflexivity].
  destruct (ll_time laws t (Hs t eq_refl)) as [Hb Hp].
  apply IsEmpty_false in Hb. rewrite Hb. cbn. unfold parseRFC3339. by rewrite Hp.
Qed.

Lemma bad_backoff_none i l : Forall (λ d, (0 < d)%Z) l → bad_backoff i l = None.
Proof.
  intros Hl. revert i. induction Hl as [|d l Hd Hl IH]; intros i; [done|]. cbn.
  destruct (Z.leb_spec d 0); [lia|done].
Qed.

Lemma shown_source_whole src : shown_source src = src ↔ src_SubjectTransforms src = [] ∧ src_unread src = ∅.
Proof. destruct src; unfold shown_source; cbn. split; [by intros [= <- <-]|by intros [-> ->]]. Qed.
Lemma shown_sources_whole (l : list (option StreamSource)) :
  option_map shown_source <$> l = l ↔ ∀ src, Some src ∈ l → shown_source src = src.
Proof.
  induction l as [|o l IH]; [split; [by intros _ src ?%elem_of_nil|done]|]. rewrite fmap_cons. split.
  - intros [= Eo El] src [E|Hin]%elem_of_cons; [subst o; by injection Eo|by apply IH].
  - intros Hl. f_equal; [|apply IH; intros src Hin; apply Hl; by right].
    destruct o as [src|]; [|done]. cbn. f_equal. apply Hl. by left.
Qed.

(** C19. Saving a configuration as it was shown changes nothing that is shown: the
    configuration built from the request with the fields that were shown for a stream,
    or a consumer, is the one NATS had, field by field, but for the subject transforms
    of its mirror and sources and the fields the console does not read, which are unset.
    So it is the one NATS had exactly when those were not set. *)
Theorem config_roundtrip (cfg : StreamConfig) (con : ConsumerConfig) :
  stream_ok cfg → consumer_ok con →
  stream_toNATS (as_request (streamConfigFromNATS cfg)) = Ok (shown_stream cfg) ∧
  consumer_toNATS (consumerConfigFromNATS con) = Ok (shown_consumer con) ∧
  (shown_stream cfg = cfg ↔ sc_unread cfg = ∅ ∧
     ∀ src, sc_Mirror cfg = Some src ∨ Some src ∈ sc_Sources cfg → src_SubjectTransforms src = [] ∧ src_unread src = ∅) ∧
  (shown_consumer con = con ↔ cc_unread con = ∅).
Proof.
  intros Hs Hc. split_and!.
  - destruct cfg as [basics flags size ret sto dis com pl mir srcs tr rp lim un]. destruct Hs. cbn in *.
    unfold stream_toNATS, as_request, streamConfigFromNATS. cbn -[source_ToNATS].
    destruct (Z.leb_spec (sb_Replicas basics) 0); [lia|].
    assert (negb (size =? 0)%Z && ((size <? min_int32)%Z || (max_int32 <? size)%Z) = false) as -> by lia.
    rewrite mirror_roundtrip by done. cbn -[source_ToNATS].
    unfold SourcesToNATS. rewrite sources_roundtrip by done. cbn.
    rewrite !enum_or_named by (apply laws || done). cbn.
    rewrite placement_roundtrip, republish_roundtrip, !transform_roundtrip
      by (done || by rewrite transform_roundtrip).
    assert (with_replicas_subjects (sb_Replicas basics) (sb_Subjects basics) basics = basics) as ->
      by by destruct basics.
    assert (flags_toNATS (flags_request flags) = flags) as -> by by destruct flags.
    destruct ok_limits0 as [E| ->]; [by rewrite E, E|done].
  - destruct con as [basics del ack rep start back un]. destruct Hc. cbn in *.
    unfold consumer_toNATS, consumerConfigFromNATS. cbn.
    rewrite !enum_or_named by (apply laws || done). cbn.
    rewrite start_roundtrip by done. cbn. rewrite bad_backoff_none by done.
    destruct del; try done; cbn.
    + destruct (Z.eqb_spec (cb_OptStartSeq basics) 0); [by destruct ok_start_seq0|done].
    + destruct start; [done|by destruct ok_start_time0].
  - setoid_rewrite <- shown_source_whole. destruct cfg as [basics flags size ret sto dis com pl mir srcs tr rp lim un]. unfold shown_stream. cbn. split.
    + intros E. injection E as Em Es <-. split; [done|]. intros src [->|Hin]; [by injection Em|by apply (proj1 (shown_sources_whole srcs))].
    + intros [-> Hall]. f_equal; [|apply shown_sources_whole; auto]. destruct mir as [m|]; [|done]. cbn. f_equal. auto.
  - destruct con; unfold shown_consumer; cbn. split; [by intros [= <-]|by intros ->].
Qed.
End RoundTrip.

(** The library on the names the program knows, and one time. *)
Definition pick {E} (l : list (string * E)) (s : string) : option E :=
  snd <$> List.find (λ p, p.1 =s s) l.
Definition example_lib : NatsLib := {|
  parse_retention := pick [("limits", LimitsPolicy); ("interest", InterestPolicy); ("workqueue", WorkQueuePolicy)];
  parse_storage := pick [("file", FileStorage); ("memory", MemoryStorage)];
  parse_discard := pick [("old", DiscardOld); ("new", DiscardNew)];
  parse_compression := pick [("none", NoCompression); ("s2", S2Compression)];
  parse_deliver := pick [("all", DeliverAllPolicy); ("last", DeliverLastPolicy); ("new", DeliverNewPolicy);
    ("by_start_sequence", DeliverByStartSequencePolicy); ("by_start_time", DeliverByStartTimePolicy);
    ("last_per_subject", DeliverLastPerSubjectPolicy)];
  parse_ack := pick [("none", AckNonePolicy); ("all", AckAllPolicy); ("explicit", AckExplicitPolicy)];
  parse_replay := pick [("instant", ReplayInstantPolicy); ("original", ReplayOriginalPolicy)];
  time_ParseNano s := if s =s "2024-01-01T00:00:00Z" then Some 1704067200000000000%Z else None;
  time_Parse _ := None;
  time_Format _ := "2024-01-01T00:00:00Z" |}.

#[local] Existing Instance example_lib.

Lemma example_lib_laws : lib_laws (λ t, t = 1704067200000000000%Z).
Proof.
  split; try (intros [] Hn; first [reflexivity | by destruct Hn]).
  intros t ->. split; [by vm_compute|reflexivity].
Qed.

Example config_roundtrip_witness :
  let cfg := mkStream
    (mkBasics "ORDERS" "orders" ["orders.>"] (-1) (-1) 0 (-1) (-1) 3 0 0 0 {["team" := "core"]})
    (mkFlags false true false false false false true false false) 1048576
    WorkQueuePolicy MemoryStorage DiscardNew S2Compression (Some (mkPlacement "" ["ssd"])) None
    [Some (mkSource "IN" "in.>" 7 (Some 1704067200000000000%Z) (Some (mkExternal "$JS.hub.API" "")) [mkTransform "in.>" "out.>"] ∅)]
    (Some (mkTransform "a" "b")) None (mkLimits 0 100) ∅ in
  let con := mkConsumer (mkConsumerBasics "d" "" "" "" [] 0 0 5 0 "" 0 0 false 0 false 0 0 0 "" "" 0 1 false ∅)
    DeliverByStartTimePolicy AckExplicitPolicy ReplayInstantPolicy (Some 1704067200000000000%Z) [10%Z; 20%Z] ∅ in
  stream_toNATS (as_request (streamConfigFromNATS cfg)) = Ok (shown_stream cfg) ∧ shown_stream cfg ≠ cfg ∧
  consumer_toNATS (consumerConfigFromNATS con) = Ok con.
Proof.
  intros cfg con. enough (stream_toNATS (as_request (streamConfigFromNATS cfg)) = Ok (shown_stream cfg) ∧
    consumer_toNATS (consumerConfigFromNATS con) = Ok (shown_consumer con)) as [? ?] by (split_and!; [done|discriminate|done]).
  refine (_ (config_roundtrip (λ t, t = 1704067200000000000%Z) example_lib_laws cfg con _ _)); [by intros (? & ? & _)| |].
  - split; try done; cbn.
    + intros p [= <-]. by right.
    + intros o Ho. apply list_elem_of_singleton in Ho as ->. eexists. split; [done|].
      split; cbn; [by vm_compute|by intros t [= <-]|]. intros e [= <-]. by left.
    + intros t [= <-]. done.
    + by left.
  - split; try done; cbn; [by intros t [= <-]|by repeat constructor].
Defined.

(** A body that names another stream updates that one, whatever the path says. *)
Lemma UpdateStream_ignores_path name req :
  sb_Name (sr_Basics req) ≠ "" → UpdateStream name req = stream_toNATS req.
Proof. intros Hn%IsEmpty_false. unfold UpdateStream. by rewrite Hn. Qed.
