(* ===== verification/Replay.v ===== *)
(** Replays of a consumer, internal/domain/replay.go and replay_dry_run.go with
    the choice of options of internal/nats/client.go, and the consequences of
    deleting a stream, internal/domain/blast_radius.go. *)

From S2P Require Export Streams.
From S2P Require Import GoStrings.

(** * Consumers and streams as shown *)

(** The fields of [ConsumerInfo] and [StreamInfo] used here. *)
Record ConsumerInfo := mkConsumerInfo { ci_Name : string; ci_Config : ConsumerConfigDTO }.
Record StreamInfo := mkStreamInfo {
  st_Config : StreamConfigDTO;
  st_FirstSeq : Z;
  st_LastSeq : Z;
}.

Definition MetadataServiceKey := "nats-consol/service".
Definition MetadataCriticalKey := "nats-consol/critical".
Definition MetadataCriticalTrue := "true".

(** The first of the names that is not blank, trimmed. *)
Definition ServiceID (c : ConsumerInfo) : string :=
  let b := cd_Basics (ci_Config c) in
  let s := TrimSpace (lookup_string (cb_Metadata b) MetadataServiceKey) in
  if negb (IsEmpty s) then s
  else let s := TrimSpace (cb_Durable b) in
  if negb (IsEmpty s) then s
  else let s := TrimSpace (cb_Name b) in
  if negb (IsEmpty s) then s else TrimSpace (ci_Name c).

Definition consumerDisplayName (c : ConsumerInfo) : string :=
  let b := cd_Basics (ci_Config c) in
  let s := TrimSpace (ci_Name c) in
  if negb (IsEmpty s) then s
  else let s := TrimSpace (cb_Durable b) in
  if negb (IsEmpty s) then s else TrimSpace (cb_Name b).

(** * Replay requests *)

Definition ReplayModeReset := "reset".
Definition ReplayModeSidecar := "sidecar".
Definition ReplayFromSeq := "seq".
Definition ReplayFromTime := "time".
Definition ReplayFromBeginning := "beginning".
Definition ReplayFromNew := "new".
Definition ReplayPolicyInstant := "instant".
Definition ReplayPolicyOriginal := "original".

Record ReplayConsumerRequest := mkReplay {
  rq_Mode : string;
  rq_From : string;
  rq_Time : string;
  rq_UntilTime : string;
  rq_ReplayPolicy : string;
  rq_FilterSubject : string;
  rq_Durable : string;
  rq_Seq : Z;
  rq_UntilSeq : Z;
  rq_Limit : Z;
}.

Inductive replay_error :=
  | ErrMode | ErrFromRequired | ErrSeqRequired | ErrTimeRequired | ErrTime | ErrFrom
  | ErrUntilTime | ErrLimitNegative | ErrNewWithBounds | ErrUntilBeforeSeq | ErrUntilBeforeTime
  | ErrPolicy.

Section Replay.
Context `{NatsLib} `{GoUnicode}.

Definition NormalizedMode (r : ReplayConsumerRequest) : string :=
  let mode := ToLower (TrimSpace (rq_Mode r)) in
  if IsEmpty mode then ReplayModeReset else mode.
Definition NormalizedFrom (r : ReplayConsumerRequest) : string := ToLower (TrimSpace (rq_From r)).
Definition ParseTime (r : ReplayConsumerRequest) : option Z := parseRFC3339 (rq_Time r).
Definition ParseUntilTime (r : ReplayConsumerRequest) : option Z := parseRFC3339 (rq_UntilTime r).

Definition blank (s : string) : bool := IsEmpty (TrimSpace s).

Definition check_from (r : ReplayConsumerRequest) (from : string) : option replay_error :=
  if IsEmpty from then Some ErrFromRequired
  else if from =s ReplayFromSeq then if (rq_Seq r =? 0)%Z then Some ErrSeqRequired else None
  else if from =s ReplayFromTime then
    if blank (rq_Time r) then Some ErrTimeRequired
    else match parseRFC3339 (rq_Time r) with Some _ => None | None => Some ErrTime end
  else if (from =s ReplayFromBeginning) || (from =s ReplayFromNew) then None
  else Some ErrFrom.

Definition check_times (r : ReplayConsumerRequest) (from : string) : option replay_error :=
  if (from =s ReplayFromTime) && negb (blank (rq_UntilTime r)) then
    match parseRFC3339 (rq_Time r), parseRFC3339 (rq_UntilTime r) with
    | Some start, Some end_ => if (end_ <? start)%Z then Some ErrUntilBeforeTime else None
    | None, _ => Some ErrTime
    | _, None => Some ErrUntilTime
    end
  else None.

(** The first check that fails. *)
Definition first_error (checks : list (option replay_error)) : option replay_error :=
  head (omap id checks).

Definition replay_Validate (r : ReplayConsumerRequest) : option replay_error :=
  let mode := NormalizedMode r in
  let from := NormalizedFrom r in
  let policy := ToLower (TrimSpace (rq_ReplayPolicy r)) in
  first_error [
    (if (mode =s ReplayModeReset) || (mode =s ReplayModeSidecar) then None else Some ErrMode);
    check_from r from;
    (if negb (blank (rq_UntilTime r))
     then match parseRFC3339 (rq_UntilTime r) with Some _ => None | None => Some ErrUntilTime end
     else None);
    (if (rq_Limit r <? 0)%Z then Some ErrLimitNegative else None);
    (if (from =s ReplayFromNew) &&
        ((0 <? rq_UntilSeq r)%Z || negb (blank (rq_UntilTime r)) || (0 <? rq_Limit r)%Z)
     then Some ErrNewWithBounds else None);
    (if (from =s ReplayFromSeq) && (0 <? rq_UntilSeq r)%Z && (rq_UntilSeq r <? rq_Seq r)%Z
     then Some ErrUntilBeforeSeq else None);
    check_times r from;
    (if negb (IsEmpty policy) && (policy <>s ReplayPolicyInstant) && (policy <>s ReplayPolicyOriginal)
     then Some ErrPolicy else None)].

(** * The options given to the library *)

Inductive ReplayOpt :=
  | OneMessage (seq : Z) | FromSeq (seq : Z) | FromTime (t : Z) | FromBeginning | FromNew
  | UntilSeq (seq : Z) | UntilTime (t : Z) | Limit (n : Z)
  | OriginalPolicy | WithFilterSubject (s : string) | WithReplayDurable (s : string).

(** Where the replay starts and ends; [None] stands for an error of [ParseTime] or
    [ParseUntilTime]. *)
Definition range_opts (r : ReplayConsumerRequest) : option (list ReplayOpt) :=
  let from := NormalizedFrom r in
  if (from =s ReplayFromSeq) && (0 <? rq_Seq r)%Z && (rq_UntilSeq r =? rq_Seq r)%Z &&
     (rq_Limit r =? 1)%Z
  then Some [OneMessage (rq_Seq r)]
  else
    let start :=
      if from =s ReplayFromSeq then Some [FromSeq (rq_Seq r)]
      else if from =s ReplayFromTime then (λ t, [FromTime t]) <$> ParseTime r
      else if from =s ReplayFromBeginning then Some [FromBeginning]
      else if from =s ReplayFromNew then Some [FromNew]
      else Some [] in
    let until := if (0 <? rq_UntilSeq r)%Z then [UntilSeq (rq_UntilSeq r)] else [] in
    let untilTime :=
      if negb (blank (rq_UntilTime r)) then (λ t, [UntilTime t]) <$> ParseUntilTime r else Some [] in
    let limit := if (0 <? rq_Limit r)%Z then [Limit (rq_Limit r)] else [] in
    match start, untilTime with
    | Some start, Some untilTime => Some (start ++ until ++ untilTime ++ limit)
    | _, _ => None
    end.

Definition replay_opts (r : ReplayConsumerRequest) : option (list ReplayOpt) :=
  let policy := if EqualFold (TrimSpace (rq_ReplayPolicy r)) ReplayPolicyOriginal
                then [OriginalPolicy] else [] in
  let filter := if negb (blank (rq_FilterSubject r))
                then [WithFilterSubject (TrimSpace (rq_FilterSubject r))] else [] in
  let durable := if negb (blank (rq_Durable r)) && (NormalizedMode r =s ReplayModeSidecar)
                 then [WithReplayDurable (TrimSpace (rq_Durable r))] else [] in
  (λ l, l ++ policy ++ filter ++ durable) <$> range_opts r.

Inductive replay_call := CreateReplayConsumer (opts : list ReplayOpt) | ResetConsumer (opts : list ReplayOpt).

(** The call [ReplayConsumer] makes, or its refusal. *)
Definition ReplayConsumer (r : ReplayConsumerRequest) : result replay_error replay_call :=
  match replay_Validate r with
  | Some e => Err e
  | None =>
      match replay_opts r with
      | None => Err ErrTime
      | Some opts => Ok (if NormalizedMode r =s ReplayModeSidecar then CreateReplayConsumer opts
                         else ResetConsumer opts)
      end
  end.

(** * Dry run *)

Definition DefaultReplayEstimateRate : Z := 1000.

Record ReplayDryRun := mkDryRun {
  dry_PotentialDuplicates : list string;
  dry_Messages : Z;              (* uint64 *)
  dry_EstimatedDurationMs : Z;   (* int64 *)
  dry_ConsumersAffected : Z;
  dry_Unbounded : bool;
  dry_Approximate : bool;
}.

(** The unsigned arithmetic wraps. *)
Definition EstimateReplayDurationMs (messages ratePerSec : Z) : Z :=
  if (messages =? 0)%Z then 0
  else
    let rate := if (ratePerSec <=? 0)%Z then DefaultReplayEstimateRate else ratePerSec in
    let secs := (u64 (messages + rate - 1) / rate)%Z in
    if (max_int64 / 1000 <? secs)%Z then max_int64 else i64 (secs * 1000)%Z.

Definition resolveReplayStartSeq (from : string) (seq firstSeq : Z) : Z :=
  if from =s ReplayFromBeginning then if (firstSeq =? 0)%Z then 1 else firstSeq
  else if from =s ReplayFromSeq then seq else 0.

(** [time.Sub] saturates; [Milliseconds] truncates towards zero. *)
Definition time_Sub (a b : Z) : Z := Z.max min_int64 (Z.min max_int64 (a - b)).
Definition originalReplayDurationMs (r : ReplayConsumerRequest) : Z :=
  if blank (rq_Time r) || blank (rq_UntilTime r) then 0
  else match ParseTime r, ParseUntilTime r with
       | Some start, Some end_ => Z.max 0 (Z.quot (time_Sub end_ start) 1000000)
       | _, _ => 0
       end.

(** Messages, whether the end is open, whether the count is a guess. *)
Definition dry_run_range (r : ReplayConsumerRequest) (stream : StreamInfo) : Z * bool * bool :=
  let from := NormalizedFrom r in
  let lastSeq := st_LastSeq stream in
  let firstSeq := if (st_FirstSeq stream =? 0)%Z && (0 <? lastSeq)%Z then 1%Z else st_FirstSeq stream in
  if (0 <? rq_Limit r)%Z then (rq_Limit r, false, false)
  else if from =s ReplayFromNew then (0%Z, true, false)
  else if from =s ReplayFromTime then
    (0%Z, blank (rq_UntilTime r) && (rq_UntilSeq r =? 0)%Z, true)
  else
    let startSeq := resolveReplayStartSeq from (rq_Seq r) firstSeq in
    if (0 <? rq_UntilSeq r)%Z then
      let end_ := if (0 <? lastSeq)%Z && (lastSeq <? rq_UntilSeq r)%Z then lastSeq else rq_UntilSeq r in
      (if (0 <? startSeq)%Z && (startSeq <=? end_)%Z then u64 (end_ - startSeq + 1) else 0%Z, false, false)
    else
      (if (0 <? startSeq)%Z && (startSeq <=? lastSeq)%Z then u64 (lastSeq - startSeq + 1) else 0%Z,
       true, false).

Definition ComputeReplayDryRun (r : ReplayConsumerRequest) (stream : StreamInfo) (target : ConsumerInfo) :
    result replay_error ReplayDryRun :=
  match replay_Validate r with
  | Some e => Err e
  | None =>
      let duplicates := let id := ServiceID target in if negb (IsEmpty id) then [id] else [] in
      let policy := ToLower (TrimSpace (rq_ReplayPolicy r)) in
      let policy := if IsEmpty policy then ReplayPolicyInstant else policy in
      let '(messages, unbounded, approximate) := dry_run_range r stream in
      let estimate := EstimateReplayDurationMs messages DefaultReplayEstimateRate in
      let duration :=
        if policy =s ReplayPolicyOriginal then
          let d := originalReplayDurationMs r in if (0 <? d)%Z then d else estimate
        else estimate in
      Ok (mkDryRun duplicates messages duration 1 unbounded approximate)
  end.
End Replay.

(** * What a replay delivers *)

(** What the options of the library promise about the stored messages it
    delivers, by sequence number: each is one of the stored ones, once, within
    the bounds the options name. *)
Definition allowed (o : ReplayOpt) (q : Z) : bool :=
  match o with
  | OneMessage s => (q =? s)%Z
  | FromSeq s => (s <=? q)%Z
  | FromNew => false
  | UntilSeq s => (q <=? s)%Z
  | _ => true
  end.

Class ReplayServer := {
  delivers : list ReplayOpt → list Z → list Z;
  delivers_NoDup : ∀ opts keys, NoDup keys → NoDup (delivers opts keys);
  delivers_stored : ∀ opts keys q, q ∈ delivers opts keys → q ∈ keys;
  delivers_allowed : ∀ opts keys q o, q ∈ delivers opts keys → o ∈ opts → allowed o q = true;
  delivers_limit : ∀ opts keys n, Limit n ∈ opts → length (delivers opts keys) ≤ Z.to_nat n;
}.

Definition opts_of (c : replay_call) : list ReplayOpt :=
  match c with CreateReplayConsumer opts | ResetConsumer opts => opts end.

(** Distinct integers from [a] to [b]. *)
Lemma interval_length (l : list Z) a b : NoDup l → (∀ q, q ∈ l → (a ≤ q ≤ b)%Z) →
  (Z.of_nat (length l) ≤ Z.max 0 (b - a + 1))%Z.
Proof.
  intros Hnd Hin. assert (l ⊆+ seqZ a (b - a + 1)) as Hsub%submseteq_length.
  { apply NoDup_submseteq; [done|]. intros q Hq. apply elem_of_seqZ. specialize (Hin q Hq). lia. }
  rewrite length_seqZ in Hsub. lia.
Qed.

Lemma first_error_None l : first_error l = None → Forall (λ o, o = None) l.
Proof.
  unfold first_error. induction l as [|[e|] l IH]; cbn; intros E; [constructor|done|].
  constructor; [done|auto].
Qed.

Section Delivered.
Context `{NatsLib} `{GoUnicode} `{ReplayServer}.

(** What a valid request says. *)
Lemma valid_request r : replay_Validate r = None →
  (0 ≤ rq_Limit r)%Z ∧
  (NormalizedFrom r = ReplayFromSeq ∧ rq_Seq r ≠ 0%Z ∨ NormalizedFrom r = ReplayFromTime ∨
   NormalizedFrom r = ReplayFromBeginning ∨ NormalizedFrom r = ReplayFromNew).
Proof.
  intros Hv%first_error_None. rewrite !Forall_cons in Hv. destruct Hv as (_ & E & _ & El & _).
  split.
  - destruct (Z.ltb_spec (rq_Limit r) 0); [done|lia].
  - clear El. unfold check_from in E. destruct (IsEmpty (NormalizedFrom r)); [discriminate|].
    case_bool_decide; [destruct (Z.eqb_spec (rq_Seq r) 0); [discriminate|auto]|].
    case_bool_decide; [auto|]. repeat (case_bool_decide; [auto|]). discriminate.
Qed.

(** The options name the bounds of the request. *)
Lemma range_opts_bounds r l : range_opts r = Some l →
  (NormalizedFrom r = ReplayFromSeq ∧ l = [OneMessage (rq_Seq r)] ∧ rq_Limit r = 1%Z) ∨
  ((NormalizedFrom r = ReplayFromSeq → FromSeq (rq_Seq r) ∈ l) ∧
   (NormalizedFrom r = ReplayFromNew → FromNew ∈ l) ∧
   ((0 < rq_UntilSeq r)%Z → UntilSeq (rq_UntilSeq r) ∈ l) ∧
   ((0 < rq_Limit r)%Z → Limit (rq_Limit r) ∈ l)).
Proof.
  unfold range_opts.
  destruct ((NormalizedFrom r =s ReplayFromSeq) && (0 <? rq_Seq r)%Z && _ && _) eqn:Eone.
  { intros [= <-]. left. go_bool. split; [done|]. split; [done|lia]. }
  clear Eone. intros E. right.
  destruct (if NormalizedFrom r =s ReplayFromSeq then _ else _) as [st|] eqn:Est; [|done].
  destruct (if negb (blank (rq_UntilTime r)) then _ else _) as [ut|]; [|done].
  injection E as <-. rewrite !elem_of_app. repeat split.
  - intros Hf. left. rewrite Hf in Est. injection Est as <-. by apply list_elem_of_singleton.
  - intros Hf. left. rewrite Hf in Est. injection Est as <-. by apply list_elem_of_singleton.
  - intros Hp%Z.ltb_lt. rewrite Hp. right; left. by apply list_elem_of_singleton.
  - intros Hp%Z.ltb_lt. rewrite Hp. do 3 right. by apply list_elem_of_singleton.
Qed.

(** Within an interval named by the options. *)
Lemma delivered_bound opts keys a b : NoDup keys →
  (∀ q, q ∈ delivers opts keys → (a ≤ q ≤ b)%Z) →
  (Z.of_nat (length (delivers opts keys)) ≤ Z.max 0 (b - a + 1))%Z.
Proof. intros Hnd Hin. apply interval_length; [by apply delivers_NoDup|done]. Qed.

Lemma ReplayConsumer_opts r c : ReplayConsumer r = Ok c →
  replay_Validate r = None ∧ ∃ l rest, range_opts r = Some l ∧ opts_of c = l ++ rest.
Proof.
  unfold ReplayConsumer. destruct (replay_Validate r); [done|].
  destruct (replay_opts r) as [o|] eqn:Eo; [|done]. intros E. split; [done|].
  assert (opts_of c = o) as -> by (injection E as <-; by destruct (_ =s _)).
  revert Eo. unfold replay_opts. destruct (range_opts r) as [l|]; [|done]. cbn. intros [= <-].
  eauto.
Qed.

(** The dry run without a limit, from a sequence number or the beginning. *)
Definition dry_run_start (r : ReplayConsumerRequest) (st : StreamInfo) : Z :=
  resolveReplayStartSeq (NormalizedFrom r) (rq_Seq r)
    (if (st_FirstSeq st =? 0)%Z && (0 <? st_LastSeq st)%Z then 1%Z else st_FirstSeq st).

Lemma dry_run_beginning r st : NormalizedFrom r = ReplayFromBeginning → (0 ≤ st_FirstSeq st)%Z →
  dry_run_start r st = Z.max 1 (st_FirstSeq st).
Proof.
  intros Hf Hp. unfold dry_run_start, resolveReplayStartSeq. rewrite Hf.
  rewrite bool_decide_true by done.
  destruct (Z.eqb_spec (st_FirstSeq st) 0) as [E|E]; cbn [andb].
  - destruct (0 <? st_LastSeq st)%Z; [cbn; lia|rewrite E; cbn; lia].
  - apply Z.eqb_neq in E as E'. rewrite E'. lia.
Qed.

Lemma dry_run_seq_covers r st opts keys : rq_Limit r = 0%Z → NormalizedFrom r ≠ ReplayFromNew →
  NormalizedFrom r ≠ ReplayFromTime → is_u64 (rq_UntilSeq r) → is_u64 (st_LastSeq st) →
  (0 < dry_run_start r st)%Z → NoDup keys →
  (∀ q, q ∈ delivers opts keys → (dry_run_start r st ≤ q ≤ st_LastSeq st)%Z) →
  ((0 < rq_UntilSeq r)%Z → ∀ q, q ∈ delivers opts keys → (q ≤ rq_UntilSeq r)%Z) →
  (Z.of_nat (length (delivers opts keys)) ≤ (dry_run_range r st).1.1)%Z.
Proof.
  intros El Hn Ht Hu Hl Hs Hnd Hin Hun. unfold is_u64, max_uint64 in *.
  assert (∀ e, (0 ≤ e ≤ 2 ^ 64 - 1)%Z → (∀ q, q ∈ delivers opts keys → (q ≤ e)%Z) →
    (Z.of_nat (length (delivers opts keys)) ≤
     if (0 <? dry_run_start r st)%Z && (dry_run_start r st <=? e)%Z
     then u64 (e - dry_run_start r st + 1) else 0)%Z) as Hcount.
  { intros e He Hqe.
    pose proof (delivered_bound opts keys (dry_run_start r st) e Hnd) as Hb.
    assert (∀ q, q ∈ delivers opts keys → (dry_run_start r st ≤ q ≤ e)%Z) as Hq
      by (intros q Hq; specialize (Hin q Hq); specialize (Hqe q Hq); lia).
    specialize (Hb Hq). destruct (Z.ltb_spec 0 (dry_run_start r st)), (Z.leb_spec (dry_run_start r st) e);
      cbn; try lia. rewrite u64_id; unfold is_u64, max_uint64; lia. }
  unfold dry_run_range. rewrite El. change (0 <? 0)%Z with false. cbv iota zeta.
  rewrite !bool_decide_false by done. fold (dry_run_start r st).
  destruct (Z.ltb_spec 0 (rq_UntilSeq r)) as [Hu0|_]; cbn [fst].
  - specialize (Hun Hu0). destruct ((0 <? st_LastSeq st)%Z && _) eqn:E; apply Hcount; try lia; auto.
    intros q Hq. by apply Hin.
  - apply Hcount; [lia|]. intros q Hq. by apply Hin.
Qed.

(** A dry run never promises fewer messages than the replay delivers, unless
    it says that its count is approximate: whatever the library delivers, within
    the options [ReplayConsumer] gives it, of the messages the stream keeps. *)
Theorem dry_run_covers r c st target d keys :
  ReplayConsumer r = Ok c → ComputeReplayDryRun r st target = Ok d →
  dry_Approximate d = false →
  is_u64 (rq_Seq r) → is_u64 (rq_UntilSeq r) → is_u64 (st_LastSeq st) → (0 ≤ st_FirstSeq st)%Z →
  NoDup keys → (∀ q, q ∈ keys → (0 < q ∧ st_FirstSeq st ≤ q ≤ st_LastSeq st)%Z) →
  (Z.of_nat (length (delivers (opts_of c) keys)) ≤ dry_Messages d)%Z.
Proof.
  intros Hc Hd Happ Hseq Huntil Hlast Hfirst Hnd Hkeys.
  destruct (ReplayConsumer_opts r c Hc) as (Hv & l & rest & Hl & ->).
  destruct (valid_request r Hv) as [Hlim Hfrom].
  assert (dry_Messages d = (dry_run_range r st).1.1 ∧ (dry_run_range r st).2 = false) as [-> Hna].
  { revert Hd. unfold ComputeReplayDryRun. rewrite Hv.
    destruct (dry_run_range r st) as [[m u] a]. intros [= <-]. done. }
  clear Hd Hc Happ d. set (opts := l ++ rest).
  assert (∀ o, o ∈ l → o ∈ opts) as Hopt by (intros o Ho; apply elem_of_app; auto).
  assert (∀ q o, q ∈ delivers opts keys → o ∈ l → allowed o q = true) as Hall.
  { intros q o Hq Ho. by apply (delivers_allowed opts keys q o Hq), Hopt. }
  assert (∀ q, q ∈ delivers opts keys → (0 < q ∧ st_FirstSeq st ≤ q ≤ st_LastSeq st)%Z) as Hst.
  { intros q Hq. by apply Hkeys, (delivers_stored opts). }
  destruct (range_opts_bounds r l Hl) as [(Hf & El & Hone)|(HF & HN & HU & HL)]; cycle 1.
  - destruct (Z.ltb_spec 0 (rq_Limit r)) as [Hlt|Hge].
    { unfold dry_run_range. rewrite (proj2 (Z.ltb_lt _ _) Hlt). cbn.
      pose proof (delivers_limit opts keys _ (Hopt _ (HL Hlt))). lia. }
    assert ((0 < rq_UntilSeq r)%Z → ∀ q, q ∈ delivers opts keys → (q ≤ rq_UntilSeq r)%Z) as Hun.
    { intros Hp q Hq. apply Z.leb_le, (Hall q (UntilSeq _)); auto. }
    destruct Hfrom as [[Hf Hs0]|[Hf|[Hf|Hf]]].
    + assert (dry_run_start r st = rq_Seq r) as Es by (unfold dry_run_start; by rewrite Hf).
      apply dry_run_seq_covers; auto; try (by rewrite Hf); [lia|unfold is_u64 in *; lia|].
      intros q Hq. pose proof (Hst q Hq). split; [|lia]. rewrite Es.
      apply Z.leb_le, (Hall q (FromSeq _)); auto.
    + exfalso. revert Hna. unfold dry_run_range. rewrite Hf.
      by replace (rq_Limit r) with 0%Z by lia.
    + assert (dry_run_start r st = Z.max 1 (st_FirstSeq st)) as Es by (by apply dry_run_beginning).
      apply dry_run_seq_covers; auto; try (by rewrite Hf); [lia..|].
      intros q Hq%Hst. lia.
    + destruct (delivers opts keys) as [|q qs] eqn:Eq.
      * unfold dry_run_range. rewrite Hf. by replace (rq_Limit r) with 0%Z by lia.
      * discriminate (Hall q FromNew (list_elem_of_here q qs) (HN Hf)).
  - unfold dry_run_range. rewrite Hone. cbn.
    pose proof (delivered_bound opts keys (rq_Seq r) (rq_Seq r) Hnd) as Hb.
    assert (∀ q, q ∈ delivers opts keys → (rq_Seq r ≤ q ≤ rq_Seq r)%Z) as Hq.
    { intros q Hq. assert (allowed (OneMessage (rq_Seq r)) q = true) as E%Z.eqb_eq
        by (apply Hall; [done|rewrite El; by apply list_elem_of_singleton]). lia. }
    specialize (Hb Hq). lia.
Qed.
End Delivered.

(** * How long it takes *)

(** At a rate of [rate] messages per second, the least number of whole seconds
    that is enough, in milliseconds, or the largest number when they do not fit.
    The sum wraps for the last counts below 2^64. *)
Lemma EstimateReplayDurationMs_spec messages rate : (0 ≤ messages)%Z → (0 < rate)%Z →
  (messages + rate ≤ 2 ^ 64)%Z →
  let ms := EstimateReplayDurationMs messages rate in
  (0 ≤ ms ≤ max_int64)%Z ∧ (messages * 1000 ≤ ms * rate ∨ ms = max_int64)%Z ∧
  ((ms - 1000) * rate < messages * 1000)%Z.
Proof.
  intros Hm Hr Hb. unfold EstimateReplayDurationMs.
  destruct (Z.eqb_spec messages 0) as [->|Hn]; [cbn; unfold max_int64; lia|].
  destruct (Z.leb_spec rate 0); [lia|]. rewrite u64_id by (unfold is_u64, max_uint64; lia).
  pose proof (Z.div_mod (messages + rate - 1) rate ltac:(lia)) as Hd.
  pose proof (Z.mod_pos_bound (messages + rate - 1) rate Hr).
  assert (0 ≤ (messages + rate - 1) / rate)%Z by (apply Z.div_pos; lia).
  change (max_int64 / 1000)%Z with 9223372036854775%Z.
  set (q := ((messages + rate - 1) / rate)%Z) in *.
  destruct (Z.ltb_spec 9223372036854775 q).
  - split; [unfold max_int64; lia|]. split; [auto|]. unfold max_int64. nia.
  - rewrite i64_id by (unfold is_i64, min_int64, max_int64; lia).
    split; [unfold max_int64; lia|]. split; [left|]; nia.
Qed.

(** * An example *)

Definition example_request : ReplayConsumerRequest :=
  mkReplay "sidecar" " Seq " "" "" "" "orders.created" "again" 3 8 0.
Definition example_consumer : ConsumerInfo :=
  mkConsumerInfo "billing" (mkConsumerDTO
    (mkConsumerBasics "billing" "" "" "" [] 0 0 5 0 "" 0 0 false 0 false 0 0 0 "" "" 0 1 false ∅)
    "all" "explicit" "instant" "" []).
Definition example_stream : StreamInfo := mkStreamInfo
  (mkStreamDTO (mkBasics "ORDERS" "" ["orders.>"] 0 0 0 0 0 1 0 0 0 ∅)
    (mkFlags false false false false false false false false false) 0
    "limits" "file" "old" "none" None None [] None None None) 2 6.

(** A server that delivers the first ones allowed. *)
Fixpoint cut (opts : list ReplayOpt) (l : list Z) : list Z :=
  match opts with
  | [] => l
  | Limit n :: opts => cut opts (take (Z.to_nat n) l)
  | _ :: opts => cut opts l
  end.
Definition first_allowed (opts : list ReplayOpt) (keys : list Z) : list Z :=
  cut opts (List.filter (λ q, forallb (λ o, allowed o q) opts) keys).

Lemma cut_sublist opts l : cut opts l `sublist_of` l.
Proof.
  revert l. induction opts as [|[] opts IH]; intros l; cbn; try done.
  etrans; [apply IH|]. apply sublist_take.
Qed.
Lemma cut_limit n opts l : Limit n ∈ opts → length (cut opts l) ≤ Z.to_nat n.
Proof.
  revert l. induction opts as [|o opts IH]; intros l Hin; [by apply elem_of_nil in Hin|].
  apply elem_of_cons in Hin as [<-|Hin]; cbn.
  - pose proof (sublist_length _ _ (cut_sublist opts (take (Z.to_nat n) l))) as Hc.
    rewrite length_take in Hc. lia.
  - destruct o; auto.
Qed.
Lemma first_allowed_in opts keys q : q ∈ first_allowed opts keys →
  q ∈ keys ∧ forallb (λ o, allowed o q) opts = true.
Proof.
  intros Hq. eapply elem_of_sublist in Hq; [|apply cut_sublist].
  by rewrite list_elem_of_In, filter_In, <- list_elem_of_In in Hq.
Qed.
Lemma first_allowed_NoDup opts keys : NoDup keys → NoDup (first_allowed opts keys).
Proof.
  intros Hk. eapply sublist_NoDup; [|apply cut_sublist].
  apply NoDup_ListNoDup, List.NoDup_filter. by apply NoDup_ListNoDup.
Qed.

#[local] Instance first_server : ReplayServer := {|
  delivers := first_allowed;
  delivers_NoDup := first_allowed_NoDup;
  delivers_stored opts keys q Hq := proj1 (first_allowed_in opts keys q Hq);
  delivers_allowed opts keys q o Hq Ho :=
    proj1 (forallb_true_iff _ _) (proj2 (first_allowed_in opts keys q Hq)) o Ho;
  delivers_limit opts keys n Hn := cut_limit n opts _ Hn |}.

#[local] Existing Instance example_lib.
Example dry_run_covers_witness :
  let keys := [2; 3; 5; 6]%Z in
  let opts := [FromSeq 3; UntilSeq 8; WithFilterSubject "orders.created"; WithReplayDurable "again"]%Z in
  delivers opts keys = [3; 5; 6]%Z ∧ (Z.of_nat (length (delivers opts keys)) ≤ 4)%Z.
Proof.
  intros keys opts. split; [by vm_compute|]. set (U := ascii_only). 
  apply (dry_run_covers example_request (CreateReplayConsumer opts) example_stream example_consumer
    (mkDryRun ["billing"] 4 1000 1 false false) keys); try (vm_compute; reflexivity).
  1-3: by split; vm_compute.
  - done.
  - unfold keys. apply (bool_decide_unpack _). by vm_compute.
  - intros q Hq. unfold keys in Hq. cbn. rewrite !elem_of_cons, elem_of_nil in Hq. lia.
Defined.
