(* ===== verification/BlastRadius.v ===== *)
(** What deleting a stream reaches: internal/domain/blast_radius.go. *)

From S2P Require Import Prelude Dlq Streams Replay GoStrings.

Record BlastRadius := mkRadius {
  br_Stream : string;
  br_Critical : list string;
  br_ServiceNames : list string;
  br_RelatedStreams : list string;
  br_ConsumerNames : list string;
  br_Services : nat;
  br_Streams : nat;
  br_Consumers : nat;
}.

(** The keys of a set, sorted. *)
Definition sortedKeys (set : gset string) : list string :=
  if decide (size set = 0) then [] else SortStrings (elements set).

Section Radius.
Context `{GoUnicode}.

Definition IsCriticalConsumer (c : ConsumerInfo) : bool :=
  EqualFold (TrimSpace (lookup_string (cb_Metadata (cd_Basics (ci_Config c))) MetadataCriticalKey))
    MetadataCriticalTrue.

Definition streamDependsOn (s : StreamInfo) (targetName : string) : bool :=
  match dto_Mirror (st_Config s) with
  | Some m => TrimSpace (sd_Name m) =s targetName
  | None => false
  end || existsb (λ src, TrimSpace (sd_Name src) =s targetName) (dto_Sources (st_Config s)).

Definition stream_name (s : StreamInfo) : string := sb_Name (dto_Basics (st_Config s)).

Definition isCompanionDLQ (targetName : string) (candidate : StreamInfo) : bool :=
  if negb (IsDLQStream (stream_name candidate) (sb_Metadata (dto_Basics (st_Config candidate)))) then false
  else EqualFold (stream_name candidate) (targetName +:+ DLQNameSuffix).

(** The services, the critical ones and the consumers seen so far. *)
Definition count_consumer (sets : gset string * gset string * gset string) (c : ConsumerInfo) :
    gset string * gset string * gset string :=
  let '(serviceSet, criticalSet, consumerSet) := sets in
  let cn := consumerDisplayName c in
  let consumerSet := if negb (IsEmpty cn) then {[cn]} ∪ consumerSet else consumerSet in
  let id := ServiceID c in
  if IsEmpty id then (serviceSet, criticalSet, consumerSet)
  else ({[id]} ∪ serviceSet, if IsCriticalConsumer c then {[id]} ∪ criticalSet else criticalSet, consumerSet).

Definition relate (targetName : string) (relatedSet : gset string) (s : StreamInfo) : gset string :=
  let name := TrimSpace (stream_name s) in
  if IsEmpty name || (name =s targetName) then relatedSet
  else if streamDependsOn s targetName then {[name]} ∪ relatedSet
  else if isCompanionDLQ targetName s then {[name]} ∪ relatedSet
  else relatedSet.

Definition ComputeBlastRadius (target : StreamInfo) (consumers : list ConsumerInfo)
    (allStreams : list StreamInfo) : BlastRadius :=
  let targetName := TrimSpace (stream_name target) in
  let '(serviceSet, criticalSet, consumerSet) := foldl count_consumer (∅, ∅, ∅) consumers in
  let relatedSet := foldl (relate targetName) ∅ allStreams in
  let consumerNames := sortedKeys consumerSet in {|
    br_Stream := targetName;
    br_Critical := sortedKeys criticalSet;
    br_ServiceNames := sortedKeys serviceSet;
    br_RelatedStreams := sortedKeys relatedSet;
    br_ConsumerNames := consumerNames;
    br_Services := size serviceSet;
    br_Streams := size relatedSet;
    br_Consumers := length consumerNames |}.

(** * What is counted *)

Lemma sortedKeys_elem set x : x ∈ sortedKeys set ↔ x ∈ set.
Proof.
  unfold sortedKeys. case_decide as E.
  - apply size_empty_inv in E. set_solver.
  - unfold SortStrings. by rewrite merge_sort_Permutation, elem_of_elements.
Qed.
Lemma sortedKeys_NoDup set : NoDup (sortedKeys set).
Proof.
  unfold sortedKeys. case_decide; [constructor|].
  unfold SortStrings. rewrite merge_sort_Permutation. apply NoDup_elements.
Qed.
Lemma sortedKeys_sorted set : StronglySorted String.le (sortedKeys set).
Proof. unfold sortedKeys. case_decide; [constructor|apply SortStrings_sorted]. Qed.
Lemma sortedKeys_length set : length (sortedKeys set) = size set.
Proof.
  unfold sortedKeys. case_decide as E; [done|].
  unfold SortStrings. by rewrite merge_sort_Permutation.
Qed.

Lemma elem_of_add_if (b : bool) (y x : string) (S : gset string) :
  x ∈ (if b then {[y]} ∪ S else S) ↔ x ∈ S ∨ b = true ∧ x = y.
Proof. destruct b; set_solver. Qed.

(** A fold that adds an element per item that has one. *)
Lemma elem_of_fold {A} (f : gset string → A → gset string) (P : A → string → Prop) l S x :
  (∀ S a x, x ∈ f S a ↔ x ∈ S ∨ P a x) →
  x ∈ foldl f S l ↔ x ∈ S ∨ ∃ a, a ∈ l ∧ P a x.
Proof.
  intros Hf. revert S. induction l as [|a l IH]; intros S; cbn; [set_solver|].
  rewrite IH, Hf. setoid_rewrite elem_of_cons. naive_solver.
Qed.

(** The three sets of [count_consumer] grow independently. *)
Definition service_of (S : gset string) (c : ConsumerInfo) : gset string :=
  if negb (IsEmpty (ServiceID c)) then {[ServiceID c]} ∪ S else S.
Definition critical_of (S : gset string) (c : ConsumerInfo) : gset string :=
  if negb (IsEmpty (ServiceID c)) && IsCriticalConsumer c then {[ServiceID c]} ∪ S else S.
Definition display_of (S : gset string) (c : ConsumerInfo) : gset string :=
  if negb (IsEmpty (consumerDisplayName c)) then {[consumerDisplayName c]} ∪ S else S.

Lemma count_consumers_split cs S C N :
  foldl count_consumer (S, C, N) cs =
  (foldl service_of S cs, foldl critical_of C cs, foldl display_of N cs).
Proof.
  revert S C N. induction cs as [|c cs IH]; intros S C N; [done|]. cbn. rewrite <- IH. f_equal.
  unfold service_of, critical_of, display_of. by destruct (IsEmpty (ServiceID c)).
Qed.

(** A stream is related when it copies from the deleted one or keeps its dead letters. *)
Definition related (targetName : string) (s : StreamInfo) (name : string) : Prop :=
  name = TrimSpace (stream_name s) ∧ name ≠ "" ∧ name ≠ targetName ∧
  (streamDependsOn s targetName = true ∨ isCompanionDLQ targetName s = true).

Lemma elem_of_relate t S s x : x ∈ relate t S s ↔ x ∈ S ∨ related t s x.
Proof.
  unfold relate, related. destruct (IsEmpty (TrimSpace (stream_name s))) eqn:E.
  { apply IsEmpty_true in E. rewrite E. naive_solver. }
  apply IsEmpty_false in E. cbn. case_bool_decide; [naive_solver|].
  destruct (streamDependsOn s t), (isCompanionDLQ t s); set_solver.
Qed.

(** The blast radius of a stream is exactly what its deletion reaches: the
    services, the critical services and the consumers are those of the consumers
    given, the related streams are the other streams that mirror it, source from
    it or are its dead-letter companion; each is named once, in order, and the
    counts are the lengths of the lists. *)
Theorem blast_radius_exact target consumers allStreams :
  let b := ComputeBlastRadius target consumers allStreams in
  (∀ x, x ∈ br_ServiceNames b ↔ x ≠ "" ∧ ∃ c, c ∈ consumers ∧ ServiceID c = x) ∧
  (∀ x, x ∈ br_Critical b ↔ x ≠ "" ∧ ∃ c, c ∈ consumers ∧ ServiceID c = x ∧ IsCriticalConsumer c = true) ∧
  (∀ x, x ∈ br_ConsumerNames b ↔ x ≠ "" ∧ ∃ c, c ∈ consumers ∧ consumerDisplayName c = x) ∧
  (∀ x, x ∈ br_RelatedStreams b ↔ ∃ s, s ∈ allStreams ∧ related (br_Stream b) s x) ∧
  Forall (λ l, NoDup l ∧ StronglySorted String.le l)
    [br_ServiceNames b; br_Critical b; br_ConsumerNames b; br_RelatedStreams b] ∧
  br_Services b = length (br_ServiceNames b) ∧ br_Streams b = length (br_RelatedStreams b) ∧
  br_Consumers b = length (br_ConsumerNames b).
Proof.
  cbv zeta. unfold ComputeBlastRadius. rewrite count_consumers_split. cbn [br_ServiceNames
    br_Critical br_ConsumerNames br_RelatedStreams br_Stream br_Services br_Streams br_Consumers].
  rewrite !sortedKeys_length. split_and!; try done; try (intros x; rewrite sortedKeys_elem).
  - rewrite (elem_of_fold _ (λ c x, x ≠ "" ∧ ServiceID c = x)); [set_solver|].
    intros S c y. unfold service_of. rewrite elem_of_add_if, negb_true_iff, IsEmpty_false. naive_solver.
  - rewrite (elem_of_fold _ (λ c x, x ≠ "" ∧ ServiceID c = x ∧ IsCriticalConsumer c = true)); [set_solver|].
    intros S c y. unfold critical_of.
    rewrite elem_of_add_if, andb_true_iff, negb_true_iff, IsEmpty_false. naive_solver.
  - rewrite (elem_of_fold _ (λ c x, x ≠ "" ∧ consumerDisplayName c = x)); [set_solver|].
    intros S c y. unfold display_of. rewrite elem_of_add_if, negb_true_iff, IsEmpty_false. naive_solver.
  - rewrite (elem_of_fold _ (related (TrimSpace (stream_name target)))); [set_solver|].
    apply elem_of_relate.
  - repeat constructor; (apply sortedKeys_NoDup || apply sortedKeys_sorted).
Qed.
End Radius.
