(* ===== verification/Store.v ===== *)
(** The tables of the console's database that authentication and authorization
    use, with the statements the repository runs on them: internal/repo/
    {users,access_grants,auth_persistence,refresh_tokens}.go, their
    [..._queries.go] and the constraints of migrations/*.sql.

    Each method is one computation over [Tables]; a transaction that fails
    leaves the tables as they were.  [t_up] says whether the server answers:
    when it does not, every method returns [ErrDB]. *)

From S2P Require Export Authz.

(** The errors of internal/domain/errors.go the operations return, [ErrMsg] for
    an [errors.New] text, and [ErrDB] for an error of the driver (server
    unreachable, constraint violated). *)
Inductive err :=
  | ErrNotFound | ErrForbidden | ErrRootProtected | ErrCannotEscalate
  | ErrConflict | ErrUnauthorized | ErrRefreshReuse
  | ErrMsg (m : string) | ErrDB.

#[export] Instance err_eq_dec : EqDecision err.
Proof. solve_decision. Defined.

(** * Rows *)

Record UserRow := {
  row_Username : string;
  row_Email : string;
  row_PasswordHash : string;
  row_OIDCSub : string;
  row_IsRoot : bool;
  row_AccessRules : option AccessRules;
  row_CreatedAt : Z;
}.

Record UserInvite := {
  inv_Token : string;
  inv_UserID : string;
  inv_ExpiresAt : Z;
  inv_CreatedAt : Z;
  inv_AcceptedAt : option Z;
}.

Record RefreshToken := {
  rt_ID : string;
  rt_UserID : string;
  rt_TokenHash : string;
  rt_FingerprintHash : string;
  rt_ExpiresAt : Z;
  rt_ReplacedBy : string;   (* empty when not rotated *)
}.

Record Tables := mkTables {
  t_up : bool;
  t_users : gmap string UserRow;              (* by id *)
  t_user_roles : gmap string (gset string);   (* user id, role names *)
  t_grants : gmap string AccessGrant;         (* by id *)
  t_invites : gmap string UserInvite;         (* by token *)
  t_versions : gmap string Z;                 (* auth_user_versions *)
  t_revocations : gmap string Z;              (* auth_session_revocations *)
  t_refresh : gmap string RefreshToken;       (* by id *)
}.

Definition set_users f t := mkTables (t_up t) (f (t_users t)) (t_user_roles t)
  (t_grants t) (t_invites t) (t_versions t) (t_revocations t) (t_refresh t).
Definition set_user_roles f t := mkTables (t_up t) (t_users t) (f (t_user_roles t))
  (t_grants t) (t_invites t) (t_versions t) (t_revocations t) (t_refresh t).
Definition set_grants f t := mkTables (t_up t) (t_users t) (t_user_roles t)
  (f (t_grants t)) (t_invites t) (t_versions t) (t_revocations t) (t_refresh t).
Definition set_invites f t := mkTables (t_up t) (t_users t) (t_user_roles t)
  (t_grants t) (f (t_invites t)) (t_versions t) (t_revocations t) (t_refresh t).
Definition set_versions f t := mkTables (t_up t) (t_users t) (t_user_roles t)
  (t_grants t) (t_invites t) (f (t_versions t)) (t_revocations t) (t_refresh t).
Definition set_revocations f t := mkTables (t_up t) (t_users t) (t_user_roles t)
  (t_grants t) (t_invites t) (t_versions t) (f (t_revocations t)) (t_refresh t).
Definition set_refresh f t := mkTables (t_up t) (t_users t) (t_user_roles t)
  (t_grants t) (t_invites t) (t_versions t) (t_revocations t) (f (t_refresh t)).

Definition empty_tables : Tables := mkTables true ∅ ∅ ∅ ∅ ∅ ∅ ∅.

Abbreviation DBM := (M Tables err).

(** Fail when the server does not answer. *)
Definition online : DBM unit := λ t, (if t_up t then Ok tt else Err ErrDB, t).

(** [tx.Begin] ... [tx.Commit] with a deferred rollback: nothing of a failed
    transaction stays. *)
Definition transaction {A} (m : DBM A) : DBM A := λ t,
  match m t with
  | (Ok a, t') => (Ok a, t')
  | (Err e, _) => (Err e, t)
  end.

(** * Users *)

Section Users.
(** [bcrypt.GenerateFromPassword], which refuses long passwords. *)
Context (bcrypt : string → option string).

Definition generate_hash (password : string) : DBM string :=
  lift (match bcrypt password with Some h => Ok h | None => Err (ErrMsg "bcrypt") end).

(** The grants of a user, by (resource_type, resource_key). *)
Definition grant_le (g h : AccessGrant) : Prop :=
  String.le (g_ResourceType g) (g_ResourceType h) ∧
  (g_ResourceType g = g_ResourceType h → String.le (g_ResourceKey g) (g_ResourceKey h)).
#[local] Instance grant_le_dec g h : Decision (grant_le g h).
Proof.
  unfold grant_le. destruct (decide (g_ResourceType g = g_ResourceType h)).
  - destruct (decide (String.le (g_ResourceType g) (g_ResourceType h)));
      [|right; tauto].
    destruct (decide (String.le (g_ResourceKey g) (g_ResourceKey h)));
      [left|right]; tauto.
  - destruct (decide (String.le (g_ResourceType g) (g_ResourceType h)));
      [left|right]; tauto.
Defined.

Definition grants_of (t : Tables) (userID : string) : list AccessGrant :=
  merge_sort grant_le
    (filter (λ g, g_UserID g = userID) (map_to_list (t_grants t)).*2).

Definition roles_of (t : Tables) (userID : string) : list string :=
  SortStrings (elements (default ∅ (t_user_roles t !! userID))).

(** A row of the user select, the aggregated roles and grants included.
    [SessionVersion] is left at zero: auth.Service stamps it. *)
Definition user_of_row (t : Tables) (id : string) (r : UserRow) : User := {|
  u_ID := id; u_Username := row_Username r; u_Email := row_Email r;
  u_OIDCSub := row_OIDCSub r; u_Roles := roles_of t id;
  u_AccessRules := row_AccessRules r; u_Grants := grants_of t id;
  u_IsRoot := row_IsRoot r; u_SessionVersion := 0; u_CreatedAt := row_CreatedAt r;
|}.

Definition find_user (p : string → UserRow → bool) (t : Tables) : option (string * UserRow) :=
  List.find (λ kr, p kr.1 kr.2) (map_to_list (t_users t)).

Definition GetUserByID (id : string) : DBM User :=
  online ;;
  let! t := get in
  match t_users t !! id with
  | Some r => ret (user_of_row t id r)
  | None => fail ErrNotFound
  end.

Definition GetUserByUsername (username : string) : DBM (User * string) :=
  online ;;
  let! t := get in
  match find_user (λ _ r, row_Username r =s username) t with
  | Some (id, r) => ret (user_of_row t id r, row_PasswordHash r)
  | None => fail ErrNotFound
  end.

(** ORDER BY is_root DESC, username ASC *)
Definition user_le (u v : User) : Prop :=
  (u_IsRoot v = true → u_IsRoot u = true) ∧
  (u_IsRoot u = u_IsRoot v → String.le (u_Username u) (u_Username v)).
#[local] Instance user_le_dec u v : Decision (user_le u v).
Proof.
  unfold user_le. destruct (decide (String.le (u_Username u) (u_Username v)));
    destruct (u_IsRoot u), (u_IsRoot v);
    first [left; naive_solver | right; naive_solver].
Defined.

Definition ListUsers : DBM (list User) :=
  online ;;
  let! t := get in
  ret (merge_sort user_le ((λ kr, user_of_row t kr.1 kr.2) <$> map_to_list (t_users t))).

Definition HasRootUser : DBM bool :=
  online ;;
  let! t := get in
  ret (match find_user (λ _ r, row_IsRoot r) t with Some _ => true | None => false end).

Definition CountUsers : DBM nat :=
  online ;; let! t := get in ret (size (t_users t)).

(** The role must be in the roles table, the user in the users table (foreign
    key), and a role twice violates the primary key (user_id, role_id). *)
Fixpoint insert_roles (userID : string) (roles : list string) : DBM unit :=
  match roles with
  | [] => ret tt
  | role :: roles =>
      ensure (known_role role) (ErrMsg ("unknown role " +:+ role)) ;;
      let! t := get in
      let held := default ∅ (t_user_roles t !! userID) in
      ensure (match t_users t !! userID with Some _ => true | None => false end) ErrDB ;;
      ensure (negb (bool_decide (role ∈ held))) ErrDB ;;
      modify (set_user_roles <[userID := {[role]} ∪ held]>) ;;
      insert_roles userID roles
  end.

Definition setUserRolesTx (userID : string) (roles : list string) : DBM unit :=
  modify (set_user_roles (delete userID)) ;;
  insert_roles userID roles.

Record UserCreate := {
  uc_AccessRules : option AccessRules;
  uc_Username : string;
  uc_Email : string;
  uc_Password : string;
  uc_OIDCSub : string;
  uc_PasswordHash : string;
  uc_Roles : list string;
  uc_IsRoot : bool;
}.

Record UserUpdate := {
  uu_Email : option string;
  uu_Password : option string;
  uu_AccessRules : option AccessRules;
  uu_Roles : list string;
  uu_SetRoles : bool;
  uu_SetRules : bool;
}.

(** The insert, with the primary key, the unique username, the unique
    non-empty oidc_sub and the index idx_users_single_root. *)
Definition insert_user (id : string) (r : UserRow) : DBM unit :=
  let! t := get in
  ensure (match t_users t !! id with None => true | Some _ => false end) ErrDB ;;
  ensure (match find_user (λ _ x, (row_Username x =s row_Username r) ||
              (negb (IsEmpty (row_OIDCSub r)) && (row_OIDCSub x =s row_OIDCSub r))) t
          with None => true | Some _ => false end) ErrDB ;;
  ensure (negb (row_IsRoot r &&
            match find_user (λ _ x, row_IsRoot x) t with Some _ => true | None => false end))
    ErrDB ;;
  modify (set_users <[id := r]>).

(** [newID()] and [time.Now()] are the arguments [id] and [now]. *)
Definition CreateUser (id : string) (now : Z) (inp : UserCreate) : DBM User :=
  (if uc_IsRoot inp
   then let! exists_ := HasRootUser in ensure (negb exists_) ErrConflict
   else ret tt) ;;
  let! hash :=
    (if IsEmpty (uc_PasswordHash inp) && negb (IsEmpty (uc_Password inp))
     then generate_hash (uc_Password inp) else ret (uc_PasswordHash inp)) in
  let r := {| row_Username := uc_Username inp; row_Email := uc_Email inp;
              row_PasswordHash := hash; row_OIDCSub := uc_OIDCSub inp;
              row_IsRoot := uc_IsRoot inp; row_AccessRules := uc_AccessRules inp;
              row_CreatedAt := now |} in
  let roles := match uc_Roles inp with [] => [RoleViewer] | rs => rs end in
  transaction (
    online ;;
    insert_user id r ;;
    setUserRolesTx id roles ;;
    ret {| u_ID := id; u_Username := uc_Username inp; u_Email := uc_Email inp;
           u_OIDCSub := uc_OIDCSub inp; u_Roles := roles;
           u_AccessRules := uc_AccessRules inp; u_Grants := [];
           u_IsRoot := uc_IsRoot inp; u_SessionVersion := 0; u_CreatedAt := now |}).

Definition update_row (id : string) (f : UserRow → UserRow) : DBM unit :=
  modify (set_users (alter f id)).

Definition row_set_email e (r : UserRow) : UserRow := {|
  row_Username := row_Username r; row_Email := e;
  row_PasswordHash := row_PasswordHash r; row_OIDCSub := row_OIDCSub r;
  row_IsRoot := row_IsRoot r; row_AccessRules := row_AccessRules r;
  row_CreatedAt := row_CreatedAt r |}.
Definition row_set_hash h (r : UserRow) : UserRow := {|
  row_Username := row_Username r; row_Email := row_Email r;
  row_PasswordHash := h; row_OIDCSub := row_OIDCSub r;
  row_IsRoot := row_IsRoot r; row_AccessRules := row_AccessRules r;
  row_CreatedAt := row_CreatedAt r |}.
Definition row_set_rules rules (r : UserRow) : UserRow := {|
  row_Username := row_Username r; row_Email := row_Email r;
  row_PasswordHash := row_PasswordHash r; row_OIDCSub := row_OIDCSub r;
  row_IsRoot := row_IsRoot r; row_AccessRules := rules;
  row_CreatedAt := row_CreatedAt r |}.

Definition update_email_password (userID : string) (inp : UserUpdate) : DBM unit :=
  match uu_Email inp, uu_Password inp with
  | Some e, Some p =>
      let! h := generate_hash p in update_row userID (row_set_hash h ∘ row_set_email e)
  | Some e, None => update_row userID (row_set_email e)
  | None, Some p => let! h := generate_hash p in update_row userID (row_set_hash h)
  | None, None => ret tt
  end.

(** Nil access rules are stored as NULL ([ClearRules], or [encodeAccessRules]
    of a nil pointer).  An UPDATE of an unknown id changes no row. *)
Definition UpdateUser (userID : string) (inp : UserUpdate) : DBM User :=
  transaction (
    online ;;
    update_email_password userID inp ;;
    (if uu_SetRules inp then update_row userID (row_set_rules (uu_AccessRules inp))
     else ret tt) ;;
    (if uu_SetRoles inp then setUserRolesTx userID (uu_Roles inp) else ret tt)) ;;
  GetUserByID userID.

(** ON DELETE CASCADE of user_roles, access_grants and user_invites. *)
Definition cascade_user (id : string) (t : Tables) : Tables :=
  set_invites (filter (λ kv, inv_UserID kv.2 ≠ id))
    (set_grants (filter (λ kv, g_UserID kv.2 ≠ id))
      (set_user_roles (delete id) (set_users (delete id) t))).

Definition DeleteUser (userID : string) : DBM unit :=
  let! user := GetUserByID userID in
  ensure (negb (u_IsRoot user)) ErrRootProtected ;;
  modify (cascade_user userID).
End Users.

(** * Access grants *)

Record AccessGrantUpsert := {
  agu_UserID : string;
  agu_ResourceType : string;
  agu_ResourceKey : string;
  agu_Role : string;
}.

Definition validateGrant (inp : AccessGrantUpsert) : option string :=
  if negb ((agu_ResourceType inp =s ResourceSystem) ||
           (agu_ResourceType inp =s ResourceAccount) ||
           (agu_ResourceType inp =s ResourceNATSUser))
  then Some "invalid resource type"
  else
    let role_error :=
      if (agu_Role inp =s GrantAdmin) || (agu_Role inp =s GrantObserver) then None
      else if agu_Role inp =s GrantCredentialDownloader then
        if negb (agu_ResourceType inp =s ResourceAccount) &&
           negb (agu_ResourceType inp =s ResourceNATSUser)
        then Some "credential_downloader requires account or nats_user resource"
        else None
      else Some "invalid grant role" in
    match role_error with
    | Some e => Some e
    | None =>
        if IsEmpty (TrimSpace (agu_UserID inp)) || IsEmpty (TrimSpace (agu_ResourceKey inp))
        then Some "userId and resourceKey required" else None
    end.

(** The key of the unique index of access_grants. *)
Definition same_grant (userID rtype rkey : string) (g : AccessGrant) : bool :=
  (g_UserID g =s userID) && (g_ResourceType g =s rtype) && (g_ResourceKey g =s rkey).

Definition find_grant (userID rtype rkey : string) (t : Tables) : option (string * AccessGrant) :=
  List.find (λ kg, same_grant userID rtype rkey kg.2) (map_to_list (t_grants t)).

(** INSERT ... ON CONFLICT (user_id, resource_type, resource_key) DO UPDATE; the
    user must exist (foreign key). *)
Definition UpsertAccessGrant (id : string) (inp : AccessGrantUpsert) : DBM AccessGrant :=
  match validateGrant inp with
  | Some e => fail (ErrMsg e)
  | None =>
      online ;;
      let! t := get in
      let row id := {| g_ID := id; g_UserID := agu_UserID inp;
                       g_ResourceType := agu_ResourceType inp;
                       g_ResourceKey := agu_ResourceKey inp; g_Role := agu_Role inp |} in
      match find_grant (agu_UserID inp) (agu_ResourceType inp) (agu_ResourceKey inp) t with
      | Some (old, _) =>
          modify (set_grants <[old := row old]>) ;; ret (row old)
      | None =>
          ensure (match t_users t !! agu_UserID inp with Some _ => true | None => false end)
            ErrDB ;;
          ensure (match t_grants t !! id with Some _ => false | None => true end) ErrDB ;;
          modify (set_grants <[id := row id]>) ;; ret (row id)
      end
  end.

(** Returns the user whose grant it was. *)
Definition DeleteAccessGrantScoped (id rtype rkey : string) : DBM string :=
  online ;;
  let! t := get in
  match t_grants t !! id with
  | Some g =>
      ensure ((g_ResourceType g =s rtype) && (g_ResourceKey g =s rkey)) ErrNotFound ;;
      modify (set_grants (delete id)) ;;
      ret (g_UserID g)
  | None => fail ErrNotFound
  end.

Definition DeleteAccessGrantByResource (userID rtype rkey : string) : DBM unit :=
  online ;;
  let! t := get in
  ensure (match find_grant userID rtype rkey t with Some _ => true | None => false end)
    ErrNotFound ;;
  modify (set_grants (filter (λ kg, same_grant userID rtype rkey kg.2 = false))).

(** JOIN users, ORDER BY username *)
Definition username_of (t : Tables) (g : AccessGrant) : string :=
  match t_users t !! g_UserID g with Some r => row_Username r | None => "" end.

Definition ListAccessGrantsByResource (rtype rkey : string) : DBM (list AccessGrant) :=
  online ;;
  let! t := get in
  ret (merge_sort (λ g h, String.le (username_of t g) (username_of t h))
         (filter (λ g, g_ResourceType g = rtype ∧ g_ResourceKey g = rkey)
            (map_to_list (t_grants t)).*2)).

(** * Invites *)

Definition default_invite_ttl : Z := 7 * 24 * 3600 * 1000000000.

(** [randomToken(32)] is the argument [token]. *)
Definition CreateUserInvite (token : string) (now : Z) (userID : string) (ttl : Z) : DBM UserInvite :=
  let ttl := if (ttl <=? 0)%Z then default_invite_ttl else ttl in
  let inv := {| inv_Token := token; inv_UserID := userID; inv_ExpiresAt := (now + ttl)%Z;
                inv_CreatedAt := now; inv_AcceptedAt := None |} in
  online ;;
  let! t := get in
  ensure (match t_users t !! userID with Some _ => true | None => false end) ErrDB ;;
  ensure (match t_invites t !! token with Some _ => false | None => true end) ErrDB ;;
  modify (set_invites <[token := inv]>) ;;
  ret inv.

(** The select joins users; the foreign key makes the join total. *)
Definition GetUserInvite (token : string) : DBM UserInvite :=
  online ;;
  let! t := get in
  match t_invites t !! token with
  | Some inv => ret inv
  | None => fail ErrNotFound
  end.

Definition invite_accepted (now : Z) (inv : UserInvite) : UserInvite := {|
  inv_Token := inv_Token inv; inv_UserID := inv_UserID inv;
  inv_ExpiresAt := inv_ExpiresAt inv; inv_CreatedAt := inv_CreatedAt inv;
  inv_AcceptedAt := Some now |}.

(** UPDATE user_invites ... WHERE accepted_at IS NULL AND expires_at > now *)
Definition mark_invite (token : string) (now : Z) : DBM unit :=
  let! t := get in
  match t_invites t !! token with
  | Some inv =>
      ensure (match inv_AcceptedAt inv with None => true | Some _ => false end &&
              (now <? inv_ExpiresAt inv)%Z) ErrConflict ;;
      modify (set_invites <[token := invite_accepted now inv]>)
  | None => fail ErrConflict
  end.

Definition minPasswordLen : nat := 8.

(** The clock is read once for the early test and again for the update. *)
Definition AcceptUserInvite (bcrypt : string → option string) (now1 now2 : Z)
    (token password : string) : DBM User :=
  let! inv := GetUserInvite token in
  ensure (match inv_AcceptedAt inv with None => true | Some _ => false end) ErrConflict ;;
  ensure (negb (inv_ExpiresAt inv <? now1)%Z) ErrNotFound ;;
  let password := TrimSpace password in
  ensure (negb (IsEmpty password)) (ErrMsg "password required") ;;
  ensure (negb (Nat.ltb (String.length password) minPasswordLen))
    (ErrMsg "password must be at least 8 characters") ;;
  let! hash := generate_hash bcrypt password in
  transaction (
    online ;;
    mark_invite token now2 ;;
    update_row (inv_UserID inv) (row_set_hash hash)) ;;
  GetUserByID (inv_UserID inv).

(** * User versions and session revocations *)

Definition GetUserVersion (userID : string) : DBM Z :=
  online ;; let! t := get in ret (default 1%Z (t_versions t !! userID)).

Definition BumpUserVersion (userID : string) : DBM Z :=
  online ;;
  let! t := get in
  let v := match t_versions t !! userID with Some v => (v + 1)%Z | None => 2%Z end in
  modify (set_versions <[userID := v]>) ;;
  ret v.

(** ON CONFLICT (jti) DO UPDATE SET expires_at = GREATEST(old, new) *)
Definition RevokeSession (jti : string) (expiresAt : Z) : DBM unit :=
  online ;;
  modify (set_revocations (λ m,
    <[jti := match m !! jti with
             | Some old => Z.max old expiresAt
             | None => expiresAt
             end]> m)).

Definition IsSessionRevoked (now : Z) (jti : string) : DBM bool :=
  online ;;
  let! t := get in
  ret (match t_revocations t !! jti with Some e => (now <? e)%Z | None => false end).

Definition PurgeExpiredSessionRevocations (now : Z) : DBM unit :=
  online ;; modify (set_revocations (filter (λ kv, ¬ (kv.2 < now)%Z))).

(** * Refresh tokens *)

Definition InsertRefreshToken (id userID tokenHash fph : string) (expiresAt : Z) : DBM RefreshToken :=
  let row := {| rt_ID := id; rt_UserID := userID; rt_TokenHash := tokenHash;
                rt_FingerprintHash := fph; rt_ExpiresAt := expiresAt;
                rt_ReplacedBy := "" |} in
  online ;;
  let! t := get in
  ensure (match t_refresh t !! id with Some _ => false | None => true end) ErrDB ;;
  ensure (negb (existsb (λ kr, rt_TokenHash kr.2 =s tokenHash) (map_to_list (t_refresh t))))
    ErrDB ;;
  modify (set_refresh <[id := row]>) ;;
  ret row.

Definition find_refresh (tokenHash : string) (t : Tables) : option RefreshToken :=
  snd <$> List.find (λ kr, rt_TokenHash kr.2 =s tokenHash) (map_to_list (t_refresh t)).

Definition GetRefreshTokenByHash (tokenHash : string) : DBM RefreshToken :=
  online ;;
  let! t := get in
  match find_refresh tokenHash t with
  | Some r => ret r
  | None => fail ErrNotFound
  end.

Definition refresh_replaced (newID : string) (r : RefreshToken) : RefreshToken := {|
  rt_ID := rt_ID r; rt_UserID := rt_UserID r; rt_TokenHash := rt_TokenHash r;
  rt_FingerprintHash := rt_FingerprintHash r; rt_ExpiresAt := rt_ExpiresAt r;
  rt_ReplacedBy := newID |}.

(** UPDATE ... WHERE id = $1 AND replaced_by IS NULL; the new id must exist
    (foreign key to the same table). *)
Definition MarkRefreshTokenReplaced (id newID : string) : DBM bool :=
  online ;;
  let! t := get in
  match t_refresh t !! id with
  | Some r =>
      if negb (IsEmpty (rt_ReplacedBy r)) then ret false
      else
        ensure (match t_refresh t !! newID with Some _ => true | None => false end) ErrDB ;;
        modify (set_refresh <[id := refresh_replaced newID r]>) ;;
        ret true
  | None => ret false
  end.

(** DELETE keeps the foreign key replaced_by -> id: it fails when a row that
    stays points to a row that goes. *)
Definition delete_refresh (gone : RefreshToken → bool) : DBM unit :=
  online ;;
  let! t := get in
  let rows := (map_to_list (t_refresh t)).*2 in
  let dangling r := negb (gone r) && negb (IsEmpty (rt_ReplacedBy r)) &&
    existsb (λ d, gone d && (rt_ID d =s rt_ReplacedBy r)) rows in
  ensure (negb (existsb dangling rows)) ErrDB ;;
  modify (set_refresh (filter (λ kr, gone kr.2 = false))).

Definition DeleteRefreshTokensByUser (userID : string) : DBM unit :=
  delete_refresh (λ r, rt_UserID r =s userID).

Definition DeleteRefreshTokenByHash (tokenHash : string) : DBM unit :=
  delete_refresh (λ r, rt_TokenHash r =s tokenHash).

Definition PurgeExpiredRefreshTokens (now : Z) : DBM unit :=
  delete_refresh (λ r, (rt_ExpiresAt r <? now)%Z).
