(* ===== verification/StoreFacts.v ===== *)
(** The constraints of the auth tables hold in every state the repository can
    reach: the invariant of [Store], preserved by every method. *)

From S2P Require Export Store.

(** * The invariant *)

(** Keys, uniqueness and references between the tables, the single root user
    and the roles that exist. *)
Record tables_ok (t : Tables) : Prop := {
  ok_username : ∀ i j r s, t_users t !! i = Some r → t_users t !! j = Some s →
    row_Username r = row_Username s → i = j;
  ok_oidc : ∀ i j r s, t_users t !! i = Some r → t_users t !! j = Some s →
    row_OIDCSub r ≠ "" → row_OIDCSub r = row_OIDCSub s → i = j;
  ok_root : ∀ i j r s, t_users t !! i = Some r → t_users t !! j = Some s →
    row_IsRoot r = true → row_IsRoot s = true → i = j;
  ok_roles : ∀ i roles, t_user_roles t !! i = Some roles →
    is_Some (t_users t !! i) ∧ ∀ role, role ∈ roles → known_role role = true;
  ok_grants : ∀ i g, t_grants t !! i = Some g →
    g_ID g = i ∧ is_Some (t_users t !! g_UserID g) ∧
    validateGrant {| agu_UserID := g_UserID g; agu_ResourceType := g_ResourceType g;
                     agu_ResourceKey := g_ResourceKey g; agu_Role := g_Role g |} = None;
  ok_grant_key : ∀ i j g h, t_grants t !! i = Some g → t_grants t !! j = Some h →
    same_grant (g_UserID h) (g_ResourceType h) (g_ResourceKey h) g = true → i = j;
  ok_invites : ∀ token inv, t_invites t !! token = Some inv →
    inv_Token inv = token ∧ is_Some (t_users t !! inv_UserID inv);
  ok_refresh : ∀ i r, t_refresh t !! i = Some r →
    rt_ID r = i ∧ (rt_ReplacedBy r ≠ "" → is_Some (t_refresh t !! rt_ReplacedBy r));
  ok_token_hash : ∀ i j r s, t_refresh t !! i = Some r → t_refresh t !! j = Some s →
    rt_TokenHash r = rt_TokenHash s → i = j;
}.

(** The root user stays, under the same name. *)
Definition root_stays (t t' : Tables) : Prop :=
  ∀ i r, t_users t !! i = Some r → row_IsRoot r = true →
    ∃ r', t_users t' !! i = Some r' ∧ row_IsRoot r' = true ∧ row_Username r' = row_Username r.

Definition sound : relation Tables := λ t t', tables_ok t → tables_ok t' ∧ root_stays t t'.

#[export] Instance sound_preorder : PreOrder sound.
Proof.
  split.
  - intros t Ht. split; [done|]. intros i r Hr. eauto.
  - intros t1 t2 t3 H12 H23 H1. destruct (H12 H1) as [H2 S12]. destruct (H23 H2) as [H3 S23].
    split; [done|]. intros i r Hr Hroot. destruct (S12 i r Hr Hroot) as (r2 & Hr2 & Hroot2 & E2).
    destruct (S23 i r2 Hr2 Hroot2) as (r3 & Hr3 & Hroot3 & E3). exists r3. split_and!; congruence.
Qed.

(** A step that leaves the users is sound when the other tables stay right. *)
Lemma sound_users t t' : t_users t' = t_users t → (tables_ok t → tables_ok t') → sound t t'.
Proof. intros E H Ht. split; [auto|]. intros i r Hr. rewrite E. eauto. Qed.

Lemma runs_online_db (R : relation Tables) `{!PreOrder R} : runs R online.
Proof. by intros t. Qed.
Lemma runs_transaction {A} (m : DBM A) : runs sound m → runs sound (transaction m).
Proof. intros Hm t. unfold transaction. specialize (Hm t). by destruct (m t) as [[|]]. Qed.
Lemma runs_get_then {A} (k : Tables → DBM A) :
  (∀ t, sound t (snd (k t t))) → runs sound (bind get k).
Proof. intros Hk t. apply Hk. Qed.
(** A guard that holds afterwards. *)
Lemma sound_ensure {A} b e (m : DBM A) t :
  (b = true → sound t (snd (m t))) → sound t (snd ((ensure b e ;; m) t)).
Proof. intros Hm. unfold ensure, bind. destruct b; cbn; [auto|reflexivity]. Qed.
#[export] Hint Resolve runs_online_db : runs.

Lemma is_Some_guard {A} (o : option A) :
  match o with Some _ => true | None => false end = true → is_Some o.
Proof. destruct o; [eauto|done]. Qed.
Lemma None_guard {A} (o : option A) :
  match o with Some _ => false | None => true end = true → o = None.
Proof. by destruct o. Qed.
Lemma None_guard' {A} (o : option A) :
  match o with None => true | Some _ => false end = true → o = None.
Proof. by destruct o. Qed.

Lemma find_user_None p t : find_user p t = None ↔ ∀ i r, t_users t !! i = Some r → p i r = false.
Proof.
  unfold find_user. split.
  - intros Hn i r Hr. apply (find_none _ _ Hn (i, r)).
    by apply list_elem_of_In, elem_of_map_to_list.
  - intros Hn. destruct (List.find _ _) as [[i r]|] eqn:E; [|done].
    apply find_some in E as [Hin Hp]. apply list_elem_of_In, elem_of_map_to_list in Hin.
    cbn in Hp. by rewrite (Hn _ _ Hin) in Hp.
Qed.

(** * Users *)

Lemma is_Some_alter (f : UserRow → UserRow) (m : gmap string UserRow) i j :
  is_Some (alter f i m !! j) ↔ is_Some (m !! j).
Proof. by rewrite lookup_alter_is_Some. Qed.

(** An update that keeps the columns under constraints. *)
Definition keeps_columns (f : UserRow → UserRow) : Prop := ∀ r,
  row_Username (f r) = row_Username r ∧ row_OIDCSub (f r) = row_OIDCSub r ∧
  row_IsRoot (f r) = row_IsRoot r.

Lemma alter_lookup_columns f i (m : gmap string UserRow) j r : keeps_columns f →
  alter f i m !! j = Some r → ∃ r0, m !! j = Some r0 ∧ row_Username r = row_Username r0 ∧
    row_OIDCSub r = row_OIDCSub r0 ∧ row_IsRoot r = row_IsRoot r0.
Proof.
  intros Hf. destruct (decide (i = j)) as [<-|]; [|rewrite lookup_alter_ne by done; eauto 6].
  rewrite lookup_alter_eq. destruct (m !! i) as [r0|]; [|done]. intros [= <-].
  exists r0. split; [done|]. apply Hf.
Qed.

Lemma update_row_sound id f : keeps_columns f → runs sound (update_row id f).
Proof.
  intros Hf. apply runs_modify. intros t Ht. split.
  - destruct Ht. split; cbn; try done.
    + intros i j r s (r0 & ? & ? & ? & ?)%(alter_lookup_columns f) (s0 & ? & ? & ? & ?)%(alter_lookup_columns f) ?;
        [|done..]. eapply ok_username0; [done..|congruence].
    + intros i j r s (r0 & ? & ? & ? & ?)%(alter_lookup_columns f) (s0 & ? & ? & ? & ?)%(alter_lookup_columns f) ? ?;
        [|done..]. eapply ok_oidc0; [done..|congruence|congruence].
    + intros i j r s (r0 & ? & ? & ? & ?)%(alter_lookup_columns f) (s0 & ? & ? & ? & ?)%(alter_lookup_columns f) ? ?;
        [|done..]. eapply ok_root0; [done..|congruence|congruence].
    + intros i roles Hi. rewrite is_Some_alter. eauto.
    + intros i g Hg. rewrite is_Some_alter. eauto.
    + intros tok inv Hinv. rewrite is_Some_alter. eauto.
  - intros i r Hr Hroot. cbn. destruct (decide (id = i)) as [<-|]; [|rewrite lookup_alter_ne by done; eauto].
    rewrite lookup_alter_eq, Hr. cbn. destruct (Hf r) as (E1 & _ & E3). exists (f r).
    split_and!; congruence.
Qed.

Lemma insert_user_sound id r : runs sound (insert_user id r).
Proof.
  apply runs_get_then. intros t.
  apply sound_ensure. intros Hid%None_guard'. apply sound_ensure. intros Huniq%None_guard'.
  apply sound_ensure. intros Hroot. rewrite find_user_None in Huniq.
  assert (row_IsRoot r = true → ∀ i x, t_users t !! i = Some x → row_IsRoot x = false) as Hno.
  { intros Hr. rewrite Hr in Hroot. cbn in Hroot.
    destruct (find_user (λ _ x, row_IsRoot x) t) eqn:E; [done|]. by rewrite find_user_None in E. }
  assert (∀ i x, t_users t !! i = Some x → row_Username x ≠ row_Username r ∧
    (row_OIDCSub r ≠ "" → row_OIDCSub x ≠ row_OIDCSub r)) as Hu.
  { intros i x Hx. specialize (Huniq i x Hx). go_bool. split; [done|]. intros Hne%IsEmpty_false.
    rewrite Hne in *. cbn in *. by go_bool. }
  clear Huniq. intros Ht. cbn. split.
  - destruct Ht. split; cbn; try done.
    + intros i j x y Hx Hy E. apply lookup_insert_Some in Hx as [[<- <-]|[? Hx]],
        Hy as [[<- <-]|[? Hy]]; [done|by destruct (Hu _ _ Hy)|by destruct (Hu _ _ Hx)|eauto].
    + intros i j x y Hx Hy Hne E. apply lookup_insert_Some in Hx as [[<- <-]|[? Hx]],
        Hy as [[<- <-]|[? Hy]]; [done| | |eauto].
      * destruct (Hu _ _ Hy) as [_ Hd]. by destruct (Hd Hne).
      * destruct (Hu _ _ Hx) as [_ Hd]. rewrite E in Hne. by destruct (Hd Hne).
    + intros i j x y Hx Hy Hrx Hry. apply lookup_insert_Some in Hx as [[<- <-]|[? Hx]],
        Hy as [[<- <-]|[? Hy]]; [done| | |eauto].
      * by rewrite (Hno Hrx _ _ Hy) in Hry.
      * by rewrite (Hno Hry _ _ Hx) in Hrx.
    + intros i roles Hi. destruct (ok_roles0 _ _ Hi). split; [|done].
      by apply lookup_insert_is_Some'; right.
    + intros i g Hg. destruct (ok_grants0 _ _ Hg) as (? & ? & ?). split_and!; [done| |done].
      by apply lookup_insert_is_Some'; right.
    + intros tok inv Hinv. destruct (ok_invites0 _ _ Hinv). split; [done|].
      by apply lookup_insert_is_Some'; right.
  - intros i x Hx Hrx. cbn. exists x. rewrite lookup_insert_ne; [done|]. intros <-. congruence.
Qed.

Lemma set_roles_sound id : runs sound (modify (set_user_roles (delete id)) : DBM unit).
Proof.
  apply runs_modify. intros t. apply sound_users; [done|]. intros []. split; cbn; try done.
  intros i roles [_ Hi]%lookup_delete_Some. eauto.
Qed.

Lemma insert_roles_sound id roles : runs sound (insert_roles id roles).
Proof.
  induction roles as [|role roles IH]; cbn [insert_roles]; [run_rules|].
  intros t. apply sound_ensure. intros Hknown. revert t. apply runs_get_then. intros t.
  apply sound_ensure. intros Huser%is_Some_guard. apply sound_ensure. intros _.
  etrans; [|apply IH]. apply sound_users; [done|]. intros []. split; cbn; try done.
  intros i rs Hi. apply lookup_insert_Some in Hi as [[<- <-]|[? Hi]]; [|eauto].
  split; [done|]. intros r [->%elem_of_singleton|Hr]%elem_of_union; [done|].
  destruct (t_user_roles t !! id) as [held|] eqn:Hh; [|by apply elem_of_empty in Hr].
  by eapply ok_roles0.
Qed.

Lemma columns_email e : keeps_columns (row_set_email e).
Proof. by intros r. Qed.
Lemma columns_hash h : keeps_columns (row_set_hash h).
Proof. by intros r. Qed.
Lemma columns_rules rules : keeps_columns (row_set_rules rules).
Proof. by intros r. Qed.
Lemma columns_both h e : keeps_columns (row_set_hash h ∘ row_set_email e).
Proof. by intros r. Qed.
#[export] Hint Resolve update_row_sound insert_user_sound set_roles_sound insert_roles_sound
  columns_email columns_hash columns_rules columns_both : runs.

Lemma reads_sound {A} (f : Tables → result err A) : runs sound (λ t, (f t, t)).
Proof. by intros t. Qed.

Lemma GetUserByID_sound id : runs sound (GetUserByID id).
Proof. unfold GetUserByID. run_rules. Qed.
Lemma generate_hash_sound bcrypt p : runs sound (generate_hash bcrypt p).
Proof. unfold generate_hash. run_rules. Qed.
Lemma HasRootUser_sound : runs sound HasRootUser.
Proof. unfold HasRootUser. run_rules. Qed.
#[export] Hint Resolve GetUserByID_sound generate_hash_sound HasRootUser_sound : runs.

Lemma CreateUser_sound bcrypt id now inp : runs sound (CreateUser bcrypt id now inp).
Proof. unfold CreateUser, setUserRolesTx. run_rules. apply runs_transaction. run_rules. Qed.

Lemma UpdateUser_sound bcrypt id inp : runs sound (UpdateUser bcrypt id inp).
Proof.
  unfold UpdateUser, update_email_password, setUserRolesTx. run_rules.
  apply runs_transaction. run_rules.
Qed.

(** The rows that refer to the user go with it. *)
Lemma cascade_sound id t : (∀ r, t_users t !! id = Some r → row_IsRoot r = false) →
  sound t (cascade_user id t).
Proof.
  intros Hroot Ht. split.
  - destruct Ht. unfold cascade_user. split; cbn; try done.
    + intros i j r s [_ Hr]%lookup_delete_Some [_ Hs]%lookup_delete_Some. eauto.
    + intros i j r s [_ Hr]%lookup_delete_Some [_ Hs]%lookup_delete_Some. eauto.
    + intros i j r s [_ Hr]%lookup_delete_Some [_ Hs]%lookup_delete_Some. eauto.
    + intros i roles [Hne Hi]%lookup_delete_Some. rewrite lookup_delete_ne by done. eauto.
    + intros i g [Hg Hne]%map_lookup_filter_Some. rewrite lookup_delete_ne by (symmetry; exact Hne). eauto.
    + intros i j g h [Hg _]%map_lookup_filter_Some [Hh _]%map_lookup_filter_Some. eauto.
    + intros tok inv [Hinv Hne]%map_lookup_filter_Some.
      rewrite lookup_delete_ne by (symmetry; exact Hne). eauto.
  - intros i r Hr Hr'. cbn. exists r. rewrite lookup_delete_ne; [done|]. intros <-.
    by rewrite (Hroot r Hr) in Hr'.
Qed.

Lemma DeleteUser_sound id : runs sound (DeleteUser id).
Proof.
  intros t. unfold DeleteUser, GetUserByID, online, bind, get, ret, fail.
  destruct (t_up t); [|reflexivity]. destruct (t_users t !! id) as [r|] eqn:Hr; [|reflexivity].
  unfold ensure. cbn. destruct (row_IsRoot r) eqn:Hroot; [reflexivity|]. cbn.
  apply cascade_sound. intros r' Hr'. congruence.
Qed.

(** * Grants and invites *)

Lemma find_grant_spec u ty k t :
  match find_grant u ty k t with
  | Some (i, g) => t_grants t !! i = Some g ∧ same_grant u ty k g = true
  | None => ∀ i g, t_grants t !! i = Some g → same_grant u ty k g = false
  end.
Proof.
  unfold find_grant. destruct (List.find _ _) as [[i g]|] eqn:E.
  - apply find_some in E as [Hin Hs]. split; [|done].
    by apply elem_of_map_to_list, list_elem_of_In.
  - intros i g Hg. apply (find_none _ _ E (i, g)). by apply list_elem_of_In, elem_of_map_to_list.
Qed.

Lemma same_grant_iff u ty k g : same_grant u ty k g = true ↔
  g_UserID g = u ∧ g_ResourceType g = ty ∧ g_ResourceKey g = k.
Proof. unfold same_grant. rewrite !andb_true_iff, !bool_decide_eq_true. tauto. Qed.

(** Writing a valid grant of an existing user, under the key of its own. *)
Lemma put_grant_sound t i g :
  g_ID g = i → is_Some (t_users t !! g_UserID g) →
  validateGrant {| agu_UserID := g_UserID g; agu_ResourceType := g_ResourceType g;
                   agu_ResourceKey := g_ResourceKey g; agu_Role := g_Role g |} = None →
  (∀ j h, t_grants t !! j = Some h →
     same_grant (g_UserID g) (g_ResourceType g) (g_ResourceKey g) h = true → j = i) →
  sound t (set_grants <[i := g]> t).
Proof.
  intros Hid Huser Hvalid Hkey. apply sound_users; [done|]. intros []. split; cbn; try done.
  - intros j h Hj. apply lookup_insert_Some in Hj as [[<- <-]|[? Hj]]; eauto.
  - intros a b x y Hx Hy Hs. apply lookup_insert_Some in Hx as [[<- <-]|[? Hx]],
      Hy as [[<- <-]|[? Hy]]; [done| | |eauto].
    + symmetry. apply (Hkey _ _ Hy). apply same_grant_iff in Hs as (-> & -> & ->).
      by apply same_grant_iff.
    + eauto.
Qed.

Lemma UpsertAccessGrant_sound id inp : runs sound (UpsertAccessGrant id inp).
Proof.
  unfold UpsertAccessGrant. destruct (validateGrant inp) eqn:Hv; [run_rules|].
  apply runs_bind; [apply _|run_rules|]. intros _. apply runs_get_then. intros t.
  pose proof (find_grant_spec (agu_UserID inp) (agu_ResourceType inp) (agu_ResourceKey inp) t) as Hf.
  destruct (find_grant _ _ _ t) as [[old g]|].
  - destruct Hf as [Hg Hs]. intros Ht. revert Ht.
    assert (tables_ok t → sound t (set_grants <[old := {| g_ID := old; g_UserID := agu_UserID inp;
      g_ResourceType := agu_ResourceType inp; g_ResourceKey := agu_ResourceKey inp;
      g_Role := agu_Role inp |}]> t)) as Hput; [|intros Ht; by apply Hput].
    intros Ht. apply same_grant_iff in Hs as (E1 & E2 & E3). apply put_grant_sound; cbn; [done| | |].
    + rewrite <- E1. by apply (ok_grants _ Ht old).
    + by destruct inp.
    + intros j h Hj Hs. eapply (ok_grant_key _ Ht); [done..|]. by rewrite E1, E2, E3.
  - apply sound_ensure. intros Huser%is_Some_guard. apply sound_ensure. intros Hid%None_guard.
    apply put_grant_sound; cbn; [done..|by destruct inp|].
    intros j h Hj Hs. by rewrite (Hf _ _ Hj) in Hs.
Qed.

(** Taking grants away. *)
Lemma less_grants_sound t f : (∀ i g, f (t_grants t) !! i = Some g → t_grants t !! i = Some g) →
  sound t (set_grants f t).
Proof. intros Hf. apply sound_users; [done|]. intros []. split; cbn; try done; eauto. Qed.

Lemma DeleteAccessGrantScoped_sound id ty k : runs sound (DeleteAccessGrantScoped id ty k).
Proof.
  unfold DeleteAccessGrantScoped. apply runs_bind; [apply _|run_rules|]. intros _.
  apply runs_get_then. intros t. destruct (t_grants t !! id); [|reflexivity].
  apply sound_ensure. intros _. apply less_grants_sound. by intros i g' [_ ?]%lookup_delete_Some.
Qed.

Lemma DeleteAccessGrantByResource_sound u ty k : runs sound (DeleteAccessGrantByResource u ty k).
Proof.
  unfold DeleteAccessGrantByResource. apply runs_bind; [apply _|run_rules|]. intros _.
  apply runs_get_then. intros t. apply sound_ensure. intros _.
  apply less_grants_sound. by intros i g [? _]%map_lookup_filter_Some.
Qed.

(** Writing an invite of an existing user. *)
Lemma put_invite_sound t token inv : inv_Token inv = token → is_Some (t_users t !! inv_UserID inv) →
  sound t (set_invites <[token := inv]> t).
Proof.
  intros Htok Huser. apply sound_users; [done|]. intros []. split; cbn; try done.
  intros tok i Hi. apply lookup_insert_Some in Hi as [[<- <-]|[? Hi]]; eauto.
Qed.

Lemma CreateUserInvite_sound token now u ttl : runs sound (CreateUserInvite token now u ttl).
Proof.
  unfold CreateUserInvite. apply runs_bind; [apply _|run_rules|]. intros _.
  apply runs_get_then. intros t. apply sound_ensure. intros Huser%is_Some_guard.
  apply sound_ensure. intros _. by apply put_invite_sound.
Qed.

Lemma mark_invite_sound token now : runs sound (mark_invite token now).
Proof.
  apply runs_get_then. intros t. destruct (t_invites t !! token) as [inv|] eqn:Hi; [|reflexivity].
  apply sound_ensure. intros _. intros Ht. destruct (ok_invites _ Ht _ _ Hi).
  by apply put_invite_sound.
Qed.
#[export] Hint Resolve mark_invite_sound : runs.

Lemma AcceptUserInvite_sound bcrypt now1 now2 token password :
  runs sound (AcceptUserInvite bcrypt now1 now2 token password).
Proof.
  unfold AcceptUserInvite, GetUserInvite. run_rules. apply runs_transaction. run_rules.
Qed.

(** * Versions, revocations and refresh tokens *)

Lemma versions_sound f : runs sound (modify (set_versions f) : DBM unit).
Proof. apply runs_modify. intros t. apply sound_users; [done|]. intros []. by split. Qed.
Lemma revocations_sound f : runs sound (modify (set_revocations f) : DBM unit).
Proof. apply runs_modify. intros t. apply sound_users; [done|]. intros []. by split. Qed.
#[export] Hint Resolve versions_sound revocations_sound : runs.

(** A token is inserted unreplaced, under a hash of its own. *)
Lemma InsertRefreshToken_sound id u h fph e : runs sound (InsertRefreshToken id u h fph e).
Proof.
  unfold InsertRefreshToken. apply runs_bind; [apply _|run_rules|]. intros _.
  apply runs_get_then. intros t. apply sound_ensure. intros Hid%None_guard.
  apply sound_ensure. intros Hh%negb_true_iff.
  assert (∀ j s, t_refresh t !! j = Some s → rt_TokenHash s ≠ h) as Hnew.
  { intros j s Hs. rewrite existsb_false_iff in Hh. specialize (Hh (j, s)). cbn in Hh.
    apply elem_of_map_to_list in Hs. specialize (Hh Hs). by go_bool. }
  apply sound_users; [done|]. intros []. split; cbn; try done.
  - intros i r Hr. apply lookup_insert_Some in Hr as [[<- <-]|[? Hr]]; [done|].
    destruct (ok_refresh0 _ _ Hr) as [? Href]. split; [done|]. intros Hne.
    apply lookup_insert_is_Some'. right. auto.
  - intros i j r s Hr Hs E. apply lookup_insert_Some in Hr as [[<- <-]|[? Hr]],
      Hs as [[<- <-]|[? Hs]]; [done| | |eauto].
    + by destruct (Hnew _ _ Hs).
    + by destruct (Hnew _ _ Hr).
Qed.

Lemma MarkRefreshTokenReplaced_sound id new : runs sound (MarkRefreshTokenReplaced id new).
Proof.
  unfold MarkRefreshTokenReplaced. apply runs_bind; [apply _|run_rules|]. intros _.
  apply runs_get_then. intros t. destruct (t_refresh t !! id) as [r|] eqn:Hr; [|reflexivity].
  destruct (negb _); [reflexivity|]. apply sound_ensure. intros Hnew%is_Some_guard.
  apply sound_users; [done|]. intros []. split; cbn; try done.
  - intros i s Hs. apply lookup_insert_Some in Hs as [[<- <-]|[? Hs]].
    + destruct (ok_refresh0 _ _ Hr). split; [done|]. intros _. apply lookup_insert_is_Some'. by right.
    + destruct (ok_refresh0 _ _ Hs) as [? Href]. split; [done|]. intros Hne.
      apply lookup_insert_is_Some'. right. auto.
  - intros i j x y Hx Hy E. apply lookup_insert_Some in Hx as [[<- <-]|[? Hx]],
      Hy as [[<- <-]|[? Hy]]; [done| | |eauto]; cbn in E; eauto.
Qed.

Lemma delete_refresh_sound gone : runs sound (delete_refresh gone).
Proof.
  unfold delete_refresh. apply runs_bind; [apply _|run_rules|]. intros _.
  apply runs_get_then. intros t. apply sound_ensure. intros Hd%negb_true_iff.
  apply sound_users; [done|]. intros []. split; cbn; try done.
  - intros i r [Hr Hg]%map_lookup_filter_Some. cbn in Hg. destruct (ok_refresh0 _ _ Hr) as [Hi Href].
    split; [done|]. intros Hne. destruct (Href Hne) as [d Hdk]. exists d.
    apply map_lookup_filter_Some. split; [done|]. cbn.
    rewrite existsb_false_iff in Hd. specialize (Hd r). cbn beta in Hd.
    rewrite Hg, (proj2 (IsEmpty_false _) Hne) in Hd. cbn [negb andb] in Hd.
    assert (r ∈ (map_to_list (t_refresh t)).*2) as Hin
      by (apply list_elem_of_fmap; exists (i, r); split; [done|]; by apply elem_of_map_to_list).
    specialize (Hd Hin).
    rewrite existsb_false_iff in Hd. specialize (Hd d). cbn beta in Hd. destruct (ok_refresh0 _ _ Hdk) as [Hid _].
    rewrite <- (andb_true_r (gone d)), <- (bool_decide_eq_true_2 (rt_ID d = rt_ReplacedBy r) Hid). apply Hd.
    apply list_elem_of_fmap. exists (rt_ReplacedBy r, d). split; [done|]. by apply elem_of_map_to_list.
  - intros i j r s [Hr _]%map_lookup_filter_Some [Hs _]%map_lookup_filter_Some. eauto.
Qed.

Lemma BumpUserVersion_sound u : runs sound (BumpUserVersion u).
Proof.
  unfold BumpUserVersion. apply runs_bind; [apply _|apply runs_online_db, _|]. intros _.
  apply runs_bind; [apply _|apply runs_get, _|]. intros t.
  apply runs_bind; [apply _|apply versions_sound|]. intros _. apply runs_ret, _.
Qed.

(** * The repository as a whole *)

(** A call of one of the methods that write, with the values the caller and
    the clock, the identifier source and bcrypt supply. *)
Inductive repo_op :=
  | OCreateUser (bcrypt : string → option string) (id : string) (now : Z) (inp : UserCreate)
  | OUpdateUser (bcrypt : string → option string) (id : string) (inp : UserUpdate)
  | ODeleteUser (id : string)
  | OUpsertGrant (id : string) (inp : AccessGrantUpsert)
  | ODeleteGrantScoped (id rtype rkey : string)
  | ODeleteGrantByResource (userID rtype rkey : string)
  | OCreateInvite (token : string) (now : Z) (userID : string) (ttl : Z)
  | OAcceptInvite (bcrypt : string → option string) (now1 now2 : Z) (token password : string)
  | OBumpVersion (userID : string)
  | ORevokeSession (jti : string) (expiresAt : Z)
  | OPurgeSessions (now : Z)
  | OInsertRefresh (id userID tokenHash fph : string) (expiresAt : Z)
  | OMarkReplaced (id newID : string)
  | ODeleteRefreshByUser (userID : string)
  | ODeleteRefreshByHash (tokenHash : string)
  | OPurgeRefresh (now : Z)
  | OServer (up : bool).   (* the server goes away or comes back *)

Definition done_ {A} (m : DBM A) : Tables → Tables := λ t, snd (m t).

Definition set_up (b : bool) (t : Tables) : Tables := mkTables b (t_users t) (t_user_roles t)
  (t_grants t) (t_invites t) (t_versions t) (t_revocations t) (t_refresh t).

Definition repo_step (op : repo_op) : Tables → Tables :=
  match op with
  | OCreateUser bcrypt id now inp => done_ (CreateUser bcrypt id now inp)
  | OUpdateUser bcrypt id inp => done_ (UpdateUser bcrypt id inp)
  | ODeleteUser id => done_ (DeleteUser id)
  | OUpsertGrant id inp => done_ (UpsertAccessGrant id inp)
  | ODeleteGrantScoped id ty k => done_ (DeleteAccessGrantScoped id ty k)
  | ODeleteGrantByResource u ty k => done_ (DeleteAccessGrantByResource u ty k)
  | OCreateInvite token now u ttl => done_ (CreateUserInvite token now u ttl)
  | OAcceptInvite bcrypt now1 now2 token p => done_ (AcceptUserInvite bcrypt now1 now2 token p)
  | OBumpVersion u => done_ (BumpUserVersion u)
  | ORevokeSession jti e => done_ (RevokeSession jti e)
  | OPurgeSessions now => done_ (PurgeExpiredSessionRevocations now)
  | OInsertRefresh id u h fph e => done_ (InsertRefreshToken id u h fph e)
  | OMarkReplaced id new => done_ (MarkRefreshTokenReplaced id new)
  | ODeleteRefreshByUser u => done_ (DeleteRefreshTokensByUser u)
  | ODeleteRefreshByHash h => done_ (DeleteRefreshTokenByHash h)
  | OPurgeRefresh now => done_ (PurgeExpiredRefreshTokens now)
  | OServer up => set_up up
  end.

Lemma online_then_sound {A} (m : DBM A) : runs sound m → runs sound (online ;; m).
Proof. intros H. apply runs_bind; [apply _|apply runs_online_db, _|done]. Qed.

Lemma repo_step_sound op t : sound t (repo_step op t).
Proof.
  destruct op; cbn [repo_step]; unfold done_;
    [ apply CreateUser_sound | apply UpdateUser_sound | apply DeleteUser_sound
    | apply UpsertAccessGrant_sound | apply DeleteAccessGrantScoped_sound
    | apply DeleteAccessGrantByResource_sound | apply CreateUserInvite_sound
    | apply AcceptUserInvite_sound | apply BumpUserVersion_sound
    | apply (online_then_sound _ (revocations_sound _))
    | apply (online_then_sound _ (revocations_sound _))
    | apply InsertRefreshToken_sound | apply MarkRefreshTokenReplaced_sound
    | apply delete_refresh_sound | apply delete_refresh_sound | apply delete_refresh_sound |].
  apply sound_users; [done|]. by intros [].
Qed.

Definition run_ops (ops : list repo_op) (t : Tables) : Tables := foldl (λ t op, repo_step op t) t ops.

Lemma run_ops_sound ops t : sound t (run_ops ops t).
Proof.
  revert t. induction ops as [|op ops IH]; intros t; [done|]. cbn.
  etrans; [apply repo_step_sound|apply IH].
Qed.

(** C15. The constraints of the auth tables are an invariant: after any sequence
    of repository calls (whatever their arguments, whether they succeed, fail or
    find the server down) user names, OIDC subjects, grants and token hashes are
    unique, every grant is valid and belongs to a user that exists, every invite
    and role row too, every rotated refresh token points to its successor, and
    there is at most one root user; and a root user there was before is still
    there, root, and under the same name. *)
Theorem repository_keeps_tables_ok (ops : list repo_op) (t : Tables) :
  tables_ok t → tables_ok (run_ops ops t) ∧ root_stays t (run_ops ops t).
Proof. apply run_ops_sound. Qed.

Lemma empty_tables_ok : tables_ok empty_tables.
Proof. by split. Qed.

Example repository_keeps_tables_ok_witness :
  let mk id root := OCreateUser Some id 0 {| uc_AccessRules := None; uc_Username := id;
    uc_Email := ""; uc_Password := "secret12"; uc_OIDCSub := ""; uc_PasswordHash := "";
    uc_Roles := [RoleAdmin]; uc_IsRoot := root |} in
  let ops := [mk "root" true; mk "alice" false; mk "alice" false; ODeleteUser "root";
    OUpsertGrant "g1" {| agu_UserID := "alice"; agu_ResourceType := ResourceAccount;
      agu_ResourceKey := "c1/ACC"; agu_Role := GrantAdmin |};
    OInsertRefresh "r1" "alice" "h1" "" 10; OInsertRefresh "r2" "alice" "h2" "" 10;
    OMarkReplaced "r1" "r2"; ODeleteRefreshByHash "h2"; OServer false; ODeleteUser "alice"] in
  tables_ok (run_ops ops empty_tables) ∧
  size (t_users (run_ops ops empty_tables)) = 2 ∧ size (t_refresh (run_ops ops empty_tables)) = 2.
Proof.
  split; [|split; vm_compute; reflexivity].
  apply repository_keeps_tables_ok, empty_tables_ok.
Defined.
