(* ===== verification/Rbac.v ===== *)
(** What a request path means and who may send it: the path helpers of
    internal/api/middleware/{mw,path_prefixes,auth,limiter,ai_assistant}.go, the
    role check of [VerifyRBAC], the actor filters of internal/api/apikit/rbac.go
    and the audit resource of internal/audit/audit.go. *)

From S2P Require Export Authz.
From Stdlib Require Import Ascii.

(** * Cluster paths *)

Definition clusters_prefix := "/api/v1/clusters/".

Definition hex_digit (a : ascii) : bool :=
  let n := nat_of_ascii a in
  (Nat.leb 48 n && Nat.leb n 57) || (Nat.leb 97 n && Nat.leb n 102) ||
  (Nat.leb 65 n && Nat.leb n 70).

Definition hex_group (n : nat) (s : string) : bool :=
  Nat.eqb (String.length s) n && forallb hex_digit (bytes_of s).

(** [uuidPattern]: 8-4-4-4-12 hexadecimal digits of any case.  Hexadecimal
    digits are not dashes, so splitting at the dashes is the match. *)
Definition uuidPattern (s : string) : bool :=
  match Split s "-" with
  | [a; b; c; d; e] =>
      hex_group 8 a && hex_group 4 b && hex_group 4 c && hex_group 4 d && hex_group 12 e
  | _ => false
  end.

Definition staticClusterPathSegments : list string := ["connections"].

(** The matched identifier is ASCII, where [strings.ToLower] is [lower_ascii]. *)
Definition clusterIDFromPath (path : string) : string :=
  if negb (HasPrefix path clusters_prefix) then ""
  else
    let rest := TrimPrefix path clusters_prefix in
    if IsEmpty rest then ""
    else
      let '(clusterID, _, _) := Cut rest "/" in
      if IsEmpty clusterID then ""
      else if clusterID ∈b staticClusterPathSegments then ""
      else if negb (uuidPattern clusterID) then ""
      else lower_ascii clusterID.

Definition clusterSubResource (path : string) : string :=
  if negb (HasPrefix path clusters_prefix) then ""
  else
    let rest := TrimPrefix path clusters_prefix in
    let '(_, after, _) := Cut rest "/" in
    let '(seg, _, _) := Cut after "/" in
    seg.

Definition isJetStreamResourcePath (path : string) : bool :=
  clusterSubResource path ∈b
    ["streams"; "kv"; "objects"; "request-reply"; "zombies"; "subject-naming";
     "event-genome"; "event-catalog"; "event-wikipedia"; "incident-capsules"].

Definition accountScopedClusterSegments : list string :=
  [""; "connection"; "access"; "accounts"; "nats-users"; "subject-permissions";
   "signing-groups"; "sharing"].

Definition isAccountScopedClusterPath (path : string) : bool :=
  clusterSubResource path ∈b accountScopedClusterSegments.

Definition canReadClusterPath (user : User) (clusterID path : string) : bool :=
  if isAccountScopedClusterPath path then CanAccessClusterOrAccount user clusterID
  else CanAccessCluster user clusterID.

Definition canMutateClusterPath (user : User) (clusterID path : string) : bool :=
  if isAccountScopedClusterPath path then CanAccessClusterOrAccount user clusterID
  else if negb (CanAccessCluster user clusterID) then false
  else if isJetStreamResourcePath path then CanManageJetStream user clusterID
  else CanWriteCluster user clusterID.

(** * Path classes *)

Definition pathPrefixAuthLogin := "/api/v1/auth/login".
Definition pathPrefixAuthLogout := "/api/v1/auth/logout".
Definition pathPrefixAuthRefresh := "/api/v1/auth/refresh".
Definition pathPrefixAuthConfig := "/api/v1/auth/config".
Definition pathPrefixAuthInvite := "/api/v1/auth/invite/".
Definition pathPrefixAuthAcceptInvite := "/api/v1/auth/invite/accept".
Definition pathPrefixAssistant := "/api/v1/assistant".
Definition PathPrefixPprof := "/debug/pprof".
Definition pathPrefixPprofProfile := "/api/v1/pprof/profile/profile".
Definition pathPrefixPprofProfileCPU := "/api/v1/pprof/profile/cpu".
Definition pathPrefixHealth := "/api/health".
Definition pathPrefixOpenAPI := "/api/openapi.yaml".
Definition pathPrefixSchemas := "/api/v1/schemas".

Definition isAPIPath (path : string) : bool := HasPrefix path "/api/".

Definition isPublicPath (path : string) : bool :=
  if path ∈b [pathPrefixHealth; pathPrefixOpenAPI; pathPrefixSchemas; pathPrefixAuthConfig;
              pathPrefixAuthLogin; pathPrefixAuthLogout; pathPrefixAuthRefresh;
              pathPrefixAuthAcceptInvite]
  then true else HasPrefix path pathPrefixAuthInvite.

Definition requiresAuth (path : string) : bool := isAPIPath path && negb (isPublicPath path).

Definition isPprofPath (path : string) : bool :=
  (path =s PathPrefixPprof) || HasPrefix path (PathPrefixPprof +:+ "/").

Definition isLongRunningProfilePath (path : string) : bool :=
  if isPprofPath path then HasPrefix path (PathPrefixPprof +:+ "/profile")
  else HasPrefix path pathPrefixPprofProfileCPU || HasPrefix path pathPrefixPprofProfile.

Definition isAuthRateLimitedPath (path : string) : bool :=
  if (path =s pathPrefixAuthLogin) || (path =s pathPrefixAuthAcceptInvite) then true
  else HasPrefix path pathPrefixAuthInvite.

Definition isAITimeoutPath (path : string) : bool :=
  HasPrefix path pathPrefixAssistant ||
  Contains path "/assistant/chat" ||
  Contains path "/architecture-review/ask" ||
  Contains path "/architecture-refactor/ask" ||
  Contains path "/architecture-score/ask" ||
  Contains path "/architecture-export" ||
  Contains path "/chaos-story/generate" ||
  Contains path "/hidden-bottlenecks/ask".

Definition routeLabel (path : string) : string :=
  if HasPrefix path "/api/v1/clusters/" then "/api/v1/clusters/{clusterId}" else path.

(** Methods that do not change state. *)
Definition safe_method (method : string) : bool :=
  (method =s "GET") || (method =s "HEAD") || (method =s "OPTIONS").

Definition requiresFreshAuthz (path method : string) : bool :=
  if Contains path "/creds" || Contains path "/assign" ||
     (Contains path "/nats-users/" && HasSuffix path "/rotate") ||
     Contains path "/mint-jwt" || Contains path "/access/" ||
     HasSuffix path "/access" || Contains path "/grants"
  then true
  else if negb (safe_method method) then
    if HasPrefix path "/api/v1/users" || HasPrefix path "/api/v1/people" then true
    else Contains path "/nats-users" || Contains path "/signing-groups" ||
         Contains path "/sharing"
  else false.

(** * The role check

    The body of [VerifyRBAC] once the user is known: [true] calls the next
    handler, [false] answers 403. *)

Definition users_path (path : string) : bool :=
  HasPrefix path "/api/v1/users" || HasPrefix path "/api/v1/people".

Definition rbac_read (user : User) (path : string) : bool :=
  if HasPrefix path "/api/v1/audit" && negb (CanViewAudit user) then false
  else if users_path path && negb (CanManageUsers user) then false
  else if HasPrefix path "/api/v1/alert-rules" && negb (CanManageAlertRules user) then false
  else if HasPrefix path "/api/v1/pprof" && negb (CanViewProfiling user) then false
  else let clusterID := clusterIDFromPath path in
       if negb (IsEmpty clusterID) && negb (canReadClusterPath user clusterID path) then false
       else true.

Definition acknowledge_path (method path : string) : bool :=
  (method =s "POST") && HasPrefix path "/api/v1/alerts/" && HasSuffix path "/acknowledge".

Definition deletes_cluster (method path : string) : bool :=
  (method =s "DELETE") && HasPrefix path clusters_prefix &&
  negb (ContainsByte (TrimPrefix path clusters_prefix) "/").

Definition rbac_mutate (user : User) (method path : string) : bool :=
  if acknowledge_path method path then true
  else if deletes_cluster method path && negb (CanDeleteCluster user) then false
  else
    let clusterID := clusterIDFromPath path in
    let allowed :=
      if negb (IsEmpty clusterID) then canMutateClusterPath user clusterID path
      else if HasPrefix path "/api/v1/alert-rules" then CanManageAlertRules user
      else CanWrite user in
    if negb allowed then false
    else if users_path path && negb (CanManageUsers user) then false
    else if HasPrefix path "/api/v1/audit" && negb (CanViewAudit user) then false
    else true.

Definition rbac_check (user : User) (method path : string) : bool :=
  if HasPrefix path "/api/v1/admin" && negb (u_IsRoot user) then false
  else if safe_method method then rbac_read user path
  else rbac_mutate user method path.

(** * Filters of internal/api/apikit/rbac.go

    [ClusterIDFromPath], [ClusterSubResource] and [IsJetStreamResourcePath] are
    a second copy of the middleware's helpers. *)

Definition apikit_ClusterIDFromPath (path : string) : string :=
  if negb (HasPrefix path clusters_prefix) then ""
  else
    let rest := TrimPrefix path clusters_prefix in
    if IsEmpty rest then ""
    else
      let '(clusterID, _, _) := Cut rest "/" in
      if IsEmpty clusterID then ""
      else if clusterID ∈b staticClusterPathSegments then ""
      else if negb (uuidPattern clusterID) then ""
      else lower_ascii clusterID.

Definition shouldFilterClusters (perms : Permissions) : bool :=
  negb (p_IsRoot perms) && negb (p_AllClusters perms).

Definition grantNamesCluster (clusterID : string) (g : AccessGrant) : bool :=
  if g_ResourceType g =s ResourceSystem then g_ResourceKey g =s clusterID
  else if (g_ResourceType g =s ResourceAccount) || (g_ResourceType g =s ResourceNATSUser)
  then (g_ResourceKey g =s clusterID) || HasPrefix (g_ResourceKey g) (clusterID +:+ ":")
  else false.

Definition AllowsClusterWithGrants (actor : User) (clusterID : string) : bool :=
  if AllowsCluster (PermissionsFor actor) clusterID then true
  else existsb (grantNamesCluster clusterID) (u_Grants actor).

(** Over any list of items with a cluster identifier: the two Go functions
    differ in the type of the items only. *)
Definition FilterClustersForActor {A} (clusterID : A → string) (items : list A)
    (actor : User) : list A :=
  if negb (shouldFilterClusters (PermissionsFor actor)) then items
  else List.filter (λ x, AllowsClusterWithGrants actor (clusterID x)) items.

Definition grantClusterID (g : AccessGrant) : string :=
  let '(before, _, _) := Cut (g_ResourceKey g) ":" in before.

(** One iteration of the loop over the grants: [(seen, ids)].  The keys of
    [seen] are the elements of [ids] throughout. *)
Definition addGrantCluster (ids : list string) (g : AccessGrant) : list string :=
  let id := grantClusterID g in
  if IsEmpty id then ids
  else if id ∈b ids then ids
  else ids ++ [id].

Definition ClusterIDsForActor (actor : User) : list string :=
  fold_left addGrantCluster (u_Grants actor) (p_ClusterIDs (PermissionsFor actor)).

(** The filter of [ListAudit]; a nil [ClusterIDs] is [None]. *)
Record AuditFilter := {
  af_ClusterID : string;
  af_ClusterIDs : option (list string);
  af_Limit : Z;
  af_Offset : Z;
}.

Definition AuditFilterForActor (actor : User) (clusterID : string) : option AuditFilter :=
  let perms := PermissionsFor actor in
  if negb (IsEmpty clusterID) then
    if negb (AllowsClusterWithGrants actor clusterID) then None (* ErrForbidden *)
    else Some {| af_ClusterID := clusterID; af_ClusterIDs := None;
                 af_Limit := 0; af_Offset := 0 |}
  else if negb (shouldFilterClusters perms) then
    Some {| af_ClusterID := ""; af_ClusterIDs := None; af_Limit := 0; af_Offset := 0 |}
  else
    Some {| af_ClusterID := ""; af_ClusterIDs := Some (ClusterIDsForActor actor);
            af_Limit := 0; af_Offset := 0 |}.

(** * The audit trail: internal/audit/audit.go, internal/repo/audit.go *)

Record AuditEntry := {
  ae_ID : string;
  ae_Timestamp : Z;
  ae_Actor : string;
  ae_Action : string;
  ae_ClusterID : string;
  ae_ResourceType : string;
  ae_ResourceName : string;
  ae_RequestID : string;
  ae_IP : string;
  ae_Method : string;   (* the details: method, path, status *)
  ae_Path : string;
  ae_Status : Z;
}.

Definition ParseResource (path : string) : string * string :=
  let parts := Split (Trim path "/") "/" in
  if Nat.ltb (length parts) 4 then ("", "")
  else if nth 2 parts "" <>s "clusters" then ("", "")
  else if Nat.eqb (length parts) 4 then ("cluster", nth 3 parts "")
  else (nth 4 parts "", if Nat.ltb 5 (length parts) then nth 5 parts "" else "").

Definition ActionForMethod `{GoUnicode} (method : string) : string :=
  if method =s "POST" then "create"
  else if method =s "PUT" then "update"
  else if method =s "DELETE" then "delete"
  else ToLower method.

Definition audit_ClusterIDFromPath (path : string) : string :=
  let parts := Split (Trim path "/") "/" in
  if Nat.leb 4 (length parts) && (nth 2 parts "" =s "clusters") then nth 3 parts "" else "".

(** The rows a filter selects, and the page of them [ListAudit] returns, over
    the table ordered by the query (newest first). *)
Definition audit_matches (f : AuditFilter) (e : AuditEntry) : bool :=
  if negb (IsEmpty (af_ClusterID f)) then ae_ClusterID e =s af_ClusterID f
  else match af_ClusterIDs f with
  | Some ids => ae_ClusterID e ∈b ids
  | None => true
  end.

Definition audit_limit (limit : Z) : Z :=
  let limit := (if (limit <=? 0)%Z then 50 else limit)%Z in
  (if (limit >? 500)%Z then 500 else limit)%Z.

(** [None]: the driver's error for a negative offset. *)
Definition ListAudit (table : list AuditEntry) (f : AuditFilter) :
    option (list AuditEntry * nat) :=
  if IsEmpty (af_ClusterID f) && bool_decide (af_ClusterIDs f = Some []) then Some ([], 0)
  else if (af_Offset f <? 0)%Z then None
  else
    let rows := List.filter (audit_matches f) table in
    Some (take (Z.to_nat (audit_limit (af_Limit f))) (drop (Z.to_nat (af_Offset f)) rows),
          length rows).

(** * Cluster paths: lemmas *)

Lemma forallb_absent (f : ascii → bool) c s :
  f c = false → forallb f (bytes_of s) = true → ContainsByte s c = false.
Proof.
  intros Hc. induction s as [|a s IH]; [done|]. cbn. intros [Ha Hs]%andb_true_iff.
  rewrite IH by done. rewrite orb_false_r. apply bool_decide_eq_false_2. congruence.
Qed.

Lemma hex_group_no n s c : hex_digit c = false → hex_group n s = true → ContainsByte s c = false.
Proof. intros Hc H. unfold hex_group in H. go_bool. by eapply forallb_absent. Qed.

(** What the pattern accepts. *)
Lemma uuidPattern_spec s :
  uuidPattern s = true ↔
  ∃ a b c d e, s = a +:+ "-" +:+ b +:+ "-" +:+ c +:+ "-" +:+ d +:+ "-" +:+ e ∧
    hex_group 8 a = true ∧ hex_group 4 b = true ∧ hex_group 4 c = true ∧
    hex_group 4 d = true ∧ hex_group 12 e = true.
Proof.
  unfold uuidPattern. split.
  - destruct (Split s "-") as [|a [|b [|c [|d [|e [|]]]]]] eqn:E; try done.
    intros. go_bool. exists a, b, c, d, e. split; [|done].
    rewrite <- (Join_Split s "-"), E. reflexivity.
  - intros (a & b & c & d & e & -> & Ha & Hb & Hc & Hd & He).
    rewrite !(app_cons "-"), !app_nil_l.
    rewrite !Split_app, (Split_absent e) by (by eapply hex_group_no).
    by rewrite Ha, Hb, Hc, Hd, He.
Qed.

Lemma uuidPattern_no c s :
  hex_digit c = false → c ≠ "-"%char → uuidPattern s = true → ContainsByte s c = false.
Proof.
  intros Hc Hd (x & y & z & u & v & -> & H)%uuidPattern_spec.
  rewrite !ContainsByte_app. cbn. rewrite bool_decide_eq_false_2 by done.
  rewrite !(hex_group_no _ _ c Hc) by (by apply H || (destruct_and! H; eassumption)). done.
Qed.

(** What follows an identifier or a segment: nothing, or more segments. *)
Definition path_tail (tail : string) : Prop := tail = "" ∨ ∃ t, tail = String "/" t.

Lemma Cut_tail s tail :
  ContainsByte s "/" = false → path_tail tail → (Cut (s +:+ tail) "/").1.1 = s.
Proof.
  intros Hs [->|[t ->]].
  - rewrite app_nil_r. by rewrite Cut_absent.
  - by rewrite Cut_app.
Qed.

Lemma lower_ascii_empty s : IsEmpty (lower_ascii s) = IsEmpty s.
Proof. by destruct s. Qed.

Lemma uuid_no_slash id : uuidPattern id = true → ContainsByte id "/" = false.
Proof. by apply uuidPattern_no. Qed.

Lemma uuid_not_static id : uuidPattern id = true → (id ∈b staticClusterPathSegments) = false.
Proof.
  intros H. apply bool_decide_eq_false_2. unfold staticClusterPathSegments.
  rewrite list_elem_of_singleton. by intros ->.
Qed.

Lemma uuid_nonempty id : uuidPattern id = true → IsEmpty id = false.
Proof. by destruct id. Qed.

Lemma clusterIDFromPath_at id tail :
  uuidPattern id = true → path_tail tail →
  clusterIDFromPath (clusters_prefix +:+ id +:+ tail) = lower_ascii id.
Proof.
  intros Hid Ht. unfold clusterIDFromPath. rewrite HasPrefix_app, TrimPrefix_app. cbn [negb].
  assert (IsEmpty (id +:+ tail) = false) as ->.
  { apply IsEmpty_false. destruct id; [done|]. by rewrite app_cons. }
  pose proof (Cut_tail id tail (uuid_no_slash _ Hid) Ht) as HC.
  destruct (Cut (id +:+ tail) "/") as [[i a] f]. cbn in HC. subst i.
  by rewrite uuid_nonempty, uuid_not_static, Hid.
Qed.

Lemma clusterIDFromPath_inv path :
  clusterIDFromPath path ≠ "" →
  ∃ id tail, path = clusters_prefix +:+ id +:+ tail ∧ uuidPattern id = true ∧ path_tail tail.
Proof.
  unfold clusterIDFromPath. destruct (HasPrefix path _) eqn:Hp; [|done]. cbn.
  apply HasPrefix_spec in Hp as [r ->]. rewrite TrimPrefix_app.
  destruct (IsEmpty r); [done|]. destruct (Cut r "/") as [[id a] f] eqn:HC.
  destruct (IsEmpty id); [done|]. destruct (id ∈b _); [done|].
  destruct (uuidPattern id) eqn:Hid; [|done]. intros _.
  destruct f.
  - apply Cut_found in HC as [-> _]. exists id, (String "/" a). split; [done|].
    split; [done|]. right. eauto.
  - apply Cut_not_found in HC as [-> ->]. exists id, "". rewrite app_nil_r.
    split; [done|]. split; [done|]. by left.
Qed.

Lemma clusterSubResource_at id seg tail :
  uuidPattern id = true → ContainsByte seg "/" = false → path_tail tail →
  clusterSubResource (clusters_prefix +:+ id +:+ String "/" (seg +:+ tail)) = seg.
Proof.
  intros Hid Hseg Ht. unfold clusterSubResource. rewrite HasPrefix_app, TrimPrefix_app.
  cbn [negb]. rewrite Cut_app by (by apply uuid_no_slash).
  pose proof (Cut_tail seg tail Hseg Ht) as HC.
  destruct (Cut (seg +:+ tail) "/") as [[s a] f]. by cbn in HC.
Qed.

Lemma clusterSubResource_bare id :
  uuidPattern id = true → clusterSubResource (clusters_prefix +:+ id) = "".
Proof.
  intros Hid. unfold clusterSubResource. rewrite HasPrefix_app, TrimPrefix_app. cbn [negb].
  by rewrite Cut_absent by (by apply uuid_no_slash).
Qed.

(** A cluster path lies in none of the other guarded areas. *)
Lemma cluster_path_areas user method r :
  rbac_check user method (clusters_prefix +:+ r) =
  let path := clusters_prefix +:+ r in
  let clusterID := clusterIDFromPath path in
  if safe_method method then
    negb (negb (IsEmpty clusterID) && negb (canReadClusterPath user clusterID path))
  else if deletes_cluster method path && negb (CanDeleteCluster user) then false
  else if negb (IsEmpty clusterID) then canMutateClusterPath user clusterID path
  else CanWrite user.
Proof.
  unfold rbac_check, rbac_read, rbac_mutate, users_path, acknowledge_path.
  assert (∀ p, HasPrefix (clusters_prefix +:+ r) p =
               HasPrefix (clusters_prefix +:+ r) p) as _ by done.
  repeat match goal with
  | |- context [HasPrefix (clusters_prefix +:+ r) ?p] =>
      lazymatch p with
      | clusters_prefix => fail
      | _ => change (HasPrefix (clusters_prefix +:+ r) p) with false
      end
  end.
  cbn [andb orb negb]. rewrite andb_false_r. cbn [andb].
  destruct (safe_method method); [by destruct (_ && _)|].
  destruct (_ && _); [done|]. destruct (negb (IsEmpty _)); [by destruct canMutateClusterPath|].
  by destruct CanWrite.
Qed.

Lemma deletes_cluster_sub id seg tail method :
  deletes_cluster method (clusters_prefix +:+ id +:+ String "/" (seg +:+ tail)) = false.
Proof.
  unfold deletes_cluster. rewrite TrimPrefix_app, ContainsByte_app. cbn.
  by rewrite orb_true_r, andb_false_r.
Qed.

Lemma deletes_cluster_bare id method :
  uuidPattern id = true → deletes_cluster method (clusters_prefix +:+ id) = (method =s "DELETE").
Proof.
  intros H. unfold deletes_cluster. rewrite TrimPrefix_app, uuid_no_slash, HasPrefix_app by done.
  by rewrite !andb_true_r.
Qed.

(** C3. The role check on the API of a cluster, for every spelling of its
    identifier: [GET], [HEAD] and [OPTIONS] on a cluster-wide resource need read
    access to the cluster in lower case, every other method on a JetStream
    resource exactly the right to manage JetStream there and on any other
    cluster-wide resource exactly the right to write the cluster; an account
    scoped resource is open to whoever reaches the cluster at all, and the
    cluster itself likewise, except that deleting it needs that right as well. *)
Theorem rbac_cluster_decision (user : User) method id seg tail :
  uuidPattern id = true → ContainsByte seg "/" = false → path_tail tail →
  let c := lower_ascii id in
  rbac_check user method (clusters_prefix +:+ id +:+ String "/" (seg +:+ tail)) =
    (if seg ∈b accountScopedClusterSegments then CanAccessClusterOrAccount user c
     else if safe_method method then CanAccessCluster user c
     else if seg ∈b ["streams"; "kv"; "objects"; "request-reply"; "zombies"; "subject-naming";
                     "event-genome"; "event-catalog"; "event-wikipedia"; "incident-capsules"]
     then CanManageJetStream user c
     else CanWriteCluster user c) ∧
  rbac_check user method (clusters_prefix +:+ id) =
    CanAccessClusterOrAccount user c && ((method <>s "DELETE") || CanDeleteCluster user).
Proof.
  intros Hid Hseg Ht c.
  assert (IsEmpty c = false) as Hc by (unfold c; rewrite lower_ascii_empty; by apply uuid_nonempty).
  rewrite !cluster_path_areas. cbv zeta.
  assert (clusterIDFromPath (clusters_prefix +:+ id) = c) as Hb.
  { rewrite <- (app_nil_r id) at 1. rewrite clusterIDFromPath_at by (done || by left). done. }
  rewrite Hb, clusterIDFromPath_at by (done || right; eauto).
  rewrite deletes_cluster_sub, deletes_cluster_bare by done. fold c. rewrite Hc.
  cbn [negb andb]. unfold canReadClusterPath, canMutateClusterPath, isAccountScopedClusterPath,
    isJetStreamResourcePath.
  rewrite clusterSubResource_at, clusterSubResource_bare by done. split.
  - destruct (seg ∈b accountScopedClusterSegments); [by destruct safe_method, CanAccessClusterOrAccount|].
    destruct (safe_method method); [by destruct CanAccessCluster|].
    destruct (CanAccessCluster user c) eqn:HA; cbn [negb]; [done|].
    symmetry. case_bool_decide; apply not_true_iff_false; intros H'.
    + apply CanManageJetStream_write in H'. apply CanWriteCluster_access in H'. congruence.
    + apply CanWriteCluster_access in H'. congruence.
  - change ("" ∈b accountScopedClusterSegments) with true. cbv iota.
    destruct (safe_method method) eqn:Hm.
    + assert (method ≠ "DELETE") by (by intros ->).
      rewrite bool_decide_eq_false_2 by done. by destruct CanAccessClusterOrAccount.
    + by destruct (method =s "DELETE"), CanDeleteCluster, CanAccessClusterOrAccount.
Qed.

Lemma areas_disjoint r :
  HasPrefix (clusters_prefix +:+ r) "/api/v1/alert-rules" = false ∧
  HasPrefix (clusters_prefix +:+ r) "/api/v1/audit" = false ∧
  users_path (clusters_prefix +:+ r) = false.
Proof. repeat split. Qed.

Lemma alert_rules_areas p :
  HasPrefix p "/api/v1/alert-rules" = true →
  HasPrefix p "/api/v1/audit" = false ∧ users_path p = false ∧
  HasPrefix p clusters_prefix = false.
Proof. intros [r ->]%HasPrefix_spec. repeat split. Qed.

Lemma no_write_cluster user c :
  CanWrite user = false → hasAdminGrant user ResourceSystem c = false →
  CanWriteCluster user c = false ∧ CanManageJetStream user c = false.
Proof.
  unfold CanWriteCluster, CanManageJetStream, CanWrite. intros Hw ->.
  destruct (u_IsRoot user); [done|]. cbv zeta in Hw.
  apply orb_false_iff in Hw as [-> ->]. done.
Qed.

(** C4. Everything a user without a writing role may change.  Such a user, who
    holds no admin grant on a whole cluster either, passes the role check with a
    mutating method on exactly these paths outside the admin area: the
    acknowledgement of an alert, an account-scoped resource of a cluster it
    reaches (deleting the cluster itself needs that right), and the alert rules
    if it may manage them.  In particular no stream, consumer, bucket, user or
    audit record can be changed. *)
Theorem rbac_readonly_mutations (user : User) method path :
  CanWrite user = false →
  (∀ c, hasAdminGrant user ResourceSystem c = false) →
  safe_method method = false →
  rbac_check user method path = true ↔
  (HasPrefix path "/api/v1/admin" = true → u_IsRoot user = true) ∧
  (acknowledge_path method path = true ∨
   (clusterIDFromPath path ≠ "" ∧ isAccountScopedClusterPath path = true ∧
    CanAccessClusterOrAccount user (clusterIDFromPath path) = true ∧
    (deletes_cluster method path = true → CanDeleteCluster user = true)) ∨
   (HasPrefix path "/api/v1/alert-rules" = true ∧ CanManageAlertRules user = true)).
Proof.
  intros Hw Hg Hm. unfold rbac_check. rewrite Hm.
  destruct (HasPrefix path "/api/v1/admin" && negb (u_IsRoot user)) eqn:Ha.
  { go_bool. split; [done|]. intros [Hx _]. rewrite Hx in * by done. done. }
  assert (HasPrefix path "/api/v1/admin" = true → u_IsRoot user = true) as Hadm.
  { intros H. rewrite H in Ha. by destruct (u_IsRoot user). }
  clear Ha.
  unfold rbac_mutate. destruct (acknowledge_path method path); [tauto|].
  destruct (decide (clusterIDFromPath path = "")) as [E|E].
  - rewrite E. cbn [IsEmpty String.length Nat.eqb negb].
    destruct (HasPrefix path "/api/v1/alert-rules") eqn:Hal.
    + destruct (alert_rules_areas _ Hal) as (-> & -> & Hc).
      unfold deletes_cluster. rewrite Hc, andb_false_r.
      cbn. destruct (CanManageAlertRules user); intuition congruence.
    + rewrite Hw. destruct (_ && _); cbn; intuition congruence.
  - destruct (clusterIDFromPath_inv _ E) as (id & tail & Hp & Hid & Ht).
    assert (IsEmpty (clusterIDFromPath path) = false) as -> by (by apply IsEmpty_false).
    cbn [negb]. unfold canMutateClusterPath.
    destruct (no_write_cluster user (clusterIDFromPath path) Hw (Hg _)) as [-> ->].
    assert ((if isJetStreamResourcePath path then false else false) = false) as ->
      by (by destruct isJetStreamResourcePath).
    destruct (areas_disjoint (id +:+ tail)) as (Hd1 & Hd2 & Hd3). rewrite <- Hp in *.
    rewrite Hd1, Hd2, Hd3. cbn [andb].
    destruct (deletes_cluster method path), (CanDeleteCluster user),
      (isAccountScopedClusterPath path), (CanAccessClusterOrAccount user (clusterIDFromPath path)),
      (CanAccessCluster user (clusterIDFromPath path)); cbn; intuition congruence.
Qed.

(** ** The actor filters *)

Lemma AllowsCluster_rules user c :
  AllowsCluster (PermissionsFor user) c = allowsClusterRules user c.
Proof.
  unfold allowsClusterRules, isLegacyFullAdmin. rewrite HighestRole_admin.
  unfold PermissionsFor, AllowsCluster. destruct (u_IsRoot user); [done|].
  destruct (u_AccessRules user); cbn.
  - by rewrite andb_false_r.
  - rewrite andb_true_r. destruct (HasRole _ _); [done|]. cbn.
    by apply bool_decide_eq_false_2, not_elem_of_nil.
Qed.

Lemma existsb_ext {A} (f g : A → bool) l : (∀ x, f x = g x) → existsb f l = existsb g l.
Proof. intros H. induction l as [|x l IH]; [done|]. cbn. by rewrite H, IH. Qed.

Lemma existsb_orb {A} (f g : A → bool) l :
  existsb (λ x, f x || g x) l = existsb f l || existsb g l.
Proof.
  induction l as [|x l IH]; [done|]. cbn. rewrite IH.
  by destruct (f x), (g x), (existsb f l).
Qed.

Lemma grantNamesCluster_split c g :
  grantNamesCluster c g =
  (g_ResourceType g =s ResourceSystem) && (g_ResourceKey g =s c) || grantTouchesCluster c g.
Proof.
  unfold grantNamesCluster, grantTouchesCluster.
  destruct (g_ResourceType g =s ResourceSystem) eqn:E; go_bool; [rewrite E; cbn|].
  - by rewrite orb_false_r.
  - cbn. by destruct (_ || _).
Qed.

Lemma AllowsClusterWithGrants_eq actor c :
  AllowsClusterWithGrants actor c = CanAccessClusterOrAccount actor c.
Proof.
  unfold AllowsClusterWithGrants, CanAccessClusterOrAccount, CanAccessCluster,
    hasAdminOrObserverGrant.
  rewrite AllowsCluster_rules. destruct (allowsClusterRules actor c); [done|].
  rewrite (existsb_ext _ _ _ (grantNamesCluster_split c)), existsb_orb.
  by destruct (existsb _ _).
Qed.

(** The clusters and connections listed to an actor are the ones it can
    open: filtering by the actor keeps exactly the items whose cluster passes the
    test that the role check applies to the cluster's own path. *)
Theorem FilterClustersForActor_spec {A} (clusterID : A → string) items (actor : User) x :
  x ∈ FilterClustersForActor clusterID items actor ↔
  x ∈ items ∧ CanAccessClusterOrAccount actor (clusterID x) = true.
Proof.
  unfold FilterClustersForActor. destruct (shouldFilterClusters _) eqn:E; cbn.
  - rewrite list_elem_of_In, filter_In, <- list_elem_of_In. by rewrite AllowsClusterWithGrants_eq.
  - split; [|tauto]. intros Hx. split; [done|]. rewrite <- AllowsClusterWithGrants_eq.
    unfold AllowsClusterWithGrants, AllowsCluster. unfold shouldFilterClusters in E.
    by destruct (p_IsRoot _), (p_AllClusters _).
Qed.

(** A grant minted by the access handlers: of one of the three types, on a
    cluster whose identifier is not empty and free of ':'. *)
Definition grant_wf (g : AccessGrant) : Prop :=
  ∃ c r, c ≠ "" ∧ colon_free c ∧
    ((g_ResourceType g = ResourceSystem ∧ g_ResourceKey g = c) ∨
     ((g_ResourceType g = ResourceAccount ∨ g_ResourceType g = ResourceNATSUser) ∧
      g_ResourceKey g = c +:+ ":" +:+ r)).

Lemma grantClusterID_spec g c :
  grant_wf g → colon_free c →
  grantNamesCluster c g = true ↔ grantClusterID g = c.
Proof.
  intros (c' & r & Hne & Hc' & H) Hc. unfold grantNamesCluster, grantClusterID.
  destruct H as [[-> ->]|[Ht ->]].
  - rewrite Cut_absent by done. cbn. apply bool_decide_eq_true.
  - rewrite !(app_cons ":"), !app_nil_l, Cut_app by done.
    assert ((g_ResourceType g =s ResourceSystem) = false) as ->
      by (apply bool_decide_eq_false_2; by destruct Ht as [-> | ->]).
    assert ((g_ResourceType g =s ResourceAccount) || (g_ResourceType g =s ResourceNATSUser)
            = true) as -> by (by destruct Ht as [-> | ->]).
    rewrite orb_true_iff, bool_decide_eq_true, HasPrefix_spec. split.
    + intros [<-|[r' E]].
      * unfold colon_free in Hc. rewrite ContainsByte_app in Hc. cbn in Hc.
        by rewrite orb_true_r in Hc.
      * rewrite app_assoc, !(app_cons ":"), !app_nil_l in E.
        by apply (colon_key_inj c' c r r') in E as [-> _].
    + intros ->. right. exists r. by rewrite app_assoc.
Qed.

Lemma addGrantCluster_in ids g c :
  c ≠ "" → c ∈ addGrantCluster ids g ↔ c ∈ ids ∨ grantClusterID g = c.
Proof.
  intros Hc. unfold addGrantCluster. destruct (IsEmpty _) eqn:E.
  - apply IsEmpty_true in E. rewrite E. intuition congruence.
  - case_bool_decide as Hin.
    + split; [by left|]. by intros [?| <-].
    + rewrite elem_of_app, list_elem_of_singleton. intuition congruence.
Qed.

Lemma ClusterIDsForActor_in actor c :
  c ≠ "" →
  c ∈ ClusterIDsForActor actor ↔
  c ∈ p_ClusterIDs (PermissionsFor actor) ∨
  ∃ g, g ∈ u_Grants actor ∧ grantClusterID g = c.
Proof.
  intros Hc. unfold ClusterIDsForActor. generalize (p_ClusterIDs (PermissionsFor actor)).
  induction (u_Grants actor) as [|g l IH]; intros ids; cbn.
  - split; [by left|]. intros [?|(g & Hg & _)]; [done|]. by apply not_elem_of_nil in Hg.
  - rewrite IH, addGrantCluster_in by done. setoid_rewrite elem_of_cons. naive_solver.
Qed.

Lemma CanAccessClusterOrAccount_scoped actor c :
  Forall grant_wf (u_Grants actor) → colon_free c → c ≠ "" →
  shouldFilterClusters (PermissionsFor actor) = true →
  CanAccessClusterOrAccount actor c = (c ∈b ClusterIDsForActor actor).
Proof.
  intros Hwf Hc Hne Hs. apply bool_eq_iff.
  rewrite bool_decide_eq_true, ClusterIDsForActor_in, <- AllowsClusterWithGrants_eq by done.
  unfold AllowsClusterWithGrants, AllowsCluster. unfold shouldFilterClusters in Hs. go_bool.
  rewrite H, H0. cbn [orb]. rewrite Forall_forall in Hwf.
  destruct (c ∈b p_ClusterIDs (PermissionsFor actor)) eqn:E; go_bool; [tauto|].
  rewrite existsb_true_iff. split.
  - intros (g & Hg & Hn). right. exists g. split; [done|].
    by apply grantClusterID_spec; auto.
  - intros [?|(g & Hg & Hn)]; [done|]. exists g. split; [done|].
    by apply grantClusterID_spec; auto.
Qed.

(** The audit view of a scoped actor.  Its unfiltered view selects exactly
    the records of the clusters it can open, and a view of one cluster is
    granted exactly when the actor can open that cluster and then selects the
    records of that cluster.  (Grants as the access handlers mint them; records
    of no cluster, such as those on users, are never in a scoped view.) *)
Theorem AuditFilterForActor_exact (actor : User) (e : AuditEntry) c :
  Forall grant_wf (u_Grants actor) →
  shouldFilterClusters (PermissionsFor actor) = true →
  colon_free (ae_ClusterID e) → ae_ClusterID e ≠ "" → c ≠ "" →
  (∃ f, AuditFilterForActor actor "" = Some f ∧
        audit_matches f e = CanAccessClusterOrAccount actor (ae_ClusterID e)) ∧
  (is_Some (AuditFilterForActor actor c) ↔ CanAccessClusterOrAccount actor c = true) ∧
  (∀ f, AuditFilterForActor actor c = Some f → audit_matches f e = (ae_ClusterID e =s c)).
Proof.
  intros Hwf Hs Hc Hne Hcne%IsEmpty_false. unfold AuditFilterForActor. rewrite Hs, Hcne. cbn.
  rewrite AllowsClusterWithGrants_eq. repeat split.
  - eexists. split; [done|]. cbn. by rewrite CanAccessClusterOrAccount_scoped.
  - destruct (CanAccessClusterOrAccount actor c); cbn; [done|]. by intros [? [=]].
  - intros ->. eauto.
  - intros f. destruct (CanAccessClusterOrAccount actor c); cbn; [|done].
    intros [= <-]. unfold audit_matches. cbn [af_ClusterID].
    by rewrite Hcne.
Qed.

(** ** The audit trail misses spellings of a cluster *)

Definition trim_byte_right (c : ascii) (l : list ascii) : list ascii :=
  rev (trim_byte_left c (rev l)).

Lemma trim_byte_left_app c l a k :
  a ≠ c → trim_byte_left c (l ++ a :: k) = trim_byte_left c l ++ a :: k.
Proof.
  intros Ha. induction l as [|b l IH]; cbn.
  - by rewrite bool_decide_eq_false_2.
  - by case_bool_decide.
Qed.

Lemma trim_byte_right_app c l a k :
  a ≠ c → trim_byte_right c (l ++ a :: k) = l ++ a :: trim_byte_right c k.
Proof.
  intros Ha. unfold trim_byte_right. rewrite rev_app_distr. cbn.
  rewrite <- List.app_assoc. cbn. rewrite trim_byte_left_app by done.
  rewrite rev_app_distr. cbn. by rewrite rev_involutive, <- List.app_assoc.
Qed.

Lemma trim_byte_left_suffix c l : ∃ k, l = k ++ trim_byte_left c l.
Proof.
  induction l as [|a l [k IH]]; [by exists []|]. cbn. case_bool_decide.
  - exists (a :: k). cbn. by rewrite <- IH.
  - by exists [].
Qed.

Lemma trim_byte_right_prefix c l : ∃ k, l = trim_byte_right c l ++ k.
Proof.
  destruct (trim_byte_left_suffix c (rev l)) as [k H]. exists (rev k).
  unfold trim_byte_right. rewrite <- rev_app_distr, <- H. by rewrite rev_involutive.
Qed.

(** A string read as bytes, split before its last byte. *)
Lemma last_byte s c : s ≠ "" → ContainsByte s c = false →
  ∃ l a, bytes_of s = l ++ [a] ∧ a ≠ c.
Proof.
  intros Hne Hc. destruct (exists_last (l := bytes_of s)) as (l & a & E).
  { by destruct s. }
  exists l, a. split; [done|]. intros ->.
  rewrite <- (of_bytes_of s), E in Hc. clear -Hc.
  induction l as [|b l IH]; cbn in Hc; [by rewrite bool_decide_eq_true_2 in Hc|].
  apply IH. by apply orb_false_iff in Hc as [_ Hc].
Qed.


(** Trimming the slashes of a cluster path: the first one and the trailing ones. *)
Lemma Trim_cluster_path id tail :
  id ≠ "" → ContainsByte id "/" = false → path_tail tail →
  ∃ tail', path_tail tail' ∧
    Trim (clusters_prefix +:+ id +:+ tail) "/" = "api/v1/clusters/" +:+ id +:+ tail'.
Proof.
  intros Hne Hid Ht. destruct (last_byte id "/" Hne Hid) as (l & a & El & Ha).
  exists (of_bytes (trim_byte_right "/" (bytes_of tail))). split.
  - destruct (trim_byte_right_prefix "/" (bytes_of tail)) as [k Hk].
    destruct (trim_byte_right "/" (bytes_of tail)) as [|b r]; [by left|right].
    exists (of_bytes r). cbn. f_equal. destruct Ht as [->|[t ->]]; [done|].
    cbn in Hk. by injection Hk.
  - unfold Trim.
    change (trim_byte_left "/" (bytes_of (clusters_prefix +:+ id +:+ tail)))
      with (bytes_of ("api/v1/clusters/" +:+ id +:+ tail)).
    change (rev (trim_byte_left "/" (rev ?x))) with (trim_byte_right "/" x).
    rewrite !bytes_of_app, El, <- List.app_assoc, (List.app_assoc _ l). cbn [app].
    rewrite trim_byte_right_app by done.
    rewrite <- (of_bytes_of ("api/v1/clusters/" +:+ _)), !bytes_of_app, El, bytes_of_of.
    by rewrite <- !List.app_assoc.
Qed.

Lemma audit_ClusterIDFromPath_at id tail :
  uuidPattern id = true → path_tail tail →
  audit_ClusterIDFromPath (clusters_prefix +:+ id +:+ tail) = id.
Proof.
  intros Hid Ht. pose proof (uuid_no_slash id Hid) as Hs.
  pose proof (proj1 (IsEmpty_false id) (uuid_nonempty id Hid)) as Hne.
  destruct (Trim_cluster_path id tail Hne Hs Ht) as (tail' & Ht' & E).
  unfold audit_ClusterIDFromPath. rewrite E.
  change ("api/v1/clusters/" +:+ id +:+ tail')
    with ("api" +:+ String "/" ("v1" +:+ String "/" ("clusters" +:+ String "/" (id +:+ tail')))).
  rewrite !Split_app by done.
  destruct Ht' as [->|[t ->]].
  - by rewrite app_nil_r, Split_absent.
  - rewrite Split_app by done. by destruct (Split t "/").
Qed.

(** The audit trail records the cluster as it was spelled.  The role check
    and the handlers read the identifier in lower case, so a request may spell
    it in any case; the record carries the spelling.  A spelling with a capital
    digit is authorised as the cluster, yet the record matches no view of that
    cluster: neither the view filtered by it nor a scoped auditor's. *)
Theorem audit_case_evasion id tail e f :
  uuidPattern id = true → path_tail tail → lower_ascii id ≠ id →
  let path := clusters_prefix +:+ id +:+ tail in
  ae_ClusterID e = audit_ClusterIDFromPath path →
  clusterIDFromPath path = lower_ascii id ∧
  (af_ClusterID f = clusterIDFromPath path → audit_matches f e = false) ∧
  (∀ ids, af_ClusterID f = "" → af_ClusterIDs f = Some ids →
          (∀ i, i ∈ ids → lower_ascii i = i) → audit_matches f e = false).
Proof.
  intros Hid Ht Hl path He. unfold path in *. rewrite clusterIDFromPath_at by done.
  rewrite audit_ClusterIDFromPath_at in He by done.
  split; [done|]. unfold audit_matches. rewrite He. split.
  - intros ->. rewrite lower_ascii_empty, uuid_nonempty by done. cbn [negb].
    by apply bool_decide_eq_false_2.
  - intros ids -> -> Hids. cbn. apply bool_decide_eq_false_2. intros H%Hids. done.
Qed.

(** * Witnesses *)

Definition sample_cluster := "0a1b2c3d-0000-4000-8000-00000000000f".
Definition sample_spelling := "0A1B2C3D-0000-4000-8000-00000000000f".

Definition cluster_viewer : User :=
  sample_user false [RoleViewer] None [sample_grant ResourceSystem sample_cluster GrantObserver].
Definition cluster_manager : User :=
  sample_user false [RoleViewer] None [sample_grant ResourceSystem sample_cluster GrantAdmin].

Lemma rbac_cluster_decision_witness :
  rbac_check cluster_manager "POST"
    (clusters_prefix +:+ sample_spelling +:+ "/streams/ORDERS/purge") = true.
Proof.
  destruct (rbac_cluster_decision cluster_manager "POST" sample_spelling "streams"
              "/ORDERS/purge" eq_refl eq_refl (or_intror (ex_intro _ _ eq_refl))) as [H _].
  transitivity (CanManageJetStream cluster_manager sample_cluster); [exact H|reflexivity].
Defined.

Lemma rbac_readonly_mutations_witness :
  rbac_check cluster_viewer "POST"
    (clusters_prefix +:+ sample_cluster +:+ "/streams/ORDERS/purge") = false.
Proof.
  apply not_true_iff_false. intros H.
  apply rbac_readonly_mutations in H; [|reflexivity| |reflexivity].
  - destruct H as [_ [H|[(_ & H & _)|[H _]]]]; discriminate H.
  - intros c. cbn. rewrite andb_false_r. reflexivity.
Defined.

Lemma AuditFilterForActor_exact_witness :
  ∃ f, AuditFilterForActor cluster_viewer "" = Some f ∧
    audit_matches f {| ae_ID := "1"; ae_Timestamp := 0; ae_Actor := "u"; ae_Action := "create";
      ae_ClusterID := sample_cluster; ae_ResourceType := "streams"; ae_ResourceName := "S";
      ae_RequestID := ""; ae_IP := ""; ae_Method := "POST"; ae_Path := ""; ae_Status := 200 |}
    = true.
Proof.
  destruct (AuditFilterForActor_exact cluster_viewer
    {| ae_ID := "1"; ae_Timestamp := 0; ae_Actor := "u"; ae_Action := "create";
      ae_ClusterID := sample_cluster; ae_ResourceType := "streams"; ae_ResourceName := "S";
      ae_RequestID := ""; ae_IP := ""; ae_Method := "POST"; ae_Path := ""; ae_Status := 200 |}
    sample_cluster) as [(f & Hf & Hm) _]; [|reflexivity|reflexivity|discriminate|discriminate|].
  - apply Forall_singleton. exists sample_cluster, "". split; [discriminate|].
    split; [reflexivity|]. left. split; reflexivity.
  - exists f. split; [exact Hf|]. rewrite Hm. reflexivity.
Defined.

Lemma audit_case_evasion_witness :
  let path := clusters_prefix +:+ sample_spelling +:+ "/streams/ORDERS" in
  rbac_check cluster_manager "DELETE" path = true ∧
  audit_matches
    {| af_ClusterID := sample_cluster; af_ClusterIDs := None; af_Limit := 0; af_Offset := 0 |}
    {| ae_ID := "1"; ae_Timestamp := 0; ae_Actor := "u"; ae_Action := "delete";
       ae_ClusterID := audit_ClusterIDFromPath path; ae_ResourceType := "streams";
       ae_ResourceName := "ORDERS"; ae_RequestID := ""; ae_IP := ""; ae_Method := "DELETE";
       ae_Path := path; ae_Status := 200 |} = false.
Proof.
  split; [reflexivity|].
  apply (audit_case_evasion sample_spelling "/streams/ORDERS");
    [reflexivity|right; eexists; reflexivity|discriminate|reflexivity|reflexivity].
Defined.
