(* ===== verification/Http.v ===== *)
(** The middleware chain in front of the API: internal/api/middleware/*.go and
    the order router.go composes them in.

    A handler of fasthttp mutates its request context and the program's shared
    state; here it maps a context and a world [W] to a context and a world.  The
    authentication service, the audit writer and the metrics are an interface
    [Services W E], which Session.v implements for the authentication service. *)

From S2P Require Export RateLimiter Base64 Rbac.
From Stdlib Require Import Ascii.

(** * The request context *)

Record Ctx := mkCtx {
  (* the request; header names in the canonical form of fasthttp *)
  rq_Method : string;
  rq_Path : string;
  rq_Header : gmap string string;
  rq_Cookie : gmap string string;
  rq_Body : string;
  rq_ContentLength : Z;           (* -1 when chunked *)
  rq_RemoteIP : string;
  (* the user values: request id, time limit, user of the context *)
  uv_RequestID : option string;
  uv_Timeout : option Z;
  uv_User : option User;
  (* the response *)
  rs_Status : Z;
  rs_Header : gmap string string;
  rs_Error : option (string * string);   (* code and message of the envelope *)
}.

Section Updates.
Context (c : Ctx).

Definition with_uv (id : option string) (timeout : option Z) (user : option User) : Ctx :=
  mkCtx (rq_Method c) (rq_Path c) (rq_Header c) (rq_Cookie c) (rq_Body c) (rq_ContentLength c)
    (rq_RemoteIP c) id timeout user (rs_Status c) (rs_Header c) (rs_Error c).
Definition with_request (header : gmap string string) (body : string) (len : Z) : Ctx :=
  mkCtx (rq_Method c) (rq_Path c) header (rq_Cookie c) body len
    (rq_RemoteIP c) (uv_RequestID c) (uv_Timeout c) (uv_User c)
    (rs_Status c) (rs_Header c) (rs_Error c).
Definition with_response (status : Z) (header : gmap string string)
    (error : option (string * string)) : Ctx :=
  mkCtx (rq_Method c) (rq_Path c) (rq_Header c) (rq_Cookie c) (rq_Body c) (rq_ContentLength c)
    (rq_RemoteIP c) (uv_RequestID c) (uv_Timeout c) (uv_User c) status header error.

Definition Peek (name : string) : string := default "" (rq_Header c !! name).
Definition Cookie (name : string) : string := default "" (rq_Cookie c !! name).
Definition SetHeader (name value : string) : Ctx :=
  with_response (rs_Status c) (<[name := value]> (rs_Header c)) (rs_Error c).
Definition SetStatusCode (status : Z) : Ctx := with_response status (rs_Header c) (rs_Error c).

(** internal/httpctx/httpstatus *)
Definition CodeFromStatus (status : Z) : string :=
  if (status =? 404)%Z then "not_found"
  else if (status =? 403)%Z then "forbidden"
  else if (status =? 401)%Z then "unauthorized"
  else if (status =? 400)%Z || (status =? 422)%Z then "validation"
  else if (status =? 409)%Z then "conflict"
  else if (status =? 410)%Z then "gone"
  else if (status =? 408)%Z || (status =? 504)%Z then "timeout"
  else if (status =? 503)%Z || (status =? 502)%Z then "unavailable"
  else if (status =? 429)%Z then "rate_limit"
  else if (400 <=? status)%Z && (status <? 500)%Z then "validation"
  else "internal".

Definition WriteErrorBody (status : Z) (code message : string) : Ctx :=
  with_response status (rs_Header c)
    (Some (if IsEmpty code then CodeFromStatus status else code,
           if IsEmpty message then "request failed" else message)).
Definition WriteErrorMessage (status : Z) (code message : string) : Ctx :=
  let message := if IsEmpty message then "request failed" else message in
  let code := if IsEmpty code then CodeFromStatus status else code in
  WriteErrorBody status code message.
End Updates.

Definition WriteForbidden (c : Ctx) : Ctx := WriteErrorMessage c 403 "forbidden" "forbidden".
Definition WriteUnauthorized (c : Ctx) : Ctx :=
  WriteErrorMessage c 401 "unauthorized" "unauthorized".

(** * Configuration and the standard library *)

(** The fields of internal/config/config.go the chain reads; durations are in
    nanoseconds. *)
Record Config := {
  cfg_CORSAllowedOrigins : string;
  cfg_PublicBaseURL : string;
  cfg_TrustedProxies : string;
  cfg_MaxRequestBodySize : Z;
  cfg_RequestTimeout : Z;
  cfg_AIRequestTimeout : Z;
  cfg_RateLimitWindow : Z;
  cfg_PprofEnabled : bool;
  cfg_PprofAuthEnabled : bool;
}.

(** Go's net package, SHA-256 and the decoders of fasthttp: [net_ParseIP] gives
    the canonical text of an address, [net_SplitHostPort] the host, and
    [net_parse_network] the membership test of a CIDR block or an address. *)
Class GoNet := {
  net_ParseIP : string → option string;
  net_SplitHostPort : string → option string;
  net_parse_network : string → option (string → bool);
  sha256_hex : string → string;
}.

(** A comma-separated list: [CORSOrigins] and [TrustedProxyList]. *)
Definition comma_list (s : string) : list string :=
  List.filter (λ p, negb (IsEmpty p)) (map TrimSpace (Split s ",")).

Definition CORSOrigins (cfg : Config) : list string :=
  if IsEmpty (cfg_CORSAllowedOrigins cfg) then [] else comma_list (cfg_CORSAllowedOrigins cfg).

Definition TrustedProxyList (cfg : Config) : list string :=
  if IsEmpty (TrimSpace (cfg_TrustedProxies cfg)) then []
  else comma_list (cfg_TrustedProxies cfg).

Definition TLSEnabled `{GoUnicode} (cfg : Config) : bool :=
  HasPrefix (ToLower (cfg_PublicBaseURL cfg)) "https://".

(** internal/ipset/ip.go: entries that do not parse are skipped. *)
Definition ParseTrustedProxies `{GoNet} (entries : list string) : list (string → bool) :=
  omap net_parse_network entries.
Definition IsTrustedProxyIP (ip : string) (trusted : list (string → bool)) : bool :=
  if IsEmpty ip then false else existsb (λ n, n ip) trusted.

(** internal/httpctx/httpctx.go; an absent remote address is [""]. *)
Definition ClientIP `{GoNet} (c : Ctx) (trusted : list (string → bool)) : string :=
  let remote := rq_RemoteIP c in
  let forwarded :=
    if negb (Nat.eqb (length trusted) 0) && IsTrustedProxyIP remote trusted then
      let raw := Peek c "X-Forwarded-For" in
      if IsEmpty raw then None
      else
        let candidate := TrimSpace (nth 0 (Split raw ",") "") in
        let candidate := default candidate (net_SplitHostPort candidate) in
        net_ParseIP candidate
    else None in
  match forwarded with
  | Some ip => ip
  | None => remote
  end.

Definition DeviceFingerprint `{GoNet} (userAgent clientIP : string) : string :=
  sha256_hex (userAgent +:+ "|" +:+ clientIP).

(** internal/auth/auth.go; [header[6:]] follows the prefix test. *)
Definition ParseBasicAuth (header : string) : option (string * string) :=
  if negb (HasPrefix header "Basic ") then None
  else match DecodeString (sdrop 6 header) with
  | None => None
  | Some decoded =>
      let '(user, pass, found) := Cut decoded ":" in
      if found then Some (user, pass) else None
  end.

(** * Services *)

Record AuditCreate := {
  ac_Actor : string;
  ac_Action : string;
  ac_ClusterID : string;
  ac_ResourceType : string;
  ac_ResourceName : string;
  ac_RequestID : string;
  ac_IP : string;
  ac_Method : string;
  ac_Path : string;
  ac_Status : Z;
}.

Inductive uncompress_error := ErrBodyTooLarge | ErrContentEncodingUnsupported | ErrBadBody.

Class Services (W E : Type) := {
  svc_ParseSession : string → string → M W E User;
  svc_AuthenticateBasic : string → string → M W E User;
  svc_LoadUserFresh : string → M W E User;
  svc_LoadUserForSession : User → M W E User;
  svc_limiter_allow : string → W → bool * W;
  svc_audit_log : AuditCreate → W → W;       (* a nil writer ignores it *)
  svc_ObserveHTTP : string → string → Z → W → W;
  svc_rand_hex : W → string * W;             (* 8 random bytes in hexadecimal *)
  svc_uncompress : string → string → Z → result uncompress_error string;
  svc_pprof : Ctx → W → Ctx * W;             (* net/http/pprof *)
}.

Definition SessionCookie := "nats_consol_session".
Definition RefreshCookie := "nats_consol_refresh".
Definition CSRFCookie := "nats_consol_csrf".

Section Chain.
Context {W E : Type} `{Services W E} `{GoUnicode} `{GoNet} (cfg : Config).

Definition Handler : Type := Ctx → W → Ctx * W.

(** * The middlewares *)

Definition ApplyRequestID (next : Handler) : Handler := λ c w,
  let id := Peek c "X-Request-ID" in
  let '(id, w) := if IsEmpty id then svc_rand_hex w else (id, w) in
  let c := with_uv c (Some id) (uv_Timeout c) (uv_User c) in
  next (SetHeader c "X-Request-ID" id) w.

Definition requestID (c : Ctx) : string := default "" (uv_RequestID c).

Definition buildCSP : string :=
  let connect := fold_left (λ s origin, s +:+ (" " +:+ origin)) (CORSOrigins cfg)
                   "'self' ws: wss:" in
  Join ["default-src 'self'"; "script-src 'self'";
        "style-src 'self' 'unsafe-inline' https://fonts.googleapis.com";
        "img-src 'self' data: blob:"; "font-src 'self' https://fonts.gstatic.com";
        "connect-src " +:+ connect; "frame-ancestors 'none'"; "base-uri 'self'";
        "form-action 'self'"; "object-src 'none'"] "; ".

Definition ApplySecurityHeaders (next : Handler) : Handler := λ c w,
  let c := SetHeader c "X-Content-Type-Options" "nosniff" in
  let c := SetHeader c "X-Frame-Options" "DENY" in
  let c := SetHeader c "Referrer-Policy" "strict-origin-when-cross-origin" in
  let c := SetHeader c "Permissions-Policy" "geolocation=(), microphone=(), camera=()" in
  let c := SetHeader c "Content-Security-Policy" buildCSP in
  let c := if TLSEnabled cfg
           then SetHeader c "Strict-Transport-Security" "max-age=31536000; includeSubDomains"
           else c in
  next c w.

Definition max_body : Z :=
  if (cfg_MaxRequestBodySize cfg <=? 0)%Z then 2 ^ 20 else cfg_MaxRequestBodySize cfg.

Definition body_too_large (c : Ctx) : bool :=
  ((0 <? rq_ContentLength c)%Z && (max_body <? rq_ContentLength c)%Z) ||
  (max_body <? Z.of_nat (String.length (rq_Body c)))%Z.

Definition CheckBodySizeLimit (next : Handler) : Handler := λ c w,
  if body_too_large c then
    (WriteErrorMessage c 413 "validation" "request body too large", w)
  else next c w.

Definition DecompressRequestBody (next : Handler) : Handler := λ c w,
  let enc := Peek c "Content-Encoding" in
  if IsEmpty enc then next c w
  else if body_too_large c then
    (WriteErrorMessage c 413 "validation" "request body too large", w)
  else match svc_uncompress (W := W) enc (rq_Body c) max_body with
  | Err ErrBodyTooLarge => (WriteErrorMessage c 413 "validation" "request body too large", w)
  | Err ErrContentEncodingUnsupported =>
      (WriteErrorMessage c 400 "validation" "unsupported content encoding", w)
  | Err ErrBadBody =>
      (WriteErrorMessage c 400 "validation" "invalid compressed request body", w)
  | Ok body =>
      next (with_request c (delete "Content-Encoding" (rq_Header c)) body
              (Z.of_nat (String.length body))) w
  end.

(** Whole seconds of the window; [Duration.Seconds] is a float, exact enough for
    windows below 97 days. *)
Definition retry_after : Z := Z.max (Z.quot (cfg_RateLimitWindow cfg) (10 ^ 9)) 1.

Definition trusted_proxies : list (string → bool) := ParseTrustedProxies (TrustedProxyList cfg).

Definition VerifyAuthRateLimit (next : Handler) : Handler := λ c w,
  if negb (isAuthRateLimitedPath (rq_Path c)) then next c w
  else
    let '(ok, w) := svc_limiter_allow (ClientIP c trusted_proxies) w in
    if negb ok then
      (WriteErrorBody (SetHeader c "Retry-After" (Itoa retry_after)) 429 "rate_limit"
         "rate limit exceeded", w)
    else next c w.

Definition ApplyMetrics (next : Handler) : Handler := λ c w,
  if negb (isAPIPath (rq_Path c)) then next c w
  else
    let '(c', w) := next c w in
    (c', svc_ObserveHTTP (rq_Method c') (routeLabel (rq_Path c')) (rs_Status c') w).

Definition ApplyAITimeout (next : Handler) : Handler := λ c w,
  if isLongRunningProfilePath (rq_Path c) then next c w
  else
    let reqTimeout :=
      if (0 <? cfg_AIRequestTimeout cfg)%Z && isAITimeoutPath (rq_Path c)
      then cfg_AIRequestTimeout cfg else cfg_RequestTimeout cfg in
    (* a fresh context: a user set by an outer handler would be dropped *)
    next (with_uv c (uv_RequestID c) (Some reqTimeout) None) w.

Definition VerifyCors (next : Handler) : Handler := λ c w,
  let origin := Peek c "Origin" in
  let allowed := origin ∈b CORSOrigins cfg in
  let c := if negb (IsEmpty origin) && allowed then
             SetHeader (SetHeader (SetHeader c "Access-Control-Allow-Origin" origin)
                          "Access-Control-Allow-Credentials" "true") "Vary" "Origin"
           else c in
  let c := SetHeader c "Access-Control-Allow-Methods" "GET, POST, PUT, DELETE, OPTIONS" in
  let c := SetHeader c "Access-Control-Allow-Headers"
    "Accept, Authorization, Content-Type, Content-Encoding, X-Request-ID, X-CSRF-Token" in
  if rq_Method c =s "OPTIONS" then
    if negb (IsEmpty origin) && allowed then (SetStatusCode c 204, w)
    else (WriteForbidden c, w)
  else next c w.

Definition VerifyAudit (next : Handler) : Handler := λ c w,
  let method := rq_Method c in
  let path := rq_Path c in
  if safe_method method || isPublicPath path then next c w
  else
    let '(c', w) := next c w in
    if (400 <=? rs_Status c')%Z then (c', w)
    else
      let '(resourceType, resourceName) := ParseResource path in
      (c', svc_audit_log
        {| ac_Actor := match uv_User c' with Some u => u_Username u | None => "" end;
           ac_Action := ActionForMethod method;
           ac_ClusterID := audit_ClusterIDFromPath path;
           ac_ResourceType := resourceType; ac_ResourceName := resourceName;
           ac_RequestID := requestID c'; ac_IP := ClientIP c' trusted_proxies;
           ac_Method := method; ac_Path := path; ac_Status := rs_Status c' |} w).

Definition requiresCSRF (c : Ctx) : bool :=
  if safe_method (rq_Method c) then false
  else let path := rq_Path c in
  if negb (isAPIPath path) then false
  else if path =s pathPrefixAuthRefresh then negb (IsEmpty (Cookie c RefreshCookie))
  else if isPublicPath path then false
  else if IsEmpty (Cookie c SessionCookie) then false
  else true.

Definition csrf_ok (c : Ctx) : bool :=
  let token := Peek c "X-CSRF-Token" in
  let cookie := Cookie c CSRFCookie in
  negb (IsEmpty token || IsEmpty cookie || (token <>s cookie)).

Definition VerifyCSRF (next : Handler) : Handler := λ c w,
  if negb (requiresCSRF c) then next c w
  else if negb (csrf_ok c) then
    (WriteErrorMessage c 403 "csrf_invalid" "csrf token missing or invalid", w)
  else next c w.

(** The fingerprint a session is bound to. *)
Definition requestFingerprint (c : Ctx) : string :=
  DeviceFingerprint (Peek c "User-Agent") (ClientIP c trusted_proxies).

Definition try_header (c : Ctx) (fph : string) : M W E (option User) :=
  let authHeader := Peek c "Authorization" in
  if HasPrefix authHeader "Bearer " then
    let token := TrimSpace (TrimPrefix authHeader "Bearer ") in
    if IsEmpty token then ret None
    else let! r := attempt (svc_ParseSession token fph) in
         ret (match r with Ok user => Some user | Err _ => None end)
  else if HasPrefix authHeader "Basic " then
    match ParseBasicAuth authHeader with
    | None => ret None
    | Some (username, password) =>
        let! r := attempt (svc_AuthenticateBasic username password) in
        ret (match r with Ok user => Some user | Err _ => None end)
    end
  else ret None.

(** The cookie first; a cookie that does not parse falls through to the header. *)
Definition Authenticate (c : Ctx) : M W E (option User) :=
  let fph := requestFingerprint c in
  let cookie := Cookie c SessionCookie in
  if negb (IsEmpty cookie) then
    let! r := attempt (svc_ParseSession cookie fph) in
    match r with
    | Ok user => ret (Some user)
    | Err _ => try_header c fph
    end
  else try_header c fph.

Definition load_user (c : Ctx) (user : User) : M W E User :=
  if requiresFreshAuthz (rq_Path c) (rq_Method c)
  then svc_LoadUserFresh (u_ID user)
  else svc_LoadUserForSession user.

Definition VerifyAuth (next : Handler) : Handler := λ c w,
  if negb (requiresAuth (rq_Path c)) then next c w
  else
    match Authenticate c w with
    | (Ok (Some user), w) =>
        if IsEmpty (u_ID user) then (WriteUnauthorized c, w)
        else match load_user c user w with
        | (Ok loaded, w) => next (with_uv c (uv_RequestID c) (uv_Timeout c) (Some loaded)) w
        | (Err _, w) => (WriteUnauthorized c, w)
        end
    | (_, w) => (WriteUnauthorized c, w)
    end.

Definition VerifyRBAC (next : Handler) : Handler := λ c w,
  if negb (requiresAuth (rq_Path c)) then next c w
  else match uv_User c with
  | None => (WriteUnauthorized c, w)
  | Some user =>
      if rbac_check user (rq_Method c) (rq_Path c) then next c w else (WriteForbidden c, w)
  end.

(** The answer, and the context with the response written on refusal. *)
Definition authorizeDebugPprof (c : Ctx) : M W E (bool * Ctx) :=
  let! r := attempt (Authenticate c) in
  match r with
  | Ok (Some user) =>
      if IsEmpty (u_ID user) then ret (false, WriteUnauthorized c)
      else
        let! r := attempt (svc_LoadUserForSession user) in
        match r with
        | Err _ => ret (false, WriteUnauthorized c)
        | Ok loaded =>
            if negb (CanViewProfiling loaded) then ret (false, WriteForbidden c)
            else ret (true, c)
        end
  | _ => ret (false, WriteUnauthorized c)
  end.

Definition ApplyDebugPprof (next : Handler) : Handler := λ c w,
  if negb (isPprofPath (rq_Path c)) then next c w
  else if negb (cfg_PprofEnabled cfg) then (WriteErrorMessage c 404 "not_found" "not found", w)
  else if cfg_PprofAuthEnabled cfg then
    match authorizeDebugPprof c w with
    | (Ok (true, c), w) => svc_pprof c w
    | (Ok (false, c), w) => (c, w)
    | (Err _, w) => (c, w)
    end
  else svc_pprof c w.

(** The last middleware is the innermost one. *)
Definition Chain (mws : list (Handler → Handler)) (final : Handler) : Handler :=
  fold_left (λ final v, v final) (rev mws) final.

(** The chain of router.go, without the compression of responses, the log line
    and the recovery from panics, which do not decide anything. *)
Definition router_chain : Handler → Handler :=
  Chain [ApplyRequestID; ApplySecurityHeaders; DecompressRequestBody; CheckBodySizeLimit;
         VerifyAuthRateLimit; ApplyMetrics; ApplyAITimeout; VerifyCors; VerifyAudit;
         VerifyCSRF; VerifyAuth; VerifyRBAC].

Definition server (router : Handler) : Handler := ApplyDebugPprof (router_chain router).

(** * Gates

    Each middleware answers itself or calls the next handler once.  [gate mw P]:
    at every context and world, either the answer does not depend on the next
    handler, or it is the next handler's answer at a context that satisfies [P]
    (with respect to the context at hand), up to what runs after it. *)

Definition gate (mw : Handler → Handler) (P : Ctx → W → Ctx → W → Prop) : Prop :=
  ∀ c w, (∃ r, ∀ next, mw next c w = r) ∨
         (∃ c' w' post, P c w c' w' ∧ ∀ next, mw next c w = post (next c' w')).

Definition compose (P Q : Ctx → W → Ctx → W → Prop) (c : Ctx) (w : W) (c2 : Ctx) (w2 : W) : Prop :=
  ∃ c1 w1, P c w c1 w1 ∧ Q c1 w1 c2 w2.

Lemma gate_compose m1 m2 (P Q : Ctx → W → Ctx → W → Prop) :
  gate m1 P → gate m2 Q → gate (λ next, m1 (m2 next)) (compose P Q).
Proof.
  intros H1' H2' c w. destruct (H1' c w) as [[r Hr]|(c1 & w1 & post & HP & Hc)].
  - left. exists r. eauto.
  - destruct (H2' c1 w1) as [[r Hr]|(c2 & w2 & post2 & HQ & Hc2)].
    + left. exists (post r). intros next. by rewrite Hc, Hr.
    + right. exists c2, w2, (λ x, post (post2 x)). split; [by exists c1, w1|].
      intros next. by rewrite Hc, Hc2.
Qed.

Lemma gate_weaken m (P Q : Ctx → W → Ctx → W → Prop) :
  gate m P → (∀ c w c' w', P c w c' w' → Q c w c' w') → gate m Q.
Proof.
  intros HG HPQ c w. destruct (HG c w) as [?|(c' & w' & post & HP & Hc)]; [by left|right].
  eauto 6.
Qed.

(** The parts of the request that decide: none of the middlewares changes the
    method, the path, the cookies or the CSRF header. *)
Definition same_request (c c' : Ctx) : Prop :=
  rq_Method c' = rq_Method c ∧ rq_Path c' = rq_Path c ∧ rq_Cookie c' = rq_Cookie c ∧
  Peek c' "X-CSRF-Token" = Peek c "X-CSRF-Token" ∧ Peek c' "Origin" = Peek c "Origin".

Definition unchanged (c : Ctx) (w : W) (c' : Ctx) (w' : W) : Prop := same_request c c'.

Lemma same_request_refl c : same_request c c.
Proof. done. Qed.
Lemma same_request_trans c1 c2 c3 :
  same_request c1 c2 → same_request c2 c3 → same_request c1 c3.
Proof. unfold same_request. intuition congruence. Qed.

Ltac stop := left; eexists; intros; cbn [negb]; reflexivity.
Ltac pass := right; eexists _, _, (λ x, x); split; [|intros; reflexivity].

Lemma gate_RequestID : gate ApplyRequestID unchanged.
Proof.
  intros c w. unfold ApplyRequestID.
  destruct (if IsEmpty (Peek c "X-Request-ID") then _ else _) as [id w']. by pass.
Qed.

Lemma gate_SecurityHeaders : gate ApplySecurityHeaders unchanged.
Proof. intros c w. unfold ApplySecurityHeaders. pass. by destruct (TLSEnabled cfg). Qed.

Lemma gate_Decompress : gate DecompressRequestBody unchanged.
Proof.
  intros c w. unfold DecompressRequestBody. destruct (IsEmpty _); [by pass|].
  destruct (body_too_large c); [stop|]. destruct svc_uncompress as [body|[]]; [|stop..].
  pass. unfold unchanged, same_request, Peek. cbn.
  by rewrite !lookup_delete_ne.
Qed.

Lemma gate_BodySize : gate CheckBodySizeLimit unchanged.
Proof. intros c w. unfold CheckBodySizeLimit. destruct (body_too_large c); [stop|by pass]. Qed.

Lemma gate_RateLimit : gate VerifyAuthRateLimit unchanged.
Proof.
  intros c w. unfold VerifyAuthRateLimit. destruct (isAuthRateLimitedPath _); [|by pass].
  cbn. destruct (svc_limiter_allow _ w) as [[] w']; [by pass|stop].
Qed.
(** What runs after the inner handler is the [post] of the gate. *)
Lemma gate_Metrics : gate ApplyMetrics unchanged.
Proof.
  intros c w. unfold ApplyMetrics. destruct (isAPIPath _); cbn [negb]; [|by pass].
  right. eexists c, w, (λ x, (x.1, svc_ObserveHTTP (rq_Method x.1) (routeLabel (rq_Path x.1))
                                    (rs_Status x.1) x.2)).
  split; [done|]. intros next. by destruct (next c w).
Qed.

Lemma gate_AITimeout : gate ApplyAITimeout unchanged.
Proof. intros c w. unfold ApplyAITimeout. destruct isLongRunningProfilePath; by pass. Qed.

Lemma gate_Cors : gate VerifyCors (λ c w c' w', unchanged c w c' w' ∧ rq_Method c ≠ "OPTIONS").
Proof.
  intros c w. unfold VerifyCors.
  destruct (negb (IsEmpty (Peek c "Origin")) && _); cbn [rq_Method SetHeader with_response];
    (case_bool_decide; [stop|by pass]).
Qed.

Lemma gate_Audit : gate VerifyAudit unchanged.
Proof.
  intros c w. unfold VerifyAudit. destruct (_ || _); [by pass|].
  right. eexists c, w, (λ x, let '(c', w') := x in _). split; [done|]. intros next. reflexivity.
Qed.

Lemma gate_CSRF :
  gate VerifyCSRF (λ c w c' w', unchanged c w c' w' ∧ (requiresCSRF c = true → csrf_ok c = true)).
Proof.
  intros c w. unfold VerifyCSRF. destruct (requiresCSRF c); cbn [negb]; [|by pass].
  destruct (csrf_ok c); [by pass|stop].
Qed.

(** The user of the context was authenticated by the request and loaded by the
    service. *)
Definition authenticated (c : Ctx) (w : W) (c' : Ctx) (w' : W) : Prop :=
  requiresAuth (rq_Path c) = true →
  ∃ claimed user w1,
    Authenticate c w = (Ok (Some claimed), w1) ∧ u_ID claimed ≠ "" ∧
    load_user c claimed w1 = (Ok user, w') ∧ uv_User c' = Some user.

Lemma gate_Auth : gate VerifyAuth (λ c w c' w', unchanged c w c' w' ∧ authenticated c w c' w').
Proof.
  intros c w. unfold VerifyAuth, authenticated. destruct (requiresAuth _); cbn [negb]; [|by pass].
  destruct (Authenticate c w) as [[[user|]|e] w1]; [|stop..].
  destruct (IsEmpty (u_ID user)) eqn:Hid; [stop|].
  destruct (load_user c user w1) as [[loaded|e] w2] eqn:Hl; [|stop].
  pass. split; [done|]. intros _. exists user, loaded, w1. by rewrite <- IsEmpty_false.
Qed.

Definition authorized (c : Ctx) (w : W) (c' : Ctx) (w' : W) : Prop :=
  requiresAuth (rq_Path c) = true →
  ∃ user, uv_User c = Some user ∧ rbac_check user (rq_Method c) (rq_Path c) = true.

Lemma gate_RBAC : gate VerifyRBAC (λ c w c' w', c' = c ∧ w' = w ∧ authorized c w c' w').
Proof.
  intros c w. unfold VerifyRBAC, authorized. destruct (requiresAuth _); cbn [negb]; [|by pass].
  destruct (uv_User c) as [user|]; [|stop]. destruct (rbac_check _ _ _) eqn:Hr; [|stop].
  pass. repeat split; eauto.
Qed.

(** What the router sees behind the chain. *)
Definition admitted (c : Ctx) (w : W) (c' : Ctx) (w' : W) : Prop :=
  same_request c c' ∧ rq_Method c ≠ "OPTIONS" ∧
  (requiresCSRF c = true → csrf_ok c = true) ∧
  (requiresAuth (rq_Path c) = true →
   ∃ c0 claimed user w0 w1,
     same_request c c0 ∧ Authenticate c0 w0 = (Ok (Some claimed), w1) ∧ u_ID claimed ≠ "" ∧
     load_user c0 claimed w1 = (Ok user, w') ∧ uv_User c' = Some user ∧
     rbac_check user (rq_Method c) (rq_Path c) = true).

Lemma requiresCSRF_same c c' : same_request c c' → requiresCSRF c' = requiresCSRF c.
Proof. intros (Hm & Hp & Hc & _). unfold requiresCSRF, Cookie. by rewrite Hm, Hp, Hc. Qed.
Lemma csrf_ok_same c c' : same_request c c' → csrf_ok c' = csrf_ok c.
Proof. intros (_ & _ & Hc & Ht & _). unfold csrf_ok, Cookie. by rewrite Hc, Ht. Qed.

(** The outer middlewares only prepare the context. *)
Lemma gate_outer :
  gate (λ n, ApplyRequestID (ApplySecurityHeaders (DecompressRequestBody (CheckBodySizeLimit
    (VerifyAuthRateLimit (ApplyMetrics (ApplyAITimeout n))))))) unchanged.
Proof.
  assert (∀ m1 m2, gate m1 unchanged → gate m2 unchanged →
            gate (λ n, m1 (m2 n)) unchanged) as comp.
  { intros m1 m2 G1 G2. eapply gate_weaken; [apply (gate_compose m1 m2 _ _ G1 G2)|].
    intros c w c' w' (c1 & w1 & S1 & S2). by eapply same_request_trans. }
  apply (comp ApplyRequestID); [apply gate_RequestID|].
  apply (comp ApplySecurityHeaders); [apply gate_SecurityHeaders|].
  apply (comp DecompressRequestBody); [apply gate_Decompress|].
  apply (comp CheckBodySizeLimit); [apply gate_BodySize|].
  apply (comp VerifyAuthRateLimit); [apply gate_RateLimit|].
  apply (comp ApplyMetrics); [apply gate_Metrics|apply gate_AITimeout].
Qed.

Lemma gate_inner :
  gate (λ n, VerifyCors (VerifyAudit (VerifyCSRF (VerifyAuth (VerifyRBAC n))))) admitted.
Proof.
  eapply gate_weaken.
  { eapply (gate_compose VerifyCors (λ n, VerifyAudit (VerifyCSRF (VerifyAuth (VerifyRBAC n)))));
      [exact gate_Cors|].
    eapply (gate_compose VerifyAudit (λ n, VerifyCSRF (VerifyAuth (VerifyRBAC n))));
      [exact gate_Audit|].
    eapply (gate_compose VerifyCSRF (λ n, VerifyAuth (VerifyRBAC n))); [exact gate_CSRF|].
    exact (gate_compose VerifyAuth VerifyRBAC _ _ gate_Auth gate_RBAC). }
  intros c w c' w' (c1 & w1 & [S1 Ho] & c2 & w2 & S2 & c3 & w3 & [S3 Hcsrf] & c4 & w4 &
    [S4 Hauth] & -> & -> & Hrbac). unfold unchanged in *.
  assert (same_request c c2) as S12 by eauto using same_request_trans.
  assert (same_request c c3) as S13 by eauto using same_request_trans.
  assert (same_request c c4) as S14 by eauto using same_request_trans.
  rewrite (requiresCSRF_same c c2), (csrf_ok_same c c2) in Hcsrf by done.
  split; [done|]. split; [done|]. split; [done|]. intros Hreq.
  unfold authenticated, authorized in *.
  rewrite (proj1 (proj2 S13)) in Hauth. rewrite (proj1 (proj2 S14)), (proj1 S14) in Hrbac.
  destruct (Hauth Hreq) as (claimed & user & w5 & ? & ? & ? & Hu).
  destruct (Hrbac Hreq) as (user' & Hu' & ?). assert (user' = user) as -> by congruence.
  exists c3, claimed, user, w3, w5. done.
Qed.

(** C5. Every handler of the router is behind the checks.  Whatever the
    authentication service, the limiter and the other services answer, the chain
    either answers a request itself, whatever the handlers do, or hands it to
    the router unchanged in method, path and cookies, and then: it is not an
    [OPTIONS] request; a request that needs a CSRF token carries it; and on a
    path that needs authentication, the session or the credentials of the
    request named a user, the service loaded that user, the role check allows
    the user this method on this path, and it is that user the handler sees. *)
Theorem chain_admits_authorized (c : Ctx) (w : W) :
  (∃ r, ∀ router : Handler, router_chain router c w = r) ∨
  (∃ c' w' post, admitted c w c' w' ∧
     ∀ router : Handler, router_chain router c w = post (router c' w')).
Proof.
  assert (gate router_chain (compose unchanged admitted)) as G.
  { apply (gate_compose (λ n, ApplyRequestID (ApplySecurityHeaders (DecompressRequestBody
      (CheckBodySizeLimit (VerifyAuthRateLimit (ApplyMetrics (ApplyAITimeout n)))))))
      _ _ _ gate_outer gate_inner). }
  apply (gate_weaken _ _ admitted) in G; [apply G|].
  intros c0 w0 c2 w2 (c1 & w1 & S & S' & Ho & Hcsrf & Hauth). unfold unchanged in S.
  rewrite (requiresCSRF_same c0 c1), (csrf_ok_same c0 c1) in Hcsrf by done.
  rewrite (proj1 S) in Ho. rewrite (proj1 (proj2 S)) in Hauth. rewrite (proj1 S) in Hauth.
  split; [by eapply same_request_trans|]. split; [done|]. split; [done|]. intros Hreq.
  destruct (Hauth Hreq) as (c3 & claimed & user & w3 & w4 & ? & ?).
  exists c3, claimed, user, w3, w4. split; [by eapply same_request_trans|done].
Qed.

End Chain.

(** * Credentials and addresses *)

Lemma sdrop_prefix p s : sdrop (String.length p) (p +:+ s) = s.
Proof. apply sdrop_app. Qed.

(** Basic credentials survive the trip: the header a client builds from a
    user name without ':' and any password is parsed back to exactly these. *)
Theorem ParseBasicAuth_roundtrip username password :
  ContainsByte username ":" = false →
  ParseBasicAuth ("Basic " +:+ EncodeToString (username +:+ ":" +:+ password)) =
  Some (username, password).
Proof.
  intros Hu. unfold ParseBasicAuth. rewrite HasPrefix_app. cbn [negb].
  rewrite (sdrop_prefix "Basic "), DecodeString_encode.
  by rewrite (app_cons ":"), app_nil_l, Cut_app.
Qed.

Lemma ParseBasicAuth_roundtrip_witness :
  ParseBasicAuth "Basic YWRtaW46czNjcjp0" = Some ("admin", "s3cr:t").
Proof.
  transitivity (ParseBasicAuth ("Basic " +:+ EncodeToString ("admin" +:+ ":" +:+ "s3cr:t")));
    [reflexivity|]. apply ParseBasicAuth_roundtrip. reflexivity.
Defined.

(** The address of a client cannot be spoofed.  When the peer is not a
    configured proxy, two requests of the same peer have the same address, the
    rate limiter's key and part of the session fingerprint, whatever headers
    they carry. *)
Theorem ClientIP_unspoofable `{GoNet} (cfg : Config) (c c' : Ctx) :
  IsTrustedProxyIP (rq_RemoteIP c) (trusted_proxies cfg) = false →
  rq_RemoteIP c' = rq_RemoteIP c →
  ClientIP c (trusted_proxies cfg) = rq_RemoteIP c ∧
  ClientIP c' (trusted_proxies cfg) = ClientIP c (trusted_proxies cfg).
Proof. intros Ht Hr. unfold ClientIP. by rewrite Hr, Ht, andb_false_r. Qed.

Definition sample_net : GoNet := {|
  net_ParseIP s := Some s;
  net_SplitHostPort s := None;
  net_parse_network s := Some (λ ip, ip =s s);
  sha256_hex s := s;
|}.

Definition sample_config : Config := {|
  cfg_CORSAllowedOrigins := "https://console.example"; cfg_PublicBaseURL := "https://console.example";
  cfg_TrustedProxies := " 10.0.0.1 , ,10.0.0.2"; cfg_MaxRequestBodySize := 2 ^ 20;
  cfg_RequestTimeout := 10; cfg_AIRequestTimeout := 60; cfg_RateLimitWindow := 60 * 10 ^ 9;
  cfg_PprofEnabled := false; cfg_PprofAuthEnabled := true |}.

Definition sample_ctx (remote : string) (header : gmap string string) : Ctx :=
  mkCtx "GET" "/api/v1/clusters" header ∅ "" 0 remote None None None 200 ∅ None.

Lemma ClientIP_unspoofable_witness :
  ClientIP (H := sample_net) (sample_ctx "192.0.2.7" {["X-Forwarded-For" := "10.9.9.9"]})
    (trusted_proxies (H1 := sample_net) sample_config) = "192.0.2.7".
Proof.
  apply (ClientIP_unspoofable (H := sample_net) sample_config
           (sample_ctx "192.0.2.7" {["X-Forwarded-For" := "10.9.9.9"]})
           (sample_ctx "192.0.2.7" ∅)); reflexivity.
Defined.

(** A configured proxy, in contrast, speaks for its clients. *)
Example ClientIP_forwarded :
  ClientIP (H := sample_net) (sample_ctx "10.0.0.2" {["X-Forwarded-For" := "192.0.2.7, 10.0.0.2"]})
    (trusted_proxies (H1 := sample_net) sample_config) = "192.0.2.7".
Proof. reflexivity. Qed.
