(* ===== verification/Session.v ===== *)
(** The authentication service: internal/auth/{auth,session_revoke,refresh}.go
    over the caches of TtlCache.v and the tables of Store.v, and the login,
    refresh and logout handlers of internal/api/auth_handlers.go.

    The service's fields and the tables are one state; [s_db] is [None] when the
    service runs without a database.  [s_now] is the clock: it does not move
    inside one method, and the environment advances it between methods.  Random
    tokens and row identifiers are drawn from a supply with the counter
    [s_draws]. *)

From S2P Require Export TtlCache Store.

(** The part of the configuration the service reads. *)
Record AuthConfig := {
  cfg_SessionTTL : Z;
  cfg_RefreshTokenTTL : Z;
  cfg_AdminUsername : string;
  cfg_AdminPassword : string;
}.

(** What the service uses of other code: the JWT library (RS256 signatures and
    the parser, which yields the claims of a token whose signature is right),
    SHA-256, bcrypt and the source of randomness. *)
Record Claims := {
  cl_UserID : string;
  cl_Username : string;
  cl_Fingerprint : string;
  cl_Roles : list string;
  cl_UserVersion : Z;
  cl_IsRoot : bool;
  cl_ExpiresAt : Z;    (* a NumericDate: whole seconds *)
  cl_IssuedAt : Z;
  cl_Subject : string;
}.

Class AuthLib := {
  jwt_sign : Claims → option string;
  jwt_parse : string → option Claims;
  sha256 : string → string;
  bcrypt_hash : string → option string;
  CheckPassword : string → string → bool;
  random_token : nat → option string;    (* [rand.Read] may fail *)
  fresh_id : nat → string;
}.

(** * State *)

Record sessionRevocations := mkRevocations {
  rv_entries : gmap string Z;
  rv_ops : Z;
}.

Record Service := mkService {
  s_db : option Tables;
  s_users : ttlCache User;
  s_localVersions : gmap string Z;
  s_versionCache : ttlCache Z;
  s_sessions : ttlCache cachedSession;
  s_revocations : sessionRevocations;
  s_revocationCache : ttlCache bool;
  s_now : Z;
  s_draws : nat;
}.

Definition revocationCacheTTL : Z := 5 * second.
Definition userVersionCacheTTL : Z := 5 * second.

Definition NewService (db : option Tables) (now : Z) : Service := {|
  s_db := db;
  s_users := newUserCache defaultUserCacheTTL;
  s_localVersions := ∅;
  s_versionCache := newTTLCache userVersionCacheTTL;
  s_sessions := newSessionCache defaultSessionCacheTTL;
  s_revocations := mkRevocations ∅ 0;
  s_revocationCache := newTTLCache revocationCacheTTL;
  s_now := now;
  s_draws := 0;
|}.

Definition set_db d s := mkService d (s_users s) (s_localVersions s) (s_versionCache s)
  (s_sessions s) (s_revocations s) (s_revocationCache s) (s_now s) (s_draws s).
Definition set_userCache f s := mkService (s_db s) (f (s_users s)) (s_localVersions s)
  (s_versionCache s) (s_sessions s) (s_revocations s) (s_revocationCache s) (s_now s) (s_draws s).
Definition set_localVersions f s := mkService (s_db s) (s_users s) (f (s_localVersions s))
  (s_versionCache s) (s_sessions s) (s_revocations s) (s_revocationCache s) (s_now s) (s_draws s).
Definition set_versionCache f s := mkService (s_db s) (s_users s) (s_localVersions s)
  (f (s_versionCache s)) (s_sessions s) (s_revocations s) (s_revocationCache s) (s_now s)
  (s_draws s).
Definition set_sessions f s := mkService (s_db s) (s_users s) (s_localVersions s)
  (s_versionCache s) (f (s_sessions s)) (s_revocations s) (s_revocationCache s) (s_now s)
  (s_draws s).
Definition set_revs f s := mkService (s_db s) (s_users s) (s_localVersions s)
  (s_versionCache s) (s_sessions s) (f (s_revocations s)) (s_revocationCache s) (s_now s)
  (s_draws s).
Definition set_revocationCache f s := mkService (s_db s) (s_users s) (s_localVersions s)
  (s_versionCache s) (s_sessions s) (s_revocations s) (f (s_revocationCache s)) (s_now s)
  (s_draws s).
Definition set_clock now s := mkService (s_db s) (s_users s) (s_localVersions s)
  (s_versionCache s) (s_sessions s) (s_revocations s) (s_revocationCache s) now (s_draws s).
Definition set_draws n s := mkService (s_db s) (s_users s) (s_localVersions s)
  (s_versionCache s) (s_sessions s) (s_revocations s) (s_revocationCache s) (s_now s) n.

Abbreviation AM := (M Service err).

(** A statement of the repository; the callers test [db == nil] first. *)
Definition db {A} (m : DBM A) : AM A := λ s,
  match s_db s with
  | None => (Err ErrDB, s)
  | Some t => let '(r, t') := m t in (r, set_db (Some t') s)
  end.

Definition has_db (s : Service) : bool := match s_db s with Some _ => true | None => false end.

(** Read through a cache, with its lazy deletion. *)
Definition cache_get {A} (look : Service → option A * Service) : AM (option A) := λ s,
  let '(a, s) := look s in (Ok a, s).

Definition users_get (userID : string) : AM (option User) := cache_get (λ s,
  let '(a, c) := Get userID (s_now s) (s_users s) in (a, set_userCache (λ _, c) s)).
Definition versions_get (userID : string) : AM (option Z) := cache_get (λ s,
  let '(a, c) := Get userID (s_now s) (s_versionCache s) in (a, set_versionCache (λ _, c) s)).
Definition sessions_get (token fingerprint : string) : AM (option User) := cache_get (λ s,
  let '(a, c) := sessions_Get token fingerprint (s_now s) (s_sessions s) in
  (a, set_sessions (λ _, c) s)).
Definition revocationCache_get (jti : string) : AM (option bool) := cache_get (λ s,
  let '(a, c) := Get jti (s_now s) (s_revocationCache s) in (a, set_revocationCache (λ _, c) s)).

Definition now_ : AM Z := let! s := get in ret (s_now s).

Section Service.
Context `{AuthLib} (cfg : AuthConfig).

Definition draw_token : AM string :=
  let! s := get in
  modify (set_draws (S (s_draws s))) ;;
  match random_token (s_draws s) with
  | Some t => ret t
  | None => fail (ErrMsg "rand")
  end.
Definition draw_id : AM string :=
  let! s := get in
  modify (set_draws (S (s_draws s))) ;;
  ret (fresh_id (s_draws s)).

(** * In-process revocations *)

Definition hashSessionToken (token : string) : string := sha256 token.

(** [until.IsZero()] is the year 1, before every clock value. *)
Definition Revoke (token : string) (until now : Z) (r : sessionRevocations) : sessionRevocations :=
  if IsEmpty token then r
  else
    let entries := <[hashSessionToken token := until]> (rv_entries r) in
    let ops := u64 (rv_ops r + 1) in
    mkRevocations
      (if (ops mod 256 =? 0)%Z then filter (λ kv, (now <=? kv.2)%Z = true) entries else entries) ops.

Definition IsRevoked (token : string) (now : Z) (r : sessionRevocations) :
    bool * sessionRevocations :=
  if IsEmpty token then (false, r)
  else
    let key := hashSessionToken token in
    match rv_entries r !! key with
    | None => (false, r)
    | Some exp =>
        if (exp <? now)%Z then (false, mkRevocations (delete key (rv_entries r)) (rv_ops r))
        else (true, r)
    end.

Definition is_revoked (token : string) : AM bool := λ s,
  let '(b, r) := IsRevoked token (s_now s) (s_revocations s) in (Ok b, set_revs (λ _, r) s).

Definition revoke (token : string) (until : Z) : AM unit :=
  let! now := now_ in modify (set_revs (Revoke token until now)).

(** * User versions *)

Definition currentLocalVersion (userID : string) (s : Service) : Z :=
  default 1%Z (s_localVersions s !! userID).

(** The compare-and-swap loop succeeds at once when nothing interferes.  A
    stored 1 is never replaced by [LoadOrStore]: the loop would spin, but no
    version below 2 is ever stored. *)
Definition bumpLocalVersion (userID : string) : AM Z :=
  let! s := get in
  let next := i64 (currentLocalVersion userID s + 1) in
  modify (set_localVersions <[userID := next]>) ;;
  ret next.

Definition CurrentUserVersion (userID : string) : AM Z :=
  if IsEmpty userID then ret 0%Z
  else
    let! s := get in
    if negb (has_db s) then ret (currentLocalVersion userID s)
    else
      let! cached := versions_get userID in
      match cached with
      | Some v => ret v
      | None =>
          let! r := attempt (db (GetUserVersion userID)) in
          match r with
          | Err _ => let! s := get in ret (currentLocalVersion userID s)
          | Ok version =>
              let! now := now_ in
              modify (set_versionCache (ttl_Set userID version now)) ;;
              ret version
          end
      end.

Definition BumpUserVersion_ (userID : string) : AM Z :=
  if IsEmpty userID then ret 0%Z
  else
    let! s := get in
    if has_db s then
      let! r := attempt (db (BumpUserVersion userID)) in
      match r with
      | Ok v =>
          let! now := now_ in
          modify (set_versionCache (ttl_Set userID v now)) ;;
          modify (set_localVersions <[userID := v]>) ;;
          ret v
      | Err _ => bumpLocalVersion userID
      end
    else bumpLocalVersion userID.

Definition InvalidateUser (userID : string) : AM unit :=
  modify (set_userCache (users_Invalidate userID)) ;;
  modify (set_versionCache (Invalidate userID)) ;;
  BumpUserVersion_ userID ;;
  ret tt.

(** * Users *)

(** StoreUserToDomain copies the record; the service stamps the version. *)
Definition with_version (v : Z) (user : User) : User := {|
  u_ID := u_ID user; u_Username := u_Username user; u_Email := u_Email user;
  u_OIDCSub := u_OIDCSub user; u_Roles := u_Roles user;
  u_AccessRules := u_AccessRules user; u_Grants := u_Grants user;
  u_IsRoot := u_IsRoot user; u_SessionVersion := v; u_CreatedAt := u_CreatedAt user;
|}.

Definition cache_user (user : User) : AM unit :=
  let! now := now_ in modify (set_userCache (users_Set user now)).

Definition LoadUser (userID : string) : AM User :=
  if IsEmpty userID then fail ErrUnauthorized
  else
    let! cached := users_get userID in
    match cached with
    | Some user => ret user
    | None =>
        let! repoUser := db (GetUserByID userID) in
        let! v := CurrentUserVersion userID in
        let user := with_version v repoUser in
        cache_user user ;;
        ret user
    end.

(** The reload of [LoadUserForSession] from the database. *)
Definition reload_user (userID : string) (current : Z) : AM User :=
  let! s := get in
  if negb (has_db s) then fail ErrUnauthorized
  else
    let! repoUser := db (GetUserByID userID) in
    let user := with_version current repoUser in
    cache_user user ;;
    ret user.

Definition LoadUserForSession (partial : User) : AM User :=
  if IsEmpty (u_ID partial) then fail ErrUnauthorized
  else
    let! current := CurrentUserVersion (u_ID partial) in
    if (0 <? u_SessionVersion partial)%Z && (u_SessionVersion partial =? current)%Z then
      let! cached := users_get (u_ID partial) in
      match cached with
      | Some user => ret user
      | None =>
          let! s := get in
          if negb (has_db s) then ret partial else reload_user (u_ID partial) current
      end
    else reload_user (u_ID partial) current.

Definition LoadUserFresh (userID : string) : AM User :=
  if IsEmpty userID then fail ErrUnauthorized
  else
    modify (set_userCache (users_Invalidate userID)) ;;
    modify (set_versionCache (Invalidate userID)) ;;
    let! s := get in
    if negb (has_db s) then fail ErrUnauthorized
    else
      let! repoUser := db (GetUserByID userID) in
      let! v := CurrentUserVersion userID in
      let user := with_version v repoUser in
      cache_user user ;;
      ret user.

Definition env_admin (root : bool) : UserCreate := {|
  uc_AccessRules := None; uc_Username := cfg_AdminUsername cfg;
  uc_Email := cfg_AdminUsername cfg +:+ "@local"; uc_Password := cfg_AdminPassword cfg;
  uc_OIDCSub := ""; uc_PasswordHash := ""; uc_Roles := [RoleAdmin]; uc_IsRoot := root |}.

Definition create_env_admin (root : bool) : AM User :=
  let! id := draw_id in
  let! now := now_ in
  db (CreateUser bcrypt_hash id now (env_admin root)).

Definition SeedAdmin : AM unit :=
  let! count := db CountUsers in
  if Nat.ltb 0 count then ret tt
  else create_env_admin true ;; ret tt.

(** The last resort of [ensureEnvAdminUser]: another request created the row. *)
Definition refetch_env_admin : AM User :=
  let! r := attempt (db (GetUserByUsername (cfg_AdminUsername cfg))) in
  match r with
  | Ok (user, _) => if negb (IsEmpty (u_ID user)) then ret user else fail ErrUnauthorized
  | Err _ => fail ErrUnauthorized
  end.

Definition ensureEnvAdminUser : AM User :=
  let! s := get in
  if negb (has_db s) then fail ErrUnauthorized
  else
    let! created := attempt (create_env_admin true) in
    match created with
    | Ok user => ret user
    | Err ErrConflict =>
        let! created := attempt (create_env_admin false) in
        match created with
        | Ok user => ret user
        | Err _ => refetch_env_admin
        end
    | Err _ => refetch_env_admin
    end.

Definition AuthenticateBasic (username password : string) : AM User :=
  let! r := attempt (db (GetUserByUsername username)) in
  match r with
  | Err e =>
      if bool_decide (e = ErrNotFound) && (username =s cfg_AdminUsername cfg) &&
         (password =s cfg_AdminPassword cfg)
      then ensureEnvAdminUser else fail ErrUnauthorized
  | Ok (user, hash) =>
      if IsEmpty hash || negb (CheckPassword hash password) then fail ErrUnauthorized
      else ret user
  end.

(** * Sessions *)

(** [jwt.NewNumericDate] truncates to whole seconds. *)
Definition NewNumericDate (t : Z) : Z := (t / second * second)%Z.

Definition CreateSession (user : User) (fingerprint : string) : AM string :=
  if IsEmpty (u_ID user) || IsEmpty fingerprint then fail ErrUnauthorized
  else
    let! now := now_ in
    let! version := CurrentUserVersion (u_ID user) in
    let claims := {|
      cl_UserID := u_ID user; cl_Username := u_Username user; cl_Roles := u_Roles user;
      cl_IsRoot := u_IsRoot user; cl_UserVersion := version; cl_Fingerprint := fingerprint;
      cl_ExpiresAt := NewNumericDate (now + cfg_SessionTTL cfg);
      cl_IssuedAt := NewNumericDate now; cl_Subject := u_Username user |} in
    match jwt_sign claims with
    | Some token => ret token
    | None => fail (ErrMsg "jwt")
    end.

Definition InvalidateSession (token : string) : AM unit :=
  modify (set_sessions (sessions_Invalidate token)) ;;
  let! now := now_ in
  let until := (now + cfg_SessionTTL cfg)%Z in
  revoke token until ;;
  let! s := get in
  if has_db s then attempt (db (RevokeSession (hashSessionToken token) until)) ;; ret tt
  else ret tt.

Definition isPersistentlyRevoked (tokenStr : string) : AM bool :=
  let! s := get in
  if negb (has_db s) || IsEmpty tokenStr then ret false
  else
    let jti := hashSessionToken tokenStr in
    let! cached := revocationCache_get jti in
    match cached with
    | Some v => ret v
    | None =>
        let! now := now_ in
        let! r := attempt (db (IsSessionRevoked now jti)) in
        match r with
        | Err _ => ret true
        | Ok revoked =>
            modify (set_revocationCache (ttl_Set jti revoked now)) ;;
            (if revoked then revoke tokenStr (now + cfg_SessionTTL cfg) else ret tt) ;;
            ret revoked
        end
    end.

(** The parser rejects a bad signature or algorithm ([jwt_parse]) and an
    expired token. *)
Definition ParseWithClaims (tokenStr : string) (now : Z) : option Claims :=
  match jwt_parse tokenStr with
  | Some claims => if (now <? cl_ExpiresAt claims)%Z then Some claims else None
  | None => None
  end.

Definition user_of_claims (claims : Claims) : User := {|
  u_ID := cl_UserID claims; u_Username := cl_Username claims; u_Email := "";
  u_OIDCSub := ""; u_Roles := cl_Roles claims; u_AccessRules := None; u_Grants := [];
  u_IsRoot := cl_IsRoot claims; u_SessionVersion := cl_UserVersion claims; u_CreatedAt := 0 |}.

(** [ParseSession] up to its answer: the user, and whether the answer comes from
    the token and is still to be cached. *)
Definition parse_check (tokenStr fingerprint : string) : AM (User * bool) :=
  if IsEmpty fingerprint then fail ErrUnauthorized
  else
    let! revoked := is_revoked tokenStr in
    if (revoked : bool) then fail ErrUnauthorized
    else
      let! revoked := isPersistentlyRevoked tokenStr in
      if (revoked : bool) then fail ErrUnauthorized
      else
        let! cached := sessions_get tokenStr fingerprint in
        match cached with
        | Some user => ret (user, false)
        | None =>
            let! now := now_ in
            match ParseWithClaims tokenStr now with
            | None => fail ErrUnauthorized
            | Some claims =>
                if IsEmpty (cl_Fingerprint claims) || (cl_Fingerprint claims <>s fingerprint)
                then fail ErrUnauthorized
                else ret (user_of_claims claims, true)
            end
        end.

Definition store_session (tokenStr fingerprint : string) (user : User) : AM unit :=
  let! now := now_ in modify (set_sessions (sessions_Set tokenStr fingerprint user now)).

Definition ParseSession (tokenStr fingerprint : string) : AM User :=
  let! checked := parse_check tokenStr fingerprint in
  let '(user, verified) := checked in
  (if (verified : bool) then store_session tokenStr fingerprint user else ret tt) ;;
  ret user.

(** * Refresh tokens *)

Definition hashRefreshToken (raw : string) : string := sha256 raw.

(** The raw token and the identifier of its row. *)
Definition IssueRefresh (userID fingerprint : string) : AM (string * string) :=
  let! s := get in
  if negb (has_db s) || IsEmpty userID || IsEmpty fingerprint then fail ErrUnauthorized
  else
    let! raw := draw_token in
    let! raw2 := draw_token in
    let raw := raw +:+ raw2 in
    let! now := now_ in
    let expires := (now + cfg_RefreshTokenTTL cfg)%Z in
    let! id := draw_id in
    let! row := db (InsertRefreshToken id userID (hashRefreshToken raw) fingerprint expires) in
    ret (raw, rt_ID row).

(** [RotateRefresh] in two halves: reading the row, with the tests on it, and
    the rotation itself.  Other requests may run in between. *)
Definition rotate_begin (rawToken fingerprint : string) : AM (RefreshToken * User) :=
  let! s := get in
  if negb (has_db s) || IsEmpty rawToken || IsEmpty fingerprint then fail ErrUnauthorized
  else
    let! r := attempt (db (GetRefreshTokenByHash (hashRefreshToken rawToken))) in
    match r with
    | Err _ => fail ErrUnauthorized
    | Ok existing =>
        if negb (IsEmpty (rt_ReplacedBy existing)) then
          attempt (db (DeleteRefreshTokensByUser (rt_UserID existing))) ;;
          fail ErrRefreshReuse
        else
          let! now := now_ in
          if (rt_ExpiresAt existing <? now)%Z then
            attempt (db (DeleteRefreshTokenByHash (rt_TokenHash existing))) ;;
            fail ErrUnauthorized
          else if rt_FingerprintHash existing <>s fingerprint then fail ErrUnauthorized
          else
            let! r := attempt (LoadUser (rt_UserID existing)) in
            match r with
            | Err _ => fail ErrUnauthorized
            | Ok user => ret (existing, user)
            end
    end.

(** Claim the old row for the new one; the loser of a race revokes the family. *)
Definition rotate_claim (existing : RefreshToken) (newID : string) : AM unit :=
  let! ok := db (MarkRefreshTokenReplaced (rt_ID existing) newID) in
  if negb ok then
    attempt (db (DeleteRefreshTokensByUser (rt_UserID existing))) ;;
    fail ErrRefreshReuse
  else ret tt.

Definition RotateRefresh (rawToken fingerprint : string) : AM (User * string * string) :=
  let! begun := rotate_begin rawToken fingerprint in
  let '(existing, user) := begun in
  let! issued := IssueRefresh (u_ID user) fingerprint in
  let '(newRefresh, newID) := issued in
  rotate_claim existing newID ;;
  let! accessToken := CreateSession user fingerprint in
  ret (user, accessToken, newRefresh).

Definition RevokeRefreshTokensForUser (userID : string) : AM unit :=
  let! s := get in
  if negb (has_db s) || IsEmpty userID then ret tt
  else attempt (db (DeleteRefreshTokensByUser userID)) ;; ret tt.

Definition RevokeRefreshToken (rawToken : string) : AM unit :=
  let! s := get in
  if negb (has_db s) || IsEmpty rawToken then ret tt
  else attempt (db (DeleteRefreshTokenByHash (hashRefreshToken rawToken))) ;; ret tt.

(** * Handlers *)

(** A cookie of [newCookie]: path "/", Secure, SameSite=Lax.  Lifetimes are
    whole seconds; a negative one deletes the cookie. *)
Record Cookie := { ck_Name : string; ck_Value : string; ck_MaxAge : Z; ck_HttpOnly : bool }.

Definition seconds (d : Z) : Z := Z.quot d second.

Definition SessionCookie_ (token : string) : Cookie :=
  {| ck_Name := "nats_consol_session"; ck_Value := token;
     ck_MaxAge := seconds (cfg_SessionTTL cfg); ck_HttpOnly := true |}.
Definition RefreshTokenCookie (token : string) : Cookie :=
  {| ck_Name := "nats_consol_refresh"; ck_Value := token;
     ck_MaxAge := seconds (cfg_RefreshTokenTTL cfg); ck_HttpOnly := true |}.
Definition CSRFCookie_ (token : string) : Cookie :=
  {| ck_Name := "nats_consol_csrf"; ck_Value := token;
     ck_MaxAge := seconds (cfg_RefreshTokenTTL cfg); ck_HttpOnly := false |}.
Definition ClearSessionCookie : Cookie :=
  {| ck_Name := "nats_consol_session"; ck_Value := ""; ck_MaxAge := -1; ck_HttpOnly := true |}.
Definition ClearRefreshCookie : Cookie :=
  {| ck_Name := "nats_consol_refresh"; ck_Value := ""; ck_MaxAge := -1; ck_HttpOnly := true |}.
Definition ClearCSRFCookie : Cookie :=
  {| ck_Name := "nats_consol_csrf"; ck_Value := ""; ck_MaxAge := -1; ck_HttpOnly := false |}.

(** A handler's answer: the status and the cookies it sets, and the user of the
    body. *)
Record Reply := { rp_Status : Z; rp_Cookies : list Cookie; rp_User : option User }.

Definition issueSessionCookies (accessToken refreshToken csrf : string) : list Cookie :=
  [SessionCookie_ accessToken; RefreshTokenCookie refreshToken; CSRFCookie_ csrf].
Definition clear_cookies : list Cookie := [ClearSessionCookie; ClearRefreshCookie; ClearCSRFCookie].

Definition error_reply (status : Z) (cookies : list Cookie) : Reply :=
  {| rp_Status := status; rp_Cookies := cookies; rp_User := None |}.

(** The status of internal/api/apikit [WriteAPIError]; the service's own
    unauthorized error is none of those it knows. *)
Definition api_status (e : err) : Z :=
  match e with
  | ErrNotFound => 404
  | ErrForbidden | ErrRootProtected | ErrCannotEscalate => 403
  | ErrConflict => 409
  | _ => 500
  end.

(** [body]: the decoded credentials, [None] when the JSON does not parse. *)
Definition Login (body : option (string * string)) (fph : string) : AM Reply :=
  match body with
  | None => ret (error_reply 400 [])
  | Some (username, password) =>
      let! r := attempt (AuthenticateBasic username password) in
      match r with
      | Err _ => ret (error_reply 401 [])
      | Ok user =>
          let! r := attempt (CreateSession user fph) in
          match r with
          | Err e => ret (error_reply (api_status e) [])
          | Ok token =>
              let! r := attempt (IssueRefresh (u_ID user) fph) in
              match r with
              | Err e => ret (error_reply (api_status e) [])
              | Ok (refresh, _) =>
                  let! r := attempt draw_token in
                  match r with
                  | Err e => ret (error_reply (api_status e) [])
                  | Ok csrf =>
                      ret {| rp_Status := 200;
                             rp_Cookies := issueSessionCookies token refresh csrf;
                             rp_User := Some user |}
                  end
              end
          end
      end
  end.

Definition Refresh (refreshCookie fph : string) : AM Reply :=
  if IsEmpty refreshCookie then ret (error_reply 401 [])
  else
    let! r := attempt (RotateRefresh refreshCookie fph) in
    match r with
    | Err e =>
        ret (error_reply 401 (if bool_decide (e = ErrRefreshReuse) then clear_cookies else []))
    | Ok (user, access, refresh) =>
        let! r := attempt draw_token in
        match r with
        | Err e => ret (error_reply (api_status e) [])
        | Ok csrf =>
            ret {| rp_Status := 200; rp_Cookies := issueSessionCookies access refresh csrf;
                   rp_User := Some user |}
        end
    end.

Definition Logout (sessionTok refreshTok fph : string) : AM Reply :=
  (if negb (IsEmpty sessionTok) then
     let! r := attempt (ParseSession sessionTok fph) in
     (match r with
      | Ok user => RevokeRefreshTokensForUser (u_ID user)
      | Err _ => if negb (IsEmpty refreshTok) then RevokeRefreshToken refreshTok else ret tt
      end) ;;
     InvalidateSession sessionTok
   else if negb (IsEmpty refreshTok) then RevokeRefreshToken refreshTok
   else ret tt) ;;
  ret {| rp_Status := 204; rp_Cookies := clear_cookies; rp_User := None |}.

Definition Me (contextUser : option User) : Reply :=
  match contextUser with
  | None => error_reply 401 []
  | Some user => {| rp_Status := 200; rp_Cookies := []; rp_User := Some user |}
  end.
End Service.
