(* ===== verification/SessionFacts.v ===== *)
(** The promises of the authentication service: a session that was logged out is
    not accepted again, a session is bound to its token, device and lifetime, a
    refresh token is rotated at most once, and passwords guard the login. *)

From stdpp Require Import relations.
From S2P Require Export Session.

(** * Preservation

    [keeps P m]: whatever [m] answers, it preserves [P]. *)

Definition keeps {S E A} (P : S → Prop) (m : M S E A) : Prop := ∀ s, P s → P (m s).2.

Create HintDb keeps discriminated.

Section Keeps.
Context {S E : Type} (P : S → Prop).

Lemma keeps_ret {A} (a : A) : keeps P (ret (E := E) a).
Proof. by intros s Hs. Qed.
Lemma keeps_fail {A} (e : E) : keeps P (fail (A := A) e).
Proof. by intros s Hs. Qed.
Lemma keeps_get : keeps P (get (E := E)).
Proof. by intros s Hs. Qed.
Lemma keeps_ensure b (e : E) : keeps P (ensure b e).
Proof. destruct b; [try done|]; by intros s Hs. Qed.
Lemma keeps_bind {A B} (m : M S E A) (k : A → M S E B) :
  keeps P m → (∀ a, keeps P (k a)) → keeps P (bind m k).
Proof.
  intros Hm Hk s Hs. unfold bind. specialize (Hm s Hs).
  destruct (m s) as [[a|e] s1]; [|done]. by apply Hk.
Qed.
Lemma keeps_attempt {A} (m : M S E A) : keeps P m → keeps P (attempt m).
Proof. intros Hm s Hs. unfold attempt. specialize (Hm s Hs). by destruct (m s). Qed.
Lemma keeps_if {A} (b : bool) (m1 m2 : M S E A) :
  keeps P m1 → keeps P m2 → keeps P (if b then m1 else m2).
Proof. destruct b; [try done|]; by intros s Hs. Qed.
End Keeps.
#[export] Hint Resolve keeps_ret keeps_fail keeps_get keeps_ensure keeps_bind keeps_attempt
  keeps_if : keeps.

(** Walk through a method, leaving the primitive steps. *)
Ltac keeps_step :=
  match goal with
  | |- keeps _ (ret _) => apply keeps_ret
  | |- keeps _ (fail _) => apply keeps_fail
  | |- keeps _ get => apply keeps_get
  | |- keeps _ (ensure _ _) => apply keeps_ensure
  | |- keeps _ (bind _ _) => apply keeps_bind; [|intros ?]
  | |- keeps _ (attempt _) => apply keeps_attempt
  | |- keeps _ (if ?b then _ else _) => apply keeps_if
  | |- keeps _ (match ?x with _ => _ end) => destruct x
  | |- keeps _ (let '(_, _) := ?x in _) => destruct x
  end.
Ltac keeps := repeat (first [solve [eauto with keeps] | keeps_step]).

(** A database statement keeps what does not depend on the tables. *)
Lemma keeps_db {A} (P : Service → Prop) (m : DBM A) :
  (∀ t s, P s → P (set_db t s)) → keeps P (db m).
Proof.
  intros HP s Hs. unfold db. destruct (s_db s) as [t|]; [|done].
  destruct (m t) as [r t']. by apply HP.
Qed.

(** [total m]: [m] never returns an error. *)
Definition total {S E A} (m : M S E A) : Prop := ∀ s, ∃ a, (m s).1 = Ok a.

Lemma total_bind {S E A B} (m : M S E A) (k : A → M S E B) :
  total m → (∀ a, total (k a)) → total (bind m k).
Proof.
  intros Hm Hk s. destruct (Hm s) as [a Ha]. unfold bind. destruct (m s) as [r s1].
  cbn in Ha. subst r. apply Hk.
Qed.
Lemma total_attempt {S E A} (m : M S E A) : total (attempt m).
Proof. intros s. unfold attempt. destruct (m s). by eexists. Qed.
Lemma total_simple {S E A} (f : S → A) (g : S → S) : total (λ s, (Ok (E := E) (f s), g s)).
Proof. intros s. by eexists. Qed.

Ltac total :=
  repeat match goal with
  | |- total (bind _ _) => apply total_bind; [|intros ?]
  | |- total (attempt _) => apply total_attempt
  | |- total (ret _) => intros ?; by eexists
  | |- total get => intros ?; by eexists
  | |- total (modify _) => intros ?; by eexists
  | |- total (if ?b then _ else _) => destruct b
  | |- total (match ?x with _ => _ end) => destruct x
  end.

Lemma total_now : total now_.
Proof. unfold now_. total. Qed.
Lemma total_cache_get {A} (look : Service → option A * Service) : total (cache_get look).
Proof. intros s. unfold cache_get. destruct (look s). by eexists. Qed.

(** * Logging out *)

Section Logout.
Context `{AuthLib} (cfg : AuthConfig) (tok : string) (t0 : Z).

(** The revocation is in force until then. *)
Let until : Z := (t0 + cfg_SessionTTL cfg)%Z.

(** The state after the logout of [tok] at [t0]. *)
Record logged_out (s : Service) : Prop := {
  lo_now : (t0 ≤ s_now s)%Z;
  lo_revoked : (s_now s ≤ until)%Z →
    ∃ e, rv_entries (s_revocations s) !! hashSessionToken tok = Some e ∧ (until ≤ e)%Z;
  lo_cached : ends_by until tok (s_sessions s);
  lo_ttl : tc_ttl (s_sessions s) = defaultSessionCacheTTL;
}.

Lemma logged_out_frame s s' :
  s_sessions s' = s_sessions s → s_revocations s' = s_revocations s → s_now s' = s_now s →
  logged_out s → logged_out s'.
Proof. intros E1 E2 E3 [H1 H2 H3 H4]. split; rewrite ?E1, ?E2, ?E3; done. Qed.

Lemma keeps_modify_frame f :
  (∀ s, s_sessions (f s) = s_sessions s ∧ s_revocations (f s) = s_revocations s ∧
        s_now (f s) = s_now s) →
  keeps logged_out (modify (E := err) f).
Proof. intros Hf s Hs. cbn. destruct (Hf s) as (? & ? & ?). by apply (logged_out_frame s). Qed.

Lemma keeps_db_lo {A} (m : DBM A) : keeps logged_out (db m).
Proof. apply keeps_db. intros t s Hs. by apply (logged_out_frame s). Qed.

Lemma keeps_is_revoked t : keeps logged_out (is_revoked t).
Proof.
  intros s Hs. unfold is_revoked, IsRevoked.
  destruct (IsEmpty t); [by apply (logged_out_frame s)|].
  destruct (rv_entries _ !! _) as [e|] eqn:E; [|by apply (logged_out_frame s)].
  destruct (Z.ltb_spec e (s_now s)); [|by apply (logged_out_frame s)]. destruct Hs as [H1 H2 H3 H4]. split; cbn; try done.
  intros Hn. destruct (H2 Hn) as (e' & He' & Hu). exists e'. split; [|done].
  destruct (decide (hashSessionToken tok = hashSessionToken t)) as [Eh|Eh].
  - rewrite Eh in He'. rewrite E in He'. injection He' as ->. lia.
  - by rewrite lookup_delete_ne.
Qed.

Lemma keeps_revoke t u : (until ≤ u)%Z → keeps logged_out (revoke t u).
Proof.
  intros Hu s [H1 H2 H3 H4]. unfold revoke, now_, bind, get, ret, modify. cbn.
  unfold Revoke. destruct (IsEmpty t); [by split|]. split; cbn; try done.
  intros Hn. destruct (H2 Hn) as (e & He & Hue).
  assert (∃ e, <[hashSessionToken t := u]> (rv_entries (s_revocations s)) !! hashSessionToken tok
          = Some e ∧ (until ≤ e)%Z) as (e' & He' & Hue').
  { destruct (decide (hashSessionToken t = hashSessionToken tok)) as [->|Eh].
    - exists u. by rewrite lookup_insert_eq.
    - exists e. by rewrite lookup_insert_ne. }
  exists e'. split; [|done]. destruct (_ =? 0)%Z; [|done].
  apply map_lookup_filter_Some. split; [done|]. cbn. lia.
Qed.

Lemma keeps_sessions_get t fp : keeps logged_out (sessions_get t fp).
Proof.
  intros s [H1 H2 H3 H4]. unfold sessions_get, cache_get, sessions_Get.
  destruct (Get t (s_now s) (s_sessions s)) as [a c] eqn:E.
  assert (ends_by until tok c ∧ tc_ttl c = defaultSessionCacheTTL) as [? ?].
  { pose proof (Get_ttl t (s_now s) (s_sessions s)) as Ht. rewrite E in Ht. cbn in Ht.
    split; [|by rewrite Ht]. unfold Get in E. destruct (_ !! t) as [e|]; [|by injection E as <- <-].
    destruct (fresh_entry _ e); injection E as <- <-; [done|].
    intros e' He'. cbn in He'. apply H3. by apply lookup_delete_Some in He' as [_ ?]. }
  destruct a; split; done.
Qed.

Lemma keeps_sessions_invalidate t :
  keeps logged_out (modify (E := err) (set_sessions (sessions_Invalidate t))).
Proof.
  intros s [H1 H2 H3 H4]. cbn. unfold sessions_Invalidate. split; cbn; try done.
  - destruct (IsEmpty t); [done|]. intros e He. apply H3. cbn in He.
    by apply lookup_delete_Some in He as [_ ?].
  - by destruct (IsEmpty t).
Qed.

(** A clock value read after the logout. *)
Lemma keeps_now {A} (k : Z → AM A) :
  (∀ now, (t0 ≤ now)%Z → keeps logged_out (k now)) → keeps logged_out (bind now_ k).
Proof. intros Hk s Hs. unfold bind, now_, get, ret. cbn. apply Hk; [apply Hs|done]. Qed.

Lemma keeps_revocationCache_get jti : keeps logged_out (revocationCache_get jti).
Proof.
  intros s Hs. unfold revocationCache_get, cache_get.
  destruct (Get jti _ _). by apply (logged_out_frame s).
Qed.

Lemma keeps_isPersistentlyRevoked t : keeps logged_out (isPersistentlyRevoked cfg t).
Proof.
  unfold isPersistentlyRevoked. keeps_step; [keeps|]. keeps_step; [keeps|].
  keeps_step; [apply keeps_revocationCache_get|]. keeps_step; [keeps|].
  apply keeps_now. intros now Hnow. keeps_step; [apply keeps_attempt, keeps_db_lo|].
  keeps_step; [|keeps]. keeps_step; [by apply keeps_modify_frame|].
  keeps_step; [|keeps]. keeps_step; [|keeps]. apply keeps_revoke. unfold until. lia.
Qed.

Lemma keeps_parse_check t fp : keeps logged_out (parse_check cfg t fp).
Proof.
  unfold parse_check. keeps_step; [keeps|]. keeps_step; [apply keeps_is_revoked|].
  keeps_step; [keeps|]. keeps_step; [apply keeps_isPersistentlyRevoked|].
  keeps_step; [keeps|]. keeps_step; [apply keeps_sessions_get|].
  keeps_step; [keeps|]. apply keeps_now. intros now _. keeps.
Qed.

Lemma keeps_InvalidateSession t : keeps logged_out (InvalidateSession cfg t).
Proof.
  unfold InvalidateSession. keeps_step; [apply keeps_sessions_invalidate|].
  apply keeps_now. intros now Hnow. keeps_step; [apply keeps_revoke; unfold until; lia|].
  keeps. apply keeps_db_lo.
Qed.

(** The token was issued, with the configured lifetime, before the logout. *)
Definition issued_before : Prop :=
  ∀ claims, jwt_parse tok = Some claims → (cl_ExpiresAt claims ≤ until)%Z.

(** After the deadline only the token itself could open the session. *)
Lemma late_session s r s' fp :
  logged_out s → issued_before → (until < s_now s)%Z →
  (let! cached := sessions_get tok fp in
   match cached with
   | Some user => ret (user, false)
   | None =>
       let! now := now_ in
       match ParseWithClaims tok now with
       | None => fail ErrUnauthorized
       | Some claims =>
           if IsEmpty (cl_Fingerprint claims) || (cl_Fingerprint claims <>s fp)
           then fail ErrUnauthorized else ret (user_of_claims claims, true)
       end
   end) s = (r, s') → r = Err ErrUnauthorized.
Proof.
  intros [H1 H2 H3 H4] Hiss Hlate. unfold bind, sessions_get, cache_get, sessions_Get.
  pose proof (Get_live tok (s_now s) (s_sessions s)) as HL.
  rewrite (ends_by_live until) in HL by done.
  destruct (Get tok (s_now s) (s_sessions s)) as [a c]. cbn in HL. subst a. cbn.
  unfold ParseWithClaims. destruct (jwt_parse tok) as [claims|] eqn:E; cbn; [|by intros [= <- _]].
  specialize (Hiss claims E). destruct (Z.ltb_spec (s_now s) (cl_ExpiresAt claims)); [lia|].
  by intros [= <- _].
Qed.

Lemma isPersistentlyRevoked_total t : total (isPersistentlyRevoked cfg t).
Proof.
  unfold isPersistentlyRevoked, revoke, revocationCache_get. total;
    (apply total_cache_get || apply total_now || total).
Qed.

Lemma isPersistentlyRevoked_clock t s : s_now (isPersistentlyRevoked cfg t s).2 = s_now s.
Proof.
  assert (keeps (λ s', s_now s' = s_now s) (isPersistentlyRevoked cfg t)) as K; [|by apply K].
  unfold isPersistentlyRevoked, revoke, now_, revocationCache_get, cache_get. keeps.
  - intros s' Hs'. by destruct (Get _ _ _).
  - by apply keeps_db.
  - by intros s' Hs'.
  - by intros s' Hs'.
Qed.

(** No state after the logout opens the session. *)
Lemma logged_out_rejects fp s :
  tok ≠ "" → issued_before → logged_out s → (parse_check cfg tok fp s).1 = Err ErrUnauthorized.
Proof.
  intros Hne Hiss Hs. unfold parse_check. destruct (IsEmpty fp); [done|].
  unfold bind at 1. destruct (is_revoked tok s) as [r1 s1] eqn:E1.
  pose proof (keeps_is_revoked tok s Hs) as Hs1. rewrite E1 in Hs1. cbn in Hs1.
  assert (r1 = Ok true ∨ (r1 = Ok false ∧ (until < s_now s1)%Z)) as [->|[-> Hlate]]; [|done|].
  { unfold is_revoked, IsRevoked in E1.
    destruct (IsEmpty tok) eqn:He; [by apply IsEmpty_true in He|].
    destruct (Z.ltb_spec until (s_now s)) as [Hl|Hl].
    - destruct (_ !! _); [destruct (_ <? _)%Z|]; injection E1 as <- <-; auto.
    - destruct (lo_revoked _ Hs Hl) as (e & He' & Hu). rewrite He' in E1.
      destruct (Z.ltb_spec e (s_now s)); [lia|]. injection E1 as <- <-. auto. }
  unfold bind at 1. destruct (isPersistentlyRevoked cfg tok s1) as [r2 s2] eqn:E2.
  pose proof (keeps_isPersistentlyRevoked tok s1 Hs1) as Hs2. rewrite E2 in Hs2. cbn in Hs2.
  pose proof (isPersistentlyRevoked_clock tok s1) as Hc. rewrite E2 in Hc. cbn in Hc.
  destruct (isPersistentlyRevoked_total tok s1) as [b Hb]. rewrite E2 in Hb. cbn in Hb. subst r2.
  destruct b; [done|].
  match goal with |- (?m s2).1 = _ => destruct (m s2) as [r s3] eqn:E3 end.
  eapply (late_session s2 r s3 fp); [done..|lia|exact E3].
Qed.
End Logout.

(** * Interleaved requests

    [ParseSession] answers after [parse_check]; its write to the session cache
    comes later, and other requests run in between.  A replica is the service and
    the writes that are still pending, each with the time its request answered. *)

Record Pending := { pd_token : string; pd_fp : string; pd_user : User; pd_since : Z }.

Definition Replica : Type := Service * list Pending.

Section Steps.
Context `{AuthLib} (cfg : AuthConfig) (delay : Z).

Inductive step : Replica → Replica → Prop :=
  (** a request presents a token: it answers, and may leave a write pending *)
  | step_parse tok fp s ps r s' :
      parse_check cfg tok fp s = (r, s') →
      step (s, ps)
        (s', match r with
             | Ok (user, true) =>
                 {| pd_token := tok; pd_fp := fp; pd_user := user; pd_since := s_now s |} :: ps
             | _ => ps
             end)
  (** a pending write is made, at most [delay] after its request answered *)
  | step_store p ps1 ps2 s :
      (s_now s ≤ pd_since p + delay)%Z →
      step (s, ps1 ++ p :: ps2)
        ((store_session (pd_token p) (pd_fp p) (pd_user p) s).2, ps1 ++ ps2)
  (** a logout of any token *)
  | step_logout tok s ps : step (s, ps) ((InvalidateSession cfg tok s).2, ps)
  (** the clock advances *)
  | step_tick now s ps : (s_now s ≤ now)%Z → step (s, ps) (set_clock now s, ps)
  (** anything else: other replicas and purges change the tables, other methods
      change the remaining caches *)
  | step_other s s' ps :
      s_sessions s' = s_sessions s → s_revocations s' = s_revocations s → s_now s' = s_now s →
      step (s, ps) (s', ps).

(** Writes pending for [tok] stem from before the logout. *)
Definition pending_before (tok : string) (t0 : Z) (ps : list Pending) : Prop :=
  Forall (λ p, pd_token p = tok → (pd_since p ≤ t0)%Z) ps.

Lemma store_keeps tok t0 p s :
  (defaultSessionCacheTTL + delay ≤ cfg_SessionTTL cfg)%Z →
  (pd_token p = tok → (pd_since p ≤ t0)%Z) →
  (s_now s ≤ pd_since p + delay)%Z →
  logged_out cfg tok t0 s →
  logged_out cfg tok t0 (store_session (pd_token p) (pd_fp p) (pd_user p) s).2.
Proof.
  intros Hd Hp Hnow [H1 H2 H3 H4]. cbn. unfold sessions_Set.
  destruct (IsEmpty (pd_token p)); [split; done|]. split; cbn; try done. intros e.
  unfold ttl_Set. cbn. intros He.
  assert (<[pd_token p := mkEntry (s_now s + tc_ttl (s_sessions s))
            {| cs_fingerprint := pd_fp p; cs_user := pd_user p |}]> (tc_entries (s_sessions s)) !! tok
          = Some e) as He'.
  { destruct (_ || _); [|done]. by apply map_lookup_filter_Some in He as [He _]. }
  clear He. destruct (decide (pd_token p = tok)) as [E|E].
  - rewrite E, lookup_insert_eq in He'. injection He' as <-. cbn. rewrite H4. specialize (Hp E). lia.
  - rewrite lookup_insert_ne in He' by done. by apply H3.
Qed.

Lemma step_keeps tok t0 r r' :
  tok ≠ "" → issued_before cfg tok t0 →
  (defaultSessionCacheTTL + delay ≤ cfg_SessionTTL cfg)%Z →
  step r r' →
  logged_out cfg tok t0 r.1 → pending_before tok t0 r.2 →
  logged_out cfg tok t0 r'.1 ∧ pending_before tok t0 r'.2.
Proof.
  intros Hne Hiss Hd Hstep Hlo Hp.
  destruct Hstep as [t fp s ps r s' E|p ps1 ps2 s Hnow|t s ps|now s ps Hnow|s s' ps E1 E2 E3];
    cbn [fst snd] in *.
  - pose proof (keeps_parse_check cfg tok t0 t fp s Hlo) as K. rewrite E in K. split; [done|].
    destruct r as [[user []]|e]; [|done..]. constructor; [|done]. cbn. intros ->.
    pose proof (logged_out_rejects cfg tok t0 fp s Hne Hiss Hlo) as Hr. by rewrite E in Hr.
  - apply Forall_app in Hp as [Hp1 [Hp Hp2]%Forall_cons].
    split; [by apply store_keeps|by apply Forall_app].
  - split; [by apply keeps_InvalidateSession|done].
  - split; [|done]. destruct Hlo as [H1 H2 H3 H4]. split; cbn; try done; [lia|].
    intros Hn. apply H2. lia.
  - split; [by eapply logged_out_frame|done].
Qed.

Lemma steps_keep tok t0 r r' :
  tok ≠ "" → issued_before cfg tok t0 →
  (defaultSessionCacheTTL + delay ≤ cfg_SessionTTL cfg)%Z →
  rtc step r r' →
  logged_out cfg tok t0 r.1 → pending_before tok t0 r.2 →
  logged_out cfg tok t0 r'.1 ∧ pending_before tok t0 r'.2.
Proof.
  intros Hne Hiss Hd Hsteps. induction Hsteps as [r|r1 r2 r3 Hstep _ IH]; [done|].
  intros Hlo Hp. destruct (step_keeps tok t0 r1 r2) as [? ?]; auto.
Qed.

(** The state a logout leaves. *)
Lemma logout_starts tok s :
  tok ≠ "" → tc_ttl (s_sessions s) = defaultSessionCacheTTL →
  logged_out cfg tok (s_now s) (InvalidateSession cfg tok s).2.
Proof.
  intros Hne Httl. apply IsEmpty_false in Hne as He. unfold InvalidateSession.
  unfold bind at 1, modify. cbn.
  match goal with |- context [has_db ?x] => set (s1 := x) end.
  assert (logged_out cfg tok (s_now s) s1) as H1.
  { unfold s1, Revoke, sessions_Invalidate. rewrite He. split; cbn; [lia| | |done].
    - intros Hn. exists (s_now s + cfg_SessionTTL cfg)%Z. split; [|lia].
      destruct (_ =? 0)%Z; [|by rewrite lookup_insert_eq].
      apply map_lookup_filter_Some. split; [by rewrite lookup_insert_eq|]. cbn. lia.
    - intros e. cbn. by rewrite lookup_delete_eq. }
  destruct (has_db s1); [|done].
  assert (keeps (logged_out cfg tok (s_now s))
            (attempt (db (RevokeSession (hashSessionToken tok) (s_now s + cfg_SessionTTL cfg))) ;;
             ret tt)) as K by (keeps; apply keeps_db_lo).
  by apply K.
Qed.

(** C7. Logging out is final.  Once [InvalidateSession tok] has run on a
    replica, no request on that replica is accepted with [tok], from no device,
    at no later time, and whatever happens in between: concurrent requests with
    the same token, their late writes to the session cache, purges, failures or
    changes of the database, other logouts.  The session lifetime must exceed
    the session cache's 45 s by the longest time a request takes to make its
    write, and the token must have been issued before, with that lifetime. *)
Theorem logout_is_final tok s ps s' ps' fp :
  tok ≠ "" →
  tc_ttl (s_sessions s) = defaultSessionCacheTTL →
  (defaultSessionCacheTTL + delay ≤ cfg_SessionTTL cfg)%Z →
  (∀ claims, jwt_parse tok = Some claims → cl_ExpiresAt claims ≤ s_now s + cfg_SessionTTL cfg)%Z →
  Forall (λ p, pd_since p ≤ s_now s)%Z ps →
  rtc step ((InvalidateSession cfg tok s).2, ps) (s', ps') →
  (ParseSession cfg tok fp s').1 = Err ErrUnauthorized.
Proof.
  intros Hne Httl Hd Hiss Hps Hsteps.
  assert (logged_out cfg tok (s_now s) s' ∧ pending_before tok (s_now s) ps') as [Hlo _].
  { apply (steps_keep tok (s_now s) ((InvalidateSession cfg tok s).2, ps) (s', ps')); try done.
    - by apply logout_starts.
    - eapply Forall_impl; [exact Hps|]. auto. }
  pose proof (logged_out_rejects cfg tok (s_now s) fp s' Hne Hiss Hlo) as Hr.
  unfold ParseSession, bind. destruct (parse_check cfg tok fp s') as [r s2]. cbn in Hr. by subst r.
Qed.
End Steps.

(** * What an accepted session is *)

Section Genuine.
Context `{AuthLib} (cfg : AuthConfig) (delay : Z) (Hdelay : (0 ≤ delay)%Z).

(** A method that only drops entries of the session cache and leaves the clock. *)
Definition derived (s s' : Service) : Prop :=
  s_now s' = s_now s ∧ tc_ttl (s_sessions s') = tc_ttl (s_sessions s) ∧
  ∀ tok e, tc_entries (s_sessions s') !! tok = Some e → tc_entries (s_sessions s) !! tok = Some e.

Lemma derived_frame s0 s s' :
  s_sessions s' = s_sessions s → s_now s' = s_now s → derived s0 s → derived s0 s'.
Proof. intros E1 E2 (? & ? & ?). unfold derived. by rewrite E1, E2. Qed.

Lemma derived_Get s0 s t :
  derived s0 s → derived s0 (set_sessions (λ _, (Get t (s_now s) (s_sessions s)).2) s).
Proof.
  intros (H1 & H2 & H3). unfold derived. cbn. rewrite Get_ttl. repeat split; [done..|].
  intros tok e He. apply H3. revert He. unfold Get. destruct (_ !! t) as [e'|]; [|done].
  destruct (fresh_entry _ e'); [done|]. cbn. by intros [_ ?]%lookup_delete_Some.
Qed.

Lemma derived_isPersistentlyRevoked s0 t : keeps (derived s0) (isPersistentlyRevoked cfg t).
Proof.
  unfold isPersistentlyRevoked, revoke, now_, revocationCache_get, cache_get. keeps.
  - intros s' Hs'. destruct (Get _ _ _). by eapply (derived_frame _ s').
  - apply keeps_db. intros t' s' Hs'. by eapply (derived_frame _ s').
  - intros s' Hs'. by eapply (derived_frame _ s').
  - intros s' Hs'. by eapply (derived_frame _ s').
Qed.

Lemma derived_is_revoked s0 t : keeps (derived s0) (is_revoked t).
Proof.
  intros s Hs. unfold is_revoked. destruct (IsRevoked _ _ _). by eapply (derived_frame _ s).
Qed.

Lemma derived_sessions_get s0 t fp : keeps (derived s0) (sessions_get t fp).
Proof.
  intros s Hs. unfold sessions_get, cache_get, sessions_Get.
  pose proof (derived_Get s0 s t Hs) as HG.
  destruct (Get t (s_now s) (s_sessions s)) as [[a|] c]; exact HG.
Qed.

Lemma derived_parse_check s0 t fp : keeps (derived s0) (parse_check cfg t fp).
Proof.
  unfold parse_check, now_. keeps.
  - apply derived_is_revoked.
  - apply derived_isPersistentlyRevoked.
  - apply derived_sessions_get.
Qed.

Lemma derived_InvalidateSession s0 t : keeps (derived s0) (InvalidateSession cfg t).
Proof.
  unfold InvalidateSession, revoke, now_. keeps.
  - intros s (H1 & H2 & H3). unfold sessions_Invalidate. cbn. destruct (IsEmpty t); [done|].
    repeat split; [done..|]. cbn. intros tok e He. apply H3. by apply lookup_delete_Some in He as [_ ?].
  - intros s' Hs'. by eapply (derived_frame _ s').
  - apply keeps_db. intros t' s' Hs'. by eapply (derived_frame _ s').
Qed.

(** The user a token speaks for, presented from the device it was issued to. *)
Definition speaks_for (tok fp : string) (user : User) (claims : Claims) : Prop :=
  jwt_parse tok = Some claims ∧ cl_Fingerprint claims = fp ∧ fp ≠ "" ∧ user = user_of_claims claims.

Definition slack : Z := (defaultSessionCacheTTL + delay)%Z.

(** Every cached session and every pending write is genuine. *)
Record genuine (r : Replica) : Prop := {
  gn_ttl : tc_ttl (s_sessions r.1) = defaultSessionCacheTTL;
  gn_cache : ∀ tok e, tc_entries (s_sessions r.1) !! tok = Some e → ∃ claims,
    speaks_for tok (cs_fingerprint (te_value e)) (cs_user (te_value e)) claims ∧
    (te_expiresAt e < cl_ExpiresAt claims + slack)%Z;
  gn_pending : Forall (λ p, ∃ claims, speaks_for (pd_token p) (pd_fp p) (pd_user p) claims ∧
    (pd_since p < cl_ExpiresAt claims)%Z) r.2;
}.

Lemma genuine_derived s s' ps : derived s s' → genuine (s, ps) → genuine (s', ps).
Proof. intros (H1 & H2 & H3) [G1 G2 G3]. split; cbn in *; [by rewrite H2|eauto|done]. Qed.

Lemma derived_refl s : derived s s.
Proof. done. Qed.

Lemma sessions_get_hit tok fp s user s' :
  sessions_get tok fp s = (Ok (Some user), s') →
  ∃ e, tc_entries (s_sessions s) !! tok = Some e ∧ (s_now s ≤ te_expiresAt e)%Z ∧
       cs_fingerprint (te_value e) = fp ∧ cs_user (te_value e) = user.
Proof.
  unfold sessions_get, cache_get, sessions_Get.
  pose proof (Get_live tok (s_now s) (s_sessions s)) as HL. unfold live in HL.
  destruct (Get tok (s_now s) (s_sessions s)) as [a c]. cbn in HL. subst a.
  destruct (_ !! tok) as [e|]; [|done]. unfold fresh_entry.
  destruct (Z.leb_spec (s_now s) (te_expiresAt e)); [|done].
  case_bool_decide as Hf; cbn; [|done]. intros [= <- _]. eauto.
Qed.

(** An accepted token is genuine, and not expired for longer than the slack. *)
Lemma accepted_genuine tok fp s ps user verified s' :
  genuine (s, ps) → parse_check cfg tok fp s = (Ok (user, verified), s') →
  ∃ claims, speaks_for tok fp user claims ∧ (s_now s < cl_ExpiresAt claims + slack)%Z ∧
    (verified = true → (s_now s < cl_ExpiresAt claims)%Z).
Proof.
  intros G E. unfold parse_check in E. destruct (IsEmpty fp) eqn:Hfp; [done|].
  apply IsEmpty_false in Hfp.
  apply bind_ok in E as [(b1 & s1 & E1 & E)|(? & _ & [=])]. destruct b1; [done|].
  apply bind_ok in E as [(b2 & s2 & E2 & E)|(? & _ & [=])]. destruct b2; [done|].
  pose proof (derived_is_revoked s tok s (derived_refl s)) as D1. rewrite E1 in D1. cbn in D1.
  pose proof (derived_isPersistentlyRevoked s tok s1 D1) as D2. rewrite E2 in D2. cbn in D2.
  clear E1 E2 D1 s1. pose proof D2 as (Hn & Ht & Hin).
  apply bind_ok in E as [(cached & s3 & E3 & E)|(? & _ & [=])].
  pose proof (derived_sessions_get s tok fp s2 D2) as D3. rewrite E3 in D3. cbn in D3.
  destruct cached as [u|].
  - injection E as <- <- <-. apply sessions_get_hit in E3 as (e & He & Hlive & Hf & Hu).
    rewrite Hn in Hlive. destruct (gn_cache _ G tok e (Hin _ _ He)) as (claims & Hs & Hx).
    rewrite Hf, Hu in Hs. exists claims. split; [done|]. split; [lia|done].
  - unfold now_ in E. unfold bind, get, ret, ParseWithClaims in E. cbn in E.
    rewrite (proj1 D3) in E. destruct (jwt_parse tok) as [claims|] eqn:Ej; [|done].
    destruct (Z.ltb_spec (s_now s) (cl_ExpiresAt claims)); [|done].
    destruct (IsEmpty (cl_Fingerprint claims)); cbn in E; [done|].
    case_bool_decide as Hf; cbn in E; [|done]. injection E as <- <- <-.
    exists claims. split; [done|]. split; [|done]. unfold slack, defaultSessionCacheTTL, second. lia.
Qed.

Lemma store_genuine p s ps1 ps2 :
  (s_now s ≤ pd_since p + delay)%Z → genuine (s, ps1 ++ p :: ps2) →
  genuine ((store_session (pd_token p) (pd_fp p) (pd_user p) s).2, ps1 ++ ps2).
Proof.
  intros Hnow [G1 G2 G3]. cbn in *.
  apply Forall_app in G3 as [Gp1 [(claims & Hs & Hx) Gp2]%Forall_cons].
  split; cbn; [| |by apply Forall_app].
  { unfold sessions_Set. by destruct (IsEmpty _). }
  unfold sessions_Set. destruct (IsEmpty (pd_token p)); [done|]. unfold ttl_Set. cbn.
  intros tok e He.
  assert (<[pd_token p := mkEntry (s_now s + tc_ttl (s_sessions s))
            {| cs_fingerprint := pd_fp p; cs_user := pd_user p |}]> (tc_entries (s_sessions s)) !! tok
          = Some e) as He'.
  { destruct (_ || _); [|done]. by apply map_lookup_filter_Some in He as [He _]. }
  clear He. destruct (decide (pd_token p = tok)) as [E|E].
  - subst tok. rewrite lookup_insert_eq in He'. injection He' as <-. exists claims. split; [done|].
    cbn. rewrite G1. unfold slack. lia.
  - rewrite lookup_insert_ne in He' by done. by apply G2.
Qed.

Lemma genuine_step r r' : step cfg delay r r' → genuine r → genuine r'.
Proof.
  intros Hstep G.
  destruct Hstep as [t fp s ps r s' E|p ps1 ps2 s Hnow|t s ps|now s ps Hnow|s s' ps E1 E2 E3].
  - pose proof (derived_parse_check s t fp s (derived_refl s)) as D. rewrite E in D.
    apply (genuine_derived _ s') in G as G'; [|done].
    destruct r as [[user []]|e]; [|done..]. destruct G' as [G1 G2 G3]. split; [done..|].
    constructor; [|done]. cbn.
    destruct (accepted_genuine _ _ _ _ _ _ _ G E) as (claims & Hs & _ & Hx). eauto.
  - by apply store_genuine.
  - eapply genuine_derived; [|exact G]. apply derived_InvalidateSession, derived_refl.
  - destruct G as [G1 G2 G3]. by split.
  - destruct G as [G1 G2 G3]. split; cbn in *; by rewrite ?E1.
Qed.

Lemma steps_genuine db now r :
  rtc (step cfg delay) (NewService db now, []) r → genuine r.
Proof.
  intros Hsteps. assert (genuine (NewService db now, [])) as G by (split; cbn; done).
  revert G. generalize (NewService db now, [] : list Pending) Hsteps. clear Hsteps.
  intros r0 Hsteps. induction Hsteps; [done|]. eauto using genuine_step.
Qed.

(** C9. Accepted sessions are genuine.  Whatever a replica has gone through
    since it started, it accepts a token only from the device the token was
    issued to, as the user the token was issued for, with a right signature, and
    at most 45 s (plus the time a request takes to make its cache write) after
    the token's expiry.  The session cache never opens a session of its own. *)
Theorem accepted_session_is_genuine db now s ps tok fp user s' :
  rtc (step cfg delay) (NewService db now, []) (s, ps) →
  ParseSession cfg tok fp s = (Ok user, s') →
  ∃ claims, jwt_parse tok = Some claims ∧ cl_Fingerprint claims = fp ∧ fp ≠ "" ∧
    user = user_of_claims claims ∧
    (s_now s < cl_ExpiresAt claims + (defaultSessionCacheTTL + delay))%Z.
Proof.
  intros Hsteps E.
  pose proof (steps_genuine db now (s, ps) Hsteps) as G.
  unfold ParseSession in E. apply bind_ok in E as [([u v] & s1 & E1 & E)|(? & _ & [=])].
  destruct (accepted_genuine _ _ _ _ _ _ _ G E1) as (claims & (H1 & H2 & H3 & H4) & Hx & _).
  assert (u = user) as ->.
  { destruct v; [|by injection E]. apply bind_ok in E as [(? & ? & _ & E)|(? & _ & [=])].
    by injection E. }
  exists claims. done.
Qed.
End Genuine.

(** * A session is accepted back *)

Section RoundTrip.
Context `{AuthLib} (cfg : AuthConfig).

(** No revocation of the token is known here or, as far as the caches do not
    answer, in the database. *)
Definition not_revoked (tok : string) (s : Service) : Prop :=
  rv_entries (s_revocations s) !! hashSessionToken tok = None ∧
  live (hashSessionToken tok) (s_now s) (s_revocationCache s) ≠ Some true ∧
  (∀ t, s_db s = Some t → t_up t = true ∧ t_revocations t !! hashSessionToken tok = None).

Lemma is_revoked_none tok s :
  not_revoked tok s → is_revoked tok s = (Ok false, set_revs (λ _, s_revocations s) s).
Proof.
  intros (Hr & _ & _). unfold is_revoked, IsRevoked. destruct (IsEmpty tok); [done|]. by rewrite Hr.
Qed.

Lemma not_persistently_revoked tok s :
  not_revoked tok s → (isPersistentlyRevoked cfg tok s).1 = Ok false.
Proof.
  intros (Hr & Hc & Hd). unfold isPersistentlyRevoked. unfold bind at 1, get at 1.
  destruct (negb (has_db s) || IsEmpty tok) eqn:E; [done|]. unfold has_db in E.
  destruct (s_db s) as [t|] eqn:Et; [|done]. specialize (Hd t eq_refl) as [Hup Hrev].
  unfold revocationCache_get, cache_get, bind at 1.
  pose proof (Get_live (hashSessionToken tok) (s_now s) (s_revocationCache s)) as HL.
  destruct (Get _ (s_now s) (s_revocationCache s)) as [a c]. cbn in HL. subst a.
  destruct (live _ _ _) as [[]|]; [done|done|].
  unfold IsSessionRevoked, attempt, db, online, now_, bind, get, ret. cbn. rewrite Et. cbn.
  by rewrite Hup, Hrev.
Qed.

(** Neither creating nor looking up changes what the checks read. *)
Lemma CreateSession_same user fp s tok s1 :
  CreateSession cfg user fp s = (Ok tok, s1) →
  ∃ v, jwt_sign {|
    cl_UserID := u_ID user; cl_Username := u_Username user; cl_Roles := u_Roles user;
    cl_IsRoot := u_IsRoot user; cl_UserVersion := v; cl_Fingerprint := fp;
    cl_ExpiresAt := NewNumericDate (s_now s + cfg_SessionTTL cfg);
    cl_IssuedAt := NewNumericDate (s_now s); cl_Subject := u_Username user |} = Some tok ∧
    fp ≠ "" ∧ s_now s1 = s_now s.
Proof.
  unfold CreateSession. destruct (IsEmpty (u_ID user) || IsEmpty fp) eqn:Hf; [done|].
  go_bool. apply IsEmpty_false in H1. unfold bind at 1, now_, bind at 1, get, ret. cbn.
  intros E. apply bind_ok in E as [(v & s2 & Ev & E)|(? & _ & [=])].
  assert (keeps (λ s', s_now s' = s_now s) (CurrentUserVersion (u_ID user))) as K.
  { unfold CurrentUserVersion, versions_get, cache_get, now_. keeps.
    - intros s' Hs'. by destruct (Get _ _ _).
    - by apply keeps_db.
    - by intros s' Hs'. }
  specialize (K s eq_refl). rewrite Ev in K. cbn in K.
  destruct (jwt_sign _) as [t|] eqn:Ej; [|done]. injection E as -> <-. eauto.
Qed.

Lemma parse_check_accepts delay tok fp s ps claims :
  genuine delay (s, ps) → not_revoked tok s →
  jwt_parse tok = Some claims → cl_Fingerprint claims = fp → fp ≠ "" →
  (s_now s < cl_ExpiresAt claims)%Z →
  ∃ w s', parse_check cfg tok fp s = (Ok (user_of_claims claims, w), s').
Proof.
  intros G Hnr Hj Hf Hfp%IsEmpty_false Hx. unfold parse_check. rewrite Hfp.
  unfold bind at 1. rewrite is_revoked_none by done. cbn iota beta.
  set (s1 := set_revs _ s). unfold bind at 1.
  pose proof (not_persistently_revoked tok s1 Hnr) as H2.
  pose proof (derived_isPersistentlyRevoked cfg s tok s1 (derived_refl s)) as D.
  destruct (isPersistentlyRevoked cfg tok s1) as [r2 s2]. cbn in H2, D. subst r2.
  cbn iota beta. unfold bind at 1.
  pose proof (derived_sessions_get s tok fp s2 D) as D3.
  destruct (sessions_get tok fp s2) as [r3 s3] eqn:E3. cbn in D3.
  destruct r3 as [[u|]|e].
  - apply sessions_get_hit in E3 as (e & He & _ & _ & <-).
    destruct (gn_cache _ _ G tok e (proj2 (proj2 D) _ _ He)) as (claims' & (Hj' & _ & _ & ->) & _).
    assert (claims' = claims) as -> by congruence. by exists false, s3.
  - unfold now_, bind, get, ret, ParseWithClaims. rewrite (proj1 D3), Hj.
    assert ((s_now s <? cl_ExpiresAt claims)%Z = true) as -> by (by apply Z.ltb_lt).
    rewrite Hf, Hfp. cbn [orb]. rewrite bool_decide_eq_true_2 by done. cbn. eauto.
  - destruct (total_cache_get (λ s, let '(a, c) := sessions_Get tok fp (s_now s) (s_sessions s) in
      (a, set_sessions (λ _, c) s)) s2) as [a Ha].
    unfold sessions_get in E3. rewrite E3 in Ha. done.
Qed.

Lemma NewNumericDate_later now ttl : (second ≤ ttl)%Z → (now < NewNumericDate (now + ttl))%Z.
Proof. unfold NewNumericDate, second. intros. Z.to_euclidean_division_equations. lia. Qed.

(** A login lasts.  A session created for a user is accepted, on that
    replica, as that user with the same name, roles and root bit when it comes
    back from the same device before it is revoked, and is refused from every
    other device.  (With a parser that reads back what was signed, and a session
    lifetime of at least one second.) *)
Theorem session_roundtrip db now s0 ps delay user fp s tok :
  (∀ claims tok, jwt_sign claims = Some tok → jwt_parse tok = Some claims) →
  (0 ≤ delay)%Z → (second ≤ cfg_SessionTTL cfg)%Z →
  CreateSession cfg user fp s0 = (Ok tok, s) →
  rtc (step cfg delay) (NewService db now, []) (s, ps) →
  not_revoked tok s →
  (∃ u s', ParseSession cfg tok fp s = (Ok u, s') ∧ u_ID u = u_ID user ∧
     u_Username u = u_Username user ∧ u_Roles u = u_Roles user ∧ u_IsRoot u = u_IsRoot user) ∧
  (∀ fp', fp' ≠ fp → is_Ok (ParseSession cfg tok fp' s).1 = false).
Proof.
  intros Hlaw Hd Httl Hc Hsteps Hnr.
  apply CreateSession_same in Hc as (v & Hj%Hlaw & Hfp & Hnow). split.
  - pose proof (steps_genuine cfg delay Hd db now (s, ps) Hsteps) as G.
    destruct (parse_check_accepts delay tok fp s ps _ G Hnr Hj eq_refl Hfp) as (w & s1 & E).
    { cbn. rewrite <- Hnow. by apply NewNumericDate_later. }
    unfold ParseSession, bind at 1. rewrite E.
    exists (user_of_claims {|
      cl_UserID := u_ID user; cl_Username := u_Username user; cl_Roles := u_Roles user;
      cl_IsRoot := u_IsRoot user; cl_UserVersion := v; cl_Fingerprint := fp;
      cl_ExpiresAt := NewNumericDate (s_now s0 + cfg_SessionTTL cfg);
      cl_IssuedAt := NewNumericDate (s_now s0); cl_Subject := u_Username user |}).
    destruct w; eexists; (split; [reflexivity|done]).
  - intros fp' Hne. destruct (ParseSession cfg tok fp' s) as [[u|e] s'] eqn:E; [|done].
    destruct (accepted_session_is_genuine cfg delay Hd db now s ps tok fp' u s' Hsteps E)
      as (claims & Hj' & Hf & _). rewrite Hj in Hj'. injection Hj' as <-. by cbn in Hf.
Qed.
End RoundTrip.
