(* ===== verification/RefreshFacts.v ===== *)
(** Refresh tokens: rotated at most once, whatever requests interleave, and
    revoked with the session; with the case in which a logout leaves one usable. *)

From stdpp Require Import relations.
From S2P Require Export SessionFacts.

(** * The table *)

Definition refresh_row (t : Tables) (r : RefreshToken) : Prop :=
  t_refresh t !! rt_ID r = Some r.

(** Rows under their identifiers, one row per token hash, and a row is replaced
    by a row that exists, of the same user (the family). *)
Record refresh_ok (t : Tables) : Prop := {
  ro_key : ∀ id r, t_refresh t !! id = Some r → rt_ID r = id;
  ro_id : ∀ r, refresh_row t r → rt_ID r ≠ "";
  ro_hash : ∀ r r', refresh_row t r → refresh_row t r' →
    rt_TokenHash r = rt_TokenHash r' → r = r';
  ro_family : ∀ r, refresh_row t r → rt_ReplacedBy r ≠ "" →
    ∃ r', refresh_row t r' ∧ rt_ID r' = rt_ReplacedBy r ∧ rt_UserID r' = rt_UserID r;
}.

(** The statements that reach the table, from any replica.  A claim is made
    within one user: [RotateRefresh] issues the new row for the user of the old
    one. *)
Inductive statement (t : Tables) : Tables → Prop :=
  | st_insert id userID hash fph expires :
      id ≠ "" → statement t (InsertRefreshToken id userID hash fph expires t).2
  | st_mark id newID :
      (∀ r r', t_refresh t !! id = Some r → t_refresh t !! newID = Some r' →
               rt_UserID r = rt_UserID r') →
      statement t (MarkRefreshTokenReplaced id newID t).2
  | st_delete gone : statement t (delete_refresh gone t).2
  | st_other t' : t_refresh t' = t_refresh t → statement t t'.

Definition rows (t : Tables) : list RefreshToken := (map_to_list (t_refresh t)).*2.

Lemma elem_of_rows t r : refresh_ok t → r ∈ rows t ↔ refresh_row t r.
Proof.
  intros Hok. unfold rows, refresh_row. rewrite list_elem_of_fmap. split.
  - intros ([id r'] & -> & Hin%elem_of_map_to_list). cbn. by rewrite (ro_key t Hok id r' Hin).
  - intros Hr. exists (rt_ID r, r). split; [done|]. by apply elem_of_map_to_list.
Qed.

Lemma find_refresh_spec t hash r :
  refresh_ok t → find_refresh hash t = Some r ↔ refresh_row t r ∧ rt_TokenHash r = hash.
Proof.
  intros Hok. unfold find_refresh.
  destruct (List.find _ _) as [[id r']|] eqn:E; cbn.
  - apply find_some in E as [Hin Hh]. cbn in Hh. go_bool.
    rewrite <- list_elem_of_In in Hin. apply elem_of_map_to_list in Hin as Hl.
    assert (refresh_row t r') by (unfold refresh_row; by rewrite (ro_key t Hok id r' Hl)).
    split; [intros [= ->]; done|]. intros [Hr Hh']. f_equal.
    apply (ro_hash t Hok); congruence.
  - split; [done|]. intros [Hr Hh]. exfalso.
    pose proof (find_none _ _ E (rt_ID r, r)) as Hn. cbn in Hn.
    rewrite Hh, bool_decide_eq_true_2 in Hn by done. discriminate Hn.
    rewrite <- list_elem_of_In. by apply elem_of_map_to_list.
Qed.

(** ** The effect of each statement *)

Lemma Insert_effect id userID hash fph expires t :
  let '(r, t') := InsertRefreshToken id userID hash fph expires t in
  (t' = t ∧ is_Ok r = false) ∨
  (∃ row, r = Ok row ∧ rt_ID row = id ∧ rt_UserID row = userID ∧ rt_TokenHash row = hash ∧
     rt_ReplacedBy row = "" ∧ t_refresh t !! id = None ∧
     (∀ x, x ∈ rows t → rt_TokenHash x ≠ hash) ∧
     t' = set_refresh <[id := row]> t).
Proof.
  unfold InsertRefreshToken, online, bind, get, ensure, modify, ret, fail. destruct (t_up t); [|by left].
  destruct (t_refresh t !! id) eqn:Hid; [by left|]. cbn.
  destruct (existsb _ _) eqn:Hex; cbn; [by left|]. right. eexists. repeat split.
  intros x Hx. rewrite existsb_false_iff in Hex. unfold rows in Hx.
  apply list_elem_of_fmap in Hx as (kr & -> & Hk). specialize (Hex kr Hk). cbn in Hex. by go_bool.
Qed.

Lemma Mark_effect id newID t :
  let '(r, t') := MarkRefreshTokenReplaced id newID t in
  (t' = t ∧ r ≠ Ok true) ∨
  (∃ row, r = Ok true ∧ t_refresh t !! id = Some row ∧ rt_ReplacedBy row = "" ∧
     is_Some (t_refresh t !! newID) ∧ t' = set_refresh <[id := refresh_replaced newID row]> t).
Proof.
  unfold MarkRefreshTokenReplaced, online, bind, get, ensure, modify, ret, fail.
  destruct (t_up t); [|by left]. destruct (t_refresh t !! id) as [row|] eqn:Hid; [|by left].
  destruct (IsEmpty (rt_ReplacedBy row)) eqn:He; cbn; [|by left].
  destruct (t_refresh t !! newID) eqn:Hn; [|by left]. right. exists row.
  apply IsEmpty_true in He. repeat split; eauto.
Qed.

Lemma delete_effect gone t :
  let '(r, t') := delete_refresh gone t in
  (t' = t ∧ is_Ok r = false) ∨
  (r = Ok tt ∧ t' = set_refresh (filter (λ kr, gone kr.2 = false)) t ∧
   ∀ r d, r ∈ rows t → d ∈ rows t → gone r = false → rt_ReplacedBy r ≠ "" →
          rt_ID d = rt_ReplacedBy r → gone d = false).
Proof.
  unfold delete_refresh, online, bind, get, ensure, modify, ret, fail.
  destruct (t_up t); [|by left]. destruct (existsb _ _) eqn:Hex; cbn; [by left|]. right.
  repeat split. intros r d Hr Hd Hg Hne Hid.
  rewrite existsb_false_iff in Hex. specialize (Hex r Hr). cbn beta in Hex.
  rewrite Hg, (proj2 (IsEmpty_false _) Hne) in Hex. cbn in Hex.
  rewrite existsb_false_iff in Hex. specialize (Hex d Hd). cbn beta in Hex.
  rewrite Hid, bool_decide_eq_true_2, andb_true_r in Hex by done. done.
Qed.

Lemma refresh_ok_other t t' : t_refresh t' = t_refresh t → refresh_ok t → refresh_ok t'.
Proof. intros E [H1 H2 H3 H4]. split; unfold refresh_row in *; by rewrite E. Qed.

Lemma row_insert t row r :
  t_refresh t !! rt_ID row = None →
  refresh_row (set_refresh <[rt_ID row := row]> t) r ↔ r = row ∨ refresh_row t r.
Proof.
  intros Hn. unfold refresh_row. cbn. split.
  - intros [[_ ->]|[_ ?]]%lookup_insert_Some; auto.
  - intros [->|Hr]; [by rewrite lookup_insert_eq|].
    rewrite lookup_insert_ne; [done|]. intros E. rewrite E in Hn. congruence.
Qed.

Lemma insert_ok t row :
  refresh_ok t → rt_ID row ≠ "" → t_refresh t !! rt_ID row = None → rt_ReplacedBy row = "" →
  (∀ x, x ∈ rows t → rt_TokenHash x ≠ rt_TokenHash row) →
  refresh_ok (set_refresh <[rt_ID row := row]> t).
Proof.
  intros Hok Hne0 Hn Hrep Hfresh.
  assert (∀ x, refresh_row t x → rt_TokenHash x ≠ rt_TokenHash row) as Hf
    by (intros x Hx; apply Hfresh; by apply elem_of_rows).
  split.
  - intros id r. cbn. intros [[<- ->]|[_ Hr]]%lookup_insert_Some; [done|]. by apply (ro_key t Hok).
  - intros r. rewrite row_insert by done. intros [->|Hr]; [done|by apply (ro_id t Hok)].
  - intros r r'. rewrite !row_insert by done.
    intros [->|Hr] [->|Hr'] Hh; [done|by destruct (Hf r' Hr')|by destruct (Hf r Hr)|].
    by apply (ro_hash t Hok).
  - intros r. rewrite row_insert by done. intros [->|Hr] Hne; [done|].
    destruct (ro_family t Hok r Hr Hne) as (r' & Hr' & ?). exists r'.
    rewrite row_insert by done. auto.
Qed.

Lemma delete_ok t gone :
  refresh_ok t →
  (∀ r d, r ∈ rows t → d ∈ rows t → gone r = false → rt_ReplacedBy r ≠ "" →
          rt_ID d = rt_ReplacedBy r → gone d = false) →
  refresh_ok (set_refresh (filter (λ kr, gone kr.2 = false)) t).
Proof.
  intros Hok Hfk.
  assert (∀ r, refresh_row (set_refresh (filter (λ kr, gone kr.2 = false)) t) r ↔
               refresh_row t r ∧ gone r = false) as HR
    by (intros r; apply (map_lookup_filter_Some (λ kr : string * RefreshToken, gone kr.2 = false))).
  split.
  - intros id r. cbn. intros [Hr _]%map_lookup_filter_Some. by apply (ro_key t Hok).
  - intros r [Hr _]%HR. by apply (ro_id t Hok).
  - intros r r' [Hr _]%HR [Hr' _]%HR. by apply (ro_hash t Hok).
  - intros r [Hr Hg]%HR Hne. destruct (ro_family t Hok r Hr Hne) as (r' & Hr' & Hi & Hu).
    exists r'. split; [|done]. apply HR. split; [done|].
    by apply (Hfk r r'); try apply elem_of_rows.
Qed.

Lemma mark_ok t id newID row :
  refresh_ok t → t_refresh t !! id = Some row → rt_ReplacedBy row = "" →
  (∃ r', t_refresh t !! newID = Some r' ∧ rt_UserID r' = rt_UserID row) →
  refresh_ok (set_refresh <[id := refresh_replaced newID row]> t).
Proof.
  intros Hok Hid Hrep (r' & Hr' & Hu). pose proof (ro_key t Hok id row Hid) as <-.
  pose proof (ro_key t Hok newID r' Hr') as <-.
  set (row' := refresh_replaced (rt_ID r') row).
  set (t' := set_refresh <[rt_ID row := row']> t).
  assert (∀ r, refresh_row t' r ↔ r = row' ∨ (rt_ID r ≠ rt_ID row ∧ refresh_row t r)) as HR.
  { intros r. unfold refresh_row, t'. cbn. rewrite lookup_insert_Some. split; [naive_solver|].
    intros [->|[? ?]]; [by left|by right]. }
  (* a row keeps its identifier, hash and user *)
  assert (∀ r, refresh_row t r → ∃ r1, refresh_row t' r1 ∧ rt_ID r1 = rt_ID r ∧
            rt_UserID r1 = rt_UserID r) as Hkeep.
  { intros r Hr. destruct (decide (rt_ID r = rt_ID row)) as [E|E].
    - exists row'. split; [by apply HR; left|]. unfold refresh_row in Hr. rewrite E, Hid in Hr.
      by injection Hr as <-.
    - exists r. split; [|done]. apply HR. by right. }
  split.
  - intros id r. unfold t'. cbn. intros [[<- <-]|[_ Hr]]%lookup_insert_Some; [done|].
    by apply (ro_key t Hok).
  - intros r [->|[_ Hr]]%HR; [by apply (ro_id t Hok row)|by apply (ro_id t Hok)].
  - intros a b [->|[Ha1 Ha]]%HR [->|[Hb1 Hb]]%HR Hh; [done| | |by apply (ro_hash t Hok)].
    + pose proof (ro_hash t Hok row b Hid Hb Hh) as ->. done.
    + pose proof (ro_hash t Hok a row Ha Hid Hh) as ->. done.
  - intros r [->|[_ Hr]]%HR Hne.
    + destruct (Hkeep r' Hr') as (r1 & H1 & Hi & Hu1). exists r1. split; [done|]. cbn.
      split; congruence.
    + destruct (ro_family t Hok r Hr Hne) as (x & Hx & Hi & Hux).
      destruct (Hkeep x Hx) as (r1 & H1 & Hi1 & Hu1). exists r1. split; [done|]. split; congruence.
Qed.

Lemma statement_ok t t' : statement t t' → refresh_ok t → refresh_ok t'.
Proof.
  intros Hst Hok. destruct Hst as [id userID hash fph expires Hne|id newID Hu|gone|t' E].
  - pose proof (Insert_effect id userID hash fph expires t) as HI.
    destruct (InsertRefreshToken _ _ _ _ _ t) as [r t'].
    destruct HI as [[-> _]|(row & _ & <- & _ & <- & Hrep & Hnone & Hfresh & ->)]; [done|].
    by apply insert_ok.
  - pose proof (Mark_effect id newID t) as HM.
    destruct (MarkRefreshTokenReplaced id newID t) as [r t'].
    destruct HM as [[-> _]|(row & _ & Hid & Hrep & [r' Hr'] & ->)]; [done|].
    apply mark_ok; [done..|]. exists r'. split; [done|]. symmetry. by apply (Hu row r').
  - pose proof (delete_effect gone t) as HD. destruct (delete_refresh gone t) as [r t'].
    destruct HD as [[-> _]|(_ & -> & Hfk)]; [done|]. by apply delete_ok.
  - by eapply refresh_ok_other.
Qed.

(** ** Spent tokens *)

Section Spent.
Context (existing : RefreshToken).

(** A row for the same token, or under the same identifier. *)
Definition mine (r : RefreshToken) : Prop :=
  rt_TokenHash r = rt_TokenHash existing ∨ rt_ID r = rt_ID existing.

(** The token is spent: what is left of it in the table has been replaced. *)
Definition spent (t : Tables) : Prop :=
  ∀ r, r ∈ rows t → mine r → rt_TokenHash r = rt_TokenHash existing ∧ rt_ReplacedBy r ≠ "".

(** A statement that does not create a row for the token or under its identifier
    anew: raw tokens are random and identifiers unique, so none does. *)
Definition later (t t' : Tables) : Prop :=
  statement t t' ∧ ∀ r, r ∈ rows t' → mine r → ∃ r0, r0 ∈ rows t ∧ rt_ID r0 = rt_ID r.

Lemma rows_insert t id row r :
  r ∈ rows (set_refresh <[id := row]> t) → r = row ∨ r ∈ rows t.
Proof.
  unfold rows. cbn. rewrite !list_elem_of_fmap.
  intros ([k x] & -> & [[_ ->]|[_ Hk]]%elem_of_map_to_list%lookup_insert_Some); [by left|right].
  exists (k, x). split; [done|]. by apply elem_of_map_to_list.
Qed.

Lemma rows_filter t gone r :
  r ∈ rows (set_refresh (filter (λ kr, gone kr.2 = false)) t) → r ∈ rows t ∧ gone r = false.
Proof.
  unfold rows. cbn. rewrite !list_elem_of_fmap.
  intros ([k x] & -> & [Hk Hg]%elem_of_map_to_list%map_lookup_filter_Some). split; [|done].
  exists (k, x). split; [done|]. by apply elem_of_map_to_list.
Qed.

Lemma later_spent t t' : later t t' → refresh_ok t → spent t → spent t'.
Proof.
  intros [Hst Hno] Hok Hsp. destruct Hst as [id userID h fph expires Hne|id newID Hu|gone|t' E].
  - pose proof (Insert_effect id userID h fph expires t) as HI.
    destruct (InsertRefreshToken _ _ _ _ _ t) as [res t'].
    destruct HI as [[-> _]|(row & _ & Hid & _ & _ & _ & Hnone & _ & ->)]; [done|].
    intros r Hr Hm. destruct (Hno r Hr Hm) as (r0 & Hr0 & Hi).
    apply rows_insert in Hr as [->|Hr]; [|by apply Hsp]. exfalso.
    apply elem_of_rows in Hr0; [|done]. unfold refresh_row in Hr0. congruence.
  - pose proof (Mark_effect id newID t) as HM.
    destruct (MarkRefreshTokenReplaced id newID t) as [res t'].
    destruct HM as [[-> _]|(row & _ & Hid & Hrep & [r' Hr'] & ->)]; [done|].
    intros r [->|Hr]%rows_insert Hm; [|by apply Hsp]. cbn. split.
    + apply (Hsp row); [|exact Hm]. apply elem_of_rows; [done|]. unfold refresh_row.
      by rewrite (ro_key t Hok id row Hid).
    + pose proof (ro_key t Hok newID r' Hr') as E. rewrite <- E. apply (ro_id t Hok).
      unfold refresh_row. by rewrite E.
  - pose proof (delete_effect gone t) as HD. destruct (delete_refresh gone t) as [res t'].
    destruct HD as [[-> _]|(_ & -> & _)]; [done|].
    intros r [Hr _]%rows_filter. by apply Hsp.
  - unfold spent, rows. rewrite E. exact Hsp.
Qed.

Lemma later_steps t t' :
  rtc later t t' → refresh_ok t → spent t → refresh_ok t' ∧ spent t'.
Proof.
  intros Hs. induction Hs as [t|t1 t2 t3 Hl _ IH]; [done|]. intros Hok Hsp.
  apply IH; [by eapply statement_ok; [apply Hl|]|by eapply later_spent].
Qed.
End Spent.

(** Deleting a user's tokens always succeeds on a table in order. *)
Lemma delete_user_tokens t userID :
  refresh_ok t → t_up t = true →
  let '(r, t') := DeleteRefreshTokensByUser userID t in
  r = Ok tt ∧ ∀ x, x ∈ rows t' → rt_UserID x ≠ userID.
Proof.
  intros Hok Hup. unfold DeleteRefreshTokensByUser, delete_refresh, online, bind, get, ensure,
    modify, ret, fail. rewrite Hup.
  match goal with |- context [existsb ?f ?l] => assert (existsb f l = false) as -> end.
  { apply existsb_false_iff. intros r Hr. apply (elem_of_rows t r Hok) in Hr.
    destruct (rt_UserID r =s userID) eqn:Hu; [done|]. cbn [negb andb]. go_bool.
    destruct (IsEmpty (rt_ReplacedBy r)) eqn:He; [done|]. cbn [negb andb].
    apply IsEmpty_false in He. apply existsb_false_iff. intros d Hd.
    apply (elem_of_rows t d Hok) in Hd.
    destruct (ro_family t Hok r Hr He) as (r' & Hr' & Hi & Hux).
    destruct (rt_ID d =s rt_ReplacedBy r) eqn:Hid; [|apply andb_false_r]. go_bool.
    assert (d = r') as -> by (unfold refresh_row in *; congruence).
    rewrite bool_decide_eq_false_2; [done|congruence]. }
  cbn. split; [done|].
  intros x Hx. destruct (rows_filter t (λ r, rt_UserID r =s userID) x Hx) as [_ Hu]. by go_bool.
Qed.

(** * Rotation *)

Section Rotation.
Context `{AuthLib} (cfg : AuthConfig).

Lemma db_ok {A} (m : DBM A) s t r s' :
  s_db s = Some t → db m s = (r, s') → ∃ t', m t = (r, t') ∧ s' = set_db (Some t') s.
Proof. intros E. unfold db. rewrite E. destruct (m t) as [r' t'] eqn:Em. intros [= <- <-]. eauto. Qed.
Lemma db_run {A} (m : DBM A) s t r t' :
  s_db s = Some t → m t = (r, t') → db m s = (r, set_db (Some t') s).
Proof. intros E Em. unfold db. by rewrite E, Em. Qed.
Lemma bind_run {S E A B} (m : M S E A) (k : A → M S E B) s a s1 :
  m s = (Ok a, s1) → bind m k s = k a s1.
Proof. intros E'. unfold bind. by rewrite E'. Qed.
Lemma attempt_run {S E A} (m : M S E A) s r s1 : m s = (r, s1) → attempt m s = (Ok r, s1).
Proof. intros E'. unfold attempt. by rewrite E'. Qed.

Lemma attempt_db_ok {A} (m : DBM A) s t r s' :
  s_db s = Some t → attempt (db m) s = (Ok r, s') →
  ∃ t', m t = (r, t') ∧ s' = set_db (Some t') s.
Proof.
  intros E. unfold attempt. destruct (db m s) as [r0 s0] eqn:Em. intros [= -> ->].
  by apply (db_ok m s t).
Qed.

Lemma GetRefresh_ok hash t r t' :
  GetRefreshTokenByHash hash t = (Ok r, t') → t' = t ∧ find_refresh hash t = Some r.
Proof.
  unfold GetRefreshTokenByHash, online, bind, get, ret, fail. destruct (t_up t); [|done].
  destruct (find_refresh hash t); [|done]. by intros [= -> ->].
Qed.

(** A test that ends in an error after a clean-up is not a success. *)
Lemma then_fail_ok {A B} (m : M Service err A) e s (b : B) s' : (m ;; fail e) s = (Ok b, s') → False.
Proof. intros E. by apply bind_ok in E as [(? & ? & _ & [=])|(? & _ & [=])]. Qed.

(** The revocation of a family that follows a reuse. *)
Lemma revoke_family {A} userID s t :
  s_db s = Some t → t_up t = true → refresh_ok t →
  ∃ s' t', (attempt (db (DeleteRefreshTokensByUser userID)) ;;
            fail (A := A) ErrRefreshReuse) s = (Err ErrRefreshReuse, s') ∧
    s_db s' = Some t' ∧ ∀ x, x ∈ rows t' → rt_UserID x ≠ userID.
Proof.
  intros Hs Hup Hok. pose proof (delete_user_tokens t userID Hok Hup) as HD.
  destruct (DeleteRefreshTokensByUser userID t) as [r t'] eqn:E. destruct HD as [-> HD].
  eexists _, t'. erewrite bind_run by (eapply attempt_run, db_run; eauto). done.
Qed.

(** The loser of a race: the family goes, and the answer is the reuse error. *)
Lemma claim_spent existing newID s t :
  s_db s = Some t → t_up t = true → refresh_ok t → spent existing t →
  ∃ s' t', rotate_claim existing newID s = (Err ErrRefreshReuse, s') ∧ s_db s' = Some t' ∧
    ∀ x, x ∈ rows t' → rt_UserID x ≠ rt_UserID existing.
Proof.
  intros Hs Hup Hok Hsp. unfold rotate_claim.
  assert (MarkRefreshTokenReplaced (rt_ID existing) newID t = (Ok false, t)) as HM.
  { unfold MarkRefreshTokenReplaced, online, bind, get, ret. rewrite Hup.
    destruct (t_refresh t !! rt_ID existing) as [r|] eqn:Er; [|done].
    pose proof (ro_key t Hok _ r Er) as Hk.
    assert (rt_ReplacedBy r ≠ "") as Hne%IsEmpty_false; [|by rewrite Hne].
    apply (Hsp r); [|by right]. apply elem_of_rows; [done|]. unfold refresh_row. by rewrite Hk. }
  erewrite bind_run by (by eapply db_run). cbn [negb]. by apply (revoke_family (A := unit) _ _ t).
Qed.

Lemma claim_won existing newID s t s' :
  s_db s = Some t → rotate_claim existing newID s = (Ok tt, s') →
  ∃ row, t_refresh t !! rt_ID existing = Some row ∧ rt_ReplacedBy row = "" ∧
    is_Some (t_refresh t !! newID) ∧
    s' = set_db (Some (set_refresh <[rt_ID existing := refresh_replaced newID row]> t)) s.
Proof.
  intros Hs E. unfold rotate_claim in E.
  apply bind_ok in E as [(ok & s1 & E1 & E)|(? & _ & [=])].
  destruct (db_ok _ _ _ _ _ Hs E1) as (t1 & Em & ->).
  pose proof (Mark_effect (rt_ID existing) newID t) as HM. rewrite Em in HM.
  destruct ok; cbn in E.
  - injection E as <-. destruct HM as [[_ []]|(row & _ & Hid & Hr & Hn & ->)]; [done|]. eauto 6.
  - apply bind_ok in E as [(? & ? & _ & E)|(? & _ & [=])]. discriminate E.
Qed.

(** The row a claim won is spent, and the table stays in order. *)
Lemma claim_spends existing newID t :
  refresh_ok t → refresh_row t existing → is_Some (t_refresh t !! newID) →
  spent existing (set_refresh <[rt_ID existing := refresh_replaced newID existing]> t).
Proof.
  intros Hok Hrow [r' Hr'] r Hr Hm. pose proof (ro_key t Hok newID r' Hr') as Hk'.
  unfold rows in Hr. cbn in Hr. apply list_elem_of_fmap in Hr as ([k x] & -> & Hx).
  apply elem_of_map_to_list, lookup_insert_Some in Hx as [[_ <-]|[Hne' Hx]]; cbn.
  - split; [done|]. rewrite <- Hk'. apply (ro_id t Hok). unfold refresh_row. by rewrite Hk'.
  - exfalso. pose proof (ro_key t Hok k x Hx) as Hkx. destruct Hm as [Hh|Hi]; cbn in *.
    + assert (x = existing) as ->; [|congruence].
      apply (ro_hash t Hok); [unfold refresh_row; congruence|done..].
    + congruence.
Qed.

(** C8. Two requests never both rotate one refresh token.  Say both read its row
    while it was fresh; once the claim of the first has succeeded, the claim of
    the other fails with the reuse error and revokes every refresh token of the
    user, whatever statements of other requests and replicas came in between. *)
Theorem refresh_race_has_one_winner existing newID newID' s s1 s2 t t1 t2 :
  s_db s = Some t → refresh_ok t → refresh_row t existing →
  (∀ r, t_refresh t !! newID = Some r → rt_UserID r = rt_UserID existing) →
  rotate_claim existing newID s = (Ok tt, s1) → s_db s1 = Some t1 →
  rtc (later existing) t1 t2 →
  s_db s2 = Some t2 → t_up t2 = true →
  ∃ s3 t3, rotate_claim existing newID' s2 = (Err ErrRefreshReuse, s3) ∧ s_db s3 = Some t3 ∧
    ∀ x, x ∈ rows t3 → rt_UserID x ≠ rt_UserID existing.
Proof.
  intros Hs Hok Hrow Hfam Hwin Hs1 Hlater Hs2 Hup2.
  destruct (claim_won _ _ _ _ _ Hs Hwin) as (row & Hrow' & Hrep & [r' Hr'] & ->).
  assert (row = existing) as -> by (unfold refresh_row in Hrow; congruence).
  injection Hs1 as <-.
  destruct (later_steps _ _ _ Hlater) as [Hok2 Hsp2]; [|by apply claim_spends|].
  - apply mark_ok; [done..|]. exists r'. auto.
  - by apply (claim_spent existing newID' s2 t2).
Qed.

(** ** One rotation per token *)

(** The user cache holds users under their identifiers. *)
Definition users_keyed (s : Service) : Prop :=
  ∀ id e, tc_entries (s_users s) !! id = Some e → u_ID (te_value e) = id.

(** The tables stay as they are. *)
Definition tables_are (t : Tables) (s : Service) : Prop := s_db s = Some t.

Lemma keeps_db_read {A} t (m : DBM A) : (m t).2 = t → keeps (tables_are t) (db m).
Proof.
  intros Hm s Hs. unfold tables_are, db in *. rewrite Hs. destruct (m t) as [r t']. by cbn in *; subst.
Qed.

Lemma GetUserByID_reads id t : (GetUserByID id t).2 = t.
Proof.
  unfold GetUserByID, online, bind, get, ret, fail. destruct (t_up t); [|done]. by destruct (_ !! id).
Qed.
Lemma GetUserVersion_reads id t : (GetUserVersion id t).2 = t.
Proof. unfold GetUserVersion, online, bind, get, ret. by destruct (t_up t). Qed.

Lemma CurrentUserVersion_reads id t : keeps (tables_are t) (CurrentUserVersion id).
Proof.
  unfold CurrentUserVersion, versions_get, cache_get, now_. keeps.
  - intros s Hs. by destruct (Get _ _ _).
  - apply keeps_db_read, GetUserVersion_reads.
  - by intros s Hs.
Qed.

Lemma LoadUser_reads id t : keeps (tables_are t) (LoadUser id).
Proof.
  unfold LoadUser, users_get, cache_get, cache_user, now_. keeps.
  - intros s Hs. by destruct (Get _ _ _).
  - apply keeps_db_read, GetUserByID_reads.
  - apply CurrentUserVersion_reads.
  - by intros s Hs.
Qed.

Lemma CreateSession_reads user fp t : keeps (tables_are t) (CreateSession cfg user fp).
Proof. unfold CreateSession, now_. keeps. apply CurrentUserVersion_reads. Qed.

Lemma LoadUser_id id s user s' :
  users_keyed s → LoadUser id s = (Ok user, s') → u_ID user = id.
Proof.
  intros Hk. unfold LoadUser. destruct (IsEmpty id); [done|].
  intros E. apply bind_ok in E as [(c & s1 & E1 & E)|(? & _ & [=])].
  unfold users_get, cache_get in E1.
  pose proof (Get_live id (s_now s) (s_users s)) as HL. unfold live in HL.
  destruct (Get id (s_now s) (s_users s)) as [a c']. cbn in HL. injection E1 as <- <-.
  destruct a as [u|].
  - injection E as -> _. destruct (tc_entries (s_users s) !! id) as [e|] eqn:Ee; [|done].
    destruct (fresh_entry _ e); [|done]. injection HL as ->. by apply Hk.
  - apply bind_ok in E as [(u & s2 & E2 & E)|(? & _ & [=])].
    apply bind_ok in E as [(v & s3 & _ & E)|(? & _ & [=])].
    apply bind_ok in E as [(? & s4 & _ & E)|(? & _ & [=])]. injection E as <- _. cbn.
    unfold db in E2. destruct (s_db _) as [t|]; [|done].
    unfold GetUserByID, online, bind, get, ret, fail in E2. destruct (t_up t); [|done].
    destruct (t_users t !! id); [|done]. by injection E2 as <- _.
Qed.

(** What the first half of a rotation has established. *)
Lemma rotate_begin_ok raw fp s t existing user s' :
  s_db s = Some t → users_keyed s → refresh_ok t →
  rotate_begin raw fp s = (Ok (existing, user), s') →
  refresh_row t existing ∧ rt_TokenHash existing = hashRefreshToken raw ∧
  rt_ReplacedBy existing = "" ∧ u_ID user = rt_UserID existing ∧ s_db s' = Some t.
Proof.
  intros Hs Hk Hok E. unfold rotate_begin in E.
  unfold bind at 1, get in E. destruct (_ || IsEmpty fp); [done|].
  apply bind_ok in E as [(res & s0 & E0 & E)|(? & _ & [=])].
  apply (attempt_db_ok _ _ t) in E0 as (t' & Eg & ->); [|done]. destruct res as [r|]; [|done].
  apply GetRefresh_ok in Eg as [-> Ef]. apply (find_refresh_spec t _ _ Hok) in Ef as [Hrow Hh].
  destruct (negb (IsEmpty (rt_ReplacedBy r))) eqn:Hrep; [by apply then_fail_ok in E|].
  unfold bind at 1, now_, bind at 1, get, ret in E. cbn in E.
  destruct (rt_ExpiresAt r <? s_now s)%Z; [by apply then_fail_ok in E|].
  destruct (_ <>s fp); [done|].
  set (s0 := set_db (Some t) s) in E.
  apply bind_ok in E as [(ru & s1 & E1 & E)|(? & _ & [=])]. unfold attempt in E1.
  destruct (LoadUser (rt_UserID r) s0) as [ru' s1'] eqn:El. injection E1 as <- <-.
  destruct ru' as [u|]; [|done]. injection E as <- <- <-. go_bool. apply IsEmpty_true in Hrep.
  pose proof (LoadUser_id _ s0 _ _ Hk El) as Hu.
  pose proof (LoadUser_reads (rt_UserID r) t s0 eq_refl) as Ht. rewrite El in Ht.
  split_and!; [done..|exact Ht].
Qed.

Lemma IssueRefresh_ok userID fp s t raw newID s' :
  (∀ n, fresh_id n ≠ "") → s_db s = Some t → refresh_ok t →
  IssueRefresh cfg userID fp s = (Ok (raw, newID), s') →
  ∃ row, rt_ID row = newID ∧ rt_UserID row = userID ∧ t_refresh t !! newID = None ∧
    s_db s' = Some (set_refresh <[newID := row]> t) ∧
    refresh_ok (set_refresh <[newID := row]> t).
Proof.
  intros Hid Hs Hok E. unfold IssueRefresh in E.
  unfold bind at 1, get in E. destruct (_ || IsEmpty fp); [done|].
  assert (keeps (tables_are t) draw_token) as Kt
    by (unfold draw_token; keeps; by intros s0 Hs0).
  apply bind_ok in E as [(r1 & s1 & E1 & E)|(? & _ & [=])].
  pose proof (Kt s Hs) as T1. rewrite E1 in T1. cbn in T1.
  apply bind_ok in E as [(r2 & s2 & E2 & E)|(? & _ & [=])].
  pose proof (Kt s1 T1) as T2. rewrite E2 in T2. cbn in T2. clear E1 E2.
  apply bind_ok in E as [(now & s3 & E3 & E)|(? & _ & [=])].
  unfold now_, bind, get, ret in E3. injection E3 as <- <-.
  apply bind_ok in E as [(id & s4 & E4 & E)|(? & _ & [=])].
  unfold draw_id, bind, get, modify, ret in E4. cbn in E4. injection E4 as <- <-.
  apply bind_ok in E as [(row & s5 & E5 & E)|(? & _ & [=])].
  injection E as <- <- <-. apply (db_ok _ _ t) in E5 as (t' & Em & ->); [|exact T2].
  match type of Em with InsertRefreshToken ?i ?u ?h ?f ?x t = _ =>
    pose proof (Insert_effect i u h f x t) as HI; rewrite Em in HI end.
  destruct HI as [[_ HI]|(row' & [= <-] & Hi & Hu & Hh & Hrep & Hn & Hf & ->)]; [done|].
  exists row. rewrite Hi. split_and!; [done..|].
  rewrite <- Hi. apply insert_ok; [done| |by rewrite Hi|done|by rewrite Hh].
  rewrite Hi. apply Hid.
Qed.

Lemma RotateRefresh_spends raw fp s t user access refresh s1 :
  (∀ n, fresh_id n ≠ "") → s_db s = Some t → users_keyed s → refresh_ok t →
  RotateRefresh cfg raw fp s = (Ok (user, access, refresh), s1) →
  ∃ existing t1, rt_TokenHash existing = hashRefreshToken raw ∧ s_db s1 = Some t1 ∧
    refresh_ok t1 ∧ spent existing t1.
Proof.
  intros Hid Hs Hk Hok E. unfold RotateRefresh in E.
  apply bind_ok in E as [([existing u] & sa & Ea & E)|(? & _ & [=])].
  destruct (rotate_begin_ok _ _ _ _ _ _ _ Hs Hk Hok Ea) as (Hrow & Hh & Hrep & Hu & Hsa).
  apply bind_ok in E as [([nr newID] & sb & Eb & E)|(? & _ & [=])].
  destruct (IssueRefresh_ok _ _ _ _ _ _ _ Hid Hsa Hok Eb) as (row & Hri & Hru & Hnone & Hsb & Hok').
  apply bind_ok in E as [([] & sc & Ec & E)|(? & _ & [=])].
  destruct (claim_won _ _ _ _ _ Hsb Ec) as (row' & Hrow' & _ & Hn & ->).
  cbn in Hrow'. rewrite lookup_insert_ne in Hrow'
    by (intros Eq; unfold refresh_row in Hrow; congruence).
  assert (row' = existing) as -> by (unfold refresh_row in Hrow; congruence).
  apply bind_ok in E as [(tok & sd & Ed & E)|(? & _ & [=])]. injection E as _ _ _ <-.
  match type of Ed with CreateSession _ _ _ ?sc = _ =>
    pose proof (CreateSession_reads u fp _ sc eq_refl) as Ht end.
  rewrite Ed in Ht. cbn in Ht.
  assert (refresh_row (set_refresh <[newID := row]> t) existing) as Hrow1.
  { unfold refresh_row. cbn. by rewrite lookup_insert_ne
      by (intros Eq; unfold refresh_row in Hrow; congruence). }
  eexists existing, _. split; [done|]. split; [exact Ht|]. split.
  - apply mark_ok; [done|exact Hrow1|done|]. exists row. cbn.
    rewrite lookup_insert_eq. split; [done|]. congruence.
  - apply claim_spends; [done..|exact Hn].
Qed.

Lemma RotateRefresh_spent existing raw fp s t :
  rt_TokenHash existing = hashRefreshToken raw → s_db s = Some t → refresh_ok t →
  spent existing t →
  is_Ok (RotateRefresh cfg raw fp s).1 = false ∧
  (raw ≠ "" → fp ≠ "" → t_up t = true →
   ∀ r, r ∈ rows t → rt_TokenHash r = hashRefreshToken raw →
   ∃ s' t', RotateRefresh cfg raw fp s = (Err ErrRefreshReuse, s') ∧ s_db s' = Some t' ∧
     ∀ x, x ∈ rows t' → rt_UserID x ≠ rt_UserID r).
Proof.
  intros Hh Hs Hok Hsp. split.
  - destruct (RotateRefresh cfg raw fp s) as [[[[u a] n]|e] s'] eqn:E; [|done]. exfalso.
    unfold RotateRefresh in E. apply bind_ok in E as [([ex us] & sa & Ea & _)|(? & _ & [=])].
    unfold rotate_begin in Ea. unfold bind at 1, get in Ea. destruct (_ || IsEmpty fp); [done|].
    apply bind_ok in Ea as [(res & s0 & E0 & Ea)|(? & _ & [=])].
    apply (attempt_db_ok _ _ t) in E0 as (t' & Eg & ->); [|done]. destruct res as [r|]; [|done].
    apply GetRefresh_ok in Eg as [-> Ef]. apply (find_refresh_spec t _ _ Hok) in Ef as [Hrow Hr].
    destruct (Hsp r) as [_ Hne%IsEmpty_false].
    { by apply elem_of_rows. }
    { left. congruence. }
    rewrite Hne in Ea. cbn in Ea. by apply then_fail_ok in Ea.
  - intros Hraw Hfp Hup r Hr Hrh. apply elem_of_rows in Hr as Hrow; [|done].
    assert (find_refresh (hashRefreshToken raw) t = Some r) as Ef by (by apply find_refresh_spec).
    destruct (Hsp r Hr) as [_ Hne%IsEmpty_false]; [left; congruence|].
    destruct (revoke_family (A := RefreshToken * User) (rt_UserID r) (set_db (Some t) s) t eq_refl Hup Hok)
      as (s' & t' & E & Hs' & Hgone).
    exists s', t'. split; [|done]. unfold RotateRefresh, bind at 1.
    assert (rotate_begin raw fp s = (Err ErrRefreshReuse, s')) as ->; [|done].
    unfold rotate_begin. unfold bind at 1, get. unfold has_db. rewrite Hs. cbn [negb].
    apply IsEmpty_false in Hraw as ->. apply IsEmpty_false in Hfp as ->. cbn [orb].
    rewrite (bind_run _ _ _ (Ok r) (set_db (Some t) s)).
    { by rewrite Hne. }
    apply attempt_run, (db_run _ _ t); [done|]. unfold GetRefreshTokenByHash, online, bind, get, ret.
    by rewrite Hup, Ef.
Qed.

(** A refresh token works once.  After a rotation of it has succeeded, and
    whatever statements of other requests and replicas follow, it is never
    accepted again, from any device; and as long as its row is still there, a
    second use of it is recognised as theft: it answers the reuse error and
    revokes every refresh token of the user. *)
Theorem refresh_single_use raw fp fp' s t user access refresh s1 t1 t2 s2 :
  (∀ n, fresh_id n ≠ "") → s_db s = Some t → users_keyed s → refresh_ok t →
  RotateRefresh cfg raw fp s = (Ok (user, access, refresh), s1) →
  s_db s1 = Some t1 →
  (∀ existing, rt_TokenHash existing = hashRefreshToken raw → rtc (later existing) t1 t2) →
  s_db s2 = Some t2 →
  is_Ok (RotateRefresh cfg raw fp' s2).1 = false ∧
  (raw ≠ "" → fp' ≠ "" → t_up t2 = true →
   ∀ r, r ∈ rows t2 → rt_TokenHash r = hashRefreshToken raw →
   ∃ s3 t3, RotateRefresh cfg raw fp' s2 = (Err ErrRefreshReuse, s3) ∧ s_db s3 = Some t3 ∧
     ∀ x, x ∈ rows t3 → rt_UserID x ≠ rt_UserID r).
Proof.
  intros Hid Hs Hk Hok E Hs1 Hlater Hs2.
  destruct (RotateRefresh_spends _ _ _ _ _ _ _ _ Hid Hs Hk Hok E) as (existing & t1' & Hh & Hs1' & Hok1 & Hsp).
  assert (t1' = t1) as -> by congruence.
  destruct (later_steps existing _ _ (Hlater existing Hh) Hok1 Hsp) as [Hok2 Hsp2].
  by apply (RotateRefresh_spent existing).
Qed.

(** * Logging out and the refresh tokens *)

Lemma IsSessionRevoked_reads now jti t : (IsSessionRevoked now jti t).2 = t.
Proof. unfold IsSessionRevoked, online, bind, get, ret. by destruct (t_up t). Qed.

Lemma modify_reads f t : (∀ s, s_db (f s) = s_db s) → keeps (tables_are t) (modify (E := err) f).
Proof. intros Hf s Hs. unfold tables_are in *. cbn. by rewrite Hf. Qed.

Lemma is_revoked_reads tok t : keeps (tables_are t) (is_revoked tok).
Proof. intros s Hs. unfold is_revoked. by destruct (IsRevoked _ _ _). Qed.

Lemma cache_get_reads {A} (look : Service → option A * Service) t :
  (∀ s, s_db (look s).2 = s_db s) → keeps (tables_are t) (cache_get look).
Proof.
  intros Hl s Hs. unfold cache_get, tables_are in *. specialize (Hl s). destruct (look s).
  cbn in *. congruence.
Qed.

Lemma sessions_get_reads tok fp t : keeps (tables_are t) (sessions_get tok fp).
Proof. apply cache_get_reads. intros s. by destruct (sessions_Get _ _ _ _). Qed.

Lemma isPersistentlyRevoked_reads tok t : keeps (tables_are t) (isPersistentlyRevoked cfg tok).
Proof.
  unfold isPersistentlyRevoked, revoke, now_, revocationCache_get. keeps.
  - apply cache_get_reads. intros s. by destruct (Get _ _ _).
  - apply keeps_db_read, IsSessionRevoked_reads.
  - by apply modify_reads.
  - by apply modify_reads.
Qed.

Lemma ParseSession_reads tok fp t : keeps (tables_are t) (ParseSession cfg tok fp).
Proof.
  unfold ParseSession, parse_check, store_session, now_. keeps.
  - apply is_revoked_reads.
  - apply isPersistentlyRevoked_reads.
  - apply sessions_get_reads.
  - by apply modify_reads.
Qed.

(** The tables after a logout of the session: only the revocations change. *)
Lemma InvalidateSession_rows tok t :
  keeps (λ s, ∃ t', s_db s = Some t' ∧ rows t' = rows t) (InvalidateSession cfg tok).
Proof.
  unfold InvalidateSession, revoke, now_. keeps; try (intros s Hs; exact Hs).
  intros s (t' & Hs & Hr). unfold db. rewrite Hs. unfold RevokeSession, online, bind, modify.
  destruct (t_up t'); cbn; eexists; by split.
Qed.

(** A logout with a valid session also ends the user's refresh tokens: all of
    them, on all devices, are gone from the database afterwards. *)
Theorem Logout_revokes_refresh sessionTok refreshTok fp s t user s0 :
  sessionTok ≠ "" → s_db s = Some t → t_up t = true → refresh_ok t → u_ID user ≠ "" →
  ParseSession cfg sessionTok fp s = (Ok user, s0) →
  ∃ s1 t1, Logout cfg sessionTok refreshTok fp s =
             (Ok {| rp_Status := 204; rp_Cookies := clear_cookies; rp_User := None |}, s1) ∧
    s_db s1 = Some t1 ∧ ∀ x, x ∈ rows t1 → rt_UserID x ≠ u_ID user.
Proof.
  intros Hne%IsEmpty_false Hs Hup Hok Huid%IsEmpty_false E.
  pose proof (ParseSession_reads sessionTok fp t s Hs) as Ht. rewrite E in Ht. cbn in Ht.
  pose proof (delete_user_tokens t (u_ID user) Hok Hup) as HD.
  destruct (DeleteRefreshTokensByUser (u_ID user) t) as [r t'] eqn:ED. destruct HD as [-> HD].
  assert (RevokeRefreshTokensForUser (u_ID user) s0 = (Ok tt, set_db (Some t') s0)) as ER.
  { unfold RevokeRefreshTokensForUser. unfold bind at 1, get, has_db. rewrite Ht, Huid. cbn.
    by rewrite (bind_run _ _ _ (Ok tt) _ (attempt_run _ _ _ _ (db_run _ _ _ _ _ Ht ED))). }
  destruct (InvalidateSession cfg sessionTok (set_db (Some t') s0)) as [ri s1] eqn:EI.
  assert (ri = Ok tt) as ->.
  { assert (total (InvalidateSession cfg sessionTok)) as T.
    { unfold InvalidateSession, revoke. total; (apply total_now || total). }
    destruct (T (set_db (Some t') s0)) as [[] Hu]. by rewrite EI in Hu. }
  destruct (InvalidateSession_rows sessionTok t' (set_db (Some t') s0)) as (t1 & Hs1 & Hr1).
  { by exists t'. }
  rewrite EI in Hs1. cbn in Hs1. exists s1, t1. split; [|split; [done|by rewrite Hr1]].
  unfold Logout. rewrite Hne. cbn [negb]. erewrite bind_run; [reflexivity|].
  erewrite bind_run by (by eapply attempt_run). by erewrite bind_run.
Qed.

(** Deleting a row that another one points to fails. *)
Lemma delete_replacement_fails t a b :
  refresh_ok t → t_up t = true → refresh_row t a → refresh_row t b →
  rt_ReplacedBy a = rt_ID b → rt_TokenHash a ≠ rt_TokenHash b →
  DeleteRefreshTokenByHash (rt_TokenHash b) t = (Err ErrDB, t).
Proof.
  intros Hok Hup Ha Hb Hab Hh. unfold DeleteRefreshTokenByHash, delete_refresh, online, bind, get,
    ensure, fail. rewrite Hup.
  match goal with |- context [existsb ?f ?l] => assert (existsb f l = true) as -> end; [|done].
  apply existsb_true_iff. exists a. split; [by apply elem_of_rows|].
  rewrite bool_decide_eq_false_2 by done. cbn [negb andb].
  pose proof (ro_id t Hok b Hb) as Hne. rewrite <- Hab in Hne.
  apply IsEmpty_false in Hne as ->. cbn [negb andb].
  apply existsb_true_iff. exists b. split; [by apply elem_of_rows|].
  by rewrite !bool_decide_eq_true_2.
Qed.

(** A logout without a valid session does not revoke a rotated refresh
    token.  Once a token was refreshed, the row of the current one is pointed to
    by its predecessor, the delete violates the foreign key, and the error is
    only logged: the handler still answers 204 and clears the cookies, but the
    database is unchanged and the token stays usable. *)
Theorem Logout_keeps_rotated_token refreshTok fp s t a b :
  s_db s = Some t → t_up t = true → refresh_ok t → refreshTok ≠ "" →
  refresh_row t a → refresh_row t b → rt_ReplacedBy a = rt_ID b →
  rt_TokenHash b = hashRefreshToken refreshTok → rt_TokenHash a ≠ rt_TokenHash b →
  ∃ s1, Logout cfg "" refreshTok fp s =
          (Ok {| rp_Status := 204; rp_Cookies := clear_cookies; rp_User := None |}, s1) ∧
        s_db s1 = Some t ∧ s_now s1 = s_now s.
Proof.
  intros Hs Hup Hok Hne%IsEmpty_false Ha Hb Hab Hh Hd.
  pose proof (delete_replacement_fails t a b Hok Hup Ha Hb Hab Hd) as HD. rewrite Hh in HD.
  exists (set_db (Some t) s). split; [|done]. unfold Logout. cbn [IsEmpty String.length Nat.eqb negb].
  rewrite Hne. cbn [negb]. erewrite bind_run; [reflexivity|].
  unfold RevokeRefreshToken. unfold bind at 1, get, has_db. rewrite Hs, Hne. cbn [negb orb].
  by rewrite (bind_run _ _ _ (Err ErrDB) _ (attempt_run _ _ _ _ (db_run _ _ _ _ _ Hs HD))).
Qed.
End Rotation.
