(* ===== verification/CredentialFacts.v ===== *)
(** Passwords and user records: who can log in, what the caches may hide, and a
    sample service on which the theorems on sessions are instantiated. *)

From stdpp Require Import relations.
From S2P Require Export RefreshFacts.

Section Credentials.
Context `{AuthLib} (cfg : AuthConfig).

Lemma find_user_some p t id r :
  find_user p t = Some (id, r) → t_users t !! id = Some r ∧ p id r = true.
Proof.
  unfold find_user. intros [Hin Hp]%find_some. split; [|done].
  apply elem_of_map_to_list. by apply list_elem_of_In.
Qed.
Lemma find_user_none p t :
  find_user p t = None → ∀ id r, t_users t !! id = Some r → p id r = false.
Proof.
  unfold find_user. intros Hn id r Hr.
  apply (find_none _ _ Hn (id, r)), list_elem_of_In. by apply elem_of_map_to_list.
Qed.

Lemma GetUserByUsername_cases username t :
  (∃ id r, t_users t !! id = Some r ∧ row_Username r = username ∧
     GetUserByUsername username t = (Ok (user_of_row t id r, row_PasswordHash r), t)) ∨
  (GetUserByUsername username t = (Err ErrNotFound, t) ∧
     ∀ id r, t_users t !! id = Some r → row_Username r ≠ username) ∨
  GetUserByUsername username t = (Err ErrDB, t).
Proof.
  unfold GetUserByUsername, online, bind, get, ret, fail. destruct (t_up t); [|auto].
  destruct (find_user _ t) as [[id r]|] eqn:E.
  - left. apply find_user_some in E as [Hr Hp]. go_bool. eauto.
  - right. left. split; [done|]. intros id r Hr Hu.
    pose proof (find_user_none _ t E id r Hr) as Hp. cbn in Hp. by go_bool.
Qed.

(** No login without a password.  A user that [AuthenticateBasic] answers is
    a user of the database whose stored hash is not empty and matches the
    password; the one exception is the configured administrator while no user of
    that name exists, with the configured password. *)
Theorem AuthenticateBasic_sound username password s t user s' :
  s_db s = Some t →
  AuthenticateBasic cfg username password s = (Ok user, s') →
  (∃ id r, t_users t !! id = Some r ∧ row_Username r = username ∧ row_PasswordHash r ≠ "" ∧
     CheckPassword (row_PasswordHash r) password = true ∧ user = user_of_row t id r) ∨
  (username = cfg_AdminUsername cfg ∧ password = cfg_AdminPassword cfg ∧
     ∀ id r, t_users t !! id = Some r → row_Username r ≠ username).
Proof.
  intros Hs E. unfold AuthenticateBasic in E.
  apply bind_ok in E as [(res & s1 & E1 & E)|(? & _ & [=])].
  apply (attempt_db_ok _ _ t) in E1 as (t' & Eg & ->); [|done].
  destruct (GetUserByUsername_cases username t) as [(id & r & Hr & Hu & Eq)|[[Eq Hn]|Eq]];
    rewrite Eq in Eg; injection Eg as <- <-.
  - left. destruct (IsEmpty (row_PasswordHash r)) eqn:He; [done|].
    destruct (CheckPassword _ _) eqn:Hc; [|done]. cbn in E. injection E as <- _.
    apply IsEmpty_false in He. eauto 8.
  - right. rewrite bool_decide_eq_true_2 in E by done. cbn [andb] in E.
    destruct (username =s _) eqn:Hu; [|done]. destruct (password =s _) eqn:Hp; [|done].
    go_bool. done.
  - done.
Qed.

Lemma CurrentUserVersion_miss userID s t :
  userID ≠ "" → s_db s = Some t → t_up t = true →
  live userID (s_now s) (s_versionCache s) = None →
  ∃ s', CurrentUserVersion userID s = (Ok (default 1%Z (t_versions t !! userID)), s').
Proof.
  intros Hne%IsEmpty_false Hs Hup Hl. unfold CurrentUserVersion. rewrite Hne.
  erewrite bind_run by reflexivity. unfold has_db. rewrite Hs. cbn [negb].
  pose proof (Get_live userID (s_now s) (s_versionCache s)) as HL. rewrite Hl in HL.
  destruct (Get userID (s_now s) (s_versionCache s)) as [a c] eqn:EG. cbn in HL. subst a.
  assert (versions_get userID s = (Ok None, set_versionCache (λ _, c) s)) as Hv
    by (unfold versions_get, cache_get; by rewrite EG).
  rewrite (bind_run _ _ _ _ _ Hv).
  assert (GetUserVersion userID t = (Ok (default 1%Z (t_versions t !! userID)), t)) as Hg
    by (unfold GetUserVersion, online, bind, get, ret; by rewrite Hup).
  set (s1 := set_versionCache (λ _, c) s). assert (s_db s1 = Some t) as Hs1 by done.
  rewrite (bind_run _ _ _ _ _ (attempt_run _ _ _ _ (db_run _ _ _ _ _ Hs1 Hg))). eexists. reflexivity.
Qed.

(** Fresh authorization.  On the credential and access paths the user is
    reloaded: whatever the caches of the replica hold, [LoadUserFresh] answers
    the roles, access rules, grants and version that are in the database now, and
    fails when the user is gone. *)
Theorem LoadUserFresh_exact s t userID :
  userID ≠ "" → s_db s = Some t → t_up t = true →
  (LoadUserFresh userID s).1 =
    match t_users t !! userID with
    | Some r => Ok (with_version (default 1%Z (t_versions t !! userID)) (user_of_row t userID r))
    | None => Err ErrNotFound
    end.
Proof.
  intros Hne Hs Hup. pose proof Hne as He%IsEmpty_false. unfold LoadUserFresh. rewrite He.
  erewrite bind_run by reflexivity. erewrite bind_run by reflexivity.
  erewrite bind_run by reflexivity.
  set (s1 := set_versionCache _ _). assert (s_db s1 = Some t) as Hs1 by done.
  unfold has_db. rewrite Hs1. cbn [negb].
  assert (GetUserByID userID t =
    (match t_users t !! userID with Some r => Ok (user_of_row t userID r) | None => Err ErrNotFound end, t))
    as Hg by (unfold GetUserByID, online, bind, get, ret, fail; rewrite Hup; by destruct (_ !! _)).
  pose proof (db_run _ _ _ _ _ Hs1 Hg) as Hd.
  destruct (t_users t !! userID) as [r|]; [|unfold bind; by rewrite Hd].
  rewrite (bind_run _ _ _ _ _ Hd). set (s2 := set_db (Some t) s1) in *.
  destruct (CurrentUserVersion_miss userID s2 t) as [s3 Hv]; [done..| |].
  { unfold s2, s1. cbn. unfold live, Invalidate. cbn. by rewrite lookup_delete_eq. }
  by rewrite (bind_run _ _ _ _ _ Hv).
Qed.

(** A version does not end a session.  The version stamped into a token is
    raised when a user's rights change, so that the user is reloaded; a token
    with an old version is still accepted, as the user the database has now. *)
Theorem stale_version_accepted s t partial r :
  u_ID partial ≠ "" → s_db s = Some t → t_up t = true →
  t_users t !! u_ID partial = Some r →
  live (u_ID partial) (s_now s) (s_versionCache s) = None →
  u_SessionVersion partial ≠ default 1%Z (t_versions t !! u_ID partial) →
  (LoadUserForSession partial s).1 =
    Ok (with_version (default 1%Z (t_versions t !! u_ID partial)) (user_of_row t (u_ID partial) r)).
Proof.
  intros Hne Hs Hup Hr Hl Hv. pose proof Hne as He%IsEmpty_false.
  unfold LoadUserForSession. rewrite He.
  destruct (CurrentUserVersion_miss (u_ID partial) s t Hne Hs Hup Hl) as [s1 E].
  rewrite (bind_run _ _ _ _ _ E). apply Z.eqb_neq in Hv as ->. rewrite andb_false_r.
  pose proof (CurrentUserVersion_reads (u_ID partial) t s Hs) as Hs1. rewrite E in Hs1. cbn in Hs1.
  unfold reload_user. erewrite bind_run by reflexivity. unfold has_db. rewrite Hs1. cbn [negb].
  assert (GetUserByID (u_ID partial) t = (Ok (user_of_row t (u_ID partial) r), t)) as Hg
    by (unfold GetUserByID, online, bind, get, ret, fail; by rewrite Hup, Hr).
  by rewrite (bind_run _ _ _ _ _ (db_run _ _ _ _ _ Hs1 Hg)).
Qed.
End Credentials.

(** * A sample service *)

#[export] Instance Claims_eq_dec : EqDecision Claims.
Proof. solve_decision. Defined.

Definition sample_auth : AuthConfig := {|
  cfg_SessionTTL := 900 * second; cfg_RefreshTokenTTL := 604800 * second;
  cfg_AdminUsername := "admin"; cfg_AdminPassword := "admin-pw" |}.

Definition sample_claims : Claims := {|
  cl_UserID := "u1"; cl_Username := "ada"; cl_Fingerprint := "laptop"; cl_Roles := [RoleViewer];
  cl_UserVersion := 1; cl_IsRoot := false; cl_ExpiresAt := 900 * second; cl_IssuedAt := 0;
  cl_Subject := "ada" |}.

(** A signer that signs one set of claims; hashes that mark their argument. *)
Definition sample_lib : AuthLib := {|
  jwt_sign c := if decide (c = sample_claims) then Some "jwt" else None;
  jwt_parse s := if s =s "jwt" then Some sample_claims else None;
  sha256 s := "#" +:+ s;
  bcrypt_hash s := Some ("$" +:+ s);
  CheckPassword h p := h =s ("$" +:+ p);
  random_token n := Some ("r" +:+ pretty n);
  fresh_id n := "id" +:+ pretty n;
|}.

Lemma sample_law claims tok :
  jwt_sign (AuthLib := sample_lib) claims = Some tok →
  jwt_parse (AuthLib := sample_lib) tok = Some claims.
Proof. cbn. case_decide; [|done]. intros [= <-]. by subst. Qed.

Lemma sample_ids n : fresh_id (AuthLib := sample_lib) n ≠ "".
Proof. done. Qed.

Definition ada_row : UserRow := {|
  row_Username := "ada"; row_Email := "ada@local"; row_PasswordHash := "$pw"; row_OIDCSub := "";
  row_IsRoot := false; row_AccessRules := None; row_CreatedAt := 0 |}.

Definition db0 : Tables :=
  mkTables true {["u1" := ada_row]} {["u1" := {[RoleViewer]}]} ∅ ∅ ∅ ∅ ∅.
Definition service0 : Service := NewService (Some db0) 0.

Lemma refresh_ok_none t : t_refresh t = ∅ → refresh_ok t.
Proof.
  intros E. split; unfold refresh_row; rewrite E; intros *; by rewrite ?lookup_empty.
Qed.

Lemma db0_ok : refresh_ok db0.
Proof. by apply refresh_ok_none. Qed.

Lemma logout_is_final_witness :
  (ParseSession (H := sample_lib) sample_auth "jwt" "laptop"
     (set_clock (880 * second)
        (InvalidateSession (H := sample_lib) sample_auth "jwt" service0).2)).1 = Err ErrUnauthorized.
Proof.
  eapply (logout_is_final (H := sample_lib) sample_auth (10 * second) "jwt" service0 [] _ []).
  - discriminate.
  - reflexivity.
  - vm_compute. discriminate.
  - intros claims. cbn. intros [= <-]. vm_compute. discriminate.
  - constructor.
  - apply rtc_once, step_tick. vm_compute. discriminate.
Defined.

Lemma accepted_session_is_genuine_witness :
  ∃ claims, jwt_parse (AuthLib := sample_lib) "jwt" = Some claims ∧
    cl_Fingerprint claims = "laptop" ∧ (0 < cl_ExpiresAt claims + 55 * second)%Z.
Proof.
  destruct (ParseSession (H := sample_lib) sample_auth "jwt" "laptop" service0) as [r s'] eqn:E.
  destruct (accepted_session_is_genuine (H := sample_lib) sample_auth (10 * second)
              ltac:(vm_compute; discriminate) (Some db0) 0 service0 [] "jwt" "laptop"
              (user_of_claims sample_claims) s') as (claims & Hj & Hf & _ & _ & Hx).
  - apply rtc_refl.
  - rewrite E. f_equal. transitivity (ParseSession (H := sample_lib) sample_auth "jwt" "laptop" service0).1;
      [by rewrite E|vm_compute; reflexivity].
  - exists claims. split; [exact Hj|]. split; [exact Hf|]. exact Hx.
Defined.

Definition ada : User := user_of_row db0 "u1" ada_row.

Lemma session_roundtrip_witness :
  let s := (CreateSession (H := sample_lib) sample_auth ada "laptop" service0).2 in
  is_Ok (ParseSession (H := sample_lib) sample_auth "jwt" "phone" s).1 = false.
Proof.
  intros s.
  destruct (session_roundtrip (H := sample_lib) sample_auth (Some db0) 0 service0 [] 0 ada "laptop"
              s "jwt") as [_ Hno].
  - apply sample_law.
  - reflexivity.
  - vm_compute. discriminate.
  - vm_compute. reflexivity.
  - apply rtc_once, step_other; vm_compute; reflexivity.
  - split; [vm_compute; reflexivity|]. split; [vm_compute; discriminate|].
    intros t. vm_compute. intros [= <-]. split; reflexivity.
  - apply Hno. discriminate.
Defined.

(** The table after a login, and after the token was refreshed once. *)
Definition db1 : Tables :=
  (InsertRefreshToken "a" "u1" "#raw" "laptop" (604800 * second) db0).2.
Definition db2 : Tables := (InsertRefreshToken "b" "u1" "#raw2" "laptop" (604800 * second) db1).2.
Definition db3 : Tables := (MarkRefreshTokenReplaced "a" "b" db2).2.

Definition row_a : RefreshToken := {|
  rt_ID := "a"; rt_UserID := "u1"; rt_TokenHash := "#raw"; rt_FingerprintHash := "laptop";
  rt_ExpiresAt := 604800 * second; rt_ReplacedBy := "" |}.

Lemma db1_ok : refresh_ok db1.
Proof. eapply statement_ok; [|apply db0_ok]. by apply st_insert. Qed.
Lemma db2_ok : refresh_ok db2.
Proof. eapply statement_ok; [|apply db1_ok]. by apply st_insert. Qed.
Lemma db3_ok : refresh_ok db3.
Proof.
  eapply statement_ok; [|apply db2_ok]. apply st_mark. vm_compute. intros r r' [= <-] [= <-]. done.
Qed.

Definition with_tables (t : Tables) : Service := NewService (Some t) 0.

Lemma refresh_race_has_one_winner_witness :
  is_Ok (rotate_claim row_a "b" (set_db (Some db3) (with_tables db2))).1 = false.
Proof.
  destruct (refresh_race_has_one_winner row_a "b" "b" (with_tables db2)
              (set_db (Some db3) (with_tables db2)) (set_db (Some db3) (with_tables db2))
              db2 db3 db3) as (s3 & t3 & E & _).
  - reflexivity.
  - apply db2_ok.
  - vm_compute. reflexivity.
  - vm_compute. intros r [= <-]. reflexivity.
  - vm_compute. reflexivity.
  - reflexivity.
  - apply rtc_refl.
  - reflexivity.
  - reflexivity.
  - rewrite E. reflexivity.
Defined.

Lemma refresh_single_use_witness :
  let s1 := (RotateRefresh (H := sample_lib) sample_auth "raw" "laptop" (with_tables db1)).2 in
  is_Ok (RotateRefresh (H := sample_lib) sample_auth "raw" "laptop" s1).1 = false.
Proof.
  intros s1.
  destruct (s_db s1) as [t1|] eqn:Et; [|vm_compute in Et; discriminate Et].
  destruct (RotateRefresh (H := sample_lib) sample_auth "raw" "laptop" (with_tables db1))
    as [r s1'] eqn:E.
  assert (∃ x, r = Ok x) as [[[u a] n] ->].
  { replace r with (RotateRefresh (H := sample_lib) sample_auth "raw" "laptop" (with_tables db1)).1
      by (by rewrite E). vm_compute. eexists. reflexivity. }
  eapply (refresh_single_use (H := sample_lib) sample_auth "raw" "laptop" "laptop" (with_tables db1) db1
            u a n s1' t1 t1 s1).
  - apply sample_ids.
  - reflexivity.
  - intros id e. vm_compute. discriminate.
  - apply db1_ok.
  - exact E.
  - exact Et.
  - intros existing _. apply rtc_refl.
  - exact Et.
Defined.

Lemma Logout_revokes_refresh_witness :
  let s1 := (Logout (H := sample_lib) sample_auth "jwt" "raw" "laptop" (with_tables db1)).2 in
  is_Ok (RotateRefresh (H := sample_lib) sample_auth "raw" "laptop" s1).1 = false.
Proof.
  intros s1.
  destruct (Logout_revokes_refresh (H := sample_lib) sample_auth "jwt" "raw" "laptop" (with_tables db1)
              db1 (user_of_claims sample_claims)
              (ParseSession (H := sample_lib) sample_auth "jwt" "laptop" (with_tables db1)).2)
    as (s2 & t2 & E & Ht & Hno).
  - discriminate.
  - reflexivity.
  - reflexivity.
  - apply db1_ok.
  - discriminate.
  - vm_compute. reflexivity.
  - vm_compute. reflexivity.
Defined.

(** The handler answers 204, and the refresh token still opens a new session. *)
Lemma Logout_keeps_rotated_token_witness :
  let s1 := (Logout (H := sample_lib) sample_auth "" "raw2" "laptop" (with_tables db3)).2 in
  (Refresh (H := sample_lib) sample_auth "raw2" "laptop" s1).1 =
  Ok {| rp_Status := 200;
        rp_Cookies := issueSessionCookies sample_auth "jwt" "r0r1" "r3";
        rp_User := Some (with_version 1 ada) |}.
Proof.
  intros s1.
  destruct (Logout_keeps_rotated_token (H := sample_lib) sample_auth "raw2" "laptop" (with_tables db3)
              db3 (refresh_replaced "b" row_a)
              {| rt_ID := "b"; rt_UserID := "u1"; rt_TokenHash := "#raw2";
                 rt_FingerprintHash := "laptop"; rt_ExpiresAt := 604800 * second;
                 rt_ReplacedBy := "" |}) as (s2 & E & Ht & _);
    [reflexivity|reflexivity|apply db3_ok|discriminate|vm_compute; reflexivity|
     vm_compute; reflexivity|reflexivity|reflexivity|discriminate|].
  vm_compute. reflexivity.
Defined.

Lemma AuthenticateBasic_sound_witness :
  ∃ id r, t_users db0 !! id = Some r ∧ row_Username r = "ada".
Proof.
  destruct (AuthenticateBasic_sound (H := sample_lib) sample_auth "ada" "pw" service0 db0 ada
              (AuthenticateBasic (H := sample_lib) sample_auth "ada" "pw" service0).2 eq_refl)
    as [(id & r & Hr & Hu & _)|(Hu & _ & _)].
  - vm_compute. reflexivity.
  - exists id, r. split; [exact Hr|exact Hu].
  - discriminate Hu.
Defined.

Lemma LoadUserFresh_exact_witness :
  (LoadUserFresh "u1" service0).1 = Ok (with_version 1 ada).
Proof.
  rewrite (LoadUserFresh_exact service0 db0 "u1"); [vm_compute; reflexivity|discriminate|reflexivity..].
Defined.

Lemma stale_version_accepted_witness :
  (LoadUserForSession (with_version 7 ada) service0).1 = Ok (with_version 1 ada).
Proof.
  rewrite (stale_version_accepted service0 db0 (with_version 7 ada) ada_row);
    [vm_compute; reflexivity|discriminate|reflexivity|reflexivity|reflexivity|
     vm_compute; reflexivity|vm_compute; discriminate].
Defined.
