(* ===== verification/UserService.v ===== *)
(** User management: internal/app/users.go, the service behind the users and
    people endpoints, over the port.UserRepository interface.

    The service decides; the repository stores.  What the service relies on is
    the class [UserRepository] with its laws, and the theorems are proved
    against it; the database of Store.v is shown to be an instance.  The point
    of the service is that delegation does not escalate: what a non-root
    manager creates or edits stays within the manager's own permissions. *)

From S2P Require Export Store.

(** * The repository interface (internal/port/repository.go) *)

Section Repository.
Context (S : Type).

(** The methods the service calls. *)
Record UserRepo := {
  repo_List : M S err (list User);
  repo_GetByID : string → M S err User;
  repo_CreateUser : UserCreate → M S err User;
  repo_UpdateUser : string → UserUpdate → M S err User;
  repo_DeleteUser : string → M S err unit;
}.
End Repository.
Arguments repo_List {S} _.
Arguments repo_GetByID {S} _.
Arguments repo_CreateUser {S} _.
Arguments repo_UpdateUser {S} _.
Arguments repo_DeleteUser {S} _.

(** What a successful call promises. *)
Class UserRepository {S} (repo : UserRepo S) := {
  repo_get_pure s id r s' : repo_GetByID repo id s = (r, s') → s' = s;
  repo_get_id s id u s' : repo_GetByID repo id s = (Ok u, s') → u_ID u = id;
  repo_create_result s inp u s' :
    repo_CreateUser repo inp s = (Ok u, s') →
    u_IsRoot u = uc_IsRoot inp ∧ u_AccessRules u = uc_AccessRules inp ∧
    u_Roles u = match uc_Roles inp with [] => [RoleViewer] | rs => rs end;
  repo_update_result s id inp old u s' s0 :
    repo_GetByID repo id s = (Ok old, s0) →
    repo_UpdateUser repo id inp s = (Ok u, s') →
    u_ID u = id ∧ u_IsRoot u = u_IsRoot old ∧
    u_AccessRules u = (if uu_SetRules inp then uu_AccessRules inp else u_AccessRules old) ∧
    (∀ role, role ∈ u_Roles u ↔
       role ∈ if uu_SetRoles inp then uu_Roles inp else u_Roles old);
}.

(** * The service *)

Section Service.
Context {S : Type} (repo : UserRepo S).

Definition validateRoles (roles : list string) : option err :=
  if Nat.eqb (length roles) 0 then Some (ErrMsg "roles required")
  else match List.find (λ role, negb (known_role role)) roles with
  | Some role => Some (ErrMsg ("invalid role: " +:+ role))
  | None => None
  end.

(** [if err := check; err != nil { return err }] *)
Definition check (e : option err) : M S err unit :=
  match e with None => ret tt | Some e => fail e end.

Definition rules_error (rules : option AccessRules) : option err :=
  ErrMsg <$> ValidateAccessRules rules.

Definition svc_List (actor : User) : M S err (list User) :=
  let perms := PermissionsFor actor in
  ensure (p_ManageUsers perms || p_IsRoot perms) ErrForbidden ;;
  let! users := repo_List repo in
  if p_IsRoot perms then ret users
  else ret (List.filter (λ user,
         negb (u_IsRoot user) &&
         (SupersetOf perms (PermissionsFor user) || (u_ID actor =s u_ID user))) users).

Definition svc_Create (actor : User) (inp : UserCreate) : M S err User :=
  let perms := PermissionsFor actor in
  ensure (p_ManageUsers perms) ErrForbidden ;;
  ensure (negb (uc_IsRoot inp)) ErrForbidden ;;
  check (validateRoles (uc_Roles inp)) ;;
  (match uc_AccessRules inp with
   | None =>
       ensure (p_IsRoot perms && HasRole (uc_Roles inp) RoleAdmin)
         (ErrMsg "accessRules required")
   | Some rules => check (rules_error (Some rules))
   end) ;;
  (if negb (p_IsRoot perms) then
     ensure (AllowsRoles perms (uc_Roles inp)) ErrCannotEscalate ;;
     ensure (CanAssignAccessRules perms (uc_AccessRules inp)) ErrCannotEscalate
   else ret tt) ;;
  repo_CreateUser repo inp.

Definition authorizeUserMutation (actor target : User) : option err :=
  if u_IsRoot target && negb (u_IsRoot actor) then Some ErrRootProtected
  else if (u_ID actor =s u_ID target) && negb (u_IsRoot actor) then Some ErrForbidden
  else
    let perms := PermissionsFor actor in
    if negb (p_ManageUsers perms) then Some ErrForbidden
    else if p_IsRoot perms then None
    else if negb (SupersetOf perms (PermissionsFor target)) &&
            negb (u_ID actor =s u_ID target)
    then Some ErrForbidden
    else None.

Definition svc_Update (actor : User) (userID : string) (inp : UserUpdate) : M S err User :=
  let! target := repo_GetByID repo userID in
  check (authorizeUserMutation actor target) ;;
  let perms := PermissionsFor actor in
  (if uu_SetRoles inp then
     check (validateRoles (uu_Roles inp)) ;;
     ensure (AllowsRoles perms (uu_Roles inp)) ErrCannotEscalate
   else ret tt) ;;
  (if uu_SetRules inp then
     match uu_AccessRules inp with
     | None => ensure (p_IsRoot perms) ErrCannotEscalate
     | Some rules =>
         check (rules_error (Some rules)) ;;
         ensure (CanAssignAccessRules perms (Some rules)) ErrCannotEscalate
     end
   else ret tt) ;;
  repo_UpdateUser repo userID inp.

Definition svc_Delete (actor : User) (userID : string) : M S err unit :=
  ensure (negb (u_ID actor =s userID)) ErrForbidden ;;
  let! target := repo_GetByID repo userID in
  check (authorizeUserMutation actor target) ;;
  repo_DeleteUser repo userID.

Definition svc_SetRoles (actor : User) (userID : string) (roles : list string) : M S err User :=
  svc_Update actor userID
    {| uu_Email := None; uu_Password := None; uu_AccessRules := None;
       uu_Roles := roles; uu_SetRoles := true; uu_SetRules := false |}.
End Service.

(** * The order of permissions *)

(** [q] gives nothing that [p] does not. *)
Record perm_le (q p : Permissions) : Prop := {
  le_root : p_IsRoot q = true → p_IsRoot p = true;
  le_clusters : ∀ c, AllowsCluster q c = true → AllowsCluster p c = true;
  le_roles : ∀ r, AllowsRole q r = true → AllowsRole p r = true;
  le_users : p_ManageUsers q = true → p_ManageUsers p = true;
  le_audit : p_ViewAudit q = true → p_ViewAudit p = true;
  le_delete : p_DeleteClusters q = true → p_DeleteClusters p = true;
}.

#[export] Instance perm_le_preorder : PreOrder perm_le.
Proof.
  split; [split; auto|].
  intros p q r [] []. split; eauto.
Qed.

Lemma AllowsRole_iff p r :
  AllowsRole p r = true ↔ p_IsRoot p = true ∨ r ∈ p_AssignableRoles p.
Proof.
  unfold AllowsRole, HasRole. destruct (p_IsRoot p); [intuition|].
  destruct (p_AssignableRoles p) as [|x l]; cbn.
  - split; [done|]. intros [|H]; [done|]. by apply elem_of_nil in H.
  - rewrite bool_decide_eq_true. intuition congruence.
Qed.

Lemma AllowsCluster_iff p c :
  AllowsCluster p c = true ↔
  p_IsRoot p = true ∨ p_AllClusters p = true ∨ c ∈ p_ClusterIDs p.
Proof.
  unfold AllowsCluster. destruct (p_IsRoot p), (p_AllClusters p); cbn;
    rewrite ?bool_decide_eq_true; intuition congruence.
Qed.

(** The five tests shared by [SupersetOf] and [CanAssignAccessRules]. *)
Lemma five_tests (p : Permissions) (mu va dc : bool) clusters roles :
  (if mu && negb (p_ManageUsers p) then false
   else if va && negb (p_ViewAudit p) then false
   else if dc && negb (p_DeleteClusters p) then false
   else if negb (forallb (AllowsCluster p) clusters) then false
   else forallb (AllowsRole p) roles) = true ↔
  (mu = true → p_ManageUsers p = true) ∧
  (va = true → p_ViewAudit p = true) ∧
  (dc = true → p_DeleteClusters p = true) ∧
  (∀ c, c ∈ clusters → AllowsCluster p c = true) ∧
  (∀ r, r ∈ roles → AllowsRole p r = true).
Proof.
  rewrite <- !forallb_true_iff.
  destruct mu, va, dc, (p_ManageUsers p), (p_ViewAudit p), (p_DeleteClusters p);
    cbn; try (split; [done|intuition congruence]);
    destruct (forallb _ clusters); cbn; intuition congruence.
Qed.

Lemma root_permissions u : u_IsRoot u = true → PermissionsFor u = FullPermissions.
Proof. unfold PermissionsFor. by intros ->. Qed.

Lemma nonroot_permissions u : p_IsRoot (PermissionsFor u) = u_IsRoot u.
Proof.
  unfold PermissionsFor. destruct (u_IsRoot u); [done|].
  destruct (u_AccessRules u); [done|]. by destruct (HasRole _ _).
Qed.

Lemma rules_permissions u rules :
  u_IsRoot u = false → u_AccessRules u = Some rules →
  p_AllClusters (PermissionsFor u) = false ∧
  p_ClusterIDs (PermissionsFor u) = ar_ClusterIDs rules ∧
  p_AssignableRoles (PermissionsFor u) = ar_AssignableRoles rules.
Proof. unfold PermissionsFor. by intros -> ->. Qed.

(** Two users with the same root bit and the same rules have the same
    permissions, whatever their roles. *)
Lemma permissions_same_rules u v rules :
  u_IsRoot u = u_IsRoot v → u_AccessRules u = Some rules → u_AccessRules v = Some rules →
  PermissionsFor u = PermissionsFor v.
Proof. unfold PermissionsFor. by intros -> -> ->. Qed.

Lemma perm_le_full q : perm_le q FullPermissions.
Proof. by split. Qed.

Lemma superset_le p q :
  p_IsRoot p = false → p_IsRoot q = false → p_AllClusters q = false →
  SupersetOf p q = true ↔ perm_le q p.
Proof.
  intros Hp Hq Ha. unfold SupersetOf. rewrite Hp, five_tests. split.
  - intros (? & ? & ? & Hc & Hr). split; [congruence|..]; auto.
    + intros c. rewrite (AllowsCluster_iff q). intros [|[|]]; [congruence..|auto].
    + intros r. rewrite (AllowsRole_iff q). intros [|]; [congruence|auto].
  - intros [? Hc Hr ? ? ?]. repeat split; auto.
    + intros c Hin. apply Hc, AllowsCluster_iff. auto.
    + intros r Hin. apply Hr, AllowsRole_iff. auto.
Qed.

Lemma assign_le p rules u :
  p_IsRoot p = false → CanAssignAccessRules p (Some rules) = true →
  u_IsRoot u = false → u_AccessRules u = Some rules →
  perm_le (PermissionsFor u) p.
Proof.
  intros Hp Hc Hr Hu. apply superset_le; [done|by rewrite nonroot_permissions| |].
  - by eapply rules_permissions.
  - unfold CanAssignAccessRules in Hc. rewrite Hp in Hc.
    unfold SupersetOf, PermissionsFor. by rewrite Hp, Hr, Hu.
Qed.

(** [SupersetOf], the test behind listing, editing and deleting other users,
    decides the inclusion of rights it stands for (every cluster, assignable
    role and delegated flag of the target) as long as the target does not hold
    all clusters. *)
Theorem SupersetOf_spec (actor target : User) :
  p_AllClusters (PermissionsFor target) = false →
  SupersetOf (PermissionsFor actor) (PermissionsFor target) = true ↔
  perm_le (PermissionsFor target) (PermissionsFor actor).
Proof.
  intros Ha. destruct (u_IsRoot actor) eqn:Hr.
  - rewrite (root_permissions actor) by done. split; [|done]. intros _. apply perm_le_full.
  - destruct (u_IsRoot target) eqn:Ht.
    + by rewrite (root_permissions target) in Ha.
    + apply superset_le; by rewrite ?nonroot_permissions.
Qed.

(** [SupersetOf] does not look at [AllClusters]: every scoped manager with
    the three delegated flags and the three assignable roles passes as superset
    of every legacy full admin, although there are clusters the admin reaches
    and the manager does not. *)
Theorem SupersetOf_blind_to_AllClusters (actor target : User) rules c :
  u_IsRoot actor = false → u_AccessRules actor = Some rules →
  ar_ManageUsers rules = true → ar_ViewAudit rules = true → ar_DeleteClusters rules = true →
  [RoleAdmin; RoleOperator; RoleViewer] ⊆ ar_AssignableRoles rules →
  c ∉ ar_ClusterIDs rules →
  u_IsRoot target = false → isLegacyFullAdmin target = true →
  SupersetOf (PermissionsFor actor) (PermissionsFor target) = true ∧
  AllowsCluster (PermissionsFor target) c = true ∧
  AllowsCluster (PermissionsFor actor) c = false.
Proof.
  intros Hr Hru Hmu Hva Hdc Hroles Hc Ht Hl.
  unfold isLegacyFullAdmin in Hl. rewrite HighestRole_admin in Hl.
  assert (Hp : PermissionsFor actor =
    Build_Permissions (ar_ClusterIDs rules) (ar_AssignableRoles rules)
      false false true true true).
  { unfold PermissionsFor. by rewrite Hr, Hru, Hmu, Hva, Hdc. }
  assert (Hq : PermissionsFor target =
    Build_Permissions [] [RoleAdmin; RoleOperator; RoleViewer] false true true true true).
  { unfold PermissionsFor. rewrite Ht. destruct (u_AccessRules target);
      apply andb_true_iff in Hl as [Hl Hn]; [done|]. by rewrite Hl. }
  rewrite Hp, Hq. repeat split.
  - unfold SupersetOf. cbn [p_IsRoot]. apply five_tests. repeat split; try done.
    + intros x Hx. by apply elem_of_nil in Hx.
    + intros r Hin. apply AllowsRole_iff. right. by apply Hroles.
  - apply not_true_iff_false. rewrite AllowsCluster_iff. cbn. naive_solver.
Qed.

(** * No escalation *)

(** Inversion of the guards: [m_inv] with the service's own combinators. *)
Lemma check_ok {S} (e : option err) (s : S) a s' :
  check e s = (Ok a, s') → e = None ∧ s' = s.
Proof. destruct e; cbn; [done|]. by intros [= _ <-]. Qed.

Ltac svc_inv :=
  repeat (m_inv; match goal with
  | H : check _ _ = (Ok _, _) |- _ => apply check_ok in H as [? ?]; subst
  | H : (if ?b then _ else _) _ = (Ok _, _) |- _ =>
      let E := fresh "Hif" in destruct b eqn:E
  | H : (match ?o with None => _ | Some _ => _ end) _ = (Ok _, _) |- _ =>
      let E := fresh "Hopt" in destruct o eqn:E
  end); m_inv.

Section NoEscalation.
Context {S : Type} (repo : UserRepo S) `{!UserRepository repo}.

(** C1. Creating a user never escalates.  When a non-root actor creates a
    user, the user is not root, has access rules (so is not a legacy full
    admin), holds only roles the actor may assign, and its permissions are
    included in the actor's. *)
Theorem Create_no_escalation actor inp s u s' :
  u_IsRoot actor = false →
  svc_Create repo actor inp s = (Ok u, s') →
  u_IsRoot u = false ∧ u_AccessRules u ≠ None ∧
  (∀ role, role ∈ u_Roles u → AllowsRole (PermissionsFor actor) role = true) ∧
  perm_le (PermissionsFor u) (PermissionsFor actor).
Proof.
  intros Hroot H. unfold svc_Create in H.
  rewrite nonroot_permissions, Hroot in H. cbn [negb andb] in H.
  svc_inv. apply repo_create_result in H as (Hu & Hr & Hroles).
  rename select (negb (uc_IsRoot inp) = true) into Hnr.
  rename select (AllowsRoles _ _ = true) into Hall.
  rename select (CanAssignAccessRules _ _ = true) into Hcan.
  apply negb_true_iff in Hnr. rewrite Hnr in Hu. rewrite Hopt in Hr.
  unfold AllowsRoles in Hall. rewrite forallb_true_iff in Hall.
  split; [done|]. split; [by rewrite Hr|]. split.
  - intros role. rewrite Hroles. destruct (uc_Roles inp); [done|]. auto.
  - eapply assign_le; eauto. by rewrite nonroot_permissions.
Qed.

(** Who may be edited or deleted by a non-root actor. *)
Lemma authorize_nonroot actor target :
  u_IsRoot actor = false → authorizeUserMutation actor target = None →
  u_IsRoot target = false ∧ u_ID actor ≠ u_ID target ∧
  p_ManageUsers (PermissionsFor actor) = true ∧
  SupersetOf (PermissionsFor actor) (PermissionsFor target) = true.
Proof.
  intros Hr. unfold authorizeUserMutation.
  rewrite nonroot_permissions, Hr. cbn [negb]. rewrite !andb_true_r.
  destruct (u_IsRoot target); [done|]. case_bool_decide; [done|].
  destruct (p_ManageUsers _); [|done]. cbn [negb]. rewrite andb_true_r.
  by destruct (SupersetOf _ _).
Qed.

(** C2. Editing a user never escalates, provided the user has access rules
    before the edit or gets them by it: the user stays non-root, its
    permissions afterwards are included in those of the non-root actor, and
    any role it gains is one the actor may assign. *)
Theorem Update_no_escalation actor id inp s old s0 u s' :
  u_IsRoot actor = false →
  repo_GetByID repo id s = (Ok old, s0) →
  u_AccessRules old ≠ None ∨ uu_SetRules inp = true →
  svc_Update repo actor id inp s = (Ok u, s') →
  u_IsRoot u = false ∧
  perm_le (PermissionsFor u) (PermissionsFor actor) ∧
  (∀ role, role ∈ u_Roles u →
     role ∈ u_Roles old ∨ AllowsRole (PermissionsFor actor) role = true).
Proof.
  intros Hroot Hold Hrules H. unfold svc_Update in H.
  pose proof (repo_get_pure _ _ _ _ Hold) as ->.
  apply bind_ok in H as [(t & s1 & Ht & H)|(? & _ & [=])].
  rewrite Hold in Ht. injection Ht as <- <-.
  apply bind_ok in H as [([] & s1 & Hc & H)|(? & _ & [=])].
  apply check_ok in Hc as [Hauth ->].
  destruct (authorize_nonroot _ _ Hroot Hauth) as (Hnr & _ & _ & Hsup).
  apply bind_ok in H as [([] & s1 & Hsr & H)|(? & _ & [=])].
  assert (s1 = s ∧ (uu_SetRoles inp = true → ∀ r, r ∈ uu_Roles inp →
            AllowsRole (PermissionsFor actor) r = true)) as [-> Hroles].
  { clear -Hsr. destruct (uu_SetRoles inp).
    - svc_inv. split; [done|]. intros _ r Hr. rename select (AllowsRoles _ _ = true) into Hall.
      unfold AllowsRoles in Hall. rewrite forallb_true_iff in Hall. auto.
    - svc_inv. done. }
  apply bind_ok in H as [([] & s1 & Hru & H)|(? & _ & [=])].
  assert (s1 = s ∧ (uu_SetRules inp = true → ∃ rules, uu_AccessRules inp = Some rules ∧
            CanAssignAccessRules (PermissionsFor actor) (Some rules) = true)) as [-> Hset].
  { clear -Hru Hroot. destruct (uu_SetRules inp); [|by svc_inv].
    rewrite nonroot_permissions, Hroot in Hru.
    destruct (uu_AccessRules inp); svc_inv; eauto. }
  destruct (repo_update_result _ _ _ _ _ _ _ Hold H) as (Hid & Hr & Hrules' & Hroles').
  rewrite Hnr in Hr. split; [done|]. split.
  - destruct (uu_SetRules inp) eqn:Esr.
    + destruct (Hset eq_refl) as (rules & Hin & Hcan). rewrite Hin in Hrules'.
      eapply assign_le; eauto. by rewrite nonroot_permissions.
    + destruct Hrules as [Hsome|[=]].
      destruct (u_AccessRules old) as [rules|] eqn:Eold; [|done].
      rewrite (permissions_same_rules u old rules) by congruence.
      apply superset_le; rewrite ?nonroot_permissions; auto.
      by eapply rules_permissions.
  - intros role. rewrite Hroles'. destruct (uu_SetRoles inp); auto.
Qed.

(** Without that proviso an edit does escalate: the only guard on the
    roles of a user who has no access rules is [AllowsRole], so any non-root
    manager who may assign the admin role and is a superset of such a user
    can turn it into a legacy full admin, which reaches every cluster. *)
Theorem SetRoles_mints_legacy_admin actor id s old s0 u s' :
  u_IsRoot actor = false →
  repo_GetByID repo id s = (Ok old, s0) →
  u_AccessRules old = None →
  svc_SetRoles repo actor id [RoleAdmin] s = (Ok u, s') →
  isLegacyFullAdmin u = true ∧
  ∀ c, AllowsCluster (PermissionsFor u) c = true.
Proof.
  intros Hroot Hold Hnone H. unfold svc_SetRoles, svc_Update in H.
  cbn [uu_SetRoles uu_SetRules uu_Roles uu_AccessRules] in H.
  pose proof (repo_get_pure _ _ _ _ Hold) as ->. svc_inv.
  match goal with H1 : repo_GetByID _ _ _ = (Ok ?x, _) |- _ =>
    rewrite Hold in H1; injection H1 as <- <- end.
  match goal with H1 : repo_UpdateUser _ _ _ _ = _ |- _ =>
    destruct (repo_update_result _ _ _ _ _ _ _ Hold H1) as (_ & Hr & Hru & Hro) end.
  cbn in Hru, Hro. rewrite Hnone in Hru.
  assert (Hadm : HasRole (u_Roles u) RoleAdmin = true).
  { apply bool_decide_eq_true. apply Hro. left. }
  split.
  - unfold isLegacyFullAdmin. by rewrite HighestRole_admin, Hadm, Hru.
  - intros c. unfold PermissionsFor. rewrite Hru, Hadm. by destruct (u_IsRoot u).
Qed.
End NoEscalation.

(** * The database implements the interface *)

Section StoreInstance.
Context (bcrypt : string → option string).

(** One request: [id] and [now] are what newID() and time.Now() return. *)
Definition store_repo (id : string) (now : Z) : UserRepo Tables := {|
  repo_List := ListUsers;
  repo_GetByID := GetUserByID;
  repo_CreateUser := CreateUser bcrypt id now;
  repo_UpdateUser := UpdateUser bcrypt;
  repo_DeleteUser := DeleteUser;
|}.

Lemma GetUserByID_spec id t r t' :
  GetUserByID id t = (r, t') →
  t' = t ∧ (∀ u, r = Ok u → ∃ row, t_users t !! id = Some row ∧ u = user_of_row t id row).
Proof.
  unfold GetUserByID, bind, online, get. destruct (t_up t).
  - destruct (t_users t !! id) as [row|]; cbn; intros [= <- <-]; split; try done.
    intros u [= <-]. eauto.
  - intros [= <- <-]. split; [done|]. by intros u [=].
Qed.

Lemma transaction_ok {A} (m : DBM A) t a t' :
  transaction m t = (Ok a, t') → m t = (Ok a, t').
Proof. unfold transaction. destruct (m t) as [[|]]; congruence. Qed.

Lemma online_ok t a t' : online t = (Ok a, t') → t' = t.
Proof. unfold online. destruct (t_up t); congruence. Qed.

Lemma insert_roles_users userID roles t r t' :
  insert_roles userID roles t = (r, t') → t_users t' = t_users t ∧ t_grants t' = t_grants t.
Proof.
  revert t. induction roles as [|role roles IH]; intros t; cbn.
  - by intros [= _ <-].
  - unfold bind, ensure, get, modify, fail, ret.
    repeat case_match; intros; simplify_eq; try done.
    match goal with H : insert_roles _ _ _ = _ |- _ => apply IH in H as [-> ->] end. done.
Qed.

Lemma insert_roles_ok userID roles t a t' :
  insert_roles userID roles t = (Ok a, t') →
  default ∅ (t_user_roles t' !! userID) =
    list_to_set roles ∪ default ∅ (t_user_roles t !! userID) ∧
  (∀ id, id ≠ userID → t_user_roles t' !! id = t_user_roles t !! id) ∧
  Forall (λ r, known_role r = true) roles ∧ NoDup roles ∧
  (∀ r, r ∈ roles → r ∉ default ∅ (t_user_roles t !! userID)).
Proof.
  revert t. induction roles as [|role roles IH]; intros t; cbn.
  - intros [= _ <-]. repeat split; try set_solver. constructor.
  - intros H. m_inv.
    repeat match goal with H : modify _ _ = _ |- _ => injection H as ? ?; subst end.
    apply IH in H as (H1 & H2 & H3 & H4 & H5). cbn in *.
    rename select (negb _ = true) into Hnew. go_bool.
    rewrite lookup_insert_eq in H1, H5. cbn in H1, H5. repeat split.
    + rewrite H1. set_solver.
    + intros id Hid. rewrite H2 by done. by apply lookup_insert_ne.
    + by constructor.
    + constructor; [|done]. intros Hin%H5. set_solver.
    + intros r [->|Hr]%elem_of_cons; [done|]. specialize (H5 _ Hr). set_solver.
Qed.

Lemma roles_of_elem t id r :
  r ∈ roles_of t id ↔ r ∈ default ∅ (t_user_roles t !! id).
Proof. unfold roles_of. by rewrite SortStrings_perm, elem_of_elements. Qed.

Lemma setUserRolesTx_ok userID roles t a t' :
  setUserRolesTx userID roles t = (Ok a, t') →
  t_users t' = t_users t ∧ t_grants t' = t_grants t ∧
  (∀ r, r ∈ roles_of t' userID ↔ r ∈ roles) ∧
  (∀ id, id ≠ userID → t_user_roles t' !! id = t_user_roles t !! id).
Proof.
  unfold setUserRolesTx. intros H. m_inv.
  rename select (modify _ _ = _) into Hm. injection Hm as ? ?; subst.
  pose proof (insert_roles_users _ _ _ _ _ H) as [Hu Hg].
  apply insert_roles_ok in H as (H1 & H2 & _). cbn in *.
  rewrite lookup_delete_eq in H1. split; [done|]. split; [done|]. split.
  - intros r. rewrite roles_of_elem, H1. set_solver.
  - intros id Hid. rewrite H2 by done. by apply lookup_delete_ne.
Qed.
(** The updates of a row that are not about rules or the root bit. *)
Lemma update_email_password_ok id inp t a t' row :
  t_users t !! id = Some row →
  update_email_password bcrypt id inp t = (Ok a, t') →
  t_user_roles t' = t_user_roles t ∧
  ∃ row', t_users t' !! id = Some row' ∧ row_IsRoot row' = row_IsRoot row ∧
          row_AccessRules row' = row_AccessRules row.
Proof.
  intros Hrow. unfold update_email_password, update_row.
  destruct (uu_Email inp), (uu_Password inp); intros H; m_inv;
    try (unfold generate_hash in *; m_inv);
    repeat match goal with H : modify _ _ = _ |- _ => injection H as ? ?; subst end;
    cbn; (split; [done|]);
    try (rewrite lookup_alter_eq, Hrow; cbn); eauto.
Qed.

Lemma UpdateUser_ok id inp t row u t' :
  t_users t !! id = Some row →
  UpdateUser bcrypt id inp t = (Ok u, t') →
  u_ID u = id ∧ u_IsRoot u = row_IsRoot row ∧
  u_AccessRules u = (if uu_SetRules inp then uu_AccessRules inp else row_AccessRules row) ∧
  (∀ r, r ∈ u_Roles u ↔ r ∈ if uu_SetRoles inp then uu_Roles inp else roles_of t id).
Proof.
  intros Hrow H. unfold UpdateUser in H.
  apply bind_ok in H as [([] & t3 & Htx & Hget)|(? & _ & [=])].
  apply transaction_ok in Htx.
  apply bind_ok in Htx as [([] & t0 & Hon & H)|(? & _ & [=])].
  apply online_ok in Hon as ->.
  apply bind_ok in H as [([] & t1 & H1 & H)|(? & _ & [=])].
  destruct (update_email_password_ok _ _ _ _ _ _ Hrow H1) as (Hur1 & row1 & Hrow1 & Hr1 & Ha1).
  apply bind_ok in H as [([] & t2 & H2 & H)|(? & _ & [=])].
  assert (t_user_roles t2 = t_user_roles t ∧ ∃ row2, t_users t2 !! id = Some row2 ∧
    row_IsRoot row2 = row_IsRoot row ∧ row_AccessRules row2 =
      if uu_SetRules inp then uu_AccessRules inp else row_AccessRules row)
    as (Hur2 & row2 & Hrow2 & Hr2 & Ha2).
  { destruct (uu_SetRules inp); injection H2 as <-; [|by eauto 6].
    cbn. split; [done|]. rewrite lookup_alter_eq, Hrow1. cbn. eauto. }
  assert (t_users t3 = t_users t2 ∧ ∀ r, r ∈ roles_of t3 id ↔
    r ∈ if uu_SetRoles inp then uu_Roles inp else roles_of t id) as (Hu3 & Hro3).
  { destruct (uu_SetRoles inp).
    - apply setUserRolesTx_ok in H as (? & _ & ? & _). done.
    - injection H as <-. split; [done|]. intros r. unfold roles_of. by rewrite Hur2. }
  apply GetUserByID_spec in Hget as [-> Hget].
  destruct (Hget _ eq_refl) as (row3 & Hrow3 & ->). rewrite Hu3, Hrow2 in Hrow3.
  injection Hrow3 as <-. cbn. by rewrite Hr2, Ha2.
Qed.

Lemma CreateUser_ok id now inp t u t' :
  CreateUser bcrypt id now inp t = (Ok u, t') →
  u_IsRoot u = uc_IsRoot inp ∧ u_AccessRules u = uc_AccessRules inp ∧
  u_Roles u = match uc_Roles inp with [] => [RoleViewer] | rs => rs end.
Proof.
  unfold CreateUser. intros H. m_inv.
  match goal with H : transaction _ _ = _ |- _ => apply transaction_ok in H end.
  m_inv. done.
Qed.

#[export] Instance store_repository id now : UserRepository (store_repo id now).
Proof.
  split; cbn.
  - intros t i r t' H. by apply GetUserByID_spec in H as [].
  - intros t i u t' H. apply GetUserByID_spec in H as [_ H].
    by destruct (H u eq_refl) as (row & _ & ->).
  - intros t inp u t' H. by eapply CreateUser_ok.
  - intros t i inp old u t' t0 Hold H. apply GetUserByID_spec in Hold as [-> Hold].
    destruct (Hold old eq_refl) as (row & Hrow & ->).
    exact (UpdateUser_ok _ _ _ _ _ _ Hrow H).
Qed.
End StoreInstance.

(** ** Sample store and witnesses *)

Definition sample_bcrypt (p : string) : option string := Some ("bcrypt:" +:+ p).

Definition sample_row (name : string) (root : bool) (rules : option AccessRules) : UserRow := {|
  row_Username := name; row_Email := name +:+ "@local"; row_PasswordHash := "";
  row_OIDCSub := ""; row_IsRoot := root; row_AccessRules := rules; row_CreatedAt := 0 |}.

Definition manager_rules : AccessRules := {|
  ar_ClusterIDs := ["c1"]; ar_AssignableRoles := [RoleAdmin; RoleOperator; RoleViewer];
  ar_ManageUsers := true; ar_ViewAudit := true; ar_DeleteClusters := true |}.

Definition viewer_rules : AccessRules := {|
  ar_ClusterIDs := ["c1"]; ar_AssignableRoles := [RoleViewer];
  ar_ManageUsers := false; ar_ViewAudit := false; ar_DeleteClusters := false |}.

(** A scoped manager, a viewer with rules, and a demoted admin: a user that
    root created without rules and made a viewer afterwards. *)
Definition sample_tables : Tables :=
  mkTables true
    (<["m" := sample_row "manager" false (Some manager_rules)]>
      (<["v" := sample_row "viewer" false (Some viewer_rules)]>
        {["d" := sample_row "demoted" false None]}))
    (<["m" := {[RoleOperator]}]> (<["v" := {[RoleViewer]}]> {["d" := {[RoleViewer]}]}))
    ∅ ∅ ∅ ∅ ∅.

Definition manager : User :=
  user_of_row sample_tables "m" (sample_row "manager" false (Some manager_rules)).

Definition viewer : User :=
  user_of_row sample_tables "v" (sample_row "viewer" false (Some viewer_rules)).
Definition demoted : User :=
  user_of_row sample_tables "d" (sample_row "demoted" false None).

Definition sample_repo : UserRepo Tables := store_repo sample_bcrypt "n" 0.

Definition sample_create : UserCreate := {|
  uc_AccessRules := Some viewer_rules; uc_Username := "new"; uc_Email := "new@local";
  uc_Password := "secret-password"; uc_OIDCSub := ""; uc_PasswordHash := "";
  uc_Roles := [RoleViewer]; uc_IsRoot := false |}.

Definition outcome {S A} (r : result err A * S) : result err A := r.1.

Lemma SupersetOf_spec_witness :
  SupersetOf (PermissionsFor manager)
    (PermissionsFor viewer)
  = true ↔
  perm_le
    (PermissionsFor viewer)
    (PermissionsFor manager).
Proof. apply SupersetOf_spec. reflexivity. Defined.

Lemma SupersetOf_blind_witness :
  SupersetOf (PermissionsFor manager)
    (PermissionsFor (sample_user false [RoleAdmin] None [])) = true ∧
  AllowsCluster (PermissionsFor (sample_user false [RoleAdmin] None [])) "c2" = true ∧
  AllowsCluster (PermissionsFor manager) "c2" = false.
Proof.
  apply (SupersetOf_blind_to_AllClusters manager _ manager_rules "c2");
    try reflexivity.
  intros H%list_elem_of_singleton. discriminate.
Defined.

Lemma Create_no_escalation_witness :
  ∃ u t', svc_Create sample_repo manager sample_create sample_tables = (Ok u, t') ∧
    perm_le (PermissionsFor u) (PermissionsFor manager).
Proof.
  destruct (svc_Create sample_repo manager sample_create sample_tables) as [r t'] eqn:E.
  assert (Hr : is_Ok r = true) by (change r with (r, t').1; rewrite <- E; vm_compute; reflexivity).
  destruct r as [u|e]; [|discriminate]. exists u, t'. split; [reflexivity|].
  eapply (Create_no_escalation sample_repo manager); [reflexivity|exact E].
Defined.

Definition promote_viewer : UserUpdate := {|
  uu_Email := None; uu_Password := None; uu_AccessRules := None;
  uu_Roles := [RoleOperator]; uu_SetRoles := true; uu_SetRules := false |}.

Lemma Update_no_escalation_witness :
  ∃ u t', svc_Update sample_repo manager "v" promote_viewer sample_tables = (Ok u, t') ∧
    perm_le (PermissionsFor u) (PermissionsFor manager).
Proof.
  destruct (svc_Update sample_repo manager "v" promote_viewer sample_tables) as [r t'] eqn:E.
  assert (Hr : is_Ok r = true) by (change r with (r, t').1; rewrite <- E; vm_compute; reflexivity).
  destruct r as [u|e]; [|discriminate]. exists u, t'. split; [reflexivity|].
  eapply (Update_no_escalation sample_repo manager "v" promote_viewer sample_tables
            viewer sample_tables);
    [reflexivity|vm_compute; reflexivity|left; discriminate|exact E].
Defined.

(** The manager of cluster c1 makes the demoted user an admin of everything. *)
Lemma SetRoles_mints_legacy_admin_witness :
  ∃ u t', svc_SetRoles sample_repo manager "d" [RoleAdmin] sample_tables = (Ok u, t') ∧
    AllowsCluster (PermissionsFor u) "c2" = true ∧
    AllowsCluster (PermissionsFor manager) "c2" = false.
Proof.
  destruct (svc_SetRoles sample_repo manager "d" [RoleAdmin] sample_tables) as [r t'] eqn:E.
  assert (Hr : is_Ok r = true) by (change r with (r, t').1; rewrite <- E; vm_compute; reflexivity).
  destruct r as [u|e]; [|discriminate]. exists u, t'. split; [reflexivity|].
  split; [|reflexivity].
  eapply (SetRoles_mints_legacy_admin sample_repo manager "d" sample_tables demoted
            sample_tables);
    [reflexivity|vm_compute; reflexivity|reflexivity|exact E].
Defined.
