(* ===== verification/Access.v ===== *)
(** The handlers of people and access: internal/api/users_handlers.go and
    access_handlers.go, over the user service, the tables and the
    authentication service.

    A handler takes the user of the request context, the parameters of the
    route and the decoded body ([None]: it does not decode), and is a computation
    on the state of the authentication service, which contains the tables. *)

From S2P Require Export Session UserService StoreFacts.
From Stdlib Require Import Ascii.
From S2P Require Import Rbac GoStrings.

(** * Validation: internal/api/apikit/validate.go *)

Definition ValidateUUID (id : string) : bool := uuidPattern id.

Definition ValidatePassword (password : string) : bool :=
  let password := TrimSpace password in
  negb (IsEmpty password) && negb (Nat.ltb (String.length password) minPasswordLen).

(** [strings.TrimSuffix] *)
Definition TrimSuffix (s suf : string) : string :=
  if HasSuffix s suf then String.substring 0 (String.length s - String.length suf) s else s.

(** * Requests and answers *)

Record CreateUserRequest := {
  cur_AccessRules : option AccessRules;
  cur_Username : string;
  cur_Email : string;
  cur_Password : string;
  cur_Roles : list string;
}.

(** [Roles] tells nil from empty; [AccessRules] is a byte slice, which JSON
    carries as base64. *)
Record UpdateUserRequest := {
  uur_Email : option string;
  uur_Password : option string;
  uur_Roles : option (list string);
  uur_AccessRules : string;
}.

Record InviteRequest := mkInvite {
  ivr_Username : string;
  ivr_Email : string;
  ivr_Roles : list string;
  ivr_ClusterIDs : list string;
}.

Record GrantRequest := mkGrantRequest { gr_UserID : string; gr_Role : string }.

Inductive data :=
  | NoData
  | OneUser (u : User) | Users (l : list User)
  | OneGrant (g : AccessGrant) | Grants (l : list AccessGrant)
  | Invited (u : User) (url : string) (expiresAt : Z)
  | InviteShown (username email : string) (expiresAt : Z).

Record answer := mkAnswer { an_Status : Z; an_Cookies : list Cookie; an_Data : data }.

Definition status (code : Z) : answer := mkAnswer code [] NoData.

(** The fields of the configuration. *)
Record AccessConfig := { ac_InviteTTL : Z; ac_PublicBaseURL : string }.

Section Handlers.
Context `{AuthLib} `{GoUnicode} (cfg : AuthConfig) (acc : AccessConfig).
(** The JSON decoder on the text of access rules. *)
Context (decode_rules : string → option AccessRules).

(** A service call, and the answer [WriteAPIError] gives to its errors. *)
Definition or_api_error {A} (m : AM A) (k : A → AM answer) : AM answer :=
  let! r := attempt m in
  match r with Ok a => k a | Err e => ret (status (api_status e)) end.

Definition as_actor (actor : option User) (k : User → AM answer) : AM answer :=
  match actor with None => ret (status 401) | Some u => k u end.

(** A method of the user service; [newID] and the clock are taken first. *)
Definition users_call {A} (f : UserRepo Tables → DBM A) : AM A :=
  let! id := draw_id in
  let! now := now_ in
  db (f (store_repo bcrypt_hash id now)).

(** * internal/api/users_handlers.go *)

Definition UsersList (actor : option User) : AM answer :=
  as_actor actor (λ actor,
  or_api_error (users_call (λ r, svc_List r actor)) (λ users,
  ret (mkAnswer 200 [] (Users users)))).

Definition UsersCreate (actor : option User) (body : option CreateUserRequest) : AM answer :=
  as_actor actor (λ actor,
  match body with
  | None => ret (status 400)
  | Some req =>
      if IsEmpty (cur_Username req) then ret (status 400)
      else if negb (ValidatePassword (cur_Password req)) then ret (status 400)
      else if Nat.eqb (length (cur_Roles req)) 0 then ret (status 400)
      else
        or_api_error (users_call (λ r, svc_Create r actor {|
          uc_AccessRules := cur_AccessRules req; uc_Username := cur_Username req;
          uc_Email := cur_Email req; uc_Password := cur_Password req; uc_OIDCSub := "";
          uc_PasswordHash := ""; uc_Roles := cur_Roles req; uc_IsRoot := false |})) (λ user,
        ret (mkAnswer 201 [] (OneUser user)))
  end).

(** The update of a request, [None] for an error of its own. *)
Definition update_of (req : UpdateUserRequest) : option UserUpdate :=
  if match uur_Password req with Some p => negb (ValidatePassword p) | None => false end then None
  else if match uur_Roles req with Some [] => true | _ => false end then None
  else
    let update rules set := {|
      uu_Email := uur_Email req; uu_Password := uur_Password req; uu_AccessRules := rules;
      uu_Roles := default [] (uur_Roles req);
      uu_SetRoles := match uur_Roles req with Some _ => true | None => false end;
      uu_SetRules := set |} in
    if IsEmpty (uur_AccessRules req) then Some (update None false)
    else if uur_AccessRules req =s "null" then Some (update None true)
    else match decode_rules (uur_AccessRules req) with
         | Some rules => Some (update (Some rules) true)
         | None => None
         end.

Definition UsersUpdate (actor : option User) (userID : string) (body : option UpdateUserRequest) :
    AM answer :=
  as_actor actor (λ actor,
  if negb (ValidateUUID userID) then ret (status 400)
  else match body with
  | None => ret (status 400)
  | Some req =>
      match update_of req with
      | None => ret (status 400)
      | Some update =>
          or_api_error (users_call (λ r, svc_Update r actor userID update)) (λ user,
          InvalidateUser userID ;;
          ret (mkAnswer 200 [] (OneUser user)))
      end
  end).

Definition UsersDelete (actor : option User) (userID : string) : AM answer :=
  as_actor actor (λ actor,
  if negb (ValidateUUID userID) then ret (status 400)
  else
    or_api_error (users_call (λ r, svc_Delete r actor userID)) (λ _,
    InvalidateUser userID ;;
    ret (status 204))).

Definition UsersSetRoles (actor : option User) (userID : string) (body : option (list string)) :
    AM answer :=
  as_actor actor (λ actor,
  match body with
  | None => ret (status 400)
  | Some roles =>
      if Nat.eqb (length roles) 0 then ret (status 400)
      else if negb (ValidateUUID userID) then ret (status 400)
      else
        or_api_error (users_call (λ r, svc_SetRoles r actor userID roles)) (λ user,
        InvalidateUser userID ;;
        ret (mkAnswer 200 [] (OneUser user)))
  end).

(** * internal/api/access_handlers.go *)

Definition canManage (actor : User) (resourceType resourceKey : string) : bool :=
  if resourceType =s ResourceSystem then CanManageSystemAccess actor resourceKey
  else if resourceType =s ResourceAccount then
    let '(clusterID, account, _) := Cut resourceKey ":"%char in
    CanManageAccountAccess actor clusterID account
  else CanManageUsers actor || u_IsRoot actor.

Definition listResourceAccess (actor : option User) (resourceType resourceKey : string) : AM answer :=
  as_actor actor (λ actor,
  if negb (canManage actor resourceType resourceKey) then ret (status 403)
  else
    or_api_error (db (ListAccessGrantsByResource resourceType resourceKey)) (λ grants,
    ret (mkAnswer 200 [] (Grants grants)))).

Definition upsertResourceAccess (actor : option User) (resourceType resourceKey : string)
    (systemOnly : bool) (body : option GrantRequest) : AM answer :=
  as_actor actor (λ actor,
  if negb (canManage actor resourceType resourceKey) then ret (status 403)
  else match body with
  | None => ret (status 400)
  | Some req =>
      if systemOnly && (gr_Role req =s GrantCredentialDownloader) then ret (status 400)
      else if (gr_Role req =s GrantAdmin) &&
              negb (CanMintAdminGrant actor resourceType resourceKey) then ret (status 403)
      else
        let! id := draw_id in
        let! r := attempt (db (UpsertAccessGrant id {|
          agu_UserID := gr_UserID req; agu_ResourceType := resourceType;
          agu_ResourceKey := resourceKey; agu_Role := gr_Role req |})) in
        match r with
        | Err _ => ret (status 400)
        | Ok grant =>
            InvalidateUser (gr_UserID req) ;;
            ret (mkAnswer 200 [] (OneGrant grant))
        end
  end).

(** The answer to an error of a deletion. *)
Definition delete_status (e : err) : Z := if bool_decide (e = ErrNotFound) then 404 else api_status e.

Definition deleteResourceAccess (actor : option User) (resourceType resourceKey : string)
    (grantID userID : string) : AM answer :=
  as_actor actor (λ actor,
  if negb (canManage actor resourceType resourceKey) then ret (status 403)
  else if negb (IsEmpty grantID) then
    let! r := attempt (db (DeleteAccessGrantScoped grantID resourceType resourceKey)) in
    match r with
    | Err e => ret (status (delete_status e))
    | Ok deletedUserID => InvalidateUser deletedUserID ;; ret (status 204)
    end
  else if IsEmpty userID then ret (status 400)
  else
    let! r := attempt (db (DeleteAccessGrantByResource userID resourceType resourceKey)) in
    match r with
    | Err e => ret (status (delete_status e))
    | Ok _ => InvalidateUser userID ;; ret (status 204)
    end).

(** The account of the route, "Default" when it is empty. *)
Definition route_account (account : string) : string :=
  if IsEmpty account then "Default" else account.
Definition with_account (clusterID account : string) (k : string → AM answer) : AM answer :=
  let account := route_account account in
  match ValidateAccountName account with
  | Some _ => ret (status 400)
  | None => k (AccountResourceKey (ToLower clusterID) account)
  end.

Definition ListSystemAccess (actor : option User) (clusterID : string) : AM answer :=
  listResourceAccess actor ResourceSystem (ToLower clusterID).
Definition UpsertSystemAccess (actor : option User) (clusterID : string)
    (body : option GrantRequest) : AM answer :=
  upsertResourceAccess actor ResourceSystem (ToLower clusterID) true body.
Definition DeleteSystemAccess (actor : option User) (clusterID grantID userID : string) : AM answer :=
  deleteResourceAccess actor ResourceSystem (ToLower clusterID) grantID userID.
Definition ListAccountAccess (actor : option User) (clusterID account : string) : AM answer :=
  with_account clusterID account (λ key, listResourceAccess actor ResourceAccount key).
Definition UpsertAccountAccess (actor : option User) (clusterID account : string)
    (body : option GrantRequest) : AM answer :=
  with_account clusterID account (λ key, upsertResourceAccess actor ResourceAccount key false body).
Definition DeleteAccountAccess (actor : option User) (clusterID account grantID userID : string) :
    AM answer :=
  with_account clusterID account (λ key, deleteResourceAccess actor ResourceAccount key grantID userID).

(** ** Invitations *)

Definition invite_rules (clusterIDs : list string) : AccessRules := {|
  ar_ClusterIDs := clusterIDs; ar_AssignableRoles := [RoleViewer];
  ar_ManageUsers := false; ar_ViewAudit := false; ar_DeleteClusters := false |}.

(** The clusters of the request, or those of the actor. *)
Definition invite_clusters (actor : User) (req : InviteRequest) : list string :=
  match ivr_ClusterIDs req with
  | [] => match u_AccessRules actor with Some rules => ar_ClusterIDs rules | None => [] end
  | ids => ids
  end.

Definition InvitePerson (actor : option User) (body : option InviteRequest) : AM answer :=
  as_actor actor (λ actor,
  if negb (CanManageUsers actor) then ret (status 403)
  else match body with
  | None => ret (status 400)
  | Some req =>
      let username := TrimSpace (ivr_Username req) in
      if IsEmpty username then ret (status 400)
      else
        let roles := match ivr_Roles req with [] => [RoleViewer] | roles => roles end in
        let email := if IsEmpty (ivr_Email req) then username +:+ "@local" else ivr_Email req in
        match invite_clusters actor req with
        | [] => ret (status 400)
        | clusterIDs =>
            or_api_error (users_call (λ r, svc_Create r actor {|
              uc_AccessRules := Some (invite_rules clusterIDs); uc_Username := username;
              uc_Email := email; uc_Password := ""; uc_OIDCSub := ""; uc_PasswordHash := "";
              uc_Roles := roles; uc_IsRoot := false |})) (λ user,
            or_api_error (
              let! token := draw_token in
              let! now := now_ in
              db (CreateUserInvite token now (u_ID user) (ac_InviteTTL acc))) (λ invite,
            ret (mkAnswer 201 [] (Invited user
              (TrimSuffix (ac_PublicBaseURL acc) "/" +:+ "/invite/" +:+ inv_Token invite)
              (inv_ExpiresAt invite)))))
        end
  end).

(** The select of an invite joins its user. *)
Definition GetInvite (token : string) : AM answer :=
  let! r := attempt (db (
    let! invite := GetUserInvite token in
    let! t := get in
    ret (invite, t_users t !! inv_UserID invite))) in
  match r with
  | Err _ | Ok (_, None) => ret (status 404)
  | Ok (invite, Some row) =>
      let! now := now_ in
      if match inv_AcceptedAt invite with Some _ => true | None => false end ||
         (inv_ExpiresAt invite <? now)%Z
      then ret (status 410)
      else ret (mkAnswer 200 [] (InviteShown (row_Username row) (row_Email row) (inv_ExpiresAt invite)))
  end.

(** [body]: token and password. *)
Definition AcceptInvite (body : option (string * string)) (fph : string) : AM answer :=
  match body with
  | None => ret (status 400)
  | Some (token, password) =>
      if IsEmpty token || IsEmpty password then ret (status 400)
      else
        let! now := now_ in
        let! r := attempt (db (AcceptUserInvite bcrypt_hash now now token password)) in
        match r with
        | Err ErrNotFound => ret (status 404)
        | Err ErrConflict => ret (status 409)
        | Err _ => ret (status 400)
        | Ok user =>
            InvalidateUser (u_ID user) ;;
            or_api_error (CreateSession cfg user fph) (λ session,
            or_api_error (IssueRefresh cfg (u_ID user) fph) (λ issued,
            or_api_error draw_token (λ csrf,
            ret (mkAnswer 200 (issueSessionCookies cfg session issued.1 csrf) (OneUser user)))))
        end
  end.
End Handlers.
