(* ===== verification/AccessFacts.v ===== *)
(** What the handlers of people and access promise: granting access and inviting
    people give nobody more than the actor has, with the one gap found; an
    invitation is used once. *)

From Stdlib Require Import Ascii.
From S2P Require Export Access.
From S2P Require Import CredentialFacts GoStrings.

(** * One more grant

    [grows P old new]: a decision that has become true has a reason [P]. *)

Definition grows (P : Prop) (old new : bool) : Prop := new = true → old = true ∨ P.

Lemma grows_same P b : grows P b b.
Proof. by left. Qed.
Lemma grows_weaken (P Q : Prop) a b : grows P a b → (P → Q) → grows Q a b.
Proof. unfold grows. tauto. Qed.
Lemma grows_or_else P a a' b b' : grows P a a' → grows P b b' →
  grows P (if a then true else b) (if a' then true else b').
Proof. unfold grows. destruct a, a', b, b'; intuition congruence. Qed.
Lemma grows_and P a a' b b' : grows P a a' → grows P b b' → grows P (a && b) (a' && b').
Proof. unfold grows. destruct a, a', b, b'; intuition congruence. Qed.

Section OneGrant.
Context (user : User) (g : AccessGrant).
Abbreviation user' := (with_grants (g :: u_Grants user) user).

(** The grant is on this resource; as administrator. *)
Definition gives (t k : string) : Prop := g_ResourceType g = t ∧ g_ResourceKey g = k.
Definition gives_admin (t k : string) : Prop := gives t k ∧ g_Role g = GrantAdmin.

Lemma grows_existsb f : grows (f g = true) (existsb f (u_Grants user)) (existsb f (u_Grants user')).
Proof. unfold grows. cbn. rewrite orb_true_iff. tauto. Qed.
Lemma grows_admin t k : grows (gives_admin t k) (hasAdminGrant user t k) (hasAdminGrant user' t k).
Proof.
  eapply grows_weaken; [apply grows_existsb|]. cbv beta. intros H. go_bool. by repeat split.
Qed.
Lemma grows_any t k :
  grows (gives t k) (hasAdminOrObserverGrant user t k) (hasAdminOrObserverGrant user' t k).
Proof. eapply grows_weaken; [apply grows_existsb|]. cbv beta. intros H. go_bool. by split. Qed.

Lemma grows_access c :
  grows (gives ResourceSystem c) (CanAccessCluster user c) (CanAccessCluster user' c).
Proof. apply grows_or_else; [apply grows_same|apply grows_any]. Qed.
Lemma grows_write c :
  grows (gives_admin ResourceSystem c) (CanWriteCluster user c) (CanWriteCluster user' c).
Proof.
  apply grows_or_else; [apply grows_same|]. apply grows_or_else; [apply grows_admin|apply grows_same].
Qed.
Lemma grows_jetstream c :
  grows (gives_admin ResourceSystem c) (CanManageJetStream user c) (CanManageJetStream user' c).
Proof.
  apply grows_or_else; [apply grows_same|]. apply grows_or_else; [apply grows_admin|apply grows_same].
Qed.
Lemma grows_system c :
  grows (gives ResourceSystem c) (CanManageSystemAccess user c) (CanManageSystemAccess user' c).
Proof.
  apply grows_or_else; [apply grows_same|]. apply grows_or_else.
  - eapply grows_weaken; [apply grows_admin|]. by intros [? _].
  - apply grows_and; [apply grows_same|apply grows_access].
Qed.

(** Every right, and the grant that gives it. *)
Definition reason (act : Action) (res : Resource) : Prop :=
  let c := r_ClusterID res in
  let key := AccountResourceKey c (r_Account res) in
  match act with
  | ActionAccessCluster | ActionManageSystemAccess => gives ResourceSystem c
  | ActionAccessClusterOrAccount => gives ResourceSystem c ∨ grantTouchesCluster c g = true
  | ActionAccessAccount => gives ResourceSystem c ∨ grantCoversAccount c (r_Account res) g = true
  | ActionWriteCluster | ActionManageJetStream => gives_admin ResourceSystem c
  | ActionManageJetStreamAccount => gives_admin ResourceSystem c ∨ gives_admin ResourceAccount key
  | ActionManageAccountAccess => gives ResourceSystem c ∨ gives_admin ResourceAccount key
  | ActionDownloadCreds => gives_admin ResourceSystem c ∨ grantAllowsCreds key
      (if negb (IsEmpty (r_NATSUserID res))
       then NATSUserResourceKey c (r_Account res) (r_NATSUserID res) else "") g = true
  | ActionMintAdminGrant => gives_admin (r_Type res) (r_Key res)
  | _ => False
  end.

Lemma Can_grows act res : grows (reason act res) (Can user act res) (Can user' act res).
Proof.
  destruct act; cbn [Can reason]; try apply grows_same;
    try apply grows_access; try apply grows_write; try apply grows_jetstream; try apply grows_system.
  all: repeat (apply grows_or_else; [apply grows_same|]).
  - apply grows_or_else; eapply grows_weaken; [apply grows_access|auto|apply grows_existsb|auto].
  - apply grows_or_else; eapply grows_weaken; [apply grows_access|auto|apply grows_existsb|auto].
  - apply grows_or_else; eapply grows_weaken; [apply grows_jetstream|auto|apply grows_admin|auto].
  - apply grows_or_else; [eapply grows_weaken; [apply grows_admin|auto]|].
    apply grows_or_else; [eapply grows_weaken; [apply grows_existsb|auto]|apply grows_same].
  - apply grows_or_else; eapply grows_weaken; [apply grows_system|auto|apply grows_admin|auto].
  - apply grows_admin.
Qed.
End OneGrant.

(** * What the actor has *)

Lemma legacy_admin_rights user c : u_IsRoot user || isLegacyFullAdmin user = true →
  CanManageJetStream user c = true.
Proof.
  unfold CanManageJetStream. destruct (u_IsRoot user) eqn:Er; [done|]. cbn.
  intros Hl. unfold allowsClusterRules. rewrite Er, Hl. cbn.
  unfold isLegacyFullAdmin in Hl. apply andb_true_iff in Hl as [-> _]. by destruct (hasAdminGrant _ _ _).
Qed.

(** Who may mint an administrator of a cluster, or of an account, has its rights. *)
Lemma mint_system user c : CanMintAdminGrant user ResourceSystem c = true →
  CanManageJetStream user c = true ∧ ∀ a u, CanDownloadCreds user c a u = true.
Proof.
  unfold CanMintAdminGrant. destruct (u_IsRoot user || isLegacyFullAdmin user) eqn:E.
  - intros _. pose proof (legacy_admin_rights user c E) as Hj. split; [done|]. intros a u.
    unfold CanManageJetStream in Hj. unfold CanDownloadCreds. cbv zeta.
    destruct (u_IsRoot user); [done|]. destruct (hasAdminGrant _ _ _); [done|].
    rewrite Hj. by destruct (existsb _ _).
  - intros Ha. unfold CanManageJetStream, CanDownloadCreds. rewrite Ha. by destruct (u_IsRoot user).
Qed.
Lemma mint_account user c a : CanMintAdminGrant user ResourceAccount (AccountResourceKey c a) = true →
  CanManageJetStreamAccount user c a = true ∧ ∀ u, CanDownloadCreds user c a u = true.
Proof.
  unfold CanMintAdminGrant. destruct (u_IsRoot user || isLegacyFullAdmin user) eqn:E.
  - intros _. pose proof (legacy_admin_rights user c E) as Hj. unfold CanManageJetStreamAccount.
    rewrite Hj. split; [done|]. intros u.
    apply (mint_system user c). unfold CanMintAdminGrant. by rewrite E.
  - intros Ha. unfold CanManageJetStreamAccount. rewrite Ha.
    split; [by destruct (CanManageJetStream user c)|]. intros u.
    unfold CanDownloadCreds. destruct (u_IsRoot user); [done|]. destruct (hasAdminGrant user _ c); [done|].
    cbv zeta. replace (existsb _ _) with true; [done|]. symmetry.
    apply hasAdminGrant_elem in Ha as (g & Hg & Ht & Hk & Hr).
    apply existsb_true_iff. exists g. split; [done|]. unfold grantAllowsCreds.
    rewrite Ht, Hk, Hr. rewrite (bool_decide_true (GrantAdmin = GrantAdmin)) by done. cbn [orb negb]. by rewrite !bool_decide_true.
Qed.

Definition proper (res : Resource) : Prop := colon_free (r_ClusterID res) ∧ colon_free (r_Account res).

(** A grant the handlers let the actor give: on a cluster, or on an account. *)
Inductive may_give (actor : User) (g : AccessGrant) : Prop :=
  | on_cluster c :
      gives g ResourceSystem c → CanManageSystemAccess actor c = true →
      (g_Role g = GrantAdmin → CanMintAdminGrant actor ResourceSystem c = true) →
      may_give actor g
  | on_one_account c a :
      gives g ResourceAccount (AccountResourceKey c a) → colon_free c → colon_free a →
      CanManageAccountAccess actor c a = true →
      (g_Role g = GrantAdmin →
       CanMintAdminGrant actor ResourceAccount (AccountResourceKey c a) = true) →
      may_give actor g.

(** Managing the access of a cluster goes with reaching all of it. *)
Lemma system_reach user c a : CanManageSystemAccess user c = true →
  CanAccessCluster user c = true ∧ CanAccessClusterOrAccount user c = true ∧
  CanAccessAccount user c a = true ∧ CanManageAccountAccess user c a = true.
Proof.
  intros Hs. pose proof (CanManageSystemAccess_access _ _ Hs) as Hc.
  unfold CanAccessClusterOrAccount, CanAccessAccount, CanManageAccountAccess. by rewrite Hc, Hs.
Qed.

Lemma key_of_cluster c a c' : colon_free c → colon_free c' →
  AccountResourceKey c a = c' ∨ HasPrefix (AccountResourceKey c a) (c' +:+ ":") = true → c' = c.
Proof.
  intros Hc Hc' [<-|Hp].
  - exfalso. revert Hc'. unfold colon_free, AccountResourceKey.
    rewrite ContainsByte_app, orb_false_iff. by intros [_ Hf].
  - apply HasPrefix_spec in Hp as [rest E]. rewrite app_assoc in E.
    by apply colon_key_inj in E as [-> _].
Qed.

(** On a cluster: the actor has what the grant gives. *)
Lemma cluster_grant_rights actor g c act res :
  gives g ResourceSystem c → CanManageSystemAccess actor c = true →
  (g_Role g = GrantAdmin → CanMintAdminGrant actor ResourceSystem c = true) →
  reason g act res → Can actor act res = true.
Proof.
  intros [Et Ek] Hs Hmint Hr.
  assert (∀ t k, gives g t k → t = ResourceSystem ∧ k = c) as Hg
    by (intros t k [<- <-]; auto).
  assert (∀ c', gives_admin g ResourceSystem c' → c' = c ∧
    CanManageJetStream actor c = true ∧ ∀ a u, CanDownloadCreds actor c a u = true) as Ha.
  { intros c' [[_ ->]%Hg Hrole]. split; [done|]. by apply mint_system, Hmint. }
  destruct (system_reach actor c (r_Account res) Hs) as (R1 & R2 & R3 & R4).
  destruct act; cbn in Hr |- *; try done.
  - by apply Hg in Hr as [_ ->].
  - destruct Hr as [[_ ->]%Hg|Ht]; [done|]. unfold grantTouchesCluster in Ht. by rewrite Et in Ht.
  - destruct Hr as [[_ ->]%Hg|Ht]; [done|]. unfold grantCoversAccount in Ht. by rewrite Et in Ht.
  - apply Ha in Hr as (-> & Hj & _). by apply CanManageJetStream_write.
  - by apply Ha in Hr as (-> & Hj & _).
  - destruct Hr as [(-> & Hj & _)%Ha|[[? _]%Hg _]]; [|done].
    unfold CanManageJetStreamAccount. by rewrite Hj.
  - destruct Hr as [(-> & _ & Hd)%Ha|Ht]; [done|]. unfold grantAllowsCreds in Ht.
    rewrite Et in Ht. by destruct (negb _).
  - by apply Hg in Hr as [_ ->].
  - destruct Hr as [[_ ->]%Hg|[[? _]%Hg _]]; [done|done].
  - destruct Hr as [[-> ->]%Hg Hrole]. by apply Hmint.
Qed.

(** On an account: the same, but for the credentials. *)
Lemma account_grant_rights actor g c a act res :
  gives g ResourceAccount (AccountResourceKey c a) → colon_free c → colon_free a → proper res →
  CanManageAccountAccess actor c a = true →
  (g_Role g = GrantAdmin →
   CanMintAdminGrant actor ResourceAccount (AccountResourceKey c a) = true) →
  reason g act res →
  Can actor act res = true ∨ (act = ActionDownloadCreds ∧ g_Role g = GrantCredentialDownloader).
Proof.
  intros [Et Ek] Hc Ha [Hrc Hra] Hs Hmint Hr.
  assert (∀ t k, gives g t k → t = ResourceAccount ∧ k = AccountResourceKey c a) as Hg
    by (intros t k [<- <-]; auto).
  assert (∀ k, ¬ gives_admin g ResourceSystem k) as Hno by (by intros k [[? _]%Hg _]).
  assert (CanAccessAccount actor c a = true) as Hacc.
  { revert Hs. unfold CanManageAccountAccess. go_if; eauto with authz. }
  assert (∀ c' a', colon_free c' → colon_free a' →
    gives_admin g ResourceAccount (AccountResourceKey c' a') → c' = c ∧ a' = a ∧
    CanManageJetStreamAccount actor c a = true ∧ ∀ u, CanDownloadCreds actor c a u = true) as Had.
  { intros c' a' Hc' Ha' [[_ E]%Hg Hrole]. apply AccountResourceKey_inj in E as [-> ->]; [|done..].
    split; [done|]. split; [done|]. by apply mint_account, Hmint. }
  destruct act; cbn in Hr |- *; try done.
  - by apply Hg in Hr as [? _].
  - left. destruct Hr as [[? _]%Hg|Ht]; [done|]. unfold grantTouchesCluster in Ht.
    apply andb_true_iff in Ht as [_ Ht%orb_true_iff]. rewrite bool_decide_eq_true, Ek in Ht.
    apply key_of_cluster in Ht as ->; [|done..]. by eapply CanAccessAccount_touches.
  - left. destruct Hr as [[? _]%Hg|[Ht|Ht]%grantCoversAccount_iff]; [done|..].
    + destruct Ht as [_ E]. rewrite Ek in E. by apply AccountResourceKey_inj in E as [-> ->].
    + destruct Ht as [E _]. by rewrite Et in E.
  - by destruct (Hno _ Hr).
  - by destruct (Hno _ Hr).
  - left. destruct Hr as [Hr|(-> & -> & Hj & _)%Had]; [by destruct (Hno _ Hr)|done..].
  - destruct Hr as [Hr|Ht]; [by destruct (Hno _ Hr)|]. unfold grantAllowsCreds in Ht.
    destruct (g_Role g =s GrantAdmin) eqn:Er.
    + left. rewrite Et in Ht. cbn in Ht. rewrite bool_decide_true in Ht by done. go_bool.
      destruct (Had (r_ClusterID res) (r_Account res)) as (-> & -> & _ & Hd); [done..| |apply Hd].
      by repeat split.
    + right. go_bool. split; [done|]. by destruct (g_Role g =s GrantCredentialDownloader) eqn:?; go_bool.
  - by apply Hg in Hr as [? _].
  - left. destruct Hr as [[? _]%Hg|(-> & -> & _)%Had]; done.
  - left. destruct Hr as [[-> ->]%Hg Hrole]. by apply Hmint.
Qed.

(** * The tables

    [rights_kept J]: every right of a user after was one of theirs before, or is
    one of [J]. *)

Definition rights_kept (J : Action → Resource → Prop) (t t' : Tables) : Prop :=
  ∀ id row' act res, t_users t' !! id = Some row' → proper res →
  Can (user_of_row t' id row') act res = true →
  (∃ row, t_users t !! id = Some row ∧ Can (user_of_row t id row) act res = true) ∨ J act res.

#[export] Instance rights_kept_preorder J : PreOrder (rights_kept J).
Proof.
  split.
  - intros t id row act res Hr Hp Hc. eauto.
  - intros t1 t2 t3 H12 H23 id row act res Hr Hp Hc.
    destruct (H23 id row act res Hr Hp Hc) as [(row2 & Hr2 & Hc2)|]; [|auto]. by eapply H12.
Qed.

(** The same users, roles and grants. *)
Definition same_rights (t t' : Tables) : Prop :=
  t_users t' = t_users t ∧ t_user_roles t' = t_user_roles t ∧ t_grants t' = t_grants t.
Lemma same_rights_kept J t t' : same_rights t t' → rights_kept J t t'.
Proof.
  intros (E1 & E2 & E3) id row act res Hr _ Hc. left. exists row. rewrite <- E1. split; [done|].
  revert Hc. unfold user_of_row, roles_of, grants_of. by rewrite E2, E3.
Qed.

Lemma elem_of_grants t u g :
  g ∈ grants_of t u ↔ g_UserID g = u ∧ ∃ i, t_grants t !! i = Some g.
Proof.
  unfold grants_of. rewrite merge_sort_Permutation, list_elem_of_filter, list_elem_of_fmap.
  split.
  - intros [E ([i g'] & -> & Hi%elem_of_map_to_list)]. eauto.
  - intros [E (i & Hi)]. split; [done|]. exists (i, g). split; [done|]. by apply elem_of_map_to_list.
Qed.

(** More grants in the tables, more rights. *)
Lemma more_grants_more_rights t t' u row act res :
  t_user_roles t' = t_user_roles t → grants_of t u ⊆ grants_of t' u →
  Can (user_of_row t u row) act res = true → Can (user_of_row t' u row) act res = true.
Proof.
  intros Er Hg Hc. apply (Can_mono (user_of_row t u row) (grants_of t' u)) in Hc; [|done].
  revert Hc. unfold user_of_row, with_grants. cbn. unfold roles_of. by rewrite Er.
Qed.

(** One grant more, or another role in its place. *)
Lemma put_grant_rights J t i g : (∀ act res, proper res → reason g act res → J act res) →
  rights_kept J t (set_grants <[i:=g]> t).
Proof.
  intros HJ u row act res Hr Hp Hc. cbn in Hr.
  assert (Can (with_grants (g :: grants_of t u) (user_of_row t u row)) act res = true) as Hc'.
  { apply (Can_mono (user_of_row (set_grants <[i:=g]> t) u row) (g :: grants_of t u)) in Hc; [done|].
    intros h Hh. change (h ∈ grants_of (set_grants <[i:=g]> t) u) in Hh.
    apply elem_of_grants in Hh as [E (j & Hj)]. cbn in Hj.
    apply elem_of_cons. apply lookup_insert_Some in Hj as [[_ <-]|[_ Hj]]; [by left|right].
    apply elem_of_grants. eauto. }
  apply Can_grows in Hc' as [Hc'|Hreason]; [left; eauto|right; eauto].
Qed.

(** Fewer grants. *)
Lemma less_grants_rights J t f : (∀ i g, f (t_grants t) !! i = Some g → t_grants t !! i = Some g) →
  rights_kept J t (set_grants f t).
Proof.
  intros Hf u row act res Hr _ Hc. left. exists row. split; [done|].
  eapply more_grants_more_rights; [| |exact Hc]; [done|].
  intros h [E (i & Hi%Hf)]%elem_of_grants. apply elem_of_grants. eauto.
Qed.

(** * The handlers *)

(** A relation on the tables, for the state of the service. *)
Definition on_db (R : relation Tables) : relation Service := λ s s',
  match s_db s, s_db s' with Some t, Some t' => R t t' | None, None => True | _, _ => False end.
#[export] Instance on_db_preorder R `{!PreOrder R} : PreOrder (on_db R).
Proof.
  split.
  - intros s. unfold on_db. by destruct (s_db s).
  - intros s1 s2 s3. unfold on_db. destruct (s_db s1), (s_db s2), (s_db s3); try done. by etrans.
Qed.
Lemma runs_db {A} (R : relation Tables) `{!PreOrder R} (m : DBM A) : runs R m → runs (on_db R) (db m).
Proof.
  intros Hm s. unfold db, on_db. destruct (s_db s) as [t|] eqn:E; cbn; [|by rewrite E].
  specialize (Hm t). destruct (m t) as [r t']. done.
Qed.
#[export] Instance on_db_rights J : PreOrder (on_db (rights_kept J)) := on_db_preorder _.
(** What leaves the database alone. *)
Lemma runs_apart {A} (R : relation Tables) `{!PreOrder R} (m : AM A) :
  (∀ s, s_db (snd (m s)) = s_db s) → runs (on_db R) m.
Proof. intros Hm s. unfold on_db. rewrite Hm. by destruct (s_db s). Qed.
Lemma runs_modify_apart (R : relation Tables) `{!PreOrder R} f :
  (∀ s, s_db (f s) = s_db s) → runs (on_db R) (modify f : AM unit).
Proof. intros Hf. by apply runs_apart. Qed.
#[export] Hint Resolve runs_db runs_modify_apart : runs.

Section Rules.
Context `{AuthLib} `{GoUnicode} (cfg : AuthConfig) (acc : AccessConfig).
Context (J : Action → Resource → Prop).
Abbreviation R := (rights_kept J).

Lemma draw_id_kept : runs (on_db R) draw_id.
Proof. unfold draw_id. run_rules. Qed.
Lemma draw_token_kept : runs (on_db R) draw_token.
Proof. unfold draw_token. run_rules. Qed.
Lemma now_kept : runs (on_db R) now_.
Proof. unfold now_. run_rules. Qed.

Lemma BumpUserVersion_kept u : runs R (BumpUserVersion u).
Proof.
  intros t. unfold BumpUserVersion, bind, online. destruct (t_up t); [|reflexivity]. cbn.
  apply same_rights_kept. by split_and!.
Qed.
#[local] Hint Resolve draw_id_kept draw_token_kept now_kept BumpUserVersion_kept : runs.

Lemma InvalidateUser_kept u : runs (on_db R) (InvalidateUser u).
Proof. unfold InvalidateUser, BumpUserVersion_, bumpLocalVersion. run_rules. Qed.
#[local] Hint Resolve InvalidateUser_kept : runs.

Lemma reads_kept {A} (m : DBM A) : (∀ t, snd (m t) = t) → runs R m.
Proof. intros Hm t. by rewrite Hm. Qed.
Lemma listing_kept ty key : runs R (ListAccessGrantsByResource ty key).
Proof. apply reads_kept. intros t. unfold ListAccessGrantsByResource, bind, online. by destruct (t_up t). Qed.

Lemma delete_scoped_kept i ty key : runs R (DeleteAccessGrantScoped i ty key).
Proof.
  unfold DeleteAccessGrantScoped. run_rules.
  apply runs_modify. intros t. apply less_grants_rights. intros j g. by intros [_ ?]%lookup_delete_Some.
Qed.
Lemma delete_by_resource_kept u ty key : runs R (DeleteAccessGrantByResource u ty key).
Proof.
  unfold DeleteAccessGrantByResource. run_rules.
  apply runs_modify. intros t. apply less_grants_rights. intros j g. by intros [? _]%map_lookup_filter_Some.
Qed.
#[local] Hint Resolve listing_kept delete_scoped_kept delete_by_resource_kept : runs.

(** The upsert: what is stored is what was asked. *)
Lemma upsert_kept i inp :
  (∀ g act res, g_ResourceType g = agu_ResourceType inp → g_ResourceKey g = agu_ResourceKey inp →
     g_Role g = agu_Role inp → proper res → reason g act res → J act res) →
  runs R (UpsertAccessGrant i inp).
Proof.
  intros HJ. unfold UpsertAccessGrant. destruct (validateGrant inp); [run_rules|].
  apply runs_bind; [apply _|apply runs_online_db; apply _|intros _].
  intros t. unfold bind at 1. cbn [get].
  destruct (find_grant _ _ _ t) as [[old h]|]; cbn.
  - apply put_grant_rights. intros act res. by apply HJ.
  - unfold bind, ensure, modify, ret. destruct (t_users t !! agu_UserID inp); [|reflexivity].
    cbn. destruct (t_grants t !! i); [reflexivity|]. cbn. apply put_grant_rights.
    intros act res. by apply HJ.
Qed.

Lemma list_access_kept actor ty key : runs (on_db R) (listResourceAccess actor ty key).
Proof. unfold listResourceAccess, as_actor, or_api_error. run_rules. Qed.
Lemma delete_access_kept actor ty key grantID userID :
  runs (on_db R) (deleteResourceAccess actor ty key grantID userID).
Proof. unfold deleteResourceAccess, as_actor. run_rules. Qed.

(** Through [upsertResourceAccess]: whatever [J] takes the grants it lets pass. *)
Lemma upsert_access_kept actor ty key systemOnly body :
  (∀ u req g act res, actor = Some u → body = Some req → canManage u ty key = true →
     gives g ty key → g_Role g = gr_Role req →
     (g_Role g = GrantAdmin → CanMintAdminGrant u ty key = true) →
     (systemOnly = true → g_Role g ≠ GrantCredentialDownloader) →
     proper res → reason g act res → J act res) →
  runs (on_db R) (upsertResourceAccess actor ty key systemOnly body).
Proof.
  intros HJ. unfold upsertResourceAccess, as_actor. destruct actor as [u|]; [|run_rules].
  destruct (canManage u ty key) eqn:Em; cbn; [|run_rules].
  destruct body as [req|]; [|run_rules].
  destruct (systemOnly && _) eqn:Es; [run_rules|].
  destruct (_ && negb _) eqn:Ea; [run_rules|].
  apply runs_bind; [apply _|run_rules|intros i]. apply runs_bind; [apply _| |intros r; run_rules].
  apply runs_attempt, runs_db; [apply _|]. apply upsert_kept. cbn.
  intros g act res Et Ek Er Hp Hreason.
  apply (HJ u req g act res); try done; rewrite ?Er.
  - intros E. rewrite E in Ea. by destruct (CanMintAdminGrant u ty key).
  - intros -> E. by rewrite E in Es.
Qed.
End Rules.

(** * Granting access *)

(** The six endpoints, and the actor's request. *)
Inductive access_call :=
  | CListSystem (clusterID : string) | CListAccount (clusterID account : string)
  | CUpsertSystem (clusterID : string) (body : option GrantRequest)
  | CUpsertAccount (clusterID account : string) (body : option GrantRequest)
  | CDeleteSystem (clusterID grantID userID : string)
  | CDeleteAccount (clusterID account grantID userID : string).

Definition access_endpoint `{AuthLib} `{GoUnicode} (actor : option User) (call : access_call) : AM answer :=
  match call with
  | CListSystem c => ListSystemAccess actor c
  | CListAccount c a => ListAccountAccess actor c a
  | CUpsertSystem c body => UpsertSystemAccess actor c body
  | CUpsertAccount c a body => UpsertAccountAccess actor c a body
  | CDeleteSystem c g u => DeleteSystemAccess actor c g u
  | CDeleteAccount c a g u => DeleteAccountAccess actor c a g u
  end.

Definition call_cluster (call : access_call) : string :=
  match call with
  | CListSystem c | CListAccount c _ | CUpsertSystem c _ | CUpsertAccount c _ _
  | CDeleteSystem c _ _ | CDeleteAccount c _ _ _ => c
  end.

(** The request hands out the download of credentials. *)
Definition mints_credentials (call : access_call) : Prop :=
  match call with
  | CUpsertAccount _ _ (Some req) => gr_Role req = GrantCredentialDownloader
  | _ => False
  end.

Section Granting.
Context `{AuthLib} `{GoUnicode}.

Lemma with_account_runs (R : relation Service) `{!PreOrder R} c a k :
  (∀ a, colon_free a → runs R (k (AccountResourceKey (ToLower c) a))) →
  runs R (with_account c a k).
Proof.
  intros Hk. unfold with_account. destruct (ValidateAccountName _) as [e|] eqn:E; [run_rules|].
  apply Hk. unfold ValidateAccountName in E. destruct (IsEmpty _); [done|].
  unfold colon_free. by destruct (ContainsByte _ _).
Qed.

Definition justified (actor : User) (call : access_call) (act : Action) (res : Resource) : Prop :=
  Can actor act res = true ∨ (act = ActionDownloadCreds ∧ mints_credentials call).

Lemma endpoint_kept actor call : colon_free (ToLower (call_cluster call)) →
  runs (on_db (rights_kept (justified actor call))) (access_endpoint (Some actor) call).
Proof.
  intros Hcol. destruct call as [c|c a|c body|c a body|c g u|c a g u];
    cbn [access_endpoint call_cluster] in *;
    unfold ListSystemAccess, ListAccountAccess, UpsertSystemAccess, UpsertAccountAccess,
      DeleteSystemAccess, DeleteAccountAccess.
  - apply list_access_kept.
  - apply with_account_runs; [apply _|intros]. apply list_access_kept.
  - apply upsert_access_kept. intros u req g a r [= <-] -> Hm Hg Er Hmint Hno Hpr Hreason.
    left. by eapply cluster_grant_rights.
  - apply with_account_runs; [apply _|intros a' Ha'].
    apply upsert_access_kept. intros u req g ac r [= <-] -> Hm Hg Er Hmint _ Hpr Hreason.
    unfold canManage, AccountResourceKey in Hm. rewrite app_cons, Cut_app in Hm by done.
    destruct (account_grant_rights actor g (ToLower c) a' ac r) as [?|[-> E]]; auto; [by left|].
    right. split; [done|]. cbn. congruence.
  - apply delete_access_kept.
  - apply with_account_runs; [apply _|intros]. apply delete_access_kept.
Qed.

(** C20. Granting access gives nobody more than the actor has.  After any request to
    the access endpoints of a cluster or an account, by anybody, with any body,
    whatever fails: each right of each user (as the tables now give it) is one
    that user had before, or one the actor has; the download of credentials is
    the one exception, when the request hands out exactly that role. *)
Theorem access_gives_no_more (actor : User) (call : access_call) (s : Service)
    (t t' : Tables) id row' act res :
  colon_free (ToLower (call_cluster call)) →
  s_db s = Some t → s_db (snd (access_endpoint (Some actor) call s)) = Some t' →
  t_users t' !! id = Some row' → proper res →
  Can (user_of_row t' id row') act res = true →
  (∃ row, t_users t !! id = Some row ∧ Can (user_of_row t id row) act res = true) ∨
  Can actor act res = true ∨ (act = ActionDownloadCreds ∧ mints_credentials call).
Proof.
  intros Hcol Hs Hs' Hrow Hp Hcan.
  pose proof (endpoint_kept actor call Hcol s) as Hruns.
  unfold on_db in Hruns. rewrite Hs, Hs' in Hruns.
  by apply (Hruns id row' act res).
Qed.
End Granting.

(** * Invitations *)

(** The second half of [AcceptUserInvite]: one transaction. *)
Definition accept_commit (token : string) (now : Z) (userID hash : string) : DBM unit :=
  transaction (online ;; mark_invite token now ;; update_row userID (row_set_hash hash)).

Lemma then_ensure {A} b e (m : DBM A) t a t' :
  (ensure b e ;; m) t = (Ok a, t') → b = true ∧ m t = (Ok a, t').
Proof. unfold ensure, bind. by destruct b. Qed.

(** Accepting is reading the invite, checks, and this transaction. *)
Lemma AcceptUserInvite_commits bcrypt now1 now2 token password t u t' :
  AcceptUserInvite bcrypt now1 now2 token password t = (Ok u, t') →
  ∃ inv hash, t_invites t !! token = Some inv ∧ inv_AcceptedAt inv = None ∧
    (now1 ≤ inv_ExpiresAt inv)%Z ∧ ValidatePassword password = true ∧
    bcrypt (TrimSpace password) = Some hash ∧
    accept_commit token now2 (inv_UserID inv) hash t = (Ok tt, t') ∧ u_ID u = inv_UserID inv.
Proof.
  intros (inv & t1 & E1 & E)%bind_Ok.
  assert (t1 = t ∧ t_invites t !! token = Some inv) as [-> Hinv].
  { revert E1. unfold GetUserInvite, bind, online, get. destruct (t_up t); [|done].
    destruct (t_invites t !! token); [|done]. cbn. by intros [= -> ->]. }
  apply then_ensure in E as [Ha E]. apply then_ensure in E as [Hn E].
  apply then_ensure in E as [Hp E]. apply then_ensure in E as [Hl E].
  apply bind_Ok in E as (hash & t1 & Eh & E).
  unfold generate_hash, lift in Eh. destruct (bcrypt _) as [h|] eqn:Eb; [|done]. injection Eh as -> <-.
  apply bind_Ok in E as ([] & t2 & Ec & E). apply GetUserByID_spec in E as [-> Hu].
  destruct (Hu u eq_refl) as (row & _ & ->). exists inv, hash. split_and!; try done.
  - by destruct (inv_AcceptedAt inv).
  - lia.
  - unfold ValidatePassword. by rewrite Hp, Hl.
Qed.

(** The invite is gone or was accepted. *)
Definition spent (token : string) (t : Tables) : Prop :=
  ∀ inv, t_invites t !! token = Some inv → inv_AcceptedAt inv ≠ None.
Definition stays_spent (token : string) : relation Tables := λ t t', spent token t → spent token t'.
#[export] Instance stays_spent_preorder token : PreOrder (stays_spent token).
Proof. split; [by intros t Hs|]. intros t1 t2 t3 H12 H23 H1. by apply H23, H12. Qed.

Lemma same_invites_spent token t t' : t_invites t' = t_invites t → stays_spent token t t'.
Proof. unfold stays_spent, spent. by intros ->. Qed.
Lemma modify_spent token f : (∀ t, t_invites (f t) = t_invites t) →
  runs (stays_spent token) (modify f : DBM unit).
Proof. intros Hf. apply runs_modify. intros t. apply same_invites_spent, Hf. Qed.
Lemma transaction_spent {A} token (m : DBM A) :
  runs (stays_spent token) m → runs (stays_spent token) (transaction m).
Proof. intros Hm t. unfold transaction. specialize (Hm t). by destruct (m t) as [[|]]. Qed.
Lemma online_spent token : runs (stays_spent token) online.
Proof. by intros t. Qed.
Lemma delete_user_spent token id : runs (stays_spent token) (modify (cascade_user id) : DBM unit).
Proof.
  apply runs_modify. intros t Hs inv. cbn. intros [Hi _]%map_lookup_filter_Some. by apply Hs.
Qed.
Lemma mark_spent token token' now : runs (stays_spent token) (mark_invite token' now).
Proof.
  intros t Hs. unfold mark_invite, bind, get. destruct (t_invites t !! token') as [inv|]; [|done].
  unfold ensure. destruct (_ && _); [|done]. intros inv'. cbn.
  by intros [[<- <-]|[_ Hi]]%lookup_insert_Some; [|apply Hs].
Qed.
#[local] Hint Resolve modify_spent transaction_spent online_spent delete_user_spent mark_spent : runs.

(** A call that does not create this invite. *)
Definition creates (token : string) (op : repo_op) : bool :=
  match op with OCreateInvite token' _ _ _ => token' =s token | _ => false end.

Lemma create_invite_spent token token' now u ttl : token' ≠ token →
  runs (stays_spent token) (CreateUserInvite token' now u ttl).
Proof.
  intros Hne. unfold CreateUserInvite. run_rules. apply runs_modify. intros t Hs inv. cbn.
  rewrite lookup_insert_ne by done. apply Hs.
Qed.

Lemma roles_spent token u roles : runs (stays_spent token) (setUserRolesTx u roles).
Proof.
  unfold setUserRolesTx. run_rules. revert u. induction roles as [|r roles IH]; intros u; cbn; run_rules.
Qed.
#[local] Hint Resolve roles_spent : runs.

Lemma mark_replaced_spent token id new : runs (stays_spent token) (MarkRefreshTokenReplaced id new).
Proof. unfold MarkRefreshTokenReplaced. run_rules. Qed.
Lemma generate_hash_spent token bcrypt p : runs (stays_spent token) (generate_hash bcrypt p).
Proof. unfold generate_hash. run_rules. Qed.
Lemma GetUserByID_spent token id : runs (stays_spent token) (GetUserByID id).
Proof. unfold GetUserByID. run_rules. Qed.
Lemma update_row_spent token id f : runs (stays_spent token) (update_row id f).
Proof. unfold update_row. run_rules. Qed.
#[local] Hint Resolve mark_replaced_spent create_invite_spent generate_hash_spent GetUserByID_spent
  update_row_spent : runs.

Lemma repo_step_spent token op : creates token op = false →
  ∀ t, stays_spent token t (repo_step op t).
Proof.
  intros Hop. destruct op; cbn [repo_step]; unfold done_;
    match goal with
    | |- ∀ t, stays_spent _ t (set_up _ t) => by intros t Hs
    | |- ∀ t, stays_spent _ t (snd (?m t)) => change (runs (stays_spent token) m)
    end.
  7: { apply create_invite_spent. intros ->. cbn in Hop. by rewrite bool_decide_true in Hop. }
  all: unfold CreateUser, insert_user, HasRootUser, UpdateUser,
    update_email_password, DeleteUser, UpsertAccessGrant, DeleteAccessGrantScoped,
    DeleteAccessGrantByResource, AcceptUserInvite, GetUserInvite, BumpUserVersion, RevokeSession,
    PurgeExpiredSessionRevocations, InsertRefreshToken, DeleteRefreshTokensByUser,
    DeleteRefreshTokenByHash, PurgeExpiredRefreshTokens, delete_refresh; run_rules;
    try (apply transaction_spent; run_rules).
Qed.

Lemma run_ops_spent token ops t : Forall (λ op, creates token op = false) ops →
  spent token t → spent token (run_ops ops t).
Proof.
  intros Hops. revert t. unfold run_ops.
  induction Hops as [|op ops Hop _ IH]; intros t Hs; [done|]. cbn. by apply IH, repo_step_spent.
Qed.

Lemma commit_spends token now u hash t t' :
  accept_commit token now u hash t = (Ok tt, t') → ¬ spent token t ∧ spent token t' ∧
  t_users t' = alter (row_set_hash hash) u (t_users t).
Proof.
  unfold accept_commit. intros E%transaction_ok. apply bind_Ok in E as ([] & t1 & Eo & E).
  apply online_ok in Eo as ->. apply bind_Ok in E as ([] & t1 & Em & E).
  unfold update_row, modify in E. injection E as <-. revert Em. unfold mark_invite.
  intros (t2 & ? & [= <- <-] & E)%bind_Ok.
  destruct (t_invites t !! token) as [inv|] eqn:Ei; [|done]. apply then_ensure in E as [Hb E].
  injection E as <-. split_and!.
  - intros Hs. apply Hs in Ei. by destruct (inv_AcceptedAt inv).
  - intros inv' Hi. cbn in Hi. rewrite lookup_insert_eq in Hi. by injection Hi as <-.
  - done.
Qed.

(** C21. An invitation is used once.  Accepting one (the transaction that counts,
    however the requests that lead to it interleave) sets the password of the
    invited user to the hash of the password given, and nobody else's; after any
    further calls to the repository that do not create the same token, accepting it
    again fails, as the transaction and as the whole call. *)
Theorem invite_single_use bcrypt token password now1 now2 t u t1 ops :
  AcceptUserInvite bcrypt now1 now2 token password t = (Ok u, t1) →
  Forall (λ op, creates token op = false) ops →
  (∃ hash, bcrypt (TrimSpace password) = Some hash ∧ ValidatePassword password = true ∧
     t_users t1 = alter (row_set_hash hash) (u_ID u) (t_users t)) ∧
  (∀ now userID hash, (accept_commit token now userID hash (run_ops ops t1)).1 ≠ Ok tt) ∧
  (∀ bcrypt' now1' now2' password' u',
     (AcceptUserInvite bcrypt' now1' now2' token password' (run_ops ops t1)).1 ≠ Ok u').
Proof.
  intros E Hops.
  destruct (AcceptUserInvite_commits _ _ _ _ _ _ _ _ E) as (inv & hash & _ & _ & _ & Hv & Hh & Hc & Hu).
  destruct (commit_spends _ _ _ _ _ _ Hc) as (_ & Hs & Hrow).
  pose proof (run_ops_spent token ops t1 Hops Hs) as Hs'. split_and!.
  - exists hash. by rewrite Hu.
  - intros now userID h Hcom.
    destruct (accept_commit token now userID h (run_ops ops t1)) as [r t2] eqn:Ec. cbn in Hcom. subst r.
    by apply commit_spends in Ec as [? _].
  - intros bcrypt' n1 n2 password' u' Hacc.
    destruct (AcceptUserInvite bcrypt' n1 n2 token password' (run_ops ops t1)) as [r t2] eqn:Ea.
    cbn in Hacc. subst r. apply AcceptUserInvite_commits in Ea as (inv' & h' & _ & _ & _ & _ & _ & Hc' & _).
    by apply commit_spends in Hc' as [? _].
Qed.

(** * Examples *)

#[local] Existing Instance sample_lib.
#[local] Existing Instance ascii_only.

Definition samples : Service := NewService (Some sample_tables) 0.
Definition account_A : Resource :=
  {| r_Type := ""; r_Key := ""; r_ClusterID := "c1"; r_Account := "A"; r_NATSUserID := "n1" |}.

(** The manager makes the viewer an observer of the cluster. *)
Example access_gives_no_more_witness :
  let call := CUpsertSystem "c1" (Some (mkGrantRequest "v" GrantObserver)) in
  (fst <$> (s_db (snd (access_endpoint (Some manager) call samples)) ≫= λ t,
     t_users t !! "v" ≫= λ row, Some (Can (user_of_row t "v" row) ActionAccessCluster account_A, row)))
  = Some true ∧
  ((∃ row, t_users sample_tables !! "v" = Some row ∧
      Can (user_of_row sample_tables "v" row) ActionAccessCluster account_A = true) ∨
   Can manager ActionAccessCluster account_A = true ∨
   (ActionAccessCluster = ActionDownloadCreds ∧ mints_credentials call)).
Proof.
  intros call.
  assert (∀ o, (fst <$> (o ≫= λ t, t_users t !! "v" ≫= λ row,
      Some (Can (user_of_row t "v" row) ActionAccessCluster account_A, row))) = Some true →
    ∃ t' row, o = Some t' ∧ t_users t' !! "v" = Some row ∧
      Can (user_of_row t' "v" row) ActionAccessCluster account_A = true) as Hread.
  { intros [t'|]; [|done]. cbn [mbind option_bind].
    destruct (t_users t' !! "v") as [row|] eqn:Er; [|done]. cbn. intros [= Hc]. eauto 6. }
  assert (fst <$> (s_db (snd (access_endpoint (Some manager) call samples)) ≫= λ t,
    t_users t !! "v" ≫= λ row, Some (Can (user_of_row t "v" row) ActionAccessCluster account_A, row))
    = Some true) as E by (vm_compute; reflexivity).
  split; [exact E|]. apply Hread in E as (t' & row & Et & Er & Hc).
  refine (access_gives_no_more manager call samples sample_tables t' "v" row ActionAccessCluster account_A
    _ _ Et Er _ Hc); [vm_compute; reflexivity|reflexivity|split; reflexivity].
Defined.

(** A manager of users who may not download the credentials of an account hands
    the right to do so to himself. *)
Lemma manager_takes_credentials :
  CanDownloadCreds manager "c1" "A" "n1" = false ∧
  let call := CUpsertAccount "c1" "A" (Some (mkGrantRequest "m" GrantCredentialDownloader)) in
  (s_db (snd (access_endpoint (Some manager) call samples)) ≫= λ t,
     t_users t !! "m" ≫= λ row, Some (CanDownloadCreds (user_of_row t "m" row) "c1" "A" "n1"))
  = Some true.
Proof. split; vm_compute; reflexivity. Qed.

Definition invited : Tables := snd (CreateUserInvite "tok" 0 "v" 100 sample_tables).

Example invite_single_use_witness :
  match (AcceptUserInvite sample_bcrypt 20 20 "tok" "another-secret"
     (run_ops [OBumpVersion "v"; OAcceptInvite sample_bcrypt 15 15 "tok" "third-secret"; ODeleteUser "d"]
       (snd (AcceptUserInvite sample_bcrypt 10 10 "tok" " first-secret " invited)))).1
  with Ok _ => False | Err _ => True end.
Proof.
  destruct (AcceptUserInvite sample_bcrypt 10 10 "tok" " first-secret " invited) as [r t1] eqn:E.
  assert (is_Some (match r with Ok u => Some u | Err _ => None end)) as [u Hu].
  { change r with (r, t1).1. rewrite <- E. vm_compute. eauto. }
  destruct r as [v|]; [|done].
  destruct (invite_single_use sample_bcrypt "tok" " first-secret " 10 10 invited v t1
    [OBumpVersion "v"; OAcceptInvite sample_bcrypt 15 15 "tok" "third-secret"; ODeleteUser "d"] E)
    as (_ & _ & H); [by repeat constructor|].
  specialize (H sample_bcrypt 20%Z 20%Z "another-secret"). cbn [snd].
  case_match; [by eapply H|exact I].
Defined.

(** A role that does not exist is answered as an internal error. *)
Lemma invalid_role_is_internal_error :
  an_Status <$> (match fst (UsersCreate (Some manager) (Some {|
    cur_AccessRules := Some viewer_rules; cur_Username := "eve"; cur_Email := "";
    cur_Password := "secret12"; cur_Roles := ["owner"] |}) samples) with
    | Ok a => Some a | Err _ => None end) = Some 500%Z.
Proof. vm_compute. reflexivity. Qed.

(** The password of an invitation is trimmed, the one of a login is not. *)
Lemma accepted_password_is_trimmed :
  let s := snd (AcceptInvite sample_auth (Some ("tok", " first-secret ")) "laptop"
                  (NewService (Some invited) 0)) in
  let login p := match fst (AuthenticateBasic sample_auth "viewer" p s) with Ok _ => true | Err _ => false end in
  login " first-secret " = false ∧ login "first-secret" = true.
Proof. vm_compute. split; reflexivity. Qed.
