(* ===== verification/Crypto.v ===== *)
(** The encryption of stored credentials: internal/crypto/crypto.go, its uses in
    internal/repo/store.go, and the rotation of the key,
    internal/repo/encryption_rotate.go and internal/api/admin_handlers.go.

    AES-GCM and SHA-256 are the class [Gcm]; a nonce is drawn from a supply. *)

From S2P Require Export Store.
From S2P Require Import Base64 GoStrings.

Class Gcm := {
  sha256_sum : string → string;
  gcm_seal : string → string → string → string;           (* key, nonce, plaintext *)
  gcm_open : string → string → string → option string;    (* key, nonce, ciphertext *)
  draw_nonce : nat → option string;                       (* [rand.Reader] may fail *)
}.

(** [cipher.NewGCM]: nonces of 12 bytes, and what was sealed opens. *)
Definition nonceSize : nat := 12.
Class GcmLaws `{Gcm} : Prop := {
  gcm_open_seal k n p : gcm_open k n (gcm_seal k n p) = Some p;
  nonce_length i n : draw_nonce i = Some n → String.length n = nonceSize;
}.

Definition encryptedPrefix : string := "enc:".
Definition IsEncrypted (value : string) : bool := HasPrefix value encryptedPrefix.

(** [raw[:n]]; [sdrop] is [raw[n:]]. *)
Definition stake (n : nat) (s : string) : string := String.substring 0 n s.

(** The key of the cipher. *)
Record Encryptor := mkEncryptor { e_key : string }.

Section Crypto.
Context `{Gcm}.

Definition New (key : string) : result err Encryptor :=
  if IsEmpty key then Err (ErrMsg "encryption key is required")
  else if Nat.ltb (String.length key) 16 then Err (ErrMsg "encryption key must be at least 16 characters")
  else Ok (mkEncryptor (sha256_sum key)).

Definition Encrypt (e : Encryptor) (nonce : option string) (plaintext : string) : result err string :=
  if IsEmpty plaintext then Ok ""
  else if IsEncrypted plaintext then Ok plaintext
  else match nonce with
  | None => Err (ErrMsg "nonce")
  | Some nonce => Ok (encryptedPrefix +:+ EncodeToString (nonce +:+ gcm_seal (e_key e) nonce plaintext))
  end.

Definition Decrypt (e : Encryptor) (value : string) : result err string :=
  if IsEmpty value then Ok ""
  else if negb (IsEncrypted value) then Ok value
  else match DecodeString (TrimPrefix value encryptedPrefix) with
  | None => Err (ErrMsg "decrypt credential: base64")
  | Some raw =>
      if Nat.ltb (String.length raw) nonceSize then Err (ErrMsg "decrypt credential: ciphertext too short")
      else match gcm_open (e_key e) (stake nonceSize raw) (sdrop nonceSize raw) with
      | None => Err (ErrMsg "decrypt credential")
      | Some plaintext => Ok plaintext
      end
  end.

Definition EncryptIfNeeded (e : Encryptor) (nonce : option string) (value : string) : result err string :=
  if IsEmpty value || IsEncrypted value then Ok value else Encrypt e nonce value.

(** * The repository *)

Definition encryptToken (encryptor : option Encryptor) (nonce : option string) (token : string) : result err string :=
  match encryptor with
  | None => Ok token
  | Some e => if IsEmpty token then Ok token else Encrypt e nonce token
  end.
Definition decryptToken (encryptor : option Encryptor) (token : string) : result err string :=
  match encryptor with
  | None => Ok token
  | Some e => if IsEmpty token then Ok token else Decrypt e token
  end.

(** The columns that hold secrets: [clusters.token] and
    [nats_account_users.seed_encrypted], by the id of the row. *)
Record Secrets := mkSecrets { se_tokens : gmap string string; se_seeds : gmap string string }.
Definition set_token (id token : string) (s : Secrets) : Secrets :=
  mkSecrets (<[id := token]> (se_tokens s)) (se_seeds s).

(** [queryListClusterTokens] *)
Definition ListClusterTokens (s : Secrets) : list (string * string) :=
  List.filter (λ r, negb (IsEmpty r.2)) (map_to_list (se_tokens s)).

Abbreviation SM := (M Secrets err).

(** At start-up: the tokens that are in clear.  Each update is a statement of its
    own; an error leaves the earlier ones.  [answers]: whether the database answers
    the query, then whether it gives each row (or the end of them) and takes the
    update of it. *)
Section Reencrypt.
Context (answers : nat → bool).

Fixpoint reencrypt_rows (e : Encryptor) (i : nat) (rows : list (string * string)) : SM unit :=
  ensure (answers (2 * i + 1)) ErrDB ;;
  match rows with
  | [] => ret tt
  | (id, token) :: rows =>
      if IsEncrypted token then reencrypt_rows e (S i) rows
      else
        let! encrypted := lift (Encrypt e (draw_nonce i) token) in
        ensure (answers (2 * i + 2)) ErrDB ;;
        modify (set_token id encrypted) ;;
        reencrypt_rows e (S i) rows
  end.
Definition ReencryptCredentials (e : Encryptor) : SM unit :=
  ensure (answers 0) ErrDB ;;
  let! s := get in reencrypt_rows e 0 (ListClusterTokens s).
End Reencrypt.

Definition decryptWithFallback (value : string) (oldEnc : Encryptor) (active : option Encryptor) : result err string :=
  if IsEmpty value then Ok ""
  else if negb (IsEncrypted value) then Ok value
  else match Decrypt oldEnc value with
  | Ok plain => Ok plain
  | Err _ => match active with
             | Some a => Decrypt a value
             | None => Err (ErrMsg "decrypt credential")
             end
  end.

Section Rotate.
(** Whether the driver runs a statement of a transaction while the rows of a
    query of it are still open. *)
Context (concurrent_rows : bool).

Fixpoint rotate_rows (oldEnc newEnc : Encryptor) (active : option Encryptor) (dryRun : bool) (i : nat)
    (rows : list (string * string)) : SM nat :=
  match rows with
  | [] => ret 0
  | (id, token) :: rows =>
      let! plain := lift (decryptWithFallback token oldEnc active) in
      let! encrypted := lift (Encrypt newEnc (draw_nonce i) plain) in
      (if dryRun then ret tt
       else ensure concurrent_rows ErrDB ;; modify (set_token id encrypted)) ;;
      let! n := rotate_rows oldEnc newEnc active dryRun (S i) rows in
      ret (S n)
  end.

(** The number of clusters; a transaction. *)
Definition RotateEncryptionKeys (active : option Encryptor) (currentKey newKey : string) (dryRun : bool) : SM nat :=
  let! oldEnc := lift (New currentKey) in
  let! newEnc := lift (New newKey) in
  λ s, match (let! s := get in rotate_rows oldEnc newEnc active dryRun 0 (ListClusterTokens s)) s with
       | (Ok n, s') => (Ok n, s')
       | (Err e, _) => (Err e, s)
       end.

(** The handler: [actor] is the user of the request, [body] the two keys. *)
Definition RotateEncryptionKey (active : option Encryptor) (actor : option User) (body : option (string * string))
    (dryRun : bool) : M Secrets err (Z * nat) :=
  match actor with
  | Some user =>
      if negb (u_IsRoot user) then ret (403%Z, 0)
      else match body with
      | None => ret (400%Z, 0)
      | Some (currentKey, newKey) =>
          if IsEmpty currentKey || IsEmpty newKey then ret (400%Z, 0)
          else if Nat.ltb (String.length newKey) 16 then ret (400%Z, 0)
          else
            let! r := attempt (RotateEncryptionKeys active currentKey newKey dryRun) in
            match r with Ok n => ret (200%Z, n) | Err _ => ret (400%Z, 0) end
      end
  | None => ret (403%Z, 0)
  end.
End Rotate.
End Crypto.

(** * What was encrypted decrypts *)

Lemma stake_app (s t : string) : stake (String.length s) (s +:+ t) = s.
Proof.
  unfold stake. induction s as [|a s IH]; [by destruct t|]. rewrite app_cons. simpl. by f_equal.
Qed.

Section Facts.
Context `{GcmLaws}.

Lemma Encrypt_encrypted e i p c : Encrypt e (draw_nonce i) p = Ok c → IsEmpty p = false → IsEncrypted c = true.
Proof.
  unfold Encrypt. intros E Hp. rewrite Hp in E. destruct (IsEncrypted p) eqn:Ep; [by injection E as <-|].
  destruct (draw_nonce i) as [n|]; [|done]. injection E as <-. apply HasPrefix_app.
Qed.

Lemma Decrypt_Encrypt_gen e i p c :
  Encrypt e (draw_nonce i) p = Ok c → IsEncrypted p = false → Decrypt e c = Ok p.
Proof.
  unfold Encrypt. intros E Hp. destruct (IsEmpty p) eqn:He.
  { apply IsEmpty_true in He as ->. by injection E as <-. }
  rewrite Hp in E. destruct (draw_nonce i) as [n|] eqn:Hn; [|done]. injection E as <-.
  pose proof (nonce_length i n Hn) as Hlen. unfold Decrypt.
  set (raw := n +:+ gcm_seal (e_key e) n p).
  replace (IsEmpty (encryptedPrefix +:+ EncodeToString raw)) with false by done.
  replace (IsEncrypted (encryptedPrefix +:+ EncodeToString raw)) with true by (symmetry; apply HasPrefix_app).
  cbn [negb]. rewrite TrimPrefix_app, DecodeString_encode.
  assert (Hr : String.length raw = nonceSize + String.length (gcm_seal (e_key e) n p))
    by (unfold raw; by rewrite length_app_string, Hlen).
  rewrite (proj2 (Nat.ltb_ge _ _)) by lia. unfold raw.
  by rewrite <- Hlen, stake_app, sdrop_app, gcm_open_seal.
Qed.

Lemma token_roundtrip encryptor i p c :
  encryptToken encryptor (draw_nonce i) p = Ok c → IsEncrypted p = false → decryptToken encryptor c = Ok p.
Proof.
  unfold encryptToken, decryptToken. intros E Hp. destruct encryptor as [e|]; [|by injection E as <-].
  destruct (IsEmpty p) eqn:He.
  - injection E as <-. by rewrite He.
  - pose proof (Encrypt_encrypted _ _ _ _ E He) as Hc. destruct c as [|a c]; [done|].
    by eapply Decrypt_Encrypt_gen.
Qed.

(** * The rotation *)

Lemma ListClusterTokens_spec (s : Secrets) id token :
  (id, token) ∈ ListClusterTokens s ↔ se_tokens s !! id = Some token ∧ token ≠ "".
Proof.
  unfold ListClusterTokens. rewrite list_elem_of_In, filter_In, <- list_elem_of_In, elem_of_map_to_list.
  cbn [snd]. by rewrite negb_true_iff, IsEmpty_false.
Qed.

Lemma ListClusterTokens_nodup (s : Secrets) : NoDup (ListClusterTokens s).*1.
Proof.
  unfold ListClusterTokens. pose proof (NoDup_fst_map_to_list (se_tokens s)) as Hnd.
  induction (map_to_list (se_tokens s)) as [|[id t] l IH]; [done|].
  apply NoDup_cons in Hnd as [Hn Hnd]. cbn [List.filter snd].
  destruct (negb (IsEmpty t)); [|by apply IH]. rewrite fmap_cons.
  apply NoDup_cons. split; [|by apply IH]. intros Hin. apply Hn.
  apply list_elem_of_fmap in Hin as (r & -> & Hr). apply list_elem_of_In, filter_In in Hr as [Hr _].
  apply list_elem_of_fmap. exists r. split; [done|]. by apply list_elem_of_In.
Qed.

(** The token of a row after the rotation. *)
Definition rotated oldEnc newEnc active (token token' : string) : Prop :=
  ∃ plain j, decryptWithFallback token oldEnc active = Ok plain ∧ Encrypt newEnc (draw_nonce j) plain = Ok token'.

Lemma rotate_rows_spec concurrent oldEnc newEnc active i rows s n s' :
  NoDup rows.*1 → rotate_rows concurrent oldEnc newEnc active false i rows s = (Ok n, s') →
  n = length rows ∧ se_seeds s' = se_seeds s ∧
  (∀ id token, (id, token) ∈ rows → ∃ token', se_tokens s' !! id = Some token' ∧ rotated oldEnc newEnc active token token') ∧
  (∀ id, id ∉ rows.*1 → se_tokens s' !! id = se_tokens s !! id).
Proof.
  revert i s n. induction rows as [|[id token] rows IH]; intros i s n Hnd E; cbn [rotate_rows] in E.
  - m_inv. split_and!; try done. intros ? ? Hin. by apply not_elem_of_nil in Hin.
  - rewrite fmap_cons in Hnd. apply NoDup_cons in Hnd as [Hid Hnd]. m_inv.
    match goal with H : modify _ _ = _ |- _ => unfold modify in H; injection H as <- <- end.
    match goal with H : rotate_rows _ _ _ _ _ _ _ _ = _ |- _ => apply IH in H as (-> & Hse & Hrows & Hother); [|done] end.
    cbn [fst] in Hid. split_and!; [done|done| |].
    + intros id' token' [Heq|Hin]%elem_of_cons; [|by apply Hrows].
      injection Heq as -> ->. rewrite Hother by done. eexists. split; [apply lookup_insert_eq|]. by eexists _, _.
    + intros id' Hnin. rewrite fmap_cons in Hnin. apply not_elem_of_cons in Hnin as [Hne Hnin]. rewrite Hother by done.
      cbn. by rewrite lookup_insert_ne.
Qed.

Lemma rotate_dry_spec concurrent oldEnc newEnc active i rows s r s' :
  rotate_rows concurrent oldEnc newEnc active true i rows s = (r, s') → s' = s.
Proof.
  revert i r. induction rows as [|[id token] rows IH]; intros i r E; cbn [rotate_rows] in E.
  - by injection E as _ <-.
  - apply bind_ok in E as [(plain & s1 & E1 & E)|(? & E1 & _)]; unfold lift in E1; [|by injection E1].
    injection E1 as _ <-.
    apply bind_ok in E as [(enc & s1 & E1 & E)|(? & E1 & _)]; unfold lift in E1; [|by injection E1].
    injection E1 as _ <-. cbn in E.
    apply bind_ok in E as [(n & s1 & E1 & E)|(? & E1 & _)]; [|by eapply IH].
    injection E as _ <-. by eapply IH.
Qed.

(** A rotation that fails, or is only tried, changes nothing. *)
Lemma rotation_atomic concurrent active currentKey newKey dryRun s r s' :
  RotateEncryptionKeys concurrent active currentKey newKey dryRun s = (r, s') →
  is_Ok r = false ∨ dryRun = true → s' = s.
Proof.
  unfold RotateEncryptionKeys, bind, lift. destruct (New currentKey) as [oldEnc|]; [|by injection 1].
  destruct (New newKey) as [newEnc|]; [|by injection 1]. unfold get.
  destruct (rotate_rows _ _ _ _ _ _ _ _) as [[n|e] s1] eqn:E; intros [= <- <-] [|Hd]; try done.
  subst dryRun. by eapply rotate_dry_spec.
Qed.

(** After a rotation every cluster token reads, under the new key, as it read before
    under the old one (or the active one), and is stored encrypted, the number
    returned is the number of tokens, and no other token appears; a rotation that
    fails, or is a dry run, leaves everything as it was. *)
Lemma rotation_keeps_tokens concurrent active currentKey newKey dryRun s r s' :
  RotateEncryptionKeys concurrent active currentKey newKey dryRun s = (r, s') →
  (is_Ok r = false ∨ dryRun = true → s' = s) ∧
  (∀ n, r = Ok n → dryRun = false →
    ∃ oldEnc newEnc, New currentKey = Ok oldEnc ∧ New newKey = Ok newEnc ∧
    n = length (ListClusterTokens s) ∧
    (∀ id token, se_tokens s !! id = Some token → token ≠ "" → ∃ plain token',
      decryptWithFallback token oldEnc active = Ok plain ∧ se_tokens s' !! id = Some token' ∧
      (plain ≠ "" → IsEncrypted token' = true) ∧
      (IsEncrypted plain = false → decryptToken (Some newEnc) token' = Ok plain)) ∧
    (∀ id, default "" (se_tokens s !! id) = "" → se_tokens s' !! id = se_tokens s !! id)).
Proof.
  intros E. split; [by eapply rotation_atomic|]. intros n -> ->.
  unfold RotateEncryptionKeys, bind, lift in E. destruct (New currentKey) as [oldEnc|]; [|done].
  destruct (New newKey) as [newEnc|]; [|done]. unfold get in E.
  destruct (rotate_rows _ _ _ _ _ _ _ _) as [[n'|e] s1] eqn:Er; [|done]. injection E as <- <-.
  apply rotate_rows_spec in Er as (-> & _ & Hrows & Hother); [|apply ListClusterTokens_nodup].
  exists oldEnc, newEnc. split_and!; [done..| |].
  - intros id token Hid Hne. destruct (Hrows id token) as (token' & Ht & plain & j & Hp & He).
    { by apply ListClusterTokens_spec. }
    exists plain, token'. split_and!; [done..| |].
    { intros Hne'. apply (Encrypt_encrypted _ _ _ _ He). by apply IsEmpty_false. }
    intros Hpe.
    apply (token_roundtrip (Some newEnc) j); [|done]. unfold encryptToken.
    destruct (IsEmpty plain) eqn:Hm; [|done]. apply IsEmpty_true in Hm as ->. exact He.
  - intros id Hd. apply Hother. rewrite list_elem_of_fmap. intros ([id' t] & -> & Hin).
    apply ListClusterTokens_spec in Hin as [Hin Hne]. cbn in Hd. by rewrite Hin in Hd.
Qed.

(** * The pass at start-up *)

(** [token'] is [token], or the same secret, encrypted. *)
Definition same_secret (e : Encryptor) (token token' : string) : Prop :=
  token' = token ∨ IsEncrypted token = false ∧ IsEncrypted token' = true ∧ Decrypt e token' = Ok token.

Lemma same_secret_reads e token token' : same_secret e token token' → decryptToken (Some e) token' = decryptToken (Some e) token.
Proof.
  intros [->|(Hp & Hc & Hd)]; [done|]. unfold decryptToken.
  assert (IsEmpty token' = false) as -> by by destruct token'.
  rewrite Hd. unfold Decrypt. rewrite Hp. destruct (IsEmpty token) eqn:E; [|done]. by apply IsEmpty_true in E as ->.
Qed.

Lemma reencrypt_rows_spec answers e rows : ∀ i s r s', NoDup rows.*1 →
  (∀ id token, (id, token) ∈ rows → se_tokens s !! id = Some token ∧ token ≠ "") → reencrypt_rows answers e i rows s = (r, s') →
  se_seeds s' = se_seeds s ∧
  (∀ id, id ∉ rows.*1 → se_tokens s' !! id = se_tokens s !! id) ∧
  (∀ id token, (id, token) ∈ rows → ∃ token', se_tokens s' !! id = Some token' ∧ same_secret e token token' ∧
     (r = Ok tt → IsEncrypted token' = true)).
Proof.
  induction rows as [|[id token] rows IH]; intros i s r s' Hnd Hin E; cbn [reencrypt_rows] in E; unfold bind at 1, ensure at 1 in E;
    (destruct (answers (2 * i + 1));
     [cbn [ret fail] in E|injection E as <- <-; split_and!; [done|done|]; intros id' t' H'; exists t';
        split_and!; [by apply (Hin id' t')|by left|done]]).
  { injection E as <- <-. split_and!; try done. intros ? ? H'. by apply not_elem_of_nil in H'. }
  rewrite fmap_cons in Hnd. apply NoDup_cons in Hnd as [Hid Hnd]. cbn [fst] in Hid.
  destruct (Hin id token) as [Htok Hne]; [by left|].
  assert (Hstays : ∀ id' token', (id', token') ∈ rows → id' ≠ id).
  { intros id' token' H' ->. apply Hid, list_elem_of_fmap. by exists (id, token'). }
  destruct (IsEncrypted token) eqn:Henc.
  - destruct (IH _ _ _ _ Hnd (λ id' t' H', Hin id' t' (list_elem_of_further _ _ _ H')) E) as (Hse & Hother & Hrows).
    split_and!; [done|intros id' Hn; apply Hother; rewrite fmap_cons in Hn; by apply not_elem_of_cons in Hn as [_ Hn]|].
    intros id' t' [Heq|H']%elem_of_cons; [|by apply Hrows]. injection Heq as -> ->. exists token.
    rewrite Hother by done. split_and!; [done|by left|done].
  - unfold bind, lift in E. destruct (Encrypt e (draw_nonce i) token) as [enc|err] eqn:Ee.
    2: { injection E as <- <-. split_and!; [done|done|]. intros id' t' H'. apply Hin in H' as [H' _]. exists t'.
         split_and!; [done|by left|done]. }
    unfold ensure in E. destruct (answers (2 * i + 2)).
    2: { injection E as <- <-. split_and!; [done|done|]. intros id' t' H'. apply Hin in H' as [H' _]. exists t'.
         split_and!; [done|by left|done]. }
    cbn [ret modify] in E. destruct (IH _ _ _ _ Hnd (λ id' t' H', conj
      (eq_trans (lookup_insert_ne (se_tokens s) id id' enc (not_eq_sym (Hstays _ _ H'))) (proj1 (Hin id' t' (list_elem_of_further _ _ _ H'))))
      (proj2 (Hin id' t' (list_elem_of_further _ _ _ H')))) E) as (Hse & Hother & Hrows).
    split_and!; [done| |].
    + intros id' Hn. rewrite fmap_cons in Hn. apply not_elem_of_cons in Hn as [Hn Hn']. rewrite Hother by done. by apply lookup_insert_ne.
    + intros id' t' [Heq|H']%elem_of_cons; [|by apply Hrows]. injection Heq as -> ->. exists enc.
      rewrite Hother by done. cbn. rewrite lookup_insert_eq. apply IsEmpty_false in Hne.
      pose proof (Encrypt_encrypted _ _ _ _ Ee Hne). split_and!; [done|right; split_and!; [done..|by eapply Decrypt_Encrypt_gen]|done].
Qed.

Lemma reencrypt_rows_done answers e rows : ∀ i s, (∀ id token, (id, token) ∈ rows → IsEncrypted token = true) →
  (reencrypt_rows answers e i rows s).2 = s.
Proof.
  induction rows as [|[id token] rows IH]; intros i s Hrows; cbn [reencrypt_rows]; unfold bind at 1, ensure at 1;
    (destruct (answers (2 * i + 1)); [|done]); [done|]. cbn [ret].
  rewrite (Hrows id token) by by left. apply IH. intros id' token' H'. eapply Hrows. by right.
Qed.
Lemma reencrypt_rows_total answers e rows : (∀ i, is_Some (draw_nonce i)) → (∀ i, answers i = true) → ∀ i s, ∃ s', reencrypt_rows answers e i rows s = (Ok tt, s').
Proof.
  intros Hdraw Hup. induction rows as [|[id token] rows IH]; intros i s; cbn [reencrypt_rows]; unfold bind at 1, ensure at 1; rewrite Hup; cbn [ret]; [by eexists|].
  destruct (IsEncrypted token) eqn:Ht; [apply IH|]. unfold bind, lift, Encrypt, ensure. destruct (Hdraw i) as [n ->]. rewrite Ht, Hup.
  destruct (IsEmpty token); apply IH.
Qed.

End Facts.

(** * A cipher to run *)

(** The key in front of the text stands for its authentication. *)
#[local] Instance sample_gcm : Gcm := {|
  sha256_sum key := key +:+ "#";
  gcm_seal k n p := k +:+ p;
  gcm_open k n c := if HasPrefix c k then Some (TrimPrefix c k) else None;
  draw_nonce i := Some "nonce-nonce-";
|}.
#[local] Instance sample_gcm_laws : GcmLaws.
Proof.
  split; [|by intros i n [= <-]].
  intros k n p. cbn [gcm_open gcm_seal sample_gcm]. by rewrite HasPrefix_app, TrimPrefix_app.
Qed.

Definition old_key : string := "0123456789abcdef".
Definition new_key : string := "fedcba9876543210".
Definition encrypted (key plain : string) : string :=
  match Encrypt (mkEncryptor (sha256_sum key)) (draw_nonce 0) plain with Ok c => c | Err _ => "" end.
Definition stored : Secrets :=
  mkSecrets {["c1" := encrypted old_key "token-1"; "c2" := "in clear"; "c3" := ""]} {["u1" := encrypted old_key "SUSEED"]}.
Definition sample_rotation (concurrent : bool) : result err nat * Secrets :=
  RotateEncryptionKeys concurrent (Some (mkEncryptor (sha256_sum old_key))) old_key new_key false stored.
Definition reads (s : Secrets) (id : string) : option (result err string) :=
  decryptToken (Some (mkEncryptor (sha256_sum new_key))) <$> se_tokens s !! id.


(** The rotation changes the tokens of clusters only: the seeds of NATS users
    stay under the old key, and do not decrypt after the restart with the new. *)
Lemma rotation_loses_seeds :
  let s := snd (sample_rotation true) in
  (decryptToken (Some (mkEncryptor (sha256_sum old_key))) <$> se_seeds stored !! "u1") = Some (Ok "SUSEED") ∧
  (decryptToken (Some (mkEncryptor (sha256_sum new_key))) <$> se_seeds s !! "u1") = Some (Err (ErrMsg "decrypt credential")).
Proof. split; vm_compute; reflexivity. Qed.

(** The updates run in the transaction whose query is still open: where the driver
    refuses that, no rotation with a token succeeds. *)
Lemma rotation_with_open_rows : sample_rotation false = (Err ErrDB, stored).
Proof. vm_compute. reflexivity. Qed.

(** A credential that begins with the marker is stored in clear and never read
    back. *)
Lemma marked_credential_unreadable :
  let e := mkEncryptor (sha256_sum new_key) in
  Encrypt e (draw_nonce 0) "enc:secret" = Ok "enc:secret" ∧ is_Ok (Decrypt e "enc:secret") = false.
Proof. split; vm_compute; reflexivity. Qed.
