(* ===== verification/NatsAccounts.v ===== *)
(** NATS accounts: their users with keys and JWTs, their signing groups and
    exports.  internal/domain/nats_account.go, internal/repo/{nats_account,
    nats_jwt,signing_groups,subject_permissions}.go with their queries and
    migrations 008, 011-013, and the handlers of
    internal/api/accounts/handlers.go.  The service of
    internal/app/nats_account.go passes the calls on, and
    internal/app/policy/policy.go the decisions of [Authz].

    Nil and empty slices are one list, the JSON of time ranges in a column is the
    list.  [nkeys], [jwt] and the driver's reading of identifiers are the classes
    [NatsKeys] and [PgUUID]. *)

From S2P Require Export Crypto Access Subjects.
From S2P Require Import Rbac GoStrings.
From Stdlib Require Import Ascii.

(** * Data *)

Record NATSUserTimeRange := mkTimeRange { tr_Start : string; tr_End : string }.

(** The configuration of a NATS user: what a request sets, and what Create,
    Update and the row share. *)
Record NATSUserConfig := {
  nc_SigningGroup : string;
  nc_Tags : list string;
  nc_PubAllow : list string;
  nc_PubDeny : list string;
  nc_SubAllow : list string;
  nc_SubDeny : list string;
  nc_AllowedConnectionTypes : list string;
  nc_SrcCIDRs : list string;
  nc_TimesLocale : string;
  nc_TimeRanges : list NATSUserTimeRange;
  nc_MaxSubs : Z;
  nc_MaxPayload : Z;
  nc_MaxData : Z;
  nc_JWTLifetimeNs : Z;
  nc_RespMaxMsgs : Z;
  nc_RespTTLNs : Z;
  nc_BearerToken : bool;
  nc_ProxyRequired : bool;
}.

(** [HasJWT] and [JWTIssued] are always equal: [nu_HasJWT]. *)
Record NATSAccountUser := {
  nu_ID : string;
  nu_ClusterID : string;
  nu_AccountName : string;
  nu_Name : string;
  nu_PublicKey : string;
  nu_AssignedUserID : string;
  nu_config : NATSUserConfig;
  nu_HasJWT : bool;
  nu_CreatedAt : Z;
  nu_UpdatedAt : Z;
}.

Record NATSAccountUserCreds := mkCreds {
  cr_user : NATSAccountUser;
  cr_Seed : string;
  cr_JWT : string;
  cr_Cred : string;
}.

(** The limits and permissions of a group. *)
Record GroupConfig := {
  gc_PubAllow : list string;
  gc_PubDeny : list string;
  gc_SubAllow : list string;
  gc_SubDeny : list string;
  gc_MaxData : Z;
  gc_MaxPayload : Z;
  gc_MaxSubs : Z;
  gc_Scoped : bool;
}.
Record SigningGroup := mkGroup {
  sg_ID : string;
  sg_ClusterID : string;
  sg_AccountName : string;
  sg_Name : string;
  sg_config : GroupConfig;
  sg_CreatedAt : Z;
  sg_UpdatedAt : Z;
}.

Record NATSAccountExport := mkExport {
  ex_ID : string;
  ex_ClusterID : string;
  ex_AccountName : string;
  ex_Kind : string;
  ex_Name : string;
  ex_Subject : string;
  ex_Description : string;
  ex_CreatedAt : Z;
  ex_UpdatedAt : Z;
}.

(** A row of nats_account_users, without its id. *)
Record NATSUserRow := {
  nr_ClusterID : string;
  nr_AccountName : string;
  nr_Name : string;
  nr_PublicKey : string;
  nr_seed_encrypted : string;
  nr_jwt : string;
  nr_assigned : option string;
  nr_config : NATSUserConfig;
  nr_CreatedAt : Z;
  nr_UpdatedAt : Z;
}.

(** [nt_again]: whether the [i]-th statement a request sends after a write of its own
    is answered; the first statements of a request fail with [t_up]. *)
Record NTables := mkNTables {
  nt_clusters : gset string;
  nt_users : gmap string NATSUserRow;          (* by id *)
  nt_groups : gmap string SigningGroup;        (* by id *)
  nt_exports : gmap string NATSAccountExport;  (* by id *)
  nt_again : nat → bool;
}.
Definition set_nusers f n := mkNTables (nt_clusters n) (f (nt_users n)) (nt_groups n) (nt_exports n) (nt_again n).
Definition set_groups f n := mkNTables (nt_clusters n) (nt_users n) (f (nt_groups n)) (nt_exports n) (nt_again n).
Definition set_exports f n := mkNTables (nt_clusters n) (nt_users n) (nt_groups n) (f (nt_exports n)) (nt_again n).

(** * Third-party code *)

(** [jwt.UserClaims]: the fields that are set. *)
Record UserClaims := {
  jc_Subject : string;
  jc_Name : string;
  jc_Tags : list string;
  jc_PubAllow : list string;
  jc_PubDeny : list string;
  jc_SubAllow : list string;
  jc_SubDeny : list string;
  jc_Resp : option (Z * Z);
  jc_BearerToken : bool;
  jc_ProxyRequired : bool;
  jc_AllowedConnectionTypes : list string;
  jc_Src : list string;
  jc_Locale : string;
  jc_Times : list NATSUserTimeRange;
  jc_Payload : Z;
  jc_Subs : Z;
  jc_Data : Z;
  jc_Expires : Z;
}.

Class NatsKeys := {
  nkey_create : nat → option (string * string);          (* public key and seed *)
  nkey_public : string → option string;                  (* of a user seed *)
  account_key : string → bool;                           (* a seed *)
  jwt_encode : UserClaims → string → option string;      (* signed with the account seed *)
  noLimit : Z;                                           (* of [NewUserClaims] *)
  taglist_Add : list string → string → list string;
  stringlist_Add : list string → string → list string;
  cidrlist_Add : list string → string → list string;
}.
(** What the driver sends for a parameter of type uuid; [None]: an error. *)
Class PgUUID := { parse_uuid : string → option string }.

(** * Minting: internal/repo/nats_jwt.go *)

Section Mint.
Context `{NatsKeys}.

Definition userHasPerms (c : NATSUserConfig) : bool :=
  nonempty (nc_PubAllow c) || nonempty (nc_PubDeny c) || nonempty (nc_SubAllow c) || nonempty (nc_SubDeny c).

Definition add_nonempty (add : list string → string → list string) (l : list string) : list string :=
  foldl (λ acc s, if IsEmpty s then acc else add acc s) [] l.

(** The group whose permissions and limits apply: it was found and is scoped. *)
Definition scoped_group (group : result err SigningGroup) : option GroupConfig :=
  match group with
  | Ok g => if gc_Scoped (sg_config g) then Some (sg_config g) else None
  | Err _ => None
  end.

(** A limit of the user, of the group, or the one of [NewUserClaims]. *)
Definition limit_of (user : Z) (group : option Z) : Z :=
  if (0 <=? user)%Z then user
  else match group with
  | Some g => if (0 <=? g)%Z then g else noLimit
  | None => noLimit
  end.

(** The claims; [group] is what looking up the user's group gave. *)
Definition user_claims (now : Z) (upub name : string) (c : NATSUserConfig) (group : result err SigningGroup) : UserClaims :=
  let scoped := if userHasPerms c then None else scoped_group group in
  {| jc_Subject := upub; jc_Name := name;
     jc_Tags := add_nonempty taglist_Add (nc_Tags c);
     jc_PubAllow := if userHasPerms c then nc_PubAllow c else match scoped with Some g => gc_PubAllow g | None => [] end;
     jc_PubDeny := if userHasPerms c then nc_PubDeny c else match scoped with Some g => gc_PubDeny g | None => [] end;
     jc_SubAllow := if userHasPerms c then nc_SubAllow c else match scoped with Some g => gc_SubAllow g | None => [] end;
     jc_SubDeny := if userHasPerms c then nc_SubDeny c else match scoped with Some g => gc_SubDeny g | None => [] end;
     jc_Resp := if (0 <? nc_RespMaxMsgs c)%Z || (0 <? nc_RespTTLNs c)%Z
                then Some (nc_RespMaxMsgs c, nc_RespTTLNs c) else None;
     jc_BearerToken := nc_BearerToken c; jc_ProxyRequired := nc_ProxyRequired c;
     jc_AllowedConnectionTypes := add_nonempty stringlist_Add (nc_AllowedConnectionTypes c);
     jc_Src := add_nonempty cidrlist_Add (nc_SrcCIDRs c);
     jc_Locale := nc_TimesLocale c;
     jc_Times := List.filter (λ tr, negb (IsEmpty (tr_Start tr) && IsEmpty (tr_End tr))) (nc_TimeRanges c);
     jc_Payload := limit_of (nc_MaxPayload c) (gc_MaxPayload <$> scoped);
     jc_Subs := limit_of (nc_MaxSubs c) (gc_MaxSubs <$> scoped);
     jc_Data := limit_of (nc_MaxData c) (gc_MaxData <$> scoped);
     jc_Expires := if (0 <? nc_JWTLifetimeNs c)%Z then ((now + nc_JWTLifetimeNs c) / 1000000000)%Z else 0 |}.

(** The keys are parsed before the group is looked up. *)
Definition mint (now : Z) (name : string) (c : NATSUserConfig) (userSeed accountSeed : string)
    (group : result err SigningGroup) : result err string :=
  match nkey_public userSeed with
  | None => Err (ErrMsg "user seed")
  | Some upub =>
      if negb (account_key accountSeed) then Err (ErrMsg "account seed")
      else match jwt_encode (user_claims now upub name c group) accountSeed with
      | None => Err (ErrMsg "encode")
      | Some j => Ok j
      end
  end.
End Mint.

Definition formatCreds (userJWT seed : string) : string :=
  let nl := String (ascii_of_nat 10) "" in
  if IsEmpty userJWT
  then "-----BEGIN NATS USER SEED-----" +:+ nl +:+ seed +:+ nl +:+ "-----END NATS USER SEED-----" +:+ nl
  else "-----BEGIN NATS USER JWT-----" +:+ nl +:+ userJWT +:+ nl +:+ "------END NATS USER JWT------" +:+ nl +:+ nl +:+
       "-----BEGIN USER NKEY SEED-----" +:+ nl +:+ seed +:+ nl +:+ "------END USER NKEY SEED------" +:+ nl.

(** * The repository *)

Abbreviation NM := (M (Tables * NTables) err).
Definition auth_tables {A} (m : DBM A) : NM A := λ '(t, n), let '(r, t') := m t in (r, (t', n)).
Definition nget : NM NTables := let! s := get in ret (snd s).
Definition nmodify (f : NTables → NTables) : NM unit := modify (λ '(t, n), (t, f n)).
Definition ntransaction {A} (m : NM A) : NM A := λ s,
  match m s with
  | (Ok a, s') => (Ok a, s')
  | (Err e, _) => (Err e, s)
  end.

Section Repo.
Context `{Gcm} `{NatsKeys} `{PgUUID} (encryptor : option Encryptor).

(** A statement that takes identifiers: the driver refuses what is none. *)
Definition uuid_ (s : string) : NM string :=
  match parse_uuid s with Some u => ret u | None => fail ErrDB end.
Definition nonline : NM unit := auth_tables online.

(** The [i]-th statement after a write. *)
Definition again {A} (i : nat) (m : NM A) : NM A :=
  let! n := nget in if nt_again n i then m else fail ErrDB.

(** ** Rows *)

Definition user_of_nrow (id : string) (r : NATSUserRow) : NATSAccountUser := {|
  nu_ID := id; nu_ClusterID := nr_ClusterID r; nu_AccountName := nr_AccountName r; nu_Name := nr_Name r;
  nu_PublicKey := nr_PublicKey r; nu_AssignedUserID := default "" (nr_assigned r); nu_config := nr_config r;
  nu_HasJWT := negb (IsEmpty (nr_jwt r)); nu_CreatedAt := nr_CreatedAt r; nu_UpdatedAt := nr_UpdatedAt r |}.

Definition row_with_config c now (r : NATSUserRow) : NATSUserRow := {|
  nr_ClusterID := nr_ClusterID r; nr_AccountName := nr_AccountName r; nr_Name := nr_Name r;
  nr_PublicKey := nr_PublicKey r; nr_seed_encrypted := nr_seed_encrypted r; nr_jwt := nr_jwt r;
  nr_assigned := nr_assigned r; nr_config := c; nr_CreatedAt := nr_CreatedAt r; nr_UpdatedAt := now |}.
Definition row_with_keys pub seed jwt now (r : NATSUserRow) : NATSUserRow := {|
  nr_ClusterID := nr_ClusterID r; nr_AccountName := nr_AccountName r; nr_Name := nr_Name r;
  nr_PublicKey := pub; nr_seed_encrypted := seed; nr_jwt := jwt;
  nr_assigned := nr_assigned r; nr_config := nr_config r; nr_CreatedAt := nr_CreatedAt r; nr_UpdatedAt := now |}.
Definition row_with_jwt jwt now (r : NATSUserRow) : NATSUserRow :=
  row_with_keys (nr_PublicKey r) (nr_seed_encrypted r) jwt now r.
Definition row_with_assigned a now (r : NATSUserRow) : NATSUserRow := {|
  nr_ClusterID := nr_ClusterID r; nr_AccountName := nr_AccountName r; nr_Name := nr_Name r;
  nr_PublicKey := nr_PublicKey r; nr_seed_encrypted := nr_seed_encrypted r; nr_jwt := nr_jwt r;
  nr_assigned := a; nr_config := nr_config r; nr_CreatedAt := nr_CreatedAt r; nr_UpdatedAt := now |}.

Definition in_account (clusterID accountName : string) (r : NATSUserRow) : bool :=
  (nr_ClusterID r =s clusterID) && (nr_AccountName r =s accountName).

(** WHERE cluster_id = $1 AND account_name = $2 AND id = $3 *)
Definition find_nuser (clusterID accountName userID : string) : NM (option (string * NATSUserRow)) :=
  nonline ;;
  let! c := uuid_ clusterID in
  let! u := uuid_ userID in
  let! n := nget in
  ret (match nt_users n !! u with
       | Some r => if in_account c accountName r then Some (u, r) else None
       | None => None
       end).
(** UPDATE ... with the same condition; the number of rows. *)
Definition update_nuser (clusterID accountName userID : string) (f : NATSUserRow → NATSUserRow) : NM nat :=
  let! found := find_nuser clusterID accountName userID in
  match found with
  | Some (u, r) => nmodify (set_nusers <[u := f r]>) ;; ret 1
  | None => ret 0
  end.

Definition ListNATSAccountUsers (clusterID accountName : string) : NM (list NATSAccountUser) :=
  nonline ;;
  let! c := uuid_ clusterID in
  let! n := nget in
  ret (merge_sort (λ a b, String.le (nu_Name a) (nu_Name b))
         ((λ ur, user_of_nrow ur.1 ur.2) <$>
            List.filter (λ ur, in_account c accountName ur.2) (map_to_list (nt_users n)))).

Definition GetNATSAccountUser (clusterID accountName userID : string) : NM NATSAccountUser :=
  let! found := find_nuser clusterID accountName userID in
  match found with
  | Some (u, r) => ret (user_of_nrow u r)
  | None => fail ErrNotFound
  end.

Definition GetNATSAccountUserCreds (clusterID accountName userID : string) : NM NATSAccountUserCreds :=
  let! found := find_nuser clusterID accountName userID in
  match found with
  | Some (u, r) =>
      let! seed := lift (decryptToken encryptor (nr_seed_encrypted r)) in
      ret (mkCreds (user_of_nrow u r) seed (nr_jwt r) (formatCreds (nr_jwt r) seed))
  | None => fail ErrNotFound
  end.

(** ** Signing groups: internal/repo/signing_groups.go *)

Definition find_group_by_name (clusterID accountName name : string) (n : NTables) : option (string * SigningGroup) :=
  List.find (λ kg, (sg_ClusterID kg.2 =s clusterID) && (sg_AccountName kg.2 =s accountName) && (sg_Name kg.2 =s name))
    (map_to_list (nt_groups n)).

Definition default_group_config : GroupConfig := {|
  gc_PubAllow := []; gc_PubDeny := []; gc_SubAllow := []; gc_SubDeny := [];
  gc_MaxData := -1; gc_MaxPayload := -1; gc_MaxSubs := -1; gc_Scoped := false |}.

Definition cluster_exists (c : string) : NM unit :=
  let! n := nget in ensure (c ∈b nt_clusters n) ErrDB.

(** ON CONFLICT DO NOTHING *)
Definition EnsureDefaultSigningGroup (id : string) (now : Z) (clusterID accountName : string) : NM unit :=
  let accountName := if IsEmpty accountName then "Default" else accountName in
  nonline ;;
  let! c := uuid_ clusterID in
  let! n := nget in
  match find_group_by_name c accountName "Default" n with
  | Some _ => ret tt
  | None =>
      cluster_exists c ;;
      ensure (match nt_groups n !! id with Some _ => false | None => true end) ErrDB ;;
      nmodify (set_groups <[id := mkGroup id c accountName "Default" default_group_config now now]>)
  end.

Definition ListSigningGroups (newID : string) (now : Z) (clusterID accountName : string) : NM (list SigningGroup) :=
  EnsureDefaultSigningGroup newID now clusterID accountName ;;
  again 0 nonline ;;
  let! c := uuid_ clusterID in
  let! n := nget in
  ret (merge_sort (λ a b, String.le (sg_Name a) (sg_Name b))
         (List.filter (λ g, (sg_ClusterID g =s c) && (sg_AccountName g =s accountName)) (map_to_list (nt_groups n)).*2)).

Definition minus_one (x : Z) : Z := if (x =? 0)%Z then -1 else x.
Definition normalize_group (c : GroupConfig) : GroupConfig := {|
  gc_PubAllow := gc_PubAllow c; gc_PubDeny := gc_PubDeny c; gc_SubAllow := gc_SubAllow c; gc_SubDeny := gc_SubDeny c;
  gc_MaxData := minus_one (gc_MaxData c); gc_MaxPayload := minus_one (gc_MaxPayload c);
  gc_MaxSubs := minus_one (gc_MaxSubs c); gc_Scoped := gc_Scoped c |}.

Definition CreateSigningGroup (id : string) (now : Z) (clusterID accountName name : string) (cfg : GroupConfig) :
    NM SigningGroup :=
  let accountName := if IsEmpty accountName then "Default" else accountName in
  if IsEmpty name then fail (ErrMsg "name required")
  else
    let cfg := normalize_group cfg in
    nonline ;;
    let! c := uuid_ clusterID in
    cluster_exists c ;;
    let! n := nget in
    ensure (match find_group_by_name c accountName name n with Some _ => false | None => true end) ErrDB ;;
    ensure (match nt_groups n !! id with Some _ => false | None => true end) ErrDB ;;
    nmodify (set_groups <[id := mkGroup id c accountName name cfg now now]>) ;;
    ret (mkGroup id clusterID accountName name cfg now now).

Definition GetSigningGroup (clusterID accountName name : string) : NM SigningGroup :=
  nonline ;;
  let! c := uuid_ clusterID in
  let! n := nget in
  match find_group_by_name c accountName name n with
  | Some (_, g) => ret g
  | None => fail ErrNotFound
  end.

Definition find_group (clusterID accountName groupID : string) : NM (option (string * SigningGroup)) :=
  nonline ;;
  let! c := uuid_ clusterID in
  let! i := uuid_ groupID in
  let! n := nget in
  ret (match nt_groups n !! i with
       | Some g => if (sg_ClusterID g =s c) && (sg_AccountName g =s accountName) then Some (i, g) else None
       | None => None
       end).

Definition UpdateSigningGroup (now : Z) (clusterID accountName groupID : string) (cfg : GroupConfig) : NM SigningGroup :=
  let cfg := normalize_group cfg in
  let! found := find_group clusterID accountName groupID in
  match found with
  | None => fail ErrNotFound
  | Some (i, g) =>
      let g := mkGroup (sg_ID g) (sg_ClusterID g) (sg_AccountName g) (sg_Name g) cfg (sg_CreatedAt g) now in
      nmodify (set_groups <[i := g]>) ;;
      again 0 (
        let! found := find_group clusterID accountName groupID in
        match found with Some (_, g) => ret g | None => fail ErrDB end)
  end.

Definition group_in_use (c accountName name : string) (n : NTables) : bool :=
  existsb (λ ur, in_account c accountName ur.2 && (nc_SigningGroup (nr_config ur.2) =s name)) (map_to_list (nt_users n)).

(** The texts of [ErrSigningGroupProtected] and [ErrSigningGroupInUse]. *)
Definition ErrSigningGroupProtected : err := ErrMsg "default signing group cannot be deleted".
Definition ErrSigningGroupInUse : err := ErrMsg "signing group is still used by one or more NATS users".

Definition DeleteSigningGroup (clusterID accountName groupID : string) : NM unit :=
  let! found := find_group clusterID accountName groupID in
  match found with
  | None => fail ErrNotFound
  | Some (i, g) =>
      if sg_Name g =s "Default" then fail ErrSigningGroupProtected
      else
        let! n := nget in
        let! c := uuid_ clusterID in
        if group_in_use c accountName (sg_Name g) n then fail ErrSigningGroupInUse
        else nmodify (set_groups (delete i))
  end.

(** ** Users: internal/repo/nats_account.go *)

(** [normalizeUserCreateLimits], [normalizeUserUpdateLimits] and the default
    group. *)
Definition normalizeLimits (c : NATSUserConfig) : NATSUserConfig := {|
  nc_SigningGroup := if IsEmpty (nc_SigningGroup c) then "Default" else nc_SigningGroup c;
  nc_Tags := nc_Tags c; nc_PubAllow := nc_PubAllow c; nc_PubDeny := nc_PubDeny c;
  nc_SubAllow := nc_SubAllow c; nc_SubDeny := nc_SubDeny c;
  nc_AllowedConnectionTypes := nc_AllowedConnectionTypes c; nc_SrcCIDRs := nc_SrcCIDRs c;
  nc_TimesLocale := nc_TimesLocale c; nc_TimeRanges := nc_TimeRanges c;
  nc_MaxSubs := minus_one (nc_MaxSubs c); nc_MaxPayload := minus_one (nc_MaxPayload c);
  nc_MaxData := minus_one (nc_MaxData c); nc_JWTLifetimeNs := nc_JWTLifetimeNs c;
  nc_RespMaxMsgs := nc_RespMaxMsgs c; nc_RespTTLNs := nc_RespTTLNs c;
  nc_BearerToken := nc_BearerToken c; nc_ProxyRequired := nc_ProxyRequired c |}.

(** Errors of the lookup of the group are ignored by [user_claims]. *)
Definition mintUserJWT (now : Z) (clusterID accountName name : string) (c : NATSUserConfig)
    (userSeed accountSeed : string) : NM string :=
  let! group := attempt (GetSigningGroup clusterID accountName (nc_SigningGroup c)) in
  lift (mint now name c userSeed accountSeed group).

(** "" without an account seed. *)
Definition maybe_mint (now : Z) (clusterID accountName name : string) (c : NATSUserConfig)
    (userSeed accountSeed : string) : NM string :=
  if IsEmpty accountSeed then ret "" else mintUserJWT now clusterID accountName name c userSeed accountSeed.

(** A new key pair and its encrypted seed. *)
Definition new_keys (draw : nat) : NM (string * string * string) :=
  match nkey_create draw with
  | None => fail (ErrMsg "nkeys")
  | Some (pub, seed) =>
      let! enc := lift (encryptToken encryptor (draw_nonce draw) seed) in
      ret (pub, seed, enc)
  end.

(** INSERT: the cluster exists, the name is new in its account. *)
Definition insert_nuser (id clusterID accountName : string) (row : string → NATSUserRow) : NM unit :=
  nonline ;;
  let! c := uuid_ clusterID in
  cluster_exists c ;;
  let! n := nget in
  ensure (negb (existsb (λ ur, in_account c accountName ur.2 && (nr_Name ur.2 =s nr_Name (row c)))
                  (map_to_list (nt_users n)))) ErrDB ;;
  ensure (match nt_users n !! id with Some _ => false | None => true end) ErrDB ;;
  nmodify (set_nusers <[id := row c]>).

(** [gid] and [id] are the two identifiers drawn. *)
Definition CreateNATSAccountUserWithSeed (draw : nat) (gid id : string) (now : Z)
    (clusterID accountName name : string) (cfg : NATSUserConfig) (accountSeed : string) : NM NATSAccountUserCreds :=
  let cfg := normalizeLimits cfg in
  let accountName := if IsEmpty accountName then "Default" else accountName in
  EnsureDefaultSigningGroup gid now clusterID accountName ;;
  let! keys := new_keys draw in
  let '(pub, seed, encSeed) := keys in
  let! userJWT := maybe_mint now clusterID accountName name cfg seed accountSeed in
  again 0 (insert_nuser id clusterID accountName (λ c, {|
    nr_ClusterID := c; nr_AccountName := accountName; nr_Name := name; nr_PublicKey := pub;
    nr_seed_encrypted := encSeed; nr_jwt := userJWT; nr_assigned := None; nr_config := cfg;
    nr_CreatedAt := now; nr_UpdatedAt := now |})) ;;
  ret (mkCreds {|
    nu_ID := id; nu_ClusterID := clusterID; nu_AccountName := accountName; nu_Name := name;
    nu_PublicKey := pub; nu_AssignedUserID := ""; nu_config := cfg;
    nu_HasJWT := negb (IsEmpty userJWT); nu_CreatedAt := now; nu_UpdatedAt := now |}
    seed userJWT (formatCreds userJWT seed)).

Definition user_reissued (pub : string) (hasJWT : bool) (now : Z) (u : NATSAccountUser) : NATSAccountUser := {|
  nu_ID := nu_ID u; nu_ClusterID := nu_ClusterID u; nu_AccountName := nu_AccountName u; nu_Name := nu_Name u;
  nu_PublicKey := pub; nu_AssignedUserID := nu_AssignedUserID u; nu_config := nu_config u;
  nu_HasJWT := hasJWT; nu_CreatedAt := nu_CreatedAt u; nu_UpdatedAt := now |}.

(** Not a transaction: the configuration stays when minting fails. *)
Definition UpdateNATSAccountUser (now : Z) (clusterID accountName userID : string) (cfg : NATSUserConfig)
    (accountSeed : string) : NM NATSAccountUser :=
  let cfg := normalizeLimits cfg in
  let! existing := GetNATSAccountUserCreds clusterID accountName userID in
  update_nuser clusterID accountName userID (row_with_config cfg now) ;;
  let! updated := again 0 (GetNATSAccountUser clusterID accountName userID) in
  if IsEmpty accountSeed then ret updated
  else
    let! userJWT := mintUserJWT now clusterID accountName (nu_Name updated) (nu_config updated)
                      (cr_Seed existing) accountSeed in
    again 1 (update_nuser clusterID accountName userID (row_with_jwt userJWT now)) ;;
    ret (user_reissued (nu_PublicKey updated) true now updated).

Definition RotateNATSAccountUser (draw : nat) (now : Z) (clusterID accountName userID accountSeed : string) :
    NM NATSAccountUserCreds :=
  let! existing := GetNATSAccountUser clusterID accountName userID in
  let! keys := new_keys draw in
  let '(pub, seed, encSeed) := keys in
  let! userJWT := maybe_mint now clusterID accountName (nu_Name existing) (nu_config existing) seed accountSeed in
  update_nuser clusterID accountName userID (row_with_keys pub encSeed userJWT now) ;;
  ret (mkCreds (user_reissued pub (negb (IsEmpty userJWT)) now existing) seed userJWT (formatCreds userJWT seed)).

Definition MintNATSAccountUserJWT (now : Z) (clusterID accountName userID accountSeed : string) : NM NATSAccountUserCreds :=
  if IsEmpty accountSeed then fail (ErrMsg "NATS_ACCOUNT_SEED is not configured")
  else
    let! creds := GetNATSAccountUserCreds clusterID accountName userID in
    let user := cr_user creds in
    let! userJWT := mintUserJWT now clusterID accountName (nu_Name user) (nu_config user) (cr_Seed creds) accountSeed in
    update_nuser clusterID accountName userID (row_with_jwt userJWT now) ;;
    ret (mkCreds (user_reissued (nu_PublicKey user) true now user) (cr_Seed creds) userJWT
           (formatCreds userJWT (cr_Seed creds))).

Definition domainAccountNATSUserKey (clusterID accountName natsUserID : string) : string :=
  NATSUserResourceKey clusterID accountName natsUserID.

(** DELETE ... RETURNING user_id *)
Definition delete_grants (resourceType resourceKey : string) : NM (list string) :=
  nonline ;;
  let! s := get in
  let gone kg := (g_ResourceType kg.2 =s resourceType) && (g_ResourceKey kg.2 =s resourceKey) in
  auth_tables (modify (set_grants (filter (λ kg : string * AccessGrant, gone kg = false)))) ;;
  ret ((λ kg, g_UserID kg.2) <$> List.filter gone (map_to_list (t_grants (fst s)))).

Fixpoint first_occurrences (seen l : list string) : list string :=
  match l with
  | [] => []
  | x :: l => if x ∈b seen then first_occurrences seen l else x :: first_occurrences (x :: seen) l
  end.

(** The console users whose grants went. *)
Definition DeleteNATSAccountUser (clusterID accountName userID : string) : NM (list string) :=
  ntransaction (
    let! uids := delete_grants ResourceNATSUser (domainAccountNATSUserKey clusterID accountName userID) in
    let! found := find_nuser clusterID accountName userID in
    match found with
    | None => fail ErrNotFound
    | Some (u, _) =>
        nmodify (set_nusers (delete u)) ;;
        ret (first_occurrences [] uids)
    end).

(** ** A person for a NATS user *)

Definition delete_grant_by_resource (userID rtype rkey : string) : NM unit :=
  nonline ;;
  auth_tables (modify (set_grants (filter (λ kg : string * AccessGrant, same_grant userID rtype rkey kg.2 = false)))).

Definition upsert_grant (id userID rtype rkey role : string) : NM unit :=
  nonline ;;
  let! u := uuid_ userID in
  let! s := get in
  let row id := {| g_ID := id; g_UserID := u; g_ResourceType := rtype; g_ResourceKey := rkey; g_Role := role |} in
  match find_grant u rtype rkey (fst s) with
  | Some (old, _) => auth_tables (modify (set_grants <[old := row old]>))
  | None =>
      ensure (match t_users (fst s) !! u with Some _ => true | None => false end) ErrDB ;;
      ensure (match t_grants (fst s) !! id with Some _ => false | None => true end) ErrDB ;;
      auth_tables (modify (set_grants <[id := row id]>))
  end.

(** [assigned]: NULL for nobody. *)
Definition assigned_param (consoleUserID : string) : NM (option string) :=
  if IsEmpty consoleUserID then ret None else let! u := uuid_ consoleUserID in ret (Some u).
(** The foreign key of [assigned_user_id]. *)
Definition person_exists (assigned : option string) : NM unit :=
  let! s := get in
  ensure (match assigned with
          | None => true
          | Some u => match t_users (fst s) !! u with Some _ => true | None => false end
          end) ErrDB.

(** The transaction; [prevAssignee] was read before it began. *)
Definition assign_tx (grantID : string) (now : Z) (clusterID accountName natsUserID consoleUserID prevAssignee : string) :
    NM unit :=
  ntransaction (
    let! assigned := assigned_param consoleUserID in
    let! found := find_nuser clusterID accountName natsUserID in
    match found with
    | None => fail ErrNotFound
    | Some (u, r) =>
        person_exists assigned ;;
        nmodify (set_nusers <[u := row_with_assigned assigned now r]>) ;;
        let resourceKey := domainAccountNATSUserKey clusterID accountName natsUserID in
        (if negb (IsEmpty prevAssignee) && (prevAssignee <>s consoleUserID)
         then delete_grant_by_resource prevAssignee ResourceNATSUser resourceKey else ret tt) ;;
        if IsEmpty consoleUserID then ret tt
        else upsert_grant grantID consoleUserID ResourceNATSUser resourceKey GrantCredentialDownloader
    end).

Definition AssignNATSAccountUserPerson (grantID : string) (now : Z)
    (clusterID accountName natsUserID consoleUserID : string) : NM NATSAccountUser :=
  let! current := GetNATSAccountUser clusterID accountName natsUserID in
  assign_tx grantID now clusterID accountName natsUserID consoleUserID (nu_AssignedUserID current) ;;
  again 0 (GetNATSAccountUser clusterID accountName natsUserID).

(** ** Exports *)

Definition ListNATSAccountExports (clusterID accountName kind : string) : NM (list NATSAccountExport) :=
  nonline ;;
  let! c := uuid_ clusterID in
  let! n := nget in
  ret (merge_sort (λ a b, String.le (ex_Name a) (ex_Name b))
         (List.filter (λ e, (ex_ClusterID e =s c) && (ex_AccountName e =s accountName) &&
                            ((kind =s "") || (ex_Kind e =s kind))) (map_to_list (nt_exports n)).*2)).

Definition export_named (c accountName kind name : string) (e : NATSAccountExport) : bool :=
  (ex_ClusterID e =s c) && (ex_AccountName e =s accountName) && (ex_Kind e =s kind) && (ex_Name e =s name).

(** CHECK (kind IN ...), UNIQUE (cluster_id, account_name, kind, name) *)
Definition CreateNATSAccountExport (id : string) (now : Z)
    (clusterID accountName kind name subject description : string) : NM NATSAccountExport :=
  let accountName := if IsEmpty accountName then "Default" else accountName in
  nonline ;;
  let! c := uuid_ clusterID in
  cluster_exists c ;;
  ensure (kind ∈b ["service"; "stream"; "feed"]) ErrDB ;;
  let! n := nget in
  ensure (negb (existsb (λ e, export_named c accountName kind name e.2) (map_to_list (nt_exports n)))) ErrDB ;;
  ensure (match nt_exports n !! id with Some _ => false | None => true end) ErrDB ;;
  let item := mkExport id c accountName kind name subject description now now in
  nmodify (set_exports <[id := item]>) ;;
  ret item.

Definition find_export (clusterID accountName exportID : string) : NM (option (string * NATSAccountExport)) :=
  nonline ;;
  let! c := uuid_ clusterID in
  let! i := uuid_ exportID in
  let! n := nget in
  ret (match nt_exports n !! i with
       | Some e => if (ex_ClusterID e =s c) && (ex_AccountName e =s accountName) then Some (i, e) else None
       | None => None
       end).

Definition UpdateNATSAccountExport (now : Z) (clusterID accountName exportID name subject description : string) :
    NM NATSAccountExport :=
  let! found := find_export clusterID accountName exportID in
  match found with
  | None => fail ErrNotFound
  | Some (i, e) =>
      let! n := nget in
      ensure (negb (existsb (λ je, (je.1 <>s i) && export_named (ex_ClusterID e) accountName (ex_Kind e) name je.2)
                      (map_to_list (nt_exports n)))) ErrDB ;;
      let item := mkExport (ex_ID e) (ex_ClusterID e) (ex_AccountName e) (ex_Kind e) name subject description
                    (ex_CreatedAt e) now in
      nmodify (set_exports <[i := item]>) ;;
      ret item
  end.

Definition DeleteNATSAccountExport (clusterID accountName exportID : string) : NM unit :=
  let! found := find_export clusterID accountName exportID in
  match found with
  | None => fail ErrNotFound
  | Some (i, _) => nmodify (set_exports (delete i))
  end.
End Repo.

(** ** Who may use a subject: internal/repo/subject_permissions.go *)

Record SubjectPermissionEntry := mkEntry {
  se_UserID : string;
  se_Name : string;
  se_SigningGroup : string;
  se_AssignedUserID : string;
  se_Source : string;
  se_MatchedPattern : string;
}.
Record SubjectPermissionsResult := mkPermissions {
  sr_Subject : string;
  sr_Publish : list SubjectPermissionEntry;
  sr_Subscribe : list SubjectPermissionEntry;
  sr_QueueSubscribe : list SubjectPermissionEntry;
}.

(** [groupByName]: the last group of a name. *)
Definition groupByName (groups : list SigningGroup) (name : string) : option SigningGroup :=
  foldl (λ acc g, if sg_Name g =s name then Some g else acc) None groups.

Definition perm_group (g : SigningGroup) : PermGroup := {|
  pg_PubAllow := gc_PubAllow (sg_config g); pg_PubDeny := gc_PubDeny (sg_config g);
  pg_SubAllow := gc_SubAllow (sg_config g); pg_SubDeny := gc_SubDeny (sg_config g);
  pg_Scoped := gc_Scoped (sg_config g) |}.
Definition perm_user (c : NATSUserConfig) : PermUser := {|
  pu_PubAllow := nc_PubAllow c; pu_PubDeny := nc_PubDeny c;
  pu_SubAllow := nc_SubAllow c; pu_SubDeny := nc_SubDeny c |}.

Definition effective_perms (groups : list SigningGroup) (u : NATSAccountUser) : EffectiveSubjectPerms :=
  ResolveEffectivePerms (perm_user (nu_config u)) (perm_group <$> groupByName groups (nc_SigningGroup (nu_config u))).

Definition entry_of (source pattern : string) (u : NATSAccountUser) : SubjectPermissionEntry :=
  mkEntry (nu_ID u) (nu_Name u) (nc_SigningGroup (nu_config u)) (nu_AssignedUserID u) source pattern.

(** The entries of those whom the lists allow. *)
Definition permitted_entries (subject : string) (groups : list SigningGroup)
    (lists : EffectiveSubjectPerms → list string * list string) (users : list NATSAccountUser) :
    list SubjectPermissionEntry :=
  omap (λ u,
    let e := effective_perms groups u in
    let '(allow, deny) := lists e in
    let '(allowed, pattern) := Permitted subject allow deny in
    if allowed then Some (entry_of (ep_Source e) pattern u) else None) users.

Definition pub_lists (e : EffectiveSubjectPerms) := (ep_PubAllow e, ep_PubDeny e).
Definition sub_lists (e : EffectiveSubjectPerms) := (ep_SubAllow e, ep_SubDeny e).

Definition ListSubjectPermissions `{PgUUID} (newID : string) (now : Z) (clusterID accountName subject : string) :
    NM SubjectPermissionsResult :=
  let subject := TrimSpace subject in
  let! users := ListNATSAccountUsers clusterID accountName in
  let! groups := ListSigningGroups newID now clusterID accountName in
  let subs := permitted_entries subject groups sub_lists users in
  ret (mkPermissions subject (permitted_entries subject groups pub_lists users) subs subs).
