(* ===== verification/AccountHandlers.v ===== *)
(** The handlers of NATS accounts: internal/api/accounts/handlers.go, over the
    tables of [NatsAccounts] and the authentication service.

    A handler takes the user of the request context, the parameters of the route
    and of the query, and the decoded body ([None]: it does not decode). *)

From S2P Require Export NatsAccounts.
From S2P Require Import Rbac GoStrings.
From Stdlib Require Import Ascii.

(** * Answers *)

Inductive ndata :=
  | NNone
  | NUser (u : NATSAccountUser) | NUsers (l : list NATSAccountUser)
  | NCreds (c : NATSAccountUserCreds)
  | NPermissions (r : SubjectPermissionsResult)
  | NGroup (g : SigningGroup) | NGroups (l : list SigningGroup)
  | NExport (e : NATSAccountExport) | NExports (l : list NATSAccountExport).
Record nanswer := mkNAnswer { na_Status : Z; na_Data : ndata }.
Definition nstatus (code : Z) : nanswer := mkNAnswer code NNone.

(** ** Requests *)

Record natsUserConfigRequest := mkUserRequest {
  ur_Name : string;
  ur_AccountName : string;
  ur_config : NATSUserConfig;
}.
Record createSigningGroupRequest := mkGroupRequest {
  gr_Name : string;
  gr_AccountName : string;
  gr_config : GroupConfig;
}.
Record createExportRequest := mkExportRequest {
  er_AccountName : string;
  er_Kind : string;
  er_Name : string;
  er_Subject : string;
  er_Description : string;
}.

Abbreviation HM := (M (Service * NTables) err).

(** * Who sees what *)

(** True for cluster-wide or account-level grants. *)
Definition canListAllAccountNATSUsers (user : User) (clusterID account : string) : bool :=
  if CanAccessCluster user clusterID then true
  else existsb (λ g, (g_ResourceType g =s ResourceAccount) &&
                     (g_ResourceKey g =s AccountResourceKey clusterID account)) (u_Grants user).

Definition granted_id (prefix : string) (g : AccessGrant) : option string :=
  if negb (g_ResourceType g =s ResourceNATSUser) then None
  else if negb (HasPrefix (g_ResourceKey g) prefix) then None
  else let id := TrimPrefix (g_ResourceKey g) prefix in
       if IsEmpty id || ContainsByte id ":" then None else Some id.
Definition grantedNATSUserIDs (user : User) (clusterID account : string) : list string :=
  omap (granted_id (AccountResourceKey clusterID account +:+ ":")) (u_Grants user).

Definition canViewNATSUser (user : User) (clusterID account natsUserID : string) : bool :=
  if canListAllAccountNATSUsers user clusterID account then true
  else natsUserID ∈b grantedNATSUserIDs user clusterID account.

Definition filterNATSUsersForGrants (user : User) (clusterID account : string) (users : list NATSAccountUser) :
    list NATSAccountUser :=
  if canListAllAccountNATSUsers user clusterID account then users
  else
    let allowed := grantedNATSUserIDs user clusterID account in
    if Nat.eqb (length allowed) 0 then []
    else List.filter (λ u, nu_ID u ∈b allowed) users.

Definition filterSubjectPermissionEntries (entries : list SubjectPermissionEntry) (allowed : list string) :
    list SubjectPermissionEntry :=
  if Nat.eqb (length entries) 0 then entries else List.filter (λ e, se_UserID e ∈b allowed) entries.

Definition filterSubjectPermissionsForGrants (user : User) (clusterID account : string)
    (r : SubjectPermissionsResult) : SubjectPermissionsResult :=
  let allowed := grantedNATSUserIDs user clusterID account in
  if Nat.eqb (length allowed) 0 then mkPermissions (sr_Subject r) [] [] []
  else mkPermissions (sr_Subject r) (filterSubjectPermissionEntries (sr_Publish r) allowed)
         (filterSubjectPermissionEntries (sr_Subscribe r) allowed)
         (filterSubjectPermissionEntries (sr_QueueSubscribe r) allowed).

(** The check of [requireMutateAccountAccess]. *)
Definition may_mutate (user : User) (cid account : string) : bool :=
  if negb (CanAccessAccount user cid account) then false
  else CanManageAccountAccess user cid account || CanWriteCluster user cid.

Definition redacted (c : NATSAccountUserCreds) : NATSAccountUserCreds := mkCreds (cr_user c) "" "" "".

(** The query's account, else the route's, else "Default". *)
Definition accountFromCtx (query route : string) : string :=
  let account := if IsEmpty query then route else query in
  if IsEmpty account then "Default" else account.

(** * Handlers *)

Section Handlers.
Context `{AuthLib} `{GoUnicode} `{Gcm} `{NatsKeys} `{PgUUID}.
(** [cfg.NATS.AccountSeed] and the cipher of the database. *)
Context (AccountSeed : string) (encryptor : option Encryptor).

(** A call of the repository, and one of the authentication service. *)
Definition ndb {A} (m : NM A) : HM A := λ '(s, n),
  match s_db s with
  | None => (Err ErrDB, (s, n))
  | Some t => let '(r, (t', n')) := m (t, n) in (r, (set_db (Some t') s, n'))
  end.
Definition auth {A} (m : AM A) : HM A := λ '(s, n), let '(r, s') := m s in (r, (s', n)).

Definition account_status (e : err) : Z :=
  if bool_decide (e = ErrSigningGroupProtected) || bool_decide (e = ErrSigningGroupInUse) then 409 else api_status e.

(** What an error is answered with: [WriteAPIError], 404 or that, 400, 404 or 400. *)
Definition not_found_or (other : err → Z) (e : err) : Z := if bool_decide (e = ErrNotFound) then 404 else other e.
Definition bad_request (e : err) : Z := 400.

Definition call {A} (on_error : err → Z) (m : NM A) (k : A → HM nanswer) : HM nanswer :=
  let! r := attempt (ndb m) in
  match r with Ok a => k a | Err e => ret (nstatus (on_error e)) end.

(** [user] of the context, or 401; [403] unless the check holds. *)
Definition require (actor : option User) (check : User → bool) (k : User → HM nanswer) : HM nanswer :=
  match actor with
  | None => ret (nstatus 401)
  | Some user => if check user then k user else ret (nstatus 403)
  end.
Definition requireAccountAccess actor cid account := require actor (λ user, CanAccessAccount user cid account).
Definition requireManageAccountAccess actor cid account := require actor (λ user, CanManageAccountAccess user cid account).
Definition requireMutateAccountAccess actor cid account := require actor (λ user, may_mutate user cid account).
Definition requireDownloadCreds actor cid account natsUserID :=
  require actor (λ user, CanDownloadCreds user cid account natsUserID).

(** [apikit.ClusterID] *)
Definition ClusterID (route : string) : string := ToLower route.

Definition natsUserIDFromCtx (userID : string) (k : HM nanswer) : HM nanswer :=
  if ValidateUUID userID then k else ret (nstatus 400).

Definition nnow : HM Z := auth now_.
Definition ndraw : HM nat := let! s := get in auth (modify (set_draws (S (s_draws (fst s))))) ;; ret (s_draws (fst s)).
Definition nid : HM string := auth draw_id.

(** ** Users *)

Definition ListUsers (actor : option User) (cluster query : string) : HM nanswer :=
  let cid := ClusterID cluster in
  let account := accountFromCtx query "" in
  requireAccountAccess actor cid account (λ user,
  call account_status (ListNATSAccountUsers cid account) (λ users,
  ret (mkNAnswer 200 (NUsers (filterNATSUsersForGrants user cid account users))))).

Definition SubjectPermissions (actor : option User) (cluster query subject : string) : HM nanswer :=
  let subject := TrimSpace subject in
  if IsEmpty subject then ret (nstatus 400)
  else
    let cid := ClusterID cluster in
    let account := accountFromCtx query "" in
    requireAccountAccess actor cid account (λ user,
    let! id := nid in
    let! now := nnow in
    call account_status (ListSubjectPermissions id now cid account subject) (λ result,
    ret (mkNAnswer 200 (NPermissions
      (if canListAllAccountNATSUsers user cid account then result
       else filterSubjectPermissionsForGrants user cid account result))))).

Definition GetUser (actor : option User) (cluster query userID : string) : HM nanswer :=
  natsUserIDFromCtx userID (
  let account := accountFromCtx query "" in
  let cid := ClusterID cluster in
  requireAccountAccess actor cid account (λ user,
  if negb (canViewNATSUser user cid account userID) then ret (nstatus 403)
  else call (not_found_or account_status) (GetNATSAccountUser cid account userID) (λ u,
       ret (mkNAnswer 200 (NUser u))))).

(** Secrets are removed unless the actor may download them. *)
Definition redactNATSCredsUnlessAllowed (user : User) (cid account : string) (creds : NATSAccountUserCreds) :
    NATSAccountUserCreds :=
  if CanDownloadCreds user cid account (nu_ID (cr_user creds)) then creds else redacted creds.

Definition CreateUser (actor : option User) (cluster : string) (body : option natsUserConfigRequest) : HM nanswer :=
  match body with
  | None => ret (nstatus 400)
  | Some req =>
      if IsEmpty (ur_Name req) then ret (nstatus 400)
      else
        let account := if IsEmpty (ur_AccountName req) then "Default" else ur_AccountName req in
        match ValidateAccountName account with
        | Some _ => ret (nstatus 400)
        | None =>
            let cid := ClusterID cluster in
            requireMutateAccountAccess actor cid account (λ user,
            let! gid := nid in
            let! draw := ndraw in
            let! id := nid in
            let! now := nnow in
            call bad_request (CreateNATSAccountUserWithSeed encryptor draw gid id now cid account
                                (ur_Name req) (ur_config req) AccountSeed) (λ creds,
            ret (mkNAnswer 201 (NCreds (redactNATSCredsUnlessAllowed user cid account creds)))))
        end
  end.

Definition UpdateUser (actor : option User) (cluster query userID : string) (body : option natsUserConfigRequest) :
    HM nanswer :=
  natsUserIDFromCtx userID (
  match body with
  | None => ret (nstatus 400)
  | Some req =>
      let account := accountFromCtx query "" in
      let cid := ClusterID cluster in
      requireMutateAccountAccess actor cid account (λ _,
      let! now := nnow in
      call (not_found_or bad_request)
        (UpdateNATSAccountUser encryptor now cid account userID (ur_config req) AccountSeed) (λ u,
      ret (mkNAnswer 200 (NUser u))))
  end).

Fixpoint invalidate_all (ids : list string) : AM unit :=
  match ids with [] => ret tt | id :: ids => InvalidateUser id ;; invalidate_all ids end.

Definition DeleteUser (actor : option User) (cluster query userID : string) : HM nanswer :=
  natsUserIDFromCtx userID (
  let account := accountFromCtx query "" in
  let cid := ClusterID cluster in
  requireMutateAccountAccess actor cid account (λ _,
  call (not_found_or account_status) (DeleteNATSAccountUser cid account userID) (λ affected,
  auth (invalidate_all affected) ;;
  ret (nstatus 204)))).

Definition DownloadCreds (actor : option User) (cluster query userID : string) : HM nanswer :=
  natsUserIDFromCtx userID (
  let account := accountFromCtx query "" in
  let cid := ClusterID cluster in
  requireAccountAccess actor cid account (λ _,
  requireDownloadCreds actor cid account userID (λ _,
  call (not_found_or account_status) (GetNATSAccountUserCreds encryptor cid account userID) (λ creds,
  ret (mkNAnswer 200 (NCreds creds)))))).

Definition RotateUser (actor : option User) (cluster query userID : string) : HM nanswer :=
  natsUserIDFromCtx userID (
  let account := accountFromCtx query "" in
  let cid := ClusterID cluster in
  requireMutateAccountAccess actor cid account (λ _,
  let! draw := ndraw in
  let! now := nnow in
  call (not_found_or bad_request) (RotateNATSAccountUser encryptor draw now cid account userID AccountSeed) (λ creds,
  ret (mkNAnswer 200 (NCreds creds))))).

Definition MintJWT (actor : option User) (cluster query userID : string) : HM nanswer :=
  natsUserIDFromCtx userID (
  let account := accountFromCtx query "" in
  let cid := ClusterID cluster in
  requireAccountAccess actor cid account (λ _,
  requireDownloadCreds actor cid account userID (λ _,
  let! now := nnow in
  call (not_found_or bad_request) (MintNATSAccountUserJWT encryptor now cid account userID AccountSeed) (λ creds,
  ret (mkNAnswer 200 (NCreds creds)))))).

Definition AssignPerson (actor : option User) (cluster query natsUserID : string) (body : option string) : HM nanswer :=
  natsUserIDFromCtx natsUserID (
  let account := accountFromCtx query "" in
  let cid := ClusterID cluster in
  requireManageAccountAccess actor cid account (λ _,
  match body with
  | None => ret (nstatus 400)
  | Some person =>
      call (not_found_or account_status) (GetNATSAccountUser cid account natsUserID) (λ prev,
      let! id := nid in
      let! now := nnow in
      call (not_found_or bad_request) (AssignNATSAccountUserPerson id now cid account natsUserID person) (λ user,
      (if negb (IsEmpty (nu_AssignedUserID prev)) && (nu_AssignedUserID prev <>s person)
       then auth (InvalidateUser (nu_AssignedUserID prev)) else ret tt) ;;
      (if negb (IsEmpty person) then auth (InvalidateUser person) else ret tt) ;;
      ret (mkNAnswer 200 (NUser user))))
  end)).

(** ** Signing groups *)

Definition ListGroups (actor : option User) (cluster query : string) : HM nanswer :=
  let account := accountFromCtx query "" in
  let cid := ClusterID cluster in
  requireAccountAccess actor cid account (λ user,
  if negb (canListAllAccountNATSUsers user cid account) then ret (nstatus 403)
  else
    let! id := nid in
    let! now := nnow in
    call account_status (ListSigningGroups id now cid account) (λ groups, ret (mkNAnswer 200 (NGroups groups)))).

Definition CreateGroup (actor : option User) (cluster query : string) (body : option createSigningGroupRequest) :
    HM nanswer :=
  match body with
  | None => ret (nstatus 400)
  | Some req =>
      let account := if IsEmpty (gr_AccountName req) then accountFromCtx query "" else gr_AccountName req in
      match ValidateAccountName account with
      | Some _ => ret (nstatus 400)
      | None =>
          let cid := ClusterID cluster in
          requireMutateAccountAccess actor cid account (λ _,
          let! id := nid in
          let! now := nnow in
          call bad_request (CreateSigningGroup id now cid account (gr_Name req) (gr_config req)) (λ g,
          ret (mkNAnswer 201 (NGroup g))))
      end
  end.

Definition UpdateGroup (actor : option User) (cluster query groupID : string) (body : option createSigningGroupRequest) :
    HM nanswer :=
  match body with
  | None => ret (nstatus 400)
  | Some req =>
      let account := accountFromCtx query "" in
      let cid := ClusterID cluster in
      requireMutateAccountAccess actor cid account (λ _,
      let! now := nnow in
      call (not_found_or account_status) (UpdateSigningGroup now cid account groupID (gr_config req)) (λ g,
      ret (mkNAnswer 200 (NGroup g))))
  end.

Definition DeleteGroup (actor : option User) (cluster query groupID : string) : HM nanswer :=
  let account := accountFromCtx query "" in
  let cid := ClusterID cluster in
  requireMutateAccountAccess actor cid account (λ _,
  call account_status (DeleteSigningGroup cid account groupID) (λ _, ret (nstatus 204))).

(** ** Exports *)

Definition ListExports (actor : option User) (cluster query kind : string) : HM nanswer :=
  let account := accountFromCtx query "" in
  let cid := ClusterID cluster in
  requireAccountAccess actor cid account (λ user,
  if negb (canListAllAccountNATSUsers user cid account) then ret (nstatus 403)
  else call account_status (ListNATSAccountExports cid account kind) (λ items, ret (mkNAnswer 200 (NExports items)))).

Definition CreateExport (actor : option User) (cluster : string) (body : option createExportRequest) : HM nanswer :=
  match body with
  | None => ret (nstatus 400)
  | Some req =>
      if IsEmpty (er_Name req) || IsEmpty (er_Kind req) then ret (nstatus 400)
      else
        let account := if IsEmpty (er_AccountName req) then "Default" else er_AccountName req in
        match ValidateAccountName account with
        | Some _ => ret (nstatus 400)
        | None =>
            let cid := ClusterID cluster in
            requireMutateAccountAccess actor cid account (λ _,
            let! id := nid in
            let! now := nnow in
            call bad_request (CreateNATSAccountExport id now cid account (er_Kind req) (er_Name req)
                                (er_Subject req) (er_Description req)) (λ e,
            ret (mkNAnswer 201 (NExport e))))
        end
  end.

Definition UpdateExport (actor : option User) (cluster query exportID : string) (body : option createExportRequest) :
    HM nanswer :=
  match body with
  | None => ret (nstatus 400)
  | Some req =>
      if IsEmpty (er_Name req) then ret (nstatus 400)
      else
        let account := accountFromCtx query "" in
        let cid := ClusterID cluster in
        requireMutateAccountAccess actor cid account (λ _,
        let! now := nnow in
        call (not_found_or account_status) (UpdateNATSAccountExport now cid account exportID (er_Name req)
                                              (er_Subject req) (er_Description req)) (λ e,
        ret (mkNAnswer 200 (NExport e))))
  end.

Definition DeleteExport (actor : option User) (cluster query exportID : string) : HM nanswer :=
  let account := accountFromCtx query "" in
  let cid := ClusterID cluster in
  requireMutateAccountAccess actor cid account (λ _,
  call (not_found_or account_status) (DeleteNATSAccountExport cid account exportID) (λ _, ret (nstatus 204))).

(** ** Every request *)

Inductive account_request :=
  | RListUsers (query : string) | RSubjectPermissions (query subject : string)
  | RGetUser (query userID : string) | RCreateUser (body : option natsUserConfigRequest)
  | RUpdateUser (query userID : string) (body : option natsUserConfigRequest)
  | RDeleteUser (query userID : string) | RDownloadCreds (query userID : string)
  | RRotateUser (query userID : string) | RMintJWT (query userID : string)
  | RAssignPerson (query userID : string) (body : option string)
  | RListGroups (query : string) | RCreateGroup (query : string) (body : option createSigningGroupRequest)
  | RUpdateGroup (query groupID : string) (body : option createSigningGroupRequest)
  | RDeleteGroup (query groupID : string)
  | RListExports (query kind : string) | RCreateExport (body : option createExportRequest)
  | RUpdateExport (query exportID : string) (body : option createExportRequest)
  | RDeleteExport (query exportID : string).

Definition serve (actor : option User) (cluster : string) (r : account_request) : HM nanswer :=
  match r with
  | RListUsers q => ListUsers actor cluster q
  | RSubjectPermissions q subject => SubjectPermissions actor cluster q subject
  | RGetUser q u => GetUser actor cluster q u
  | RCreateUser b => CreateUser actor cluster b
  | RUpdateUser q u b => UpdateUser actor cluster q u b
  | RDeleteUser q u => DeleteUser actor cluster q u
  | RDownloadCreds q u => DownloadCreds actor cluster q u
  | RRotateUser q u => RotateUser actor cluster q u
  | RMintJWT q u => MintJWT actor cluster q u
  | RAssignPerson q u b => AssignPerson actor cluster q u b
  | RListGroups q => ListGroups actor cluster q
  | RCreateGroup q b => CreateGroup actor cluster q b
  | RUpdateGroup q g b => UpdateGroup actor cluster q g b
  | RDeleteGroup q g => DeleteGroup actor cluster q g
  | RListExports q k => ListExports actor cluster q k
  | RCreateExport b => CreateExport actor cluster b
  | RUpdateExport q e b => UpdateExport actor cluster q e b
  | RDeleteExport q e => DeleteExport actor cluster q e
  end.
End Handlers.
