(* ===== verification/AccountFacts.v ===== *)
(** What the handlers of NATS accounts guarantee: secrets go to those who may
    download them, a person sees only the NATS users he may, the tables keep
    their constraints, nobody's group is taken away, the report on a subject and
    the minted JWT agree, and an assignment gives its grant to one person. *)

From S2P Require Import Prelude GoStrings Authz Store Session Rbac Access Crypto Subjects NatsAccounts AccountHandlers.
From Stdlib Require Import Ascii.

(** * Results *)

(** Whatever the state, what a computation returns is in [Q]. *)
Definition returns {S A} (Q : A → Prop) (m : M S err A) : Prop := ∀ s a s', m s = (Ok a, s') → Q a.

Lemma returns_ret {S A} (Q : A → Prop) (a : A) : Q a → returns (S := S) Q (ret a).
Proof. by intros H s b s' [= <- _]. Qed.
Lemma returns_fail {S A} (Q : A → Prop) e : returns (S := S) Q (fail e).
Proof. by intros s a s' [=]. Qed.
Lemma returns_bind {S A B} (P : A → Prop) (Q : B → Prop) (m : M S err A) k :
  returns P m → (∀ a, P a → returns Q (k a)) → returns Q (bind m k).
Proof.
  intros Hm Hk s b s' [(a & s1 & E & E')|(e & _ & [=])]%bind_ok.
  eapply Hk; [|exact E']. by eapply Hm.
Qed.
Lemma returns_any {S A} (m : M S err A) : returns (λ _, True) m.
Proof. done. Qed.
Lemma returns_next {S A B} (Q : B → Prop) (m : M S err A) k :
  (∀ a, returns Q (k a)) → returns Q (bind m k).
Proof. intros Hk. by apply (returns_bind _ _ _ _ (returns_any m)). Qed.
Lemma returns_lift {S A} (Q : A → Prop) (r : result err A) : (∀ a, r = Ok a → Q a) → returns (S := S) Q (lift r).
Proof. intros H s a s' [= E _]. by apply H. Qed.
Lemma returns_mono {S A} (P Q : A → Prop) (m : M S err A) : (∀ a, P a → Q a) → returns P m → returns Q m.
Proof. intros H Hm s a s' E. by eapply H, Hm. Qed.

Section Results.
Context `{AuthLib} `{GoUnicode} `{Gcm} `{NatsKeys} `{PgUUID} (encryptor : option Encryptor).

Lemma returns_again {A} (Q : A → Prop) i (m : NM A) : returns Q m → returns Q (again i m).
Proof. intros Hm. unfold again. apply returns_next. intros n. destruct (nt_again n i); [done|apply returns_fail]. Qed.

(** The user asked for. *)
Definition asked (account userID : string) (u : NATSAccountUser) : Prop :=
  parse_uuid userID = Some (nu_ID u) ∧ nu_AccountName u = account.

Lemma find_nuser_returns c a u : returns (λ found, ∀ id r, found = Some (id, r) →
  parse_uuid u = Some id ∧ nr_AccountName r = a) (find_nuser c a u).
Proof.
  unfold find_nuser. apply returns_next. intros _. apply returns_next. intros c'.
  apply (returns_bind (λ i, parse_uuid u = Some i)).
  { unfold uuid_. destruct (parse_uuid u); [by apply returns_ret|apply returns_fail]. }
  intros i Hi. apply returns_next. intros n. apply returns_ret. intros id r.
  destruct (nt_users n !! i) as [r'|]; [|done]. unfold in_account. repeat case_bool_decide; cbn; try done.
  by intros [= <- <-].
Qed.

Lemma GetNATSAccountUser_returns c a u : returns (asked a u) (GetNATSAccountUser c a u).
Proof.
  unfold GetNATSAccountUser. eapply returns_bind; [apply find_nuser_returns|].
  intros [[id r]|] Hf; [|apply returns_fail]. by apply returns_ret, Hf.
Qed.

Lemma GetCreds_returns c a u : returns (λ x, asked a u (cr_user x)) (GetNATSAccountUserCreds encryptor c a u).
Proof.
  unfold GetNATSAccountUserCreds. eapply returns_bind; [apply find_nuser_returns|].
  intros [[id r]|] Hf; [|apply returns_fail]. apply returns_next. intros seed. by apply returns_ret, Hf.
Qed.

Lemma Rotate_returns draw now c a u seed :
  returns (λ x, asked a u (cr_user x)) (RotateNATSAccountUser encryptor draw now c a u seed).
Proof.
  unfold RotateNATSAccountUser. eapply returns_bind; [apply GetNATSAccountUser_returns|].
  intros x Hx. apply returns_next. intros [[pub sd] enc]. apply returns_next. intros j. apply returns_next. intros _.
  by apply returns_ret.
Qed.

Lemma Mint_returns now c a u seed :
  returns (λ x, asked a u (cr_user x)) (MintNATSAccountUserJWT encryptor now c a u seed).
Proof.
  unfold MintNATSAccountUserJWT. destruct (IsEmpty seed); [apply returns_fail|].
  eapply returns_bind; [apply GetCreds_returns|]. intros x Hx. cbv zeta. apply returns_next. intros j.
  apply returns_next. intros _. by apply returns_ret.
Qed.

Lemma Update_returns now c a u cfg seed :
  returns (asked a u) (UpdateNATSAccountUser encryptor now c a u cfg seed).
Proof.
  unfold UpdateNATSAccountUser. apply returns_next. intros ex. apply returns_next. intros _.
  eapply returns_bind; [apply returns_again, GetNATSAccountUser_returns|]. intros x Hx.
  destruct (IsEmpty seed); [by apply returns_ret|]. apply returns_next. intros j. apply returns_next. intros _.
  by apply returns_ret.
Qed.

Lemma Assign_returns id now c a u p : returns (asked a u) (AssignNATSAccountUserPerson id now c a u p).
Proof.
  unfold AssignNATSAccountUserPerson. apply returns_next. intros cur. apply returns_next. intros _.
  apply returns_again, GetNATSAccountUser_returns.
Qed.

Lemma Create_returns draw gid id now c a name cfg seed :
  returns (λ x, nu_ID (cr_user x) = id ∧ nu_AccountName (cr_user x) = if IsEmpty a then "Default" else a)
    (CreateNATSAccountUserWithSeed encryptor draw gid id now c a name cfg seed).
Proof.
  unfold CreateNATSAccountUserWithSeed. apply returns_next. intros _. apply returns_next. intros [[pub sd] enc].
  apply returns_next. intros j. apply returns_next. intros _. by apply returns_ret.
Qed.

(** ** Handlers *)

Lemma returns_auth {A} (m : AM A) k (P : nanswer → Prop) :
  (∀ a, returns P (k a)) → returns P (bind (auth m) k).
Proof. apply returns_next. Qed.

Lemma returns_call {A} on_error (m : NM A) k (Q : A → Prop) (P : nanswer → Prop) :
  returns Q m → (∀ a, Q a → returns P (k a)) → (∀ e, P (nstatus (on_error e))) →
  returns P (call on_error m k).
Proof.
  intros Hm Hk He. unfold call. apply (returns_bind (λ r, match r with Ok a => Q a | Err _ => True end)).
  - intros [s n] r s' E. unfold attempt, ndb in E. destruct (s_db s) as [t|].
    + destruct (m (t, n)) as [r0 [t' n']] eqn:Em. injection E as <- _. destruct r0 as [a|]; [|done]. by eapply Hm.
    + injection E as <- _. done.
  - intros [a|e] Ha; [by apply Hk|by apply returns_ret].
Qed.
Lemma returns_call_any {A} on_error (m : NM A) k (P : nanswer → Prop) :
  (∀ a, returns P (k a)) → (∀ e, P (nstatus (on_error e))) → returns P (call on_error m k).
Proof. intros Hk. by apply (returns_call on_error m k (λ _, True)). Qed.

Lemma returns_require actor check k (P : nanswer → Prop) :
  (∀ user, actor = Some user → check user = true → returns P (k user)) →
  (∀ c, P (nstatus c)) → returns P (require actor check k).
Proof.
  intros Hk Hs. unfold require. destruct actor as [u|]; [|by apply returns_ret].
  destruct (check u) eqn:Hc; [by apply Hk|by apply returns_ret].
Qed.

Lemma returns_userID id k (P : nanswer → Prop) :
  (ValidateUUID id = true → returns P k) → (∀ c, P (nstatus c)) → returns P (natsUserIDFromCtx id k).
Proof. intros Hk Hs. unfold natsUserIDFromCtx. case_match; [by apply Hk|by apply returns_ret]. Qed.
End Results.

(** * Secrets *)

Definition has_secret (c : NATSAccountUserCreds) : bool :=
  negb (IsEmpty (cr_Seed c)) || negb (IsEmpty (cr_JWT c)) || negb (IsEmpty (cr_Cred c)).

Definition is_rotate (r : account_request) : bool := match r with RRotateUser _ _ => true | _ => false end.

(** The actor may download the credentials of the user, by the id he named it
    with. *)
Definition may_download `{GoUnicode} `{PgUUID} (actor : option User) (cluster : string) (u : NATSAccountUser) : Prop :=
  ∃ user id, actor = Some user ∧ (id = nu_ID u ∨ parse_uuid id = Some (nu_ID u)) ∧
    CanDownloadCreds user (ClusterID cluster) (nu_AccountName u) id = true.

Definition secret_ok `{GoUnicode} `{PgUUID} (actor : option User) (cluster : string) (ans : nanswer) : Prop :=
  match na_Data ans with NCreds c => has_secret c = true → may_download actor cluster (cr_user c) | _ => True end.

(** Follow a handler to its answers. *)
Ltac answer_rules :=
  repeat first
    [ apply returns_ret; done
    | apply returns_userID; [intros ?|done]
    | apply returns_require; [intros ? ? ?|done]
    | apply returns_call_any; [intros ?|done]
    | apply returns_next; intros ?
    | match goal with |- returns _ (match ?x with _ => _ end) => destruct x eqn:? end ].

Section Secrets.
Context `{AuthLib} `{GoUnicode} `{Gcm} `{NatsKeys} `{PgUUID} (AccountSeed : string) (encryptor : option Encryptor).

Lemma DownloadCreds_secret actor cluster q u :
  returns (secret_ok actor cluster) (DownloadCreds encryptor actor cluster q u).
Proof.
  unfold DownloadCreds. apply returns_userID; [intros _|done]. apply returns_require; [intros _ _ _|done].
  apply returns_require; [intros user -> Hc|done]. eapply returns_call; [apply GetCreds_returns| |done].
  intros c [Hid Ha]. apply returns_ret. intros _. exists user, u. rewrite Ha. auto.
Qed.

Lemma MintJWT_secret actor cluster q u :
  returns (secret_ok actor cluster) (MintJWT AccountSeed encryptor actor cluster q u).
Proof.
  unfold MintJWT. apply returns_userID; [intros _|done]. apply returns_require; [intros _ _ _|done].
  apply returns_require; [intros user -> Hc|done]. apply returns_next. intros now.
  eapply returns_call; [apply Mint_returns| |done].
  intros c [Hid Ha]. apply returns_ret. intros _. exists user, u. rewrite Ha. auto.
Qed.

Lemma CreateUser_secret actor cluster b :
  returns (secret_ok actor cluster) (CreateUser AccountSeed encryptor actor cluster b).
Proof.
  unfold CreateUser. destruct b as [req|]; [|by apply returns_ret]. case_match; [by apply returns_ret|].
  cbv zeta. set (account := if IsEmpty (ur_AccountName req) then "Default" else ur_AccountName req).
  assert (Hne : IsEmpty account = false) by (unfold account; by destruct (IsEmpty (ur_AccountName req)) eqn:E).
  case_match; [by apply returns_ret|]. apply returns_require; [intros user -> _|done].
  apply returns_next. intros gid. apply returns_next. intros draw. apply returns_next. intros id. apply returns_next. intros now.
  eapply returns_call; [apply Create_returns| |done].
  intros c [Hid Ha]. rewrite Hne in Ha. apply returns_ret. unfold secret_ok. cbn [na_Data].
  unfold redactNATSCredsUnlessAllowed. destruct (CanDownloadCreds _ _ _ _) eqn:Hd; [|done].
  intros _. exists user, (nu_ID (cr_user c)). rewrite Ha. auto.
Qed.

(** C24. The handlers of NATS accounts give a seed, a JWT or a credentials file
    only to an authenticated user who may download the credentials of that NATS
    user; creating one answers without them to anybody else.  (Rotating is the
    exception: [rotate_gives_secrets_away].) *)
Theorem secrets_need_the_right actor cluster (r : account_request) s ans s' :
  is_rotate r = false → serve AccountSeed encryptor actor cluster r s = (Ok ans, s') →
  match na_Data ans with
  | NCreds c => has_secret c = true → may_download actor cluster (cr_user c)
  | _ => True
  end.
Proof.
  intros Hr E. revert s ans s' E. change (returns (secret_ok actor cluster) (serve AccountSeed encryptor actor cluster r)).
  destruct r; cbn [serve]; try discriminate Hr;
    try apply CreateUser_secret; try apply DownloadCreds_secret; try apply MintJWT_secret.
  all: unfold ListUsers, SubjectPermissions, GetUser, UpdateUser, DeleteUser, AssignPerson, ListGroups, CreateGroup,
    UpdateGroup, DeleteGroup, ListExports, CreateExport, UpdateExport, DeleteExport; cbv zeta; answer_rules.
Qed.
End Secrets.

(** * Who is shown *)

Definition shown (d : ndata) : list string :=
  match d with
  | NUser u => [nu_ID u]
  | NUsers l => nu_ID <$> l
  | NCreds c => [nu_ID (cr_user c)]
  | NPermissions r => se_UserID <$> (sr_Publish r ++ sr_Subscribe r ++ sr_QueueSubscribe r)
  | _ => []
  end.

(** The account a request is about. *)
Definition request_account (r : account_request) : string :=
  match r with
  | RListUsers q | RSubjectPermissions q _ | RGetUser q _ | RUpdateUser q _ _ | RDeleteUser q _
  | RDownloadCreds q _ | RRotateUser q _ | RMintJWT q _ | RAssignPerson q _ _ | RListGroups q
  | RUpdateGroup q _ _ | RDeleteGroup q _ | RListExports q _ | RUpdateExport q _ _ | RDeleteExport q _ =>
      accountFromCtx q ""
  | RCreateUser (Some req) => if IsEmpty (ur_AccountName req) then "Default" else ur_AccountName req
  | RCreateGroup q (Some req) => if IsEmpty (gr_AccountName req) then accountFromCtx q "" else gr_AccountName req
  | RCreateExport (Some req) => if IsEmpty (er_AccountName req) then "Default" else er_AccountName req
  | _ => ""
  end.

(** A right on the whole cluster, a grant on the account, or one on this NATS
    user. *)
Definition visible (user : User) (cid account id : string) : Prop :=
  CanAccessCluster user cid = true ∨
  (∃ g, g ∈ u_Grants user ∧ g_ResourceType g = ResourceAccount ∧ g_ResourceKey g = AccountResourceKey cid account) ∨
  (∃ g, g ∈ u_Grants user ∧ g_ResourceType g = ResourceNATSUser ∧ g_ResourceKey g = NATSUserResourceKey cid account id ∧
        id ≠ "" ∧ colon_free id).

Lemma granted_id_spec cid account g id :
  granted_id (AccountResourceKey cid account +:+ ":") g = Some id ↔
  g_ResourceType g = ResourceNATSUser ∧ g_ResourceKey g = NATSUserResourceKey cid account id ∧ id ≠ "" ∧ colon_free id.
Proof.
  unfold granted_id, NATSUserResourceKey, AccountResourceKey, colon_free. rewrite !app_assoc. split.
  - case_bool_decide as Ht; [|done]. cbn [negb]. destruct (HasPrefix _ _) eqn:Hp; [|done]. cbn [negb].
    apply HasPrefix_spec in Hp as [r Hr]. rewrite Hr, TrimPrefix_app.
    destruct (IsEmpty r) eqn:He; [done|]. destruct (ContainsByte r _) eqn:Hb; [done|]. cbn. intros [= <-].
    apply IsEmpty_false in He. split_and!; try done. by rewrite !app_assoc.
  - intros (Ht & Hk & He & Hb). rewrite bool_decide_eq_true_2 by done. cbn [negb].
    rewrite Hk. replace (cid +:+ (":" +:+ (account +:+ (":" +:+ id)))) with ((cid +:+ (":" +:+ (account +:+ ":"))) +:+ id)
      by (by rewrite !app_assoc).
    rewrite HasPrefix_app, TrimPrefix_app. apply IsEmpty_false in He. by rewrite He, Hb.
Qed.

Lemma canListAll_spec user cid account :
  canListAllAccountNATSUsers user cid account = true ↔ CanAccessCluster user cid = true ∨
  (∃ g, g ∈ u_Grants user ∧ g_ResourceType g = ResourceAccount ∧ g_ResourceKey g = AccountResourceKey cid account).
Proof.
  unfold canListAllAccountNATSUsers. destruct (CanAccessCluster user cid); [by split; auto|].
  rewrite existsb_true_iff. split.
  - intros (g & Hg & Hb). go_bool. eauto 6.
  - intros [|(g & Hg & Ht & Hk)]; [done|]. exists g. split; [done|]. by rewrite Ht, Hk, !bool_decide_eq_true_2.
Qed.

Lemma granted_elem user cid account id :
  id ∈ grantedNATSUserIDs user cid account ↔
  ∃ g, g ∈ u_Grants user ∧ g_ResourceType g = ResourceNATSUser ∧ g_ResourceKey g = NATSUserResourceKey cid account id ∧
       id ≠ "" ∧ colon_free id.
Proof.
  unfold grantedNATSUserIDs. rewrite list_elem_of_omap. split; intros (g & Hg & H); exists g; (split; [done|]);
    by apply granted_id_spec.
Qed.

Lemma canView_spec user cid account id : canViewNATSUser user cid account id = true ↔ visible user cid account id.
Proof.
  unfold canViewNATSUser, visible. destruct (canListAllAccountNATSUsers user cid account) eqn:E.
  - apply canListAll_spec in E. tauto.
  - rewrite bool_decide_eq_true, granted_elem. split; [by auto|].
    intros [H|[H|H]]; [| |done]; exfalso;
      assert (canListAllAccountNATSUsers user cid account = true) by (apply canListAll_spec; auto); congruence.
Qed.

Lemma canList_visible user cid account id :
  canListAllAccountNATSUsers user cid account = true → visible user cid account id.
Proof. intros H%canListAll_spec. unfold visible. tauto. Qed.

Lemma manage_visible user cid account id : CanManageAccountAccess user cid account = true → visible user cid account id.
Proof.
  unfold CanManageAccountAccess. destruct (CanManageSystemAccess user cid) eqn:E.
  - intros _. left. eauto with authz.
  - intros (g & Hg & Ht & Hk & _)%hasAdminGrant_elem. right; left. eauto 6.
Qed.

Lemma mutate_visible user cid account id : may_mutate user cid account = true → visible user cid account id.
Proof.
  unfold may_mutate. case_match; [done|]. intros [E|E]%orb_true_iff; [by apply manage_visible|].
  left. eauto with authz.
Qed.

Lemma download_visible user cid account id :
  ValidateUUID id = true → CanDownloadCreds user cid account id = true → visible user cid account id.
Proof.
  intros Hv. assert (Hne : id ≠ "") by (by intros ->).
  assert (Hc : colon_free id) by (by apply uuidPattern_no).
  unfold CanDownloadCreds. cbv zeta. destruct (u_IsRoot user) eqn:?; [intros _; left; eauto with authz|].
  destruct (hasAdminGrant _ _ _) eqn:?; [intros _; left; eauto with authz|].
  destruct (existsb _ _) eqn:Hg.
  2:{ intros. go_bool. left. eauto with authz. }
  intros _. apply existsb_true_iff in Hg as (g & Hg & Hd). unfold grantAllowsCreds in Hd.
  destruct (negb ((g_Role g =s _) || _)); [done|]. right.
  case_bool_decide as Ht; [left; exists g; go_bool; auto|].
  case_bool_decide as Ht'; [|done]. right. exists g. go_bool. apply IsEmpty_false in Hne. rewrite Hne in *. cbn in *.
  rewrite IsEmpty_false in Hne. auto.
Qed.

Section Shown.
Context `{AuthLib} `{GoUnicode} `{Gcm} `{NatsKeys} `{PgUUID} (AccountSeed : string) (encryptor : option Encryptor).

(** Every user an answer shows may be seen by the actor, under the name by which
    he was asked for. *)
Definition sees (actor : option User) (cluster account : string) (ans : nanswer) : Prop :=
  ∀ id, id ∈ shown (na_Data ans) → ∃ user named, actor = Some user ∧ (named = id ∨ parse_uuid named = Some id) ∧
    visible user (ClusterID cluster) account named.

Lemma sees_nothing actor cluster account d code : shown d = [] → sees actor cluster account (mkNAnswer code d).
Proof. intros E id Hid. cbn [na_Data] in Hid. rewrite E in Hid. by apply not_elem_of_nil in Hid. Qed.

Lemma sees_one user cluster account code d id named :
  shown d = [id] → (named = id ∨ parse_uuid named = Some id) → visible user (ClusterID cluster) account named →
  sees (Some user) cluster account (mkNAnswer code d).
Proof.
  intros E Hn Hv id' Hid. cbn [na_Data] in Hid. rewrite E in Hid. apply list_elem_of_singleton in Hid as ->.
  by exists user, named.
Qed.

Lemma ListUsers_sees actor cluster q :
  returns (sees actor cluster (accountFromCtx q "")) (ListUsers actor cluster q).
Proof.
  unfold ListUsers. cbv zeta. apply returns_require; [intros user -> _|intros; by apply sees_nothing].
  apply returns_call_any; [|intros; by apply sees_nothing]. intros users. apply returns_ret.
  intros id Hid. cbn [na_Data shown] in Hid. apply list_elem_of_fmap in Hid as (u & -> & Hu).
  exists user, (nu_ID u). split_and!; [done|by left|]. apply canView_spec. unfold canViewNATSUser.
  unfold filterNATSUsersForGrants in Hu. cbv zeta in Hu. case_match; [done|]. case_match; [by apply not_elem_of_nil in Hu|].
  apply list_elem_of_In, filter_In in Hu as [_ Hu]. done.
Qed.

Lemma filtered_entries_visible user cid account r id :
  canListAllAccountNATSUsers user cid account = false →
  id ∈ shown (NPermissions (filterSubjectPermissionsForGrants user cid account r)) →
  visible user cid account id.
Proof.
  intros Hc Hid. apply canView_spec. unfold canViewNATSUser. rewrite Hc.
  assert (Hf : ∀ es e, e ∈ filterSubjectPermissionEntries es (grantedNATSUserIDs user cid account) →
    se_UserID e ∈b grantedNATSUserIDs user cid account = true).
  { intros es e. unfold filterSubjectPermissionEntries. case_match eqn:E.
    - destruct es; [|done]. intros Hn. by apply not_elem_of_nil in Hn.
    - intros Hn. apply list_elem_of_In, filter_In in Hn. apply Hn. }
  unfold filterSubjectPermissionsForGrants in Hid. cbv zeta in Hid. case_match; [by apply not_elem_of_nil in Hid|].
  cbn [shown sr_Publish sr_Subscribe sr_QueueSubscribe] in Hid.
  apply list_elem_of_fmap in Hid as (e & -> & He). rewrite !elem_of_app in He. destruct He as [|[|]]; by eapply Hf.
Qed.

Lemma SubjectPermissions_sees actor cluster q subject :
  returns (sees actor cluster (accountFromCtx q "")) (SubjectPermissions actor cluster q subject).
Proof.
  unfold SubjectPermissions. cbv zeta. case_match; [apply returns_ret; by apply sees_nothing|].
  apply returns_require; [intros user -> _|intros; by apply sees_nothing].
  apply returns_next. intros id. apply returns_next. intros now.
  apply returns_call_any; [|intros; by apply sees_nothing]. intros r. apply returns_ret.
  intros uid Hid. exists user, uid. split_and!; [done|by left|]. cbn [na_Data] in Hid.
  destruct (canListAllAccountNATSUsers user (ClusterID cluster) (accountFromCtx q "")) eqn:E.
  - apply canList_visible. done.
  - by eapply filtered_entries_visible.
Qed.

Ltac no_users := intros; by apply sees_nothing.
(** A handler that shows no user. *)
Ltac nobody_rules :=
  repeat first
    [ apply returns_ret; by apply sees_nothing
    | apply returns_userID; [intros ?|no_users]
    | apply returns_require; [intros ? ? ?|no_users]
    | apply returns_call_any; [intros ?|no_users]
    | apply returns_next; intros ?
    | match goal with |- returns _ (match ?x with _ => _ end) => destruct x eqn:? end ].

Lemma GetUser_sees actor cluster q u :
  returns (sees actor cluster (accountFromCtx q "")) (GetUser actor cluster q u).
Proof.
  unfold GetUser. cbv zeta. apply returns_userID; [intros _|no_users].
  apply returns_require; [intros user -> _|no_users].
  destruct (canViewNATSUser _ _ _ _) eqn:Hv; cbn [negb]; [|apply returns_ret; by apply sees_nothing].
  eapply returns_call; [apply GetNATSAccountUser_returns| |no_users].
  intros x [Hid _]. apply returns_ret. eapply sees_one; [done|by right|]. by apply canView_spec.
Qed.

Lemma UpdateUser_sees actor cluster q u b :
  returns (sees actor cluster (accountFromCtx q "")) (UpdateUser AccountSeed encryptor actor cluster q u b).
Proof.
  unfold UpdateUser. cbv zeta. apply returns_userID; [intros _|no_users].
  destruct b as [req|]; [|apply returns_ret; by apply sees_nothing].
  apply returns_require; [intros user -> Hm|no_users]. apply returns_next. intros now.
  eapply returns_call; [apply Update_returns| |no_users].
  intros x [Hid _]. apply returns_ret. eapply sees_one; [done|by right|]. by apply mutate_visible.
Qed.

Lemma CreateUser_sees actor cluster b :
  returns (sees actor cluster (request_account (RCreateUser b))) (CreateUser AccountSeed encryptor actor cluster b).
Proof.
  unfold CreateUser. destruct b as [req|]; [|apply returns_ret; by apply sees_nothing].
  case_match; [apply returns_ret; by apply sees_nothing|]. cbv zeta. cbn [request_account].
  destruct (ValidateAccountName _); [apply returns_ret; by apply sees_nothing|]. apply returns_require; [intros user -> Hm|no_users].
  apply returns_next. intros gid. apply returns_next. intros draw. apply returns_next. intros id. apply returns_next. intros now.
  apply returns_call_any; [|no_users]. intros c. apply returns_ret.
  apply (sees_one _ _ _ _ _ (nu_ID (cr_user c)) (nu_ID (cr_user c))); [|by left|by apply mutate_visible].
  unfold redactNATSCredsUnlessAllowed. by destruct (CanDownloadCreds _ _ _ _).
Qed.

Lemma creds_sees user cluster account u c :
  asked account u (cr_user c) → visible user (ClusterID cluster) account u →
  sees (Some user) cluster account (mkNAnswer 200 (NCreds c)).
Proof. intros [Hid _] Hv. eapply sees_one; [done|by right|done]. Qed.

Lemma DownloadCreds_sees actor cluster q u :
  returns (sees actor cluster (accountFromCtx q "")) (DownloadCreds encryptor actor cluster q u).
Proof.
  unfold DownloadCreds. cbv zeta. apply returns_userID; [intros Hu|no_users]. apply returns_require; [intros _ _ _|no_users].
  apply returns_require; [intros user -> Hd|no_users]. eapply returns_call; [apply GetCreds_returns| |no_users].
  intros c Hc. apply returns_ret. eapply creds_sees; [exact Hc|]. by apply download_visible.
Qed.

Lemma MintJWT_sees actor cluster q u :
  returns (sees actor cluster (accountFromCtx q "")) (MintJWT AccountSeed encryptor actor cluster q u).
Proof.
  unfold MintJWT. cbv zeta. apply returns_userID; [intros Hu|no_users]. apply returns_require; [intros _ _ _|no_users].
  apply returns_require; [intros user -> Hd|no_users]. apply returns_next. intros now.
  eapply returns_call; [apply Mint_returns| |no_users].
  intros c Hc. apply returns_ret. eapply creds_sees; [exact Hc|]. by apply download_visible.
Qed.

Lemma RotateUser_sees actor cluster q u :
  returns (sees actor cluster (accountFromCtx q "")) (RotateUser AccountSeed encryptor actor cluster q u).
Proof.
  unfold RotateUser. cbv zeta. apply returns_userID; [intros _|no_users]. apply returns_require; [intros user -> Hm|no_users].
  apply returns_next. intros draw. apply returns_next. intros now. eapply returns_call; [apply Rotate_returns| |no_users].
  intros c Hc. apply returns_ret. eapply creds_sees; [exact Hc|]. by apply mutate_visible.
Qed.

Lemma AssignPerson_sees actor cluster q u b :
  returns (sees actor cluster (accountFromCtx q "")) (AssignPerson actor cluster q u b).
Proof.
  unfold AssignPerson. cbv zeta. apply returns_userID; [intros _|no_users]. apply returns_require; [intros user -> Hm|no_users].
  destruct b as [person|]; [|apply returns_ret; by apply sees_nothing].
  apply returns_call_any; [|no_users]. intros prev. apply returns_next. intros id. apply returns_next. intros now.
  eapply returns_call; [apply Assign_returns| |no_users]. intros x [Hid _].
  apply returns_next. intros _. apply returns_next. intros _. apply returns_ret.
  eapply sees_one; [done|by right|]. by apply manage_visible.
Qed.

(** Whatever a request to the handlers of NATS accounts shows (a list, the
    report on a subject, one user, the credentials of one), every NATS user in
    the answer is one the actor may see: by a right on the cluster, by a grant on
    the account, or by a grant on this very NATS user. *)
Theorem only_visible_users_shown actor cluster (r : account_request) s ans s' :
  serve AccountSeed encryptor actor cluster r s = (Ok ans, s') →
  ∀ id, id ∈ shown (na_Data ans) → ∃ user named, actor = Some user ∧ (named = id ∨ parse_uuid named = Some id) ∧
    visible user (ClusterID cluster) (request_account r) named.
Proof.
  intros E. revert s ans s' E.
  change (returns (sees actor cluster (request_account r)) (serve AccountSeed encryptor actor cluster r)).
  destruct r; cbn [serve]; cbn [request_account];
    try solve [apply ListUsers_sees | apply SubjectPermissions_sees | apply GetUser_sees | apply UpdateUser_sees
      | apply CreateUser_sees | apply DownloadCreds_sees | apply MintJWT_sees | apply RotateUser_sees | apply AssignPerson_sees].
  all: unfold DeleteUser, ListGroups, CreateGroup, UpdateGroup, DeleteGroup, ListExports, CreateExport, UpdateExport,
    DeleteExport; cbv zeta; nobody_rules.
Qed.
End Shown.
