(* ===== verification/AccountTables.v ===== *)
(** What every request keeps of the tables of NATS accounts: the constraints of
    the migrations, and the signing groups in use. *)

From S2P Require Import Prelude GoStrings Authz Store Session Rbac Access Crypto Subjects NatsAccounts AccountHandlers.

(** * Following a repository method

    [R] relates the tables before and after.  [reads Q m]: [m] changes nothing,
    and what it returns is in [Q] of the tables; [holds_at n m]: run on the
    tables [n], [m] respects [R]. *)

Section Rules.
Context (R : relation NTables) `{!PreOrder R}.

Definition holds {A} (m : NM A) : Prop := ∀ t n, R n (snd (snd (m (t, n)))).
Definition holds_at (n : NTables) {A} (m : NM A) : Prop := ∀ t, R n (snd (snd (m (t, n)))).
Definition reads {A} (Q : NTables → A → Prop) (m : NM A) : Prop :=
  ∀ t n, snd (m (t, n)) = (t, n) ∧ ∀ a, fst (m (t, n)) = Ok a → Q n a.

Lemma holds_all {A} (m : NM A) : (∀ n, holds_at n m) → holds m.
Proof. intros H t n. apply H. Qed.
Lemma holds_one {A} (m : NM A) n : holds m → holds_at n m.
Proof. intros H t. apply H. Qed.

Lemma holds_reads {A} Q (m : NM A) : reads Q m → holds m.
Proof. intros H t n. destruct (H t n) as [-> _]. done. Qed.

Lemma holds_read_then {A B} Q (m : NM A) (k : A → NM B) n :
  reads Q m → (∀ a, Q n a → holds_at n (k a)) → holds_at n (bind m k).
Proof.
  intros Hm Hk t. unfold bind. destruct (Hm t n) as [Hs Hq]. destruct (m (t, n)) as [[a|e] s]; cbn in *; subst s; [|done].
  by apply Hk, Hq.
Qed.

Lemma holds_bind {A B} (m : NM A) (k : A → NM B) : holds m → (∀ a, holds (k a)) → holds (bind m k).
Proof.
  intros Hm Hk t n. unfold bind. specialize (Hm t n). destruct (m (t, n)) as [[a|e] [t' n']]; cbn in *; [|done].
  etrans; [exact Hm|apply Hk].
Qed.

Lemma holds_modify_then {B} (f : NTables → NTables) (k : unit → NM B) n :
  R n (f n) → (∀ a, holds (k a)) → holds_at n (bind (nmodify f) k).
Proof. intros Hf Hk t. cbn. etrans; [exact Hf|apply Hk]. Qed.
Lemma holds_modify (f : NTables → NTables) n : R n (f n) → holds_at n (nmodify f).
Proof. by intros Hf t. Qed.

Lemma holds_ntransaction {A} (m : NM A) n : holds_at n m → holds_at n (ntransaction m).
Proof. intros Hm t. unfold ntransaction. specialize (Hm t). by destruct (m (t, n)) as [[a|e] [t' n']]. Qed.

Lemma holds_auth_tables {A} (m : DBM A) : holds (auth_tables m).
Proof. intros t n. unfold auth_tables. by destruct (m t). Qed.

Lemma holds_attempt {A} (m : NM A) : holds m → holds (attempt m).
Proof. intros Hm t n. unfold attempt. specialize (Hm t n). by destruct (m (t, n)) as [r [t' n']]. Qed.
End Rules.

(** ** Reading *)

Section Reads.
Context `{Gcm} `{NatsKeys} `{PgUUID} (encryptor : option Encryptor).

Lemma reads_ret {A} (a : A) : reads (λ _ b, b = a) (ret a).
Proof. intros t n. split; [done|]. by intros b [= <-]. Qed.
Lemma reads_fail {A} e : reads (λ _ (_ : A), False) (fail e).
Proof. intros t n. by split. Qed.
Lemma reads_lift {A} (r : result err A) : reads (λ _ a, r = Ok a) (lift r).
Proof. intros t n. by split. Qed.
Lemma reads_ensure b e : reads (λ _ _, b = true) (ensure b e).
Proof. intros t n. unfold ensure. destruct b; by split. Qed.
Lemma reads_get : reads (λ n s, snd s = n) get.
Proof. intros t n. split; [done|]. by intros s [= <-]. Qed.
Lemma reads_nget : reads (λ n a, a = n) nget.
Proof. intros t n. split; [done|]. by intros s [= <-]. Qed.
Lemma reads_uuid s : reads (λ _ u, parse_uuid s = Some u) (uuid_ s).
Proof. intros t n. unfold uuid_. destruct (parse_uuid s); split; try done. by intros a [= <-]. Qed.
Lemma reads_nonline : reads (λ _ _, True) nonline.
Proof. intros t n. unfold nonline, auth_tables, online. split; [|done]. by destruct (t_up t). Qed.

Lemma reads_bind {A B} P Q (m : NM A) (k : A → NM B) :
  reads P m → (∀ a, reads (λ n b, P n a → Q n b) (k a)) → reads Q (bind m k).
Proof.
  intros Hm Hk t n. unfold bind. destruct (Hm t n) as [Hs Hq]. destruct (m (t, n)) as [[a|e] s]; cbn in *; subst s; [|done].
  destruct (Hk a t n) as [Hs' Hq']. split; [done|]. intros b Hb. by apply Hq', Hq.
Qed.
Lemma reads_mono {A} (P Q : NTables → A → Prop) (m : NM A) : (∀ n a, P n a → Q n a) → reads P m → reads Q m.
Proof. intros HPQ Hm t n. destruct (Hm t n) as [? ?]. split; auto. Qed.
Lemma reads_attempt {A} P (m : NM A) : reads P m → reads (λ n r, ∀ a, r = Ok a → P n a) (attempt m).
Proof.
  intros Hm t n. unfold attempt. destruct (Hm t n) as [Hs Hq]. destruct (m (t, n)) as [r s]; cbn in *. subst s.
  split; [done|]. by intros r' [= <-].
Qed.

Lemma reads_again {A} Q i (m : NM A) : reads Q m → reads Q (again i m).
Proof.
  intros Hm. unfold again. eapply reads_bind; [apply reads_nget|]. intros n.
  destruct (nt_again n i); [eapply reads_mono; [|exact Hm]; auto|eapply reads_mono; [|apply reads_fail]; done].
Qed.

Lemma again_Ok {A} i (m : NM A) s a s' : again i m s = (Ok a, s') → m s = (Ok a, s').
Proof. destruct s as [t n]. unfold again, nget, bind, get, ret, fail. cbn. by destruct (nt_again n i). Qed.

Lemma reads_cluster c : reads (λ n _, c ∈ nt_clusters n) (cluster_exists c).
Proof.
  unfold cluster_exists. eapply reads_bind; [apply reads_nget|]. intros n'. eapply reads_mono; [|apply reads_ensure].
  intros n u Hb Hn. subst n'. by apply bool_decide_eq_true in Hb.
Qed.

(** A row of the account, found by its id. *)
Lemma reads_find_nuser c a u : reads (λ n found, ∀ id r, found = Some (id, r) →
  nt_users n !! id = Some r ∧ parse_uuid u = Some id ∧ parse_uuid c = Some (nr_ClusterID r) ∧ nr_AccountName r = a)
  (find_nuser c a u).
Proof.
  unfold find_nuser. eapply reads_bind; [apply reads_nonline|]. intros ?.
  eapply reads_bind; [apply reads_uuid|]. intros c'. eapply reads_bind; [apply reads_uuid|]. intros u'.
  eapply reads_bind; [apply reads_nget|]. intros n'. eapply reads_mono; [|apply reads_ret].
  intros n b Hb Hn Hu Hc _ id r. subst n' b. destruct (nt_users n !! u') as [r'|] eqn:E; [|done].
  unfold in_account. repeat case_bool_decide; cbn; try done. intros [= <- <-]. subst. auto.
Qed.
Lemma reads_find_group c a i : reads (λ n found, ∀ id g, found = Some (id, g) →
  nt_groups n !! id = Some g ∧ parse_uuid c = Some (sg_ClusterID g) ∧ sg_AccountName g = a) (find_group c a i).
Proof.
  unfold find_group. eapply reads_bind; [apply reads_nonline|]. intros ?.
  eapply reads_bind; [apply reads_uuid|]. intros c'. eapply reads_bind; [apply reads_uuid|]. intros i'.
  eapply reads_bind; [apply reads_nget|]. intros n'. eapply reads_mono; [|apply reads_ret].
  intros n b Hb Hn Hi Hc _ id g. subst n' b. destruct (nt_groups n !! i') as [g'|] eqn:E; [|done].
  repeat case_bool_decide; cbn; try done. intros [= <- <-]. subst. auto.
Qed.
Lemma reads_find_export c a i : reads (λ n found, ∀ id e, found = Some (id, e) →
  nt_exports n !! id = Some e ∧ parse_uuid c = Some (ex_ClusterID e) ∧ ex_AccountName e = a) (find_export c a i).
Proof.
  unfold find_export. eapply reads_bind; [apply reads_nonline|]. intros ?.
  eapply reads_bind; [apply reads_uuid|]. intros c'. eapply reads_bind; [apply reads_uuid|]. intros i'.
  eapply reads_bind; [apply reads_nget|]. intros n'. eapply reads_mono; [|apply reads_ret].
  intros n b Hb Hn Hi Hc _ id e. subst n' b. destruct (nt_exports n !! i') as [e'|] eqn:E; [|done].
  repeat case_bool_decide; cbn; try done. intros [= <- <-]. subst. auto.
Qed.

Lemma reads_any {A} P (m : NM A) : reads P m → reads (λ _ _, True) m.
Proof. by apply reads_mono. Qed.
End Reads.

(** * The constraints *)

Section Unique.
Context {A K : Type} (key : A → K).
Definition unique_by (m : gmap string A) : Prop :=
  ∀ i j x y, m !! i = Some x → m !! j = Some y → key x = key y → i = j.

Lemma unique_insert m i x :
  unique_by m → (∀ j y, m !! j = Some y → key y = key x → j = i) → unique_by (<[i := x]> m).
Proof.
  intros Hm Hx j k y z Hj Hk Hyz. destruct (decide (i = j)) as [<-|Hij], (decide (i = k)) as [<-|Hik]; [done|..].
  - rewrite lookup_insert_eq in Hj. rewrite lookup_insert_ne in Hk by done. simplify_eq.
    symmetry. by eapply Hx.
  - rewrite lookup_insert_eq in Hk. rewrite lookup_insert_ne in Hj by done. simplify_eq. by eapply Hx.
  - rewrite lookup_insert_ne in Hj, Hk by done. by eapply Hm.
Qed.
(** A row that keeps its key. *)
Lemma unique_update m i x y : unique_by m → m !! i = Some x → key y = key x → unique_by (<[i := y]> m).
Proof. intros Hm Hi E. apply unique_insert; [done|]. intros j z Hj Hz. eapply Hm; [done..|congruence]. Qed.
Lemma unique_delete m i : unique_by m → unique_by (delete i m).
Proof. intros Hm j k y z [_ Hj]%lookup_delete_Some [_ Hk]%lookup_delete_Some. by eapply Hm. Qed.
End Unique.

Definition user_key (r : NATSUserRow) := (nr_ClusterID r, nr_AccountName r, nr_Name r).
Definition group_key (g : SigningGroup) := (sg_ClusterID g, sg_AccountName g, sg_Name g).
Definition export_key (e : NATSAccountExport) := (ex_ClusterID e, ex_AccountName e, ex_Kind e, ex_Name e).

(** The unique indexes, the check on the kind of an export, the references to
    clusters. *)
Record ntables_ok (n : NTables) : Prop := mkOk {
  ok_users : unique_by user_key (nt_users n);
  ok_groups : unique_by group_key (nt_groups n);
  ok_exports : unique_by export_key (nt_exports n);
  ok_kinds : map_Forall (λ _ e, ex_Kind e ∈ ["service"; "stream"; "feed"]) (nt_exports n);
  ok_user_cluster : map_Forall (λ _ r, nr_ClusterID r ∈ nt_clusters n) (nt_users n);
  ok_group_cluster : map_Forall (λ _ g, sg_ClusterID g ∈ nt_clusters n) (nt_groups n);
  ok_export_cluster : map_Forall (λ _ e, ex_ClusterID e ∈ nt_clusters n) (nt_exports n);
}.

(** No signing group is removed or renamed. *)
Definition groups_stay (n n' : NTables) : Prop :=
  ∀ i g, nt_groups n !! i = Some g → ∃ g', nt_groups n' !! i = Some g' ∧ group_key g' = group_key g.
Definition kept (n n' : NTables) : Prop := (ntables_ok n → ntables_ok n') ∧ groups_stay n n'.

#[export] Instance kept_preorder : PreOrder kept.
Proof.
  split.
  - intros n. split; [done|]. intros i g Hg. by exists g.
  - intros n1 n2 n3 [H1 G1] [H2 G2]. split; [by auto|]. intros i g Hg.
    destruct (G1 i g Hg) as (g' & Hg' & E). destruct (G2 i g' Hg') as (g'' & Hg'' & E'). exists g''. by rewrite E', E.
Qed.

Lemma groups_same n n' : nt_groups n' = nt_groups n → groups_stay n n'.
Proof. intros E i g Hg. exists g. by rewrite E. Qed.

Lemma kept_update_user n i r r' :
  nt_users n !! i = Some r → user_key r' = user_key r → kept n (set_nusers <[i := r']> n).
Proof.
  intros Hi E. split; [|by apply groups_same]. intros []. constructor; try done; cbn.
  - by eapply unique_update.
  - apply map_Forall_insert_2; [|done]. injection E as -> _ _. by eapply (ok_user_cluster0 i).
Qed.
Lemma kept_insert_user n i r :
  (∀ j r', nt_users n !! j = Some r' → user_key r' ≠ user_key r) → nr_ClusterID r ∈ nt_clusters n →
  kept n (set_nusers <[i := r]> n).
Proof.
  intros Hu Hc. split; [|by apply groups_same]. intros []. constructor; try done; cbn.
  - apply unique_insert; [done|]. intros j r' Hj Hk. by destruct (Hu j r').
  - by apply map_Forall_insert_2.
Qed.
Lemma kept_delete_user n i : kept n (set_nusers (delete i) n).
Proof.
  split; [|by apply groups_same]. intros []. constructor; try done; cbn; [by apply unique_delete|].
  by apply map_Forall_delete.
Qed.

Lemma kept_insert_group n i g :
  nt_groups n !! i = None → (∀ j g', nt_groups n !! j = Some g' → group_key g' ≠ group_key g) →
  sg_ClusterID g ∈ nt_clusters n → kept n (set_groups <[i := g]> n).
Proof.
  intros Hi Hu Hc. split.
  - intros []. constructor; try done; cbn.
    + apply unique_insert; [done|]. intros j g' Hj Hk. by destruct (Hu j g').
    + by apply map_Forall_insert_2.
  - intros j g' Hj. exists g'. cbn. rewrite lookup_insert_ne by congruence. done.
Qed.
Lemma kept_update_group n i g g' :
  nt_groups n !! i = Some g → group_key g' = group_key g → kept n (set_groups <[i := g']> n).
Proof.
  intros Hi E. split.
  - intros []. constructor; try done; cbn; [by eapply unique_update|].
    apply map_Forall_insert_2; [|done]. injection E as -> _ _. by eapply (ok_group_cluster0 i).
  - intros j h Hj. cbn. destruct (decide (i = j)) as [<-|Hne].
    + rewrite lookup_insert_eq. exists g'. split; [done|]. congruence.
    + rewrite lookup_insert_ne by done. by exists h.
Qed.

Lemma kept_insert_export n i e :
  (∀ j e', nt_exports n !! j = Some e' → export_key e' = export_key e → j = i) →
  ex_ClusterID e ∈ nt_clusters n → (ntables_ok n → ex_Kind e ∈ ["service"; "stream"; "feed"]) →
  kept n (set_exports <[i := e]> n).
Proof.
  intros Hu Hc Hk. split; [|by apply groups_same]. intros Hok. destruct Hok eqn:E. constructor; try done; cbn.
  - by apply unique_insert.
  - apply map_Forall_insert_2; [by apply Hk|done].
  - by apply map_Forall_insert_2.
Qed.
Lemma kept_delete_export n i : kept n (set_exports (delete i) n).
Proof.
  split; [|by apply groups_same]. intros []. constructor; try done; cbn; [by apply unique_delete|..];
    by apply map_Forall_delete.
Qed.

Lemma find_group_none c a name n : find_group_by_name c a name n = None →
  ∀ j g, nt_groups n !! j = Some g → group_key g ≠ (c, a, name).
Proof.
  intros Hf j g Hj [= <- <- <-]. unfold find_group_by_name in Hf.
  eapply find_none with (x := (j, g)) in Hf; [|by apply list_elem_of_In, elem_of_map_to_list].
  cbn in Hf. by rewrite !bool_decide_eq_true_2 in Hf.
Qed.

Lemma no_match {A} (p : A → bool) (m : gmap string A) :
  existsb (λ ka, p ka.2) (map_to_list m) = false → ∀ i x, m !! i = Some x → p x = false.
Proof.
  intros H i x Hi. destruct (p x) eqn:E; [|done]. rewrite <- H. symmetry. apply existsb_true_iff.
  exists (i, x). split; [by apply elem_of_map_to_list|done].
Qed.

(** * The methods *)

Create HintDb holds.
Ltac step_read L := eapply holds_read_then; [apply _|apply L|].

Section Methods.
Context `{Gcm} `{NatsKeys} `{PgUUID} (encryptor : option Encryptor).
Notation holds := (holds kept).
Notation holds_at := (holds_at kept).

Lemma holds_read {A} Q (m : NM A) : reads Q m → holds m.
Proof. apply holds_reads; apply _. Qed.
Lemma holds_ret {A} (a : A) : holds (ret a).
Proof. eapply holds_read, reads_ret. Qed.
Lemma holds_fail {A} e : holds (fail e : NM A).
Proof. eapply holds_read, reads_fail. Qed.
Lemma holds_lift {A} (r : result err A) : holds (lift r).
Proof. eapply holds_read, reads_lift. Qed.
Lemma holds_find c a u : holds (find_nuser c a u).
Proof. eapply holds_read, reads_find_nuser. Qed.
Lemma holds_then {A B} (m : NM A) (k : A → NM B) : holds m → (∀ a, holds (k a)) → holds (bind m k).
Proof. apply holds_bind; apply _. Qed.

Lemma holds_Get c a u : holds (GetNATSAccountUser c a u).
Proof. apply holds_then; [apply holds_find|]. intros [[]|]; [apply holds_ret|apply holds_fail]. Qed.
Lemma holds_GetCreds c a u : holds (GetNATSAccountUserCreds encryptor c a u).
Proof.
  apply holds_then; [apply holds_find|]. intros [[]|]; [|apply holds_fail].
  apply holds_then; [apply holds_lift|intros; apply holds_ret].
Qed.
Lemma holds_uuid s : holds (uuid_ s).
Proof. eapply holds_read, reads_uuid. Qed.
Lemma holds_nonline : holds nonline.
Proof. eapply holds_read, reads_nonline. Qed.
Lemma holds_nget : holds nget.
Proof. eapply holds_read, reads_nget. Qed.
Lemma holds_get : holds get.
Proof. eapply holds_read, reads_get. Qed.
Lemma holds_ensure b e : holds (ensure b e).
Proof. eapply holds_read, reads_ensure. Qed.
Lemma holds_auth {A} (m : DBM A) : holds (auth_tables m).
Proof. apply holds_auth_tables; apply _. Qed.
Lemma holds_again {A} i (m : NM A) : holds m → holds (again i m).
Proof. intros Hm. unfold again. apply holds_then; [apply holds_nget|]. intros n. destruct (nt_again n i); [done|apply holds_fail]. Qed.
Lemma holds_find_group c a i : holds (find_group c a i).
Proof. eapply holds_read, reads_find_group. Qed.
Hint Resolve holds_ret holds_fail holds_lift holds_find holds_find_group holds_Get holds_GetCreds holds_uuid holds_nonline holds_nget
  holds_get holds_ensure holds_auth : holds.

(** Computations that read the tables of accounts only. *)
Ltac holds_rules :=
  repeat first
    [ solve [auto 2 with holds]
    | simple apply holds_then; [|intros ?]
    | simple apply holds_again
    | match goal with |- AccountTables.holds _ (match ?x with _ => _ end) => destruct x end
    | match goal with |- AccountTables.holds _ (let '_ := ?x in _) => destruct x end ].

Lemma holds_List c a : holds (ListNATSAccountUsers c a).
Proof. unfold ListNATSAccountUsers. holds_rules. Qed.
Lemma holds_GetGroup c a name : holds (GetSigningGroup c a name).
Proof. unfold GetSigningGroup. holds_rules. Qed.
Hint Resolve holds_List holds_GetGroup : holds.

Lemma holds_update_nuser c a u f : (∀ r, user_key (f r) = user_key r) → holds (update_nuser c a u f).
Proof.
  intros Hf. apply holds_all. intros n. step_read reads_find_nuser. intros [[id r]|] Hr.
  - destruct (Hr id r eq_refl) as [Hi _]. apply holds_modify_then; [apply _|by eapply kept_update_user|].
    intros _. apply holds_ret.
  - apply holds_one, holds_ret.
Qed.
Hint Resolve holds_update_nuser : holds.

Lemma holds_EnsureDefault id now c a : holds (EnsureDefaultSigningGroup id now c a).
Proof.
  apply holds_all. intros n. unfold EnsureDefaultSigningGroup. cbv zeta. step_read reads_nonline. intros ? _.
  step_read reads_uuid. intros c' _. step_read reads_nget. intros n' ->.
  destruct (find_group_by_name _ _ _ _) eqn:Hf; [apply holds_one, holds_ret|].
  step_read reads_cluster. intros ? Hc. step_read reads_ensure. intros ? Hi.
  apply holds_modify. apply kept_insert_group; [by destruct (nt_groups n !! id)| |done].
  by apply find_group_none.
Qed.
Hint Resolve holds_EnsureDefault : holds.

Lemma holds_ListGroups id now c a : holds (ListSigningGroups id now c a).
Proof. unfold ListSigningGroups. holds_rules. Qed.
Hint Resolve holds_ListGroups : holds.

Lemma holds_CreateGroup id now c a name cfg : holds (CreateSigningGroup id now c a name cfg).
Proof.
  apply holds_all. intros n. unfold CreateSigningGroup. cbv zeta. destruct (IsEmpty name); [apply holds_one, holds_fail|].
  step_read reads_nonline. intros ? _. step_read reads_uuid. intros c' _. step_read reads_cluster. intros ? Hc.
  step_read reads_nget. intros n' ->. step_read reads_ensure. intros ? Hn. step_read reads_ensure. intros ? Hi.
  apply holds_modify_then; [apply _| |intros; apply holds_ret].
  apply kept_insert_group; [by destruct (nt_groups n !! id)| |done].
  apply find_group_none. by destruct (find_group_by_name _ _ _ _).
Qed.
Lemma holds_UpdateGroup now c a i cfg : holds (UpdateSigningGroup now c a i cfg).
Proof.
  apply holds_all. intros n. unfold UpdateSigningGroup. cbv zeta. step_read reads_find_group. intros [[id g]|] Hg.
  - destruct (Hg id g eq_refl) as [Hi _]. apply holds_modify_then; [apply _|by eapply kept_update_group|].
    intros _. holds_rules.
  - apply holds_one, holds_fail.
Qed.

Lemma holds_insert_nuser id c a row :
  (∀ c', nr_ClusterID (row c') = c' ∧ nr_AccountName (row c') = a) → holds (insert_nuser id c a row).
Proof.
  intros Hrow. apply holds_all. intros n. unfold insert_nuser. step_read reads_nonline. intros ? _.
  step_read reads_uuid. intros c' _. destruct (Hrow c') as [Ec Ea]. step_read reads_cluster. intros ? Hc.
  step_read reads_nget. intros n' ->. step_read reads_ensure. intros ? Hn. step_read reads_ensure. intros ? Hi.
  apply holds_modify. apply kept_insert_user; [|by rewrite Ec]. intros j r Hj Hk.
  apply negb_true_iff in Hn.
  pose proof (no_match (λ r, in_account c' a r && (nr_Name r =s nr_Name (row c'))) _ Hn j r Hj) as Hm.
  injection Hk as E1 E2 E3. unfold in_account in Hm. rewrite E1, E2, E3, Ec, Ea in Hm.
  by rewrite !bool_decide_eq_true_2 in Hm.
Qed.
Hint Resolve holds_insert_nuser : holds.

Lemma holds_mint now c a name cfg us acs : holds (maybe_mint now c a name cfg us acs).
Proof.
  unfold maybe_mint, mintUserJWT. holds_rules. apply holds_attempt, holds_GetGroup.
Qed.
Lemma holds_mintUserJWT now c a name cfg us acs : holds (mintUserJWT now c a name cfg us acs).
Proof. unfold mintUserJWT. holds_rules. apply holds_attempt, holds_GetGroup. Qed.
Lemma holds_new_keys draw : holds (new_keys encryptor draw).
Proof. unfold new_keys. holds_rules. Qed.
Hint Resolve holds_mint holds_mintUserJWT holds_new_keys : holds.

Lemma holds_Create draw gid id now c a name cfg seed :
  holds (CreateNATSAccountUserWithSeed encryptor draw gid id now c a name cfg seed).
Proof. unfold CreateNATSAccountUserWithSeed. cbv zeta. holds_rules. by apply holds_insert_nuser. Qed.
Lemma holds_Update now c a u cfg seed : holds (UpdateNATSAccountUser encryptor now c a u cfg seed).
Proof. unfold UpdateNATSAccountUser. cbv zeta. holds_rules. Qed.
Lemma holds_Rotate draw now c a u seed : holds (RotateNATSAccountUser encryptor draw now c a u seed).
Proof. unfold RotateNATSAccountUser. holds_rules. Qed.
Lemma holds_Mint now c a u seed : holds (MintNATSAccountUserJWT encryptor now c a u seed).
Proof. unfold MintNATSAccountUserJWT. holds_rules. Qed.

Lemma holds_delete_grants ty key : holds (delete_grants ty key).
Proof. unfold delete_grants. cbv zeta. holds_rules. Qed.
Lemma holds_delete_by u ty key : holds (delete_grant_by_resource u ty key).
Proof. unfold delete_grant_by_resource. holds_rules. Qed.
Lemma holds_upsert id u ty key role : holds (upsert_grant id u ty key role).
Proof. unfold upsert_grant. cbv zeta. holds_rules. Qed.
Hint Resolve holds_delete_grants holds_delete_by holds_upsert : holds.

Lemma holds_Delete c a u : holds (DeleteNATSAccountUser c a u).
Proof.
  apply holds_all. intros n. apply holds_ntransaction; [apply _|].
  apply holds_one. apply holds_then; [auto with holds|]. intros uids. apply holds_all. clear n. intros n.
  step_read reads_find_nuser. intros [[id r]|] _; [|apply holds_one, holds_fail].
  apply holds_modify_then; [apply _|apply kept_delete_user|intros; apply holds_ret].
Qed.

Lemma holds_assign_tx gid now c a u person prev : holds (assign_tx gid now c a u person prev).
Proof.
  apply holds_all. intros n. apply holds_ntransaction; [apply _|].
  apply holds_one. apply holds_then; [unfold assigned_param; holds_rules|]. intros assigned.
  apply holds_all. clear n. intros n. step_read reads_find_nuser. intros [[id r]|] Hr; [|apply holds_one, holds_fail].
  destruct (Hr id r eq_refl) as [Hi _].
  eapply (holds_read_then _ (λ _ _, True)).
  { unfold person_exists. eapply reads_bind; [apply reads_get|]. intros ?.
    eapply reads_mono; [|apply reads_ensure]. done. }
  intros ? _. apply holds_modify_then; [apply _|by eapply kept_update_user|]. intros _. cbv zeta. holds_rules.
Qed.
Hint Resolve holds_assign_tx : holds.

Lemma holds_Assign gid now c a u person : holds (AssignNATSAccountUserPerson gid now c a u person).
Proof. unfold AssignNATSAccountUserPerson. holds_rules. Qed.

Lemma holds_ListExports c a k : holds (ListNATSAccountExports c a k).
Proof. unfold ListNATSAccountExports. holds_rules. Qed.
Lemma holds_CreateExport id now c a kind name subject description :
  holds (CreateNATSAccountExport id now c a kind name subject description).
Proof.
  apply holds_all. intros n. unfold CreateNATSAccountExport. cbv zeta. step_read reads_nonline. intros ? _.
  step_read reads_uuid. intros c' _. step_read reads_cluster. intros ? Hc. step_read reads_ensure. intros ? Hk.
  step_read reads_nget. intros n' ->. step_read reads_ensure. intros ? Hn. step_read reads_ensure. intros ? Hi.
  apply holds_modify_then; [apply _| |intros; apply holds_ret]. apply negb_true_iff in Hn.
  apply kept_insert_export; [|done|intros _; by apply bool_decide_eq_true in Hk].
  intros j e Hj [= E1 E2 E3 E4].
  pose proof (no_match (export_named c' _ kind name) _ Hn j e Hj) as Hm. unfold export_named in Hm.
  rewrite E1, E2, E3, E4 in Hm. by rewrite !bool_decide_eq_true_2 in Hm.
Qed.
Lemma holds_UpdateExport now c a i name subject description :
  holds (UpdateNATSAccountExport now c a i name subject description).
Proof.
  apply holds_all. intros n. unfold UpdateNATSAccountExport. step_read reads_find_export.
  intros [[id e]|] He; [|apply holds_one, holds_fail]. destruct (He id e eq_refl) as (Hi & _ & Ha).
  step_read reads_nget. intros n' ->. step_read reads_ensure. intros ? Hn. cbv zeta.
  apply holds_modify_then; [apply _| |intros; apply holds_ret]. apply negb_true_iff in Hn.
  split; [|by apply groups_same]. intros Hok.
  refine (proj1 (kept_insert_export n id _ _ _ _) Hok).
  - intros j e' Hj [= E1 E2 E3 E4]. destruct (decide (j = id)) as [|Hne]; [done|exfalso].
    assert (Hf : existsb (λ je : string * NATSAccountExport, (je.1 <>s id) &&
      export_named (ex_ClusterID e) a (ex_Kind e) name je.2) (map_to_list (nt_exports n)) = true).
    { apply existsb_true_iff. exists (j, e'). split; [by apply elem_of_map_to_list|]. unfold export_named. cbn.
      rewrite E1, E2, E3, E4, Ha, bool_decide_eq_false_2 by done. by rewrite !bool_decide_eq_true_2. }
    congruence.
  - cbn. by apply (ok_export_cluster n Hok id).
  - intros _. cbn. by apply (ok_kinds n Hok id).
Qed.
Lemma holds_DeleteExport c a i : holds (DeleteNATSAccountExport c a i).
Proof.
  apply holds_all. intros n. unfold DeleteNATSAccountExport. step_read reads_find_export.
  intros [[id e]|] _; [|apply holds_one, holds_fail]. apply holds_modify, kept_delete_export.
Qed.
Lemma holds_Permissions id now c a subject : holds (ListSubjectPermissions id now c a subject).
Proof. unfold ListSubjectPermissions. cbv zeta. holds_rules. Qed.

(** The deletion of a group: it is not the default one, no user of the account
    has it, and everything else stays. *)
Lemma DeleteSigningGroup_effect c a i t n :
  let n' := snd (snd (DeleteSigningGroup c a i (t, n))) in
  n' = n ∨ ∃ id g, n' = set_groups (delete id) n ∧ nt_groups n !! id = Some g ∧ sg_Name g ≠ "Default" ∧
    group_in_use (sg_ClusterID g) (sg_AccountName g) (sg_Name g) n = false.
Proof.
  cbv zeta. unfold DeleteSigningGroup, bind.
  destruct (reads_find_group c a i t n) as [Hs Hq]. destruct (find_group c a i (t, n)) as [[[[id g]|]|e] s]; cbn in Hs, Hq; subst s.
  - destruct (Hq _ eq_refl id g eq_refl) as (Hg & Hc & Ha). case_bool_decide as Hd; [by left|].
    unfold uuid_. rewrite Hc. cbn. destruct (group_in_use _ _ _ _) eqn:Hu; [by left|]. right.
    exists id, g. rewrite Ha. by split_and!.
  - by left.
  - by left.
Qed.
End Methods.

(** * The handlers *)

Section Handlers.
Context `{AuthLib} `{GoUnicode} `{Gcm} `{NatsKeys} `{PgUUID} (AccountSeed : string) (encryptor : option Encryptor).

Section Relation.
Context (R : relation NTables) `{!PreOrder R}.
Definition holdsH {A} (m : HM A) : Prop := ∀ s n, R n (snd (snd (m (s, n)))).

Lemma holdsH_ret {A} (a : A) : holdsH (ret a).
Proof. by intros s n. Qed.
Lemma holdsH_auth {A} (m : AM A) : holdsH (auth m).
Proof. intros s n. unfold auth. by destruct (m s). Qed.
Lemma holdsH_bind {A B} (m : HM A) (k : A → HM B) : holdsH m → (∀ a, holdsH (k a)) → holdsH (bind m k).
Proof.
  intros Hm Hk s n. unfold bind. specialize (Hm s n). destruct (m (s, n)) as [[a|e] [s' n']]; cbn in *; [|done].
  etrans; [exact Hm|apply Hk].
Qed.
Lemma holdsH_call {A} on_error (m : NM A) k : holds R m → (∀ a, holdsH (k a)) → holdsH (call on_error m k).
Proof.
  intros Hm Hk. apply holdsH_bind.
  - intros s n. unfold attempt, ndb. destruct (s_db s) as [t|]; [|done].
    specialize (Hm t n). by destruct (m (t, n)) as [r [t' n']].
  - intros [a|e]; [apply Hk|apply holdsH_ret].
Qed.
Lemma holdsH_require actor check k : (∀ u, holdsH (k u)) → holdsH (require actor check k).
Proof. intros Hk. unfold require. destruct actor as [u|]; [|apply holdsH_ret]. destruct (check u); [apply Hk|apply holdsH_ret]. Qed.
Lemma holdsH_userID id k : holdsH k → holdsH (natsUserIDFromCtx id k).
Proof. intros Hk. unfold natsUserIDFromCtx. case_match; [done|apply holdsH_ret]. Qed.
Lemma holdsH_get : holdsH get.
Proof. by intros s n. Qed.
End Relation.

Ltac handler_rules :=
  repeat first
    [ apply holdsH_ret; apply _
    | apply holdsH_auth; apply _
    | apply holdsH_get; apply _
    | apply holdsH_userID; [apply _|]
    | apply holdsH_require; [apply _|intros ?]
    | apply holdsH_call; [apply _| |intros ?]
    | apply holdsH_bind; [apply _| |intros ?]
    | match goal with |- holdsH _ (match ?x with _ => _ end) => destruct x eqn:? end ].

Lemma serve_kept actor cluster (r : account_request) :
  match r with RDeleteGroup _ _ => True | _ => holdsH kept (serve AccountSeed encryptor actor cluster r) end.
Proof.
  destruct r; cbn [serve]; try exact I;
  unfold ListUsers, SubjectPermissions, GetUser, CreateUser, UpdateUser, DeleteUser, DownloadCreds, RotateUser, MintJWT,
    AssignPerson, ListGroups, CreateGroup, UpdateGroup, ListExports, CreateExport, UpdateExport, DeleteExport,
    nnow, ndraw, nid; cbv zeta; handler_rules;
  auto using holds_List, holds_Get, holds_GetCreds, holds_Create, holds_Update, holds_Rotate, holds_Mint, holds_Assign,
    holds_Delete, holds_ListGroups, holds_CreateGroup, holds_UpdateGroup, holds_ListExports, holds_CreateExport,
    holds_UpdateExport, holds_DeleteExport, holds_Permissions.
Qed.

Definition after_request (actor : option User) (cluster : string) (r : account_request) (s : Service) (n : NTables) : NTables :=
  snd (snd (serve AccountSeed encryptor actor cluster r (s, n))).

Lemma DeleteGroup_after actor cluster q i s n :
  let n' := after_request actor cluster (RDeleteGroup q i) s n in
  n' = n ∨ ∃ id g, n' = set_groups (delete id) n ∧ nt_groups n !! id = Some g ∧ sg_Name g ≠ "Default" ∧
    group_in_use (sg_ClusterID g) (sg_AccountName g) (sg_Name g) n = false.
Proof.
  unfold after_request. cbn [serve]. unfold DeleteGroup, requireMutateAccountAccess, require. cbv zeta.
  destruct actor as [user|]; [|by left]. destruct (may_mutate _ _ _); [|by left].
  unfold call, bind, attempt, ndb. destruct (s_db s) as [t|]; [|by left].
  destruct (DeleteSigningGroup_effect (ClusterID cluster) (accountFromCtx q "") i t n) as [E|E];
    destruct (DeleteSigningGroup _ _ _ _) as [[a|e] [t' n']]; cbn in *; auto.
Qed.

(** C27. Every request, whoever makes it and whatever it answers, keeps the
    constraints of the tables of NATS accounts: names of users, groups and exports
    are unique in their account, exports are of a known kind, and every row
    belongs to a cluster. *)
Theorem requests_keep_the_constraints actor cluster (r : account_request) s n :
  ntables_ok n → ntables_ok (after_request actor cluster r s n).
Proof.
  intros Hok. destruct r as [| | | | | | | | | | | | |q i| | | |].
  14:{ destruct (DeleteGroup_after actor cluster q i s n) as [->|(id & g & -> & _)]; [done|].
       destruct Hok. constructor; try done; cbn; [by apply unique_delete|by apply map_Forall_delete]. }
  all: match goal with |- ntables_ok (after_request _ _ ?r _ _) => by apply (serve_kept actor cluster r s n) end.
Qed.

(** A signing group goes only when it is asked to, is not the default group and
    no NATS user of its account has it: no request takes away, or renames, the
    group of a user. *)
Theorem groups_in_use_stay actor cluster (r : account_request) s n i g :
  nt_groups n !! i = Some g →
  (∃ g', nt_groups (after_request actor cluster r s n) !! i = Some g' ∧ group_key g' = group_key g) ∨
  (sg_Name g ≠ "Default" ∧ ∀ j row, nt_users (after_request actor cluster r s n) !! j = Some row →
     nr_ClusterID row = sg_ClusterID g → nr_AccountName row = sg_AccountName g → nc_SigningGroup (nr_config row) ≠ sg_Name g).
Proof.
  intros Hg. destruct r as [| | | | | | | | | | | | |q k| | | |].
  14:{ destruct (DeleteGroup_after actor cluster q k s n) as [->|(id & g' & -> & Hg' & Hd & Hu)]; [left; by exists g|].
       destruct (decide (i = id)) as [->|Hne].
       - simplify_eq. right. split; [done|]. cbn. intros j row Hj Hc Ha Hs.
         pose proof (no_match (λ r, in_account (sg_ClusterID g) (sg_AccountName g) r &&
           (nc_SigningGroup (nr_config r) =s sg_Name g)) _ Hu j row Hj) as Hm.
         cbn in Hm. unfold in_account in Hm. by rewrite Hc, Ha, Hs, !bool_decide_eq_true_2 in Hm.
       - left. exists g. split; [|done]. cbn. by rewrite lookup_delete_ne. }
  all: left; match goal with |- context [after_request _ _ ?r _ _] =>
    destruct (serve_kept actor cluster r s n) as [_ Hs]; by apply Hs end.
Qed.
End Handlers.
