(* ===== verification/AccountGrants.v ===== *)
(** The report on a subject and the minted JWTs agree; an assignment gives the
    credentials of a NATS user to one person; and the runs in which the handlers
    of NATS accounts go wrong. *)

From S2P Require Import Prelude GoStrings Authz Store Session Rbac Access Crypto Subjects NatsAccounts AccountHandlers.
From S2P Require Import AccountFacts AccountTables.
From Stdlib Require Import Ascii.

(** * The report on a subject and the JWT *)

Section Report.
Context `{NatsKeys} `{PgUUID}.

(** The subjects of the claims are the effective permissions. *)
Lemma claims_effective now pub name c group :
  let claims := user_claims now pub name c group in
  let e := ResolveEffectivePerms (perm_user c) (match group with Ok g => Some (perm_group g) | Err _ => None end) in
  jc_PubAllow claims = ep_PubAllow e ∧ jc_PubDeny claims = ep_PubDeny e ∧
  jc_SubAllow claims = ep_SubAllow e ∧ jc_SubDeny claims = ep_SubDeny e.
Proof.
  cbv zeta. unfold user_claims, ResolveEffectivePerms.
  change (userHasExplicitPerms (perm_user c)) with (userHasPerms c). destruct (userHasPerms c) eqn:E; [done|].
  destruct group as [g|]; [|done]. unfold scoped_group, perm_group. cbn.
  by destruct (gc_Scoped (sg_config g)).
Qed.

Lemma ListUsers_ok c a t n users s' : ListNATSAccountUsers c a (t, n) = (Ok users, s') →
  s' = (t, n) ∧ ∃ c', parse_uuid c = Some c' ∧
  ∀ u, u ∈ users ↔ ∃ id row, nt_users n !! id = Some row ∧ in_account c' a row = true ∧ u = user_of_nrow id row.
Proof.
  unfold ListNATSAccountUsers, nonline, auth_tables, online, uuid_, nget, get, ret, bind.
  destruct (t_up t); [|done]. destruct (parse_uuid c) as [c'|]; [|done]. cbn. intros [= <- <-]. split; [done|].
  exists c'. split; [done|]. intros u. rewrite merge_sort_Permutation, list_elem_of_fmap. split.
  - intros ([id row] & -> & Hin). apply list_elem_of_In, filter_In in Hin as [Hin Ha].
    apply list_elem_of_In, elem_of_map_to_list in Hin. eauto.
  - intros (id & row & Hid & Ha & ->). exists (id, row). split; [done|].
    apply list_elem_of_In, filter_In. split; [by apply list_elem_of_In, elem_of_map_to_list|done].
Qed.

Lemma EnsureDefault_users id now c a t n : 
  nt_users (snd (snd (EnsureDefaultSigningGroup id now c a (t, n)))) = nt_users n ∧
  fst (snd (EnsureDefaultSigningGroup id now c a (t, n))) = t.
Proof.
  unfold EnsureDefaultSigningGroup, nonline, auth_tables, online, uuid_, nget, get, ret, bind, cluster_exists, ensure,
    nmodify, modify, nget, fail. cbv zeta.
  destruct (t_up t); [|done]. destruct (parse_uuid c) as [c'|]; [|done]. cbn.
  destruct (find_group_by_name _ _ _ _); [done|]. case_bool_decide; [|done]. by destruct (nt_groups n !! id).
Qed.

Lemma ListGroups_ok id now c a t n groups s' : ntables_ok n → ListSigningGroups id now c a (t, n) = (Ok groups, s') →
  ∃ n' c', s' = (t, n') ∧ parse_uuid c = Some c' ∧ ntables_ok n' ∧ nt_users n' = nt_users n ∧
  ∀ g, g ∈ groups ↔ ∃ i, nt_groups n' !! i = Some g ∧ sg_ClusterID g = c' ∧ sg_AccountName g = a.
Proof.
  intros Hok. unfold ListSigningGroups. intros ([] & [t1 n1] & E1 & E)%bind_Ok.
  pose proof (EnsureDefault_users id now c a t n) as [Eu Et]. rewrite E1 in Eu, Et. cbn in Eu, Et. subst t1.
  pose proof (holds_EnsureDefault id now c a t n) as [Hk _]. rewrite E1 in Hk. cbn in Hk.
  unfold again, nonline, auth_tables, online, uuid_, nget, get, ret, bind in E. cbn in E. destruct (nt_again n1 0); [|done].
  destruct (t_up t); [|done]. destruct (parse_uuid c) as [c'|]; [|done]. cbn in E. injection E as <- <-.
  exists n1, c'. split_and!; auto. intros g. rewrite merge_sort_Permutation. rewrite list_elem_of_In, filter_In, <- list_elem_of_In.
  rewrite list_elem_of_fmap. split.
  - intros [([i g'] & -> & Hi) Hf]. apply elem_of_map_to_list in Hi. cbn in *. go_bool. eauto.
  - intros (i & Hi & <- & <-). split; [|by rewrite !bool_decide_eq_true_2].
    exists (i, g). split; [done|]. by apply elem_of_map_to_list.
Qed.

Lemma groupByName_spec groups name :
  (∀ g, groupByName groups name = Some g → g ∈ groups ∧ sg_Name g = name) ∧
  (groupByName groups name = None → ∀ g, g ∈ groups → sg_Name g ≠ name).
Proof.
  unfold groupByName.
  assert (Hgen : ∀ acc, (∀ g, foldl (λ acc g, if sg_Name g =s name then Some g else acc) acc groups = Some g →
      acc = Some g ∨ g ∈ groups ∧ sg_Name g = name) ∧
    (foldl (λ acc g, if sg_Name g =s name then Some g else acc) acc groups = None →
      acc = None ∧ ∀ g, g ∈ groups → sg_Name g ≠ name)).
  { induction groups as [|h groups IH]; intros acc; simpl.
    - split; [auto|]. intros ->. split; [done|]. intros g Hg. by apply not_elem_of_nil in Hg.
    - destruct (IH (if sg_Name h =s name then Some h else acc)) as [H1 H2]. split.
      + intros g Hg. destruct (H1 g Hg) as [Ha|[Hin Hn]]; [|right; split; [by right|done]].
        case_bool_decide; [|by left]. injection Ha as <-. right. split; [by left|done].
      + intros Hn. destruct (H2 Hn) as [Ha Hall]. case_bool_decide; [done|]. split; [done|].
        intros g [->|Hin]%elem_of_cons; [done|by apply Hall]. }
  destruct (Hgen None) as [H1 H2]. split; [intros g Hg; by destruct (H1 g Hg)|intros Hn; by apply H2].
Qed.

(** The group that is looked up for the JWT is the one the report uses. *)
Lemma same_group t n' c c' a groups name :
  t_up t = true → parse_uuid c = Some c' → ntables_ok n' →
  (∀ g, g ∈ groups ↔ ∃ i, nt_groups n' !! i = Some g ∧ sg_ClusterID g = c' ∧ sg_AccountName g = a) →
  perm_group <$> groupByName groups name =
  match fst (GetSigningGroup c a name (t, n')) with Ok g => Some (perm_group g) | Err _ => None end.
Proof.
  intros Hup Hc Hok Hin. destruct (groupByName_spec groups name) as [H1 H2].
  unfold GetSigningGroup, nonline, auth_tables, online, uuid_, nget, get, ret, bind. rewrite Hup, Hc. cbn.
  destruct (find_group_by_name c' a name n') as [[i g]|] eqn:Hf; cbn.
  - unfold find_group_by_name in Hf. apply find_some in Hf as [Hi Hp].
    apply list_elem_of_In, elem_of_map_to_list in Hi. cbn in *. go_bool.
    destruct (groupByName groups name) as [g'|] eqn:Hg.
    + destruct (H1 g' eq_refl) as [Hg' Hn]. apply Hin in Hg' as (j & Hj & Hjc & Hja).
      assert (j = i) as -> by (eapply (ok_groups n' Hok); [done..|]; unfold group_key; congruence).
      simplify_eq. done.
    + exfalso. apply (H2 eq_refl g); [|done]. apply Hin. eauto.
  - destruct (groupByName groups name) as [g'|] eqn:Hg; [|done]. exfalso.
    destruct (H1 g' eq_refl) as [Hg' Hn]. apply Hin in Hg' as (j & Hj & Hjc & Hja).
    apply (find_group_none _ _ _ _ Hf j g' Hj). unfold group_key. congruence.
Qed.

Lemma elem_of_permitted subject groups lists users u :
  (∀ u', u' ∈ users → nu_ID u' = nu_ID u → u' = u) → u ∈ users →
  (∃ e, e ∈ permitted_entries subject groups lists users ∧ se_UserID e = nu_ID u) ↔
  fst (Permitted subject (lists (effective_perms groups u)).1 (lists (effective_perms groups u)).2) = true.
Proof.
  intros Huniq Hu. unfold permitted_entries. split.
  - intros (e & He & Hid). apply list_elem_of_omap in He as (u' & Hu' & E). cbv zeta in E.
    destruct (lists (effective_perms groups u')) as [al de] eqn:El.
    destruct (Permitted subject al de) as [[] pattern] eqn:Ep; [|done]. injection E as <-. cbn in Hid.
    rewrite (Huniq u' Hu' Hid) in El. rewrite El. cbn. by rewrite Ep.
  - destruct (lists (effective_perms groups u)) as [al de] eqn:El. cbn.
    destruct (Permitted subject al de) as [[] pattern] eqn:Ep; [|done]. intros _.
    exists (entry_of (ep_Source (effective_perms groups u)) pattern u). split; [|done].
    apply list_elem_of_omap. exists u. split; [done|]. cbv zeta. by rewrite El, Ep.
Qed.

(** C25. What the console reports about a subject is what the JWTs allow: a NATS
    user is in the list of those who may publish (subscribe) to it exactly if the
    permissions of the JWT minted for him in that state permit it. *)
Theorem report_matches_jwt id now c a subject t n r s' users u now' pub :
  ntables_ok n → ListSubjectPermissions id now c a subject (t, n) = (Ok r, s') →
  fst (ListNATSAccountUsers c a s') = Ok users → u ∈ users →
  let claims := user_claims now' pub (nu_Name u) (nu_config u)
                  (fst (GetSigningGroup c a (nc_SigningGroup (nu_config u)) s')) in
  ((∃ e, e ∈ sr_Publish r ∧ se_UserID e = nu_ID u) ↔
   fst (Permitted (TrimSpace subject) (jc_PubAllow claims) (jc_PubDeny claims)) = true) ∧
  ((∃ e, e ∈ sr_Subscribe r ∧ se_UserID e = nu_ID u) ↔
   fst (Permitted (TrimSpace subject) (jc_SubAllow claims) (jc_SubDeny claims)) = true).
Proof.
  intros Hok E Hus Hu claims. unfold ListSubjectPermissions in E. cbv zeta in E.
  apply bind_Ok in E as (us & s1 & E1 & E). apply ListUsers_ok in E1 as (-> & c' & Hc & Hin).
  apply bind_Ok in E as (groups & s2 & E2 & E). pose proof E2 as E2'.
  apply (ListGroups_ok _ _ _ _ _ _ _ _ Hok) in E2 as (n' & c'' & -> & Hc' & Hok' & Hnu & Hgr).
  injection E as <- <-. rewrite Hc in Hc'. injection Hc' as <-.
  assert (Hup : t_up t = true).
  { unfold ListSigningGroups, EnsureDefaultSigningGroup, nonline, auth_tables, online, bind in E2'. by destruct (t_up t). }
  destruct (ListNATSAccountUsers c a (t, n')) as [ru su] eqn:El. cbn in Hus. subst ru.
  apply ListUsers_ok in El as (_ & c2 & Hc2 & Hin2). rewrite Hc in Hc2. injection Hc2 as <-. rewrite Hnu in Hin2.
  assert (Hu' : u ∈ us) by (apply Hin, Hin2, Hu).
  assert (Huniq : ∀ u', u' ∈ us → nu_ID u' = nu_ID u → u' = u).
  { intros u' (i & row & Hi & _ & ->)%Hin Hid. apply Hin in Hu' as (j & row' & Hj & _ & ->). cbn in Hid. by simplify_eq. }
  pose proof (same_group t n' c c' a groups (nc_SigningGroup (nu_config u)) Hup Hc Hok' Hgr) as Hg.
  destruct (claims_effective now' pub (nu_Name u) (nu_config u)
    (fst (GetSigningGroup c a (nc_SigningGroup (nu_config u)) (t, n')))) as (P1 & P2 & P3 & P4).
  rewrite <- Hg in P1, P2, P3, P4. unfold claims. rewrite P1, P2, P3, P4.
  cbn [sr_Publish sr_Subscribe]. rewrite !elem_of_permitted by done. done.
Qed.
End Report.

(** * An assignment *)

Section Assign.
Context `{Gcm} `{NatsKeys} `{PgUUID}.

Lemma find_nuser_ok c a u t n found s' : find_nuser c a u (t, n) = (Ok found, s') →
  s' = (t, n) ∧ ∀ id r, found = Some (id, r) → nt_users n !! id = Some r ∧ parse_uuid u = Some id.
Proof.
  intros E. destruct (reads_find_nuser c a u t n) as [Hs Hq]. rewrite E in Hs, Hq. cbn in Hs, Hq. split; [done|].
  intros id r Hf. by destruct (Hq found eq_refl id r Hf) as (? & ? & _).
Qed.

Lemma GetNATSAccountUser_ok c a u t n x s' : GetNATSAccountUser c a u (t, n) = (Ok x, s') →
  s' = (t, n) ∧ ∃ id r, nt_users n !! id = Some r ∧ parse_uuid u = Some id ∧ x = user_of_nrow id r.
Proof.
  unfold GetNATSAccountUser. intros (found & s1 & E1 & E)%bind_Ok. apply find_nuser_ok in E1 as [-> Hf].
  destruct found as [[id r]|]; [|done]. injection E as <- <-. destruct (Hf id r eq_refl). eauto 6.
Qed.

Lemma uuid_ok s st u s' : uuid_ s st = (Ok u, s') → s' = st ∧ parse_uuid s = Some u.
Proof. unfold uuid_. destruct (parse_uuid s); [|done]. by intros [= <- <-]. Qed.
Lemma nonline_ok st x s' : nonline st = (Ok x, s') → s' = st.
Proof. destruct st as [t n]. unfold nonline, auth_tables, online. destruct (t_up t); [|done]. by intros [= _ <-]. Qed.

Lemma person_exists_ok a st x s' : person_exists a st = (Ok x, s') → s' = st.
Proof. unfold person_exists. intros E. by m_inv. Qed.

(** Nothing but the grant of one person on one resource goes. *)
Lemma delete_grant_ok p ty k t n x s' : delete_grant_by_resource p ty k (t, n) = (Ok x, s') →
  s' = (set_grants (filter (λ kg : string * AccessGrant, same_grant p ty k kg.2 = false)) t, n).
Proof. unfold delete_grant_by_resource. intros (? & s1 & E1 & E)%bind_Ok. apply nonline_ok in E1 as ->. by injection E as _ <-. Qed.

(** The grant of the person is there with the role, and every other is as it
    was. *)
Lemma upsert_grant_ok id p ty k role t n x s' : parse_uuid p = Some p → upsert_grant id p ty k role (t, n) = (Ok x, s') →
  ∃ t', s' = (t', n) ∧
  (∃ i g, t_grants t' !! i = Some g ∧ same_grant p ty k g = true ∧ g_Role g = role) ∧
  (∀ i g, same_grant p ty k g = false → t_grants t' !! i = Some g ↔ t_grants t !! i = Some g).
Proof.
  intros Hp. unfold upsert_grant. intros (? & s1 & E1 & E)%bind_Ok. apply nonline_ok in E1 as ->.
  apply bind_Ok in E as (u & s1 & E1 & E). apply uuid_ok in E1 as [-> Hu]. rewrite Hp in Hu. injection Hu as <-.
  m_inv. cbn [fst] in *. cbv zeta in *.
  assert (Hput : ∀ i row, row = {| g_ID := i; g_UserID := p; g_ResourceType := ty; g_ResourceKey := k; g_Role := role |} →
    (∀ g, t_grants t !! i = Some g → same_grant p ty k g = true) →
    s' = (set_grants <[i := row]> t, n) → ∃ t', s' = (t', n) ∧
    (∃ i g, t_grants t' !! i = Some g ∧ same_grant p ty k g = true ∧ g_Role g = role) ∧
    (∀ i g, same_grant p ty k g = false → t_grants t' !! i = Some g ↔ t_grants t !! i = Some g)).
  { intros i row -> Hold ->. eexists. split; [done|]. cbn.
    assert (Hs : same_grant p ty k {| g_ID := i; g_UserID := p; g_ResourceType := ty; g_ResourceKey := k; g_Role := role |} = true)
      by by apply same_grant_iff. split.
    - eexists i, _. by rewrite lookup_insert_eq.
    - intros j g Hg. destruct (decide (j = i)) as [->|]; [|by rewrite lookup_insert_ne].
      rewrite lookup_insert_eq. split; [intros [= <-]; congruence|]. intros Hj. specialize (Hold g Hj). congruence. }
  pose proof (find_grant_spec p ty k t) as Hf. destruct (find_grant p ty k t) as [[old g]|].
  - destruct Hf as [Hg Hs]. cbn in E. injection E as _ <-. eapply Hput; [done| |done]. intros g'. by rewrite Hg; intros [= <-].
  - m_inv. destruct (t_grants t !! id) eqn:Hi; [discriminate|]. unfold auth_tables, modify in E. injection E as _ <-.
    eapply Hput; [done| |done]. by rewrite Hi.
Qed.

(** The transaction, whichever assignee was read before it. *)
Lemma assign_tx_ok id now c a u p prev t n x s' : p = "" ∨ parse_uuid p = Some p →
  assign_tx id now c a u p prev (t, n) = (Ok x, s') →
  let key := NATSUserResourceKey c a u in
  ∃ t' uid row, s' = (t', set_nusers <[uid := row_with_assigned (if IsEmpty p then None else Some p) now row]> n) ∧
  nt_users n !! uid = Some row ∧ parse_uuid u = Some uid ∧
  (p ≠ "" → ∃ i g, t_grants t' !! i = Some g ∧ same_grant p ResourceNATSUser key g = true ∧
     g_Role g = GrantCredentialDownloader) ∧
  (∀ i g, p = "" ∨ same_grant p ResourceNATSUser key g = false →
     t_grants t' !! i = Some g ↔
     t_grants t !! i = Some g ∧ (prev = "" ∨ prev = p ∨ same_grant prev ResourceNATSUser key g = false)).
Proof.
  intros Hp. unfold assign_tx, ntransaction. destruct (bind _ _ (t, n)) as [[y|e] s1] eqn:E; [|done]. intros [= -> <-].
  apply bind_Ok in E as (assigned & s2 & E2 & E).
  assert (s2 = (t, n) ∧ assigned = if IsEmpty p then None else Some p) as [-> ->].
  { unfold assigned_param in E2. destruct (IsEmpty p) eqn:He; [by injection E2 as <- <-|].
    apply bind_Ok in E2 as (v & s3 & E3 & E2). apply uuid_ok in E3 as [-> Hv]. injection E2 as <- <-.
    destruct Hp as [->|Hp]; [done|]. split; [done|]. congruence. }
  apply bind_Ok in E as (found & s2 & E3 & E). apply find_nuser_ok in E3 as [-> Hf].
  destruct found as [[uid row]|]; [|done]. destruct (Hf uid row eq_refl) as [Hrow Hu].
  apply bind_Ok in E as ([] & s2 & E3 & E). apply person_exists_ok in E3 as ->.
  apply bind_Ok in E as ([] & s2 & E3 & E). injection E3 as <-. cbv zeta in E.
  apply bind_Ok in E as ([] & s2 & E3 & E).
  set (n1 := set_nusers _ n) in *.
  (* the previous assignee's grant *)
  assert (∃ t1, s2 = (t1, n1) ∧ ∀ i g, t_grants t1 !! i = Some g ↔ t_grants t !! i = Some g ∧
    (prev = "" ∨ prev = p ∨ same_grant prev ResourceNATSUser (NATSUserResourceKey c a u) g = false)) as (t1 & -> & Ht1).
  { unfold domainAccountNATSUserKey in E3. destruct (IsEmpty prev) eqn:Hpe; cbn in E3.
    { apply IsEmpty_true in Hpe. injection E3 as <-. exists t. split; [done|]. tauto. }
    apply IsEmpty_false in Hpe. case_bool_decide as Hpp; cbn in E3.
    { injection E3 as <-. exists t. split; [done|]. tauto. }
    apply delete_grant_ok in E3 as ->. eexists. split; [done|]. intros i g. cbn.
    rewrite map_lookup_filter_Some. cbn. tauto. }
  unfold domainAccountNATSUserKey in E. destruct (IsEmpty p) eqn:He.
  - apply IsEmpty_true in He as ->. injection E as _ <-. exists t1, uid, row. split_and!; try done.
  - apply IsEmpty_false in He. destruct Hp as [Hp|Hp]; [done|].
    destruct (upsert_grant_ok _ _ _ _ _ _ _ _ _ Hp E) as (t' & -> & Hnew & Hold).
    exists t', uid, row. split_and!; try done. intros i g [|Hs]; [done|]. by rewrite (Hold i g Hs), Ht1.
Qed.

(** A successful assignment of a NATS user to a person moves the right to its
    credentials: the NATS user is assigned to that person (or nobody), who now
    has the grant of a credential downloader on it, the former assignee has no
    grant on it any more, and no other grant of anybody changes. *)
Theorem assignment_moves_the_grant id now c a u p t n x t' n' : p = "" ∨ parse_uuid p = Some p →
  AssignNATSAccountUserPerson id now c a u p (t, n) = (Ok x, (t', n')) →
  let key := NATSUserResourceKey c a u in
  nu_AssignedUserID x = p ∧
  (p ≠ "" → ∃ i g, t_grants t' !! i = Some g ∧ same_grant p ResourceNATSUser key g = true ∧
     g_Role g = GrantCredentialDownloader) ∧
  (∀ uid row former, parse_uuid u = Some uid → nt_users n !! uid = Some row → nr_assigned row = Some former →
     former ≠ "" → former ≠ p →
     ∀ i g, t_grants t' !! i = Some g → same_grant former ResourceNATSUser key g = false) ∧
  (∀ i g, ¬ (g_ResourceType g = ResourceNATSUser ∧ g_ResourceKey g = key) →
     t_grants t' !! i = Some g ↔ t_grants t !! i = Some g).
Proof.
  intros Hp E key. unfold AssignNATSAccountUserPerson in E. apply bind_Ok in E as (cur & s1 & E1 & E).
  apply GetNATSAccountUser_ok in E1 as (-> & uid & row & Hrow & Hu & ->).
  apply bind_Ok in E as ([] & s1 & E1 & E).
  destruct (assign_tx_ok _ _ _ _ _ _ _ _ _ _ _ Hp E1) as (t1 & uid1 & row1 & -> & Hrow1 & Hu1 & Hnew & Hold).
  fold key in Hnew, Hold. rewrite Hu in Hu1. injection Hu1 as <-. simplify_eq.
  apply again_Ok, GetNATSAccountUser_ok in E as ([= -> ->] & uid2 & row2 & Hrow2 & Hu2 & ->).
  rewrite Hu in Hu2. injection Hu2 as <-. cbn in Hrow2.
  rewrite lookup_insert_eq in Hrow2. injection Hrow2 as <-.
  cbn in Hold. split_and!; [|done| |].
  - cbn. destruct (IsEmpty p) eqn:He; [|done]. by apply IsEmpty_true in He.
  - intros uid2 row2 former Hu2 Hrow2 Hf Hne Hnp i g Hg. simplify_eq. cbn in Hold.
    destruct (same_grant former _ _ g) eqn:Hs; [|done]. exfalso. pose proof Hs as (Hgu & _)%same_grant_iff.
    rewrite Hf in Hold. cbn in Hold. apply Hold in Hg as [_ [|[|]]]; [done|done|congruence|].
    destruct (same_grant p ResourceNATSUser key g) eqn:Hsp; [|by right].
    apply same_grant_iff in Hsp as (? & _). congruence.
  - intros i g Hng. assert (Hno : ∀ q, same_grant q ResourceNATSUser key g = false).
    { intros q. destruct (same_grant q _ _ g) eqn:Hq; [|done]. apply same_grant_iff in Hq as (_ & ? & ?). tauto. }
    rewrite (Hold i g (or_intror (Hno p))), Hno. tauto.
Qed.
End Assign.
