(* ===== verification/AccountErrors.v ===== *)
(** What the handlers of NATS accounts leave behind when they fail: an answer that
    reports an error has changed no row of the database, but for the default
    signing group of an account that had none.  Updates of a NATS user, and a row that
    cannot be read again after it was changed, are the exceptions. *)

From S2P Require Import Prelude GoStrings Authz Store Session Rbac Access Crypto Subjects NatsAccounts AccountHandlers.
From S2P Require Import AccountFacts AccountTables AccountGrants.

(** * Repository methods that fail

    [quiet]: the tables stay; [clean]: they stay when it fails; [sure]: it does
    not fail. *)

Definition quiet {A} (m : NM A) : Prop := ∀ s, snd (m s) = s.
Definition clean {A} (m : NM A) : Prop := ∀ s e s', m s = (Err e, s') → s' = s.
Definition sure {A} (m : NM A) : Prop := ∀ s e s', m s ≠ (Err e, s').

Lemma quiet_reads {A} P (m : NM A) : reads P m → quiet m.
Proof. intros H [t n]. apply H. Qed.
Lemma quiet_bind {A B} (m : NM A) (k : A → NM B) : quiet m → (∀ a, quiet (k a)) → quiet (bind m k).
Proof.
  intros Hm Hk s. unfold bind. specialize (Hm s). destruct (m s) as [[a|e] s1]; cbn in *; subst s1; [apply Hk|done].
Qed.
Lemma quiet_attempt {A} (m : NM A) : quiet m → quiet (attempt m).
Proof. intros Hm s. unfold attempt. specialize (Hm s). by destruct (m s). Qed.

Lemma clean_quiet {A} (m : NM A) : quiet m → clean m.
Proof. intros H s e s' E. specialize (H s). by rewrite E in H. Qed.
Lemma clean_bind {A B} (m : NM A) (k : A → NM B) : quiet m → (∀ a, clean (k a)) → clean (bind m k).
Proof.
  intros Hm Hk s e s' E. unfold bind in E. specialize (Hm s). destruct (m s) as [[a|e'] s1]; cbn in Hm; subst s1.
  - by eapply Hk.
  - by injection E as _ <-.
Qed.
Lemma clean_then {A B} (m : NM A) (k : A → NM B) : clean m → (∀ a, sure (k a)) → clean (bind m k).
Proof.
  intros Hm Hk s e s' E. unfold bind in E. destruct (m s) as [[a|e'] s1] eqn:E1.
  - by apply Hk in E.
  - injection E as _ <-. by eapply Hm.
Qed.
Lemma clean_ntransaction {A} (m : NM A) : clean (ntransaction m).
Proof. intros s e s' E. unfold ntransaction in E. destruct (m s) as [[a|e'] s1]; [done|]. by injection E as _ <-. Qed.

Lemma sure_ret {A} (a : A) : sure (ret a).
Proof. done. Qed.
Lemma sure_nmodify f : sure (nmodify f).
Proof. done. Qed.
Lemma clean_sure {A} (m : NM A) : sure m → clean m.
Proof. intros H s e s' E. by apply H in E. Qed.
Lemma sure_bind {A B} (m : NM A) (k : A → NM B) : sure m → (∀ a, sure (k a)) → sure (bind m k).
Proof.
  intros Hm Hk s e s' E. unfold bind in E. destruct (m s) as [[a|e'] s1] eqn:E1; [by apply Hk in E|by apply Hm in E1].
Qed.

Create HintDb quiet.
#[global] Hint Resolve sure_ret sure_nmodify : quiet.

Section Methods.
Context `{Gcm} `{NatsKeys} `{PgUUID} (encryptor : option Encryptor).

Lemma quiet_ret {A} (a : A) : quiet (ret a).
Proof. done. Qed.
Lemma quiet_fail {A} e : quiet (A := A) (fail e).
Proof. done. Qed.
Lemma quiet_lift {A} (r : result err A) : quiet (lift r).
Proof. done. Qed.
Lemma quiet_ensure b e : quiet (ensure b e).
Proof. eapply quiet_reads, reads_ensure. Qed.
Lemma quiet_get : quiet get.
Proof. done. Qed.
Lemma quiet_nget : quiet nget.
Proof. eapply quiet_reads, reads_nget. Qed.
Lemma quiet_uuid s : quiet (uuid_ s).
Proof. eapply quiet_reads, reads_uuid. Qed.
Lemma quiet_nonline : quiet nonline.
Proof. eapply quiet_reads, reads_nonline. Qed.
Lemma quiet_cluster c : quiet (cluster_exists c).
Proof. eapply quiet_reads, reads_cluster. Qed.
Lemma quiet_find_nuser c a u : quiet (find_nuser c a u).
Proof. eapply quiet_reads, reads_find_nuser. Qed.
Lemma quiet_find_group c a i : quiet (find_group c a i).
Proof. eapply quiet_reads, reads_find_group. Qed.
Lemma quiet_find_export c a i : quiet (find_export c a i).
Proof. eapply quiet_reads, reads_find_export. Qed.
Hint Resolve quiet_ret quiet_fail quiet_lift quiet_ensure quiet_get quiet_nget quiet_uuid quiet_nonline quiet_cluster
  quiet_find_nuser quiet_find_group quiet_find_export : quiet.

Lemma quiet_again {A} i (m : NM A) : quiet m → quiet (again i m).
Proof. intros Hm. unfold again. apply quiet_bind; [apply quiet_nget|]. intros n. by destruct (nt_again n i). Qed.
Lemma clean_again {A} i (m : NM A) : clean m → clean (again i m).
Proof.
  intros Hm. unfold again. apply clean_bind; [apply quiet_nget|]. intros n.
  destruct (nt_again n i); [done|]. apply clean_quiet, quiet_fail.
Qed.

(** Read, and go on. *)
Ltac quiet_rules :=
  cbv zeta;
  repeat first
    [ solve [auto with quiet]
    | apply quiet_attempt
    | apply quiet_again
    | apply quiet_bind; [|intros ?]
    | match goal with |- quiet (match ?x with _ => _ end) => destruct x eqn:? end
    | match goal with |- quiet (let '_ := ?x in _) => destruct x eqn:? end ].
Lemma quiet_ListUsers c a : quiet (ListNATSAccountUsers c a).
Proof. unfold ListNATSAccountUsers. quiet_rules. Qed.
Lemma quiet_GetUser c a u : quiet (GetNATSAccountUser c a u).
Proof. unfold GetNATSAccountUser. quiet_rules. Qed.
Lemma quiet_GetCreds c a u : quiet (GetNATSAccountUserCreds encryptor c a u).
Proof. unfold GetNATSAccountUserCreds. quiet_rules. Qed.
Lemma quiet_GetGroup c a name : quiet (GetSigningGroup c a name).
Proof. unfold GetSigningGroup. quiet_rules. Qed.
Lemma quiet_ListExports c a k : quiet (ListNATSAccountExports c a k).
Proof. unfold ListNATSAccountExports. quiet_rules. Qed.
Lemma quiet_new_keys draw : quiet (new_keys encryptor draw).
Proof. unfold new_keys. quiet_rules. Qed.
Hint Resolve quiet_ListUsers quiet_GetUser quiet_GetCreds quiet_GetGroup quiet_ListExports quiet_new_keys : quiet.
Lemma quiet_mintUserJWT now c a name cfg us as_ : quiet (mintUserJWT now c a name cfg us as_).
Proof. unfold mintUserJWT. quiet_rules. Qed.
Hint Resolve quiet_mintUserJWT : quiet.
Lemma quiet_maybe_mint now c a name cfg us as_ : quiet (maybe_mint now c a name cfg us as_).
Proof. unfold maybe_mint. quiet_rules. Qed.
Hint Resolve quiet_maybe_mint : quiet.

(** ** Methods that change one table, last *)

Ltac clean_rules :=
  cbv zeta;
  repeat first
    [ solve [auto with quiet]
    | apply clean_ntransaction
    | apply clean_again
    | apply clean_bind; [solve [quiet_rules]|intros ?]
    | apply clean_then; [|intros ?; solve [auto with quiet]]
    | apply clean_sure; solve [auto with quiet]
    | apply clean_quiet; solve [quiet_rules]
    | match goal with |- clean (match ?x with _ => _ end) => destruct x eqn:? end
    | match goal with |- clean (let '_ := ?x in _) => destruct x eqn:? end ].

Lemma clean_update_nuser c a u f : clean (update_nuser c a u f).
Proof. unfold update_nuser. clean_rules. Qed.
Lemma clean_insert_nuser id c a row : clean (insert_nuser id c a row).
Proof. unfold insert_nuser. clean_rules. Qed.
Hint Resolve clean_update_nuser clean_insert_nuser : quiet.
Lemma clean_EnsureDefault id now c a : clean (EnsureDefaultSigningGroup id now c a).
Proof. unfold EnsureDefaultSigningGroup. clean_rules. Qed.
Lemma clean_CreateGroup id now c a name cfg : clean (CreateSigningGroup id now c a name cfg).
Proof. unfold CreateSigningGroup. clean_rules. Qed.
Lemma clean_DeleteGroup c a i : clean (DeleteSigningGroup c a i).
Proof. unfold DeleteSigningGroup. clean_rules. Qed.
Lemma clean_Rotate draw now c a u seed : clean (RotateNATSAccountUser encryptor draw now c a u seed).
Proof. unfold RotateNATSAccountUser. clean_rules. Qed.
Lemma clean_Mint now c a u seed : clean (MintNATSAccountUserJWT encryptor now c a u seed).
Proof. unfold MintNATSAccountUserJWT. clean_rules. Qed.
Lemma clean_Delete c a u : clean (DeleteNATSAccountUser c a u).
Proof. apply clean_ntransaction. Qed.
Lemma clean_CreateExport id now c a k name subject d : clean (CreateNATSAccountExport id now c a k name subject d).
Proof. unfold CreateNATSAccountExport. clean_rules. Qed.
Lemma clean_UpdateExport now c a i name subject d : clean (UpdateNATSAccountExport now c a i name subject d).
Proof. unfold UpdateNATSAccountExport. clean_rules. Qed.
Lemma clean_DeleteExport c a i : clean (DeleteNATSAccountExport c a i).
Proof. unfold DeleteNATSAccountExport. clean_rules. Qed.

(** ** An assignment

    The user is read again after the transaction, and found. *)

Lemma upsert_grant_state id p ty k role t n x s' : upsert_grant id p ty k role (t, n) = (Ok x, s') →
  ∃ f, s' = (set_grants f t, n).
Proof.
  unfold upsert_grant. intros (? & s1 & E1 & E)%bind_Ok. apply nonline_ok in E1 as ->.
  apply bind_Ok in E as (u & s1 & E1 & E). apply uuid_ok in E1 as [-> _].
  apply bind_Ok in E as (s0 & s1 & E1 & E). injection E1 as <- <-. cbv zeta in E.
  destruct (find_grant u ty k _) as [[old g]|].
  - unfold auth_tables, modify in E. injection E as _ <-. by eexists.
  - m_inv. destruct (t_grants t !! id) eqn:Hi; [by cbn in *; rewrite Hi in *|].
    unfold auth_tables, modify in E. injection E as _ <-. by eexists.
Qed.

Lemma assigned_param_ok p t n a s' : assigned_param p (t, n) = (Ok a, s') → s' = (t, n).
Proof.
  unfold assigned_param. destruct (IsEmpty p); [by intros [= _ <-]|].
  intros (v & s1 & E1 & E)%bind_Ok. apply uuid_ok in E1 as [-> _]. by injection E as _ <-.
Qed.

Lemma assign_tx_state id now c a u p prev t n x s' : assign_tx id now c a u p prev (t, n) = (Ok x, s') →
  ∃ t' uid row asg, s' = (t', set_nusers <[uid := row_with_assigned asg now row]> n) ∧ t_up t' = t_up t ∧
  fst (find_nuser c a u (t, n)) = Ok (Some (uid, row)).
Proof.
  unfold assign_tx, ntransaction. destruct (bind _ _ (t, n)) as [[y|e] s1] eqn:E; [|done]. intros [= -> <-].
  apply bind_Ok in E as (assigned & s2 & E2 & E). apply assigned_param_ok in E2 as ->.
  apply bind_Ok in E as (found & s2 & E3 & E). pose proof E3 as Hfind. apply find_nuser_ok in E3 as [-> _].
  destruct found as [[uid row]|]; [|done]. rewrite Hfind.
  apply bind_Ok in E as ([] & s2 & E3 & E). apply person_exists_ok in E3 as ->.
  apply bind_Ok in E as ([] & s2 & E3 & E). injection E3 as <-. cbv zeta in E.
  apply bind_Ok in E as ([] & s2 & E3 & E). unfold domainAccountNATSUserKey in *.
  assert (∃ t1, s2 = (t1, set_nusers <[uid := row_with_assigned assigned now row]> n) ∧ t_up t1 = t_up t) as (t1 & -> & Ht1).
  { destruct (negb (IsEmpty prev) && (prev <>s p)); [|by injection E3 as <-; exists t].
    apply delete_grant_ok in E3 as ->. by eexists. }
  exists (fst s1), uid, row, assigned. destruct (IsEmpty p).
  - injection E as _ <-. done.
  - apply upsert_grant_state in E as (f & ->). done.
Qed.

Lemma find_nuser_again c a u t t' n uid row asg now : t_up t' = t_up t →
  fst (find_nuser c a u (t, n)) = Ok (Some (uid, row)) →
  find_nuser c a u (t', set_nusers <[uid := row_with_assigned asg now row]> n) =
    (Ok (Some (uid, row_with_assigned asg now row)), (t', set_nusers <[uid := row_with_assigned asg now row]> n)).
Proof.
  intros Hup. unfold find_nuser, nonline, auth_tables, online, uuid_, nget, get, ret, bind. rewrite Hup.
  destruct (t_up t); [|done]. destruct (parse_uuid c) as [c'|]; [|done]. destruct (parse_uuid u) as [u'|]; [|done]. cbn.
  destruct (nt_users n !! u') as [r|]; [|done]. destruct (in_account c' a r) eqn:Ha; [|done]. intros [= -> ->].
  rewrite lookup_insert_eq. unfold in_account in *. cbn. by rewrite Ha.
Qed.

(** [m] has changed nothing when it fails, if what it reads after its write is answered. *)
Definition settled {A} (m : NM A) : Prop := ∀ t n e s', nt_again n 0 = true → m (t, n) = (Err e, s') → s' = (t, n).

Lemma settled_Assign id now c a u p : settled (AssignNATSAccountUserPerson id now c a u p).
Proof.
  unfold AssignNATSAccountUserPerson. intros t n e s' Hagain E.
  apply bind_ok in E as [(cur & s1 & E1 & E)|(e' & E1 & _)]; [|by apply (clean_quiet _ (quiet_GetUser c a u)) in E1].
  pose proof (quiet_GetUser c a u (t, n)) as Hs. rewrite E1 in Hs. cbn in Hs. subst s1.
  apply bind_ok in E as [([] & s1 & E2 & E)|(e' & E2 & _)]; [|by apply clean_ntransaction in E2].
  apply assign_tx_state in E2 as (t' & uid & row & asg & -> & Hup & Hf).
  unfold again, bind, nget, get, ret in E. cbn in E. rewrite Hagain in E.
  unfold GetNATSAccountUser, bind in E. by rewrite (find_nuser_again _ _ _ _ _ _ _ _ _ _ Hup Hf) in E.
Qed.

Lemma settled_UpdateGroup now c a i cfg : settled (UpdateSigningGroup now c a i cfg).
Proof.
  intros t n e s' Hagain. unfold UpdateSigningGroup, find_group, again, nonline, auth_tables, online, uuid_, nget, get,
    ret, bind, nmodify, modify, fail. cbv zeta.
  destruct (t_up t) eqn:Hup; [|by intros [= _ <-]]. destruct (parse_uuid c) as [c'|]; [|by intros [= _ <-]].
  destruct (parse_uuid i) as [i'|]; [|by intros [= _ <-]]. cbn.
  destruct (nt_groups n !! i') as [g|] eqn:Hg; [|by intros [= _ <-]].
  destruct ((sg_ClusterID g =s c') && (sg_AccountName g =s a)) eqn:Hin; [|by intros [= _ <-]]. cbn.
  rewrite Hagain, Hup. cbn. rewrite lookup_insert_eq. cbn. by rewrite Hin.
Qed.

(** ** The default group *)

Definition but_default (n n' : NTables) : Prop :=
  n' = n ∨ ∃ id g, nt_groups n !! id = None ∧ sg_Name g = "Default" ∧ n' = set_groups <[id := g]> n.
Section Almost.
Context (ready : NTables → Prop).
Definition almost_clean {A} (m : NM A) : Prop :=
  ∀ t n e s', ready n → m (t, n) = (Err e, s') → ∃ n', s' = (t, n') ∧ but_default n n'.

Lemma almost_one {A} (m : NM A) : clean m → almost_clean m.
Proof. intros Hm t n e s' _ ->%Hm. exists n. split; [done|by left]. Qed.
Lemma almost_bind {A B} (m : NM A) (k : A → NM B) : quiet m → (∀ a, almost_clean (k a)) → almost_clean (bind m k).
Proof.
  intros Hm Hk t n e s' Hr E. unfold bind in E. specialize (Hm (t, n)). destruct (m (t, n)) as [[a|e'] s1]; cbn in Hm; subst s1.
  - by eapply Hk.
  - injection E as _ <-. exists n. split; [done|by left].
Qed.
Lemma almost_then {A B} (m : NM A) (k : A → NM B) : almost_clean m → (∀ a, sure (k a)) → almost_clean (bind m k).
Proof.
  intros Hm Hk t n e s' Hr E. unfold bind in E. destruct (m (t, n)) as [[a|e'] s1] eqn:E1; [by apply Hk in E|].
  injection E as _ <-. by eapply Hm.
Qed.

Lemma EnsureDefault_effect id now c a t n :
  ∃ n', snd (EnsureDefaultSigningGroup id now c a (t, n)) = (t, n') ∧ but_default n n'.
Proof.
  unfold EnsureDefaultSigningGroup, nonline, auth_tables, online, uuid_, nget, get, ret, bind, cluster_exists, ensure,
    nmodify, modify, fail. cbv zeta.
  assert (Hs : but_default n n) by by left.
  destruct (t_up t); [|by exists n]. destruct (parse_uuid c) as [c'|]; [|by exists n]. cbn.
  destruct (find_group_by_name _ _ _ _); [by exists n|]. case_bool_decide; [|by exists n].
  destruct (nt_groups n !! id) eqn:Hid; [by exists n|]. cbn. eexists. split; [done|]. right.
  refine (ex_intro _ id (ex_intro _ _ (conj Hid (conj _ eq_refl)))). done.
Qed.
Lemma almost_default {B} id now c a (k : unit → NM B) :
  (∀ x, clean (k x)) → almost_clean (bind (EnsureDefaultSigningGroup id now c a) k).
Proof.
  intros Hk t n e s' _ E. unfold bind in E. destruct (EnsureDefault_effect id now c a t n) as (n' & Hs & Hb).
  destruct (EnsureDefaultSigningGroup id now c a (t, n)) as [[x|e'] s1]; cbn in Hs; subst s1.
  - apply Hk in E as ->. eauto.
  - injection E as _ <-. eauto.
Qed.

Lemma almost_ListGroups id now c a : almost_clean (ListSigningGroups id now c a).
Proof. unfold ListSigningGroups. apply almost_default. intros ?. apply clean_quiet. quiet_rules. Qed.
Lemma almost_Create draw gid id now c a name cfg seed :
  almost_clean (CreateNATSAccountUserWithSeed encryptor draw gid id now c a name cfg seed).
Proof. unfold CreateNATSAccountUserWithSeed. cbv zeta. apply almost_default. intros ?. clean_rules. Qed.
Lemma almost_Permissions id now c a subject : almost_clean (ListSubjectPermissions id now c a subject).
Proof.
  unfold ListSubjectPermissions. cbv zeta. apply almost_bind; [apply quiet_ListUsers|]. intros users.
  apply almost_then; [apply almost_ListGroups|]. intros groups. apply sure_ret.
Qed.
End Almost.
Lemma almost_settled {A} (m : NM A) : settled m → almost_clean (λ n, true = true → nt_again n 0 = true) m.
Proof. intros Hm t n e s' Ha E. exists n. split; [eapply Hm; [by apply Ha|done]|by left]. Qed.
End Methods.

(** * Handlers that fail *)

Section Handlers.
Context `{AuthLib} `{GoUnicode} `{Gcm} `{NatsKeys} `{PgUUID} (AccountSeed : string) (encryptor : option Encryptor).

(** An answer that reports an error has changed nothing but for the default
    group. *)
Section Harmless.
Context (ready : NTables → Prop).
Definition harmless (m : HM nanswer) : Prop := ∀ s n ans s' n', ready n → m (s, n) = (Ok ans, (s', n')) →
  (400 <= na_Status ans)%Z → s_db s' = s_db s ∧ but_default n n'.
(** What does not touch the tables. *)
Definition idle {A} (m : HM A) : Prop := ∀ s n, s_db (fst (snd (m (s, n)))) = s_db s ∧ snd (snd (m (s, n))) = n.

Lemma harmless_ret ans : harmless (ret ans).
Proof. intros s n ans' s' n' _ [= <- <- <-] _. split; [done|by left]. Qed.
Lemma harmless_next {A} (m : HM A) k : idle m → (∀ a, harmless (k a)) → harmless (bind m k).
Proof.
  intros Hm Hk s n ans s' n' Hr E Hc. unfold bind in E. destruct (Hm s n) as [Hs Hn].
  destruct (m (s, n)) as [[a|e] [s1 n1]]; [|done]. cbn in Hs, Hn. subst n1. rewrite <- Hs. by eapply Hk.
Qed.
Lemma harmless_require actor check k : (∀ u, harmless (k u)) → harmless (require actor check k).
Proof.
  intros Hk. unfold require. destruct actor as [u|]; [|apply harmless_ret]. destruct (check u); [apply Hk|apply harmless_ret].
Qed.
Lemma harmless_userID id k : harmless k → harmless (natsUserIDFromCtx id k).
Proof. intros Hk. unfold natsUserIDFromCtx. case_match; [done|apply harmless_ret]. Qed.

(** A call that is the last thing that may fail. *)
Lemma harmless_call {A} on_error (m : NM A) k :
  almost_clean ready m → (∀ a, returns (λ ans, na_Status ans < 400)%Z (k a)) → harmless (call on_error m k).
Proof.
  intros Hm Hk s n ans s' n' Hr E Hc. unfold call, bind, attempt, ndb in E. destruct (s_db s) as [t|] eqn:Ht.
  - destruct (m (t, n)) as [[a|e] [t1 n1]] eqn:Em.
    + apply Hk in E. lia.
    + injection E as _ <- <-. destruct (Hm _ _ _ _ Hr Em) as (n2 & [= -> ->] & Hb). done.
  - injection E as _ <- <-. split; [done|by left].
Qed.
(** A call that only reads. *)
Lemma harmless_read {A} on_error (m : NM A) k : quiet m → (∀ a, harmless (k a)) → harmless (call on_error m k).
Proof.
  intros Hm Hk. unfold call. apply harmless_next.
  - intros s n. unfold attempt, ndb. destruct (s_db s) as [t|] eqn:Ht; [|by cbn].
    specialize (Hm (t, n)). destruct (m (t, n)) as [r [t1 n1]]. cbn in Hm. injection Hm as -> ->. done.
  - intros [a|e]; [apply Hk|apply harmless_ret].
Qed.

End Harmless.

Lemma idle_nid : idle nid.
Proof. done. Qed.
Lemma idle_nnow : idle nnow.
Proof. done. Qed.
Lemma idle_ndraw : idle ndraw.
Proof. done. Qed.

Lemma returns_status code d : (code < 400)%Z → returns (S := Service * NTables) (λ ans, na_Status ans < 400)%Z (ret (mkNAnswer code d)).
Proof. intros Hc. by apply returns_ret. Qed.

(** The answers after the last call. *)
Ltac success := repeat (apply returns_next; intros ?); apply returns_status; lia.
Ltac harmless_rules :=
  cbv zeta;
  repeat first
    [ apply harmless_ret
    | apply harmless_userID
    | apply harmless_require; intros ?
    | apply harmless_read; [solve [auto using quiet_ListUsers, quiet_GetUser, quiet_GetCreds, quiet_ListExports]|intros ?]
    | apply harmless_call; [|intros ?; success]
    | apply harmless_next; [first [apply idle_nid|apply idle_nnow|apply idle_ndraw]|intros ?]
    | match goal with |- harmless _ (match ?x with _ => _ end) => destruct x eqn:? end ].

Definition is_update (r : account_request) : bool := match r with RUpdateUser _ _ _ => true | _ => false end.

(** The requests that read a row again after they have changed it. *)
Definition reads_again (r : account_request) : bool :=
  match r with RUpdateGroup _ _ _ | RAssignPerson _ _ _ => true | _ => false end.

(** C26. A request to the handlers of NATS accounts that is answered with an error
    has changed nothing: no user, grant or session, no NATS user, export or
    signing group, but for the default group of an account that had none.
    Two kinds of request read the row they have changed for the answer; for them
    this holds when that last read is answered ([failed_reread_stays] is the other
    case).  Updating a NATS user is the exception ([failed_update_stays]). *)
Theorem failed_requests_change_nothing actor cluster (r : account_request) s n ans s' n' :
  is_update r = false → (reads_again r = true → nt_again n 0 = true) →
  serve AccountSeed encryptor actor cluster r (s, n) = (Ok ans, (s', n')) →
  (400 <= na_Status ans)%Z →
  s_db s' = s_db s ∧
  (n' = n ∨ ∃ id g, nt_groups n !! id = None ∧ sg_Name g = "Default" ∧ n' = set_groups <[id := g]> n).
Proof.
  intros Hr Hn. revert s n ans s' n' Hn.
  enough (harmless (λ n, reads_again r = true → nt_again n 0 = true) (serve AccountSeed encryptor actor cluster r))
    by (intros; eauto).
  destruct r; cbn [serve reads_again]; try discriminate Hr;
  unfold ListUsers, SubjectPermissions, GetUser, CreateUser, DeleteUser, DownloadCreds, RotateUser, MintJWT,
    AssignPerson, ListGroups, CreateGroup, UpdateGroup, DeleteGroup, ListExports, CreateExport, UpdateExport, DeleteExport;
  harmless_rules;
  auto using almost_one, almost_Permissions, almost_Create, almost_ListGroups, clean_Delete, clean_Rotate, clean_Mint,
    almost_settled, settled_Assign, settled_UpdateGroup, clean_CreateGroup, clean_DeleteGroup, clean_CreateExport,
    clean_UpdateExport, clean_DeleteExport.
Qed.
End Handlers.
