(* ===== verification/AccountRuns.v ===== *)
(** Runs of the handlers of NATS accounts, on tables with two NATS users: the
    theorems of [AccountFacts], [AccountTables], [AccountGrants] and [AccountErrors] at work, and the
    runs in which the handlers go wrong. *)

From S2P Require Import Prelude GoStrings Authz Store Session Rbac Access Crypto Subjects NatsAccounts AccountHandlers.
From S2P Require Import AccountFacts AccountTables AccountGrants AccountErrors CredentialFacts.

(** * Libraries and tables to run on *)

#[local] Existing Instance sample_lib.
#[local] Existing Instance ascii_only.
#[local] Existing Instance sample_gcm.

(** A JWT that shows its subject, name and what it lets publish. *)
#[local] Instance sample_keys : NatsKeys := {|
  nkey_create n := Some ("U" +:+ pretty n, "SU" +:+ pretty n);
  nkey_public seed := if HasPrefix seed "SU" then Some (TrimPrefix seed "S") else None;
  account_key seed := HasPrefix seed "SA";
  jwt_encode c _ := Some (jc_Subject c +:+ "/" +:+ jc_Name c +:+ "/" +:+ String.concat "," (jc_PubAllow c));
  noLimit := -1;
  taglist_Add l s := l ++ [s];
  stringlist_Add l s := l ++ [s];
  cidrlist_Add l s := l ++ [s];
|}.
(** Identifiers are read in any case and written in lower case. *)
#[local] Instance sample_uuid : PgUUID := {|
  parse_uuid s := if uuidPattern s then Some (ToLower s) else None |}.

Definition cluster1 : string := "11111111-1111-1111-1111-111111111111".
Definition nats_a : string := "aaaaaaaa-aaaa-aaaa-aaaa-aaaaaaaaaaaa".
Definition nats_A : string := "AAAAAAAA-AAAA-AAAA-AAAA-AAAAAAAAAAAA".
Definition nats_b : string := "bbbbbbbb-bbbb-bbbb-bbbb-bbbbbbbbbbbb".
Definition group_g : string := "cccccccc-cccc-cccc-cccc-cccccccccccc".
Definition alice : string := "22222222-2222-2222-2222-222222222222".
Definition bob : string := "33333333-3333-3333-3333-333333333333".

Definition config (group : string) (pub : list string) : NATSUserConfig := {|
  nc_SigningGroup := group; nc_Tags := []; nc_PubAllow := pub; nc_PubDeny := []; nc_SubAllow := []; nc_SubDeny := [];
  nc_AllowedConnectionTypes := []; nc_SrcCIDRs := []; nc_TimesLocale := ""; nc_TimeRanges := [];
  nc_MaxSubs := -1; nc_MaxPayload := -1; nc_MaxData := -1; nc_JWTLifetimeNs := 0; nc_RespMaxMsgs := 0; nc_RespTTLNs := 0;
  nc_BearerToken := false; nc_ProxyRequired := false |}.
Definition nrow (name seed group : string) (assigned : option string) : NATSUserRow := {|
  nr_ClusterID := cluster1; nr_AccountName := "Default"; nr_Name := name; nr_PublicKey := TrimPrefix seed "S";
  nr_seed_encrypted := seed; nr_jwt := ""; nr_assigned := assigned; nr_config := config group [];
  nr_CreatedAt := 0; nr_UpdatedAt := 0 |}.
(** A scoped group that lets its users publish to orders only. *)
Definition orders_only : SigningGroup :=
  mkGroup group_g cluster1 "Default" "orders" {|
    gc_PubAllow := ["orders.>"]; gc_PubDeny := []; gc_SubAllow := ["orders.>"]; gc_SubDeny := [];
    gc_MaxData := -1; gc_MaxPayload := -1; gc_MaxSubs := -1; gc_Scoped := true |} 0 0.

Definition sample_ntables : NTables :=
  mkNTables {[cluster1]}
    (<[nats_a := nrow "a" "SUA" "orders" (Some alice)]> {[nats_b := nrow "b" "SUB" "Default" None]})
    {[group_g := orders_only]} ∅ (λ _, true).

Definition console_row (name : string) : UserRow := {|
  row_Username := name; row_Email := name +:+ "@local"; row_PasswordHash := ""; row_OIDCSub := "";
  row_IsRoot := false; row_AccessRules := None; row_CreatedAt := 0 |}.
Definition grant_on (id userID key : string) : AccessGrant := {|
  g_ID := id; g_UserID := userID; g_ResourceType := ResourceNATSUser; g_ResourceKey := key;
  g_Role := GrantCredentialDownloader |}.
(** Alice is assigned to the first NATS user. *)
Definition people : Tables :=
  mkTables true (<[alice := console_row "alice"]> {[bob := console_row "bob"]})
    (<[alice := {[RoleViewer]}]> {[bob := {[RoleViewer]}]})
    {["g1" := grant_on "g1" alice (NATSUserResourceKey cluster1 "Default" nats_a)]} ∅ ∅ ∅ ∅.
Definition console : Service := NewService (Some people) 0.

Definition actor_with (id : string) (roles : list string) (clusters : list string) (grants : list AccessGrant) : User := {|
  u_ID := id; u_Username := id; u_Email := ""; u_OIDCSub := ""; u_Roles := roles;
  u_AccessRules := Some {| ar_ClusterIDs := clusters; ar_AssignableRoles := []; ar_ManageUsers := false;
    ar_ViewAudit := false; ar_DeleteClusters := false |};
  u_Grants := grants; u_IsRoot := false; u_SessionVersion := 0; u_CreatedAt := 0 |}.
Definition admin : User := actor_with "admin" [RoleAdmin] [cluster1]
  [{| g_ID := "g0"; g_UserID := "admin"; g_ResourceType := ResourceSystem; g_ResourceKey := cluster1; g_Role := GrantAdmin |}].
Definition operator : User := actor_with "operator" [RoleOperator] [cluster1] [].
Definition alice_user : User :=
  actor_with alice [RoleViewer] [] [grant_on "g1" alice (NATSUserResourceKey cluster1 "Default" nats_a)].

Definition run (actor : User) (r : account_request) : result err nanswer * (Service * NTables) :=
  serve "SAccount" None (Some actor) cluster1 r (console, sample_ntables).
Definition code_of (r : result err nanswer) : option Z :=
  match r with Ok ans => Some (na_Status ans) | Err _ => None end.
Definition seed_of (r : result err nanswer) : option string :=
  match r with Ok (mkNAnswer _ (NCreds c)) => Some (cr_Seed c) | _ => None end.
Definition jwt_of (r : result err nanswer) : option string :=
  match r with Ok (mkNAnswer _ (NCreds c)) => Some (cr_JWT c) | _ => None end.
Definition shown_by (r : result err nanswer) : list string :=
  match r with Ok ans => shown (na_Data ans) | Err _ => [] end.
(** The console users with a grant on a resource. *)
Definition holders (key : string) (t : Tables) : list string :=
  omap (λ kg, if g_ResourceKey kg.2 =s key then Some (g_UserID kg.2) else None) (map_to_list (t_grants t)).
Definition holders_after (key : string) (s : Service) : list string :=
  match s_db s with Some t => holders key t | None => [] end.

(** * What the answers are *)

Example answers :
  (code_of (run alice_user (RDownloadCreds "" nats_a)).1, seed_of (run alice_user (RDownloadCreds "" nats_a)).1,
   code_of (run alice_user (RDownloadCreds "" nats_b)).1, code_of (run operator (RDownloadCreds "" nats_a)).1,
   shown_by (run alice_user (RListUsers "")).1, shown_by (run operator (RListUsers "")).1,
   jwt_of (run admin (RMintJWT "" nats_a)).1, code_of (run admin (RDeleteGroup "" group_g)).1)
  = (Some 200%Z, Some "SUA", Some 403%Z, Some 403%Z, [nats_a], [nats_a; nats_b], Some "UA/a/orders.>", Some 409%Z).
Proof. vm_compute. reflexivity. Qed.

(** * Where the handlers go wrong *)

(** An operator may not download credentials, and does not see those of a user he
    creates; rotating the keys of any user answers with the new seed. *)
Lemma rotate_gives_secrets_away :
  CanDownloadCreds operator cluster1 "Default" nats_a = false ∧
  seed_of (run operator (RRotateUser "" nats_a)).1 = Some "SU0".
Proof. split; vm_compute; reflexivity. Qed.

(** A NATS user of a group that does not exist is created, and his JWT restricts
    nothing; so does any error of the lookup. *)
Lemma unknown_group_is_no_restriction :
  let body := mkUserRequest "c" "" (config "oders" []) in
  (code_of (run admin (RCreateUser (Some body))).1, jwt_of (run admin (RCreateUser (Some body))).1) =
    (Some 201%Z, Some "U1/c/") ∧
  jc_PubAllow (user_claims 0 "UA" "a" (config "orders" []) (Err ErrDB)) = [].
Proof. split; vm_compute; reflexivity. Qed.

(** An update whose JWT cannot be minted is answered 400, and stays: the new
    configuration is in the table. *)
Lemma failed_update_stays :
  let '(r, (_, n)) := serve "unusable" None (Some admin) cluster1
    (RUpdateUser "" nats_a (Some (mkUserRequest "a" "" (config "Default" ["everything.>"])))) (console, sample_ntables) in
  code_of r = Some 400%Z ∧
  ((λ row, nc_PubAllow (nr_config row)) <$> nt_users n !! nats_a) = Some ["everything.>"].
Proof. vm_compute. split; reflexivity. Qed.

(** The row that was changed is read again for the answer.  When the database does
    not answer that, the request fails, and stays: the assignment to Bob, the limits
    of a group. *)
Definition rereads_fail : NTables :=
  mkNTables (nt_clusters sample_ntables) (nt_users sample_ntables) (nt_groups sample_ntables) ∅ (λ _, false).
Lemma failed_reread_stays :
  let '(r, (s, n)) := serve "SAccount" None (Some admin) cluster1 (RAssignPerson "" nats_a (Some bob)) (console, rereads_fail) in
  let '(r', (_, n')) := serve "SAccount" None (Some admin) cluster1
    (RUpdateGroup "" group_g (Some (mkGroupRequest "" "" default_group_config))) (console, rereads_fail) in
  code_of r = Some 400%Z ∧ (nr_assigned <$> nt_users n !! nats_a) = Some (Some bob) ∧
  holders_after (NATSUserResourceKey cluster1 "Default" nats_a) s = [bob] ∧
  code_of r' = Some 500%Z ∧ (sg_config <$> nt_groups n' !! group_g) = Some default_group_config.
Proof. vm_compute. repeat split. Qed.

(** The key of a grant has the identifier as the request spells it.  Assigning a
    NATS user to Bob under its identifier in capitals assigns it, leaves Alice the
    right to its credentials, and gives Bob none. *)
Lemma capital_id_keeps_the_former_assignee :
  let '(r, (s, n)) := run admin (RAssignPerson "" nats_A (Some bob)) in
  code_of r = Some 200%Z ∧ (nr_assigned <$> nt_users n !! nats_a) = Some (Some bob) ∧
  holders_after (NATSUserResourceKey cluster1 "Default" nats_a) s = [alice] ∧
  holders_after (NATSUserResourceKey cluster1 "Default" nats_A) s = [bob].
Proof. vm_compute. repeat split. Qed.

(** The former assignee is read before the transaction.  Two requests that both
    read Alice, one assigning Bob and then one assigning Alice again, leave Bob
    with his grant. *)
Lemma concurrent_assignments_leave_a_grant :
  let prev := match fst (GetNATSAccountUser cluster1 "Default" nats_a (people, sample_ntables)) with
              | Ok u => nu_AssignedUserID u | Err _ => "" end in
  let '(_, s1) := assign_tx "g2" 1 cluster1 "Default" nats_a bob prev (people, sample_ntables) in
  let '(_, (t, n)) := assign_tx "g3" 2 cluster1 "Default" nats_a alice prev s1 in
  (nr_assigned <$> nt_users n !! nats_a) = Some (Some alice) ∧
  bob ∈b holders (NATSUserResourceKey cluster1 "Default" nats_a) t = true.
Proof. vm_compute. split; reflexivity. Qed.

(** * The theorems on these runs *)

Lemma sample_ntables_ok : ntables_ok sample_ntables.
Proof.
  split; cbn [nt_users nt_groups nt_exports nt_clusters sample_ntables].
  - intros i j x y. rewrite !lookup_insert_Some, !lookup_singleton_Some. intros Hi Hj. naive_solver.
  - intros i j x y. rewrite !lookup_singleton_Some. naive_solver.
  - intros i j x y. by rewrite lookup_empty.
  - apply map_Forall_empty.
  - intros i r. rewrite lookup_insert_Some, lookup_singleton_Some. intros [[_ <-]|[_ [_ <-]]]; by apply elem_of_singleton.
  - intros i r. rewrite lookup_singleton_Some. intros [_ <-]. by apply elem_of_singleton.
  - apply map_Forall_empty.
Qed.

(** Alice downloads her credentials: she has the right. *)
Lemma secrets_need_the_right_witness :
  seed_of (run alice_user (RDownloadCreds "" nats_a)).1 = Some "SUA" ∧
  match (run alice_user (RDownloadCreds "" nats_a)).1 with
  | Ok (mkNAnswer _ (NCreds c)) => has_secret c = true ∧ may_download (Some alice_user) cluster1 (cr_user c)
  | _ => False
  end.
Proof.
  split; [vm_compute; reflexivity|].
  destruct (run alice_user (RDownloadCreds "" nats_a)) as [r s'] eqn:E. cbn [fst].
  assert (Hs : match r with Ok (mkNAnswer _ (NCreds c)) => has_secret c | _ => false end = true)
    by (change r with (fst (r, s')); rewrite <- E; vm_compute; reflexivity).
  destruct r as [[code [| | |c| | | | |]]|e]; try discriminate Hs. split; [exact Hs|].
  exact (secrets_need_the_right "SAccount" None (Some alice_user) cluster1 (RDownloadCreds "" nats_a)
    (console, sample_ntables) (mkNAnswer code (NCreds c)) s' eq_refl E Hs).
Defined.

(** Alice lists the NATS users of the account, and is shown the one she may see. *)
Lemma only_visible_users_shown_witness :
  shown_by (run alice_user (RListUsers "")).1 = [nats_a] ∧
  ∃ user named, Some alice_user = Some user ∧ (named = nats_a ∨ parse_uuid named = Some nats_a) ∧
    visible user (ClusterID cluster1) "Default" named.
Proof.
  split; [vm_compute; reflexivity|].
  destruct (run alice_user (RListUsers "")) as [r s'] eqn:E.
  assert (Hs : shown_by r = [nats_a]) by (change r with (fst (r, s')); rewrite <- E; vm_compute; reflexivity).
  destruct r as [ans|e]; [|discriminate Hs].
  apply (only_visible_users_shown "SAccount" None (Some alice_user) cluster1 (RListUsers "")
    (console, sample_ntables) ans s' E nats_a). cbn [shown_by] in Hs. rewrite Hs. by left.
Defined.

(** An operator creates a NATS user. *)
Lemma requests_keep_the_constraints_witness :
  let r := RCreateUser (Some (mkUserRequest "c" "" (config "orders" []))) in
  size (nt_users (after_request "SAccount" None (Some operator) cluster1 r console sample_ntables)) = 3 ∧
  ntables_ok (after_request "SAccount" None (Some operator) cluster1 r console sample_ntables).
Proof.
  intros r. split; [vm_compute; reflexivity|].
  exact (requests_keep_the_constraints "SAccount" None (Some operator) cluster1 r console sample_ntables sample_ntables_ok).
Defined.

(** The group of the first NATS user cannot be deleted. *)
Lemma groups_in_use_stay_witness :
  let n := after_request "SAccount" None (Some admin) cluster1 (RDeleteGroup "" group_g) console sample_ntables in
  (∃ g', nt_groups n !! group_g = Some g' ∧ group_key g' = group_key orders_only) ∨
  (sg_Name orders_only ≠ "Default" ∧ ∀ j row, nt_users n !! j = Some row →
     nr_ClusterID row = sg_ClusterID orders_only → nr_AccountName row = sg_AccountName orders_only →
     nc_SigningGroup (nr_config row) ≠ sg_Name orders_only).
Proof.
  intros n. refine (groups_in_use_stay "SAccount" None (Some admin) cluster1 (RDeleteGroup "" group_g) console
    sample_ntables group_g orders_only _). vm_compute. reflexivity.
Defined.

(** Bob takes over the NATS user of Alice. *)
Definition taken_over : result err NATSAccountUser * (Tables * NTables) :=
  AssignNATSAccountUserPerson "g2" 1 cluster1 "Default" nats_a bob (people, sample_ntables).
Lemma assignment_moves_the_grant_witness :
  holders (NATSUserResourceKey cluster1 "Default" nats_a) taken_over.2.1 = [bob] ∧
  match taken_over.1 with Ok x => nu_AssignedUserID x = bob | Err _ => False end.
Proof.
  split; [vm_compute; reflexivity|].
  assert (Hok : match taken_over.1 with Ok _ => true | Err _ => false end = true) by (vm_compute; reflexivity).
  destruct taken_over as [[x|e] [t' n']] eqn:E; [|discriminate Hok].
  refine (proj1 (assignment_moves_the_grant "g2" 1 cluster1 "Default" nats_a bob people sample_ntables x t' n' _ E)).
  right. vm_compute. reflexivity.
Defined.

(** The report on a subject, of which the first NATS user is part. *)
Definition report : result err SubjectPermissionsResult * (Tables * NTables) :=
  ListSubjectPermissions "g0" 1 cluster1 "Default" " orders.new " (people, sample_ntables).
Lemma report_matches_jwt_witness :
  match report.1 with
  | Ok r => se_UserID <$> sr_Publish r = [nats_a; nats_b] ∧
            ((∃ e, e ∈ sr_Publish r ∧ se_UserID e = nats_a) ↔
             fst (Permitted "orders.new" ["orders.>"] []) = true)
  | Err _ => False
  end.
Proof.
  assert (Hr : match report.1 with Ok r => se_UserID <$> sr_Publish r | Err _ => [] end = [nats_a; nats_b])
    by (vm_compute; reflexivity).
  assert (Hu : match fst (ListNATSAccountUsers cluster1 "Default" report.2) with Ok l => l | Err _ => [] end
    = [user_of_nrow nats_a (nrow "a" "SUA" "orders" (Some alice)); user_of_nrow nats_b (nrow "b" "SUB" "Default" None)])
    by (vm_compute; reflexivity).
  assert (Hg : fst (GetSigningGroup cluster1 "Default" "orders" report.2) = Ok orders_only) by (vm_compute; reflexivity).
  destruct report as [[r|e] s'] eqn:E; [|discriminate Hr]. cbn [fst snd] in *. split; [exact Hr|].
  destruct (fst (ListNATSAccountUsers cluster1 "Default" s')) as [users|e] eqn:El; [|discriminate Hu].
  pose proof (report_matches_jwt "g0" 1 cluster1 "Default" " orders.new " people sample_ntables r s' users
    (user_of_nrow nats_a (nrow "a" "SUA" "orders" (Some alice))) 0 "UA" sample_ntables_ok E El) as H.
  rewrite Hu in H. specialize (H ltac:(by left)). cbn zeta in H.
  replace (nc_SigningGroup _) with "orders" in H by reflexivity. rewrite Hg in H. exact (proj1 H).
Defined.

(** A second user of the name of the first is refused; the default group of the
    account has been made. *)
Definition refused : result err nanswer * (Service * NTables) :=
  run operator (RCreateUser (Some (mkUserRequest "a" "" (config "" [])))).
Lemma failed_requests_change_nothing_witness :
  code_of refused.1 = Some 400%Z ∧ size (nt_groups refused.2.2) = 2 ∧ size (nt_users refused.2.2) = 2 ∧
  s_db refused.2.1 = s_db console.
Proof.
  split; [vm_compute; reflexivity|]. split; [vm_compute; reflexivity|]. split; [vm_compute; reflexivity|].
  assert (Hc : code_of refused.1 = Some 400%Z) by (vm_compute; reflexivity).
  destruct refused as [[ans|e] [s' n']] eqn:E; [|discriminate Hc]. cbn [fst snd code_of] in *.
  refine (proj1 (failed_requests_change_nothing "SAccount" None (Some operator) cluster1
    (RCreateUser (Some (mkUserRequest "a" "" (config "" [])))) console sample_ntables ans s' n' eq_refl (λ _, eq_refl) E _)).
  injection Hc as ->. lia.
Defined.
