(* ===== verification/Runes.v ===== *)
(** The runes of a Go string, [[]rune(s)] and [for _, r := range s], and their
    case.

    A rune is its UTF-8 encoding, so that [string(runes[i:j])] is the
    concatenation of a part of the list.  A byte that starts no encoding gives
    the replacement character. *)

From S2P Require Export Prelude GoStrings.
From S2P Require Import LiveEncode.
From Stdlib Require Import Ascii.

Definition replacement : string :=
  String (ascii_of_nat 239) (String (ascii_of_nat 191) (String (ascii_of_nat 189) "")).

(** [skip] bytes belong to the rune before. *)
Fixpoint runes_from (skip : nat) (s : string) : list string :=
  match s with
  | "" => []
  | String a s' =>
      match skip with
      | S k => runes_from k s'
      | O => match utf8_start a with
             | Some p =>
                 if starts_in p s' then String a (String.substring 0 (length p) s') :: runes_from (length p) s'
                 else replacement :: runes_from 0 s'
             | None => replacement :: runes_from 0 s'
             end
      end
  end.
Definition runes (s : string) : list string := runes_from 0 s.

(** [string(runes)] *)
Definition of_runes (l : list string) : string := Join l "".

Definition one_ascii (r : string) : option ascii :=
  match r with
  | String a "" => if is_ascii_byte a then Some a else None
  | _ => None
  end.

(** [unicode.IsUpper], [unicode.IsLower] *)
Definition upper_byte_b (a : ascii) : bool := Nat.leb 65 (nat_of_ascii a) && Nat.leb (nat_of_ascii a) 90.
Definition lower_byte_b (a : ascii) : bool := Nat.leb 97 (nat_of_ascii a) && Nat.leb (nat_of_ascii a) 122.
Definition IsUpper `{GoUnicode} (r : string) : bool :=
  match one_ascii r with Some a => upper_byte_b a | None => unicode_is_upper r end.
Definition IsLower `{GoUnicode} (r : string) : bool :=
  match one_ascii r with Some a => lower_byte_b a | None => unicode_is_lower r end.

(** ** ASCII *)

Lemma runes_ascii s : is_ascii_string s = true → runes s = (λ a, String a "") <$> bytes_of s.
Proof.
  unfold runes, is_ascii_string. induction s as [|a s IH]; [done|]. intros [Ha Hs]%andb_true_iff.
  assert (Hu : utf8_start a = Some []) by (unfold utf8_start, code; unfold is_ascii_byte in Ha; cbv zeta; by rewrite Ha).
  cbn [runes_from]. rewrite Hu. cbn [starts_in length]. rewrite IH by done.
  replace (String.substring 0 0 s) with "" by (by destruct s). done.
Qed.

Lemma of_runes_cons r l : of_runes (r :: l) = r +:+ of_runes l.
Proof. unfold of_runes. destruct l as [|x l]; [by rewrite app_nil_r|]. by rewrite Join_cons, app_nil_l. Qed.

Lemma of_runes_ascii (l : list ascii) : of_runes ((λ a, String a "") <$> l) = of_bytes l.
Proof.
  induction l as [|a l IH]; [done|]. rewrite fmap_cons, of_runes_cons, IH. done.
Qed.

(** A rune and its byte are written back as they were. *)
Lemma of_runes_runes s : is_ascii_string s = true → of_runes (runes s) = s.
Proof. intros Hs. by rewrite runes_ascii, of_runes_ascii, of_bytes_of. Qed.

Example runes_mixed : runes (String (ascii_of_nat 195) (String (ascii_of_nat 169) (String (ascii_of_nat 169) "a")))
  = [String (ascii_of_nat 195) (String (ascii_of_nat 169) ""); replacement; "a"].
Proof. reflexivity. Qed.
