(* ===== verification/Sorting.v ===== *)
(** Stable sorting with a comparison, [sort.SliceStable], and the first elements of
    each key, the idiom of a map of seen keys: what they keep, and when two
    orders of the input give one result. *)

From S2P Require Export Prelude.
From S2P Require Import GoStrings.
From Stdlib Require Import Ascii.

(** [sort.SliceStable]: an element goes before the first that is not before it. *)
Fixpoint insert_stable {A} (le : A → A → bool) (x : A) (l : list A) : list A :=
  match l with
  | [] => [x]
  | y :: l => if le x y then x :: y :: l else y :: insert_stable le x l
  end.
Definition sort_stable {A} (le : A → A → bool) (l : list A) : list A := foldr (insert_stable le) [] l.

(** The first of the elements with one key. *)
Fixpoint first_by {A} `{EqDecision K} (key : A → K) (seen : list K) (l : list A) : list A :=
  match l with
  | [] => []
  | x :: l => if key x ∈b seen then first_by key seen l else x :: first_by key (key x :: seen) l
  end.

(** * Stable sorting *)

Section Stable.
Context {A : Type} (le : A → A → bool).
Hypothesis le_total : ∀ x y, le x y = false → le y x = true.
Hypothesis le_trans : ∀ x y z, le x y = true → le y z = true → le x z = true.

Lemma le_refl x : le x x = true.
Proof using le_total. destruct (le x x) eqn:E; [done|]. by rewrite (le_total _ _ E) in E. Qed.

Lemma insert_stable_perm x l : insert_stable le x l ≡ₚ x :: l.
Proof. induction l as [|y l IH]; [done|]. cbn. destruct (le x y); [done|]. rewrite IH. apply perm_swap. Qed.
Lemma sort_stable_perm l : sort_stable le l ≡ₚ l.
Proof. induction l as [|x l IH]; [done|]. cbn. by rewrite insert_stable_perm, IH. Qed.

Lemma insert_stable_sorted x l : StronglySorted (λ x y, le x y = true) l → StronglySorted (λ x y, le x y = true) (insert_stable le x l).
Proof using le_total le_trans.
  induction 1 as [|y l Hl IH Hy]; cbn; [by repeat constructor|]. destruct (le x y) eqn:E.
  - constructor; [by constructor|]. constructor; [done|]. eapply Forall_impl; [exact Hy|]. intros z. by apply le_trans.
  - constructor; [done|]. rewrite insert_stable_perm. constructor; [by apply le_total|done].
Qed.
Lemma sort_stable_sorted l : StronglySorted (λ x y, le x y = true) (sort_stable le l).
Proof using le_total le_trans. induction l as [|x l IH]; [constructor|]. by apply insert_stable_sorted. Qed.

(** Neither before the other. *)
Definition tied (z x : A) : bool := le z x && le x z.
Lemma tied_le z x y : tied z x = true → tied z y = true → le x y = true.
Proof using le_trans. unfold tied. rewrite !andb_true_iff. intros [_ H1] [H2 _]. by eapply le_trans. Qed.

(** Elements that are tied keep their order. *)
Lemma insert_stable_keeps z x l : List.filter (tied z) (insert_stable le x l) = List.filter (tied z) (x :: l).
Proof using le_trans.
  induction l as [|y l IH]; [done|]. cbn [insert_stable]. destruct (le x y) eqn:E; [done|].
  cbn [List.filter] in *. rewrite IH. destruct (tied z x) eqn:Ex, (tied z y) eqn:Ey; try done.
  by rewrite (tied_le z x y) in E.
Qed.
Lemma sort_stable_keeps z l : List.filter (tied z) (sort_stable le l) = List.filter (tied z) l.
Proof using le_trans. induction l as [|x l IH]; [done|]. cbn [sort_stable foldr]. rewrite insert_stable_keeps. cbn. by rewrite <- IH. Qed.

(** The sorted list is the only one that is sorted and keeps the order of those tied. *)
Lemma sorted_unique l k : StronglySorted (λ x y, le x y = true) l → StronglySorted (λ x y, le x y = true) k →
  (∀ z, List.filter (tied z) l = List.filter (tied z) k) → l = k.
Proof using le_total le_trans.
  assert (Hself : ∀ z m, z ∈ m ↔ z ∈ List.filter (tied z) m).
  { intros z m. rewrite !list_elem_of_In, filter_In. unfold tied. rewrite le_refl. tauto. }
  intros Hl. revert k. induction Hl as [|x l Hl IH Hx]; intros k Hk Hf.
  - destruct k as [|y k]; [done|]. exfalso. apply (not_elem_of_nil y). rewrite (Hself y []), Hf, <- Hself. by left.
  - destruct k as [|y k]; [exfalso; apply (not_elem_of_nil x); rewrite (Hself x []), <- Hf, <- Hself; by left|].
    apply StronglySorted_inv in Hk as [Hk Hy]. assert (Hxy : le x y = true ∧ le y x = true).
    { rewrite Forall_forall in Hx, Hy. split.
      - assert (Hyin : y ∈ x :: l) by (rewrite Hself, Hf, <- Hself; by left).
        apply elem_of_cons in Hyin as [->|?]; [apply le_refl|by apply Hx].
      - assert (Hxin : x ∈ y :: k) by (rewrite Hself, <- Hf, <- Hself; by left).
        apply elem_of_cons in Hxin as [->|?]; [apply le_refl|by apply Hy]. }
    assert (Hxx : tied x x = true) by (unfold tied; by rewrite le_refl).
    assert (Hty : tied x y = true) by (unfold tied; by destruct Hxy as [-> ->]).
    pose proof (Hf x) as Hfx. cbn in Hfx. rewrite Hxx, Hty in Hfx. injection Hfx as -> _. f_equal. apply IH; [done|]. intros z.
    pose proof (Hf z) as Hfz. cbn in Hfz. destruct (tied z y); [by injection Hfz|done].
Qed.
Lemma sort_stable_eq l k : (∀ z, List.filter (tied z) l = List.filter (tied z) k) → sort_stable le l = sort_stable le k.
Proof using le_total le_trans. intros Hf. apply sorted_unique; try apply sort_stable_sorted. intros z. by rewrite !sort_stable_keeps. Qed.
End Stable.

(** Permuted lists agree on elements that are all equal. *)
Lemma perm_all_equal {A} (l k : list A) : l ≡ₚ k → (∀ x y, x ∈ l → y ∈ l → x = y) → l = k.
Proof.
  intros Hp Heq. destruct l as [|x l]; [by apply Permutation_nil_l in Hp|].
  assert (Hl : ∀ m : list A, (∀ y, y ∈ m → y = x) → m = repeat x (length m)).
  { induction m as [|y m IH]; intros Hm; [done|]. cbn. rewrite <- IH by (intros; apply Hm; by right). f_equal. apply Hm. by left. }
  rewrite (Hl (x :: l)), (Hl k).
  - by rewrite Hp.
  - intros y Hy. rewrite <- Hp in Hy. apply Heq; [done|by left].
  - intros y Hy. apply Heq; [done|by left].
Qed.
Lemma perm_filter_eq {A} (p : A → bool) (l k : list A) : l ≡ₚ k →
  (∀ x y, x ∈ l → y ∈ l → p x = true → p y = true → x = y) → List.filter p l = List.filter p k.
Proof.
  intros Hp Heq. apply perm_all_equal.
  - clear Heq. induction Hp as [|x l k _ IH|x y l|l k m _ IH1 _ IH2]; cbn; [done| | |by etrans].
    + by destruct (p x); rewrite IH.
    + destruct (p x), (p y); try done. apply perm_swap.
  - intros x y [Hx Hpx]%list_elem_of_In%filter_In [Hy Hpy]%list_elem_of_In%filter_In.
    apply Heq; try done; by apply list_elem_of_In.
Qed.

(** * The first of each key *)

Section First.
Context {A : Type} `{EqDecision K} (key : A → K).

Lemma first_by_sub seen l x : x ∈ first_by key seen l → x ∈ l ∧ key x ∉ seen.
Proof.
  revert seen. induction l as [|y l IH]; intros seen; cbn; [by intros ?%not_elem_of_nil|].
  destruct (key y ∈b seen) eqn:E.
  - intros [Hin Hs]%IH. split; [by right|done].
  - intros [->|Hin]%elem_of_cons.
    + split; [by left|]. by rewrite <- elem_of_bool_spec, E.
    + apply IH in Hin as [Hin Hs]. split; [by right|]. intros Hx. apply Hs. by right.
Qed.
Lemma first_by_keys seen l : NoDup (key <$> first_by key seen l).
Proof.
  revert seen. induction l as [|y l IH]; intros seen; cbn; [constructor|]. destruct (key y ∈b seen); [apply IH|].
  cbn. constructor; [|apply IH]. intros (x & Ex & Hx)%list_elem_of_fmap. apply first_by_sub in Hx as [_ Hs]. apply Hs. rewrite <- Ex. by left.
Qed.
(** Every key is there. *)
Lemma first_by_cover seen l x : x ∈ l → key x ∈ seen ∨ ∃ y, y ∈ first_by key seen l ∧ key y = key x.
Proof.
  revert seen. induction l as [|y l IH]; intros seen; cbn; [by intros ?%not_elem_of_nil|].
  intros [->|Hin]%elem_of_cons; destruct (key y ∈b seen) eqn:E.
  - left. by apply elem_of_bool_spec.
  - right. exists y. split; [by left|done].
  - by apply IH.
  - destruct (IH (key y :: seen) Hin) as [[->|?]%elem_of_cons|(z & Hz & Ez)]; [|by left|right; exists z; split; [by right|done]].
    right. exists y. split; [by left|done].
Qed.
(** With keys that tell elements apart, the elements once each. *)
Lemma first_by_elem l x : (∀ x y, x ∈ l → y ∈ l → key x = key y → x = y) → x ∈ first_by key [] l ↔ x ∈ l.
Proof.
  intros Hinj. split; [by intros [? _]%first_by_sub|]. intros Hx.
  destruct (first_by_cover [] l x Hx) as [?%not_elem_of_nil|(y & Hy & Ey)]; [done|].
  assert (y = x) as <-; [|done]. apply Hinj; [by apply first_by_sub in Hy as [? _]|done..].
Qed.
Lemma first_by_NoDup seen l : NoDup (first_by key seen l).
Proof. eapply NoDup_fmap_1, first_by_keys. Qed.
End First.

(** * Texts that end in a number *)

(** The longest part of one kind is the same in equal lists. *)
Lemma split_at_kind {A} (P : A → bool) x y a b r t :
  (∀ c, c ∈ x → P c = true) → (∀ c, c ∈ y → P c = true) → P a = false → P b = false →
  x ++ a :: r = y ++ b :: t → x = y ∧ a :: r = b :: t.
Proof.
  intros Hx Hy Ha Hb. revert y Hy. induction x as [|c x IH]; intros [|d y] Hy; cbn; [done| | |].
  - intros [= -> _]. rewrite Hy in Ha by left. done.
  - intros [= <- _]. rewrite Hx in Hb by left. done.
  - intros [= -> E]. destruct (IH ltac:(intros; apply Hx; by right) y ltac:(intros; apply Hy; by right) E) as [-> ?]. done.
Qed.

Definition is_digit (a : ascii) : bool := if digit a then true else false.
Lemma pretty_digits x s : (∀ a, a ∈ bytes_of s → is_digit a = true) → ∀ a, a ∈ bytes_of (pretty_N_go x s) → is_digit a = true.
Proof.
  revert s. induction (N.lt_wf_0 x) as [x _ IH]; intros s Hs a.
  destruct (decide (0 < x)%N) as [Hx|]; [|assert (x = 0%N) as -> by lia; apply Hs].
  rewrite pretty_N_go_step by done. apply IH; [by apply N.div_lt|]. intros b. cbn.
  intros [->|Hb]%elem_of_cons; [|by apply Hs]. unfold is_digit. rewrite digit_char by (apply N.mod_lt; lia). done.
Qed.
Lemma Itoa_digits n a : (0 ≤ n)%Z → a ∈ bytes_of (Itoa n) → is_digit a = true.
Proof.
  intros Hn. destruct (decide (n = 0%Z)) as [->|]; [cbn; by intros ->%list_elem_of_singleton|].
  rewrite Itoa_go by lia. apply pretty_digits. intros b. by intros ?%not_elem_of_nil.
Qed.
(** A name before a number is known from the text. *)
Lemma name_number_inj s t sep c n k : (0 ≤ n)%Z → (0 ≤ k)%Z → is_digit c = false →
  s +:+ sep +:+ String c (Itoa n) = t +:+ sep +:+ String c (Itoa k) → s = t.
Proof.
  intros Hn Hk Hc E. apply (f_equal (λ x, rev (bytes_of x))) in E. rewrite !bytes_of_app, !rev_app_distr in E. cbn in E.
  rewrite <- !List.app_assoc in E. cbn in E.
  assert (Hd : ∀ m, (0 ≤ m)%Z → ∀ a, a ∈ rev (bytes_of (Itoa m)) → is_digit a = true).
  { intros m Hm a Ha%list_elem_of_In%in_rev%list_elem_of_In. by eapply Itoa_digits. }
  pose proof (split_at_kind is_digit _ _ _ _ _ _ (Hd n Hn) (Hd k Hk) Hc Hc E) as [_ E']. clear E. rename E' into E.
  injection E as E. apply app_inv_head in E. apply bytes_of_inj. apply (f_equal (@rev ascii)) in E. by rewrite !rev_involutive in E.
Qed.
(** A text with a name and a number, and what surrounds them. *)
Lemma titled_name_inj pre suf sep s t n k : (0 ≤ n)%Z → (0 ≤ k)%Z →
  pre +:+ s +:+ (sep +:+ " ") +:+ Itoa n +:+ suf = pre +:+ t +:+ (sep +:+ " ") +:+ Itoa k +:+ suf → s = t.
Proof.
  intros Hn Hk E. apply app_inv_l in E. apply (name_number_inj s t sep " " n k Hn Hk eq_refl).
  apply (f_equal bytes_of) in E. apply bytes_of_inj. rewrite !bytes_of_app in *.
  rewrite !List.app_assoc in E. apply List.app_inv_tail in E. rewrite <- !List.app_assoc in E. exact E.
Qed.
