(* ===== verification/Naming.v ===== *)
(** The names of subjects: internal/domain/subject_naming.go, which lints them and
    groups their variants, and internal/domain/event_genome.go, which groups
    those with synonymous actions.

    A Go map that is ranged over is a [gmap] with the list of its entries in the
    order taken, an argument. *)

From S2P Require Export Runes.
From Stdlib Require Import Ascii.

(** * Tokens *)

Definition replace_byte (from to : ascii) (s : string) : string :=
  of_bytes ((λ a, if bool_decide (a = from) then to else a) <$> bytes_of s).

Definition splitSeparators (s : string) : list string :=
  let s := replace_byte "_" "." s in
  let s := replace_byte "-" "." s in
  List.filter (λ p, negb (IsEmpty p)) (Split s ".").

Definition subjectHasWildcard (s : string) : bool :=
  existsb (λ tok, (tok =s "*") || (tok =s ">")) (Split s ".").

Definition singularize (tok : string) : string :=
  if Nat.ltb 1 (String.length tok) && HasSuffix tok "s" && negb (HasSuffix tok "ss")
  then String.substring 0 (String.length tok - 1) tok else tok.
Definition isPlural (tok : string) : bool := singularize tok <>s tok.

Definition actions : list string :=
  ["created"; "updated"; "deleted"; "cancelled"; "canceled"; "settled"; "failed"; "shipped"; "paid"; "received";
   "completed"; "started"; "stopped"; "published"; "requested"; "approved"; "rejected"].
Definition looksLikeAction (tok : string) : bool :=
  if tok ∈b actions then true else Nat.ltb 3 (String.length tok) && HasSuffix tok "ed".

Definition expandShallow (tokens : list string) : string :=
  match tokens with
  | [first; second] =>
      if looksLikeAction second then
        if isPlural first then first +:+ "." +:+ singularize first +:+ "." +:+ second
        else first +:+ "." +:+ first +:+ "." +:+ second
      else first +:+ "." +:+ second +:+ ".created"
  | _ => Join tokens "."
  end.

Section Naming.
Context `{GoUnicode}.

Definition camel_boundary (prev cur : string) (rest : list string) : bool :=
  (IsUpper cur && IsLower prev) ||
  (IsUpper cur && match rest with next :: _ => IsLower next | [] => false end && IsUpper prev).
(** [token] is the part of the current token already read, [prev] its last rune. *)
Fixpoint split_runes (token : list string) (prev : string) (rest : list string) : list (list string) :=
  match rest with
  | [] => [token]
  | cur :: rest =>
      if camel_boundary prev cur rest then token :: split_runes [cur] cur rest
      else split_runes (token ++ [cur]) cur rest
  end.
Definition splitCamel (s : string) : list string :=
  match runes s with
  | [] => []
  | r :: rest => of_runes <$> split_runes [r] r rest
  end.

(** What [NormalizeSubject] keeps of a token. *)
Definition keep_token (t : string) : option string :=
  let t := ToLower (TrimSpace t) in
  if IsEmpty t || (t =s "*") || (t =s ">") then None else Some t.
Definition normal_tokens (s : string) : list string :=
  let s := TrimSpace s in
  if IsEmpty s then [] else omap keep_token (flat_map splitCamel (splitSeparators s)).
Definition NormalizeSubject (s : string) : string := Join (normal_tokens s) ".".

Definition SubjectFingerprint (s : string) : string :=
  let norm := NormalizeSubject s in
  if IsEmpty norm then ""
  else match Split norm "." with
  | [] => ""
  | t :: tokens => Join (singularize t :: tokens) "."
  end.

Definition looksCamelOrPascal (s : string) : bool := existsb IsLower (runes s) && existsb IsUpper (runes s).

Definition has_separator (s : string) : bool := ContainsByte s "_" || ContainsByte s "-".

Definition literalTokenCount (s : string) : nat :=
  if ContainsByte s "." || has_separator s
  then foldl (λ n tok, n + length (splitCamel tok)) 0 (splitSeparators s)
  else if looksCamelOrPascal s then length (splitCamel s)
  else if IsEmpty (TrimSpace s) then 0 else 1.

(** * Inputs and occurrences, shared by both analyses *)

(** [SubjectNamingConsumerInput], [EventGenomeConsumerInput] *)
Record NamingConsumer := mkNamingConsumer {
  nmc_Name : string;
  nmc_FilterSubject : string;
  nmc_FilterSubjects : list string;
}.
(** [SubjectNamingInput], [EventGenomeInput] *)
Record NamingInput := mkNamingInput {
  nmi_Name : string;
  nmi_Subjects : list string;
  nmi_Consumers : list NamingConsumer;
}.
Record namingOccurrence := mkOccurrence {
  oc_Stream : string;
  oc_Consumer : string;
  oc_Subject : string;
}.

Definition nonempty_trimmed (s : string) : option string :=
  let s := TrimSpace s in if IsEmpty s then None else Some s.
(** [namingConsumerFilters], [genomeConsumerFilters] *)
Definition namingConsumerFilters (c : NamingConsumer) : list string :=
  omap nonempty_trimmed (nmc_FilterSubject c :: nmc_FilterSubjects c).

Definition nul : string := String (ascii_of_nat 0) "".
Definition occurrence_key (o : namingOccurrence) : string :=
  oc_Stream o +:+ nul +:+ oc_Consumer o +:+ nul +:+ oc_Subject o.

(** The subjects of a stream, then the filters of its consumers. *)
Definition stream_occurrences (stream : NamingInput) : list namingOccurrence :=
  let name := TrimSpace (nmi_Name stream) in
  (mkOccurrence name "" <$> List.filter (λ s, negb (subjectHasWildcard s)) (omap nonempty_trimmed (nmi_Subjects stream))) ++
  flat_map (λ c, mkOccurrence name (TrimSpace (nmc_Name c)) <$>
                   List.filter (λ s, negb (subjectHasWildcard s)) (namingConsumerFilters c)) (nmi_Consumers stream).
(** The first of those with one key. *)
Fixpoint first_of_key (seen : list string) (l : list namingOccurrence) : list namingOccurrence :=
  match l with
  | [] => []
  | o :: l =>
      if occurrence_key o ∈b seen then first_of_key seen l
      else o :: first_of_key (occurrence_key o :: seen) l
  end.
Definition occurrences (inputs : list NamingInput) : list namingOccurrence :=
  first_of_key [] (flat_map stream_occurrences inputs).

(** [groups[fp] = append(groups[fp], occ)] *)
Definition add_to_group (key : string → string) (groups : gmap string (list namingOccurrence)) (o : namingOccurrence) :
    gmap string (list namingOccurrence) :=
  let fp := key (oc_Subject o) in
  if IsEmpty fp then groups else <[fp := default [] (groups !! fp) ++ [o]]> groups.
Definition group_by (key : string → string) (occs : list namingOccurrence) : gmap string (list namingOccurrence) :=
  foldl (add_to_group key) ∅ occs.

Definition uniqueLiterals (members : list namingOccurrence) : list string :=
  foldl (λ out m, if oc_Subject m ∈b out then out else out ++ [oc_Subject m]) [] members.

(** ** The suggestion for a cluster *)

Definition literal_score (lit : string) : nat :=
  let norm := NormalizeSubject lit in
  length (Split norm ".") + (if lit =s norm then 10 else 0).
(** The best so far, with its score. *)
Definition better (best : option (nat * string)) (lit : string) : option (nat * string) :=
  let norm := NormalizeSubject lit in
  let score := literal_score lit in
  match best with
  | None => Some (score, norm)
  | Some (bestScore, bestNorm) =>
      if Nat.ltb bestScore score || (Nat.eqb score bestScore && Nat.ltb (String.length bestNorm) (String.length norm))
      then Some (score, norm) else best
  end.
Definition best_norm (literals : list string) : string :=
  match foldl better None literals with Some (_, norm) => norm | None => "" end.

(** The first token of the first literal where it is a plural. *)
Definition plural_head (lit : string) : option string :=
  match Split (NormalizeSubject lit) "." with
  | p :: _ => if isPlural p then Some p else None
  | [] => None
  end.
Definition plural_domain (literals : list string) : option string := head (omap plural_head literals).

Definition clusterSuggestion (literals : list string) : string :=
  let bestNorm := best_norm literals in
  match Split bestNorm "." with
  | [first; second] =>
      match plural_domain literals with
      | Some p => if IsEmpty p then expandShallow [first; second] else p +:+ "." +:+ singularize p +:+ "." +:+ second
      | None => expandShallow [first; second]
      end
  | _ :: second :: third :: rest =>
      match plural_domain literals with
      | Some p => Join (p :: (if second =s p then singularize p else second) :: third :: rest) "."
      | None => bestNorm
      end
  | _ => bestNorm
  end.

(** * internal/domain/subject_naming.go *)

Inductive SubjectNamingKind := WrongCase | MissingDots | NonDotSeparator | ShallowHierarchy | InconsistentVariant.
#[export] Instance SubjectNamingKind_eq_dec : EqDecision SubjectNamingKind.
Proof. solve_decision. Defined.

Record SubjectNamingFinding := mkNamingFinding {
  sn_Kind : SubjectNamingKind;
  sn_Where : namingOccurrence;    (* stream, consumer and subject *)
  sn_Suggested : string;
  sn_Cluster : list string;
}.
Record SubjectNamingTotals := mkNamingTotals {
  snt_WrongCase : nat;
  snt_MissingDots : nat;
  snt_NonDotSeparator : nat;
  snt_ShallowHierarchy : nat;
  snt_InconsistentVariants : nat;
  snt_Total : nat;
}.

Definition shallow_suggestion (norm : string) : string :=
  let tokens := Split norm "." in
  if Nat.eqb (length tokens) 2 then expandShallow tokens else norm.

Definition lintSubject (occ : namingOccurrence) : list SubjectNamingFinding :=
  let s := oc_Subject occ in
  let norm := NormalizeSubject s in
  let n := literalTokenCount s in
  (if existsb IsUpper (runes s) then [mkNamingFinding WrongCase occ norm []] else []) ++
  (if negb (ContainsByte s ".") && looksCamelOrPascal s then [mkNamingFinding MissingDots occ norm []] else []) ++
  (if has_separator s then [mkNamingFinding NonDotSeparator occ norm []] else []) ++
  (if Nat.ltb 0 n && Nat.ltb n 3 then [mkNamingFinding ShallowHierarchy occ (shallow_suggestion norm) []] else []).

(** The findings of one group. *)
Definition variant_findings (members : list namingOccurrence) : list SubjectNamingFinding :=
  let literals := uniqueLiterals members in
  if Nat.ltb (length literals) 2 then []
  else
    let suggested := clusterSuggestion literals in
    (λ occ, mkNamingFinding InconsistentVariant occ suggested (SortStrings literals)) <$>
      List.filter (λ occ, oc_Subject occ <>s suggested) members.

Definition tally_naming (t : SubjectNamingTotals) (f : SubjectNamingFinding) : SubjectNamingTotals :=
  let '(mkNamingTotals w m d s i n) := t in
  match sn_Kind f with
  | WrongCase => mkNamingTotals (S w) m d s i n
  | MissingDots => mkNamingTotals w (S m) d s i n
  | NonDotSeparator => mkNamingTotals w m (S d) s i n
  | ShallowHierarchy => mkNamingTotals w m d (S s) i n
  | InconsistentVariant => mkNamingTotals w m d s (S i) n
  end.
Definition tallySubjectNamingFindings (findings : list SubjectNamingFinding) : SubjectNamingTotals :=
  foldl tally_naming (mkNamingTotals 0 0 0 0 0 (length findings)) findings.

(** The findings and their totals; [range] is the order in which the map of groups
    is ranged over. *)
Definition AnalyzeSubjectNaming (range : gmap string (list namingOccurrence) → list (string * list namingOccurrence))
    (inputs : list NamingInput) : list SubjectNamingFinding * SubjectNamingTotals :=
  let occs := occurrences inputs in
  let findings := flat_map lintSubject occs ++
                  flat_map (λ g, variant_findings g.2) (range (group_by SubjectFingerprint occs)) in
  (findings, tallySubjectNamingFindings findings).

(** * internal/domain/event_genome.go *)

Definition actionSynonyms : list (string * string) :=
  [("created", "created"); ("new", "created"); ("added", "created"); ("insert", "created"); ("inserted", "created");
   ("updated", "updated"); ("changed", "updated"); ("modified", "updated"); ("patched", "updated");
   ("deleted", "deleted"); ("removed", "deleted"); ("cancelled", "deleted"); ("canceled", "deleted")].
Definition canonicalizeAction (tok : string) : string :=
  let tok := ToLower (TrimSpace tok) in
  match List.find (λ e, e.1 =s tok) actionSynonyms with
  | Some (_, canon) => canon
  | None => tok
  end.

(** [tokens[len(tokens)-1] = f(tokens[len(tokens)-1])] *)
Fixpoint map_last (f g : string → string) (l : list string) : list string :=
  match l with
  | [] => []
  | [x] => [g x]
  | x :: l => f x :: map_last f g l
  end.

Definition EventGenomeKey (s : string) : string :=
  let norm := NormalizeSubject s in
  if IsEmpty norm then ""
  else match Split norm "." with
  | [] => ""
  | [t] => canonicalizeAction (singularize t)
  | tokens => Join (map_last singularize canonicalizeAction tokens) "."
  end.

Definition withCanonicalAction (suggested : string) : string :=
  let suggested := TrimSpace suggested in
  if IsEmpty suggested then suggested else Join (map_last id canonicalizeAction (Split suggested ".")) ".".

Inductive GenomeReason := ActionSynonym | EntityVariant.
Definition genomeReasons (subject suggested : string) : list GenomeReason :=
  let tokens := Split (NormalizeSubject subject) "." in
  let synonym := canonicalizeAction (default "" (last tokens)) <>s default "" (last tokens) in
  let variant := existsb isPlural (removelast tokens) in
  if synonym then ActionSynonym :: (if variant then [EntityVariant] else []) else [EntityVariant].

Record EventGenomeFinding := mkGenomeFinding {
  gf_Genome : string;
  gf_Where : namingOccurrence;
  gf_Suggested : string;
  gf_Cluster : list string;
  gf_Reasons : list GenomeReason;
}.
(** [Duplicates] and [Total] are the number of findings. *)
Record EventGenomeSnapshot := mkGenomeSnapshot {
  gs_Findings : list EventGenomeFinding;
  gs_Clusters : nat;
}.

Definition is_cluster (members : list namingOccurrence) : bool := negb (Nat.ltb (length (uniqueLiterals members)) 2).
Definition genome_findings (g : string * list namingOccurrence) : list EventGenomeFinding :=
  let literals := uniqueLiterals g.2 in
  if negb (is_cluster g.2) then []
  else
    let suggested := withCanonicalAction (clusterSuggestion literals) in
    (λ occ, mkGenomeFinding g.1 occ suggested (SortStrings literals) (genomeReasons (oc_Subject occ) suggested)) <$>
      List.filter (λ occ, oc_Subject occ <>s suggested) g.2.

(** By genome, stream, consumer and subject. *)
Definition genome_key (f : EventGenomeFinding) : list string :=
  [gf_Genome f; oc_Stream (gf_Where f); oc_Consumer (gf_Where f); oc_Subject (gf_Where f)].
Fixpoint keys_le (a b : list string) : Prop :=
  match a, b with
  | x :: a, y :: b => (x ≠ y ∧ String.le x y) ∨ (x = y ∧ keys_le a b)
  | [], _ => True
  | _, [] => False
  end.
#[export] Instance keys_le_dec a b : Decision (keys_le a b).
Proof. revert b. induction a as [|x a IH]; intros [|y b]; cbn; apply _. Defined.
Definition finding_le (f g : EventGenomeFinding) : Prop := keys_le (genome_key f) (genome_key g).
#[export] Instance finding_le_dec f g : Decision (finding_le f g) := keys_le_dec _ _.

Definition AnalyzeEventGenome (range : gmap string (list namingOccurrence) → list (string * list namingOccurrence))
    (inputs : list NamingInput) : EventGenomeSnapshot :=
  let groups := range (group_by EventGenomeKey (occurrences inputs)) in
  mkGenomeSnapshot (merge_sort finding_le (flat_map genome_findings groups))
    (length (List.filter (λ g, is_cluster g.2) groups)).
End Naming.
