(* ===== verification/NamingFacts.v ===== *)
(** What the analyses of subject names guarantee: a normalized subject is final,
    the variants reported are exactly those of a group, whatever the order of the
    maps, and the genome report does not depend on that order. *)

From S2P Require Import Prelude GoStrings Runes Naming.
From Stdlib Require Import Ascii.

(** * Bytes of ASCII subjects *)

Lemma ascii_bytes s : is_ascii_string s = true ↔ ∀ a, a ∈ bytes_of s → is_ascii_byte a = true.
Proof. apply forallb_true_iff. Qed.
Lemma ContainsByte_bytes s c : ContainsByte s c = false ↔ c ∉ bytes_of s.
Proof.
  induction s as [|a s IH]; cbn; [split; [intros _; apply not_elem_of_nil|done]|].
  rewrite orb_false_iff, bool_decide_eq_false, IH, not_elem_of_cons. split; intros [? ?]; split; congruence || done.
Qed.

(** Letters in lower case. *)
Lemma lower_byte_ascii a : is_ascii_byte a = true → is_ascii_byte (lower_byte a) = true.
Proof. destruct a as [[] [] [] [] [] [] [] []]; by vm_compute. Qed.
Lemma lower_byte_not_upper a : upper_byte_b (lower_byte a) = false.
Proof. destruct a as [[] [] [] [] [] [] [] []]; by vm_compute. Qed.
Lemma lower_byte_id a : upper_byte_b a = false → lower_byte a = a.
Proof. destruct a as [[] [] [] [] [] [] [] []]; by vm_compute. Qed.
Lemma lower_byte_space a : space1 (lower_byte a) = space1 a.
Proof. destruct a as [[] [] [] [] [] [] [] []]; by vm_compute. Qed.
Lemma lower_byte_sep a : a ≠ "."%char ∧ a ≠ "_"%char ∧ a ≠ "-"%char →
  lower_byte a ≠ "."%char ∧ lower_byte a ≠ "_"%char ∧ lower_byte a ≠ "-"%char.
Proof. destruct a as [[] [] [] [] [] [] [] []]; vm_compute; intuition congruence. Qed.

(** ** White space at the ends *)

Definition clean_ends (l : list ascii) : Prop :=
  (∀ a, head l = Some a → space1 a = false) ∧ (∀ a, last l = Some a → space1 a = false).

Lemma no_lead_head s1 s2 s3 l : no_lead s1 s2 s3 l → ∀ a, head l = Some a → s1 a = false.
Proof. destruct l as [|a [|b [|c l]]]; cbn; intros H x; [done|..]; intros [= <-]; tauto. Qed.
Lemma head_reverse {A} (l : list A) : head (reverse l) = last l.
Proof. by rewrite <- (reverse_involutive l) at 2; rewrite last_reverse. Qed.

Lemma list_head_fmap {A B} (f : A → B) l : head (f <$> l) = f <$> head l.
Proof. by destruct l. Qed.
Lemma list_last_fmap {A B} (f : A → B) l : last (f <$> l) = f <$> last l.
Proof. induction l as [|x [|y l] IH]; [done|done|]. exact IH. Qed.

Lemma TrimSpace_ends s : clean_ends (bytes_of (TrimSpace s)).
Proof.
  unfold TrimSpace. rewrite bytes_of_of.
  destruct (trim_front_spec space1 space2 space3 (bytes_of s)) as (_ & _ & Hl). fold trim_left in Hl.
  set (l := trim_left (bytes_of s)) in *. split.
  - destruct (trim_right_prefix l) as [r Hr]. rewrite Hr in Hl. apply no_lead_prefix in Hl.
    by apply (no_lead_head _ _ _ _ Hl).
  - intros a. rewrite <- head_reverse. unfold trim_right. rewrite reverse_involutive.
    match goal with |- context [trim_front ?a ?b ?c ?d] => destruct (trim_front_spec a b c d) as (_ & _ & Hn) end.
    by apply (no_lead_head _ _ _ _ Hn).
Qed.

Lemma space2_ascii a b : is_ascii_byte a = true → space2 a b = false.
Proof. destruct a as [[] [] [] [] [] [] [] []]; by vm_compute. Qed.
Lemma space3_ascii a b c : is_ascii_byte a = true → space3 a b c = false.
Proof. destruct a as [[] [] [] [] [] [] [] []]; by vm_compute. Qed.

Lemma TrimSpace_clean s : is_ascii_string s = true → clean_ends (bytes_of s) → TrimSpace s = s.
Proof.
  intros Ha [Hh Hl]. unfold TrimSpace. apply bytes_of_inj. rewrite bytes_of_of. rewrite ascii_bytes in Ha.
  set (l := bytes_of s) in *. clearbody l. clear s.
  assert (E : trim_left l = l).
  { unfold trim_left. apply trim_front_id. destruct l as [|a l]; [done|].
    specialize (Hh a eq_refl). assert (Haa : is_ascii_byte a = true) by (apply Ha; left).
    destruct l as [|b [|c l]]; cbn; [done|by rewrite space2_ascii|]. by rewrite space2_ascii, space3_ascii. }
  rewrite E. unfold trim_right. rewrite trim_front_id; [by apply reverse_involutive|].
  rewrite <- head_reverse in Hl.
  assert (Hr : ∀ a, a ∈ reverse l → is_ascii_byte a = true) by (intros a Hin; apply Ha; by rewrite <- elem_of_reverse).
  destruct (reverse l) as [|a r]; [done|]. specialize (Hl a eq_refl).
  destruct r as [|b [|c r]]; cbn; [done| |].
  - rewrite space2_ascii; [done|]. apply Hr. right; left.
  - rewrite space2_ascii by (apply Hr; right; left). rewrite space3_ascii; [done|]. apply Hr. right; right; left.
Qed.

Lemma TrimSpace_sub s a : a ∈ bytes_of (TrimSpace s) → a ∈ bytes_of s.
Proof.
  unfold TrimSpace. rewrite bytes_of_of. intros Hin.
  destruct (trim_front_spec space1 space2 space3 (bytes_of s)) as (p & Hp & _). fold trim_left in Hp.
  rewrite Hp. apply elem_of_app. right. destruct (trim_right_prefix (trim_left (bytes_of s))) as [r Hr].
  rewrite Hr. apply elem_of_app. by left.
Qed.

(** * Splitting *)

Lemma replace_byte_in from to s a : a ∈ bytes_of (replace_byte from to s) → a = to ∨ a ∈ bytes_of s ∧ a ≠ from.
Proof.
  unfold replace_byte. rewrite bytes_of_of. intros (b & -> & Hb)%list_elem_of_fmap.
  case_bool_decide; [by left|by right].
Qed.
Lemma replace_byte_id from to s : ContainsByte s from = false → replace_byte from to s = s.
Proof.
  rewrite ContainsByte_bytes. intros Hn. unfold replace_byte. apply bytes_of_inj. rewrite bytes_of_of.
  rewrite <- (list_fmap_id (bytes_of s)) at 2. apply list_fmap_ext. intros i a Hi.
  rewrite bool_decide_eq_false_2; [done|]. intros ->. apply Hn. by apply list_elem_of_lookup_2 in Hi.
Qed.

Lemma Split_sub s c t a : t ∈ Split s c → a ∈ bytes_of t → a ∈ bytes_of s.
Proof.
  revert t. induction s as [|b s IH]; cbn; intros t.
  - intros ->%list_elem_of_singleton. done.
  - case_bool_decide.
    + intros [->|Ht]%elem_of_cons Ha; [by apply not_elem_of_nil in Ha|]. right. by eapply IH.
    + pose proof (Split_nonempty s c). destruct (Split s c) as [|h l]; [done|].
      intros [->|Ht]%elem_of_cons Ha.
      * cbn in Ha. apply elem_of_cons in Ha as [->|Ha]; [left|right]. eapply IH; [left|done].
      * right. eapply IH; [right; exact Ht|done].
Qed.

(** A part: nothing of a separator, and only bytes of the subject. *)
Lemma splitSeparators_parts s p : p ∈ splitSeparators s →
  p ≠ "" ∧ ∀ a, a ∈ bytes_of p → a ∈ bytes_of s ∧ a ≠ "."%char ∧ a ≠ "_"%char ∧ a ≠ "-"%char.
Proof.
  unfold splitSeparators. intros [Hp Hne]%list_elem_of_In%filter_In. apply list_elem_of_In in Hp. split.
  { apply IsEmpty_false. by destruct (IsEmpty p). }
  intros a Ha. assert (Hd : a ≠ "."%char).
  { intros ->. apply Split_no_sep, ContainsByte_bytes in Hp. done. }
  pose proof (Split_sub _ _ _ _ Hp Ha) as H1.
  apply replace_byte_in in H1 as [->|[H1 H2]]; [done|]. apply replace_byte_in in H1 as [->|[H1 H3]]; [done|]. done.
Qed.

Section Facts.
Context `{GoUnicode}.

Lemma split_runes_concat token prev rest : concat (split_runes token prev rest) = token ++ rest.
Proof.
  revert token prev. induction rest as [|cur rest IH]; intros token prev; cbn [split_runes].
  - cbn. done.
  - destruct (camel_boundary _ _ _); cbn [concat]; rewrite IH; [done|]. by rewrite <- (assoc_L (++)).
Qed.

(** The tokens of a part, put together, are the part. *)
Lemma splitCamel_sub p t a : is_ascii_string p = true → t ∈ splitCamel p → a ∈ bytes_of t → a ∈ bytes_of p.
Proof.
  intros Hp. unfold splitCamel. rewrite runes_ascii by done.
  destruct (bytes_of p) as [|b l] eqn:E; [by intros ?%not_elem_of_nil|]. rewrite fmap_cons.
  intros (rs & -> & Hrs)%list_elem_of_fmap Ha.
  pose proof (split_runes_concat [String b ""] (String b "") ((λ a, String a "") <$> l)) as Hc.
  assert (Hsub : ∀ r, r ∈ rs → r ∈ (λ a, String a "") <$> (b :: l)).
  { intros r Hr. rewrite fmap_cons. change (String b "" :: _) with ([String b ""] ++ ((λ a, String a "") <$> l)).
    rewrite <- Hc. apply list_elem_of_In, in_concat. exists rs. by rewrite <- !list_elem_of_In. }
  clear Hc Hrs. revert Ha. induction rs as [|r rs IH]; [by intros ?%not_elem_of_nil|].
  rewrite of_runes_cons, bytes_of_app, elem_of_app. intros [Ha|Ha].
  - assert (Hr : r ∈ (λ a, String a "") <$> (b :: l)) by (apply Hsub; left).
    apply list_elem_of_fmap in Hr as (c & -> & Hcl). apply list_elem_of_singleton in Ha as ->. done.
  - apply IH; [|done]. intros r' Hr'. apply Hsub. by right.
Qed.

Lemma IsUpper_byte a : is_ascii_byte a = true → IsUpper (String a "") = upper_byte_b a.
Proof. intros Ha. unfold IsUpper. cbn [one_ascii]. by rewrite Ha. Qed.

(** Nothing is split where there is no capital. *)
Lemma split_runes_plain token prev rest : Forall (λ r, IsUpper r = false) rest → split_runes token prev rest = [token ++ rest].
Proof.
  revert token prev. induction rest as [|cur rest IH]; intros token prev Hu; cbn [split_runes]; [by rewrite (right_id_L [] (++))|].
  apply Forall_cons in Hu as [Hc Hu]. unfold camel_boundary. rewrite Hc. cbn. rewrite IH by done. by rewrite <- (assoc_L (++)).
Qed.

(** * Normal subjects *)

Record normal_token (t : string) : Prop := mkNormal {
  nt_nonempty : t ≠ "";
  nt_bytes : ∀ a, a ∈ bytes_of t → is_ascii_byte a = true ∧ upper_byte_b a = false ∧ a ≠ "."%char ∧ a ≠ "_"%char ∧ a ≠ "-"%char;
  nt_ends : clean_ends (bytes_of t);
  nt_literal : t ≠ "*" ∧ t ≠ ">";
}.

Lemma ToLower_bytes t : is_ascii_string t = true → bytes_of (ToLower t) = lower_byte <$> bytes_of t.
Proof. intros Ht. unfold ToLower. rewrite Ht. unfold lower_ascii. by rewrite bytes_of_of. Qed.

Lemma keep_token_normal p t t' : is_ascii_string p = true →
  (∀ a, a ∈ bytes_of p → a ≠ "."%char ∧ a ≠ "_"%char ∧ a ≠ "-"%char) →
  t ∈ splitCamel p → keep_token t = Some t' → normal_token t'.
Proof.
  intros Hp Hsep Ht. unfold keep_token. cbv zeta.
  assert (Hin : ∀ a, a ∈ bytes_of (TrimSpace t) → a ∈ bytes_of p).
  { intros a Ha%TrimSpace_sub. by eapply splitCamel_sub. }
  assert (Hta : is_ascii_string (TrimSpace t) = true).
  { apply ascii_bytes. intros a Ha. rewrite ascii_bytes in Hp. by apply Hp, Hin. }
  pose proof (ToLower_bytes _ Hta) as Hb. pose proof (TrimSpace_ends t) as [Hh Hl].
  set (u := ToLower (TrimSpace t)) in *.
  destruct (IsEmpty u) eqn:He; [done|]. destruct (u =s "*") eqn:E1; [done|]. destruct (u =s ">") eqn:E2; [done|].
  intros [= <-]. apply IsEmpty_false in He. apply bool_decide_eq_false in E1, E2. constructor; [done| | |done].
  - intros a. rewrite Hb. intros (b & -> & Hbin)%list_elem_of_fmap. pose proof (Hin b Hbin) as Hbp.
    rewrite ascii_bytes in Hta. split; [by apply lower_byte_ascii, Hta|]. split; [apply lower_byte_not_upper|].
    by apply lower_byte_sep, Hsep.
  - rewrite Hb. split; intros a.
    + rewrite list_head_fmap. intros (b & Hb' & ->)%fmap_Some. rewrite lower_byte_space. by apply Hh.
    + rewrite list_last_fmap. intros (b & Hb' & ->)%fmap_Some. rewrite lower_byte_space. by apply Hl.
Qed.

Lemma normal_tokens_normal s t : is_ascii_string s = true → t ∈ normal_tokens s → normal_token t.
Proof.
  intros Hs. unfold normal_tokens. cbv zeta. destruct (IsEmpty (TrimSpace s)); [by intros ?%not_elem_of_nil|].
  intros (u & Hu & Hk)%list_elem_of_omap. apply list_elem_of_In, in_flat_map in Hu as (p & Hp & Hu).
  apply list_elem_of_In in Hp, Hu. apply splitSeparators_parts in Hp as [_ Hp].
  eapply keep_token_normal; [| |exact Hu|exact Hk].
  - apply ascii_bytes. intros a (Ha & _)%Hp. rewrite ascii_bytes in Hs. by apply Hs, TrimSpace_sub.
  - intros a Ha. by apply Hp in Ha as (_ & ?).
Qed.

(** A normal token is normalized to itself. *)
Lemma normal_splitCamel t : normal_token t → splitCamel t = [t].
Proof.
  intros [Hne Hb _ _]. assert (Ha : is_ascii_string t = true) by (apply ascii_bytes; intros a Ha; by apply Hb).
  unfold splitCamel. destruct (runes t) as [|r rest] eqn:E.
  { rewrite runes_ascii in E by done. destruct (bytes_of t) eqn:Et; [|done].
    exfalso. apply Hne. apply bytes_of_inj. by rewrite Et. }
  rewrite split_runes_plain.
  - change (of_runes <$> [[r] ++ rest]) with [of_runes (r :: rest)]. by rewrite <- E, of_runes_runes.
  - apply Forall_forall. intros x Hx. assert (Hin : x ∈ runes t) by (rewrite E; by right).
    rewrite runes_ascii in Hin by done. apply list_elem_of_fmap in Hin as (a & -> & Hin).
    destruct (Hb a Hin) as (Haa & Hu & _). by rewrite IsUpper_byte.
Qed.
Lemma normal_ascii t : normal_token t → is_ascii_string t = true.
Proof. intros Ht. apply ascii_bytes. intros a Ha. by apply Ht. Qed.
Lemma normal_lower t : normal_token t → ToLower t = t.
Proof.
  intros Ht. apply bytes_of_inj. rewrite ToLower_bytes by by apply normal_ascii.
  rewrite <- (list_fmap_id (bytes_of t)) at 2. apply list_fmap_ext. intros i a Hi.
  apply lower_byte_id. apply list_elem_of_lookup_2 in Hi. by apply Ht.
Qed.
Lemma normal_keep t : normal_token t → keep_token t = Some t.
Proof.
  intros Ht. unfold keep_token. rewrite (TrimSpace_clean t); [|by apply normal_ascii|by apply Ht]. cbv zeta.
  rewrite normal_lower by done. destruct Ht as [Hne _ _ [H1 H2]]. apply IsEmpty_false in Hne. rewrite Hne.
  by rewrite !bool_decide_eq_false_2.
Qed.

Lemma omap_keep l : Forall normal_token l → omap keep_token (flat_map splitCamel l) = l.
Proof.
  induction 1 as [|t l Ht Hl IH]; [done|]. cbn. rewrite normal_splitCamel by done. cbn.
  by rewrite normal_keep, IH.
Qed.

(** The bytes of a dotted subject. *)
Lemma Join_bytes l a : a ∈ bytes_of (Join l ".") → a = "."%char ∨ ∃ t, t ∈ l ∧ a ∈ bytes_of t.
Proof.
  induction l as [|t l IH]; [by intros ?%not_elem_of_nil|]. destruct l as [|u l].
  - intros Ha. right. exists t. split; [left|done].
  - rewrite Join_cons, !bytes_of_app, !elem_of_app. intros [Ha|[Ha|Ha]].
    + right. exists t. split; [left|done].
    + left. by apply list_elem_of_singleton in Ha.
    + apply IH in Ha as [->|(v & Hv & Ha)]; [by left|]. right. exists v. split; [by right|done].
Qed.
Lemma Join_head t l : t ≠ "" → head (bytes_of (Join (t :: l) ".")) = head (bytes_of t).
Proof. intros Ht. destruct l; [done|]. rewrite Join_cons, bytes_of_app. by destruct t. Qed.
Lemma Join_last l t : last l = Some t → t ≠ "" → last (bytes_of (Join l ".")) = last (bytes_of t).
Proof.
  intros Hl Ht. assert (Hne : last (bytes_of t) ≠ None) by (rewrite last_None; by destruct t).
  induction l as [|x l IH]; [done|]. destruct l as [|y l]; [by injection Hl as ->|].
  rewrite Join_cons, !bytes_of_app, !last_app. rewrite IH by done. by destruct (last (bytes_of t)).
Qed.
Lemma Join_clean l : Forall normal_token l → clean_ends (bytes_of (Join l ".")).
Proof.
  intros Hl. destruct l as [|t l]; [by split|].
  pose proof (proj1 (Forall_cons _ _ _) Hl) as [Ht _]. split.
  - rewrite Join_head by apply Ht. apply Ht.
  - destruct (last (t :: l)) as [u|] eqn:E; [|by apply last_None in E].
    assert (Hu : normal_token u) by (rewrite Forall_forall in Hl; apply Hl; by apply last_Some_elem_of).
    rewrite (Join_last _ _ E) by apply Hu. apply Hu.
Qed.
Lemma Join_ascii l : Forall normal_token l → is_ascii_string (Join l ".") = true.
Proof.
  rewrite Forall_forall. intros Hl. apply ascii_bytes. intros a [->|(t & Ht & Ha)]%Join_bytes; [done|].
  by apply (Hl t Ht).
Qed.
Lemma Join_no_sep l : Forall normal_token l → has_separator (Join l ".") = false.
Proof.
  rewrite Forall_forall. intros Hl. unfold has_separator. apply orb_false_iff.
  split; apply ContainsByte_bytes; intros [[=]|(t & Ht & Ha)]%Join_bytes;
    by destruct (nt_bytes _ (Hl t Ht) _ Ha) as (_ & _ & ? & ? & ?).
Qed.
Lemma Join_nonempty t l : t ≠ "" → IsEmpty (Join (t :: l) ".") = false.
Proof.
  intros Ht. apply IsEmpty_false. intros E. pose proof (Join_head t l Ht) as Hh. rewrite E in Hh.
  by destruct t.
Qed.
Lemma normal_split l : Forall normal_token l → l ≠ [] → Split (Join l ".") "." = l.
Proof.
  intros Hl Hne. apply Split_Join; [done|]. eapply Forall_impl; [exact Hl|]. intros t Ht.
  apply ContainsByte_bytes. intros Ha. by destruct (nt_bytes _ Ht _ Ha) as (_ & _ & ? & _).
Qed.
Lemma normal_splitSeparators l : Forall normal_token l → l ≠ [] → splitSeparators (Join l ".") = l.
Proof.
  intros Hl Hne. unfold splitSeparators. pose proof (Join_no_sep l Hl) as [H1 H2]%orb_false_iff.
  rewrite (replace_byte_id "_") by done. rewrite (replace_byte_id "-") by done. rewrite normal_split by done.
  clear Hne H1 H2. induction Hl as [|t l Ht Hl IH]; [done|]. cbn. rewrite (proj2 (IsEmpty_false t)) by apply Ht.
  cbn. by rewrite IH.
Qed.

Lemma normal_tokens_Join l : Forall normal_token l → normal_tokens (Join l ".") = l.
Proof.
  intros Hl. unfold normal_tokens. rewrite (TrimSpace_clean (Join l ".")) by auto using Join_ascii, Join_clean.
  destruct l as [|t l]; [done|]. pose proof (proj1 (Forall_cons _ _ _) Hl) as [Ht _].
  rewrite Join_nonempty by apply Ht. rewrite normal_splitSeparators by done. by apply omap_keep.
Qed.

Lemma normal_tokens_all s : is_ascii_string s = true → Forall normal_token (normal_tokens s).
Proof. intros Hs. apply Forall_forall. intros t. by apply normal_tokens_normal. Qed.

(** No capital, hence no camel case. *)
Lemma no_upper s : is_ascii_string s = true → (∀ a, a ∈ bytes_of s → upper_byte_b a = false) → existsb IsUpper (runes s) = false.
Proof.
  intros Hs Hu. apply existsb_false_iff. intros r Hr. rewrite runes_ascii in Hr by done.
  apply list_elem_of_fmap in Hr as (a & -> & Ha). rewrite IsUpper_byte; [by apply Hu|].
  rewrite ascii_bytes in Hs. by apply Hs.
Qed.
Lemma Join_no_upper l : Forall normal_token l → existsb IsUpper (runes (Join l ".")) = false.
Proof.
  intros Hl. apply no_upper; [by apply Join_ascii|]. rewrite Forall_forall in Hl.
  intros a [->|(t & Ht & Ha)]%Join_bytes; [done|]. by apply (Hl t Ht).
Qed.
Lemma Join_count l : Forall normal_token l → literalTokenCount (Join l ".") = length l.
Proof.
  intros Hl. destruct (decide (l = [])) as [->|Hne]; [done|]. unfold literalTokenCount.
  rewrite Join_no_sep, orb_false_r by done. unfold looksCamelOrPascal.
  rewrite Join_no_upper, andb_false_r by done. rewrite (TrimSpace_clean (Join l ".")) by auto using Join_ascii, Join_clean.
  destruct (ContainsByte (Join l ".") ".") eqn:Ed.
  - rewrite normal_splitSeparators by done.
    assert (Hgen : ∀ n, foldl (λ n tok, n + length (splitCamel tok)) n l = n + length l).
    { clear Ed Hne. induction Hl as [|t l Ht Hl IH]; intros n; cbn; [lia|]. rewrite normal_splitCamel by done.
      rewrite IH. cbn. lia. }
    by rewrite Hgen.
  - pose proof (normal_split l Hl Hne) as Hs. rewrite Split_absent in Hs by done. apply (f_equal length) in Hs. rewrite <- Hs. cbn [length].
    destruct l as [|t l]; [done|]. pose proof (proj1 (Forall_cons _ _ _) Hl) as [Ht _].
    by rewrite Join_nonempty by apply Ht.
Qed.

(** A suggested name is final: normalizing an ASCII subject gives a dotted
    subject of lower-case, non-empty, non-wildcard tokens that normalizes to
    itself, and that the auditor reports at most for having fewer than three
    tokens, exactly if it has one or two. *)
Theorem normalized_subject_is_final s stream consumer : is_ascii_string s = true →
  let n := NormalizeSubject s in
  NormalizeSubject n = n ∧ subjectHasWildcard n = false ∧
  (∀ t, n ≠ "" → t ∈ Split n "." → t ≠ "" ∧ ToLower t = t) ∧
  lintSubject (mkOccurrence stream consumer n) =
    let k := length (Split n ".") in
    if Nat.ltb k 3 && negb (IsEmpty n)
    then [mkNamingFinding ShallowHierarchy (mkOccurrence stream consumer n) (shallow_suggestion n) []] else [].
Proof.
  intros Hs n. pose proof (normal_tokens_all s Hs) as Hl. unfold n, NormalizeSubject. set (l := normal_tokens s) in *.
  clearbody l. rewrite normal_tokens_Join by done. split_and!; [done| | |].
  - destruct (decide (l = [])) as [->|Hne]; [done|]. unfold subjectHasWildcard. rewrite normal_split by done.
    apply existsb_false_iff. intros t Ht. rewrite Forall_forall in Hl. destruct (Hl t Ht) as [_ _ _ [H1 H2]].
    by rewrite !bool_decide_eq_false_2.
  - intros t Hne Ht. destruct (decide (l = [])) as [->|Hnl]; [done|]. rewrite normal_split in Ht by done.
    rewrite Forall_forall in Hl. specialize (Hl t Ht). split; [apply Hl|by apply normal_lower].
  - unfold lintSubject. cbn [oc_Subject]. unfold looksCamelOrPascal.
    rewrite Join_no_upper, Join_no_sep, Join_count by done. rewrite !andb_false_r. cbn [app].
    unfold NormalizeSubject. rewrite normal_tokens_Join by done.
    destruct (decide (l = [])) as [->|Hne]; [done|]. rewrite normal_split by done.
    destruct l as [|t l]; [done|]. pose proof (proj1 (Forall_cons _ _ _) Hl) as [Ht _].
    rewrite Join_nonempty by apply Ht. cbn [length negb]. rewrite andb_true_r. by destruct l as [|? [|? ?]].
Qed.

(** * Groups *)

Definition group_of (key : string → string) (occs : list namingOccurrence) (fp : string) : list namingOccurrence :=
  List.filter (λ o, key (oc_Subject o) =s fp) occs.

Lemma group_by_snoc key occs o : group_by key (occs ++ [o]) = add_to_group key (group_by key occs) o.
Proof. unfold group_by. by rewrite foldl_app. Qed.
Lemma group_of_snoc key occs o fp :
  group_of key (occs ++ [o]) fp = group_of key occs fp ++ (if key (oc_Subject o) =s fp then [o] else []).
Proof. unfold group_of. rewrite List.filter_app. cbn. by destruct (_ =s _). Qed.

(** The entry of a fingerprint: the occurrences with it, in order. *)
Lemma group_by_lookup key occs fp : default [] (group_by key occs !! fp) = if IsEmpty fp then [] else group_of key occs fp.
Proof.
  induction occs as [|o occs IH] using rev_ind.
  - cbn. rewrite lookup_empty. by destruct (IsEmpty fp).
  - rewrite group_by_snoc, group_of_snoc. unfold add_to_group. cbv zeta.
    destruct (IsEmpty (key (oc_Subject o))) eqn:He.
    + rewrite IH. destruct (IsEmpty fp) eqn:Hf; [done|].
      rewrite bool_decide_eq_false_2 by congruence. by rewrite (right_id_L [] (++)).
    + destruct (decide (key (oc_Subject o) = fp)) as [<-|Hne].
      * rewrite lookup_insert_eq. cbn [default from_option id]. rewrite IH, He. by rewrite bool_decide_eq_true_2.
      * rewrite lookup_insert_ne, IH by done. rewrite bool_decide_eq_false_2 by done. by rewrite (right_id_L [] (++)).
Qed.
Lemma group_by_entry key occs fp l : (fp, l) ∈ map_to_list (group_by key occs) → IsEmpty fp = false ∧ l = group_of key occs fp.
Proof.
  intros Hin%elem_of_map_to_list. pose proof (group_by_lookup key occs fp) as E. rewrite Hin in E. cbn in E.
  destruct (IsEmpty fp) eqn:He; [|done]. exfalso. apply IsEmpty_true in He as ->.
  assert (Hno : group_by key occs !! "" = None); [|congruence]. clear Hin E l.
  induction occs as [|o occs IH] using rev_ind; [done|]. rewrite group_by_snoc. unfold add_to_group. cbv zeta.
  destruct (IsEmpty (key (oc_Subject o))) eqn:He; [done|]. rewrite lookup_insert_ne; [done|].
  by apply IsEmpty_false.
Qed.

(** The groups together are the occurrences that have a fingerprint. *)
Lemma groups_partition key occs :
  flat_map snd (map_to_list (group_by key occs)) ≡ₚ List.filter (λ o, negb (IsEmpty (key (oc_Subject o)))) occs.
Proof.
  induction occs as [|o occs IH] using rev_ind; [done|].
  rewrite group_by_snoc, List.filter_app. cbn. unfold add_to_group. cbv zeta. set (m := group_by key occs) in *.
  set (fp := key (oc_Subject o)). destruct (IsEmpty fp); cbn [negb].
  { by rewrite (right_id_L [] (++)). }
  rewrite <- IH. rewrite <- insert_delete_eq.
  rewrite map_to_list_insert by apply lookup_delete_eq. cbn [flat_map snd].
  destruct (m !! fp) as [l|] eqn:E; cbn [default from_option id].
  - rewrite <- (map_to_list_delete m fp l E). cbn [flat_map snd]. rewrite <- !(assoc_L (++)).
    apply Permutation_app_head. apply Permutation_app_comm.
  - rewrite delete_id by done. apply Permutation_app_comm.
Qed.

Lemma flat_map_perm {A B} (f : A → list B) l k : l ≡ₚ k → flat_map f l ≡ₚ flat_map f k.
Proof. intros Hp. by apply Permutation_flat_map. Qed.
Lemma flat_map_flat_omap {A B C} (g : A → list B) (f : B → option C) l :
  flat_map (λ a, omap f (g a)) l = omap f (flat_map g l).
Proof. induction l as [|a l IH]; [done|]. cbn. by rewrite IH, omap_app. Qed.

Lemma flat_map_ext_elem {A B} (f g : A → list B) l : (∀ a, a ∈ l → f a = g a) → flat_map f l = flat_map g l.
Proof.
  induction l as [|a l IH]; intros Hfg; [done|]. cbn. rewrite (Hfg a) by left. f_equal. apply IH.
  intros b Hb. apply Hfg. by right.
Qed.
Lemma omap_ext_elem {A B} (f g : A → option B) (l : list A) : (∀ a, a ∈ l → f a = g a) → omap f l = omap g l.
Proof.
  induction l as [|a l IH]; intros Hfg; [done|]. cbn. rewrite (Hfg a) by left. rewrite IH; [done|].
  intros b Hb. apply Hfg. by right.
Qed.

(** Findings that are made group by group, for each member of its own, are made
    for each occurrence. *)
Lemma findings_of_groups {F} key occs (findings : string * list namingOccurrence → list F)
    (one : string → list namingOccurrence → namingOccurrence → option F) groups :
  (∀ fp l, findings (fp, l) = omap (one fp l) l) →
  groups ≡ₚ map_to_list (group_by key occs) →
  flat_map findings groups ≡ₚ
  omap (λ o, let fp := key (oc_Subject o) in if IsEmpty fp then None else one fp (group_of key occs fp) o) occs.
Proof.
  intros Hf Hp. rewrite (flat_map_perm _ _ _ Hp). set (f := λ o, _).
  transitivity (omap f (flat_map snd (map_to_list (group_by key occs)))).
  - rewrite <- flat_map_flat_omap. apply Permutation_refl', flat_map_ext_elem. intros [fp l] Hin.
    apply group_by_entry in Hin as [He Hl]. rewrite Hf. cbn [snd]. apply omap_ext_elem. intros o Ho.
    rewrite Hl in Ho. apply list_elem_of_In, filter_In in Ho as [_ Ho]. apply bool_decide_eq_true in Ho.
    unfold f. cbv zeta. rewrite Ho, He. by rewrite Hl.
  - rewrite groups_partition. apply Permutation_refl'.
    assert (Hg : ∀ l, omap f (List.filter (λ o, negb (IsEmpty (key (oc_Subject o)))) l) = omap f l); [|apply Hg].
    induction l as [|o l IH]; [done|]. cbn [List.filter]. destruct (IsEmpty (key (oc_Subject o))) eqn:He; cbn [negb].
    + rewrite IH. cbn. unfold f at 2. cbv zeta. by rewrite He.
    + cbn. by rewrite IH.
Qed.

(** ** Totals *)

Definition count_naming (k : SubjectNamingKind) (findings : list SubjectNamingFinding) : nat :=
  length (List.filter (λ f, bool_decide (sn_Kind f = k)) findings).

Lemma count_naming_cons k f l :
  count_naming k (f :: l) = (if bool_decide (sn_Kind f = k) then 1 else 0) + count_naming k l.
Proof. unfold count_naming. cbn. by case_bool_decide. Qed.
Lemma tally_naming_counts findings w m d s i n :
  foldl tally_naming (mkNamingTotals w m d s i n) findings =
  mkNamingTotals (w + count_naming WrongCase findings) (m + count_naming MissingDots findings)
    (d + count_naming NonDotSeparator findings) (s + count_naming ShallowHierarchy findings)
    (i + count_naming InconsistentVariant findings) n.
Proof.
  revert w m d s i n. induction findings as [|f l IH]; intros w m d s i n; cbn [foldl].
  { unfold count_naming. cbn. f_equal; lia. }
  rewrite !count_naming_cons. unfold tally_naming. destruct (sn_Kind f) eqn:E; rewrite IH; repeat (case_bool_decide; try congruence); f_equal; lia.
Qed.

(** The variant finding of an occurrence, by its group. *)
Definition variant_of (occs : list namingOccurrence) (o : namingOccurrence) : option SubjectNamingFinding :=
  let fp := SubjectFingerprint (oc_Subject o) in
  let literals := uniqueLiterals (group_of SubjectFingerprint occs fp) in
  if IsEmpty fp || Nat.ltb (length literals) 2 || (oc_Subject o =s clusterSuggestion literals) then None
  else Some (mkNamingFinding InconsistentVariant o (clusterSuggestion literals) (SortStrings literals)).

Lemma fmap_filter_omap {A B} (p : A → bool) (f : A → B) (l : list A) :
  f <$> List.filter p l = omap (λ a, if p a then Some (f a) else None) l.
Proof. induction l as [|a l IH]; [done|]. cbn. destruct (p a); cbn; by rewrite <- IH. Qed.
Lemma omap_none {A B} (f : A → option B) (l : list A) : (∀ a, f a = None) → omap f l = [].
Proof. intros Hf. induction l as [|a l IH]; [done|]. cbn. by rewrite Hf. Qed.

Lemma variant_findings_omap members :
  variant_findings members = omap (λ o,
    let literals := uniqueLiterals members in
    if Nat.ltb (length literals) 2 || (oc_Subject o =s clusterSuggestion literals) then None
    else Some (mkNamingFinding InconsistentVariant o (clusterSuggestion literals) (SortStrings literals))) members.
Proof.
  unfold variant_findings. cbv zeta. destruct (Nat.ltb _ 2); [by rewrite omap_none by done|].
  rewrite fmap_filter_omap. apply omap_ext_elem. intros o _. by destruct (oc_Subject o =s _).
Qed.

(** The auditor reports, in whatever order its map is ranged over: for every
    subject and filter its lints, and for every one whose fingerprint it shares
    with a different spelling exactly one inconsistency, with the suggestion of
    the group, unless it is that suggestion; the totals count the findings. *)
Theorem naming_report_exact range inputs : (∀ m, range m ≡ₚ map_to_list m) →
  let occs := occurrences inputs in
  let '(findings, totals) := AnalyzeSubjectNaming range inputs in
  findings ≡ₚ flat_map lintSubject occs ++ omap (variant_of occs) occs ∧
  totals = mkNamingTotals (count_naming WrongCase findings) (count_naming MissingDots findings)
    (count_naming NonDotSeparator findings) (count_naming ShallowHierarchy findings)
    (count_naming InconsistentVariant findings) (length findings).
Proof.
  intros Hr occs. cbn. fold occs. split; [|unfold tallySubjectNamingFindings; by rewrite tally_naming_counts].
  apply Permutation_app_head.
  rewrite (findings_of_groups SubjectFingerprint occs (λ g, variant_findings g.2) (λ _ members o,
    let literals := uniqueLiterals members in
    if Nat.ltb (length literals) 2 || (oc_Subject o =s clusterSuggestion literals) then None
    else Some (mkNamingFinding InconsistentVariant o (clusterSuggestion literals) (SortStrings literals))));
    [|intros fp l; apply variant_findings_omap|apply Hr].
  apply Permutation_refl', omap_ext_elem. intros o _. unfold variant_of. cbv zeta.
  by destruct (IsEmpty (SubjectFingerprint (oc_Subject o))).
Qed.

(** * The genome *)

Definition genome_of (occs : list namingOccurrence) (o : namingOccurrence) : option EventGenomeFinding :=
  let genome := EventGenomeKey (oc_Subject o) in
  let members := group_of EventGenomeKey occs genome in
  let suggested := withCanonicalAction (clusterSuggestion (uniqueLiterals members)) in
  if IsEmpty genome || negb (is_cluster members) || (oc_Subject o =s suggested) then None
  else Some (mkGenomeFinding genome o suggested (SortStrings (uniqueLiterals members))
               (genomeReasons (oc_Subject o) suggested)).

Definition genome_member (fp : string) (members : list namingOccurrence) (o : namingOccurrence) : option EventGenomeFinding :=
  let suggested := withCanonicalAction (clusterSuggestion (uniqueLiterals members)) in
  if negb (is_cluster members) || (oc_Subject o =s suggested) then None
  else Some (mkGenomeFinding fp o suggested (SortStrings (uniqueLiterals members)) (genomeReasons (oc_Subject o) suggested)).
Lemma genome_findings_omap fp members : genome_findings (fp, members) = omap (genome_member fp members) members.
Proof.
  unfold genome_findings, genome_member. cbn [fst snd]. cbv zeta.
  destruct (negb (is_cluster members)); [by rewrite omap_none by done|].
  rewrite fmap_filter_omap. apply omap_ext_elem. intros o _. by destruct (oc_Subject o =s _).
Qed.

Lemma genome_all range inputs : (∀ m, range m ≡ₚ map_to_list m) →
  flat_map genome_findings (range (group_by EventGenomeKey (occurrences inputs))) ≡ₚ
  omap (genome_of (occurrences inputs)) (occurrences inputs).
Proof.
  intros Hr. rewrite (findings_of_groups EventGenomeKey (occurrences inputs) genome_findings genome_member);
    [|apply genome_findings_omap|apply Hr].
  apply Permutation_refl', omap_ext_elem. intros o _. unfold genome_of, genome_member. cbv zeta.
  by destruct (IsEmpty (EventGenomeKey (oc_Subject o))).
Qed.

Lemma keys_le_antisym a b : keys_le a b → keys_le b a → a = b.
Proof.
  revert b. induction a as [|x a IH]; intros [|y b]; cbn; [done|done|done|].
  intros [[Hne Hxy]|[-> Hab]] [[Hne' Hyx]|[Heq Hba]]; try congruence.
  - exfalso. apply Hne. by apply (anti_symm String.le).
  - f_equal. by apply IH.
Qed.
Lemma keys_le_total a b : keys_le a b ∨ keys_le b a.
Proof.
  revert b. induction a as [|x a IH]; intros [|y b]; cbn; [by left|by left|by right|].
  destruct (decide (x = y)) as [->|Hne].
  - destruct (IH b); [left|right]; right; done.
  - destruct (total String.le x y); [left|right]; left; done.
Qed.
Lemma keys_le_trans a b c : keys_le a b → keys_le b c → keys_le a c.
Proof.
  revert b c. induction a as [|x a IH]; intros [|y b] [|z c]; cbn; [done..|].
  intros [[Hne Hxy]|[-> Hab]] [[Hne' Hyz]|[-> Hbc]].
  - destruct (decide (x = z)) as [->|Hxz]; [|left; split; [done|by etrans]].
    exfalso. apply Hne. by apply (anti_symm String.le).
  - by left.
  - by left.
  - right. split; [done|]. by eapply IH.
Qed.
#[export] Instance finding_le_total : Total finding_le.
Proof. intros f g. apply keys_le_total. Qed.
#[export] Instance finding_le_trans : Transitive finding_le.
Proof. intros f g h. apply keys_le_trans. Qed.

(** The genome report is the sorted list of the findings of its subjects. *)
Lemma genome_report_sorted range inputs : (∀ m, range m ≡ₚ map_to_list m) →
  let occs := occurrences inputs in
  AnalyzeEventGenome range inputs =
  mkGenomeSnapshot (merge_sort finding_le (omap (genome_of occs) occs))
    (length (List.filter (λ g, is_cluster g.2) (map_to_list (group_by EventGenomeKey occs)))).
Proof.
  intros Hr occs. pose proof (genome_all range inputs Hr) as Hall. fold occs in Hall.
  unfold AnalyzeEventGenome. fold occs. cbv zeta. f_equal.
  - apply (StronglySorted_unique_strong finding_le).
    + intros f g Hf Hg Hfg Hgf. rewrite merge_sort_Permutation in Hf, Hg.
      rewrite Hall in Hf.
      apply list_elem_of_omap in Hf as (o & _ & Ho). apply list_elem_of_omap in Hg as (o' & _ & Ho').
      pose proof (keys_le_antisym _ _ Hfg Hgf) as Hk. unfold genome_key in Hk.
      assert (gf_Where f = o ∧ gf_Where g = o') as [Hfo Hgo].
      { split; [revert Ho|revert Ho']; unfold genome_of; cbv zeta; case_match; by intros [= <-]. }
      rewrite Hfo, Hgo in Hk. destruct o, o'; cbn in Hk. injection Hk as _ -> -> ->. congruence.
    + apply StronglySorted_merge_sort; apply _.
    + apply StronglySorted_merge_sort; apply _.
    + by rewrite !merge_sort_Permutation.
  - assert (Hp : range (group_by EventGenomeKey occs) ≡ₚ map_to_list (group_by EventGenomeKey occs)) by apply Hr.
    apply Permutation_length. clear Hall. induction Hp; cbn; [done| | |by eapply perm_trans].
    + destruct (is_cluster _); [by constructor|done].
    + destruct (is_cluster y.2), (is_cluster x.2); try done. constructor.
Qed.

(** The genome report is the sorted list of the findings of its subjects: it
    does not depend on the order in which the map of clusters is ranged over. *)
Theorem genome_report_canonical range inputs : (∀ m, range m ≡ₚ map_to_list m) →
  let occs := occurrences inputs in
  AnalyzeEventGenome range inputs =
  mkGenomeSnapshot (merge_sort finding_le (omap (genome_of occs) occs))
    (length (List.filter (λ g, is_cluster g.2) (map_to_list (group_by EventGenomeKey occs)))).
Proof. apply genome_report_sorted. Qed.

(** ** Naming variants share a genome *)

Lemma singularize_bytes t a : a ∈ bytes_of (singularize t) → a ∈ bytes_of t.
Proof.
  unfold singularize. destruct (_ && _ && _); [|done]. generalize (String.length t - 1) as k.
  induction t as [|b t IH]; intros k; [by destruct k|]. destruct k as [|k]; cbn; [by intros ?%not_elem_of_nil|].
  intros [->|Ha]%elem_of_cons; [left|right]. by eapply IH.
Qed.

Lemma fingerprint_tokens s t l : is_ascii_string s = true → normal_tokens s = t :: l →
  SubjectFingerprint s = Join (singularize t :: l) "." ∧
  EventGenomeKey s = match l with
                     | [] => canonicalizeAction (singularize t)
                     | _ => Join (singularize t :: map_last singularize canonicalizeAction l) "."
                     end.
Proof.
  intros Hs Hn. pose proof (normal_tokens_all s Hs) as Hl. rewrite Hn in Hl.
  pose proof (proj1 (Forall_cons _ _ _) Hl) as [Ht _].
  unfold SubjectFingerprint, EventGenomeKey, NormalizeSubject. rewrite Hn, Join_nonempty by apply Ht. cbv zeta.
  rewrite normal_split by done. split; [done|]. by destruct l.
Qed.

(** Spelling variants are semantic duplicates: ASCII subjects with one
    fingerprint have one genome, so that every cluster of the naming auditor lies
    within one of the genome report. *)
Theorem fingerprint_refines_genome s s' : is_ascii_string s = true → is_ascii_string s' = true →
  SubjectFingerprint s ≠ "" → SubjectFingerprint s = SubjectFingerprint s' → EventGenomeKey s = EventGenomeKey s'.
Proof.
  intros Hs Hs' Hne E. pose proof (normal_tokens_all s Hs) as Hl. pose proof (normal_tokens_all s' Hs') as Hl'.
  destruct (normal_tokens s) as [|t l] eqn:En.
  { exfalso. apply Hne. unfold SubjectFingerprint, NormalizeSubject. by rewrite En. }
  destruct (normal_tokens s') as [|t' l'] eqn:En'.
  { exfalso. apply Hne. rewrite E. unfold SubjectFingerprint, NormalizeSubject. by rewrite En'. }
  destruct (fingerprint_tokens s t l Hs En) as [Ef ->]. destruct (fingerprint_tokens s' t' l' Hs' En') as [Ef' ->].
  rewrite Ef, Ef' in E. apply (f_equal (λ x, Split x ".")) in E.
  assert (Hd : ∀ t l, Forall normal_token (t :: l) → Forall (λ t, ContainsByte t "." = false) (singularize t :: l)).
  { clear. intros t l [Ht Hl]%Forall_cons. apply Forall_cons. split.
    - apply ContainsByte_bytes. intros Ha%singularize_bytes. by destruct (nt_bytes _ Ht _ Ha) as (_ & _ & ? & _).
    - eapply Forall_impl; [exact Hl|]. intros u Hu. apply ContainsByte_bytes. intros Ha.
      by destruct (nt_bytes _ Hu _ Ha) as (_ & _ & ? & _). }
  rewrite !Split_Join in E by (done || by apply Hd). by injection E as -> ->.
Qed.
End Facts.

(** * On some subjects *)

#[local] Existing Instance ascii_only.

Definition shop : list NamingInput :=
  [mkNamingInput "S" ["orders.created"; "order.created"; "OrderCreated"; "orders.new"; "user.paid"; "users.paid"] []].
Definition last_first (m : gmap string (list namingOccurrence)) : list (string * list namingOccurrence) := reverse (map_to_list m).
Lemma last_first_perm m : last_first m ≡ₚ map_to_list m.
Proof. apply reverse_Permutation. Qed.

Lemma normalized_subject_is_final_witness :
  NormalizeSubject "HTTPServerError" = "http.server.error" ∧ NormalizeSubject "http.server.error" = "http.server.error".
Proof. split; [vm_compute; reflexivity|]. exact (proj1 (normalized_subject_is_final "HTTPServerError" "" "" eq_refl)). Defined.

Lemma naming_report_exact_witness :
  length (fst (AnalyzeSubjectNaming last_first shop)) = 13 ∧
  fst (AnalyzeSubjectNaming last_first shop) ≡ₚ
    flat_map lintSubject (occurrences shop) ++ omap (variant_of (occurrences shop)) (occurrences shop).
Proof. split; [vm_compute; reflexivity|]. exact (proj1 (naming_report_exact last_first shop last_first_perm)). Defined.

Lemma genome_report_canonical_witness :
  gs_Clusters (AnalyzeEventGenome last_first shop) = 2 ∧
  gs_Findings (AnalyzeEventGenome last_first shop) =
    merge_sort finding_le (omap (genome_of (occurrences shop)) (occurrences shop)).
Proof.
  split; [vm_compute; reflexivity|].
  exact (f_equal gs_Findings (genome_report_canonical last_first shop last_first_perm)).
Defined.

Lemma fingerprint_refines_genome_witness :
  SubjectFingerprint "OrdersNew" = "order.new" ∧ EventGenomeKey "OrdersNew" = EventGenomeKey "order.new".
Proof.
  split; [vm_compute; reflexivity|].
  exact (fingerprint_refines_genome "OrdersNew" "order.new" eq_refl eq_refl ltac:(vm_compute; discriminate) eq_refl).
Defined.

(** The findings of the naming auditor come in the order of its map, which Go
    leaves open. *)
Lemma naming_order_is_open :
  fst (AnalyzeSubjectNaming map_to_list shop) ≠ fst (AnalyzeSubjectNaming last_first shop).
Proof. vm_compute. discriminate. Qed.

(** A subject of one token is told to take the name it has. *)
Lemma one_token_suggestion : sn_Suggested <$> lintSubject (mkOccurrence "S" "" "orders") = ["orders"].
Proof. vm_compute. reflexivity. Qed.
