(* ===== verification/Catalog.v ===== *)
(** The event catalog and the pages made of it: internal/domain/event_catalog.go
    and event_wikipedia.go, internal/repo/event_catalog.go with its queries and
    migrations 020 and 025, internal/adapter/postgres/repos.go, and the handlers
    of internal/api/insights/event_catalog.go.

    A nil slice is the empty one, nil bytes the empty string.  The orders in which
    Go ranges over a map are arguments.  What the JSON library and the type jsonb
    make of a text is the class [CatalogJson]. *)

From S2P Require Export Naming BlastRadius NatsAccounts.
From S2P Require Import Streams Replay Session Rbac GoStrings.
From Stdlib Require Import Ascii.

(** * Data *)

Record EventCatalogLiveConsumer := mkLiveConsumer {
  lc_Metadata : gmap string string;
  lc_Name : string;
  lc_DurableName : string;
  lc_FilterSubject : string;
  lc_FilterSubjects : list string;
}.
Record EventCatalogLiveStream := mkLiveStream {
  ls_Name : string;
  ls_Subjects : list string;
  ls_Consumers : list EventCatalogLiveConsumer;
}.

Record EventCatalogDoc := mkDoc {
  doc_Subject : string;
  doc_Owner : string;
  doc_Description : string;
  doc_Schema : string;
  doc_Example : string;
  doc_Deprecated : bool;
  doc_SuccessorSubject : string;
  doc_DeprecationNote : string;
  doc_UpdatedBy : string;
  doc_CreatedAt : Z;
  doc_UpdatedAt : Z;
}.
Definition doc_with_subject (subject : string) (d : EventCatalogDoc) : EventCatalogDoc :=
  mkDoc subject (doc_Owner d) (doc_Description d) (doc_Schema d) (doc_Example d) (doc_Deprecated d)
    (doc_SuccessorSubject d) (doc_DeprecationNote d) (doc_UpdatedBy d) (doc_CreatedAt d) (doc_UpdatedAt d).

Record EventCatalogConsumer := mkCatalogConsumer {
  ecc_Name : string;
  ecc_Stream : string;
  ecc_Service : string;
}.
(** The fields of an entry that come from its documentation are a doc; without
    one they are the zero values. *)
Record EventCatalogEntry := mkEntry {
  en_Subject : string;
  en_Doc : EventCatalogDoc;
  en_Streams : list string;
  en_Consumers : list EventCatalogConsumer;
  en_Documented : bool;
  en_Orphan : bool;
}.
Record EventCatalogTotals := mkCatalogTotals {
  ct_Total : nat;
  ct_Documented : nat;
  ct_Undocumented : nat;
  ct_Orphan : nat;
}.
Record EventCatalogSnapshot := mkCatalogSnapshot {
  cs_Entries : list EventCatalogEntry;
  cs_Totals : EventCatalogTotals;
}.
Record EventCatalogUpsert := mkUpsert {
  up_Owner : string;
  up_Description : string;
  up_SuccessorSubject : string;
  up_DeprecationNote : string;
  up_Schema : string;
  up_Example : string;
  up_Deprecated : bool;
}.

(** * Subjects *)

Definition has_wildcard (s : string) : bool := ContainsByte s "*" || ContainsByte s ">".
Definition IsConcreteCatalogSubject (s : string) : bool :=
  let s := TrimSpace s in if IsEmpty s then false else negb (has_wildcard s).

Definition blanks : list ascii := [" "%char; ascii_of_nat 9; ascii_of_nat 10; ascii_of_nat 13].
Definition ValidateEventCatalogSubject (subject : string) : result err unit :=
  let subject := TrimSpace subject in
  if IsEmpty subject then Err (ErrMsg "subject required")
  else if has_wildcard subject then Err (ErrMsg "catalog subject cannot contain wildcards")
  else if existsb (ContainsByte subject) blanks then Err (ErrMsg "catalog subject cannot contain whitespace")
  else Ok tt.
Definition CanonicalEventCatalogSubject (subject : string) : result err string :=
  let subject := TrimSpace subject in
  match ValidateEventCatalogSubject subject with
  | Ok _ => Ok subject
  | Err e => Err e
  end.

(** * Live consumers and streams *)

Definition catalogConsumerName (c : EventCatalogLiveConsumer) : string :=
  if negb (IsEmpty (TrimSpace (lc_Name c))) then TrimSpace (lc_Name c)
  else if negb (IsEmpty (TrimSpace (lc_DurableName c))) then TrimSpace (lc_DurableName c)
  else "".
Definition catalogConsumerService (c : EventCatalogLiveConsumer) : string :=
  let s := TrimSpace (lookup_string (lc_Metadata c) MetadataServiceKey) in
  if negb (IsEmpty s) then s
  else if negb (IsEmpty (TrimSpace (lc_DurableName c))) then TrimSpace (lc_DurableName c)
  else catalogConsumerName c.

Definition catalogConsumerFilters (c : EventCatalogLiveConsumer) : list string :=
  foldl (λ out f, if f ∈b out then out else out ++ [f]) []
    (omap nonempty_trimmed (lc_FilterSubject c :: lc_FilterSubjects c)).

Definition concreteFilterEquals (c : EventCatalogLiveConsumer) (subject : string) : bool :=
  existsb (λ f, IsConcreteCatalogSubject f && (f =s subject)) (catalogConsumerFilters c).
Definition catalogConsumerMatchesSubject (c : EventCatalogLiveConsumer) (subject : string) : bool :=
  let filters := catalogConsumerFilters c in
  if Nat.eqb (length filters) 0 then true
  else existsb (λ f, (f =s subject) || matchSubjectPattern subject f) filters.
Definition streamCoversSubject (patterns : list string) (subject : string) : bool :=
  existsb (λ p, let p := TrimSpace p in
                if IsEmpty p then false else (p =s subject) || matchSubjectPattern subject p) patterns.

(** Whether a consumer of a stream takes the subject from it. *)
Definition attached (covers : bool) (c : EventCatalogLiveConsumer) (subject : string) : bool :=
  catalogConsumerMatchesSubject c subject && (covers || concreteFilterEquals c subject) &&
  negb (IsEmpty (catalogConsumerName c)).
(** What the consumers add, and whether one did. *)
Definition attach_consumer (streamName subject : string) (covers : bool)
    (st : gset string * gmap string EventCatalogConsumer * bool) (c : EventCatalogLiveConsumer) :
    gset string * gmap string EventCatalogConsumer * bool :=
  let '(streamSet, consumerSet, matched) := st in
  if attached covers c subject then
    let name := catalogConsumerName c in
    ({[streamName]} ∪ streamSet,
     <[streamName +:+ nul +:+ name := mkCatalogConsumer name streamName (catalogConsumerService c)]> consumerSet, true)
  else st.
Definition attach_stream (subject : string) (st : gset string * gmap string EventCatalogConsumer)
    (stream : EventCatalogLiveStream) : gset string * gmap string EventCatalogConsumer :=
  let '(streamSet, consumerSet) := st in
  let streamName := TrimSpace (ls_Name stream) in
  if IsEmpty streamName then st
  else
    let covers := streamCoversSubject (ls_Subjects stream) subject in
    let '(streamSet, consumerSet, matched) :=
      foldl (attach_consumer streamName subject covers) (streamSet, consumerSet, false) (ls_Consumers stream) in
    if covers && negb matched then ({[streamName]} ∪ streamSet, consumerSet) else (streamSet, consumerSet).

(** By stream, then by name. *)
Definition consumer_key (c : EventCatalogConsumer) : list string := [ecc_Stream c; ecc_Name c].
Definition consumer_le (c d : EventCatalogConsumer) : Prop := keys_le (consumer_key c) (consumer_key d).
#[export] Instance consumer_le_dec c d : Decision (consumer_le c d) := keys_le_dec _ _.

Definition Ranges A := gmap string A → list (string * A).
Definition sortedCatalogConsumers (range : Ranges EventCatalogConsumer) (set : gmap string EventCatalogConsumer) :
    list EventCatalogConsumer := merge_sort consumer_le (range set).*2.

Definition attachLiveCatalog (range : Ranges EventCatalogConsumer) (live : list EventCatalogLiveStream) (subject : string) :
    list string * list EventCatalogConsumer :=
  let '(streamSet, consumerSet) := foldl (attach_stream subject) (∅, ∅) live in
  (sortedKeys streamSet, sortedCatalogConsumers range consumerSet).

(** * The catalog *)

Definition normalizeCatalogJSON (raw : string) : string :=
  if Nat.eqb (String.length raw) 0 then ""
  else let trimmed := TrimSpace raw in if IsEmpty trimmed || (trimmed =s "null") then "" else trimmed.

Definition zero_doc : EventCatalogDoc := mkDoc "" "" "" "" "" false "" "" "" 0 0.
Definition entry_doc (d : EventCatalogDoc) : EventCatalogDoc :=
  mkDoc (doc_Subject d) (TrimSpace (doc_Owner d)) (TrimSpace (doc_Description d)) (normalizeCatalogJSON (doc_Schema d))
    (normalizeCatalogJSON (doc_Example d)) (doc_Deprecated d) (TrimSpace (doc_SuccessorSubject d))
    (TrimSpace (doc_DeprecationNote d)) (TrimSpace (doc_UpdatedBy d)) (doc_CreatedAt d) (doc_UpdatedAt d).
Definition catalogDocHasContent (e : EventCatalogDoc) : bool :=
  negb (IsEmpty (doc_Owner e)) || negb (IsEmpty (doc_Description e)) || Nat.ltb 0 (String.length (doc_Schema e)) ||
  Nat.ltb 0 (String.length (doc_Example e)) || doc_Deprecated e || negb (IsEmpty (doc_SuccessorSubject e)) ||
  negb (IsEmpty (doc_DeprecationNote e)).

Definition live_subjects (stream : EventCatalogLiveStream) : list string :=
  List.filter IsConcreteCatalogSubject (TrimSpace <$> ls_Subjects stream) ++
  flat_map (λ c, List.filter IsConcreteCatalogSubject (catalogConsumerFilters c)) (ls_Consumers stream).
(** [subjects[subject] = struct{}{}; docsBySubject[subject] = cp] *)
Definition add_doc (st : gset string * gmap string EventCatalogDoc) (d : EventCatalogDoc) :
    gset string * gmap string EventCatalogDoc :=
  match CanonicalEventCatalogSubject (doc_Subject d) with
  | Err _ => st
  | Ok subject => ({[subject]} ∪ fst st, <[subject := doc_with_subject subject d]> (snd st))
  end.

Definition catalog_entry (range : Ranges EventCatalogConsumer) (live : list EventCatalogLiveStream)
    (docsBySubject : gmap string EventCatalogDoc) (subject : string) : EventCatalogEntry :=
  let '(streams, consumers) := attachLiveCatalog range live subject in
  let orphan := Nat.eqb (length streams) 0 && Nat.eqb (length consumers) 0 in
  match docsBySubject !! subject with
  | Some doc => mkEntry subject (entry_doc doc) streams consumers (catalogDocHasContent (entry_doc doc)) orphan
  | None => mkEntry subject zero_doc streams consumers false orphan
  end.
Definition count_entry (t : EventCatalogTotals) (e : EventCatalogEntry) : EventCatalogTotals :=
  mkCatalogTotals (ct_Total t) (ct_Documented t + (if en_Documented e then 1 else 0))
    (ct_Undocumented t + (if en_Documented e then 0 else 1)) (ct_Orphan t + (if en_Orphan e then 1 else 0)).

Definition entry_le (e f : EventCatalogEntry) : Prop := String.le (en_Subject e) (en_Subject f).
#[export] Instance entry_le_dec e f : Decision (entry_le e f).
Proof. unfold entry_le. apply _. Defined.

(** [ranges] is the order in which the set of subjects is ranged over, [range]
    the one of the map of consumers. *)
Definition BuildEventCatalog (ranges : gset string → list string) (range : Ranges EventCatalogConsumer)
    (live : list EventCatalogLiveStream) (docs : list EventCatalogDoc) : EventCatalogSnapshot :=
  let '(subjects, docsBySubject) := foldl add_doc (list_to_set (flat_map live_subjects live), ∅) docs in
  let entries := catalog_entry range live docsBySubject <$> ranges subjects in
  let totals := foldl count_entry (mkCatalogTotals 0 0 0 0) entries in
  mkCatalogSnapshot (merge_sort entry_le entries)
    (mkCatalogTotals (length entries) (ct_Documented totals) (ct_Undocumented totals) (ct_Orphan totals)).

(** * The table: internal/repo/event_catalog.go *)

(** Whether the JSON library takes a text for an object ([None]: it is no JSON),
    the text the database keeps of a jsonb parameter ([None]: an error), and
    whether the text of such an error has one of the words the handler looks for. *)
Class CatalogJson := {
  json_object : string → option bool;
  jsonb : string → option string;
  driver_mentions_field : bool;
}.

Definition ErrEventCatalogEntryNotFound : err := ErrMsg "event catalog entry not found".

(** [doc_UpdatedBy], [doc_Schema] and [doc_Example] are empty where the column is
    NULL. *)
Record EventCatalogEntryRow := mkCatalogRow {
  er_ID : string;
  er_ClusterID : string;
  er_doc : EventCatalogDoc;
}.
(** UNIQUE (cluster_id, subject) is the key of [cat_entries]. *)
Record CatalogTables := mkCatalogTables {
  cat_up : bool;
  cat_clusters : list string;
  cat_users : list string;
  cat_entries : gmap (string * string) EventCatalogEntryRow;
}.
Definition set_entries (f : gmap (string * string) EventCatalogEntryRow → gmap (string * string) EventCatalogEntryRow)
    (t : CatalogTables) : CatalogTables := mkCatalogTables (cat_up t) (cat_clusters t) (cat_users t) (f (cat_entries t)).

Definition validateCatalogJSONObject `{CatalogJson} (raw field : string) : result err unit :=
  if Nat.eqb (String.length raw) 0 then Ok tt
  else
    let trimmed := TrimSpace raw in
    if IsEmpty trimmed || (trimmed =s "null") then Ok tt
    else match json_object raw with
    | None => Err (ErrMsg (field +:+ " must be valid JSON"))
    | Some false => Err (ErrMsg (field +:+ " must be a JSON object"))
    | Some true => Ok tt
    end.
Definition ValidateEventCatalogSchema `{CatalogJson} (raw : string) := validateCatalogJSONObject raw "schema".
Definition ValidateEventCatalogExample `{CatalogJson} (raw : string) := validateCatalogJSONObject raw "example".

Definition truncateRunes (s : string) (max : nat) : string :=
  if Nat.leb max 0 || Nat.leb (length (runes s)) max then s else of_runes (take max (runes s)).
Definition normalizeStoredJSON (raw : string) : string := normalizeCatalogJSON raw.

Section Repo.
Context `{CatalogJson} `{PgUUID}.
Abbreviation CM := (M CatalogTables err).

Definition conline : CM unit := λ t, (if cat_up t then Ok tt else Err ErrDB, t).
Definition cuuid (s : string) : CM string := match parse_uuid s with Some u => ret u | None => fail ErrDB end.
(** A jsonb parameter; nil is NULL. *)
Definition cjsonb (s : string) : CM string :=
  if IsEmpty s then ret "" else match jsonb s with Some j => ret j | None => fail ErrDB end.

Definition ListEventCatalogEntries (clusterID : string) : CM (list EventCatalogDoc) :=
  conline ;;
  let! c := cuuid clusterID in
  let! t := get in
  ret (merge_sort (λ a b, String.le (doc_Subject a) (doc_Subject b))
         ((λ kr, er_doc kr.2) <$> List.filter (λ kr, kr.1.1 =s c) (map_to_list (cat_entries t)))).

Definition GetEventCatalogEntry (clusterID subject : string) : CM EventCatalogEntryRow :=
  conline ;;
  let! c := cuuid clusterID in
  let! t := get in
  match cat_entries t !! (c, subject) with
  | Some r => ret r
  | None => fail ErrEventCatalogEntryNotFound
  end.

(** INSERT ... ON CONFLICT (cluster_id, subject) DO UPDATE *)
Definition upsert_entry (id : string) (now : Z) (clusterID : string) (d : EventCatalogDoc) : CM unit :=
  conline ;;
  let! c := cuuid clusterID in
  let! schema := cjsonb (doc_Schema d) in
  let! example := cjsonb (doc_Example d) in
  let! by_ := (if IsEmpty (doc_UpdatedBy d) then ret "" else cuuid (doc_UpdatedBy d)) in
  let! t := get in
  ensure (c ∈b cat_clusters t) ErrDB ;;
  ensure (IsEmpty by_ || (by_ ∈b cat_users t)) ErrDB ;;
  let doc created := mkDoc (doc_Subject d) (doc_Owner d) (doc_Description d) schema example (doc_Deprecated d)
                       (doc_SuccessorSubject d) (doc_DeprecationNote d) by_ created now in
  match cat_entries t !! (c, doc_Subject d) with
  | Some r => modify (set_entries <[(c, doc_Subject d) := mkCatalogRow (er_ID r) c (doc (doc_CreatedAt (er_doc r)))]>)
  | None =>
      ensure (negb (existsb (λ kr, er_ID kr.2 =s id) (map_to_list (cat_entries t)))) ErrDB ;;
      modify (set_entries <[(c, doc_Subject d) := mkCatalogRow id c (doc now)]>)
  end.

Definition repo_UpsertEventCatalogEntry (id : string) (now : Z) (clusterID subject updatedBy : string)
    (inp : EventCatalogUpsert) : CM EventCatalogEntryRow :=
  let! canonical := lift (CanonicalEventCatalogSubject subject) in
  lift (ValidateEventCatalogSchema (up_Schema inp)) ;;
  lift (ValidateEventCatalogExample (up_Example inp)) ;;
  let owner := truncateRunes (TrimSpace (up_Owner inp)) 256 in
  let description := truncateRunes (TrimSpace (up_Description inp)) 4000 in
  let successor := truncateRunes (TrimSpace (up_SuccessorSubject inp)) 512 in
  let note := truncateRunes (TrimSpace (up_DeprecationNote inp)) 4000 in
  upsert_entry id now clusterID
    (mkDoc canonical owner description (normalizeStoredJSON (up_Schema inp)) (normalizeStoredJSON (up_Example inp))
       (up_Deprecated inp) successor note updatedBy now now) ;;
  GetEventCatalogEntry clusterID canonical.
(** internal/adapter/postgres/repos.go *)
Definition UpsertEventCatalogEntry id now clusterID subject updatedBy inp : CM EventCatalogDoc :=
  let! row := repo_UpsertEventCatalogEntry id now clusterID subject updatedBy inp in ret (er_doc row).

Definition DeleteEventCatalogEntry (clusterID subject : string) : CM unit :=
  let! canonical := lift (CanonicalEventCatalogSubject subject) in
  conline ;;
  let! c := cuuid clusterID in
  let! t := get in
  match cat_entries t !! (c, canonical) with
  | Some _ => modify (set_entries (delete (c, canonical)))
  | None => fail ErrEventCatalogEntryNotFound
  end.

(** * The handlers: internal/api/insights/event_catalog.go *)

(** The status, and the documentation in the answer. *)
Definition canswer : Type := Z * option EventCatalogDoc.
Definition cstatus (code : Z) : canswer := (code, None).

Definition hex_digit (a : ascii) : option nat :=
  let n := nat_of_ascii a in
  if Nat.leb 48 n && Nat.leb n 57 then Some (n - 48)
  else if Nat.leb 97 n && Nat.leb n 102 then Some (n - 87)
  else if Nat.leb 65 n && Nat.leb n 70 then Some (n - 55) else None.
(** [url.PathUnescape] *)
Fixpoint PathUnescape (s : string) : option string :=
  match s with
  | "" => Some ""
  | String a s =>
      if bool_decide (a = "%"%char) then
        match s with
        | String x (String y s) =>
            match hex_digit x, hex_digit y with
            | Some h, Some l => String (ascii_of_nat (16 * h + l)) <$> PathUnescape s
            | _, _ => None
            end
        | _ => None
        end
      else String a <$> PathUnescape s
  end.

Definition catalogSubjectParam (raw : string) : result err string :=
  if IsEmpty raw then Err (ErrMsg "subject required")
  else match PathUnescape raw with
  | None => Err (ErrMsg "invalid subject encoding")
  | Some decoded => CanonicalEventCatalogSubject decoded
  end.

Definition isCatalogValidationError (e : err) : bool :=
  match e with
  | ErrMsg m => existsb (Contains m) ["subject"; "schema"; "example"; "wildcard"; "whitespace"]
  | _ => driver_mentions_field
  end.
(** [WriteAPIError] *)
Definition catalog_status (e : err) : Z :=
  if bool_decide (e = ErrEventCatalogEntryNotFound) then 404 else api_status e.

(** [body]: the decoded request, [None] when the JSON does not parse. *)
Definition catalog_Upsert (id : string) (now : Z) (userID clusterID raw : string) (body : option EventCatalogUpsert) :
    CM canswer :=
  match catalogSubjectParam raw with
  | Err _ => ret (cstatus 400)
  | Ok subject =>
      match body with
      | None => ret (cstatus 400)
      | Some req =>
          if negb (is_Ok (ValidateEventCatalogSchema (up_Schema req))) then ret (cstatus 400)
          else if negb (is_Ok (ValidateEventCatalogExample (up_Example req))) then ret (cstatus 400)
          else
            let! r := attempt (UpsertEventCatalogEntry id now clusterID subject userID req) in
            match r with
            | Err e => if isCatalogValidationError e then ret (cstatus 400) else ret (cstatus (catalog_status e))
            | Ok row => ret (200%Z, Some row)
            end
      end
  end.

Definition catalog_Delete (clusterID raw : string) : CM canswer :=
  match catalogSubjectParam raw with
  | Err _ => ret (cstatus 400)
  | Ok subject =>
      let! r := attempt (DeleteEventCatalogEntry clusterID subject) in
      match r with
      | Err e =>
          if bool_decide (e = ErrEventCatalogEntryNotFound) then ret (cstatus 404)
          else if isCatalogValidationError e then ret (cstatus 400) else ret (cstatus (catalog_status e))
      | Ok _ => ret (cstatus 204)
      end
  end.
End Repo.

(** * Pages: internal/domain/event_wikipedia.go *)

Record EventWikipediaHistory := mkHistory {
  wh_CreatedAt : Z;
  wh_UpdatedAt : Z;
  wh_UpdatedBy : string;
  wh_Streams : list string;
}.
Record EventWikipediaDeprecation := mkDeprecation {
  wd_SuccessorSubject : string;
  wd_Note : string;
  wd_Deprecated : bool;
}.
Record EventWikipediaIncidentLink := mkIncidentLink {
  wl_Stream : string;
  wl_Consumer : string;
  wl_Service : string;
}.
Record EventWikipediaPage := mkPage {
  wp_Deprecation : EventWikipediaDeprecation;
  wp_Subject : string;
  wp_Purpose : string;
  wp_Owner : string;
  wp_History : EventWikipediaHistory;
  wp_Consumers : list EventCatalogConsumer;
  wp_Example : string;
  wp_Schema : string;
  wp_RelatedEvents : list string;
  wp_KnownIncidents : list EventWikipediaIncidentLink;
  wp_Documented : bool;
  wp_Orphan : bool;
}.
Record EventWikipediaTotals := mkPageTotals {
  wt_Total : nat;
  wt_Documented : nat;
  wt_Deprecated : nat;
  wt_Orphan : nat;
}.
Record EventWikipediaSnapshot := mkPages {
  ws_Pages : list EventWikipediaPage;
  ws_Totals : EventWikipediaTotals;
}.

Definition cluster_literals (l : list string) : list string :=
  SortStrings (foldl (λ out p, if p ∈b out then out else out ++ [p]) [] (omap nonempty_trimmed l)).
Definition add_cluster (clusters : gmap string (list string)) (f : EventGenomeFinding) : gmap string (list string) :=
  let key := TrimSpace (gf_Genome f) in
  let key := if IsEmpty key then TrimSpace (oc_Subject (gf_Where f)) else key in
  if IsEmpty key then clusters
  else match clusters !! key with
  | Some _ => clusters
  | None =>
      let literals := cluster_literals (gf_Cluster f) in
      if Nat.leb 2 (length literals) then <[key := literals]> clusters else clusters
  end.
Definition peers_of (literals : list string) (subject : string) : list string :=
  List.filter (λ peer, peer <>s subject) literals.
Definition genomeRelatedBySubject (range : Ranges (list string)) (genome : EventGenomeSnapshot) :
    gmap string (list string) :=
  let clusters := foldl add_cluster ∅ (gs_Findings genome) in
  foldl (λ out kl, foldl (λ out subject, <[subject := peers_of kl.2 subject]> out) out kl.2) ∅ (range clusters).

Definition page_of (related : gmap string (list string)) (e : EventCatalogEntry) : EventWikipediaPage :=
  let d := en_Doc e in
  mkPage (mkDeprecation (doc_SuccessorSubject d) (doc_DeprecationNote d) (doc_Deprecated d)) (en_Subject e)
    (doc_Description d) (doc_Owner d) (mkHistory (doc_CreatedAt d) (doc_UpdatedAt d) (doc_UpdatedBy d) (en_Streams e))
    (en_Consumers e) (doc_Example d) (doc_Schema d) (default [] (related !! en_Subject e))
    ((λ c, mkIncidentLink (ecc_Stream c) (ecc_Name c) (ecc_Service c)) <$> en_Consumers e)
    (en_Documented e) (en_Orphan e).

(** One more page. *)
Definition count_page (t : EventWikipediaTotals) (p : EventWikipediaPage) : EventWikipediaTotals :=
  mkPageTotals (S (wt_Total t)) (wt_Documented t + (if wp_Documented p then 1 else 0))
    (wt_Deprecated t + (if wd_Deprecated (wp_Deprecation p) then 1 else 0))
    (wt_Orphan t + (if wp_Orphan p then 1 else 0)).
Definition page_totals (pages : list EventWikipediaPage) : EventWikipediaTotals :=
  foldl count_page (mkPageTotals 0 0 0 0) pages.

Definition page_le (p q : EventWikipediaPage) : Prop := String.le (wp_Subject p) (wp_Subject q).
#[export] Instance page_le_dec p q : Decision (page_le p q).
Proof. unfold page_le. apply _. Defined.

Definition BuildEventWikipedia (range : Ranges (list string)) (catalog : EventCatalogSnapshot)
    (genome : EventGenomeSnapshot) : EventWikipediaSnapshot :=
  let related := genomeRelatedBySubject range genome in
  let pages := page_of related <$> cs_Entries catalog in
  mkPages (merge_sort page_le pages) (page_totals pages).

Definition FilterEventWikipediaPages (snap : EventWikipediaSnapshot) (subject : string) : EventWikipediaSnapshot :=
  let subject := TrimSpace subject in
  if IsEmpty subject then snap
  else
    let out := match List.find (λ p, wp_Subject p =s subject) (ws_Pages snap) with Some p => [p] | None => [] end in
    mkPages out (page_totals out).
