(* ===== verification/CatalogFacts.v ===== *)
(** What the event catalog shows: exactness and independence of the order of Go's
    maps, the related events of a page as the subjects of its genome, and what
    the handlers store and take away. *)

From S2P Require Export Catalog.
From S2P Require Import NamingFacts Runes Replay Session Rbac GoStrings.
From Stdlib Require Import Ascii.

(** * Sets of strings and first occurrences *)

Lemma dedup_spec (l out : list string) x : x ∈ foldl (λ out f, if f ∈b out then out else out ++ [f]) out l ↔ x ∈ out ∨ x ∈ l.
Proof.
  revert out. induction l as [|f l IH]; intros out; cbn [foldl]; [set_solver|].
  rewrite IH. destruct (f ∈b out) eqn:E; [apply elem_of_bool_spec in E|]; set_solver.
Qed.
Lemma dedup_NoDup (l out : list string) : NoDup out → NoDup (foldl (λ out f, if f ∈b out then out else out ++ [f]) out l).
Proof.
  revert out. induction l as [|f l IH]; intros out Ho; cbn [foldl]; [done|]. apply IH.
  destruct (f ∈b out) eqn:E; [done|]. apply NoDup_app. split_and!; [done| |apply NoDup_singleton].
  intros x Hx ->%list_elem_of_singleton. apply not_true_iff_false in E. apply E. by apply elem_of_bool_spec.
Qed.
Lemma nonempty_trimmed_Some s x : nonempty_trimmed s = Some x ↔ x = TrimSpace s ∧ x ≠ "".
Proof.
  unfold nonempty_trimmed. cbv zeta. destruct (IsEmpty (TrimSpace s)) eqn:E.
  - apply IsEmpty_true in E. split; [done|]. intros [-> Hne]. congruence.
  - apply IsEmpty_false in E. split; [by intros [= <-]|]. by intros [-> _].
Qed.
Lemma catalogConsumerFilters_elem c x :
  x ∈ catalogConsumerFilters c ↔ x ≠ "" ∧ ∃ f, f ∈ lc_FilterSubject c :: lc_FilterSubjects c ∧ x = TrimSpace f.
Proof.
  unfold catalogConsumerFilters. rewrite dedup_spec, list_elem_of_omap. split.
  - intros [?%not_elem_of_nil|(f & Hf & [-> Hne]%nonempty_trimmed_Some)]; [done|]. split; [done|]. by exists f.
  - intros (Hne & f & Hf & ->). right. exists f. split; [done|]. by apply nonempty_trimmed_Some.
Qed.

(** * What is attached to a subject *)

Definition attachment (subject streamName : string) (covers : bool) (c : EventCatalogLiveConsumer) : option EventCatalogConsumer :=
  if attached covers c subject
  then Some (mkCatalogConsumer (catalogConsumerName c) streamName (catalogConsumerService c)) else None.
Definition ckey (c : EventCatalogConsumer) : string := ecc_Stream c +:+ nul +:+ ecc_Name c.
Definition put_consumer (m : gmap string EventCatalogConsumer) (c : EventCatalogConsumer) := <[ckey c := c]> m.

Lemma omap_cons_match {A B} (f : A → option B) a l :
  omap f (a :: l) = match f a with Some b => b :: omap f l | None => omap f l end.
Proof. done. Qed.
Lemma attach_consumer_match subject n covers S C m c :
  attach_consumer n subject covers (S, C, m) c =
  match attachment subject n covers c with
  | Some v => ({[n]} ∪ S, put_consumer C v, true)
  | None => (S, C, m)
  end.
Proof. unfold attach_consumer, attachment. by destruct (attached _ _ _). Qed.

Lemma attach_consumers subject n covers cs S C m :
  foldl (attach_consumer n subject covers) (S, C, m) cs =
  let l := omap (attachment subject n covers) cs in
  (if nonempty l then {[n]} ∪ S else S, foldl put_consumer C l, m || nonempty l).
Proof.
  cbv zeta. revert S C m. induction cs as [|c cs IH]; intros S C m; [by rewrite orb_false_r|].
  cbn [foldl]. rewrite attach_consumer_match, omap_cons_match. destruct (attachment subject n covers c) as [v|]; rewrite IH; [|done].
  cbn [foldl nonempty length negb]. cbn. rewrite orb_true_r. f_equal. f_equal. destruct (omap _ _); cbn; set_solver.
Qed.

Definition stream_attachments (subject : string) (stream : EventCatalogLiveStream) : list EventCatalogConsumer :=
  let n := TrimSpace (ls_Name stream) in
  if IsEmpty n then []
  else omap (attachment subject n (streamCoversSubject (ls_Subjects stream) subject)) (ls_Consumers stream).
(** A stream is listed when it has a name and covers the subject or has a consumer
    that takes it. *)
Definition lists_stream (subject : string) (stream : EventCatalogLiveStream) : bool :=
  negb (IsEmpty (TrimSpace (ls_Name stream))) &&
  (streamCoversSubject (ls_Subjects stream) subject || nonempty (stream_attachments subject stream)).

Lemma attach_stream_step subject S C stream :
  attach_stream subject (S, C) stream =
  (if lists_stream subject stream then {[TrimSpace (ls_Name stream)]} ∪ S else S,
   foldl put_consumer C (stream_attachments subject stream)).
Proof.
  unfold attach_stream, lists_stream, stream_attachments. cbv zeta. destruct (IsEmpty _); [done|].
  rewrite attach_consumers. cbv zeta. cbn [negb andb orb].
  destruct (streamCoversSubject _ _), (nonempty _); cbn; done.
Qed.
Lemma attach_streams subject live S C :
  foldl (attach_stream subject) (S, C) live =
  (list_to_set (TrimSpace ∘ ls_Name <$> List.filter (lists_stream subject) live) ∪ S,
   foldl put_consumer C (flat_map (stream_attachments subject) live)).
Proof.
  revert S C. induction live as [|stream live IH]; intros S C; [cbn; f_equal; set_solver|].
  cbn [foldl flat_map List.filter]. rewrite attach_stream_step, IH, foldl_app.
  destruct (lists_stream subject stream); cbn; f_equal; set_solver.
Qed.

(** ** The map of consumers *)

Lemma put_consumers_lookup l C k :
  foldl put_consumer C l !! k =
  match last (List.filter (λ v, ckey v =s k) l) with Some v => Some v | None => C !! k end.
Proof.
  revert C. induction l as [|v l IH]; intros C; [done|]. cbn [foldl List.filter]. rewrite IH. unfold put_consumer.
  case_bool_decide as E.
  - rewrite last_cons. destruct (last _); [done|]. by rewrite E, lookup_insert_eq.
  - destruct (last _); [done|]. by rewrite lookup_insert_ne.
Qed.

Section Orders.
Context (range : Ranges EventCatalogConsumer).
Hypothesis range_perm : ∀ m, range m ≡ₚ map_to_list m.

Lemma listed_consumer l v :
  v ∈ sortedCatalogConsumers range (foldl put_consumer ∅ l) ↔ last (List.filter (λ w, ckey w =s ckey v) l) = Some v.
Proof.
  unfold sortedCatalogConsumers. rewrite merge_sort_Permutation, range_perm, list_elem_of_fmap. split.
  - intros ([k w] & -> & Hk%elem_of_map_to_list). cbn. rewrite put_consumers_lookup in Hk. destruct (last _) as [u|] eqn:El; [|done].
    injection Hk as <-. assert (Hu : ckey u = k).
    { apply last_Some in El as [l' El]. assert (Hin : u ∈ List.filter (λ v, ckey v =s k) l) by (rewrite El; set_solver).
      apply list_elem_of_In, filter_In in Hin as [_ Hb]. by apply bool_decide_eq_true in Hb. }
    by rewrite Hu.
  - intros Hl. exists (ckey v, v). split; [done|]. apply elem_of_map_to_list. by rewrite put_consumers_lookup, Hl.
Qed.

#[export] Instance consumer_le_trans : Transitive consumer_le.
Proof. intros c d e. apply keys_le_trans. Qed.
#[export] Instance consumer_le_total : Total consumer_le.
Proof. intros c d. apply keys_le_total. Qed.

Lemma listed_consumers_unique l v w :
  v ∈ sortedCatalogConsumers range (foldl put_consumer ∅ l) → w ∈ sortedCatalogConsumers range (foldl put_consumer ∅ l) →
  consumer_key v = consumer_key w → v = w.
Proof.
  rewrite !listed_consumer. intros Hv Hw E.
  assert (Ek : ckey v = ckey w) by (unfold ckey; injection E as -> ->; done). rewrite Ek, Hw in Hv. congruence.
Qed.
Lemma listed_consumers_sorted l : StronglySorted consumer_le (sortedCatalogConsumers range (foldl put_consumer ∅ l)).
Proof. apply StronglySorted_merge_sort; apply _. Qed.
Lemma put_consumers_key l k v : foldl put_consumer ∅ l !! k = Some v → k = ckey v.
Proof.
  rewrite put_consumers_lookup. destruct (last _) as [u|] eqn:El; [|by rewrite lookup_empty]. intros [= ->].
  apply last_Some in El as [l' El]. assert (Hin : v ∈ List.filter (λ v, ckey v =s k) l) by (rewrite El; set_solver).
  apply list_elem_of_In, filter_In in Hin as [_ Hb]. by apply bool_decide_eq_true in Hb.
Qed.
Lemma listed_consumers_NoDup l : NoDup (sortedCatalogConsumers range (foldl put_consumer ∅ l)).
Proof.
  unfold sortedCatalogConsumers. rewrite merge_sort_Permutation, range_perm.
  apply NoDup_fmap_2_strong; [|apply NoDup_map_to_list].
  intros [k v] [k' v'] Hk%elem_of_map_to_list Hk'%elem_of_map_to_list. cbn. intros ->.
  by rewrite (put_consumers_key _ _ _ Hk), (put_consumers_key _ _ _ Hk').
Qed.
End Orders.

Lemma sortedCatalogConsumers_canonical range range' l :
  (∀ m, range m ≡ₚ map_to_list m) → (∀ m, range' m ≡ₚ map_to_list m) →
  sortedCatalogConsumers range (foldl put_consumer ∅ l) = sortedCatalogConsumers range' (foldl put_consumer ∅ l).
Proof.
  intros Hr Hr'. apply (StronglySorted_unique_strong consumer_le); [|by apply listed_consumers_sorted..|].
  - intros v w Hv Hw Hvw Hwv. eapply listed_consumers_unique; [apply Hr|done| |by apply keys_le_antisym].
    by rewrite (listed_consumer _ Hr), <- (listed_consumer _ Hr').
  - unfold sortedCatalogConsumers. by rewrite !merge_sort_Permutation, Hr, Hr'.
Qed.

(** * The catalog *)

(** What a listing of attachments says: each stream once, each consumer once with
    the service of its last occurrence. *)
Definition shows_live (live : list EventCatalogLiveStream) (subject : string)
    (streams : list string) (consumers : list EventCatalogConsumer) : Prop :=
  NoDup streams ∧ StronglySorted String.le streams ∧
  (∀ n, n ∈ streams ↔ ∃ stream, stream ∈ live ∧ lists_stream subject stream = true ∧ n = TrimSpace (ls_Name stream)) ∧
  NoDup consumers ∧ StronglySorted consumer_le consumers ∧
  ∀ v, v ∈ consumers ↔ last (List.filter (λ w, ckey w =s ckey v) (flat_map (stream_attachments subject) live)) = Some v.

Lemma attachLiveCatalog_spec range live subject : (∀ m, range m ≡ₚ map_to_list m) →
  shows_live live subject (fst (attachLiveCatalog range live subject)) (snd (attachLiveCatalog range live subject)).
Proof.
  intros Hr. unfold attachLiveCatalog. rewrite attach_streams. cbn [fst snd]. unfold shows_live.
  split; [apply sortedKeys_NoDup|]. split; [apply sortedKeys_sorted|]. split.
  { intros n. rewrite sortedKeys_elem, union_empty_r_L, elem_of_list_to_set, list_elem_of_fmap.
    split; intros (stream & H1 & H2).
    - apply list_elem_of_In, filter_In in H2 as [Hin Hl]. exists stream. by rewrite list_elem_of_In.
    - destruct H2 as [Hl ->]. exists stream. split; [done|]. apply list_elem_of_In, filter_In. by rewrite <- list_elem_of_In. }
  split; [by apply listed_consumers_NoDup|]. split; [apply listed_consumers_sorted|]. by apply listed_consumer.
Qed.

Lemma attachLiveCatalog_canonical range range' live subject :
  (∀ m, range m ≡ₚ map_to_list m) → (∀ m, range' m ≡ₚ map_to_list m) →
  attachLiveCatalog range live subject = attachLiveCatalog range' live subject.
Proof.
  intros Hr Hr'. unfold attachLiveCatalog. rewrite attach_streams. f_equal. by apply sortedCatalogConsumers_canonical.
Qed.

(** The doc of a subject: the last one with that canonical subject. *)
Definition doc_of (docs : list EventCatalogDoc) (subject : string) : option EventCatalogDoc :=
  doc_with_subject subject <$>
  last (List.filter (λ d, bool_decide (CanonicalEventCatalogSubject (doc_Subject d) = Ok subject)) docs).

Lemma ex_cons {A} (P : A → Prop) a l : (∃ b, b ∈ a :: l ∧ P b) ↔ P a ∨ ∃ b, b ∈ l ∧ P b.
Proof.
  split.
  - intros (b & [->|Hb]%elem_of_cons & HP); [by left|right; by exists b].
  - intros [HP|(b & Hb & HP)]; [exists a|exists b]; (split; [|done]); [by left|by right].
Qed.
Lemma add_docs docs S M :
  (∀ x, x ∈ fst (foldl add_doc (S, M) docs) ↔
        x ∈ S ∨ ∃ d, d ∈ docs ∧ CanonicalEventCatalogSubject (doc_Subject d) = Ok x) ∧
  (∀ s, snd (foldl add_doc (S, M) docs) !! s = match doc_of docs s with Some d => Some d | None => M !! s end).
Proof.
  revert S M. induction docs as [|d docs IH]; intros S M.
  { split; [|done]. intros x. split; [by left|]. intros [?|(d & Hd%not_elem_of_nil & _)]; done. }
  cbn [foldl].
  assert (Hdoc : ∀ s, doc_of (d :: docs) s = match doc_of docs s with
    | Some d' => Some d'
    | None => if bool_decide (CanonicalEventCatalogSubject (doc_Subject d) = Ok s) then Some (doc_with_subject s d) else None end).
  { intros s. unfold doc_of. cbn [List.filter]. case_bool_decide; [rewrite last_cons|]; by destruct (last _). }
  assert (Hadd : add_doc (S, M) d = match CanonicalEventCatalogSubject (doc_Subject d) with
    | Err _ => (S, M) | Ok s => ({[s]} ∪ S, <[s := doc_with_subject s d]> M) end) by (unfold add_doc; by case_match).
  rewrite Hadd. destruct (CanonicalEventCatalogSubject (doc_Subject d)) as [s0|e] eqn:Ec; split; intros s.
  - rewrite (proj1 (IH _ _)), ex_cons, elem_of_union, elem_of_singleton, Ec. intuition congruence.
  - rewrite (proj2 (IH _ _)), Hdoc. destruct (doc_of docs s); [done|]. case_bool_decide as Es.
    + injection Es as ->. by rewrite lookup_insert_eq.
    + rewrite lookup_insert_ne; [done|]. intros ->. by apply Es.
  - rewrite (proj1 (IH _ _)), ex_cons, Ec. intuition congruence.
  - rewrite (proj2 (IH _ _)), Hdoc. destruct (doc_of docs s); [done|]. by case_bool_decide.
Qed.

(** The subjects of the catalog. *)
Definition catalog_subject (live : list EventCatalogLiveStream) (docs : list EventCatalogDoc) (x : string) : Prop :=
  (∃ stream, stream ∈ live ∧ x ∈ live_subjects stream) ∨
  ∃ d, d ∈ docs ∧ CanonicalEventCatalogSubject (doc_Subject d) = Ok x.
Definition shown_doc (docs : list EventCatalogDoc) (subject : string) : EventCatalogDoc :=
  match doc_of docs subject with Some d => entry_doc d | None => zero_doc end.
Definition count_of {A} (p : A → bool) (l : list A) : nat := length (List.filter p l).

Lemma count_of_cons {A} (p : A → bool) a l : count_of p (a :: l) = (if p a then 1 else 0) + count_of p l.
Proof. unfold count_of. cbn. by destruct (p a). Qed.
Lemma count_of_perm {A} (p : A → bool) l k : l ≡ₚ k → count_of p l = count_of p k.
Proof.
  unfold count_of. intros Hp. apply Permutation_length. induction Hp as [|a l k _ IH|a b l|]; cbn; [done| | |by etrans].
  - destruct (p a); [by constructor|done].
  - destruct (p a), (p b); try done. constructor.
Qed.
Lemma count_entries n d u o l :
  foldl count_entry (mkCatalogTotals n d u o) l =
  mkCatalogTotals n (d + count_of en_Documented l) (u + count_of (λ e, negb (en_Documented e)) l) (o + count_of en_Orphan l).
Proof.
  revert n d u o. induction l as [|e l IH]; intros n d u o; [cbn; f_equal; unfold count_of; cbn; lia|].
  cbn [foldl]. unfold count_entry at 2. cbn [ct_Total ct_Documented ct_Undocumented ct_Orphan]. rewrite IH, !count_of_cons. f_equal; destruct (en_Documented e), (en_Orphan e); cbn; lia.
Qed.

(** The state of the analysis before the entries are made. *)
Definition collected live docs := foldl add_doc (list_to_set (flat_map live_subjects live), ∅) docs.
Lemma collected_subjects live docs x : x ∈ (collected live docs).1 ↔ catalog_subject live docs x.
Proof.
  unfold collected, catalog_subject. rewrite (proj1 (add_docs _ _ _)), elem_of_list_to_set. f_equiv.
  rewrite list_elem_of_In, in_flat_map. split; intros (st & H1 & H2); exists st; [|]; by rewrite ?list_elem_of_In in *.
Qed.
Lemma BuildEventCatalog_unfold ranges range live docs :
  let entries := catalog_entry range live (collected live docs).2 <$> ranges (collected live docs).1 in
  BuildEventCatalog ranges range live docs =
  mkCatalogSnapshot (merge_sort entry_le entries)
    (mkCatalogTotals (length entries) (count_of en_Documented entries) (count_of (λ e, negb (en_Documented e)) entries)
       (count_of en_Orphan entries)).
Proof.
  unfold BuildEventCatalog. fold (collected live docs). destruct (collected live docs) as [S M]. cbn [fst snd].
  cbv zeta. by rewrite count_entries.
Qed.
Lemma catalog_entry_subject range live M s : en_Subject (catalog_entry range live M s) = s.
Proof. unfold catalog_entry. destruct (attachLiveCatalog _ _ _). by destruct (M !! s). Qed.
Lemma catalog_entry_spec range live docs s : (∀ m, range m ≡ₚ map_to_list m) →
  let e := catalog_entry range live (collected live docs).2 s in
  shows_live live s (en_Streams e) (en_Consumers e) ∧
  en_Orphan e = negb (nonempty (en_Streams e)) && negb (nonempty (en_Consumers e)) ∧
  en_Doc e = shown_doc docs s ∧ en_Documented e = catalogDocHasContent (en_Doc e).
Proof.
  intros Hr. pose proof (attachLiveCatalog_spec range live s Hr) as Hs. unfold catalog_entry, shown_doc, collected.
  rewrite (proj2 (add_docs docs _ _)), lookup_empty. destruct (attachLiveCatalog range live s) as [st co].
  assert (Ho : Nat.eqb (length st) 0 && Nat.eqb (length co) 0 = negb (nonempty st) && negb (nonempty co)).
  { by destruct st, co. }
  destruct (doc_of docs s); cbn; done.
Qed.

#[export] Instance entry_le_trans : Transitive entry_le.
Proof. intros e f g. unfold entry_le. intros H1 H2. by etrans. Qed.
#[export] Instance entry_le_total : Total entry_le.
Proof. intros e f. apply (total String.le). Qed.

Lemma sorted_subjects l : StronglySorted entry_le l → StronglySorted String.le (en_Subject <$> l).
Proof.
  induction 1 as [|e l Hl IH He]; cbn; constructor; [done|]. apply Forall_fmap. eapply Forall_impl; [exact He|]. done.
Qed.

(** The catalog lists, sorted and once each, exactly the concrete subjects of
    the live streams and filters and the documented ones; each with exactly the
    streams that cover it or have a consumer for it, exactly these consumers, and
    its last documentation; it is an orphan when there are none, and the totals
    count the entries.  The order of Go's maps does not matter. *)
Theorem catalog_exact ranges range live docs :
  (∀ S, ranges S ≡ₚ elements S) → (∀ m, range m ≡ₚ map_to_list m) →
  let snap := BuildEventCatalog ranges range live docs in
  let entries := cs_Entries snap in
  StronglySorted String.le (en_Subject <$> entries) ∧ NoDup (en_Subject <$> entries) ∧
  (∀ x, x ∈ en_Subject <$> entries ↔ catalog_subject live docs x) ∧
  (∀ e, e ∈ entries →
     shows_live live (en_Subject e) (en_Streams e) (en_Consumers e) ∧
     en_Orphan e = negb (nonempty (en_Streams e)) && negb (nonempty (en_Consumers e)) ∧
     en_Doc e = shown_doc docs (en_Subject e) ∧ en_Documented e = catalogDocHasContent (en_Doc e)) ∧
  cs_Totals snap = mkCatalogTotals (length entries) (count_of en_Documented entries)
    (count_of (λ e, negb (en_Documented e)) entries) (count_of en_Orphan entries).
Proof.
  intros Hs Hr. cbv zeta. rewrite BuildEventCatalog_unfold. cbv zeta. cbn [cs_Entries cs_Totals].
  set (l := catalog_entry range live (collected live docs).2 <$> ranges (collected live docs).1).
  assert (Hp : merge_sort entry_le l ≡ₚ l) by apply merge_sort_Permutation.
  assert (Hsub : en_Subject <$> l = ranges (collected live docs).1).
  { unfold l. rewrite <- list_fmap_compose. rewrite (list_fmap_ext _ id); [apply list_fmap_id|].
    intros i x _. apply catalog_entry_subject. }
  split; [apply sorted_subjects, StronglySorted_merge_sort; apply _|].
  assert (Hps : en_Subject <$> merge_sort entry_le l ≡ₚ elements (collected live docs).1) by (by rewrite Hp, Hsub).
  split; [rewrite Hps; apply NoDup_elements|].
  split; [intros x; rewrite Hps, elem_of_elements; apply collected_subjects|]. split.
  - intros e. rewrite Hp. unfold l. intros (s & -> & _)%list_elem_of_fmap. rewrite catalog_entry_subject.
    by apply catalog_entry_spec.
  - by rewrite !(count_of_perm _ _ _ Hp), (Permutation_length Hp).
Qed.

(** * On some streams *)

Definition shop_live : list EventCatalogLiveStream :=
  [mkLiveStream "ORDERS" ["orders.created"; "orders.>"]
     [mkLiveConsumer {[MetadataServiceKey := "billing-svc"]} "billing" "billing" "orders.>" [];
      mkLiveConsumer ∅ "analytics" "" "orders.created" ["orders.paid"]];
   mkLiveStream "AUDIT" [">"] []].
Definition shop_docs : list EventCatalogDoc :=
  [mkDoc " orders.created " "team" "" "" "" false "" "" "u" 1 2; mkDoc "users.gone" "" "" "null" "" false "" "" "" 1 1].
Definition subjects_down (S : gset string) : list string := reverse (elements S).
Definition consumers_down : Ranges EventCatalogConsumer := λ m, reverse (map_to_list m).
Lemma subjects_down_perm S : subjects_down S ≡ₚ elements S.
Proof. apply reverse_Permutation. Qed.
Lemma consumers_down_perm m : consumers_down m ≡ₚ map_to_list m.
Proof. apply reverse_Permutation. Qed.

Lemma catalog_exact_witness :
  let snap := BuildEventCatalog subjects_down consumers_down shop_live shop_docs in
  (en_Subject <$> cs_Entries snap = ["orders.created"; "orders.paid"; "users.gone"] ∧
   en_Streams <$> cs_Entries snap = [["AUDIT"; "ORDERS"]; ["AUDIT"; "ORDERS"]; ["AUDIT"]] ∧
   cs_Totals snap = mkCatalogTotals 3 1 2 0) ∧
  NoDup (en_Subject <$> cs_Entries snap).
Proof.
  split; [vm_compute; done|].
  exact (proj1 (proj2 (catalog_exact subjects_down consumers_down shop_live shop_docs subjects_down_perm consumers_down_perm))).
Defined.
