(* ===== verification/PageFacts.v ===== *)
(** The pages of events: the related events of a subject are the other subjects of
    its genome, however the maps of the two analyses are ranged over. *)

From S2P Require Export Catalog CatalogFacts.
From S2P Require Import NamingFacts Runes Session Rbac GoStrings.
From Stdlib Require Import Ascii.

(** * A genome is a trimmed string *)

Section Genome.
Context `{GoUnicode}.

Lemma singularize_nonempty t : t ≠ "" → singularize t ≠ "".
Proof. intros Ht. unfold singularize. destruct t as [|a [|b t]]; [done|done|]. by destruct (_ && _ && _). Qed.
Lemma singularize_head t : head (bytes_of (singularize t)) = head (bytes_of t).
Proof. unfold singularize. destruct t as [|a [|b t]]; [done|done|]. by destruct (_ && _ && _). Qed.

Lemma ToLower_ends t : is_ascii_string t = true → clean_ends (bytes_of t) → clean_ends (bytes_of (ToLower t)).
Proof.
  intros Ht [Hh Hl]. rewrite ToLower_bytes by done. split; intros a.
  - rewrite list_head_fmap. intros (b & Hb & ->)%fmap_Some. rewrite lower_byte_space. by apply Hh.
  - rewrite list_last_fmap. intros (b & Hb & ->)%fmap_Some. rewrite lower_byte_space. by apply Hl.
Qed.
Lemma ToLower_ascii t : is_ascii_string t = true → is_ascii_string (ToLower t) = true.
Proof.
  intros Ht. apply ascii_bytes. intros a. rewrite ToLower_bytes by done. intros (b & -> & Hb)%list_elem_of_fmap.
  apply lower_byte_ascii. rewrite ascii_bytes in Ht. by apply Ht.
Qed.
Lemma TrimSpace_ascii t : is_ascii_string t = true → is_ascii_string (TrimSpace t) = true.
Proof. rewrite !ascii_bytes. intros Ht a Ha%TrimSpace_sub. by apply Ht. Qed.
Lemma singularize_ascii t : is_ascii_string t = true → is_ascii_string (singularize t) = true.
Proof. rewrite !ascii_bytes. intros Ht a Ha%singularize_bytes. by apply Ht. Qed.

(** ASCII that [TrimSpace] leaves alone. *)
Definition tidy (t : string) : Prop := is_ascii_string t = true ∧ clean_ends (bytes_of t).
Lemma tidy_trim t : tidy t → TrimSpace t = t.
Proof. intros [Ha Hc]. by apply TrimSpace_clean. Qed.
Lemma TrimSpace_tidy t : is_ascii_string t = true → tidy (TrimSpace t).
Proof. intros Ht. split; [by apply TrimSpace_ascii|apply TrimSpace_ends]. Qed.

Lemma canonicalizeAction_tidy t : is_ascii_string t = true → tidy (canonicalizeAction t).
Proof.
  intros Ht. unfold canonicalizeAction. cbv zeta. destruct (List.find _ _) as [[k v]|] eqn:E.
  - apply List.find_some in E as [Hin _]. cbn in Hin.
    repeat (destruct Hin as [[= <- <-]|Hin];
      [split; [reflexivity|]; split; intros a [= <-]; reflexivity|]). done.
  - destruct (TrimSpace_tidy t Ht) as [Ha Hc]. split; [by apply ToLower_ascii|by apply ToLower_ends].
Qed.
Lemma canonicalizeAction_nonempty t : TrimSpace t ≠ "" → is_ascii_string t = true → canonicalizeAction t ≠ "".
Proof.
  intros Hne Ht. unfold canonicalizeAction. cbv zeta. destruct (List.find _ _) as [[k v]|] eqn:E.
  - apply List.find_some in E as [Hin _]. cbn in Hin. repeat (destruct Hin as [[= <- <-]|Hin]; [done|]). done.
  - intros Hl. apply Hne, bytes_of_inj. apply (f_equal bytes_of) in Hl. rewrite ToLower_bytes in Hl by by apply TrimSpace_ascii.
    by apply fmap_nil_inv in Hl.
Qed.

Lemma map_last_last f g l t : last l = Some t → last (Naming.map_last f g l) = Some (g t).
Proof.
  induction l as [|x l IH]; [done|]. destruct l as [|y l]; [by intros [= ->]|]. intros Hl.
  change (Naming.map_last f g (x :: y :: l)) with (f x :: Naming.map_last f g (y :: l)). rewrite last_cons.
  change (last (y :: l) = Some t) in Hl. by rewrite IH.
Qed.
Lemma map_last_bytes f g l t : t ∈ Naming.map_last f g l → ∃ u, u ∈ l ∧ (t = f u ∨ t = g u).
Proof.
  induction l as [|x l IH]; [by intros ?%not_elem_of_nil|]. destruct l as [|y l].
  - intros ->%list_elem_of_singleton. exists x. split; [left|by right].
  - change (Naming.map_last f g (x :: y :: l)) with (f x :: Naming.map_last f g (y :: l)).
    intros [->|Ht]%elem_of_cons; [exists x; split; [left|by left]|]. apply IH in Ht as (u & Hu & Ht). exists u. split; [by right|done].
Qed.

Lemma EventGenomeKey_tidy s : is_ascii_string s = true → tidy (EventGenomeKey s).
Proof.
  intros Hs. pose proof (normal_tokens_all s Hs) as Hl. destruct (normal_tokens s) as [|t l] eqn:En.
  { unfold EventGenomeKey, NormalizeSubject. rewrite En. cbn. split; [done|]. by split; intros a. }
  destruct (fingerprint_tokens s t l Hs En) as [_ ->]. clear En Hs.
  apply Forall_cons in Hl as [Ht Hl]. pose proof (normal_ascii t Ht) as Hta.
  destruct l as [|u l]; [by apply canonicalizeAction_tidy, singularize_ascii|].
  set (m := Naming.map_last singularize canonicalizeAction (u :: l)).
  assert (Hm : ∃ z, last m = Some (canonicalizeAction z) ∧ normal_token z).
  { destruct (last (u :: l)) as [z|] eqn:El; [|by apply last_None in El]. exists z. split; [by apply map_last_last|].
    apply last_Some in El as [l' El]. rewrite El in Hl. by apply Forall_app in Hl as [_ [? _]%Forall_cons]. }
  destruct Hm as (z & Hz & Hzn). pose proof (normal_ascii z Hzn) as Hza.
  assert (Hzt : canonicalizeAction z ≠ "").
  { apply canonicalizeAction_nonempty; [|done]. rewrite (TrimSpace_clean z) by (done || apply Hzn). apply Hzn. }
  split.
  - apply ascii_bytes. intros a [->|(v & [->|Hv]%elem_of_cons & Ha)]%Join_bytes; [done| |].
    + apply singularize_bytes in Ha. by apply Ht.
    + apply map_last_bytes in Hv as (w & Hw & Hv). rewrite Forall_forall in Hl. pose proof (normal_ascii w (Hl w Hw)) as Hwa.
      destruct Hv as [->| ->]; [apply singularize_bytes in Ha; by apply (Hl w Hw)|].
      destruct (canonicalizeAction_tidy w Hwa) as [Hc _]. rewrite ascii_bytes in Hc. by apply Hc.
  - split; intros a.
    + rewrite Join_head by by apply singularize_nonempty, Ht. rewrite singularize_head. apply Ht.
    + rewrite (Join_last _ (canonicalizeAction z)); [apply (canonicalizeAction_tidy z Hza)| |done].
      rewrite last_cons. by rewrite Hz.
Qed.
End Genome.

(** * Literals and clusters *)

Lemma uniqueLiterals_spec members x : x ∈ uniqueLiterals members ↔ ∃ o, o ∈ members ∧ x = oc_Subject o.
Proof.
  unfold uniqueLiterals.
  assert (Hm : ∀ out, foldl (λ out m, if oc_Subject m ∈b out then out else out ++ [oc_Subject m]) out members =
    foldl (λ out f, if f ∈b out then out else out ++ [f]) out (oc_Subject <$> members)).
  { induction members as [|m members IH]; intros out; [done|]. cbn. by rewrite IH. }
  rewrite Hm, dedup_spec, list_elem_of_fmap. split; [intros [?%not_elem_of_nil|(o & -> & Ho)]; [done|by exists o]|].
  intros (o & Ho & ->). right. by exists o.
Qed.
Lemma uniqueLiterals_NoDup members : NoDup (uniqueLiterals members).
Proof.
  unfold uniqueLiterals.
  assert (Hm : ∀ out, NoDup out → NoDup (foldl (λ out m, if oc_Subject m ∈b out then out else out ++ [oc_Subject m]) out members)).
  { induction members as [|m members IH]; intros out Ho; [done|]. cbn. apply IH. destruct (_ ∈b out) eqn:E; [done|].
    apply NoDup_app. split_and!; [done| |apply NoDup_singleton]. intros x Hx ->%list_elem_of_singleton.
    apply not_true_iff_false in E. apply E. by apply elem_of_bool_spec. }
  apply Hm. constructor.
Qed.

Section Related.
Context `{GoUnicode}.

(** Subjects of occurrences are trimmed and not empty. *)
Lemma first_of_key_elem seen l o : o ∈ first_of_key seen l → o ∈ l.
Proof.
  revert seen. induction l as [|p l IH]; intros seen; [done|]. cbn. destruct (_ ∈b seen); [right; by eapply IH|].
  intros [->|Ho]%elem_of_cons; [left|right; by eapply IH].
Qed.
Lemma occurrence_trimmed inputs o : o ∈ occurrences inputs → TrimSpace (oc_Subject o) = oc_Subject o ∧ oc_Subject o ≠ "".
Proof.
  intros Ho%first_of_key_elem. apply list_elem_of_In, in_flat_map in Ho as (st & _ & Ho). apply list_elem_of_In in Ho.
  assert (Ht : ∃ x, nonempty_trimmed x = Some (oc_Subject o)).
  { unfold stream_occurrences in Ho. cbv zeta in Ho. apply elem_of_app in Ho as [Ho|Ho].
    - apply list_elem_of_fmap in Ho as (s & -> & [(x & _ & Hx)%list_elem_of_omap _]%elem_of_filter_list). by exists x.
    - apply list_elem_of_In, in_flat_map in Ho as (c & _ & Ho). apply list_elem_of_In in Ho.
      apply list_elem_of_fmap in Ho as (s & -> & [(x & _ & Hx)%list_elem_of_omap _]%elem_of_filter_list). by exists x. }
  destruct Ht as (x & [Hx Hne]%nonempty_trimmed_Some). split; [|done]. by rewrite Hx, TrimSpace_idemp.
Qed.

Context (occs : list namingOccurrence).
Hypothesis trimmed : ∀ o, o ∈ occs → TrimSpace (oc_Subject o) = oc_Subject o ∧ oc_Subject o ≠ "".
Hypothesis ascii : ∀ o, o ∈ occs → is_ascii_string (oc_Subject o) = true.

(** The sorted literals of a genome. *)
Definition literals_of (g : string) : list string := SortStrings (uniqueLiterals (group_of EventGenomeKey occs g)).

Lemma literals_of_elem g x : x ∈ literals_of g ↔ (∃ o, o ∈ occs ∧ x = oc_Subject o) ∧ EventGenomeKey x = g.
Proof.
  unfold literals_of. rewrite SortStrings_perm, uniqueLiterals_spec. unfold group_of. split.
  - intros (o & [Ho Hb%bool_decide_eq_true]%elem_of_filter_list & ->). split; [by exists o|done].
  - intros [(o & Ho & ->) <-]. exists o. split; [|done]. apply elem_of_filter_list. by rewrite bool_decide_eq_true_2.
Qed.
Lemma literals_of_NoDup g : NoDup (literals_of g).
Proof. unfold literals_of. rewrite SortStrings_perm. apply uniqueLiterals_NoDup. Qed.

Lemma cluster_literals_id g : cluster_literals (literals_of g) = literals_of g.
Proof.
  unfold cluster_literals, literals_of at 2. apply SortStrings_unique.
  apply NoDup_Permutation; [apply dedup_NoDup; constructor|apply uniqueLiterals_NoDup|].
  intros x. rewrite dedup_spec, list_elem_of_omap.
  assert (Hx : x ∈ uniqueLiterals (group_of EventGenomeKey occs g) ↔ x ∈ literals_of g)
    by (unfold literals_of; by rewrite SortStrings_perm).
  rewrite Hx. split.
  - intros [?%not_elem_of_nil|(y & Hy & [-> _]%nonempty_trimmed_Some)]; [done|].
    pose proof Hy as [(o & Ho & ->) _]%literals_of_elem. by rewrite (proj1 (trimmed o Ho)).
  - intros Hin. pose proof Hin as [(o & Ho & ->) _]%literals_of_elem. right. exists (oc_Subject o). split; [done|].
    apply nonempty_trimmed_Some. by destruct (trimmed o Ho) as [-> ?].
Qed.

(** ** The findings and the map of clusters *)

Definition finding_of (f : EventGenomeFinding) : Prop := ∃ o, o ∈ occs ∧ genome_of occs o = Some f.

Lemma finding_of_spec f : finding_of f →
  gf_Genome f ≠ "" ∧ tidy (gf_Genome f) ∧ gf_Cluster f = literals_of (gf_Genome f) ∧ 2 ≤ length (literals_of (gf_Genome f)).
Proof.
  intros (o & Ho & E). unfold genome_of in E. cbv zeta in E. destruct (_ || _) eqn:Eb in E; [done|].
  apply orb_false_iff in Eb as [Eb _]. apply orb_false_iff in Eb as [He%IsEmpty_false Hc%negb_false_iff].
  injection E as <-. cbn [gf_Genome gf_Cluster]. split; [done|]. split; [by apply EventGenomeKey_tidy, ascii|]. split; [done|].
  unfold is_cluster in Hc. apply negb_true_iff, Nat.ltb_ge in Hc. unfold literals_of.
  by rewrite (Permutation_length (SortStrings_perm _)).
Qed.

(** A genome with two literals has a finding: one of them is not the suggestion. *)
Lemma finding_exists g : g ≠ "" → 2 ≤ length (literals_of g) → ∃ f, finding_of f ∧ gf_Genome f = g.
Proof.
  intros Hg Hl. set (sg := withCanonicalAction (clusterSuggestion (uniqueLiterals (group_of EventGenomeKey occs g)))).
  assert (Hx : ∃ x, x ∈ literals_of g ∧ x ≠ sg).
  { pose proof (literals_of_NoDup g) as Hnd. destruct (literals_of g) as [|x [|y l]]; cbn in Hl; [lia|lia|].
    destruct (decide (x = sg)) as [->|Hne]; [|exists x; split; [left|done]].
    exists y. split; [right; left|]. intros ->. apply NoDup_cons in Hnd as [Hni _]. apply Hni. left. }
  destruct Hx as (x & [(o & Ho & ->) Eg]%literals_of_elem & Hne).
  exists (mkGenomeFinding g o sg (literals_of g) (genomeReasons (oc_Subject o) sg)). split; [|done].
  exists o. split; [done|]. unfold genome_of. cbv zeta. rewrite Eg. fold sg.
  assert (Hc : is_cluster (group_of EventGenomeKey occs g) = true).
  { unfold is_cluster. apply negb_true_iff, Nat.ltb_ge. unfold literals_of in Hl. by rewrite (Permutation_length (SortStrings_perm _)) in Hl. }
  apply IsEmpty_false in Hg. rewrite Hg, Hc. cbn [negb orb]. by rewrite bool_decide_eq_false_2.
Qed.

Lemma add_clusters_lookup fs (C : gmap string (list string)) k : (∀ f, f ∈ fs → finding_of f) →
  foldl add_cluster C fs !! k =
  match C !! k with
  | Some l => Some l
  | None => if bool_decide (k ∈ gf_Genome <$> fs) then Some (literals_of k) else None
  end.
Proof.
  revert C. induction fs as [|f fs IH]; intros C Hf; [cbn; by destruct (C !! k)|].
  cbn [foldl]. rewrite IH by (intros g Hg; apply Hf; by right).
  destruct (finding_of_spec f (Hf f (list_elem_of_here _ _))) as (Hne & Ht & Hc & Hl).
  unfold add_cluster. cbv zeta. rewrite (tidy_trim _ Ht). apply IsEmpty_false in Hne. rewrite Hne, Hne.
  rewrite Hc, cluster_literals_id. apply Nat.leb_le in Hl. rewrite Hl.
  destruct (decide (k = gf_Genome f)) as [->|Hk].
  - rewrite (bool_decide_eq_true_2 (gf_Genome f ∈ gf_Genome <$> f :: fs)) by (cbn; left).
    destruct (C !! gf_Genome f) eqn:Eg; [by rewrite Eg|]. by rewrite lookup_insert_eq.
  - rewrite (bool_decide_ext (k ∈ gf_Genome <$> f :: fs) (k ∈ gf_Genome <$> fs)).
    + destruct (C !! gf_Genome f); [done|]. by rewrite lookup_insert_ne.
    + cbn. rewrite elem_of_cons. naive_solver.
Qed.
End Related.

(** * The related events *)

Lemma put_peers_lookup L L' (out : gmap string (list string)) s :
  foldl (λ out subject, <[subject := peers_of L subject]> out) out L' !! s =
  if s ∈b L' then Some (peers_of L s) else out !! s.
Proof.
  revert out. induction L' as [|x L' IH]; intros out; [done|]. cbn [foldl]. rewrite IH.
  destruct (s ∈b L') eqn:E.
  - rewrite (proj2 (elem_of_bool_spec s (x :: L'))); [done|]. right. by apply elem_of_bool_spec.
  - destruct (decide (s = x)) as [->|Hne].
    + rewrite lookup_insert_eq, (proj2 (elem_of_bool_spec x (x :: L'))); [done|left].
    + rewrite lookup_insert_ne by done. destruct (s ∈b x :: L') eqn:E2; [|done].
      apply elem_of_bool_spec, elem_of_cons in E2 as [->|E2%elem_of_bool_spec]; [done|congruence].
Qed.
Lemma put_related_lookup (l : list (string * list string)) (out : gmap string (list string)) s l0 : (∀ kl, kl ∈ l → s ∈ kl.2 → kl.2 = l0) →
  foldl (λ out kl, foldl (λ out subject, <[subject := peers_of kl.2 subject]> out) out kl.2) out l !! s =
  if existsb (λ kl, s ∈b kl.2) l then Some (peers_of l0 s) else out !! s.
Proof.
  revert out. induction l as [|kl l IH]; intros out Hl; [done|]. cbn [foldl existsb].
  rewrite IH by (intros k Hk; apply Hl; by right). rewrite put_peers_lookup.
  destruct (s ∈b kl.2) eqn:E; cbn [orb]; [|done].
  rewrite (Hl kl) by (left || by apply elem_of_bool_spec). by destruct (existsb _ l).
Qed.

Section Pages.
Context `{GoUnicode}.
Context (range : Ranges (list string)) (rangeg : gmap string (list namingOccurrence) → list (string * list namingOccurrence)).
Hypothesis range_perm : ∀ m, range m ≡ₚ map_to_list m.
Hypothesis rangeg_perm : ∀ m, rangeg m ≡ₚ map_to_list m.
Context (inputs : list NamingInput).
Hypothesis ascii : ∀ o, o ∈ occurrences inputs → is_ascii_string (oc_Subject o) = true.

Lemma report_findings f : f ∈ gs_Findings (AnalyzeEventGenome rangeg inputs) ↔ finding_of (occurrences inputs) f.
Proof.
  cbn. rewrite merge_sort_Permutation, genome_all by apply rangeg_perm. rewrite list_elem_of_omap. done.
Qed.

Lemma related_lookup s :
  genomeRelatedBySubject range (AnalyzeEventGenome rangeg inputs) !! s =
  let l := literals_of (occurrences inputs) (EventGenomeKey s) in
  if negb (IsEmpty (EventGenomeKey s)) && Nat.leb 2 (length l) && (s ∈b l) then Some (peers_of l s) else None.
Proof.
  unfold genomeRelatedBySubject. cbv zeta. set (fs := gs_Findings _).
  assert (Hfs : ∀ f, f ∈ fs → finding_of (occurrences inputs) f) by (intros f; apply report_findings).
  assert (Hm : ∀ k l, (k, l) ∈ range (foldl add_cluster ∅ fs) ↔
    l = literals_of (occurrences inputs) k ∧ k ∈ gf_Genome <$> fs).
  { intros k l. rewrite range_perm, elem_of_map_to_list, (add_clusters_lookup (occurrences inputs)), lookup_empty by
      (done || apply occurrence_trimmed). case_bool_decide; naive_solver. }
  rewrite (put_related_lookup _ _ _ (literals_of (occurrences inputs) (EventGenomeKey s))).
  2:{ intros [k l] [-> _]%Hm Hs. cbn in *. by apply literals_of_elem in Hs as [_ <-]. }
  rewrite lookup_empty. set (l := literals_of _ _).
  rewrite (bool_eq_iff (existsb _ _) (negb (IsEmpty (EventGenomeKey s)) && Nat.leb 2 (length l) && (s ∈b l))); [done|].
  rewrite existsb_true_iff, !andb_true_iff, negb_true_iff, IsEmpty_false, Nat.leb_le, elem_of_bool_spec. split.
  - intros ([k l'] & [-> Hk]%Hm & Hs%elem_of_bool_spec). cbn in Hs.
    assert (EventGenomeKey s = k) as <- by by apply literals_of_elem in Hs as [_ ?].
    apply list_elem_of_fmap in Hk as (f & Ef & Hf). apply Hfs, (finding_of_spec _ ascii) in Hf as (Hne & _ & _ & Hlen).
    rewrite <- Ef in Hne, Hlen. done.
  - intros [[Hne Hlen] Hs]. destruct (finding_exists (occurrences inputs) (EventGenomeKey s) Hne Hlen) as (f & Hf & Eg).
    exists (EventGenomeKey s, l). split; [|by apply elem_of_bool_spec]. apply Hm. split; [done|].
    apply list_elem_of_fmap. exists f. split; [done|]. by apply report_findings.
Qed.

Lemma peers_of_elem l s q : q ∈ peers_of l s ↔ q ∈ l ∧ q ≠ s.
Proof. unfold peers_of. rewrite elem_of_filter_list, negb_true_iff, bool_decide_eq_false. done. Qed.
Lemma filter_sublist {A} (p : A → bool) (l : list A) : List.filter p l `sublist_of` l.
Proof. induction l as [|a l IH]; cbn; [done|]. destruct (p a); by constructor. Qed.
Lemma filter_StronglySorted {A} (R : A → A → Prop) (p : A → bool) l : StronglySorted R l → StronglySorted R (List.filter p l).
Proof.
  induction 1 as [|a l Hl IH Ha]; cbn; [constructor|]. destruct (p a); [|done]. constructor; [done|].
  apply Forall_forall. intros b [Hb _]%elem_of_filter_list. by eapply Forall_forall in Ha.
Qed.

(** The related events of a page are, sorted and once each, the other
    subjects in use that have the genome of the page's subject: through both
    analyses and whatever the order of their maps. *)
Theorem related_events_share_the_genome catalog p :
  p ∈ ws_Pages (BuildEventWikipedia range catalog (AnalyzeEventGenome rangeg inputs)) →
  let used := oc_Subject <$> occurrences inputs in
  StronglySorted String.le (wp_RelatedEvents p) ∧ NoDup (wp_RelatedEvents p) ∧
  ∀ q, q ∈ wp_RelatedEvents p ↔
    q ≠ wp_Subject p ∧ EventGenomeKey q = EventGenomeKey (wp_Subject p) ∧ EventGenomeKey q ≠ "" ∧
    q ∈ used ∧ wp_Subject p ∈ used.
Proof.
  unfold BuildEventWikipedia. cbv zeta. cbn [ws_Pages]. rewrite merge_sort_Permutation.
  intros (e & -> & _)%list_elem_of_fmap. unfold page_of. cbn [wp_RelatedEvents wp_Subject].
  rewrite related_lookup. cbv zeta. set (s := en_Subject e). set (l := literals_of _ _).
  assert (Hl : ∀ x, x ∈ l ↔ x ∈ oc_Subject <$> occurrences inputs ∧ EventGenomeKey x = EventGenomeKey s).
  { intros x. unfold l. rewrite literals_of_elem, list_elem_of_fmap. naive_solver. }
  destruct (_ && _ && _) eqn:Eb; cbn [default from_option id].
  - apply andb_true_iff in Eb as [[Hne%negb_true_iff%IsEmpty_false _]%andb_true_iff Hs%elem_of_bool_spec].
    split; [apply filter_StronglySorted, SortStrings_sorted|].
    split; [eapply sublist_NoDup; [apply literals_of_NoDup|apply filter_sublist]|].
    intros q. rewrite peers_of_elem, Hl. apply Hl in Hs as [Hs _]. split; [|naive_solver].
    intros [[Hq Eq] Hqs]. rewrite Eq. done.
  - split; [constructor|]. split; [constructor|]. intros q. split; [by intros ?%not_elem_of_nil|].
    intros (Hqs & Eq & Hne & Hq & Hs). exfalso. apply not_true_iff_false in Eb. apply Eb.
    rewrite !andb_true_iff, negb_true_iff, IsEmpty_false, Nat.leb_le, elem_of_bool_spec. rewrite <- Eq at 1.
    assert (Hs' : s ∈ l) by by apply Hl. assert (Hq' : q ∈ l) by by apply Hl.
    split; [split; [done|]|done]. destruct l as [|a [|b l']]; [by apply not_elem_of_nil in Hs'| |cbn; lia].
    apply list_elem_of_singleton in Hs', Hq'. congruence.
Qed.
End Pages.

(** * On some streams *)

#[local] Existing Instance ascii_only.

Definition clusters_down : Ranges (list string) := λ m, reverse (map_to_list m).
Lemma clusters_down_perm m : clusters_down m ≡ₚ map_to_list m.
Proof. apply reverse_Permutation. Qed.
Definition shop_pages : EventWikipediaSnapshot :=
  BuildEventWikipedia clusters_down
    (BuildEventCatalog subjects_down consumers_down [mkLiveStream "S" ["orders.created"; "order.new"; "users.paid"] []] [])
    (AnalyzeEventGenome last_first shop).
Lemma shop_ascii o : o ∈ occurrences shop → is_ascii_string (oc_Subject o) = true.
Proof.
  revert o. apply Forall_forall. vm_compute. repeat constructor.
Qed.

Definition created_page : EventWikipediaPage := default (page_of ∅ (Catalog.mkEntry "" zero_doc [] [] false false))
  (List.find (λ p, wp_Subject p =s "orders.created") (ws_Pages shop_pages)).
Lemma related_events_share_the_genome_witness :
  wp_RelatedEvents created_page = ["OrderCreated"; "order.created"; "orders.new"] ∧ NoDup (wp_RelatedEvents created_page).
Proof.
  split; [vm_compute; reflexivity|].
  refine (proj1 (proj2 (related_events_share_the_genome clusters_down last_first clusters_down_perm last_first_perm shop shop_ascii
    (BuildEventCatalog subjects_down consumers_down [mkLiveStream "S" ["orders.created"; "order.new"; "users.paid"] []] [])
    created_page _))).
  apply list_elem_of_In. apply (List.find_some (λ p, wp_Subject p =s "orders.created")). vm_compute. reflexivity.
Defined.
