(* ===== verification/CatalogEdits.v ===== *)
(** The documentation in the tables: what the handlers keep of them, and that what
    is put is what the catalog shows until it is deleted. *)

From S2P Require Export Catalog CatalogFacts PageFacts.
From S2P Require Import NamingFacts Runes Session Rbac GoStrings.
From Stdlib Require Import Ascii.

Lemma Canonical_Ok x s : CanonicalEventCatalogSubject x = Ok s → s = TrimSpace x ∧ CanonicalEventCatalogSubject s = Ok s.
Proof.
  unfold CanonicalEventCatalogSubject. cbv zeta. destruct (ValidateEventCatalogSubject (TrimSpace x)) as [[]|] eqn:E; [|done].
  intros [= <-]. split; [done|]. by rewrite TrimSpace_idemp, E.
Qed.

(** Rows are kept under their cluster and their canonical subject, refer to what
    there is, and have an identifier of their own. *)
Record catalog_ok (t : CatalogTables) : Prop := mkCatalogOk {
  ok_row c s r : cat_entries t !! (c, s) = Some r →
    er_ClusterID r = c ∧ doc_Subject (er_doc r) = s ∧ CanonicalEventCatalogSubject s = Ok s ∧ c ∈ cat_clusters t ∧
    (doc_UpdatedBy (er_doc r) = "" ∨ doc_UpdatedBy (er_doc r) ∈ cat_users t);
  ok_id k k' r r' : cat_entries t !! k = Some r → cat_entries t !! k' = Some r' → er_ID r = er_ID r' → k = k';
}.

Lemma doc_of_unique docs s d :
  (∀ d, d ∈ docs → CanonicalEventCatalogSubject (doc_Subject d) = Ok (doc_Subject d)) → NoDup (doc_Subject <$> docs) →
  doc_of docs s = Some d ↔ d ∈ docs ∧ doc_Subject d = s.
Proof.
  intros Hc Hnd. unfold doc_of. set (l := List.filter _ docs).
  assert (Hl : ∀ e, e ∈ l ↔ e ∈ docs ∧ doc_Subject e = s).
  { intros e. unfold l. rewrite elem_of_filter_list, bool_decide_eq_true. split; intros [He Es]; (split; [done|]).
    - rewrite (Hc e He) in Es. by injection Es.
    - rewrite <- Es. by apply Hc. }
  assert (Hid : ∀ e, e ∈ l → doc_with_subject s e = e) by (intros e [_ <-]%Hl; by destruct e).
  assert (Hone : ∀ e, e ∈ l → last l = Some e).
  { intros e He. destruct (last l) as [e'|] eqn:El; [|apply last_None in El; rewrite El in He; by apply not_elem_of_nil in He].
    apply last_Some in El as [l' El]. assert (He' : e' ∈ l) by (rewrite El; set_solver).
    apply Hl in He as [He Es], He' as [He' Es']. f_equal. apply list_elem_of_lookup in He as [i Hi], He' as [j Hj].
    assert (i = j) as ->; [|congruence]. apply (NoDup_lookup _ _ _ s Hnd); rewrite list_lookup_fmap; [rewrite Hi|rewrite Hj]; cbn; congruence. }
  split.
  - intros (e & El & ->)%fmap_Some. assert (He : e ∈ l) by (apply last_Some in El as [l' ->]; set_solver).
    rewrite Hid by done. by apply Hl.
  - intros Hd%Hl. rewrite (Hone d Hd). cbn. by rewrite Hid.
Qed.

Section Edits.
Context `{CatalogJson} `{PgUUID}.

(** ** The listing *)

Definition docs_of (c : string) (t : CatalogTables) : list EventCatalogDoc :=
  merge_sort (λ a b, String.le (doc_Subject a) (doc_Subject b))
    ((λ kr, er_doc kr.2) <$> List.filter (λ kr, kr.1.1 =s c) (map_to_list (cat_entries t))).

Lemma List_up cluster c t : cat_up t = true → parse_uuid cluster = Some c →
  ListEventCatalogEntries cluster t = (Ok (docs_of c t), t).
Proof. intros Hu Hc. unfold ListEventCatalogEntries, bind, conline, cuuid. by rewrite Hu, Hc. Qed.

Lemma docs_of_elem c t d : d ∈ docs_of c t ↔ ∃ s r, cat_entries t !! (c, s) = Some r ∧ d = er_doc r.
Proof.
  unfold docs_of. rewrite merge_sort_Permutation, list_elem_of_fmap. split.
  - intros ([[c' s] r] & -> & [Hk%elem_of_map_to_list Hc%bool_decide_eq_true]%elem_of_filter_list). cbn in *. subst. by exists s, r.
  - intros (s & r & Hk & ->). exists ((c, s), r). split; [done|]. apply elem_of_filter_list.
    rewrite elem_of_map_to_list. cbn. by rewrite bool_decide_eq_true_2.
Qed.
Lemma docs_of_NoDup c t : catalog_ok t → NoDup (doc_Subject <$> docs_of c t).
Proof.
  intros Hok. unfold docs_of. rewrite merge_sort_Permutation, <- list_fmap_compose. apply NoDup_fmap_2_strong.
  - intros [[c1 s1] r1] [[c2 s2] r2] [H1%elem_of_map_to_list E1%bool_decide_eq_true]%elem_of_filter_list
      [H2%elem_of_map_to_list E2%bool_decide_eq_true]%elem_of_filter_list. cbn in *. subst.
    destruct (ok_row t Hok _ _ _ H1) as (_ & -> & _), (ok_row t Hok _ _ _ H2) as (_ & -> & _). intros ->. congruence.
  - eapply sublist_NoDup; [apply NoDup_map_to_list|apply filter_sublist].
Qed.
Lemma doc_of_docs c s t : catalog_ok t → doc_of (docs_of c t) s = er_doc <$> cat_entries t !! (c, s).
Proof.
  intros Hok. apply option_eq. intros d. rewrite doc_of_unique; [|intros e (s' & r & Hr & ->)%docs_of_elem|by apply docs_of_NoDup].
  - rewrite docs_of_elem, fmap_Some. split.
    + intros [(s' & r & Hr & ->) Es]. destruct (ok_row t Hok _ _ _ Hr) as (_ & Es' & _). exists r. split; [congruence|done].
    + intros (r & Hr & ->). destruct (ok_row t Hok _ _ _ Hr) as (_ & Es' & _). split; [by exists s, r|done].
  - by destruct (ok_row t Hok _ _ _ Hr) as (_ & -> & ? & _).
Qed.

(** ** The statements *)

(** What the database makes of a jsonb parameter. *)
Definition stored_json (s j : string) : Prop := if IsEmpty s then j = "" else jsonb s = Some j.

Lemma cjsonb_Ok s t j t' : cjsonb s t = (Ok j, t') → t' = t ∧ stored_json s j.
Proof. unfold cjsonb, stored_json. destruct (IsEmpty s); [by intros [= <- <-]|]. destruct (jsonb s); by intros [= <- <-]. Qed.
Lemma cuuid_Ok s (t : CatalogTables) u t' : cuuid s t = (Ok u, t') → t' = t ∧ parse_uuid s = Some u.
Proof. unfold cuuid. destruct (parse_uuid s); by intros [= <- <-]. Qed.
Lemma conline_Ok (t : CatalogTables) u t' : conline t = (Ok u, t') → t' = t ∧ cat_up t = true.
Proof. unfold conline. destruct (cat_up t); by intros [= <- <-]. Qed.

Lemma bind_get {S E A} (k : S → M S E A) s : bind get k s = k s s.
Proof. done. Qed.

Lemma ensure_Ok {S E} b (e : E) (s : S) u s' : ensure b e s = (Ok u, s') → s' = s ∧ b = true.
Proof. unfold ensure. destruct b; by intros [= _ <-]. Qed.

Definition row_written (id : string) (now : Z) (c : string) (d : EventCatalogDoc) (t : CatalogTables) (r : EventCatalogEntryRow) : Prop :=
  let old := cat_entries t !! (c, doc_Subject d) in
  er_ClusterID r = c ∧ er_ID r = default id (er_ID <$> old) ∧
  (old = None → ∀ k r', cat_entries t !! k = Some r' → er_ID r' ≠ id) ∧
  doc_Subject (er_doc r) = doc_Subject d ∧ doc_Owner (er_doc r) = doc_Owner d ∧ doc_Description (er_doc r) = doc_Description d ∧
  stored_json (doc_Schema d) (doc_Schema (er_doc r)) ∧ stored_json (doc_Example d) (doc_Example (er_doc r)) ∧
  doc_Deprecated (er_doc r) = doc_Deprecated d ∧ doc_SuccessorSubject (er_doc r) = doc_SuccessorSubject d ∧
  doc_DeprecationNote (er_doc r) = doc_DeprecationNote d ∧
  (doc_UpdatedBy (er_doc r) = "" ∨ doc_UpdatedBy (er_doc r) ∈ cat_users t) ∧
  (if IsEmpty (doc_UpdatedBy d) then doc_UpdatedBy (er_doc r) = "" else parse_uuid (doc_UpdatedBy d) = Some (doc_UpdatedBy (er_doc r))) ∧
  doc_CreatedAt (er_doc r) = default now (doc_CreatedAt ∘ er_doc <$> old) ∧ doc_UpdatedAt (er_doc r) = now.

Lemma upsert_entry_Ok id now cluster d t u t' : upsert_entry id now cluster d t = (Ok u, t') →
  ∃ c r, cat_up t = true ∧ parse_uuid cluster = Some c ∧ c ∈ cat_clusters t ∧ row_written id now c d t r ∧
         t' = set_entries <[(c, doc_Subject d) := r]> t.
Proof.
  unfold upsert_entry. intros Hu. apply bind_Ok in Hu as (x1 & t1 & [-> Hup]%conline_Ok & Hu).
  apply bind_Ok in Hu as (c & t2 & [-> Hc]%cuuid_Ok & Hu). apply bind_Ok in Hu as (sc & t3 & [-> Hsc]%cjsonb_Ok & Hu).
  apply bind_Ok in Hu as (ex & t4 & [-> Hex]%cjsonb_Ok & Hu). apply bind_Ok in Hu as (b & t5 & Hb & Hu).
  assert (Hb' : t5 = t ∧ if IsEmpty (doc_UpdatedBy d) then b = "" else parse_uuid (doc_UpdatedBy d) = Some b).
  { destruct (IsEmpty (doc_UpdatedBy d)); [by injection Hb as <- <-|by apply cuuid_Ok]. }
  destruct Hb' as [-> Hby]. rewrite bind_get in Hu.
  apply bind_Ok in Hu as (u1 & t6 & [-> Hcl%bool_decide_eq_true]%ensure_Ok & Hu).
  apply bind_Ok in Hu as (u2 & t7 & [-> Hus]%ensure_Ok & Hu).
  assert (Hus' : b = "" ∨ b ∈ cat_users t).
  { apply orb_true_iff in Hus as [->%IsEmpty_true| ?%bool_decide_eq_true]; [by left|by right]. }
  destruct (cat_entries t !! (c, doc_Subject d)) as [r|] eqn:Er.
  - injection Hu as <- <-. eexists c, _. split_and!; [done..| |done].
    unfold row_written. cbv zeta. rewrite Er. cbn. split_and!; done.
  - apply bind_Ok in Hu as (u3 & t8 & [-> Hid%negb_true_iff]%ensure_Ok & Hu).
    injection Hu as <- <-. eexists c, _. split_and!; [done..| |done].
    unfold row_written. cbv zeta. rewrite Er. cbn. split_and!; try done.
    intros _ k r' Hk E. rewrite existsb_false_iff in Hid. specialize (Hid (k, r')).
    rewrite elem_of_map_to_list in Hid. specialize (Hid Hk). cbn in Hid. by apply bool_decide_eq_false in Hid.
Qed.

Lemma upsert_entry_Err id now cluster d t e t' : upsert_entry id now cluster d t = (Err e, t') → t' = t.
Proof.
  unfold upsert_entry, bind, conline, cuuid, cjsonb, ensure, get, ret, fail, modify.
  repeat (case_match; simplify_eq); congruence.
Qed.

(** ** The tables stay well formed *)

Lemma put_keeps id now c d t r : catalog_ok t → c ∈ cat_clusters t →
  CanonicalEventCatalogSubject (doc_Subject d) = Ok (doc_Subject d) → row_written id now c d t r →
  catalog_ok (set_entries <[(c, doc_Subject d) := r]> t).
Proof.
  intros Hok Hc Hs (Hcl & Hid & Hnew & Hsub & _ & _ & _ & _ & _ & _ & _ & Hby & _). split; cbn.
  - intros c' s' r' [[[= <- <-] <-]|[_ Hr]]%lookup_insert_Some; [done|]. by apply (ok_row t Hok).
  - assert (Hother : ∀ k r', (c, doc_Subject d) ≠ k → cat_entries t !! k = Some r' → er_ID r' ≠ er_ID r).
    { intros k r' Hk Hr' E. rewrite Hid in E. destruct (cat_entries t !! (c, doc_Subject d)) as [old|] eqn:Eo.
      - cbn in E. apply Hk. by eapply (ok_id t Hok).
      - by apply (Hnew eq_refl k r'). }
    intros k k' r1 r2 [[<- <-]|[Hk H1]]%lookup_insert_Some [[<- <-]|[Hk' H2]]%lookup_insert_Some E; [done| | |].
    + by destruct (Hother _ _ Hk' H2).
    + by destruct (Hother _ _ Hk H1).
    + by eapply (ok_id t Hok).
Qed.
Lemma delete_keeps k t : catalog_ok t → catalog_ok (set_entries (delete k) t).
Proof.
  intros Hok. split; cbn.
  - intros c s r [_ Hr]%lookup_delete_Some. by apply (ok_row t Hok).
  - intros k1 k2 r1 r2 [_ H1]%lookup_delete_Some [_ H2]%lookup_delete_Some. by apply (ok_id t Hok).
Qed.

Definition keeps_ok (t t' : CatalogTables) : Prop := catalog_ok t → catalog_ok t'.
#[export] Instance keeps_ok_preorder : PreOrder keeps_ok.
Proof. split; [by intros t Ht|]. intros t1 t2 t3 H1 H2 Ht. by apply H2, H1. Qed.

Lemma conline_keeps : runs keeps_ok conline.
Proof. intros t. unfold conline. by destruct (cat_up t). Qed.
Lemma cuuid_keeps s : runs keeps_ok (cuuid s).
Proof. unfold cuuid. run_rules. Qed.
Hint Resolve conline_keeps cuuid_keeps : runs.

Lemma upsert_keeps id now cluster subject by_ req : runs keeps_ok (repo_UpsertEventCatalogEntry id now cluster subject by_ req).
Proof.
  intros t. unfold repo_UpsertEventCatalogEntry, bind at 1. unfold lift at 1.
  destruct (CanonicalEventCatalogSubject subject) as [s|e] eqn:Es; [|done]. apply Canonical_Ok in Es as [_ Es].
  apply (runs_bind keeps_ok); [auto with runs|]. intros []. apply (runs_bind keeps_ok); [auto with runs|]. intros [].
  apply (runs_bind keeps_ok).
  - intros t1 Ht1. set (d := mkDoc _ _ _ _ _ _ _ _ _ _ _).
    destruct (upsert_entry id now cluster d t1) as [[u|e] t2] eqn:Eu; cbn [snd].
    + apply upsert_entry_Ok in Eu as (c & r & _ & _ & Hc & Hr & ->). by eapply put_keeps.
    + by apply upsert_entry_Err in Eu as ->.
  - intros _. unfold GetEventCatalogEntry. run_rules.
Qed.
Hint Resolve upsert_keeps : runs.

(** Putting and deleting documentation keep the table well formed: every row
    under its existing cluster and its canonical subject, with an identifier of
    its own and an existing user or none as its last author. *)
Theorem edits_keep_the_table t id now user cluster raw body : catalog_ok t →
  catalog_ok (snd (catalog_Upsert id now user cluster raw body t)) ∧ catalog_ok (snd (catalog_Delete cluster raw t)).
Proof.
  intros Hok. split; [apply (λ H : runs keeps_ok (catalog_Upsert id now user cluster raw body), H t Hok)|
                      apply (λ H : runs keeps_ok (catalog_Delete cluster raw), H t Hok)].
  - unfold catalog_Upsert, UpsertEventCatalogEntry. run_rules.
  - unfold catalog_Delete, DeleteEventCatalogEntry. run_rules. apply runs_modify. intros t1 Ht1. by apply delete_keeps.
Qed.

(** ** What is put is shown *)

Lemma catalog_Upsert_Ok id now user cluster raw req d t t' :
  catalog_Upsert id now user cluster raw (Some req) t = (Ok (200%Z, Some d), t') →
  ∃ subject, catalogSubjectParam raw = Ok subject ∧
    UpsertEventCatalogEntry id now cluster subject user req t = (Ok d, t').
Proof.
  unfold catalog_Upsert. destruct (catalogSubjectParam raw) as [subject|] eqn:Es; [|done]. exists subject. split; [done|].
  revert H1. unfold cstatus, bind, attempt. do 2 (destruct (negb _); [done|]).
  destruct (UpsertEventCatalogEntry _ _ _ _ _ _ t) as [[row|e] t1]; [by intros [= <- <-]|]. by destruct (isCatalogValidationError e).
Qed.

(** The documentation a request asks for. *)
Definition asked (user : string) (req : EventCatalogUpsert) (subject : string) : EventCatalogDoc :=
  mkDoc subject (truncateRunes (TrimSpace (up_Owner req)) 256) (truncateRunes (TrimSpace (up_Description req)) 4000)
    (normalizeStoredJSON (up_Schema req)) (normalizeStoredJSON (up_Example req)) (up_Deprecated req)
    (truncateRunes (TrimSpace (up_SuccessorSubject req)) 512) (truncateRunes (TrimSpace (up_DeprecationNote req)) 4000) user 0 0.
Lemma row_written_times id now c d c1 u1 t r :
  row_written id now c (mkDoc (doc_Subject d) (doc_Owner d) (doc_Description d) (doc_Schema d) (doc_Example d) (doc_Deprecated d)
    (doc_SuccessorSubject d) (doc_DeprecationNote d) (doc_UpdatedBy d) c1 u1) t r → row_written id now c d t r.
Proof. done. Qed.

Lemma UpsertEventCatalogEntry_Ok id now cluster subject user req d t t' :
  UpsertEventCatalogEntry id now cluster subject user req t = (Ok d, t') →
  ∃ c s r, cat_up t = true ∧ parse_uuid cluster = Some c ∧ c ∈ cat_clusters t ∧ CanonicalEventCatalogSubject subject = Ok s ∧
    row_written id now c (asked user req s) t r ∧ t' = set_entries <[(c, s) := r]> t ∧ d = er_doc r.
Proof.
  unfold UpsertEventCatalogEntry, repo_UpsertEventCatalogEntry. intros Hu.
  apply bind_Ok in Hu as (row & t1 & Hu & Hret). injection Hret as <- <-.
  apply bind_Ok in Hu as (s & t2 & Hs & Hu). injection Hs as Hs <-.
  apply bind_Ok in Hu as ([] & t3 & Hj & Hu). injection Hj as _ <-. apply bind_Ok in Hu as ([] & t4 & Hj & Hu). injection Hj as _ <-.
  apply bind_Ok in Hu as (u & t5 & (c & r & Hup & Hc & Hcl & Hr & ->)%upsert_entry_Ok & Hg).
  exists c, s, r. split_and!; try done; unfold GetEventCatalogEntry, bind, conline, cuuid in Hg; cbn in Hg;
    rewrite Hup, Hc in Hg; cbn in Hg; rewrite lookup_insert_eq in Hg; by injection Hg as <- <-.
Qed.

Lemma shown_docs c s t : catalog_ok t →
  shown_doc (docs_of c t) s = match cat_entries t !! (c, s) with Some r => entry_doc (er_doc r) | None => zero_doc end.
Proof. intros Hok. unfold shown_doc. rewrite doc_of_docs by done. by destruct (cat_entries t !! (c, s)). Qed.

Lemma delete_present cluster raw subject c t r : cat_up t = true → parse_uuid cluster = Some c →
  catalogSubjectParam raw = Ok subject → CanonicalEventCatalogSubject subject = Ok subject → cat_entries t !! (c, subject) = Some r →
  catalog_Delete cluster raw t = (Ok (cstatus 204), set_entries (delete (c, subject)) t).
Proof.
  intros Hup Hc Hs Hcan Hr. unfold catalog_Delete, DeleteEventCatalogEntry, bind, attempt, lift, conline, cuuid, get.
  rewrite Hs, Hcan; cbn. rewrite Hup; cbn. rewrite Hc; cbn. by rewrite Hr.
Qed.
Lemma delete_absent cluster raw subject c t : cat_up t = true → parse_uuid cluster = Some c →
  catalogSubjectParam raw = Ok subject → CanonicalEventCatalogSubject subject = Ok subject → cat_entries t !! (c, subject) = None →
  catalog_Delete cluster raw t = (Ok (cstatus 404), t).
Proof.
  intros Hup Hc Hs Hcan Hr. unfold catalog_Delete, DeleteEventCatalogEntry, bind, attempt, lift, conline, cuuid, get.
  rewrite Hs, Hcan; cbn. rewrite Hup; cbn. rewrite Hc; cbn. by rewrite Hr.
Qed.

Lemma param_canonical raw s : catalogSubjectParam raw = Ok s → CanonicalEventCatalogSubject s = Ok s.
Proof.
  unfold catalogSubjectParam. destruct (IsEmpty raw); [done|]. destruct (PathUnescape raw); [|done]. by intros [_ ?]%Canonical_Ok.
Qed.

(** C29. A documentation put for a subject is what was asked for, trimmed and
    cut, with the author and the times; the catalog then shows it for this subject
    and what it showed before for every other.  Deleting it takes exactly it away,
    once. *)
Theorem documented_until_deleted t id now user cluster raw req d t' : catalog_ok t →
  catalog_Upsert id now user cluster raw (Some req) t = (Ok (200%Z, Some d), t') →
  ∃ subject docs docs' docs'' t'' c r,
    catalogSubjectParam raw = Ok subject ∧ row_written id now c (asked user req subject) t r ∧ d = er_doc r ∧
    ListEventCatalogEntries cluster t = (Ok docs, t) ∧
    ListEventCatalogEntries cluster t' = (Ok docs', t') ∧
    (∀ s, shown_doc docs' s = if s =s subject then entry_doc d else shown_doc docs s) ∧
    catalog_Delete cluster raw t' = (Ok (cstatus 204), t'') ∧
    ListEventCatalogEntries cluster t'' = (Ok docs'', t'') ∧
    (∀ s, shown_doc docs'' s = if s =s subject then zero_doc else shown_doc docs s) ∧
    catalog_Delete cluster raw t'' = (Ok (cstatus 404), t'').
Proof.
  intros Hok (subject & Hs & Hu)%catalog_Upsert_Ok. pose proof (param_canonical _ _ Hs) as Hcan.
  apply UpsertEventCatalogEntry_Ok in Hu as (c & s & r & Hup & Hc & Hcl & Hs' & Hr & -> & ->).
  rewrite Hcan in Hs'. injection Hs' as <-.
  set (t' := set_entries <[(c, subject) := r]> t). set (t'' := set_entries (delete (c, subject)) t').
  assert (Hok' : catalog_ok t') by by apply (put_keeps id now c (asked user req subject) t r).
  assert (Hok'' : catalog_ok t'') by by apply delete_keeps.
  exists subject, (docs_of c t), (docs_of c t'), (docs_of c t''), t'', c, r. split_and!; try done.
  - by apply List_up.
  - by apply List_up.
  - intros s. rewrite !shown_docs by done. cbn [t' set_entries cat_entries]. case_bool_decide as E.
    + subst s. unfold t'. cbn. by rewrite lookup_insert_eq.
    + unfold t'. cbn. rewrite lookup_insert_ne; [done|]. by intros [= ->].
  - apply (delete_present _ _ _ _ _ r); try done. unfold t'. cbn. by rewrite lookup_insert_eq.
  - by apply List_up.
  - intros s. rewrite !shown_docs by done. unfold t'', t'. cbn. rewrite delete_insert_eq. case_bool_decide as E.
    + subst s. by rewrite lookup_delete_eq.
    + rewrite lookup_delete_ne; [done|]. by intros [= ->].
  - apply (delete_absent _ _ subject c); try done. unfold t''. cbn. by rewrite lookup_delete_eq.
Qed.
End Edits.

(** * On a small table *)

#[local] Instance plain_json : CatalogJson :=
  {| json_object s := Some (HasPrefix s "{"); jsonb s := Some s; driver_mentions_field := false |}.
#[local] Instance plain_uuid : PgUUID := {| parse_uuid s := if IsEmpty s then None else Some s |}.

Definition small_table : CatalogTables := mkCatalogTables true ["c1"] ["u1"]
  {[("c1", "users.gone") := mkCatalogRow "e1" "c1" (mkDoc "users.gone" "ops" "" "" "" true "" "" "" 1 1)]}.
Lemma small_table_ok : catalog_ok small_table.
Proof.
  split; cbn.
  - intros c s r [[= <- <-] <-]%lookup_singleton_Some. do 2 (split; [done|]). split; [vm_compute; reflexivity|]. split; [apply list_elem_of_here|by left].
  - intros k k' r r' [<- <-]%lookup_singleton_Some [<- <-]%lookup_singleton_Some. done.
Qed.

Definition put_request : EventCatalogUpsert := mkUpsert " team " "An order was made" "" "" "{}" "" false.
Definition put_answer := catalog_Upsert "e2" 7 "u1" "c1" "orders%2Ecreated" (Some put_request) small_table.

Lemma edits_keep_the_table_witness :
  fst put_answer = Ok (200%Z, Some (mkDoc "orders.created" "team" "An order was made" "{}" "" false "" "" "u1" 7 7)) ∧
  catalog_ok (snd put_answer).
Proof.
  split; [vm_compute; reflexivity|].
  exact (proj1 (edits_keep_the_table small_table "e2" 7 "u1" "c1" "orders%2Ecreated" (Some put_request) small_table_ok)).
Defined.

Lemma documented_until_deleted_witness :
  let deleted := catalog_Delete "c1" "orders%2Ecreated" (snd put_answer) in
  fst deleted = Ok (cstatus 204) ∧ fst (catalog_Delete "c1" "orders%2Ecreated" (snd deleted)) = Ok (cstatus 404).
Proof.
  destruct (documented_until_deleted small_table "e2" 7 "u1" "c1" "orders%2Ecreated" put_request
    (mkDoc "orders.created" "team" "An order was made" "{}" "" false "" "" "u1" 7 7) (snd put_answer) small_table_ok)
    as (subject & docs & docs' & docs'' & t'' & c & r & _ & _ & _ & _ & _ & _ & Hd & _ & _ & Hd2); [vm_compute; reflexivity|].
  cbv zeta. rewrite Hd. split; [reflexivity|exact (f_equal fst Hd2)].
Defined.
