(* ===== verification/Alerts.v ===== *)
(** Alerts: internal/alerter/{evaluate,mail_queue}.go, the alert tables of
    internal/repo/alerts.go with migrations/014 and 015, the comparators of
    internal/domain/alerts.go, and the sending of internal/mail/smtp.go.

    An evaluation is one computation over the world; the goroutine it starts for
    a mail is a job, run by a later step.  Samples and thresholds are binary64
    numbers. *)

From S2P Require Export Prelude GoStrings Authz Store Floats.

(** * Comparators: internal/domain/alerts.go *)

Definition AlertComparatorGT := "gt".
Definition AlertComparatorGTE := "gte".
Definition AlertComparatorLT := "lt".
Definition AlertComparatorLTE := "lte".
Definition AlertComparators : list string :=
  [AlertComparatorGT; AlertComparatorGTE; AlertComparatorLT; AlertComparatorLTE].
Definition AlertSeverities : list string := ["info"; "warning"; "critical"].

Definition ValidAlertSeverity (v : string) : bool := v ∈b AlertSeverities.
Definition ValidAlertComparator (v : string) : bool := v ∈b AlertComparators.

Definition ThresholdMet (comparator : string) (value threshold : spec_float) : bool :=
  if comparator =s AlertComparatorGT then SFltb threshold value
  else if comparator =s AlertComparatorGTE then SFleb threshold value
  else if comparator =s AlertComparatorLT then SFltb value threshold
  else if comparator =s AlertComparatorLTE then SFleb value threshold
  else false.

(** * Tables *)

(** [ar_ClusterID], [ar_AccountName]: empty for NULL. *)
Record AlertRule := mkRule {
  ar_ID : string;
  ar_ClusterID : string;
  ar_AccountName : string;
  ar_Name : string;
  ar_Message : string;
  ar_Severity : string;
  ar_Metric : string;
  ar_Comparator : string;
  ar_Threshold : spec_float;
  ar_Enabled : bool;
}.

Record AlertRow := mkAlert {
  al_RuleID : string;
  al_ClusterID : string;
  al_AccountName : string;
  al_Open : bool;                    (** status = 'open' *)
  al_Severity : string;
  al_Metric : string;
  al_Message : string;
  al_FiringValue : spec_float;
  al_Threshold : spec_float;
  al_FirstSeenAt : Z;
  al_LastSeenAt : Z;
  al_ClosedAt : option Z;
  al_AcknowledgedAt : option Z;
  al_AcknowledgedBy : string;
  al_EmailNotifiedAt : option Z;
}.

Record mailJob := mkJob {
  j_AlertID : string;
  j_ClusterID : string;
  j_ClusterName : string;
  j_Recipients : list string;
  j_BaseURL : string;
  j_Rule : AlertRule;
  j_Message : string;
  j_FiringValue : spec_float;
  j_At : Z;
}.

(** [w_smtp]: the connection of the only [SMTPSender] is open.  [w_jobs]: the
    mails whose goroutine has not sent yet.  [w_sent]: the mails the server
    accepted. *)
Record World := mkWorld {
  w_tables : Tables;
  w_clusters : gmap string string;       (* name by id *)
  w_rules : gmap string AlertRule;       (* by id *)
  w_alerts : gmap string AlertRow;       (* by id *)
  w_next : nat;                          (* ids drawn *)
  w_cache : gmap string (Z * list string);
  w_smtp : bool;
  w_jobs : list mailJob;
  w_sent : list mailJob;
}.

Definition set_rules f w := mkWorld (w_tables w) (w_clusters w) (f (w_rules w)) (w_alerts w) (w_next w) (w_cache w) (w_smtp w) (w_jobs w) (w_sent w).
Definition set_alerts f w := mkWorld (w_tables w) (w_clusters w) (w_rules w) (f (w_alerts w)) (w_next w) (w_cache w) (w_smtp w) (w_jobs w) (w_sent w).
Definition set_next f w := mkWorld (w_tables w) (w_clusters w) (w_rules w) (w_alerts w) (f (w_next w)) (w_cache w) (w_smtp w) (w_jobs w) (w_sent w).
Definition set_cache f w := mkWorld (w_tables w) (w_clusters w) (w_rules w) (w_alerts w) (w_next w) (f (w_cache w)) (w_smtp w) (w_jobs w) (w_sent w).
Definition set_smtp b w := mkWorld (w_tables w) (w_clusters w) (w_rules w) (w_alerts w) (w_next w) (w_cache w) b (w_jobs w) (w_sent w).
Definition set_jobs f w := mkWorld (w_tables w) (w_clusters w) (w_rules w) (w_alerts w) (w_next w) (w_cache w) (w_smtp w) (f (w_jobs w)) (w_sent w).
Definition set_sent f w := mkWorld (w_tables w) (w_clusters w) (w_rules w) (w_alerts w) (w_next w) (w_cache w) (w_smtp w) (w_jobs w) (f (w_sent w)).

Abbreviation AM := (M World err).

Definition ErrAlertNotFound : err := ErrMsg "alert not found".
Definition ErrAlertRuleNotFound : err := ErrMsg "alert rule not found".

Definition alerts_online : AM unit := λ w, (if t_up (w_tables w) then Ok tt else Err ErrDB, w).

(** A method of the auth tables. *)
Definition on_tables {A} (m : DBM A) : AM A := λ w,
  let '(r, t) := m (w_tables w) in
  (r, mkWorld t (w_clusters w) (w_rules w) (w_alerts w) (w_next w) (w_cache w) (w_smtp w) (w_jobs w) (w_sent w)).

Definition al_close (at_ : Z) (a : AlertRow) : AlertRow :=
  mkAlert (al_RuleID a) (al_ClusterID a) (al_AccountName a) false (al_Severity a) (al_Metric a)
    (al_Message a) (al_FiringValue a) (al_Threshold a) (al_FirstSeenAt a) at_ (Some at_)
    (al_AcknowledgedAt a) (al_AcknowledgedBy a) (al_EmailNotifiedAt a).
Definition al_notified (n : option Z) (a : AlertRow) : AlertRow :=
  mkAlert (al_RuleID a) (al_ClusterID a) (al_AccountName a) (al_Open a) (al_Severity a) (al_Metric a)
    (al_Message a) (al_FiringValue a) (al_Threshold a) (al_FirstSeenAt a) (al_LastSeenAt a)
    (al_ClosedAt a) (al_AcknowledgedAt a) (al_AcknowledgedBy a) n.
Definition al_acknowledge (at_ : Z) (actor : string) (a : AlertRow) : AlertRow :=
  mkAlert (al_RuleID a) (al_ClusterID a) (al_AccountName a) (al_Open a) (al_Severity a) (al_Metric a)
    (al_Message a) (al_FiringValue a) (al_Threshold a) (al_FirstSeenAt a) (al_LastSeenAt a)
    (al_ClosedAt a) (Some at_) actor (al_EmailNotifiedAt a).

(** The row of an open alert for a rule on a cluster: the unique index of
    migrations/014. *)
Definition opens (ruleID clusterID : string) (a : AlertRow) : bool :=
  al_Open a && (al_RuleID a =s ruleID) && (al_ClusterID a =s clusterID).
Definition find_open (ruleID clusterID : string) (alerts : gmap string AlertRow) :
    option (string * AlertRow) :=
  List.find (λ ka, opens ruleID clusterID ka.2) (map_to_list alerts).

(** * Rules *)

Definition rule_le (r s : AlertRule) : Prop :=
  (ar_Enabled s = true → ar_Enabled r = true) ∧
  (ar_Enabled r = ar_Enabled s → String.le (ar_Name r) (ar_Name s)).
#[local] Instance rule_le_dec r s : Decision (rule_le r s).
Proof.
  unfold rule_le. destruct (decide (String.le (ar_Name r) (ar_Name s)));
    destruct (ar_Enabled r), (ar_Enabled s);
    first [left; naive_solver | right; naive_solver].
Defined.

Definition rule_applies (clusterID : string) (enabledOnly : bool) (r : AlertRule) : bool :=
  (IsEmpty clusterID || IsEmpty (ar_ClusterID r) || (ar_ClusterID r =s clusterID)) &&
  (negb enabledOnly || ar_Enabled r).

Definition ListAlertRules (clusterID : string) (enabledOnly : bool) : AM (list AlertRule) :=
  alerts_online ;;
  let! w := get in
  ret (merge_sort rule_le
    (List.filter (rule_applies clusterID enabledOnly) (map_to_list (w_rules w)).*2)).

Definition GetAlertRule (id : string) : AM AlertRule :=
  alerts_online ;;
  let! w := get in
  match w_rules w !! id with Some r => ret r | None => fail ErrAlertRuleNotFound end.

Record AlertRuleCreate := {
  rc_Enabled : option bool;
  rc_ClusterID : string;
  rc_AccountName : string;
  rc_Name : string;
  rc_Message : string;
  rc_Severity : string;
  rc_Metric : string;
  rc_Comparator : string;
  rc_Threshold : spec_float;
}.

(** The CHECK and REFERENCES constraints of alert_rules. *)
Definition rule_constraints (w : World) (r : AlertRule) : bool :=
  ValidAlertSeverity (ar_Severity r) && ValidAlertComparator (ar_Comparator r) &&
  (IsEmpty (ar_ClusterID r) || bool_decide (ar_ClusterID r ∈ dom (w_clusters w))).

Definition put_rule (r : AlertRule) : AM unit :=
  let! w := get in
  ensure (rule_constraints w r) ErrDB ;;
  modify (set_rules <[ar_ID r := r]>).

Section Ids.
(** [newID()]: the n-th identifier drawn. *)
Context (newID : nat → string).

Definition draw_id : AM string :=
  let! w := get in modify (set_next S) ;; ret (newID (w_next w)).

Definition CreateAlertRule (inp : AlertRuleCreate) : AM AlertRule :=
  let! id := draw_id in
  let message := if IsEmpty (rc_Message inp) then rc_Name inp else rc_Message inp in
  let r := mkRule id (rc_ClusterID inp) (rc_AccountName inp) (rc_Name inp) message (rc_Severity inp)
             (rc_Metric inp) (rc_Comparator inp) (rc_Threshold inp) (default true (rc_Enabled inp)) in
  alerts_online ;;
  let! w := get in
  ensure (negb (bool_decide (id ∈ dom (w_rules w)))) ErrDB ;;
  put_rule r ;;
  GetAlertRule id.

Record AlertRuleUpdate := {
  ru_ClusterID : option string;
  ru_AccountName : option string;
  ru_Name : option string;
  ru_Message : option string;
  ru_Severity : option string;
  ru_Metric : option string;
  ru_Comparator : option string;
  ru_Threshold : option spec_float;
  ru_Enabled : option bool;
  ru_ClearCluster : bool;
}.

Definition apply_update (inp : AlertRuleUpdate) (cur : AlertRule) : AlertRule :=
  mkRule (ar_ID cur)
    (if ru_ClearCluster inp then "" else default (ar_ClusterID cur) (ru_ClusterID inp))
    (default (ar_AccountName cur) (ru_AccountName inp))
    (default (ar_Name cur) (ru_Name inp))
    (default (ar_Message cur) (ru_Message inp))
    (default (ar_Severity cur) (ru_Severity inp))
    (default (ar_Metric cur) (ru_Metric inp))
    (default (ar_Comparator cur) (ru_Comparator inp))
    (default (ar_Threshold cur) (ru_Threshold inp))
    (default (ar_Enabled cur) (ru_Enabled inp)).

Definition UpdateAlertRule (id : string) (inp : AlertRuleUpdate) : AM AlertRule :=
  let! cur := GetAlertRule id in
  put_rule (apply_update inp cur) ;;
  GetAlertRule id.

(** alerts.rule_id REFERENCES alert_rules ON DELETE CASCADE. *)
Definition DeleteAlertRule (id : string) : AM unit :=
  alerts_online ;;
  let! w := get in
  ensure (bool_decide (id ∈ dom (w_rules w))) ErrAlertRuleNotFound ;;
  modify (set_rules (delete id)) ;;
  modify (set_alerts (filter (λ ka, al_RuleID ka.2 ≠ id))).

(** * Alerts *)

(** [INSERT ... ON CONFLICT (rule_id, cluster_id) WHERE status = 'open' DO
    UPDATE ... RETURNING id, (xmax = 0)]. *)
Definition UpsertOpenAlert (rule : AlertRule) (clusterID : string) (value : spec_float) (at_ : Z) :
    AM (string * bool) :=
  let message := if IsEmpty (ar_Message rule) then ar_Name rule else ar_Message rule in
  let! id := draw_id in
  alerts_online ;;
  let! w := get in
  ensure (bool_decide (ar_ID rule ∈ dom (w_rules w)) && bool_decide (clusterID ∈ dom (w_clusters w)) &&
          ValidAlertSeverity (ar_Severity rule)) ErrDB ;;
  match find_open (ar_ID rule) clusterID (w_alerts w) with
  | Some (old, a) =>
      modify (set_alerts <[old :=
        mkAlert (al_RuleID a) (al_ClusterID a) (al_AccountName a) (al_Open a) (ar_Severity rule)
          (ar_Metric rule) message value (ar_Threshold rule) (al_FirstSeenAt a) at_
          (al_ClosedAt a) (al_AcknowledgedAt a) (al_AcknowledgedBy a) (al_EmailNotifiedAt a)]>) ;;
      ret (old, false)
  | None =>
      ensure (negb (bool_decide (id ∈ dom (w_alerts w)))) ErrDB ;;
      modify (set_alerts <[id :=
        mkAlert (ar_ID rule) clusterID (ar_AccountName rule) true (ar_Severity rule)
          (ar_Metric rule) message value (ar_Threshold rule) at_ at_ None None "" None]>) ;;
      ret (id, true)
  end.

Definition ListOpenAlertRuleIDs (clusterID : string) : AM (gset string) :=
  alerts_online ;;
  let! w := get in
  ret (list_to_set (map al_RuleID
    (List.filter (λ a, al_Open a && (al_ClusterID a =s clusterID)) (map_to_list (w_alerts w)).*2))).

Definition CloseOpenAlert (ruleID clusterID : string) (at_ : Z) : AM unit :=
  alerts_online ;;
  modify (set_alerts (fmap (λ a, if opens ruleID clusterID a then al_close at_ a else a))).

(** Whether a row was affected. *)
Definition ClaimAlertEmailNotify (now : Z) (alertID : string) : AM bool :=
  alerts_online ;;
  let! w := get in
  match w_alerts w !! alertID with
  | Some a =>
      if al_Open a && bool_decide (al_EmailNotifiedAt a = None)
      then modify (set_alerts <[alertID := al_notified (Some now) a]>) ;; ret true
      else ret false
  | None => ret false
  end.

Definition ReleaseAlertEmailNotify (alertID : string) : AM unit :=
  alerts_online ;;
  modify (set_alerts (alter (λ a, if al_Open a then al_notified None a else a) alertID)).

Definition GetAlert (id : string) : AM AlertRow :=
  alerts_online ;;
  let! w := get in
  match w_alerts w !! id with Some a => ret a | None => fail ErrAlertNotFound end.

Definition AcknowledgeAlert (now : Z) (id actor : string) : AM AlertRow :=
  alerts_online ;;
  let! w := get in
  match w_alerts w !! id with
  | Some a =>
      if al_Open a && bool_decide (al_AcknowledgedAt a = None)
      then modify (set_alerts <[id := al_acknowledge now actor a]>) ;; GetAlert id
      else GetAlert id
  | None => GetAlert id
  end.

Definition DeleteClosedAlertsOlderThan (cutoff : Z) : AM nat :=
  alerts_online ;;
  let! w := get in
  let keep := filter (λ ka : string * AlertRow, al_Open ka.2 = true ∨ (cutoff ≤ al_LastSeenAt ka.2)%Z) in
  modify (set_alerts keep) ;;
  ret (size (w_alerts w) - size (keep (w_alerts w))).

(** * Mail: internal/mail/smtp.go *)

(** [SMTPSender.Send]: on a closed connection every command fails; [accepts]
    says whether the server takes the mail.  The last command is QUIT, which
    closes the connection. *)
Definition Send (accepts : bool) (job : mailJob) : AM unit :=
  if Nat.eqb (length (j_Recipients job)) 0 then ret tt
  else
    let! w := get in
    ensure (w_smtp w) (ErrMsg "smtp: connection closed") ;;
    ensure accepts (ErrMsg "smtp: refused") ;;
    modify (set_sent (cons job)) ;;
    modify (set_smtp false).

Definition sendAlertEmail (accepts : bool) (job : mailJob) : AM unit :=
  let! r := attempt (Send accepts job) in
  match r with
  | Err _ => attempt (ReleaseAlertEmailNotify (j_AlertID job)) ;; ret tt
  | Ok _ => ret tt
  end.

(** [IsPlaceholderEmail] *)
Definition IsPlaceholderEmail `{GoUnicode} (email : string) : bool :=
  let email := TrimSpace (ToLower email) in
  IsEmpty email || HasSuffix email "@local".

(** * Evaluation: internal/alerter/evaluate.go *)

Definition recipientCacheTTL : Z := 45 * 1000000000.
Definition mailQueueSize : nat := 64.

Record Options := mkOptions { o_Mailer : bool; o_PublicBaseURL : string }.

(** The addresses of the users that can see the cluster, each once (up to
    case); [seen] are the lowered addresses taken. *)
Fixpoint collect_emails `{GoUnicode} (clusterID : string) (seen : list string) (users : list User) :
    list string :=
  match users with
  | [] => []
  | user :: users =>
      let email := TrimSpace (u_Email user) in
      if IsPlaceholderEmail email then collect_emails clusterID seen users
      else if negb (CanAccessCluster user clusterID) then collect_emails clusterID seen users
      else
        let key := ToLower email in
        if key ∈b seen then collect_emails clusterID seen users
        else email :: collect_emails clusterID (key :: seen) users
  end.

Definition recipientEmails `{GoUnicode} (now : Z) (clusterID : string) : AM (list string) :=
  let! w := get in
  let compute :=
    let! users := on_tables ListUsers in
    let out := collect_emails clusterID [] users in
    modify (set_cache (λ c, filter (λ ke, (now ≤ ke.2.1)%Z)
      (<[clusterID := ((now + recipientCacheTTL)%Z, out)]> c))) ;;
    ret out in
  match w_cache w !! clusterID with
  | Some (expiresAt, emails) => if (now <? expiresAt)%Z then ret emails else compute
  | None => compute
  end.

Definition release (alertID : string) : AM unit :=
  attempt (ReleaseAlertEmailNotify alertID) ;; ret tt.

Definition notifyNewAlert `{GoUnicode} (clusterID : string) (opts : Options) (alertID : string)
    (rule : AlertRule) (value : spec_float) (at_ : Z) : AM unit :=
  if negb (o_Mailer opts) then ret tt
  else
    let! claimed := attempt (ClaimAlertEmailNotify at_ alertID) in
    match claimed with
    | Ok true =>
        let! recipients := attempt (recipientEmails at_ clusterID) in
        match recipients with
        | Err _ => release alertID
        | Ok [] => release alertID
        | Ok recipients =>
            let! w := get in
            let clusterName :=
              if t_up (w_tables w) then default "" (w_clusters w !! clusterID) else "" in
            let message := if IsEmpty (ar_Message rule) then ar_Name rule else ar_Message rule in
            let job := mkJob alertID clusterID clusterName recipients (o_PublicBaseURL opts) rule
                         message value at_ in
            (* the queue was made for this job alone *)
            if Nat.ltb 0 mailQueueSize then modify (set_jobs (λ q, q ++ [job]))
            else release alertID
        end
    | _ => ret tt
    end.

(** The last sample of a metric counts. *)
Definition by_metric (samples : list (string * spec_float)) : gmap string spec_float :=
  fold_left (λ m s, <[s.1 := s.2]> m) samples ∅.

Definition evaluate_rule `{GoUnicode} (clusterID : string) (opts : Options) (now : Z)
    (byMetric : gmap string spec_float) (openRules : gset string) (rule : AlertRule) : AM unit :=
  match byMetric !! ar_Metric rule with
  | None => ret tt
  | Some value =>
      if ThresholdMet (ar_Comparator rule) value (ar_Threshold rule) then
        let! r := attempt (UpsertOpenAlert rule clusterID value now) in
        match r with
        | Ok (alertID, true) => notifyNewAlert clusterID opts alertID rule value now
        | Ok (_, false) => ret tt
        | Err _ => ret tt
        end
      else if negb (bool_decide (ar_ID rule ∈ openRules)) then ret tt
      else attempt (CloseOpenAlert (ar_ID rule) clusterID now) ;; ret tt
  end.

Fixpoint evaluate_rules `{GoUnicode} (clusterID : string) (opts : Options) (now : Z)
    (byMetric : gmap string spec_float) (openRules : gset string) (rules : list AlertRule) : AM unit :=
  match rules with
  | [] => ret tt
  | rule :: rules =>
      evaluate_rule clusterID opts now byMetric openRules rule ;;
      evaluate_rules clusterID opts now byMetric openRules rules
  end.

(** [New(db, clusterID).Evaluate(...)], as the collector calls it: a new
    evaluator, with an empty cache, for every snapshot. *)
Definition Evaluate `{GoUnicode} (clusterID : string) (samples : list (string * spec_float))
    (opts : Options) (now : Z) : AM unit :=
  modify (set_cache (λ _, ∅)) ;;
  if IsEmpty clusterID || Nat.eqb (length samples) 0 then ret tt
  else
    let! rules := attempt (ListAlertRules clusterID true) in
    match rules with
    | Err _ => ret tt
    | Ok rules =>
        if Nat.eqb (length rules) 0 then ret tt
        else
          let! openRules := attempt (ListOpenAlertRuleIDs clusterID) in
          match openRules with
          | Err _ => ret tt
          | Ok openRules => evaluate_rules clusterID opts now (by_metric samples) openRules rules
          end
    end.

(** The goroutine of the n-th waiting job sends its mail. *)
Definition run_job (accepts : bool) (n : nat) : AM unit :=
  let! w := get in
  match w_jobs w !! n with
  | Some job => modify (set_jobs (delete n)) ;; sendAlertEmail accepts job
  | None => ret tt
  end.
End Ids.

(** * One open alert per rule and cluster *)

Definition alerts_ok (alerts : gmap string AlertRow) : Prop :=
  ∀ ruleID clusterID id1 id2 a1 a2,
    alerts !! id1 = Some a1 → alerts !! id2 = Some a2 →
    opens ruleID clusterID a1 = true → opens ruleID clusterID a2 = true → id1 = id2.

Lemma opens_iff ruleID clusterID a :
  opens ruleID clusterID a = true ↔
  al_Open a = true ∧ al_RuleID a = ruleID ∧ al_ClusterID a = clusterID.
Proof. unfold opens. rewrite !andb_true_iff, !bool_decide_eq_true. tauto. Qed.

Lemma find_open_spec ruleID clusterID alerts :
  match find_open ruleID clusterID alerts with
  | Some (id, a) => alerts !! id = Some a ∧ opens ruleID clusterID a = true
  | None => ∀ id a, alerts !! id = Some a → opens ruleID clusterID a = false
  end.
Proof.
  unfold find_open. destruct (List.find _ _) as [[id a]|] eqn:E.
  - apply find_some in E as [Hin Ho]. split; [|done].
    by apply elem_of_map_to_list, list_elem_of_In.
  - intros id a Ha. apply (find_none _ _ E (id, a)). by apply list_elem_of_In, elem_of_map_to_list.
Qed.

(** What an alert shows apart from the mark of its mail. *)
Definition shown (a : AlertRow) : AlertRow := al_notified None a.
Definition view (w : World) : gmap string AlertRow := shown <$> w_alerts w.

Lemma opens_shown ruleID clusterID a : opens ruleID clusterID (shown a) = opens ruleID clusterID a.
Proof. done. Qed.

(** The step leaves everything but mails and their marks. *)
Record quiet (w w' : World) : Prop := {
  q_tables : w_tables w' = w_tables w;
  q_clusters : w_clusters w' = w_clusters w;
  q_rules : w_rules w' = w_rules w;
  q_next : w_next w' = w_next w;
  q_view : view w' = view w;
}.
#[export] Instance quiet_preorder : PreOrder quiet.
Proof. split; [by split|]. intros w1 w2 w3 [] []. split; congruence. Qed.

Lemma runs_online (R : relation World) `{!PreOrder R} : runs R alerts_online.
Proof. by intros w. Qed.
#[export] Hint Resolve runs_online : runs.

Lemma view_insert w id a a' : w_alerts w !! id = Some a → shown a' = shown a →
  quiet w (set_alerts <[id := a']> w).
Proof.
  intros Ha E. split; try done. unfold view. cbn. rewrite fmap_insert, E.
  apply insert_id. by rewrite lookup_fmap, Ha.
Qed.

Lemma claim_quiet now id : runs quiet (ClaimAlertEmailNotify now id).
Proof.
  intros w. unfold ClaimAlertEmailNotify, bind, alerts_online, get, modify, ret.
  destruct (t_up _); [|reflexivity]. destruct (w_alerts w !! id) as [a|] eqn:Ha; [|reflexivity].
  destruct (al_Open a && _); [|reflexivity]. by eapply view_insert.
Qed.

Lemma release_notify_quiet id : runs quiet (ReleaseAlertEmailNotify id).
Proof.
  intros w. unfold ReleaseAlertEmailNotify, bind, alerts_online, modify.
  destruct (t_up _); [|reflexivity]. cbn.
  destruct (w_alerts w !! id) as [a|] eqn:Ha.
  - unfold set_alerts. rewrite (alter_alt_Some _ _ _ a) by done.
    eapply (view_insert w); [done|]. by destruct (al_Open a).
  - split; try done. unfold view. cbn. f_equal. apply map_eq. intros j.
    destruct (decide (id = j)) as [<-|]; [|by rewrite lookup_alter_ne].
    by rewrite lookup_alter_eq, Ha.
Qed.

Lemma ListUsers_quiet : runs quiet (on_tables ListUsers).
Proof.
  intros w. unfold on_tables. assert (snd (ListUsers (w_tables w)) = w_tables w) as E
    by (unfold ListUsers, bind, online, get, ret; by destruct (t_up _)).
  destruct (ListUsers (w_tables w)) as [r t]. cbn in *. by subst.
Qed.

#[export] Hint Resolve claim_quiet release_notify_quiet ListUsers_quiet : runs.

Lemma set_cache_quiet f : runs quiet (modify (set_cache f) : AM unit).
Proof. apply runs_modify. by split. Qed.
Lemma set_jobs_quiet f : runs quiet (modify (set_jobs f) : AM unit).
Proof. apply runs_modify. by split. Qed.
Lemma set_sent_quiet f : runs quiet (modify (set_sent f) : AM unit).
Proof. apply runs_modify. by split. Qed.
Lemma set_smtp_quiet b : runs quiet (modify (set_smtp b) : AM unit).
Proof. apply runs_modify. by split. Qed.
#[export] Hint Resolve set_cache_quiet set_jobs_quiet set_sent_quiet set_smtp_quiet : runs.

Section Evaluation.
Context `{GoUnicode} (newID : nat → string).

Lemma recipientEmails_quiet now clusterID : runs quiet (recipientEmails now clusterID).
Proof. unfold recipientEmails. run_rules. Qed.
#[local] Hint Resolve recipientEmails_quiet : runs.

Lemma release_quiet id : runs quiet (release id).
Proof. unfold release. run_rules. Qed.
#[local] Hint Resolve release_quiet : runs.

Lemma notify_quiet clusterID opts id rule value at_ :
  runs quiet (notifyNewAlert clusterID opts id rule value at_).
Proof. unfold notifyNewAlert. run_rules. Qed.

(** A mail sent later changes no alert either. *)
Lemma run_job_quiet accepts n : runs quiet (run_job accepts n).
Proof. unfold run_job, sendAlertEmail, Send. run_rules. Qed.

(** Every computation of the evaluation succeeds: errors are logged. *)
Lemma bind_Ok_run {A B} (m : AM A) (k : A → AM B) w a w1 :
  m w = (Ok a, w1) → bind m k w = k a w1.
Proof. unfold bind. by intros ->. Qed.

Definition total (m : AM unit) : Prop := ∀ w, fst (m w) = Ok tt.
Lemma alert_total_bind {A} (m : AM A) (k : A → AM unit) :
  (∀ w, ∃ a, fst (m w) = Ok a) → (∀ a, total (k a)) → total (bind m k).
Proof.
  intros Hm Hk w. unfold bind. destruct (Hm w) as [a Ha]. destruct (m w) as [r w1]. cbn in Ha.
  subst. apply Hk.
Qed.
Lemma attempt_total {A} (m : AM A) w : ∃ a, fst (attempt m w) = Ok a.
Proof. unfold attempt. destruct (m w). eauto. Qed.
Lemma get_total (w : World) : ∃ a, fst ((get : AM World) w) = Ok a.
Proof. unfold get. cbn. eauto. Qed.

Lemma release_total id : total (release id).
Proof. unfold release. apply alert_total_bind; [apply attempt_total|]. by intros ? ?. Qed.

Lemma notify_total clusterID opts id rule value at_ :
  total (notifyNewAlert clusterID opts id rule value at_).
Proof.
  unfold notifyNewAlert. destruct (negb _); [by intros ?|].
  apply alert_total_bind; [apply attempt_total|]. intros [[|]|]; [|by intros ?..].
  apply alert_total_bind; [apply attempt_total|].
  intros [[|e l]|]; [apply release_total| |apply release_total].
  apply alert_total_bind; [apply get_total|]. intros w.
  destruct (Nat.ltb 0 mailQueueSize); [by intros ?|apply release_total].
Qed.

(** ** Opening and refreshing *)

(** The world an evaluation needs: the database answers, the rules are keyed by
    their ids and satisfy the constraints of their table, and the identifiers
    still to be drawn are new. *)
Record ready (clusterID : string) (w : World) : Prop := {
  r_up : t_up (w_tables w) = true;
  r_cluster : clusterID ∈ dom (w_clusters w);
  r_rules : ∀ id r, w_rules w !! id = Some r → ar_ID r = id ∧ ValidAlertSeverity (ar_Severity r) = true;
  r_fresh : ∀ n, w_next w ≤ n → newID n ∉ dom (w_alerts w);
  r_inj : Inj (=) (=) newID;
  r_one : alerts_ok (w_alerts w);
}.

(** The step concerns the alerts of rule [ruleID] on [clusterID] only. *)
Record touches (ruleID clusterID : string) (w w' : World) : Prop := {
  to_tables : w_tables w' = w_tables w;
  to_clusters : w_clusters w' = w_clusters w;
  to_rules : w_rules w' = w_rules w;
  to_others : ∀ id a, ¬ (al_RuleID a = ruleID ∧ al_ClusterID a = clusterID) →
    view w' !! id = Some a ↔ view w !! id = Some a;
}.

Lemma view_lookup w id a : view w !! id = Some a ↔ ∃ a0, w_alerts w !! id = Some a0 ∧ shown a0 = a.
Proof.
  unfold view. rewrite lookup_fmap. destruct (w_alerts w !! id); cbn; naive_solver.
Qed.

Lemma alerts_ok_view w : alerts_ok (w_alerts w) ↔ alerts_ok (view w).
Proof.
  unfold alerts_ok. split.
  - intros Hok r c i j a b (a0 & Ha & <-)%view_lookup (b0 & Hb & <-)%view_lookup.
    rewrite !opens_shown. eauto.
  - intros Hok r c i j a b Ha Hb Ho Ho'.
    apply (Hok r c i j (shown a) (shown b)); [apply view_lookup; eauto..|done|done].
Qed.

Lemma ready_quiet clusterID w w' : ready clusterID w → quiet w w' → ready clusterID w'.
Proof.
  intros [] []. split; rewrite ?q_tables0, ?q_clusters0, ?q_rules0, ?q_next0; try done.
  - intros n Hn. assert (dom (w_alerts w') = dom (w_alerts w)) as ->; [|eauto].
    rewrite <- (dom_fmap_L shown), <- (dom_fmap_L shown (w_alerts w)).
    change (dom (view w') = dom (view w)). by rewrite q_view0.
  - apply alerts_ok_view. rewrite q_view0. by apply alerts_ok_view.
Qed.

(** The alert of a rule and a cluster while it fires. *)
Definition firing (rule : AlertRule) (clusterID : string) (value : spec_float) (now : Z) (w : World) :
    Prop :=
  ∃ id a, view w !! id = Some a ∧ opens (ar_ID rule) clusterID a = true ∧
    al_FiringValue a = value ∧ al_Threshold a = ar_Threshold rule ∧ al_Metric a = ar_Metric rule ∧
    al_Severity a = ar_Severity rule ∧ al_LastSeenAt a = now.

(** Writing the open alert of the rule. *)
Lemma touches_insert rule clusterID w id a' n :
  opens (ar_ID rule) clusterID a' = true →
  (∀ a, w_alerts w !! id = Some a → opens (ar_ID rule) clusterID a = true) →
  touches (ar_ID rule) clusterID w (set_alerts <[id := a']> (set_next n w)).
Proof.
  intros Ho Hold. split; try done. intros i b Hb. unfold view. cbn. rewrite !lookup_fmap.
  destruct (decide (id = i)) as [<-|]; [|by rewrite lookup_insert_ne].
  rewrite lookup_insert_eq. apply opens_iff in Ho. split.
  - intros [= <-]. destruct Hb; cbn; tauto.
  - destruct (w_alerts w !! id) as [a|] eqn:Ha; [|done]. intros [= <-].
    specialize (Hold a eq_refl). apply opens_iff in Hold. destruct Hb; cbn; tauto.
Qed.

Lemma ready_insert clusterID w id a' ruleID :
  ready clusterID w → opens ruleID clusterID a' = true →
  (∀ i a, w_alerts w !! i = Some a → opens ruleID clusterID a = true → i = id) →
  id ∈ dom (w_alerts w) ∨ id = newID (w_next w) →
  ready clusterID (set_alerts <[id := a']> (set_next S w)).
Proof.
  intros [Hup Hc Hr Hf Hi Hone] Ho Huniq Hid. split; try done; cbn.
  - intros n Hn. rewrite dom_insert_L, not_elem_of_union, not_elem_of_singleton.
    split; [|apply Hf; lia]. destruct Hid as [Hid| ->]; [intros <-; by apply (Hf n); [lia|]|].
    intros E%Hi. lia.
  - intros r c i j b1 b2 H1 H2 Ho1 Ho2.
    apply opens_iff in Ho as (_ & <- & <-).
    apply lookup_insert_Some in H1 as [[<- <-]|[? H1]], H2 as [[<- <-]|[? H2]]; [done| | |eauto].
    + apply opens_iff in Ho1 as (_ & <- & <-). symmetry. eauto.
    + apply opens_iff in Ho2 as (_ & <- & <-). eauto.
Qed.

Lemma Upsert_spec rule clusterID value now w :
  ready clusterID w → w_rules w !! ar_ID rule = Some rule →
  ∃ id new w', UpsertOpenAlert newID rule clusterID value now w = (Ok (id, new), w') ∧
    ready clusterID w' ∧ touches (ar_ID rule) clusterID w w' ∧ firing rule clusterID value now w' ∧
    (new = true ↔ ∀ i a, view w !! i = Some a → opens (ar_ID rule) clusterID a = false) ∧
    w_jobs w' = w_jobs w ∧ w_sent w' = w_sent w.
Proof.
  intros Hready Hrule. pose proof Hready as [Hup Hc Hr Hf Hi Hone].
  unfold UpsertOpenAlert, draw_id. unfold bind, get, modify, ret, alerts_online, ensure.
  cbn [w_tables set_next w_rules w_clusters w_alerts]. rewrite Hup.
  rewrite (bool_decide_eq_true_2 (_ ∈ dom (w_rules w))) by by eapply elem_of_dom_2.
  rewrite bool_decide_eq_true_2 by done. rewrite (proj2 (Hr _ _ Hrule)). cbn [andb].
  pose proof (find_open_spec (ar_ID rule) clusterID (w_alerts w)) as Hfo.
  destruct (find_open _ _ _) as [[old a]|].
  - destruct Hfo as [Ha Ho]. do 3 eexists. split; [done|].
    assert (∀ i b, w_alerts w !! i = Some b → opens (ar_ID rule) clusterID b = true → i = old) as Hu
      by (intros i b Hb Hob; by eapply Hone).
    match goal with |- context [<[old := ?x]>] => assert (opens (ar_ID rule) clusterID x = true) as Hx
      by (apply opens_iff in Ho; by apply opens_iff) end.
    split_and!; try done.
    + eapply ready_insert; [done|exact Hx|done|left; by eapply elem_of_dom_2].
    + apply touches_insert; [exact Hx|]. intros b Hb. by assert (b = a) as -> by congruence.
    + eexists old, _. split; [unfold view; cbn; by rewrite lookup_fmap, lookup_insert_eq|].
      by split_and!.
    + split; [done|]. intros Hn. rewrite <- opens_shown in Ho. rewrite (Hn old (shown a)) in Ho; [done|].
      apply view_lookup. eauto.
  - rewrite bool_decide_eq_false_2 by (apply Hf; lia). cbn [negb]. do 3 eexists. split; [done|].
    match goal with |- context [<[_ := ?x]>] => assert (opens (ar_ID rule) clusterID x = true) as Hx
      by by apply opens_iff end.
    split_and!; try done.
    + eapply ready_insert; [done|exact Hx| |by right]. intros i b Hb Hob. by rewrite (Hfo _ _ Hb) in Hob.
    + apply touches_insert; [exact Hx|]. intros b Hb. exfalso. apply (Hf (w_next w)); [lia|].
      by eapply elem_of_dom_2.
    + eexists _, _. split; [unfold view; cbn; by rewrite lookup_fmap, lookup_insert_eq|].
      by split_and!.
    + split; [|done]. intros _ i b (b0 & Hb & <-)%view_lookup. rewrite opens_shown. eauto.
Qed.

(** ** The evaluation *)

(** What an evaluation does to the alert of a rule: nothing without a sample of
    its metric, otherwise it is open, with the sample, exactly if the threshold
    is met. *)
Definition rule_done (rule : AlertRule) (clusterID : string) (byMetric : gmap string spec_float)
    (now : Z) (w w' : World) : Prop :=
  match byMetric !! ar_Metric rule with
  | None => ∀ id a, opens (ar_ID rule) clusterID a = true → view w' !! id = Some a ↔ view w !! id = Some a
  | Some value =>
      if ThresholdMet (ar_Comparator rule) value (ar_Threshold rule)
      then firing rule clusterID value now w'
      else ∀ id a, view w' !! id = Some a → opens (ar_ID rule) clusterID a = false
  end.

Lemma touches_refl r c w : touches r c w w.
Proof. by split. Qed.

Lemma touches_quiet r c w w1 w2 : touches r c w w1 → quiet w1 w2 → touches r c w w2.
Proof. intros [] []. split; [congruence..|]. intros. rewrite q_view0. eauto. Qed.

Lemma firing_quiet rule c v now w w' : firing rule c v now w → quiet w w' → firing rule c v now w'.
Proof. intros Hf []. unfold firing. by rewrite q_view0. Qed.

Definition has_open (w : World) (ruleID clusterID : string) : Prop :=
  ∃ id a, view w !! id = Some a ∧ opens ruleID clusterID a = true.

Lemma close_spec ruleID clusterID now w :
  ready clusterID w →
  let w' := set_alerts (fmap (λ a, if opens ruleID clusterID a then al_close now a else a)) w in
  CloseOpenAlert ruleID clusterID now w = (Ok tt, w') ∧ ready clusterID w' ∧
  touches ruleID clusterID w w' ∧ ¬ has_open w' ruleID clusterID.
Proof.
  intros [Hup Hc Hr Hf Hi Hone] w'. split_and!.
  - unfold CloseOpenAlert, bind, alerts_online. by rewrite Hup.
  - split; try done; cbn.
    + intros n Hn. rewrite dom_fmap_L. eauto.
    + intros r c i j a b Ha Hb Ho Ho'. rewrite lookup_fmap in Ha, Hb.
      destruct (w_alerts w !! i) as [a0|] eqn:Hi'; [|done].
      destruct (w_alerts w !! j) as [b0|] eqn:Hj; [|done]. injection Ha as <-. injection Hb as <-.
      destruct (opens ruleID clusterID a0) eqn:E1; [done|].
      destruct (opens ruleID clusterID b0) eqn:E2; [done|]. eauto.
  - split; try done. intros id a Hne. rewrite !view_lookup. cbn. rewrite lookup_fmap.
    assert (∀ b, shown b = a → opens ruleID clusterID b = false) as Hno.
    { intros b <-. apply not_true_iff_false. rewrite opens_iff. cbn in Hne. tauto. }
    split.
    + intros (b & Hb & E). destruct (w_alerts w !! id) as [b0|]; [|done]. exists b0. split; [done|].
      injection Hb as <-. destruct (opens ruleID clusterID b0) eqn:Ho; [|done].
      apply opens_iff in Ho. destruct Hne. rewrite <- E. cbn. tauto.
    + intros (b & Hb & E). rewrite Hb. cbn. exists b. by rewrite (Hno b E).
  - intros (id & a & Ha & Ho). apply view_lookup in Ha as (b & Hb & <-). rewrite opens_shown in Ho.
    cbn in Hb. rewrite lookup_fmap in Hb. destruct (w_alerts w !! id) as [b0|]; [|done].
    injection Hb as <-. destruct (opens ruleID clusterID b0) eqn:E; [done|]. congruence.
Qed.

Lemma evaluate_rule_spec clusterID opts now byMetric openRules rule w :
  ready clusterID w → w_rules w !! ar_ID rule = Some rule →
  (ar_ID rule ∈ openRules ↔ has_open w (ar_ID rule) clusterID) →
  ∃ w', evaluate_rule newID clusterID opts now byMetric openRules rule w = (Ok tt, w') ∧
    ready clusterID w' ∧ touches (ar_ID rule) clusterID w w' ∧
    rule_done rule clusterID byMetric now w w'.
Proof.
  intros Hready Hrule Hopen. unfold evaluate_rule, rule_done.
  destruct (byMetric !! ar_Metric rule) as [value|]; [|exists w; by auto using touches_refl].
  destruct (ThresholdMet _ _ _).
  - destruct (Upsert_spec rule clusterID value now w Hready Hrule)
      as (id & new & w1 & E & Hr1 & Ht1 & Hf1 & _).
    unfold bind, attempt. rewrite E. destruct new.
    + pose proof (notify_quiet clusterID opts id rule value now w1) as Hq.
      pose proof (notify_total clusterID opts id rule value now w1) as Hok.
      destruct (notifyNewAlert _ _ _ _ _ _ w1) as [r w2]. cbn in Hq, Hok. subst r. exists w2.
      split_and!; [done|by eapply ready_quiet|by eapply touches_quiet|by eapply firing_quiet].
    + exists w1. auto.
  - case_bool_decide as Hin; cbn [negb].
    + destruct (close_spec (ar_ID rule) clusterID now w Hready) as (E & Hr1 & Ht1 & Hno).
      unfold bind, attempt. rewrite E. eexists. split; [done|]. split_and!; [done..|].
      intros id a Ha. apply not_true_iff_false. intros Ho. apply Hno. by exists id, a.
    + exists w. split_and!; [done..|apply touches_refl|]. intros id a Ha. apply not_true_iff_false.
      intros Ho. apply Hin, Hopen. by exists id, a.
Qed.

Lemma touches_open r r' c w w' id a : touches r c w w' → r' ≠ r → opens r' c a = true →
  view w' !! id = Some a ↔ view w !! id = Some a.
Proof. intros Ht Hne (_ & E & _)%opens_iff. apply (to_others _ _ _ _ Ht). intros [? _]. congruence. Qed.

Lemma touches_has_open r r' c w w' : touches r c w w' → r' ≠ r → has_open w' r' c ↔ has_open w r' c.
Proof.
  intros Ht Hne. unfold has_open. split; intros (id & a & Ha & Ho); exists id, a;
    (split; [|done]); by apply (touches_open r r' c w w' id a Ht Hne Ho).
Qed.

(** What is done for a rule later does not depend on the rules before it. *)
Lemma rule_done_before rule r c bm now w w1 w2 :
  touches r c w w1 → ar_ID rule ≠ r → rule_done rule c bm now w1 w2 → rule_done rule c bm now w w2.
Proof.
  intros Ht Hne. unfold rule_done. destruct (bm !! ar_Metric rule); [done|].
  intros Hd id a Ho. by rewrite Hd, (touches_open _ _ _ _ _ id a Ht Hne Ho).
Qed.

Lemma evaluate_rules_spec clusterID opts now byMetric openRules rules w :
  ready clusterID w → NoDup (map ar_ID rules) →
  (∀ rule, rule ∈ rules → w_rules w !! ar_ID rule = Some rule ∧
     (ar_ID rule ∈ openRules ↔ has_open w (ar_ID rule) clusterID)) →
  ∃ w', evaluate_rules newID clusterID opts now byMetric openRules rules w = (Ok tt, w') ∧
    ready clusterID w' ∧
    (∀ rule, rule ∈ rules → rule_done rule clusterID byMetric now w w') ∧
    (∀ id a, ¬ (al_ClusterID a = clusterID ∧ al_RuleID a ∈ map ar_ID rules) →
       view w' !! id = Some a ↔ view w !! id = Some a).
Proof.
  revert w. induction rules as [|rule rules IH]; intros w Hready Hnd Hrules.
  { exists w. split_and!; [done..|set_solver|done]. }
  cbn [map] in Hnd. apply NoDup_cons in Hnd as [Hnin Hnd].
  destruct (Hrules rule) as [Hrule Hopen]; [by left|].
  destruct (evaluate_rule_spec clusterID opts now byMetric openRules rule w Hready Hrule Hopen)
    as (w1 & E & Hr1 & Ht & Hd).
  assert (∀ r, r ∈ rules → ar_ID r ≠ ar_ID rule) as Hne.
  { intros r Hr Heq. apply Hnin. rewrite <- Heq. by apply list_elem_of_fmap_2. }
  destruct (IH w1 Hr1 Hnd) as (w2 & E2 & Hr2 & Hd2 & Ho2).
  { intros r Hr. destruct (Hrules r) as [Hr' Hopen']; [by right|]. split.
    - by rewrite (to_rules _ _ _ _ Ht).
    - rewrite Hopen'. symmetry. apply (touches_has_open _ _ _ _ _ Ht). auto. }
  exists w2. split; [|split; [done|split]].
  - cbn [evaluate_rules]. by rewrite (bind_Ok_run _ _ _ _ _ E).
  - intros r [->|Hr]%elem_of_cons; [|eapply rule_done_before; eauto].
    assert (∀ id a, opens (ar_ID rule) clusterID a = true →
      view w2 !! id = Some a ↔ view w1 !! id = Some a) as Hsame.
    { intros id a Ho. apply Ho2. apply opens_iff in Ho as (_ & -> & _). tauto. }
    revert Hd. unfold rule_done. destruct (byMetric !! ar_Metric rule).
    + destruct (ThresholdMet _ _ _).
      * intros (id & a & Ha & Ho & Hrest). exists id, a. split; [by apply Hsame|done].
      * intros Hd id a Ha. apply not_true_iff_false. intros Ho.
        apply (Hsame _ _ Ho) in Ha. rewrite (Hd _ _ Ha) in Ho. done.
    + intros Hd id a Ho. by rewrite (Hsame _ _ Ho), Hd.
  - intros id a Hout. rewrite Ho2; [|cbn in Hout; rewrite elem_of_cons in Hout; tauto].
    apply (to_others _ _ _ _ Ht). cbn in Hout. rewrite elem_of_cons in Hout. tauto.
Qed.

Lemma ListAlertRules_up clusterID b w : t_up (w_tables w) = true →
  ListAlertRules clusterID b w = (Ok (merge_sort rule_le
    (List.filter (rule_applies clusterID b) (map_to_list (w_rules w)).*2)), w).
Proof. intros Hup. unfold ListAlertRules, bind, alerts_online, get, ret. by rewrite Hup. Qed.

Lemma ListOpen_up clusterID w : t_up (w_tables w) = true →
  ∃ ids, ListOpenAlertRuleIDs clusterID w = (Ok ids, w) ∧
    ∀ r, r ∈ ids ↔ has_open w r clusterID.
Proof.
  intros Hup. unfold ListOpenAlertRuleIDs, bind, alerts_online, get, ret. rewrite Hup.
  eexists. split; [done|]. intros r. rewrite elem_of_list_to_set, list_elem_of_In, in_map_iff.
  unfold has_open. split.
  - intros (a & E & [Ha Hf]%filter_In). apply list_elem_of_In, list_elem_of_fmap in Ha as ([id b] & -> & Hb).
    apply elem_of_map_to_list in Hb. exists id, (shown b). split; [apply view_lookup; eauto|].
    apply andb_true_iff in Hf as [? ?]. go_bool. by apply opens_iff.
  - intros (id & a & (b & Hb & <-)%view_lookup & (Ho & Er & Ec)%opens_iff). exists b.
    split; [done|]. apply filter_In. split.
    + apply list_elem_of_In, list_elem_of_fmap. exists (id, b). split; [done|].
      by apply elem_of_map_to_list.
    + cbn in Ho, Ec. rewrite Ho, Ec. by rewrite bool_decide_eq_true_2.
Qed.

Lemma applicable_rules clusterID b w rule :
  (∀ id r, w_rules w !! id = Some r → ar_ID r = id) →
  rule ∈ List.filter (rule_applies clusterID b) (map_to_list (w_rules w)).*2 ↔
  w_rules w !! ar_ID rule = Some rule ∧ rule_applies clusterID b rule = true.
Proof.
  intros Hk. rewrite list_elem_of_In, filter_In, <- list_elem_of_In, list_elem_of_fmap. split.
  - intros [([id r] & -> & Hr%elem_of_map_to_list) Happ]. cbn in *. by rewrite (Hk _ _ Hr).
  - intros [Hr Happ]. split; [|done]. exists (ar_ID rule, rule). split; [done|].
    by apply elem_of_map_to_list.
Qed.

Lemma map_fst_snd_ids (w : World) : (∀ id r, w_rules w !! id = Some r → ar_ID r = id) →
  NoDup (map ar_ID (map_to_list (w_rules w)).*2).
Proof.
  intros Hk. assert (map ar_ID (map_to_list (w_rules w)).*2 = (map_to_list (w_rules w)).*1) as ->.
  { change (map ar_ID (snd <$> map_to_list (w_rules w)) = fst <$> map_to_list (w_rules w)).
    rewrite <- list_fmap_compose. apply list_fmap_ext. intros i [id r] Hi. cbn. eapply Hk.
    apply elem_of_map_to_list. by eapply list_elem_of_lookup_2. }
  apply NoDup_fst_map_to_list.
Qed.

Lemma NoDup_map_filter {A B} (f : A → B) (p : A → bool) l : NoDup (map f l) → NoDup (map f (List.filter p l)).
Proof.
  induction l as [|x l IH]; [done|]. cbn. intros [Hx Hl]%NoDup_cons. destruct (p x); [|auto].
  cbn. apply NoDup_cons. split; [|auto]. intros Hin. apply Hx.
  apply list_elem_of_In, in_map_iff in Hin as (y & E & [Hy _]%filter_In).
  apply list_elem_of_In, in_map_iff. eauto.
Qed.

(** C14. An evaluation makes the open alerts agree with the last samples.  When the
    database answers, for every enabled rule of the cluster (or of all
    clusters) with a sample of its metric, an alert is open afterwards exactly
    if the sample meets the threshold (binary64 comparison; never for NaN), and
    shows that sample, the rule's threshold and the time of the evaluation; a
    rule without a sample keeps its alert as it was, and so do other clusters
    and rules; and there is never more than one open alert for a rule on a
    cluster. *)
Theorem Evaluate_spec clusterID samples opts now w :
  ready clusterID w → clusterID ≠ "" →
  ∃ w', Evaluate newID clusterID samples opts now w = (Ok tt, w') ∧ alerts_ok (w_alerts w') ∧
    (∀ rule, w_rules w !! ar_ID rule = Some rule → rule_applies clusterID true rule = true →
       rule_done rule clusterID (by_metric samples) now w w') ∧
    (∀ id a, ¬ (al_ClusterID a = clusterID ∧ ∃ rule, w_rules w !! al_RuleID a = Some rule ∧
                rule_applies clusterID true rule = true) →
       view w' !! id = Some a ↔ view w !! id = Some a).
Proof.
  intros Hready Hne%IsEmpty_false.
  set (w0 := set_cache (λ _, ∅) w).
  assert (quiet w w0) as Hq0 by by split.
  assert (ready clusterID w0) as Hready0 by by eapply ready_quiet.
  pose proof Hready as [Hup _ Hr _ _ Hone].
  assert (∀ id r, w_rules w !! id = Some r → ar_ID r = id) as Hk by (intros id r E; apply (Hr id r E)).
  unfold Evaluate. rewrite (bind_Ok_run _ _ w tt w0), Hne by done. cbn [orb].
  assert (∀ w', view w' = view w → (∀ rule, w_rules w !! ar_ID rule = Some rule →
    rule_applies clusterID true rule = true → by_metric samples !! ar_Metric rule = None) →
    ∀ rule, w_rules w !! ar_ID rule = Some rule → rule_applies clusterID true rule = true →
    rule_done rule clusterID (by_metric samples) now w w') as Hidle.
  { intros w' Ev Hnone rule H1 H2. unfold rule_done. rewrite (Hnone rule H1 H2). intros. by rewrite Ev. }
  destruct (Nat.eqb (length samples) 0) eqn:Hs.
  { exists w0. split_and!; [done|apply Hready0| |done]. apply Hidle; [done|].
    intros rule _ _. destruct samples; [|done]. unfold by_metric. cbn. apply lookup_empty. }
  set (rules := merge_sort rule_le (List.filter (rule_applies clusterID true) (map_to_list (w_rules w)).*2)).
  assert (∀ rule, rule ∈ rules ↔ w_rules w !! ar_ID rule = Some rule ∧ rule_applies clusterID true rule = true)
    as Hin by (intros rule; unfold rules; rewrite merge_sort_Permutation; by apply applicable_rules).
  assert (NoDup (map ar_ID rules)) as Hnd.
  { unfold rules. rewrite merge_sort_Permutation. by apply NoDup_map_filter, map_fst_snd_ids. }
  rewrite (bind_Ok_run _ _ w0 (Ok rules) w0) by (unfold attempt; by rewrite (ListAlertRules_up _ _ w0 Hup)).
  destruct (Nat.eqb (length rules) 0) eqn:Hl.
  { exists w0. split_and!; [done|apply Hready0| |done]. intros rule H1 H2. exfalso.
    assert (rule ∈ rules) as Hx by by apply Hin. destruct rules; [by apply elem_of_nil in Hx|done]. }
  destruct (ListOpen_up clusterID w0 Hup) as (ids & E & Hids).
  rewrite (bind_Ok_run _ _ w0 (Ok ids) w0) by (unfold attempt; by rewrite E).
  destruct (evaluate_rules_spec clusterID opts now (by_metric samples) ids rules w0 Hready0 Hnd)
    as (w' & Hrun & Hr' & Hd & Hothers); [intros rule Hx%Hin; split; [apply Hx|apply Hids]|].
  exists w'. split_and!; [done|apply Hr'| |].
  - intros rule H1 H2. apply Hd, Hin. done.
  - intros id a Hout. apply Hothers. intros [Hc Hx]. apply Hout. split; [done|].
    apply list_elem_of_fmap in Hx as (rule & -> & Hx%Hin). by exists rule.
Qed.
End Evaluation.

(** * Mail *)

(** What can still be sent, and what was. *)
Definition mail_budget (w : World) : nat := length (w_sent w) + (if w_smtp w then 1 else 0).
Definition same_budget : relation World := λ w w', mail_budget w' = mail_budget w.
#[export] Instance same_budget_preorder : PreOrder same_budget.
Proof. split; [done|]. unfold same_budget. intros w1 w2 w3. congruence. Qed.

Lemma set_alerts_budget f : runs same_budget (modify (set_alerts f) : AM unit).
Proof. by intros w. Qed.
Lemma set_rules_budget f : runs same_budget (modify (set_rules f) : AM unit).
Proof. by intros w. Qed.
Lemma set_next_budget f : runs same_budget (modify (set_next f) : AM unit).
Proof. by intros w. Qed.
Lemma set_cache_budget f : runs same_budget (modify (set_cache f) : AM unit).
Proof. by intros w. Qed.
Lemma set_jobs_budget f : runs same_budget (modify (set_jobs f) : AM unit).
Proof. by intros w. Qed.
Lemma on_tables_budget {A} (m : DBM A) : runs same_budget (on_tables m).
Proof. intros w. unfold on_tables. by destruct (m (w_tables w)). Qed.
#[export] Hint Resolve set_alerts_budget set_rules_budget set_next_budget set_cache_budget
  set_jobs_budget on_tables_budget : runs.

Lemma Send_budget accepts job : runs same_budget (Send accepts job).
Proof.
  intros w. unfold Send, bind, get, modify, ensure, ret, same_budget, mail_budget.
  destruct (Nat.eqb _ 0); [done|]. destruct (w_smtp w) eqn:E; cbn; rewrite ?E; [|done].
  destruct accepts; cbn; rewrite ?E; [lia|done].
Qed.
#[export] Hint Resolve Send_budget : runs.

(** What happens to a console: evaluations of any cluster, mails being sent,
    users acknowledging, administrators changing rules, old alerts purged. *)
Inductive event :=
  | EEvaluate (clusterID : string) (samples : list (string * spec_float)) (opts : Options) (now : Z)
  | EJob (accepts : bool) (n : nat)
  | EAcknowledge (now : Z) (id actor : string)
  | ECreateRule (inp : AlertRuleCreate)
  | EUpdateRule (id : string) (inp : AlertRuleUpdate)
  | EDeleteRule (id : string)
  | EPurge (cutoff : Z).

Section Events.
Context `{GoUnicode} (newID : nat → string).

Definition event_step (e : event) (w : World) : World :=
  match e with
  | EEvaluate clusterID samples opts now => snd (Evaluate newID clusterID samples opts now w)
  | EJob accepts n => snd (run_job accepts n w)
  | EAcknowledge now id actor => snd (AcknowledgeAlert now id actor w)
  | ECreateRule inp => snd (CreateAlertRule newID inp w)
  | EUpdateRule id inp => snd (UpdateAlertRule id inp w)
  | EDeleteRule id => snd (DeleteAlertRule id w)
  | EPurge cutoff => snd (DeleteClosedAlertsOlderThan cutoff w)
  end.
Definition run_events (es : list event) (w : World) : World := fold_left (λ w e, event_step e w) es w.

Lemma recipientEmails_budget now clusterID : runs same_budget (recipientEmails now clusterID).
Proof. unfold recipientEmails. run_rules. Qed.
Lemma release_notify_budget id : runs same_budget (ReleaseAlertEmailNotify id).
Proof. unfold ReleaseAlertEmailNotify. run_rules. Qed.
#[local] Hint Resolve recipientEmails_budget release_notify_budget : runs.

Lemma notify_budget clusterID opts id rule value at_ :
  runs same_budget (notifyNewAlert clusterID opts id rule value at_).
Proof. unfold notifyNewAlert, release, ClaimAlertEmailNotify. run_rules. Qed.
#[local] Hint Resolve notify_budget : runs.

Lemma evaluate_rules_budget clusterID opts now bm ids rules :
  runs same_budget (evaluate_rules newID clusterID opts now bm ids rules).
Proof.
  induction rules as [|rule rules IH]; cbn [evaluate_rules]; [run_rules|].
  apply runs_bind; [apply _| |done].
  unfold evaluate_rule, UpsertOpenAlert, draw_id, CloseOpenAlert. run_rules.
Qed.
#[local] Hint Resolve evaluate_rules_budget : runs.

Lemma GetAlertRule_budget id : runs same_budget (GetAlertRule id).
Proof. unfold GetAlertRule. run_rules. Qed.
Lemma GetAlert_budget id : runs same_budget (GetAlert id).
Proof. unfold GetAlert. run_rules. Qed.
#[local] Hint Resolve GetAlertRule_budget GetAlert_budget : runs.

Lemma event_budget e w : mail_budget (event_step e w) = mail_budget w.
Proof.
  destruct e; cbn [event_step];
    match goal with |- context [snd (?m w)] => enough (runs same_budget m) as Hm by apply Hm end.
  - unfold Evaluate, ListAlertRules, ListOpenAlertRuleIDs. run_rules.
  - unfold run_job, sendAlertEmail. run_rules.
  - unfold AcknowledgeAlert. run_rules.
  - unfold CreateAlertRule, draw_id, put_rule. run_rules.
  - unfold UpdateAlertRule, put_rule. run_rules.
  - unfold DeleteAlertRule. run_rules.
  - unfold DeleteClosedAlertsOlderThan. run_rules.
Qed.

Lemma run_budget es w : mail_budget (run_events es w) = mail_budget w.
Proof.
  revert w. induction es as [|e es IH]; intros w; [done|]. unfold run_events. cbn [fold_left].
  change (fold_left _ es ?w') with (run_events es w'). by rewrite IH, event_budget.
Qed.
End Events.

(** * A console with two rules *)

Definition alert_id (n : nat) : string := "alert-" +:+ pretty n.
#[export] Instance alert_id_inj : Inj (=) (=) alert_id.
Proof. intros n m H%app_inv_l. by apply (inj pretty). Qed.

Definition rule_cpu : AlertRule :=
  mkRule "r1" "" "" "High CPU" "" "warning" "server.cpu_percent" "gte" (f64 90) true.
Definition rule_conns : AlertRule :=
  mkRule "r2" "c1" "" "Connections" "too many" "critical" "server.connections" "gt" (f64 100) true.

Definition root_row : UserRow := {|
  row_Username := "root"; row_Email := "Ops@example.com"; row_PasswordHash := ""; row_OIDCSub := "";
  row_IsRoot := true; row_AccessRules := None; row_CreatedAt := 0;
|}.
Definition console : World :=
  mkWorld (set_users (λ _, {[ "u1" := root_row ]}) empty_tables) {[ "c1" := "prod" ]}
    {[ "r1" := rule_cpu; "r2" := rule_conns ]} ∅ 0 ∅ true [] [].

Definition samples1 : list (string * spec_float) :=
  [("server.cpu_percent", f64 95); ("server.connections", f64 250)].
Definition mail_on : Options := mkOptions true "https://console".

Lemma console_ready : ready alert_id "c1" console.
Proof.
  split.
  - reflexivity.
  - apply elem_of_dom. eexists. reflexivity.
  - cbn. intros id r Hr. apply lookup_insert_Some in Hr as [[<- <-]|[_ Hr]]; [done|].
    by apply lookup_singleton_Some in Hr as [<- <-].
  - cbn. intros n _. rewrite dom_empty. apply not_elem_of_empty.
  - apply _.
  - cbn. intros r c i j a b Ha. by rewrite lookup_empty in Ha.
Qed.

Lemma Evaluate_spec_witness :
  ready alert_id "c1" console ∧
  ∃ w', Evaluate (H := ascii_only) alert_id "c1" samples1 mail_on 50 console = (Ok tt, w') ∧
    firing rule_cpu "c1" (f64 95) 50 w' ∧ firing rule_conns "c1" (f64 250) 50 w'.
Proof.
  split; [exact console_ready|].
  destruct (Evaluate_spec (H := ascii_only) alert_id "c1" samples1 mail_on 50 console console_ready)
    as (w' & E & _ & H & _); [discriminate|].
  exists w'. split; [exact E|]. split.
  - exact (H rule_cpu eq_refl eq_refl).
  - exact (H rule_conns eq_refl eq_refl).
Defined.

(** A process sends one alert mail.  [Send] ends with QUIT, which closes the
    only connection, so whatever evaluations, acknowledgements and rule changes
    follow, at most one mail leaves (none if the connection is closed).  The
    mail of every other alert fails, and although its claim is released so that
    a failed send can be retried, nothing retries it: here two rules fire, one
    mail is sent, the other alert stays open and unnotified, and the next
    evaluation queues no mail for it. *)
Theorem one_mail_per_connection :
  (∀ unicode newID es w,
     length (w_sent (run_events (H := unicode) newID es w)) ≤
     length (w_sent w) + (if w_smtp w then 1 else 0)) ∧
  (let w := run_events (H := ascii_only) alert_id
      [EEvaluate "c1" samples1 mail_on 50; EJob true 0; EJob true 0;
       EEvaluate "c1" samples1 mail_on 60] console in
   map (λ j, ar_Name (j_Rule j)) (w_sent w) = ["Connections"] ∧ w_jobs w = [] ∧
   map (λ ka, (al_RuleID ka.2, al_Open ka.2, al_EmailNotifiedAt ka.2)) (map_to_list (w_alerts w)) =
     [("r1", true, None); ("r2", true, Some 50%Z)]).
Proof.
  split.
  - intros unicode newID es w. pose proof (run_budget (H := unicode) newID es w) as E.
    unfold mail_budget in E. lia.
  - vm_compute. repeat split; reflexivity.
Qed.
