(* ===== verification/AlertHandlers.v ===== *)
(** The alerts of the web interface: internal/api/alerts_handlers.go over the tables
    of [Alerts], with the listings of internal/repo/alerts.go; the service
    internal/app/alerts.go and internal/app/policy pass their arguments on.

    A handler takes the user of the request context, the arguments of the query and
    of the route, and the decoded body ([None]: it does not decode).  Identifiers are
    spelled as the database writes them. *)

From S2P Require Import Rbac Access.
From S2P Require Export Alerts Sorting Metrics.
From Stdlib Require Import Ascii.
From S2P Require Import GoStrings.

Definition AlertStatusOpen := "open".
Definition AlertStatusClosed := "closed".
(** [af_ClusterIDs]: [None] is the nil slice. *)
Record AlertFilter := mkFilter {
  af_Status : string;
  af_ClusterID : string;
  af_Severity : string;
  af_ClusterIDs : option (list string);
  af_Limit : Z;
  af_Offset : Z;
}.

(** An alert as it is shown, with its identifier and the name of its rule. *)
Record Alert := mkShown { sa_ID : string; sa_Row : AlertRow; sa_RuleName : string }.

(** * internal/repo/alerts.go: listings *)

Definition alert_status (a : AlertRow) : string := if al_Open a then AlertStatusOpen else AlertStatusClosed.
Definition show_alert (w : World) (id : string) (a : AlertRow) : Alert :=
  mkShown id a (default "" (ar_Name <$> w_rules w !! al_RuleID a)).
Definition newer (a b : Alert) : bool := Z.leb (al_LastSeenAt (sa_Row b)) (al_LastSeenAt (sa_Row a)).
Definition select_alerts (w : World) (p : AlertRow → bool) : list Alert :=
  sort_stable newer ((λ ka, show_alert w ka.1 ka.2) <$> List.filter (λ ka, p ka.2) (map_to_list (w_alerts w))).
(** [AND a.cluster_id IN (...)], if there are any. *)
Definition in_clusters (ids : option (list string)) (a : AlertRow) : bool :=
  match ids with
  | Some (id :: rest) => al_ClusterID a ∈b (id :: rest)
  | _ => true
  end.
Definition filter_matches (f : AlertFilter) (a : AlertRow) : bool :=
  (IsEmpty (af_Status f) || (alert_status a =s af_Status f)) &&
  (IsEmpty (af_Severity f) || (al_Severity a =s af_Severity f)) &&
  (if negb (IsEmpty (af_ClusterID f)) then al_ClusterID a =s af_ClusterID f else in_clusters (af_ClusterIDs f) a).
Definition clamp_page (limit : Z) : Z :=
  let limit := if Z.leb limit 0 then 50%Z else limit in
  if Z.ltb 500 limit then 500%Z else limit.
(** The page and the number of all; the database refuses a negative offset. *)
Definition ListAlerts (f : AlertFilter) : AM (list Alert * nat) :=
  alerts_online ;;
  let! w := get in
  let all := select_alerts w (filter_matches f) in
  ensure (Z.leb 0 (af_Offset f)) ErrDB ;;
  ret (take (Z.to_nat (clamp_page (af_Limit f))) (drop (Z.to_nat (af_Offset f)) all), length all).
Definition ListOpenUnacknowledged (clusterIDs : option (list string)) (limit : Z) : AM (list Alert * nat) :=
  let limit := if Z.leb limit 0 then 10%Z else limit in
  alerts_online ;;
  let! w := get in
  let all := select_alerts w (λ a, al_Open a && bool_decide (al_AcknowledgedAt a = None) && in_clusters clusterIDs a) in
  ret (take (Z.to_nat limit) all, length all).

(** * Who may see and manage what *)

(** The clusters an actor is confined to; [None]: nil. *)
Definition grant_cluster (g : AccessGrant) : string :=
  match Cut (g_ResourceKey g) ":" with (cluster, _, _) => cluster end.
Definition add_cluster (ids : list string) (g : AccessGrant) : list string :=
  let id := grant_cluster g in
  if IsEmpty id then ids else if id ∈b ids then ids else ids ++ [id].
(** [append] of no element to a nil slice is nil. *)
Definition slice_of (l : list string) : option (list string) := match l with [] => None | _ => Some l end.
Definition accessibleClusterIDs (actor : User) : option (list string) :=
  let perms := PermissionsFor actor in
  if p_IsRoot perms || p_AllClusters perms then None
  else slice_of (foldl add_cluster (p_ClusterIDs perms) (u_Grants actor)).
Definition canManageGlobalAlertRules (actor : User) : bool := bool_decide (accessibleClusterIDs actor = None).
Definition canAccessAlertRuleCluster (actor : User) (clusterID : string) : bool :=
  if IsEmpty clusterID then canManageGlobalAlertRules actor else CanAccessCluster actor clusterID.
Definition filterAlertRulesForActor (rules : list AlertRule) (actor : User) : list AlertRule :=
  if canManageGlobalAlertRules actor then rules
  else List.filter (λ r, canAccessAlertRuleCluster actor (ar_ClusterID r)) rules.

(** * Validation *)

Definition validateAlertRuleCreate (req : AlertRuleCreate) : bool :=
  if IsEmpty (TrimSpace (rc_Name req)) then false
  else if negb (ValidMetricName (rc_Metric req)) then false
  else if negb (ValidAlertComparator (rc_Comparator req)) then false
  else if negb (ValidAlertSeverity (rc_Severity req)) then false
  else if negb (IsEmpty (rc_ClusterID req)) then ValidateUUID (rc_ClusterID req)
  else true.
(** A field that is given satisfies [p]. *)
Definition if_given {A} (p : A → bool) (o : option A) : bool := match o with Some x => p x | None => true end.
Definition validateAlertRuleUpdate (req : AlertRuleUpdate) : bool :=
  if_given ValidMetricName (ru_Metric req) && if_given ValidAlertComparator (ru_Comparator req) &&
  if_given ValidAlertSeverity (ru_Severity req) &&
  if_given (λ id, IsEmpty id || ValidateUUID id) (ru_ClusterID req) &&
  if_given (λ name, negb (IsEmpty (TrimSpace name))) (ru_Name req).
Definition queryInt (raw : string) (fallback : Z) : Z :=
  if IsEmpty raw then fallback else default fallback (Atoi raw).

(** * Handlers *)

Inductive alert_data :=
  | NothingShown
  | AlertList (l : list Alert) (total : nat) | AlertShown (a : Alert)
  | RuleList (l : list AlertRule) | RuleShown (r : AlertRule)
  | AlertMetrics (metrics comparators severities : list string).
Record alert_answer := answered { aa_Status : Z; aa_Data : alert_data }.
Definition refused (code : Z) : AM alert_answer := ret (answered code NothingShown).
(** [WriteAPIError] *)
Definition alert_error (e : err) : Z := if bool_decide (e = ErrAlertNotFound ∨ e = ErrAlertRuleNotFound) then 404 else api_status e.
Definition or_error {A} (m : AM A) (k : A → AM alert_answer) : AM alert_answer :=
  let! r := attempt m in
  match r with Ok a => k a | Err e => refused (alert_error e) end.
(** Answer 403 unless the actor may. *)
Definition allowed (b : bool) (k : AM alert_answer) : AM alert_answer := if b then k else refused 403.
(** Answer 400 unless the request is valid. *)
Definition valid (b : bool) (k : AM alert_answer) : AM alert_answer := if b then k else refused 400.
Definition authenticated (actor : option User) (k : User → AM alert_answer) : AM alert_answer :=
  match actor with Some u => k u | None => refused 401 end.

Section Handlers.
Context (newID : nat → string) (AuditDefaultLimit : Z).

Definition alerts_List (actor : option User) (status clusterID severity limit offset : string) : AM alert_answer :=
  authenticated actor (λ actor,
  valid (IsEmpty status || (status =s AlertStatusOpen) || (status =s AlertStatusClosed))
  (valid (IsEmpty severity || ValidAlertSeverity severity)
  (let list clusterIDs :=
     or_error (ListAlerts (mkFilter status clusterID severity clusterIDs (queryInt limit AuditDefaultLimit) (queryInt offset 0)))
       (λ '(l, total), ret (answered 200 (AlertList l total))) in
   if negb (IsEmpty clusterID) then
     valid (ValidateUUID clusterID) (allowed (CanAccessClusterOrAccount actor clusterID) (list None))
   else match accessibleClusterIDs actor with
   | Some [] => ret (answered 200 (AlertList [] 0))
   | ids => list ids
   end))).
Definition OpenSummary (actor : option User) : AM alert_answer :=
  authenticated actor (λ actor,
  match accessibleClusterIDs actor with
  | Some [] => ret (answered 200 (AlertList [] 0))
  | ids => or_error (ListOpenUnacknowledged ids 8) (λ '(l, total), ret (answered 200 (AlertList l total)))
  end).
(** An alert with the rule's name. *)
Definition with_rule_name (id : string) (a : AlertRow) : AM Alert := let! w := get in ret (show_alert w id a).
Definition alerts_Get (actor : option User) (id : string) : AM alert_answer :=
  authenticated actor (λ actor,
  valid (ValidateUUID id)
  (or_error (GetAlert id) (λ a,
  allowed (CanAccessClusterOrAccount actor (al_ClusterID a))
  (let! shown := with_rule_name id a in ret (answered 200 (AlertShown shown)))))).
Definition Acknowledge (now : Z) (actor : option User) (id : string) : AM alert_answer :=
  authenticated actor (λ actor,
  valid (ValidateUUID id)
  (or_error (GetAlert id) (λ existing,
  allowed (CanAccessClusterOrAccount actor (al_ClusterID existing))
  (or_error (AcknowledgeAlert now id (u_Username actor)) (λ a,
  let! shown := with_rule_name id a in ret (answered 200 (AlertShown shown))))))).

Definition requireManageAlertRules (actor : option User) (k : User → AM alert_answer) : AM alert_answer :=
  authenticated actor (λ actor, allowed (CanManageAlertRules actor) (k actor)).
Definition ListRules (actor : option User) (clusterID : string) : AM alert_answer :=
  requireManageAlertRules actor (λ actor,
  let list := or_error (ListAlertRules clusterID false) (λ rules, ret (answered 200 (RuleList (filterAlertRulesForActor rules actor)))) in
  if negb (IsEmpty clusterID) then valid (ValidateUUID clusterID) (allowed (CanAccessCluster actor clusterID) list)
  else list).
Definition alerts_Metrics (actor : option User) : AM alert_answer :=
  requireManageAlertRules actor (λ _, ret (answered 200 (AlertMetrics DefaultDashboardMetrics AlertComparators AlertSeverities))).
Definition GetRule (actor : option User) (id : string) : AM alert_answer :=
  requireManageAlertRules actor (λ actor,
  valid (ValidateUUID id)
  (or_error (GetAlertRule id) (λ rule,
  allowed (canAccessAlertRuleCluster actor (ar_ClusterID rule)) (ret (answered 200 (RuleShown rule)))))).
(** The severity and the comparator that are left out. *)
Definition with_defaults (req : AlertRuleCreate) : AlertRuleCreate := {|
  rc_Enabled := rc_Enabled req; rc_ClusterID := rc_ClusterID req; rc_AccountName := rc_AccountName req;
  rc_Name := rc_Name req; rc_Message := rc_Message req;
  rc_Severity := if IsEmpty (rc_Severity req) then "warning" else rc_Severity req;
  rc_Metric := rc_Metric req;
  rc_Comparator := if IsEmpty (rc_Comparator req) then AlertComparatorGTE else rc_Comparator req;
  rc_Threshold := rc_Threshold req |}.
Definition CreateRule (actor : option User) (body : option AlertRuleCreate) : AM alert_answer :=
  requireManageAlertRules actor (λ actor,
  match body with
  | None => refused 400
  | Some req =>
      let req := with_defaults req in
      valid (validateAlertRuleCreate req)
      (allowed (canAccessAlertRuleCluster actor (rc_ClusterID req))
      (or_error (CreateAlertRule newID req) (λ rule, ret (answered 201 (RuleShown rule)))))
  end).
(** The actor may give a rule this cluster, or none. *)
Definition may_move (actor : User) (req : AlertRuleUpdate) : bool :=
  if ru_ClearCluster req || match ru_ClusterID req with Some id => IsEmpty id | None => false end
  then canManageGlobalAlertRules actor
  else if_given (CanAccessCluster actor) (ru_ClusterID req).
Definition UpdateRule (actor : option User) (id : string) (body : option AlertRuleUpdate) : AM alert_answer :=
  requireManageAlertRules actor (λ actor,
  valid (ValidateUUID id)
  (or_error (GetAlertRule id) (λ existing,
  allowed (canAccessAlertRuleCluster actor (ar_ClusterID existing))
  match body with
  | None => refused 400
  | Some req =>
      valid (validateAlertRuleUpdate req)
      (allowed (may_move actor req)
      (or_error (UpdateAlertRule id req) (λ rule, ret (answered 200 (RuleShown rule)))))
  end))).
Definition DeleteRule (actor : option User) (id : string) : AM alert_answer :=
  requireManageAlertRules actor (λ actor,
  valid (ValidateUUID id)
  (or_error (GetAlertRule id) (λ existing,
  allowed (canAccessAlertRuleCluster actor (ar_ClusterID existing))
  (or_error (DeleteAlertRule id) (λ _, refused 204))))).

(** The requests, with what they carry. *)
Inductive alert_request :=
  | ReqList (status clusterID severity limit offset : string) | ReqOpenSummary
  | ReqGet (id : string) | ReqAcknowledge (id : string)
  | ReqListRules (clusterID : string) | ReqMetrics | ReqGetRule (id : string)
  | ReqCreateRule (body : option AlertRuleCreate)
  | ReqUpdateRule (id : string) (body : option AlertRuleUpdate) | ReqDeleteRule (id : string).
Definition serve_alerts (now : Z) (actor : option User) (r : alert_request) : AM alert_answer :=
  match r with
  | ReqList status clusterID severity limit offset => alerts_List actor status clusterID severity limit offset
  | ReqOpenSummary => OpenSummary actor
  | ReqGet id => alerts_Get actor id
  | ReqAcknowledge id => Acknowledge now actor id
  | ReqListRules clusterID => ListRules actor clusterID
  | ReqMetrics => alerts_Metrics actor
  | ReqGetRule id => GetRule actor id
  | ReqCreateRule body => CreateRule actor body
  | ReqUpdateRule id body => UpdateRule actor id body
  | ReqDeleteRule id => DeleteRule actor id
  end.
End Handlers.
