(* ===== verification/AlertAccess.v ===== *)
(** Who sees and changes which alerts and rules: the requests to the handlers of
    alerts stay within the clusters their actor reaches, save for an actor that
    reaches nothing, to whom everything is shown. *)

From S2P Require Import Rbac Access.
From S2P Require Export AlertHandlers.
From S2P Require Import Subjects GoStrings.
From Stdlib Require Import Ascii.

(** * Reach *)

(** Root and the administrators without access rules. *)
Definition unscoped (actor : User) : bool := p_IsRoot (PermissionsFor actor) || p_AllClusters (PermissionsFor actor).
Lemma unscoped_spec actor : unscoped actor = u_IsRoot actor || isLegacyFullAdmin actor.
Proof.
  unfold unscoped, PermissionsFor, isLegacyFullAdmin. rewrite HighestRole_admin. destruct (u_IsRoot actor); [done|].
  destruct (u_AccessRules actor); cbn; [by rewrite andb_false_r|]. by destruct (HasRole _ _).
Qed.
Lemma unscoped_reaches actor c : unscoped actor = true → CanAccessCluster actor c = true.
Proof. rewrite unscoped_spec. intros Hu. unfold CanAccessCluster, allowsClusterRules. by rewrite Hu. Qed.
Lemma access_or_account actor c : CanAccessCluster actor c = true → CanAccessClusterOrAccount actor c = true.
Proof. unfold CanAccessClusterOrAccount. by intros ->. Qed.

(** The grants the endpoints make: of the three kinds, those of a system for a
    cluster as a whole. *)
Definition sound_grant (g : AccessGrant) : Prop :=
  g_ResourceType g = ResourceSystem ∧ ContainsByte (g_ResourceKey g) ":" = false ∨
  g_ResourceType g = ResourceAccount ∨ g_ResourceType g = ResourceNATSUser.
(** An actor that reaches anything at all. *)
Definition reaches_something (actor : User) : Prop :=
  unscoped actor = true ∨ accessibleClusterIDs actor ≠ None.
Record sound_actor (actor : User) : Prop := {
  sd_grants : ∀ g, g ∈ u_Grants actor → sound_grant g;
  sd_reach : reaches_something actor;
}.

Lemma grant_cluster_key g : g_ResourceKey g = grant_cluster g ∨ HasPrefix (g_ResourceKey g) (grant_cluster g +:+ ":") = true.
Proof.
  unfold grant_cluster. destruct (Cut (g_ResourceKey g) ":") as [[b a] found] eqn:E. destruct found.
  - right. apply Cut_found in E as [-> _]. apply HasPrefix_spec. exists a. change (String ":"%char a) with (":" +:+ a). by rewrite app_assoc.
  - left. by apply Cut_not_found in E as [-> _].
Qed.
Lemma sound_grant_reach actor g : g ∈ u_Grants actor → sound_grant g → CanAccessClusterOrAccount actor (grant_cluster g) = true.
Proof.
  intros Hg Hs. unfold CanAccessClusterOrAccount. destruct (CanAccessCluster actor (grant_cluster g)) eqn:Hc; [done|].
  destruct Hs as [[Ht Hk]|Ht].
  - unfold CanAccessCluster in Hc. destruct (allowsClusterRules _ _); [done|]. exfalso. apply not_true_iff_false in Hc. apply Hc. apply existsb_true_iff. exists g. split; [done|].
    rewrite Ht, bool_decide_eq_true_2 by done. unfold grant_cluster. rewrite (Cut_absent _ _ Hk). by rewrite bool_decide_eq_true_2.
  - apply existsb_true_iff. exists g. split; [done|]. unfold grantTouchesCluster. rewrite andb_true_iff. split.
    + destruct Ht as [-> | ->]; [by rewrite bool_decide_eq_true_2|]. by rewrite (bool_decide_eq_true_2 (ResourceNATSUser = ResourceNATSUser)), orb_true_r.
    + destruct (grant_cluster_key g) as [Hk|Hk]; [by rewrite <- Hk, bool_decide_eq_true_2|]. by rewrite Hk, orb_true_r.
Qed.

Lemma elem_add_cluster id gs l : id ∈ foldl add_cluster l gs → id ∈ l ∨ ∃ g, g ∈ gs ∧ id = grant_cluster g.
Proof.
  revert l. induction gs as [|g gs IH]; intros l; cbn; [by left|]. intros [Hl|(g' & Hg & ->)]%IH; [|right; exists g'; split; [by right|done]].
  unfold add_cluster in Hl. destruct (IsEmpty _); [by left|]. destruct (_ ∈b _); [by left|].
  apply elem_of_app in Hl as [Hl| ->%list_elem_of_singleton]; [by left|]. right. exists g. split; [by left|done].
Qed.
Lemma accessible_reached actor ids id : (∀ g, g ∈ u_Grants actor → sound_grant g) → accessibleClusterIDs actor = Some ids → id ∈ ids →
  CanAccessClusterOrAccount actor id = true.
Proof.
  intros Hg. unfold accessibleClusterIDs. fold (unscoped actor). destruct (unscoped actor) eqn:Hu; [done|].
  unfold slice_of. set (l := foldl add_cluster _ _). intros E Hid. assert (Hl : id ∈ l) by (destruct l; [done|]; by injection E as <-).
  apply elem_add_cluster in Hl as [Hr|(g & Hin & ->)]; [|by apply sound_grant_reach; [|apply Hg]].
  apply access_or_account. rewrite unscoped_spec in Hu. unfold CanAccessCluster, allowsClusterRules. rewrite Hu.
  apply orb_false_iff in Hu as [Hroot Hadm]. unfold PermissionsFor in Hr. rewrite Hroot in Hr.
  destruct (u_AccessRules actor) as [rules|].
  - cbn in Hr. by rewrite bool_decide_eq_true_2.
  - by destruct (HasRole _ _); apply not_elem_of_nil in Hr.
Qed.
(** A list of clusters is never empty: nobody is shown an empty listing for being
    confined to no cluster. *)
Lemma accessible_not_empty actor : accessibleClusterIDs actor ≠ Some [].
Proof. unfold accessibleClusterIDs, slice_of. destruct (_ || _); [done|]. by destruct (foldl _ _ _). Qed.

(** A rule the actor may manage: of a cluster it reaches, or of all for one that
    reaches all. *)
Definition manages (actor : User) (r : AlertRule) : Prop :=
  CanManageAlertRules actor = true ∧
  (ar_ClusterID r = "" ∧ unscoped actor = true ∨ ar_ClusterID r ≠ "" ∧ CanAccessCluster actor (ar_ClusterID r) = true).
Lemma global_unscoped actor : reaches_something actor → canManageGlobalAlertRules actor = true → unscoped actor = true.
Proof. intros [?|Hn] Hg; [done|]. by apply bool_decide_eq_true in Hg. Qed.
Lemma rule_managed actor r : reaches_something actor → CanManageAlertRules actor = true →
  canAccessAlertRuleCluster actor (ar_ClusterID r) = true → manages actor r.
Proof.
  intros Hr Hm. unfold canAccessAlertRuleCluster. destruct (IsEmpty (ar_ClusterID r)) eqn:E; intros Hc; split; try done.
  - left. apply IsEmpty_true in E. split; [done|]. by apply global_unscoped.
  - right. by apply IsEmpty_false in E.
Qed.

(** * What the methods of the tables do *)

Ltac run_db := unfold alerts_online, bind, ret, get, ensure, modify, fail; cbn.

Lemma GetAlert_run id w :
  GetAlert id w = (if t_up (w_tables w) then match w_alerts w !! id with Some a => Ok a | None => Err ErrAlertNotFound end else Err ErrDB, w).
Proof. unfold GetAlert. run_db. destruct (t_up _); [|done]. by destruct (w_alerts w !! id). Qed.
Lemma GetAlertRule_run id w :
  GetAlertRule id w = (if t_up (w_tables w) then match w_rules w !! id with Some r => Ok r | None => Err ErrAlertRuleNotFound end else Err ErrDB, w).
Proof. unfold GetAlertRule. run_db. destruct (t_up _); [|done]. by destruct (w_rules w !! id). Qed.

Lemma put_rule_cases r w : put_rule r w = (Err ErrDB, w) ∨
  rule_constraints w r = true ∧ put_rule r w = (Ok tt, set_rules <[ar_ID r := r]> w).
Proof. unfold put_rule. run_db. destruct (rule_constraints w r); [by right|by left]. Qed.

#[local] Arguments put_rule : simpl never.
#[local] Arguments GetAlertRule : simpl never.
#[local] Arguments GetAlert : simpl never.

(** The rule that is made from a request. *)
Definition new_rule (id : string) (inp : AlertRuleCreate) : AlertRule :=
  mkRule id (rc_ClusterID inp) (rc_AccountName inp) (rc_Name inp) (if IsEmpty (rc_Message inp) then rc_Name inp else rc_Message inp)
    (rc_Severity inp) (rc_Metric inp) (rc_Comparator inp) (rc_Threshold inp) (default true (rc_Enabled inp)).
Lemma create_cases newID inp w : let r := new_rule (newID (w_next w)) inp in let w1 := set_next S w in
  (∃ e, CreateAlertRule newID inp w = (Err e, w1)) ∨
  w_rules w !! ar_ID r = None ∧ CreateAlertRule newID inp w = (Ok r, set_rules <[ar_ID r := r]> w1).
Proof.
  intros r w1. unfold CreateAlertRule, draw_id. run_db. fold w1. change (mkRule _ _ _ _ _ _ _ _ _ _) with r.
  destruct (t_up (w_tables w)) eqn:Hup; [|left; by eexists].
  destruct (decide (newID (w_next w) ∈ dom (w_rules w))) as [Hd|Hd]; [rewrite bool_decide_eq_true_2 by done; left; by eexists|].
  rewrite bool_decide_eq_false_2 by done. cbn. destruct (put_rule_cases r w1) as [->|[_ ->]]; [left; by eexists|]. right.
  split; [by apply not_elem_of_dom|]. rewrite GetAlertRule_run. cbn. by rewrite Hup, lookup_insert_eq.
Qed.
Lemma update_cases id inp w : (∃ e, UpdateAlertRule id inp w = (Err e, w)) ∨
  ∃ cur, w_rules w !! id = Some cur ∧ let r := apply_update inp cur in
    ((∃ e, UpdateAlertRule id inp w = (Err e, set_rules <[ar_ID r := r]> w) ∧ ar_ID r ≠ id) ∨
     ∃ r', UpdateAlertRule id inp w = (Ok r', set_rules <[ar_ID r := r]> w) ∧ (ar_ID cur = id → r' = r)).
Proof.
  unfold UpdateAlertRule, bind. rewrite GetAlertRule_run. destruct (t_up (w_tables w)) eqn:Hup; [|left; by eexists].
  destruct (w_rules w !! id) as [cur|] eqn:E; [|left; by eexists].
  destruct (put_rule_cases (apply_update inp cur) w) as [->|[_ ->]]; [left; by eexists|]. right. exists cur. split; [done|]. cbv zeta.
  rewrite GetAlertRule_run. cbn [w_tables set_rules w_rules]. rewrite Hup.
  destruct (decide (ar_ID (apply_update inp cur) = id)) as [Hid|Hid].
  - right. exists (apply_update inp cur). split; [|done]. rewrite Hid. by rewrite lookup_insert_eq.
  - right. rewrite lookup_insert_ne, E by done. exists cur. split; [done|]. by intros Hc.
Qed.
Lemma delete_cases id w : (∃ e, DeleteAlertRule id w = (Err e, w)) ∨
  DeleteAlertRule id w = (Ok tt, set_alerts (filter (λ ka, al_RuleID ka.2 ≠ id)) (set_rules (delete id) w)).
Proof.
  unfold DeleteAlertRule. run_db. destruct (t_up _); [|left; by eexists]. destruct (bool_decide _); [by right|left; by eexists].
Qed.
Lemma acknowledge_cases now id actor w : (∃ e, AcknowledgeAlert now id actor w = (Err e, w)) ∨
  ∃ a, w_alerts w !! id = Some a ∧ (AcknowledgeAlert now id actor w = (Ok a, w) ∨
    al_Open a = true ∧ al_AcknowledgedAt a = None ∧
    AcknowledgeAlert now id actor w = (Ok (al_acknowledge now actor a), set_alerts <[id := al_acknowledge now actor a]> w)).
Proof.
  unfold AcknowledgeAlert. run_db. destruct (t_up (w_tables w)) eqn:Hup; [|left; by eexists].
  destruct (w_alerts w !! id) as [a|] eqn:E; [|left; rewrite GetAlert_run, Hup, E; by eexists]. right. exists a. split; [done|].
  destruct (al_Open a); cbn; [|left; by rewrite GetAlert_run, Hup, E].
  case_bool_decide as Ha; [|left; by rewrite GetAlert_run, Hup, E]. right. split; [done|]. split; [done|].
  rewrite GetAlert_run. cbn. by rewrite Hup, lookup_insert_eq.
Qed.

(** * Requests stay within reach *)

Definition shows_alert (d : alert_data) (a : Alert) : Prop :=
  match d with AlertList l _ => a ∈ l | AlertShown b => a = b | _ => False end.
Definition shows_rule (d : alert_data) (r : AlertRule) : Prop :=
  match d with RuleList l => r ∈ l | RuleShown s => r = s | _ => False end.
Definition valid_rule (r : AlertRule) : Prop :=
  ValidMetricName (ar_Metric r) = true ∧ ValidAlertComparator (ar_Comparator r) = true ∧
  ValidAlertSeverity (ar_Severity r) = true ∧ TrimSpace (ar_Name r) ≠ "".
(** A rule is stored under its identifier, and was valid when it was stored. *)
Definition rules_sound (w : World) : Prop := ∀ id r, w_rules w !! id = Some r → ar_ID r = id ∧ valid_rule r.

Section Reach.
Context (newID : nat → string) (dflt now : Z) (actor : User).

(** What a request of the actor may show. *)
Record shows_reached (d : alert_data) : Prop := {
  sr_alerts : ∀ a, shows_alert d a → CanAccessClusterOrAccount actor (al_ClusterID (sa_Row a)) = true;
  sr_rules : ∀ r, shows_rule d r → manages actor r;
}.
(** What it may do to an alert: acknowledge an open one of a cluster it reaches, or
    delete it with its rule. *)
Definition alert_change (w w' : World) (id : string) : Prop :=
  w_alerts w' !! id = w_alerts w !! id ∨
  ∃ a, w_alerts w !! id = Some a ∧
    (CanAccessClusterOrAccount actor (al_ClusterID a) = true ∧ al_Open a = true ∧ al_AcknowledgedAt a = None ∧
       w_alerts w' !! id = Some (al_acknowledge now (u_Username actor) a) ∨
     w_alerts w' !! id = None ∧ w_rules w' !! al_RuleID a = None ∧ ∃ r, w_rules w !! al_RuleID a = Some r ∧ manages actor r).
Record changes_reached (w w' : World) : Prop := {
  cr_rules : ∀ id, w_rules w' !! id = w_rules w !! id ∨
    (∀ r, w_rules w !! id = Some r → manages actor r) ∧ (∀ r, w_rules w' !! id = Some r → manages actor r);
  cr_alerts : ∀ id, alert_change w w' id;
  cr_sound : rules_sound w';
  cr_rest : w_tables w' = w_tables w ∧ w_clusters w' = w_clusters w ∧ w_cache w' = w_cache w ∧ w_jobs w' = w_jobs w ∧ w_sent w' = w_sent w;
}.
Definition reached (w : World) (out : result err alert_answer * World) : Prop :=
  (∃ ans, fst out = Ok ans ∧ shows_reached (aa_Data ans)) ∧ changes_reached w (snd out).

Context (Hactor : sound_actor actor).

Lemma changes_none w : rules_sound w → changes_reached w w.
Proof. intros Hw. split; [by left|by left|done|done]. Qed.
Lemma reached_same w ans : rules_sound w → shows_reached (aa_Data ans) → reached w (Ok ans, w).
Proof. intros Hw Hs. split; [by exists ans|by apply changes_none]. Qed.
Lemma reached_refused w code : rules_sound w → reached w (refused code w).
Proof. intros Hw. by apply reached_same. Qed.
Lemma reached_valid w b k : rules_sound w → (b = true → reached w (k w)) → reached w (valid b k w).
Proof. destruct b; intros Hw Hk; [by apply Hk|by apply reached_refused]. Qed.
Lemma reached_allowed w b k : rules_sound w → (b = true → reached w (k w)) → reached w (allowed b k w).
Proof. destruct b; intros Hw Hk; [by apply Hk|by apply reached_refused]. Qed.
(** After a call that reads. *)
Lemma reached_read {A} (m : AM A) k w r : rules_sound w → m w = (r, w) → (∀ a, r = Ok a → reached w (k a w)) → reached w (or_error m k w).
Proof.
  intros Hw Hm Hk. unfold or_error, bind, attempt. rewrite Hm. destruct r as [a|e]; [by apply Hk|by apply reached_refused].
Qed.
(** After a call that changes something, the state is only read. *)
Lemma reached_write {A} (m : AM A) k w w' r : m w = (r, w') → changes_reached w w' →
  (∀ a, r = Ok a → ∃ ans, k a w' = (Ok ans, w') ∧ shows_reached (aa_Data ans)) → reached w (or_error m k w).
Proof.
  intros Hm Hc Hk. unfold or_error, bind, attempt. rewrite Hm. destruct r as [a|e]; [|split; [eexists; split; [done|]; done|done]].
  destruct (Hk a eq_refl) as (ans & -> & Hs). split; [by exists ans|done].
Qed.
Lemma reached_manager w k : rules_sound w → (CanManageAlertRules actor = true → reached w (k actor w)) →
  reached w (requireManageAlertRules (Some actor) k w).
Proof. intros Hw Hk. by apply reached_allowed. Qed.

(** ** Listings *)

Lemma select_elem w p a : a ∈ select_alerts w p → p (sa_Row a) = true.
Proof.
  unfold select_alerts. rewrite sort_stable_perm. intros ([id row] & -> & [_ Hp]%elem_of_filter_list)%list_elem_of_fmap. done.
Qed.
Lemma take_elem {A} n (l : list A) x : x ∈ take n l → x ∈ l.
Proof. intros Hx. rewrite <- (take_drop n l), elem_of_app. by left. Qed.
Lemma drop_elem {A} n (l : list A) x : x ∈ drop n l → x ∈ l.
Proof. intros Hx. rewrite <- (take_drop n l), elem_of_app. by right. Qed.

Lemma unscoped_sees c : unscoped actor = true → CanAccessClusterOrAccount actor c = true.
Proof. intros Hu. by apply access_or_account, unscoped_reaches. Qed.
Lemma in_clusters_reached a : in_clusters (accessibleClusterIDs actor) a = true → CanAccessClusterOrAccount actor (al_ClusterID a) = true.
Proof using Hactor.
  destruct Hactor as [Hg Hr]. destruct (accessibleClusterIDs actor) as [ids|] eqn:E.
  - destruct ids as [|id ids]; [by apply accessible_not_empty in E|]. cbn [in_clusters]. intros Hin%bool_decide_eq_true. by eapply accessible_reached.
  - intros _. apply unscoped_sees. by destruct Hr as [?|].
Qed.
Lemma ListAlerts_reached w f : (∀ a, filter_matches f a = true → CanAccessClusterOrAccount actor (al_ClusterID a) = true) →
  ∃ r, ListAlerts f w = (r, w) ∧ ∀ l n, r = Ok (l, n) → shows_reached (AlertList l n).
Proof.
  intros Hf. unfold ListAlerts. run_db. destruct (t_up _); [|by eexists]. destruct (Z.leb _ _); [|by eexists]. eexists. split; [done|].
  intros l n [= <- <-]. split; [|done]. cbn. intros a Ha%take_elem%drop_elem%select_elem. by apply Hf.
Qed.

Lemma List_reached w status clusterID severity limit offset : rules_sound w →
  reached w (alerts_List dflt (Some actor) status clusterID severity limit offset w).
Proof using Hactor.
  intros Hw. unfold alerts_List, authenticated. apply reached_valid; [done|intros _]. apply reached_valid; [done|intros _].
  assert (Hlist : ∀ ids, (∀ a, filter_matches (mkFilter status clusterID severity ids (queryInt limit dflt) (queryInt offset 0)) a = true →
      CanAccessClusterOrAccount actor (al_ClusterID a) = true) →
    reached w (or_error (ListAlerts (mkFilter status clusterID severity ids (queryInt limit dflt) (queryInt offset 0)))
       (λ '(l, total), ret (answered 200 (AlertList l total))) w)).
  { intros ids Hids. destruct (ListAlerts_reached w _ Hids) as (r & Hr & Hs). eapply reached_read; [done|exact Hr|].
    intros [l n] ->. apply reached_same; [done|]. by apply Hs. }
  destruct (IsEmpty clusterID) eqn:Ec; cbn [negb].
  - destruct (accessibleClusterIDs actor) as [[|id ids]|] eqn:E; [by apply accessible_not_empty in E| |]; apply Hlist; intros a Ha;
      unfold filter_matches in Ha; cbn [af_ClusterID af_ClusterIDs] in Ha; rewrite Ec in Ha; cbn [negb] in Ha;
      apply in_clusters_reached; rewrite E; by apply andb_true_iff in Ha as [_ ?].
  - apply reached_valid; [done|intros _]. apply reached_allowed; [done|intros Hc]. apply Hlist. intros a Ha.
    unfold filter_matches in Ha. cbn [af_ClusterID] in Ha. rewrite Ec in Ha. cbn [negb] in Ha. apply andb_true_iff in Ha as [_ ->%bool_decide_eq_true]. done.
Qed.
Definition unacknowledged (ids : option (list string)) (a : AlertRow) : bool :=
  al_Open a && bool_decide (al_AcknowledgedAt a = None) && in_clusters ids a.
Lemma ListOpen_run ids w : ListOpenUnacknowledged ids 8 w =
  (if t_up (w_tables w) then Ok (take 8 (select_alerts w (unacknowledged ids)), length (select_alerts w (unacknowledged ids))) else Err ErrDB, w).
Proof. unfold ListOpenUnacknowledged, alerts_online, bind, ret, get. by destruct (t_up (w_tables w)). Qed.
Lemma Summary_reached w : rules_sound w → reached w (OpenSummary (Some actor) w).
Proof using Hactor.
  intros Hw. unfold OpenSummary, authenticated.
  assert (Hlist : reached w (or_error (ListOpenUnacknowledged (accessibleClusterIDs actor) 8) (λ '(l, total), ret (answered 200 (AlertList l total))) w)).
  { eapply reached_read; [done|apply ListOpen_run|]. intros [l n]. destruct (t_up _); [|done]. intros [= <- <-]. apply reached_same; [done|].
    split; [|done]. cbn [aa_Data shows_alert]. intros a Ha%take_elem%select_elem. apply in_clusters_reached. by apply andb_true_iff in Ha as [_ ?]. }
  destruct (accessibleClusterIDs actor) as [[|id ids]|] eqn:E; [by apply accessible_not_empty in E|done|done].
Qed.

(** ** One alert *)

Lemma shown_reached w id a : CanAccessClusterOrAccount actor (al_ClusterID a) = true → shows_reached (AlertShown (show_alert w id a)).
Proof. intros Ha. split; [|done]. by intros b ->. Qed.
Lemma Get_reached w id : rules_sound w → reached w (alerts_Get (Some actor) id w).
Proof.
  intros Hw. unfold alerts_Get, authenticated. apply reached_valid; [done|intros _].
  eapply reached_read; [done|apply GetAlert_run|]. intros a _. apply reached_allowed; [done|intros Ha].
  apply reached_same; [done|]. by apply shown_reached.
Qed.
Lemma Acknowledge_reached w id : rules_sound w → reached w (Acknowledge now (Some actor) id w).
Proof.
  intros Hw. unfold Acknowledge, authenticated. apply reached_valid; [done|intros _].
  eapply reached_read; [done|apply GetAlert_run|]. intros existing Hex. apply reached_allowed; [done|intros Ha].
  destruct (t_up (w_tables w)); [|done]. destruct (w_alerts w !! id) as [ex|] eqn:Ex; [|done]. injection Hex as ->.
  destruct (acknowledge_cases now id (u_Username actor) w) as [[e He]|(a & Ea & [He|(Hopen & Hack & He)])].
  - eapply reached_write; [exact He|by apply changes_none|done].
  - eapply reached_write; [exact He|by apply changes_none|]. intros b [= <-]. eexists. split; [done|]. apply shown_reached. congruence.
  - eapply reached_write; [exact He| |].
    + split; [by left| |done|done]. intros i. destruct (decide (i = id)) as [->|Hne].
      * right. exists a. split; [done|]. left. cbn. rewrite lookup_insert_eq. split; [congruence|done].
      * left. cbn. by rewrite lookup_insert_ne.
    + intros b [= <-]. eexists. split; [done|]. apply shown_reached. cbn. congruence.
Qed.

(** ** Rules *)

Lemma rule_in_reach r : CanManageAlertRules actor = true → canAccessAlertRuleCluster actor (ar_ClusterID r) = true → manages actor r.
Proof using Hactor. intros Hm Hc. apply rule_managed; [apply Hactor|done|done]. Qed.
Lemma rule_shown r : manages actor r → shows_reached (RuleShown r).
Proof. intros Hr. split; [done|]. by intros s ->. Qed.
Lemma filter_rules_reached rules : CanManageAlertRules actor = true → shows_reached (RuleList (filterAlertRulesForActor rules actor)).
Proof using Hactor.
  intros Hm. split; [done|]. intros r. cbn [shows_rule]. unfold filterAlertRulesForActor. destruct (canManageGlobalAlertRules actor) eqn:Hg.
  - intros _. assert (Hu : unscoped actor = true) by (apply global_unscoped; [apply Hactor|done]). split; [done|].
    destruct (decide (ar_ClusterID r = "")); [by left|right]. split; [done|]. by apply unscoped_reaches.
  - intros [_ Hr]%elem_of_filter_list. by apply rule_in_reach.
Qed.
Lemma ListAlertRules_run c b w : ∃ r, ListAlertRules c b w = (r, w).
Proof. unfold ListAlertRules. run_db. destruct (t_up _); by eexists. Qed.
Lemma ListRules_reached w clusterID : rules_sound w → reached w (ListRules (Some actor) clusterID w).
Proof using Hactor.
  intros Hw. unfold ListRules. apply reached_manager; [done|intros Hm]. destruct (ListAlertRules_run clusterID false w) as [r Hr].
  assert (Hl : reached w (or_error (ListAlertRules clusterID false)
    (λ rules, ret (answered 200 (RuleList (filterAlertRulesForActor rules actor)))) w)).
  { eapply reached_read; [done|exact Hr|]. intros rules _. apply reached_same; [done|]. by apply filter_rules_reached. }
  destruct (negb (IsEmpty clusterID)); [|done]. apply reached_valid; [done|intros _]. by apply reached_allowed.
Qed.
Lemma GetRule_reached w id : rules_sound w → reached w (GetRule (Some actor) id w).
Proof using Hactor.
  intros Hw. unfold GetRule. apply reached_manager; [done|intros Hm]. apply reached_valid; [done|intros _].
  eapply reached_read; [done|apply GetAlertRule_run|]. intros r _. apply reached_allowed; [done|intros Hr].
  apply reached_same; [done|]. by apply rule_shown, rule_in_reach.
Qed.
(** A rule is stored. *)
Lemma store_reached w w1 r : rules_sound w → manages actor r → valid_rule r → (∀ old, w_rules w !! ar_ID r = Some old → manages actor old) →
  w_rules w1 = w_rules w → w_alerts w1 = w_alerts w → w_tables w1 = w_tables w ∧ w_clusters w1 = w_clusters w ∧ w_cache w1 = w_cache w ∧ w_jobs w1 = w_jobs w ∧ w_sent w1 = w_sent w →
  changes_reached w (set_rules <[ar_ID r := r]> w1).
Proof.
  intros Hw Hr Hv Hold Er Ea Erest. split; cbn; rewrite ?Er, ?Ea.
  - intros id. destruct (decide (ar_ID r = id)) as [<-|Hne]; [right|left; by rewrite lookup_insert_ne].
    rewrite lookup_insert_eq. split; [done|]. by intros ? [= <-].
  - intros id. left. cbn. by rewrite Ea.
  - intros id s. cbn. rewrite Er. destruct (decide (ar_ID r = id)) as [<-|Hne]; [rewrite lookup_insert_eq; by intros [= <-]|].
    rewrite lookup_insert_ne by done. apply Hw.
  - done.
Qed.
Lemma valid_create id req : validateAlertRuleCreate req = true → valid_rule (new_rule id req).
Proof.
  unfold validateAlertRuleCreate, valid_rule. cbn. destruct (IsEmpty (TrimSpace _)) eqn:Hn; [done|]. apply IsEmpty_false in Hn.
  destruct (ValidMetricName _); [|done]. destruct (ValidAlertComparator _); [|done]. by destruct (ValidAlertSeverity _).
Qed.
Lemma CreateRule_reached w body : rules_sound w → reached w (CreateRule newID (Some actor) body w).
Proof using Hactor.
  intros Hw. unfold CreateRule. apply reached_manager; [done|intros Hm]. destruct body as [req|]; [|by apply reached_refused].
  cbv zeta. set (q := with_defaults req). apply reached_valid; [done|intros Hv]. apply reached_allowed; [done|intros Hc].
  destruct (create_cases newID q w) as [[e He]|[Hnew He]].
  - eapply reached_write; [exact He| |done]. split; [by left|by left|done|done].
  - assert (Hr : manages actor (new_rule (newID (w_next w)) q)) by (by apply rule_in_reach).
    eapply reached_write; [exact He| |].
    + apply store_reached; try done; [by apply valid_create|]. intros old Ho. rewrite Hnew in Ho. done.
    + intros r [= <-]. eexists. split; [done|]. by apply rule_shown.
Qed.
Lemma given_or {A} (p : A → bool) (o : option A) d : if_given p o = true → p d = true → p (default d o) = true.
Proof. by destruct o. Qed.
Lemma valid_update req cur : validateAlertRuleUpdate req = true → valid_rule cur → valid_rule (apply_update req cur).
Proof.
  unfold validateAlertRuleUpdate, valid_rule. rewrite !andb_true_iff. intros [[[[Hme Hco] Hse] _] Hna] (H1 & H2 & H3 & H4). cbn.
  split; [by apply given_or|]. split; [by apply given_or|]. split; [by apply given_or|].
  apply (given_or (λ name, negb (IsEmpty (TrimSpace name))) _ (ar_Name cur)) in Hna; [by apply negb_true_iff, IsEmpty_false in Hna|].
  by apply negb_true_iff, IsEmpty_false.
Qed.
Lemma moved_reached req cur : manages actor cur → may_move actor req = true → manages actor (apply_update req cur).
Proof using Hactor.
  intros [Hm Hc]. unfold may_move. split; [done|]. cbn [apply_update ar_ClusterID].
  destruct (ru_ClearCluster req) eqn:Ecl; cbn [orb] in *.
  - left. split; [done|]. apply global_unscoped; [apply Hactor|done].
  - destruct (ru_ClusterID req) as [id|]; cbn in *; [|done]. destruct (IsEmpty id) eqn:Eid.
    + left. apply IsEmpty_true in Eid. split; [done|]. apply global_unscoped; [apply Hactor|done].
    + right. by apply IsEmpty_false in Eid.
Qed.
Lemma UpdateRule_reached w id body : rules_sound w → reached w (UpdateRule (Some actor) id body w).
Proof using Hactor.
  intros Hw. unfold UpdateRule. apply reached_manager; [done|intros Hm]. apply reached_valid; [done|intros _].
  eapply reached_read; [done|apply GetAlertRule_run|]. intros existing Hex. apply reached_allowed; [done|intros Hc].
  destruct (t_up (w_tables w)); [|done]. destruct (w_rules w !! id) as [ex|] eqn:Ex; [|done]. injection Hex as ->.
  destruct body as [req|]; [|by apply reached_refused]. apply reached_valid; [done|intros Hv]. apply reached_allowed; [done|intros Hmv].
  destruct (Hw _ _ Ex) as [Hid Hex]. assert (Hcur : manages actor existing) by (by apply rule_in_reach).
  destruct (update_cases id req w) as [[e He]|(cur & Ecur & Hcases)]; [eapply reached_write; [exact He|by apply changes_none|done]|].
  rewrite Ex in Ecur. injection Ecur as <-. destruct Hcases as [(e & _ & Hne)|(r & He & Hr)]; [done|].
  rewrite (Hr Hid) in He. eapply reached_write; [exact He| |].
  - apply store_reached; try done; [by apply moved_reached|by apply valid_update|]. cbn. rewrite Hid, Ex. by intros ? [= <-].
  - intros s [= <-]. eexists. split; [done|]. by apply rule_shown, moved_reached.
Qed.
Lemma DeleteRule_reached w id : rules_sound w → reached w (DeleteRule (Some actor) id w).
Proof using Hactor.
  intros Hw. unfold DeleteRule. apply reached_manager; [done|intros Hm]. apply reached_valid; [done|intros _].
  eapply reached_read; [done|apply GetAlertRule_run|]. intros existing Hex. apply reached_allowed; [done|intros Hc].
  destruct (t_up (w_tables w)); [|done]. destruct (w_rules w !! id) as [ex|] eqn:Ex; [|done]. injection Hex as ->.
  assert (Hcur : manages actor existing) by (by apply rule_in_reach).
  destruct (delete_cases id w) as [[e He]|He]; (eapply reached_write; [exact He| |]); [by apply changes_none|done| |intros _ _; by eexists].
  split; cbn.
  - intros i. destruct (decide (id = i)) as [<-|Hne]; [right|left; by rewrite lookup_delete_ne].
    rewrite Ex, lookup_delete_eq. split; [by intros ? [= <-]|done].
  - intros i. unfold alert_change. cbn. destruct (w_alerts w !! i) as [a|] eqn:Ea.
    + destruct (decide (al_RuleID a = id)) as [Hid|Hne].
      * right. exists a. split; [done|]. right. rewrite Hid, lookup_delete_eq. split; [|split; [done|by exists existing]].
        apply map_lookup_filter_None. right. intros b Hb. rewrite Ea in Hb. injection Hb as <-. cbn. by intros Hn.
      * left. by apply map_lookup_filter_Some.
    + left. apply map_lookup_filter_None. by left.
  - intros i r. cbn. rewrite lookup_delete_Some. intros [_ Hr]. by apply Hw.
  - done.
Qed.
End Reach.

(** C34. Whatever is asked of the handlers of alerts: an actor that reaches anything at
    all is shown alerts of the clusters it reaches only, acknowledges none but open
    ones of those, and sees, makes, changes, moves and deletes rules of the clusters
    it manages only, rules of all clusters only if it is confined to none; every
    rule stored is valid, and nothing else changes. *)
Theorem alerts_stay_in_reach newID dflt now actor r w : sound_actor actor → rules_sound w →
  reached now actor w (serve_alerts newID dflt now (Some actor) r w).
Proof.
  intros Ha Hw. destruct r; cbn [serve_alerts].
  - by apply List_reached.
  - by apply Summary_reached.
  - by apply Get_reached.
  - by apply Acknowledge_reached.
  - by apply ListRules_reached.
  - apply reached_manager; [done|intros _]. by apply reached_same.
  - by apply GetRule_reached.
  - by apply CreateRule_reached.
  - by apply UpdateRule_reached.
  - by apply DeleteRule_reached.
Qed.

(** An administrator without access rules whose role was taken away: it reaches no
    cluster, the role check lets it read the alerts, and it is shown those of every
    cluster, because the list of its clusters is nil, which stands for all. *)
Definition demoted : User := {|
  u_ID := "u9"; u_Username := "former"; u_Email := ""; u_OIDCSub := ""; u_Roles := [RoleViewer]; u_AccessRules := None;
  u_Grants := []; u_IsRoot := false; u_SessionVersion := 1; u_CreatedAt := 0 |}.
Lemma unreached_actor_sees_all_alerts newID dflt now w : t_up (w_tables w) = true →
  (∀ c, CanAccessClusterOrAccount demoted c = false) ∧
  rbac_check demoted "GET" "/api/v1/alerts/open-summary" = true ∧
  fst (serve_alerts newID dflt now (Some demoted) ReqOpenSummary w) =
    Ok (answered 200 (AlertList (take 8 (select_alerts w (λ a, al_Open a && bool_decide (al_AcknowledgedAt a = None) && true)))
                                (length (select_alerts w (λ a, al_Open a && bool_decide (al_AcknowledgedAt a = None) && true))))).
Proof.
  intros Hup. split; [done|]. split; [reflexivity|]. cbn [serve_alerts OpenSummary authenticated].
  change (accessibleClusterIDs demoted) with (@None (list string)). unfold or_error, bind, attempt. rewrite ListOpen_run, Hup. reflexivity.
Qed.

(** * Witnesses *)

(** An administrator of one cluster, and a rule and an open alert on it and on another. *)
Definition scoped_admin : User := {|
  u_ID := "u2"; u_Username := "ann"; u_Email := ""; u_OIDCSub := ""; u_Roles := [RoleAdmin];
  u_AccessRules := Some {| ar_ClusterIDs := ["c1"]; ar_AssignableRoles := []; ar_ManageUsers := false; ar_ViewAudit := false; ar_DeleteClusters := false |};
  u_Grants := []; u_IsRoot := false; u_SessionVersion := 1; u_CreatedAt := 0 |}.
Definition open_on (c : string) : AlertRow :=
  mkAlert "r1" c "" true "warning" "server.cpu_percent" "High CPU" (f64 95) (f64 90) 1 1 None None "" None.
Definition watched : World :=
  mkWorld empty_tables {[ "c1" := "prod"; "c2" := "test" ]} {[ "r1" := rule_cpu; "r2" := rule_conns ]}
    {[ "a1" := open_on "c1"; "a2" := open_on "c2" ]} 0 ∅ true [] [].
Lemma watched_sound : rules_sound watched.
Proof.
  intros id r Hr. cbn in Hr. apply lookup_insert_Some in Hr as [[<- <-]|[_ Hr]]; [vm_compute; done|].
  apply lookup_singleton_Some in Hr as [<- <-]. vm_compute. done.
Qed.
Lemma alerts_stay_in_reach_witness :
  reached 5 scoped_admin watched (serve_alerts alert_id 50 5 (Some scoped_admin) ReqOpenSummary watched) ∧
  fst (serve_alerts alert_id 50 5 (Some scoped_admin) ReqOpenSummary watched) =
    Ok (answered 200 (AlertList [mkShown "a1" (open_on "c1") "High CPU"] 1)).
Proof.
  split; [|vm_compute; reflexivity]. apply alerts_stay_in_reach; [|exact watched_sound].
  split; [intros g Hg; by apply not_elem_of_nil in Hg|right; discriminate].
Defined.
