(* ===== verification/NatsManager.v ===== *)
(** The connections to the clusters: internal/nats/{manager,session,connection}.go.

    The manager keeps one client per cluster behind a mutex; requests, the
    sweeper and the callbacks of the NATS library run concurrently.  An operation
    is a program of atomic actions (one critical section, one call of the
    library), and a run interleaves programs with the events of the library: a
    connection drops, comes back, or reports that it was closed.

    Status listeners, the times of a status, server names and metrics are left
    out. *)

From S2P Require Export Prelude.
From S2P Require Import GoStrings.

(** * State *)

Definition ms : Z := 1000000.
Definition defaultClientCacheTTL : Z := 5 * 60 * 1000 * ms.
Definition healthBackoffBase : Z := 500 * ms.
Definition healthBackoffMax : Z := 30 * 1000 * ms.
Definition healthProbeMinGap : Z := 2 * 1000 * ms.

(** The credentials of a cluster, by their version in the database. *)
Abbreviation Cluster := nat.
Record cachedCredentials := mkCreds { cc_cluster : Cluster; cc_fetchedAt : Z }.
(** Times that are not set are [None]. *)
Record healthBackoff := mkHealth { hb_lastFailAt : option Z; hb_lastProbeAt : option Z; hb_failCount : Z }.
Record connectionState := mkState { cs_connected : bool; cs_jetStreamOK : bool; cs_cached : bool; cs_reconnects : Z }.

(** A client is its number; [m_used] is the last use of its cache entry.  [m_alive]
    and [m_closed] are what the library knows, [m_db] what the database holds;
    [m_flights] and [m_results] are the singleflight group. *)
Record manager := mkManager {
  m_cache : gmap string nat;
  m_used : gmap nat Z;
  m_creds : gmap string cachedCredentials;
  m_status : gmap string connectionState;
  m_gens : gmap string Z;
  m_health : gmap string healthBackoff;
  m_flights : gmap string nat;
  m_results : gmap nat (option nat);
  m_nextFlight : nat;
  m_of : gmap nat (string * Cluster);   (* every client dialed, and with what *)
  m_alive : gset nat;
  m_closed : gset nat;
  m_db : gmap string Cluster;
  m_now : Z;
}.

Definition set_cache f m := mkManager (f (m_cache m)) (m_used m) (m_creds m) (m_status m) (m_gens m)
  (m_health m) (m_flights m) (m_results m) (m_nextFlight m) (m_of m) (m_alive m) (m_closed m) (m_db m) (m_now m).
Definition set_used f m := mkManager (m_cache m) (f (m_used m)) (m_creds m) (m_status m) (m_gens m)
  (m_health m) (m_flights m) (m_results m) (m_nextFlight m) (m_of m) (m_alive m) (m_closed m) (m_db m) (m_now m).
Definition set_creds f m := mkManager (m_cache m) (m_used m) (f (m_creds m)) (m_status m) (m_gens m)
  (m_health m) (m_flights m) (m_results m) (m_nextFlight m) (m_of m) (m_alive m) (m_closed m) (m_db m) (m_now m).
Definition set_status f m := mkManager (m_cache m) (m_used m) (m_creds m) (f (m_status m)) (m_gens m)
  (m_health m) (m_flights m) (m_results m) (m_nextFlight m) (m_of m) (m_alive m) (m_closed m) (m_db m) (m_now m).
Definition set_gens f m := mkManager (m_cache m) (m_used m) (m_creds m) (m_status m) (f (m_gens m))
  (m_health m) (m_flights m) (m_results m) (m_nextFlight m) (m_of m) (m_alive m) (m_closed m) (m_db m) (m_now m).
Definition set_health f m := mkManager (m_cache m) (m_used m) (m_creds m) (m_status m) (m_gens m)
  (f (m_health m)) (m_flights m) (m_results m) (m_nextFlight m) (m_of m) (m_alive m) (m_closed m) (m_db m) (m_now m).
Definition set_flights flights results next m := mkManager (m_cache m) (m_used m) (m_creds m) (m_status m) (m_gens m)
  (m_health m) flights results next (m_of m) (m_alive m) (m_closed m) (m_db m) (m_now m).
Definition set_library of_ alive closed m := mkManager (m_cache m) (m_used m) (m_creds m) (m_status m) (m_gens m)
  (m_health m) (m_flights m) (m_results m) (m_nextFlight m) of_ alive closed (m_db m) (m_now m).
Definition set_world db now m := mkManager (m_cache m) (m_used m) (m_creds m) (m_status m) (m_gens m)
  (m_health m) (m_flights m) (m_results m) (m_nextFlight m) (m_of m) (m_alive m) (m_closed m) db now.

Definition NewManager (db : gmap string Cluster) (now : Z) : manager :=
  mkManager ∅ ∅ ∅ ∅ ∅ ∅ ∅ ∅ 0 ∅ ∅ ∅ db now.

Definition IsAlive (c : nat) (m : manager) : bool := bool_decide (c ∈ m_alive m).
Definition lastUsed (c : nat) (m : manager) : Z := default 0%Z (m_used m !! c).
Definition touch (c : nat) (m : manager) : manager := set_used <[c := m_now m]> m.

Definition sessionGeneration (clusterID : string) (m : manager) : Z := default 0%Z (m_gens m !! clusterID).
Definition bumpSessionGenerationLocked (clusterID : string) (m : manager) : manager :=
  set_gens <[clusterID := u64 (sessionGeneration clusterID m + 1)]> m.

Definition new_state : connectionState := mkState false false false 0.
Definition ensureState (clusterID : string) (m : manager) : connectionState :=
  default new_state (m_status m !! clusterID).

(** * Programs *)

(** A handle on a cached client. *)
Record Session := mkSession { ss_clusterID : string; ss_client : nat; ss_gen : Z }.

Inductive session_error := ErrSessionClosed | ErrSessionInvalidated | ErrSessionUnhealthy | ErrNoConnection.
Inductive outcome := RUnit | RClient (c : nat) | RSession (s : Session) | RErr (e : session_error).

(** [PAtomic f k]: the state changes by [f]; [k] goes on with what the section read.
    A probe of a client ends well, with an error, or hangs. *)
Inductive probe_answer := ProbeOk | ProbeError | ProbeHung.
Inductive prog :=
  | PDone (r : outcome)
  | PAtomic (f : manager → manager) (k : manager → prog)
  | PDial (clusterID : string) (cluster : Cluster) (k : option nat → prog)
  | PClose (c : nat) (k : prog)
  | PAccountInfo (c : nat) (k : probe_answer → prog)
  | PFetch (clusterID : string) (k : option Cluster → prog)
  | PWait (flight : nat) (k : option nat → prog).

Definition PRead (k : manager → prog) : prog := PAtomic id k.
Definition PDo (f : manager → manager) (k : prog) : prog := PAtomic f (λ _, k).
Fixpoint PCloseAll (cs : list nat) (k : prog) : prog :=
  match cs with [] => k | c :: cs => PClose c (PCloseAll cs k) end.

Section Manager.
(** [clientCacheTTL]. *)
Context (ttl : Z).

(** ** Eviction *)

Definition lost (st : connectionState) : connectionState :=
  mkState false false (cs_cached st) (cs_reconnects st).

Definition evict_section (clusterID : string) (m : manager) : manager :=
  let m := set_cache (delete clusterID) m in
  let m := set_creds (delete clusterID) m in
  let m := bumpSessionGenerationLocked clusterID m in
  set_status (delete clusterID) m.
Definition evict (clusterID : string) (k : prog) : prog :=
  PAtomic (evict_section clusterID) (λ m, PCloseAll (option_list (m_cache m !! clusterID)) k).

Definition Touch (clusterID : string) (k : prog) : prog :=
  PRead (λ m, match m_cache m !! clusterID with
              | Some c => PDo (touch c) k
              | None => k
              end).

Definition bump_all (ids : list string) (m : manager) : manager := foldr bumpSessionGenerationLocked m ids.

Definition Stop : prog :=
  PAtomic (λ m,
      let ids := (map_to_list (m_cache m)).*1 in
      set_health (λ _, ∅) (set_creds (λ _, ∅) (bump_all ids (set_cache (λ _, ∅) m))))
    (λ m, PCloseAll (map_to_list (m_cache m)).*2 (PDone RUnit)).

(** The entries the sweeper drops. *)
Definition expired (m : manager) : list (string * nat) :=
  List.filter (λ e, (ttl <=? m_now m - lastUsed e.2 m)%Z || negb (IsAlive e.2 m)) (map_to_list (m_cache m)).
Definition drop_keys {A} (ids : list string) (g : gmap string A) : gmap string A :=
  filter (λ e, e.1 ∉ ids) g.
Definition sweepExpired : prog :=
  PAtomic (λ m,
      let ids := (expired m).*1 in
      let m' := set_status (drop_keys ids) (bump_all ids (set_cache (drop_keys ids) m)) in
      set_creds (filter (λ e, (m_now m - cc_fetchedAt e.2 < ttl)%Z)) m')
    (λ m, PCloseAll (expired m).*2 (PDone RUnit)).

(** ** Connecting *)

Definition clusterCredentials (clusterID : string) (k : option Cluster → prog) : prog :=
  PRead (λ m,
    match m_creds m !! clusterID with
    | Some e => if (m_now m - cc_fetchedAt e <? ttl)%Z then k (Some (cc_cluster e)) else
        PFetch clusterID (λ r, match r with
          | None => k None
          | Some cluster => PAtomic (λ m, set_creds <[clusterID := mkCreds cluster (m_now m)]> m)
                              (λ _, k (Some cluster))
          end)
    | None =>
        PFetch clusterID (λ r, match r with
          | None => k None
          | Some cluster => PAtomic (λ m, set_creds <[clusterID := mkCreds cluster (m_now m)]> m)
                              (λ _, k (Some cluster))
          end)
    end).

(** The cached client, when its entry is fresh. *)
Definition fresh_client (clusterID : string) (m : manager) : option nat :=
  match m_cache m !! clusterID with
  | Some c => if (m_now m - lastUsed c m <? ttl)%Z then Some c else None
  | None => None
  end.
(** Reuse it when it is alive, evict it when it is not. *)
Definition reuse (clusterID : string) (found : nat → prog) (other : prog) : prog :=
  PRead (λ m,
    match fresh_client clusterID m with
    | Some c => if IsAlive c m then PDo (touch c) (found c) else evict clusterID other
    | None => other
    end).

(** What a probe found: the connection is up, JetStream answers. *)
Definition mark_connected (clusterID : string) (alive jsOK : bool) (m : manager) : manager :=
  set_status <[clusterID := mkState alive jsOK true (cs_reconnects (ensureState clusterID m))]> m.
Definition markConnected (clusterID : string) (c : nat) (k : prog) : prog :=
  PRead (λ m, let alive := IsAlive c m in
    PAccountInfo c (λ a,
      PDo (mark_connected clusterID alive (match a with ProbeOk => true | _ => false end)) k)).

Definition install (clusterID : string) (c : nat) (m : manager) : manager :=
  let m' := match m_cache m !! clusterID with
            | Some _ => bumpSessionGenerationLocked clusterID m
            | None => m
            end in
  set_cache <[clusterID := c]> (touch c m').

Definition dial_body (clusterID : string) (cluster : Cluster) (k : option nat → prog) : prog :=
  reuse clusterID (λ c, k (Some c))
    (PDial clusterID cluster (λ r, match r with
      | None => k None
      | Some c =>
          PAtomic (install clusterID c) (λ m,
            PCloseAll (option_list (m_cache m !! clusterID))
              (markConnected clusterID c (k (Some c))))
      end)).

(** [m.dial.Do]: one dial per cluster at a time; the others get its result. *)
Definition single_flight (key : string) (body : (option nat → prog) → prog) (k : option nat → prog) : prog :=
  PAtomic (λ m, match m_flights m !! key with
                | Some _ => m
                | None => set_flights (<[key := m_nextFlight m]> (m_flights m)) (m_results m) (S (m_nextFlight m)) m
                end)
    (λ m, match m_flights m !! key with
          | Some fl => PWait fl k
          | None => body (λ r, PDo (λ m', set_flights (delete key (m_flights m'))
                                  (<[m_nextFlight m := r]> (m_results m')) (m_nextFlight m') m') (k r))
          end).

Definition connect (clusterID : string) (cluster : Cluster) (k : option nat → prog) : prog :=
  let dial := single_flight clusterID (dial_body clusterID cluster) k in
  reuse clusterID (λ c, k (Some c)) dial.

Definition Get (clusterID : string) (k : option nat → prog) : prog :=
  clusterCredentials clusterID (λ r, match r with
    | None => k None
    | Some cluster => connect clusterID cluster k
    end).

(** ** Health *)

Fixpoint backoff_loop (n : nat) (d : Z) : Z :=
  match n with
  | 0 => d
  | S n => if (d <? healthBackoffMax)%Z then backoff_loop n (d * 2) else d
  end.
Definition healthBackoffDuration (failCount : Z) : Z :=
  if (failCount <=? 0)%Z then 0%Z
  else let d := backoff_loop (Z.to_nat (failCount - 1)) healthBackoffBase in
       if (healthBackoffMax <? d)%Z then healthBackoffMax else d.

Definition health_of (clusterID : string) (m : manager) : healthBackoff :=
  default (mkHealth None None 0) (m_health m !! clusterID).

Definition recordHealthFailure (clusterID : string) (m : manager) : manager :=
  set_health <[clusterID := mkHealth (Some (m_now m)) (Some (m_now m))
    (hb_failCount (health_of clusterID m) + 1)]> m.
Definition recordHealthSuccess (clusterID : string) (m : manager) : manager :=
  match m_health m !! clusterID with
  | Some _ => set_health <[clusterID := mkHealth None (Some (m_now m)) 0]> m
  | None => m
  end.

Definition unhealthy (clusterID : string) (k : option session_error → prog) : prog :=
  PDo (recordHealthFailure clusterID) (evict clusterID (k (Some ErrSessionUnhealthy))).

(** The request's own deadline is not reached while it probes. *)
Definition probeHealth (clusterID : string) (c : nat) (k : option session_error → prog) : prog :=
  PRead (λ m,
    if negb (IsAlive c m) then unhealthy clusterID k
    else PAccountInfo c (λ a,
      PRead (λ m,
        let alive := IsAlive c m in
        PDo (λ m, mark_connected clusterID alive (match a with ProbeOk => true | _ => false end)
              (set_health <[clusterID := mkHealth (hb_lastFailAt (health_of clusterID m)) (Some (m_now m))
                 (hb_failCount (health_of clusterID m))]> m))
          (if negb alive || match a with ProbeHung => true | _ => false end
           then unhealthy clusterID k
           else PDo (recordHealthSuccess clusterID) (k None))))).

Definition since (now : Z) (t : option Z) (d : Z) : bool :=
  match t with Some t => (now - t <? d)%Z | None => false end.

(** Within the backoff after a failure, or shortly after a probe, the client is
    only asked whether it is up. *)
Definition probeOnAcquire (clusterID : string) (c : nat) (k : option session_error → prog) : prog :=
  PRead (λ m,
    let hb := health_of clusterID m in
    let light := PRead (λ m, if negb (IsAlive c m) then unhealthy clusterID k else k None) in
    if (0 <? hb_failCount hb)%Z && since (m_now m) (hb_lastFailAt hb) (healthBackoffDuration (hb_failCount hb))
    then light
    else if since (m_now m) (hb_lastProbeAt hb) healthProbeMinGap then light
    else probeHealth clusterID c k).

(** A client found dead is dropped, and dialed once more. *)
Definition ping (clusterID : string) : prog :=
  let report c := PAccountInfo c (λ _, PDone (RClient c)) in
  Get clusterID (λ r, match r with
    | None => PDone (RErr ErrNoConnection)
    | Some c => PRead (λ m,
        if IsAlive c m then report c
        else evict clusterID (Get clusterID (λ r, match r with
          | None => PDone (RErr ErrNoConnection)
          | Some c => PRead (λ m, if IsAlive c m then report c else PDone (RErr ErrNoConnection))
          end)))
    end).

(** ** Sessions *)

Definition newSession (clusterID : string) (c : nat) (k : Session → prog) : prog :=
  PRead (λ m, k (mkSession clusterID c (sessionGeneration clusterID m))).

Definition acquire (clusterID : string) (k : outcome → prog) : prog :=
  Get clusterID (λ r, match r with
    | None => k (RErr ErrNoConnection)
    | Some c =>
        probeOnAcquire clusterID c (λ e, match e with
          | Some e => k (RErr e)
          | None => Touch clusterID (newSession clusterID c (λ s, k (RSession s)))
          end)
    end).

(** [closed]: the handle was closed. *)
Definition ensureValid (closed : bool) (s : Session) (m : manager) : option session_error :=
  if closed then Some ErrSessionClosed
  else if negb (sessionGeneration (ss_clusterID s) m =? ss_gen s)%Z then Some ErrSessionInvalidated
  else None.

Definition session_Client (closed : bool) (s : Session) : prog :=
  PRead (λ m, match ensureValid closed s m with
    | Some e => PDone (RErr e)
    | None => Touch (ss_clusterID s) (PDone (RClient (ss_client s)))
    end).
Definition session_Healthy (closed : bool) (s : Session) : prog :=
  PRead (λ m, match ensureValid closed s m with
    | Some e => PDone (RErr e)
    | None => probeHealth (ss_clusterID s) (ss_client s) (λ e, match e with
        | Some e => PDone (RErr e)
        | None => Touch (ss_clusterID s) (PDone RUnit)
        end)
    end).

(** ** The callbacks of a connection *)

Definition markDisconnected (clusterID : string) : prog :=
  PDo (λ m, set_status <[clusterID := lost (ensureState clusterID m)]> m) (PDone RUnit).
Definition markReconnected (clusterID : string) (c : nat) : prog :=
  PDo (λ m, let st := ensureState clusterID m in
         set_status <[clusterID := mkState (IsAlive c m) (cs_jetStreamOK st) (cs_cached st)
           (u64 (cs_reconnects st + 1))]> m) (PDone RUnit).
Definition OnClosed (clusterID : string) : prog := evict clusterID (PDone RUnit).

Definition Status (clusterID : string) : prog :=
  clusterCredentials clusterID (λ r, match r with
    | None => PDone (RErr ErrNoConnection)
    | Some _ =>
        Get clusterID (λ r, match r with
          | None => PDo (λ m, set_status <[clusterID := lost (ensureState clusterID m)]> m) (PDone RUnit)
          | Some c => markConnected clusterID c (PDone RUnit)
          end)
    end).
End Manager.

(** * Runs *)

(** What the library or the database answers to the step of a program. *)
Inductive answer := AYes | ANo | AHung.

(** One step of a program: the state and the program that is left; [None] when
    it has ended or is blocked.  Closing a client twice does nothing. *)
Definition step (a : answer) (p : prog) (m : manager) : option (manager * prog) :=
  match p with
  | PDone _ => None
  | PAtomic f k => Some (f m, k m)
  | PDial clusterID cluster k =>
      match a with
      | AYes =>
          let c := fresh (dom (m_of m)) in
          Some (set_library (<[c := (clusterID, cluster)]> (m_of m)) ({[c]} ∪ m_alive m) (m_closed m) m, k (Some c))
      | _ => Some (m, k None)
      end
  | PClose c k => Some (set_library (m_of m) (m_alive m ∖ {[c]}) ({[c]} ∪ m_closed m) m, k)
  | PAccountInfo c k => Some (m, k (match a with AYes => ProbeOk | ANo => ProbeError | AHung => ProbeHung end))
  | PFetch clusterID k => Some (m, k (match a with AYes => m_db m !! clusterID | _ => None end))
  | PWait fl k => match m_results m !! fl with Some r => Some (m, k r) | None => None end
  end.

(** The entry points. *)
Inductive call :=
  | CallSession (clusterID : string)
  | CallClient (closed : bool) (s : Session)
  | CallHealthy (closed : bool) (s : Session)
  | CallStatus (clusterID : string)
  | CallTest (clusterID : string)
  | CallEvict (clusterID : string)
  | CallSweep
  | CallStop.

Definition program (ttl : Z) (c : call) : prog :=
  match c with
  | CallSession id => acquire ttl id PDone
  | CallClient closed s => session_Client closed s
  | CallHealthy closed s => session_Healthy closed s
  | CallStatus id => Status ttl id
  | CallTest id => ping ttl id
  | CallEvict id => evict id (PDone RUnit)
  | CallSweep => sweepExpired ttl
  | CallStop => Stop
  end.

(** The manager, the programs that were started, and the clients whose [OnClosed]
    has been called. *)
Record world := mkWorld { w_m : manager; w_ps : list prog; w_hooked : gset nat }.
Definition start (db : gmap string Cluster) (now : Z) : world := mkWorld (NewManager db now) [] ∅.

Inductive event :=
  | ECall (c : call)
  | EStep (i : nat) (a : answer)
  | EDrop (c : nat)       (* the connection of a client is lost *)
  | EBack (c : nat)       (* and comes back *)
  | EGone (c : nat)       (* the library gives the connection up *)
  | EHook (c : nat)       (* the library calls OnClosed of a closed client *)
  | ETime (d : N)
  | EDb (clusterID : string) (cluster : option Cluster).

Definition with_m (m : manager) (w : world) : world := mkWorld m (w_ps w) (w_hooked w).
Definition spawn (p : prog) (w : world) : world := mkWorld (w_m w) (w_ps w ++ [p]) (w_hooked w).

(** An event that is not possible leaves the world as it is. *)
Definition world_step (ttl : Z) (e : event) (w : world) : world :=
  let m := w_m w in
  let library of_ alive closed := with_m (set_library of_ alive closed m) w in
  match e with
  | ECall c => spawn (program ttl c) w
  | EStep i a =>
      match w_ps w !! i with
      | Some p => match step a p m with
                  | Some (m', p') => mkWorld m' (<[i := p']> (w_ps w)) (w_hooked w)
                  | None => w
                  end
      | None => w
      end
  | EDrop c =>
      match m_of m !! c with
      | Some (id, _) => if decide (c ∈ m_alive m)
                   then spawn (markDisconnected id) (library (m_of m) (m_alive m ∖ {[c]}) (m_closed m)) else w
      | None => w
      end
  | EBack c =>
      match m_of m !! c with
      | Some (id, _) => if decide (c ∈ m_closed m) then w
                   else spawn (markReconnected id c) (library (m_of m) ({[c]} ∪ m_alive m) (m_closed m))
      | None => w
      end
  | EGone c =>
      match m_of m !! c with
      | Some _ => library (m_of m) (m_alive m ∖ {[c]}) ({[c]} ∪ m_closed m)
      | None => w
      end
  | EHook c =>
      match m_of m !! c with
      | Some (id, _) => if decide (c ∈ m_closed m ∧ c ∉ w_hooked w)
                   then mkWorld m (w_ps w ++ [OnClosed id]) ({[c]} ∪ w_hooked w) else w
      | None => w
      end
  | ETime d => with_m (set_world (m_db m) (m_now m + Z.of_N d)%Z m) w
  | EDb id r => with_m (set_world (partial_alter (λ _, r) id (m_db m)) (m_now m) m) w
  end.

Definition run (ttl : Z) (w : world) (es : list event) : world := foldl (λ w e, world_step ttl e w) w es.

Definition ended (p : prog) : bool := match p with PDone _ => true | _ => false end.
(** Nothing is under way. *)
Definition quiet (w : world) : bool := forallb ended (w_ps w).
(** What the call started [i]-th gave. *)
Definition result (i : nat) (w : world) : option outcome :=
  match w_ps w !! i with Some (PDone r) => Some r | _ => None end.
