(* ===== verification/NatsManagerFacts.v ===== *)
(** What the connection manager keeps under every interleaving: no client that was
    dialed is lost, a handle does not outlive the client it was given for, and no
    call waits for a dial that nobody makes; the backoff of the health probes;
    and the runs in which closing a connection goes wrong. *)

From S2P Require Import Prelude GoStrings NatsManager.

(** * What a program promises *)

(** The program still holds the client [c] of [clusterID]: it will close it, or put
    it into the cache. *)
Inductive owes (clusterID : string) (c : nat) : prog → Prop :=
  | owes_close k : owes clusterID c (PClose c k)
  | owes_later c' k : owes clusterID c k → owes clusterID c (PClose c' k)
  | owes_install f k : (∀ m, m_cache (f m) !! clusterID = Some c) → owes clusterID c (PAtomic f k).

(** Every way the program can go publishes the result of the flight, and it waits
    for nobody on the way. *)
Inductive finishes (fl : nat) : prog → Prop :=
  | finishes_now f k : (∀ m, is_Some (m_results (f m) !! fl)) → finishes fl (PAtomic f k)
  | finishes_atomic f k : (∀ m, finishes fl (k m)) → finishes fl (PAtomic f k)
  | finishes_dial id cl k : (∀ r, finishes fl (k r)) → finishes fl (PDial id cl k)
  | finishes_close c k : finishes fl k → finishes fl (PClose c k)
  | finishes_info c k : (∀ r, finishes fl (k r)) → finishes fl (PAccountInfo c k)
  | finishes_fetch id k : (∀ r, finishes fl (k r)) → finishes fl (PFetch id k).

(** What a section does to the entry of one cluster. *)
Inductive entry_change (id : string) (m m' : manager) (p : prog) : Prop :=
  | entry_same : m_cache m' !! id = m_cache m !! id → sessionGeneration id m' = sessionGeneration id m →
                 entry_change id m m' p
  | entry_filled : m_cache m !! id = None → sessionGeneration id m' = sessionGeneration id m →
                   entry_change id m m' p
  | entry_left : sessionGeneration id m' = u64 (sessionGeneration id m + 1) →
                 (∀ c, m_cache m !! id = Some c → owes id c p) → entry_change id m m' p.

Definition waits (p : prog) : option nat := match p with PWait fl _ => Some fl | _ => None end.

(** What it does to the flights, [p] being the program after it. *)
Record flight_change (m m' : manager) (p : prog) : Prop := mkFlightChange {
  fc_results : ∀ fl, is_Some (m_results m !! fl) → is_Some (m_results m' !! fl);
  fc_flights : ∀ key fl, m_flights m' !! key = Some fl → m_flights m !! key = Some fl ∨ finishes fl p;
  fc_waits : ∀ fl, waits p = Some fl → ∃ key, m_flights m !! key = Some fl;
}.

Record section_ok (m m' : manager) (p : prog) : Prop := mkSectionOk {
  so_of : m_of m' = m_of m;
  so_closed : m_closed m' = m_closed m;
  so_entry : ∀ id, entry_change id m m' p;
  so_flight : flight_change m m' p;
}.

Definition ready (p : prog) : Prop := waits p = None.

Fixpoint safe (p : prog) : Prop :=
  match p with
  | PDone _ => True
  | PAtomic f k => ∀ m, section_ok m (f m) (k m) ∧ safe (k m)
  | PDial id _ k => (∀ c, owes id c (k (Some c))) ∧ ∀ r, safe (k r) ∧ ready (k r)
  | PClose _ k => safe k ∧ ready k
  | PAccountInfo _ k => ∀ r, safe (k r) ∧ ready (k r)
  | PFetch _ k => ∀ r, safe (k r) ∧ ready (k r)
  | PWait _ k => ∀ r, safe (k r) ∧ ready (k r)
  end.
(** [safe], and it does not begin by waiting. *)
Definition good (p : prog) : Prop := safe p ∧ ready p.

(** ** Sections *)

(** A section that leaves the cache, the generations and the flights alone. *)
Record frame (m m' : manager) : Prop := mkFrame {
  fr_cache : m_cache m' = m_cache m; fr_gens : m_gens m' = m_gens m; fr_of : m_of m' = m_of m;
  fr_closed : m_closed m' = m_closed m; fr_flights : m_flights m' = m_flights m;
  fr_results : m_results m' = m_results m;
}.

Lemma flight_frame (m m' : manager) (p : prog) :
  m_flights m' = m_flights m → m_results m' = m_results m → ready p → flight_change m m' p.
Proof.
  intros Hf Hr Hp. constructor; [by rewrite Hr|rewrite Hf; by left|]. unfold ready in Hp. congruence.
Qed.

Lemma frame_ok (m m' : manager) (p : prog) : frame m m' → ready p → section_ok m m' p.
Proof.
  intros [] Hp. constructor; [done..| |by apply flight_frame].
  intros id. apply entry_same; [congruence|]. unfold sessionGeneration. congruence.
Qed.

Lemma good_read (k : manager → prog) : (∀ m, good (k m)) → good (PRead k).
Proof. intros Hk. split; [|done]. intros m. destruct (Hk m). split; [by apply frame_ok|done]. Qed.

Lemma good_do (f : manager → manager) (k : prog) : (∀ m, frame m (f m)) → good k → good (PDo f k).
Proof. intros Hf [? ?]. split; [|done]. intros m. split; [by apply frame_ok|done]. Qed.

Lemma good_close_all (cs : list nat) (k : prog) : good k → good (PCloseAll cs k).
Proof. intros Hk. induction cs as [|c cs IH]; [done|]. split; [exact IH|done]. Qed.

Lemma owes_close_all (id : string) (c : nat) (cs : list nat) (k : prog) : c ∈ cs → owes id c (PCloseAll cs k).
Proof. induction 1; simpl; by constructor. Qed.

Lemma good_fetch (id : string) (k : option Cluster → prog) : (∀ r, good (k r)) → good (PFetch id k).
Proof. done. Qed.

Lemma good_info (c : nat) (k : probe_answer → prog) : (∀ r, good (k r)) → good (PAccountInfo c k).
Proof. done. Qed.

Lemma good_done (r : outcome) : good (PDone r).
Proof. done. Qed.

Create HintDb manager.
#[export] Hint Resolve good_read good_do good_close_all good_fetch good_info good_done : manager.

Ltac framed := intros; constructor; reflexivity.

(** ** Generations *)

Lemma bump_frame (id : string) (m : manager) :
  m_cache (bumpSessionGenerationLocked id m) = m_cache m ∧ m_of (bumpSessionGenerationLocked id m) = m_of m ∧
  m_closed (bumpSessionGenerationLocked id m) = m_closed m ∧
  m_flights (bumpSessionGenerationLocked id m) = m_flights m ∧
  m_results (bumpSessionGenerationLocked id m) = m_results m.
Proof. done. Qed.

Lemma bump_all_frame (ids : list string) (m : manager) :
  m_cache (bump_all ids m) = m_cache m ∧ m_of (bump_all ids m) = m_of m ∧
  m_closed (bump_all ids m) = m_closed m ∧ m_flights (bump_all ids m) = m_flights m ∧
  m_results (bump_all ids m) = m_results m.
Proof. by induction ids. Qed.

Lemma bump_generation (id id' : string) (m : manager) :
  sessionGeneration id' (bumpSessionGenerationLocked id m)
  = if decide (id = id') then u64 (sessionGeneration id m + 1) else sessionGeneration id' m.
Proof.
  unfold bumpSessionGenerationLocked, sessionGeneration. simpl. case_decide as E.
  - subst. by rewrite lookup_insert_eq.
  - by rewrite lookup_insert_ne.
Qed.

Lemma bump_all_generation (ids : list string) (id : string) (m : manager) : NoDup ids →
  sessionGeneration id (bump_all ids m)
  = if decide (id ∈ ids) then u64 (sessionGeneration id m + 1) else sessionGeneration id m.
Proof.
  induction 1 as [|i ids Hi Hnd IH]; [done|]. simpl. rewrite bump_generation, (decide_ext (id ∈ i :: ids) (id = i ∨ id ∈ ids)) by apply elem_of_cons.
  destruct (decide (i = id)) as [->|Hne].
  - fold (bump_all ids m). assert (E : sessionGeneration id (bump_all ids m) = sessionGeneration id m).
    { rewrite IH. by case_decide. }
    rewrite E. rewrite decide_True; [done|by left].
  - fold (bump_all ids m). rewrite IH. repeat case_decide; naive_solver.
Qed.

(** ** The programs of the manager *)

Lemma evict_good (id : string) (k : prog) : good k → good (evict id k).
Proof.
  intros Hk. split; [|done]. intros m. cbv beta.
  assert (Hp : good (PCloseAll (option_list (m_cache m !! id)) k)) by auto with manager.
  split; [|apply Hp]. constructor; [done..| |apply flight_frame; [done..|apply Hp]].
  intros id'. unfold evict_section. destruct (decide (id = id')) as [->|Hne].
  - apply entry_left.
    + change (sessionGeneration id' (bumpSessionGenerationLocked id' m) = u64 (sessionGeneration id' m + 1)).
      by rewrite bump_generation, decide_True.
    + intros c ->. apply owes_close_all. by left.
  - apply entry_same.
    + simpl. by rewrite lookup_delete_ne.
    + change (sessionGeneration id' (bumpSessionGenerationLocked id m) = sessionGeneration id' m).
      by rewrite bump_generation, decide_False.
Qed.
#[export] Hint Resolve evict_good : manager.

Lemma Touch_good (id : string) (k : prog) : good k → good (Touch id k).
Proof.
  intros Hk. apply good_read. intros m. destruct (m_cache m !! id); [|done]. apply good_do; [framed|done].
Qed.
#[export] Hint Resolve Touch_good : manager.

(** Dropping some of the entries and closing their clients. *)
Lemma drop_ok (ids : list string) (cs : list nat) (m m' : manager) (k : prog) :
  NoDup ids → good k →
  (∀ id, m_cache m' !! id = if decide (id ∈ ids) then None else m_cache m !! id) →
  (∀ id, sessionGeneration id m' = sessionGeneration id (bump_all ids m)) →
  m_of m' = m_of m → m_closed m' = m_closed m → m_flights m' = m_flights m → m_results m' = m_results m →
  (∀ id c, id ∈ ids → m_cache m !! id = Some c → c ∈ cs) →
  section_ok m m' (PCloseAll cs k).
Proof.
  intros Hnd Hk Hc Hg Ho Hcl Hf Hr Hin.
  constructor; [done..| |apply flight_frame; [done..|apply good_close_all, Hk]].
  intros id. specialize (Hg id). rewrite bump_all_generation in Hg by done. specialize (Hc id).
  case_decide as Hid.
  - apply entry_left; [done|]. intros c ?. eapply owes_close_all, Hin; eauto.
  - by apply entry_same.
Qed.

Lemma fst_map_to_list (g : gmap string nat) (id : string) : id ∈ (map_to_list g).*1 ↔ is_Some (g !! id).
Proof.
  rewrite list_elem_of_fmap. split.
  - intros ([id' c] & -> & H). apply elem_of_map_to_list in H. by exists c.
  - intros [c H]. exists (id, c). split; [done|]. by apply elem_of_map_to_list.
Qed.

Lemma Stop_good : good Stop.
Proof.
  split; [|done]. intros m. cbv beta.
  split; [|apply good_close_all, good_done].
  apply (drop_ok (map_to_list (m_cache m)).*1); try done.
  - apply NoDup_fst_map_to_list.
  - intros id. simpl. destruct (decide (id ∈ (map_to_list (m_cache m)).*1)) as [H|H].
    + destruct (bump_all_frame (map_to_list (m_cache m)).*1 (set_cache (λ _, ∅) m)) as [-> _]. apply lookup_empty.
    + rewrite fst_map_to_list in H. destruct (bump_all_frame (map_to_list (m_cache m)).*1 (set_cache (λ _, ∅) m)) as [-> _].
      simpl. rewrite lookup_empty. symmetry. by apply eq_None_not_Some.
  - intros id. rewrite bump_all_generation by apply NoDup_fst_map_to_list.
    change (sessionGeneration id (bump_all (map_to_list (m_cache m)).*1 (set_cache (λ _, ∅) m))
      = if decide (id ∈ (map_to_list (m_cache m)).*1) then u64 (sessionGeneration id m + 1) else sessionGeneration id m).
    by rewrite bump_all_generation by apply NoDup_fst_map_to_list.
  - simpl. by destruct (bump_all_frame (map_to_list (m_cache m)).*1 (set_cache (λ _, ∅) m)) as (_ & -> & _).
  - simpl. by destruct (bump_all_frame (map_to_list (m_cache m)).*1 (set_cache (λ _, ∅) m)) as (_ & _ & -> & _).
  - simpl. by destruct (bump_all_frame (map_to_list (m_cache m)).*1 (set_cache (λ _, ∅) m)) as (_ & _ & _ & -> & _).
  - simpl. by destruct (bump_all_frame (map_to_list (m_cache m)).*1 (set_cache (λ _, ∅) m)) as (_ & _ & _ & _ & ->).
  - intros id c _ H. apply list_elem_of_fmap. exists (id, c). split; [done|]. by apply elem_of_map_to_list.
Qed.

Section Manager.
Context (ttl : Z).

Lemma elem_of_expired (m : manager) (id : string) (c : nat) :
  (id, c) ∈ expired ttl m ↔ m_cache m !! id = Some c ∧
    ((ttl <=? m_now m - lastUsed c m)%Z || negb (IsAlive c m) = true).
Proof.
  unfold expired. rewrite list_elem_of_In, filter_In, <- list_elem_of_In, elem_of_map_to_list. done.
Qed.

Lemma NoDup_expired (m : manager) : NoDup (expired ttl m).*1.
Proof.
  unfold expired. generalize (NoDup_fst_map_to_list (m_cache m)).
  generalize (map_to_list (m_cache m)). intros l. induction l as [|e l IH]; simpl; [constructor|].
  inversion_clear 1 as [|? ? Hn Hnd]. destruct (_ || _); simpl; [|by apply IH].
  constructor; [|by apply IH]. intros H. apply Hn. apply list_elem_of_fmap in H as (e' & -> & H).
  apply list_elem_of_fmap. exists e'. split; [done|]. apply list_elem_of_In, filter_In in H as [H _]. by apply list_elem_of_In.
Qed.

Lemma lookup_drop_keys {A} (ids : list string) (g : gmap string A) (id : string) :
  drop_keys ids g !! id = if decide (id ∈ ids) then None else g !! id.
Proof.
  unfold drop_keys. rewrite map_lookup_filter. case_decide as H; destruct (g !! id); simpl; try done.
  - by rewrite option_guard_False by (intros Hn; by apply Hn).
  - by rewrite option_guard_True.
Qed.

Lemma sweepExpired_good : good (sweepExpired ttl).
Proof.
  split; [|done]. intros m. cbv beta zeta.
  split; [|apply good_close_all, good_done].
  destruct (bump_all_frame (expired ttl m).*1 (set_cache (drop_keys (expired ttl m).*1) m)) as (E1 & E2 & E3 & E4 & E5).
  apply (drop_ok (expired ttl m).*1); try done.
  - apply NoDup_expired.
  - intros id. simpl. rewrite E1. apply lookup_drop_keys.
  - intros id. change (sessionGeneration id (bump_all (expired ttl m).*1 (set_cache (drop_keys (expired ttl m).*1) m))
      = sessionGeneration id (bump_all (expired ttl m).*1 m)).
    by rewrite !bump_all_generation by apply NoDup_expired.
  - intros id c H Hc. apply list_elem_of_fmap in H as ([id' c'] & -> & H). simpl in *.
    apply elem_of_expired in H as [H ?]. simplify_eq. apply list_elem_of_fmap. exists (id', c').
    split; [done|]. by apply elem_of_expired.
Qed.

Lemma clusterCredentials_good (id : string) (k : option Cluster → prog) :
  (∀ r, good (k r)) → good (clusterCredentials ttl id k).
Proof.
  intros Hk. apply good_read. intros m.
  assert (H : good (PFetch id (λ r, match r with
      | None => k None
      | Some cluster => PAtomic (λ m, set_creds <[id := mkCreds cluster (m_now m)]> m) (λ _, k (Some cluster))
      end))).
  { apply good_fetch. intros [cl|]; [|done]. apply (good_do _ (k (Some cl))); [framed|done]. }
  destruct (m_creds m !! id) as [e|]; [case_match; done|done].
Qed.

Lemma reuse_good (id : string) (found : nat → prog) (other : prog) :
  (∀ c, good (found c)) → good other → good (reuse ttl id found other).
Proof.
  intros Hf Ho. apply good_read. intros m. destruct (fresh_client ttl id m) as [c|]; [|done].
  case_match; [|by apply evict_good]. apply good_do; [framed|done].
Qed.

Lemma markConnected_good (id : string) (c : nat) (k : prog) : good k → good (markConnected id c k).
Proof.
  intros Hk. apply good_read. intros m. apply good_info. intros a. apply good_do; [framed|done].
Qed.
End Manager.
#[export] Hint Resolve clusterCredentials_good reuse_good markConnected_good : manager.

Lemma install_ok (id : string) (c : nat) (k : prog) (m : manager) : good k →
  section_ok m (install id c m) (PCloseAll (option_list (m_cache m !! id)) k).
Proof.
  intros Hk.
  assert (E : m_of (install id c m) = m_of m ∧ m_closed (install id c m) = m_closed m ∧
    m_flights (install id c m) = m_flights m ∧ m_results (install id c m) = m_results m).
  { unfold install. by destruct (m_cache m !! id). }
  destruct E as (? & ? & ? & ?).
  constructor; [done..| |apply flight_frame; [done..|apply good_close_all, Hk]].
  intros id'. unfold install. destruct (decide (id = id')) as [<-|Hne].
  - destruct (m_cache m !! id) as [old|] eqn:Ho.
    + apply entry_left.
      * change (sessionGeneration id (bumpSessionGenerationLocked id m) = u64 (sessionGeneration id m + 1)).
        by rewrite bump_generation, decide_True.
      * intros c' Hc'. rewrite Ho in Hc'. simplify_eq. apply owes_close_all. by left.
    + by apply entry_filled.
  - apply entry_same; destruct (m_cache m !! id); simpl; rewrite ?lookup_insert_ne by done; try done.
    change (sessionGeneration id' (bumpSessionGenerationLocked id m) = sessionGeneration id' m).
    by rewrite bump_generation, decide_False.
Qed.

Lemma install_caches (id : string) (c : nat) (m : manager) : m_cache (install id c m) !! id = Some c.
Proof. unfold install. simpl. apply lookup_insert_eq. Qed.

Section Dial.
Context (ttl : Z).

Lemma dial_body_good (id : string) (cluster : Cluster) (k : option nat → prog) :
  (∀ r, good (k r)) → good (dial_body ttl id cluster k).
Proof.
  intros Hk. apply reuse_good; [done|]. split; [|done]. split.
  - intros c. apply owes_install. apply install_caches.
  - intros [c|]; [|by apply Hk]. split; [|done]. intros m.
    split; [apply install_ok; auto with manager|apply good_close_all; auto with manager].
Qed.

(** ** A flight publishes its result *)

Section Finishes.
Context (fl : nat).

Lemma finishes_close_all (cs : list nat) (k : prog) : finishes fl k → finishes fl (PCloseAll cs k).
Proof. intros Hk. induction cs; simpl; [done|by constructor]. Qed.

Lemma finishes_evict (id : string) (k : prog) : finishes fl k → finishes fl (evict id k).
Proof. intros Hk. apply finishes_atomic. intros m. by apply finishes_close_all. Qed.

Lemma finishes_do (f : manager → manager) (k : prog) : finishes fl k → finishes fl (PDo f k).
Proof. intros Hk. by apply finishes_atomic. Qed.

Lemma finishes_markConnected (id : string) (c : nat) (k : prog) : finishes fl k → finishes fl (markConnected id c k).
Proof. intros Hk. apply finishes_atomic. intros m. apply finishes_info. intros a. by apply finishes_do. Qed.

Lemma finishes_reuse (id : string) (found : nat → prog) (other : prog) :
  (∀ c, finishes fl (found c)) → finishes fl other → finishes fl (reuse ttl id found other).
Proof.
  intros Hf Ho. apply finishes_atomic. intros m. destruct (fresh_client ttl id m); [|done].
  case_match; [by apply finishes_do|by apply finishes_evict].
Qed.

Lemma finishes_dial_body (id : string) (cluster : Cluster) (k : option nat → prog) :
  (∀ r, finishes fl (k r)) → finishes fl (dial_body ttl id cluster k).
Proof.
  intros Hk. apply finishes_reuse; [done|]. apply finishes_dial. intros [c|]; [|done].
  apply finishes_atomic. intros m. by apply finishes_close_all, finishes_markConnected.
Qed.
End Finishes.

Lemma finish_ok (key : string) (fl : nat) (r : option nat) (k : prog) (m : manager) : ready k →
  section_ok m (set_flights (delete key (m_flights m)) (<[fl := r]> (m_results m)) (m_nextFlight m) m) k.
Proof.
  intros Hk. constructor; [done..| |].
  - intros id. by apply entry_same.
  - constructor.
    + intros fl' H. simpl. destruct (decide (fl = fl')) as [->|Hne].
      * rewrite lookup_insert_eq. by eexists.
      * by rewrite lookup_insert_ne.
    + simpl. intros key' fl' H. apply lookup_delete_Some in H as [_ H]. by left.
    + unfold ready in Hk. congruence.
Qed.

Lemma connect_good (id : string) (cluster : Cluster) (k : option nat → prog) :
  (∀ r, good (k r)) → good (connect ttl id cluster k).
Proof.
  intros Hk. apply reuse_good; [done|]. split; [|done]. intros m. cbv beta.
  destruct (m_flights m !! id) as [fl|] eqn:Hf.
  - split; [|done]. constructor; [done..| |].
    + intros id'. by apply entry_same.
    + constructor; [done| |]; simpl.
      * intros key fl' H. by left.
      * intros fl' [= <-]. by exists id.
  - assert (Hg : good (dial_body ttl id cluster (λ r, PDo (λ m', set_flights (delete id (m_flights m'))
         (<[m_nextFlight m := r]> (m_results m')) (m_nextFlight m') m') (k r)))).
    { apply dial_body_good. intros r. split; [|done]. intros m'. split; [|apply Hk].
      apply (finish_ok id (m_nextFlight m) r (k r) m'). apply Hk. }
    split; [|apply Hg]. constructor; [done..| |].
    + intros id'. by apply entry_same.
    + constructor; [done| |].
      * simpl. intros key fl H. destruct (decide (id = key)) as [<-|Hne].
        -- right. rewrite lookup_insert_eq in H. simplify_eq. apply finishes_dial_body. intros r.
           apply finishes_now. intros m'. simpl. rewrite lookup_insert_eq. by eexists.
        -- left. by rewrite lookup_insert_ne in H.
      * intros fl H. destruct Hg as [_ Hg]. unfold ready in Hg. congruence.
Qed.

Lemma Get_good (id : string) (k : option nat → prog) : (∀ r, good (k r)) → good (Get ttl id k).
Proof.
  intros Hk. apply clusterCredentials_good. intros [cl|]; [|done]. by apply connect_good.
Qed.
End Dial.
#[export] Hint Resolve Get_good : manager.

(** ** Every entry point *)

Lemma unhealthy_good (id : string) (k : option session_error → prog) : (∀ r, good (k r)) → good (unhealthy id k).
Proof. intros Hk. apply good_do; [framed|]. auto with manager. Qed.
#[export] Hint Resolve unhealthy_good : manager.

Lemma recordHealthSuccess_frame (id : string) (m : manager) : frame m (recordHealthSuccess id m).
Proof. unfold recordHealthSuccess. case_match; constructor; reflexivity. Qed.

Lemma probeHealth_good (id : string) (c : nat) (k : option session_error → prog) :
  (∀ r, good (k r)) → good (probeHealth id c k).
Proof.
  intros Hk. apply good_read. intros m. case_match; [by apply unhealthy_good|].
  apply good_info. intros a. apply good_read. intros m'. apply good_do; [framed|].
  case_match; [by apply unhealthy_good|]. apply good_do; [apply recordHealthSuccess_frame|done].
Qed.
#[export] Hint Resolve probeHealth_good : manager.

Lemma probeOnAcquire_good (id : string) (c : nat) (k : option session_error → prog) :
  (∀ r, good (k r)) → good (probeOnAcquire id c k).
Proof.
  intros Hk. apply good_read. intros m. cbv zeta.
  assert (good (PRead (λ m, if negb (IsAlive c m) then unhealthy id k else k None))).
  { apply good_read. intros m'. case_match; auto with manager. }
  repeat case_match; auto with manager.
Qed.
#[export] Hint Resolve probeOnAcquire_good : manager.

Lemma acquire_good (ttl : Z) (id : string) (k : outcome → prog) : (∀ r, good (k r)) → good (acquire ttl id k).
Proof.
  intros Hk. apply Get_good. intros [c|]; [|done]. apply probeOnAcquire_good. intros [e|]; [done|].
  apply Touch_good, good_read. done.
Qed.

Lemma ping_good (ttl : Z) (id : string) : good (ping ttl id).
Proof.
  apply Get_good. intros [c|]; [|done]. apply good_read. intros m. case_match; [auto with manager|].
  apply evict_good, Get_good. intros [c'|]; [|done]. apply good_read. intros m'. case_match; auto with manager.
Qed.

Lemma Status_good (ttl : Z) (id : string) : good (Status ttl id).
Proof.
  apply clusterCredentials_good. intros [cl|]; [|done]. apply Get_good. intros [c|]; [auto with manager|].
  apply good_do; [framed|done].
Qed.

Lemma program_good (ttl : Z) (c : call) : good (program ttl c).
Proof.
  destruct c; cbn [program].
  - by apply acquire_good.
  - apply good_read. intros m. case_match; auto with manager.
  - apply good_read. intros m. case_match; [done|]. apply probeHealth_good. intros [e|]; auto with manager.
  - apply Status_good.
  - apply ping_good.
  - auto with manager.
  - apply sweepExpired_good.
  - apply Stop_good.
Qed.

Lemma callback_good (id : string) (c : nat) :
  good (markDisconnected id) ∧ good (markReconnected id c) ∧ good (OnClosed id).
Proof.
  split_and!; [apply good_do; [framed|done]..|apply evict_good, good_done].
Qed.

(** * The invariant of a run *)

Definition held (w : world) (id : string) (c : nat) : Prop :=
  c ∈ m_closed (w_m w) ∨ m_cache (w_m w) !! id = Some c ∨ ∃ p, p ∈ w_ps w ∧ owes id c p.
Definition settled (w : world) (fl : nat) : Prop :=
  is_Some (m_results (w_m w) !! fl) ∨ ∃ p, p ∈ w_ps w ∧ finishes fl p.

Record world_inv (w : world) : Prop := mkWorldInv {
  wi_safe : ∀ p, p ∈ w_ps w → safe p;
  wi_held : ∀ c id cl, m_of (w_m w) !! c = Some (id, cl) → held w id c;
  wi_flights : ∀ key fl, m_flights (w_m w) !! key = Some fl → settled w fl;
  wi_waits : ∀ p fl, p ∈ w_ps w → waits p = Some fl → settled w fl;
}.

Lemma start_inv (db : gmap string Cluster) (now : Z) : world_inv (start db now).
Proof.
  constructor; simpl; intros.
  - by apply not_elem_of_nil in H.
  - by rewrite lookup_empty in H.
  - by rewrite lookup_empty in H.
  - by apply not_elem_of_nil in H.
Qed.

(** The state of the library or the database changes, and callbacks start. *)
Lemma library_inv (w w' : world) (ps : list prog) :
  world_inv w → w_ps w' = w_ps w ++ ps → (∀ p, p ∈ ps → good p) →
  m_of (w_m w') = m_of (w_m w) → m_cache (w_m w') = m_cache (w_m w) →
  m_closed (w_m w) ⊆ m_closed (w_m w') →
  m_flights (w_m w') = m_flights (w_m w) → m_results (w_m w') = m_results (w_m w) →
  world_inv w'.
Proof.
  intros [Hs Hh Hf Hw] Eps Hg Eo Ec Hcl Ef Er.
  assert (Hset : ∀ fl, settled w fl → settled w' fl).
  { intros fl [H|(p & Hp & H)]; [left; by rewrite Er|right]. exists p. rewrite Eps, elem_of_app. auto. }
  constructor.
  - intros p. rewrite Eps, elem_of_app. intros [?|?]; [by apply Hs|by apply Hg].
  - intros c id cl. rewrite Eo. intros H. destruct (Hh _ _ _ H) as [H'|[H'|(p & Hp & H')]].
    + left. by apply Hcl.
    + right; left. by rewrite Ec.
    + right; right. exists p. rewrite Eps, elem_of_app. auto.
  - intros key fl. rewrite Ef. intros H. by eapply Hset, Hf.
  - intros p fl. rewrite Eps, elem_of_app. intros [Hp|Hp] H; [by eapply Hset, Hw|].
    destruct (Hg _ Hp) as [_ Hr]. unfold ready in Hr. congruence.
Qed.

(** What a step of a safe program does. *)
Record effect (m : manager) (p : prog) (m' : manager) (p' : prog) : Prop := mkEffect {
  ef_safe : safe p';
  ef_owes : ∀ id c, owes id c p → c ∈ m_closed m' ∨ m_cache m' !! id = Some c ∨ owes id c p';
  ef_of : ∀ c v, m_of m' !! c = Some v → m_of m !! c = Some v ∨ owes v.1 c p';
  ef_closed : m_closed m ⊆ m_closed m';
  ef_entry : ∀ id, entry_change id m m' p';
  ef_finishes : ∀ fl, finishes fl p → is_Some (m_results m' !! fl) ∨ finishes fl p';
  ef_flight : flight_change m m' p';
}.

Lemma library_effect (of_ : gmap nat (string * Cluster)) (alive closed : gset nat) (m : manager) (p p' : prog) :
  good p' → (∀ id c, owes id c p → c ∈ closed ∨ owes id c p') →
  (∀ c v, of_ !! c = Some v → m_of m !! c = Some v ∨ owes v.1 c p') →
  m_closed m ⊆ closed → (∀ fl, finishes fl p → finishes fl p') →
  effect m p (set_library of_ alive closed m) p'.
Proof.
  intros [Hs Hr] Ho Hof Hc Hf. constructor; try done; simpl.
  - intros id c H. destruct (Ho _ _ H); auto.
  - intros id. by apply entry_same.
  - auto.
  - by apply flight_frame.
Qed.

Lemma set_library_id (m : manager) : set_library (m_of m) (m_alive m) (m_closed m) m = m.
Proof. by destruct m. Qed.

(** An answer that leaves the state alone. *)
Lemma answer_effect (m : manager) (p p' : prog) :
  good p' → (∀ id c, ¬ owes id c p) → (∀ fl, finishes fl p → finishes fl p') → effect m p m p'.
Proof.
  intros Hg Ho Hf. rewrite <- (set_library_id m) at 2. apply library_effect; auto.
  intros id c H. by destruct (Ho id c).
Qed.

Lemma step_effect (a : answer) (p p' : prog) (m m' : manager) :
  safe p → step a p m = Some (m', p') → effect m p m' p'.
Proof.
  intros Hs Hst. destruct p as [r|f k|id cl k|c k|c k|id k|fl k]; simpl in Hs, Hst; simplify_eq.
  - destruct (Hs m) as [[Hof Hcl He Hfl] Hs']. constructor; try done.
    + intros id c H. inversion H; subst. right; left. auto.
    + intros c v. rewrite Hof. auto.
    + by rewrite Hcl.
    + intros fl H. inversion H; subst; auto.
  - destruct Hs as [Ho Hk]. destruct a; simplify_eq.
    + apply library_effect; [apply Hk|inversion 1| |done|inversion 1; auto].
      intros c v H. destruct (decide (c = fresh (dom (m_of m)))) as [->|Hne].
      * rewrite lookup_insert_eq in H. simplify_eq. right. apply Ho.
      * rewrite lookup_insert_ne in H by done. by left.
    + apply answer_effect; [apply Hk|inversion 1|inversion 1; auto].
    + apply answer_effect; [apply Hk|inversion 1|inversion 1; auto].
  - apply library_effect; [done| |auto|set_solver|inversion 1; auto].
    intros id c' H. inversion H; subst; [left; set_solver|by right].
  - apply answer_effect; [apply Hs|inversion 1|inversion 1; auto].
  - apply answer_effect; [apply Hs|inversion 1|inversion 1; auto].
  - destruct (m_results m !! fl); simplify_eq. apply answer_effect; [apply Hs|inversion 1|inversion 1].
Qed.

(** Something another program holds is still held after the step of one. *)
Lemma kept_by_others (i : nat) (p p' q : prog) (ps : list prog) :
  ps !! i = Some p → q ∈ ps → q = p ∨ q ∈ <[i := p']> ps.
Proof.
  intros Hp Hq. apply list_elem_of_lookup in Hq as [j Hj]. destruct (decide (i = j)) as [->|Hne].
  - left. congruence.
  - right. apply list_elem_of_lookup. exists j. by rewrite list_lookup_insert_ne.
Qed.

Lemma stepped_is_there (i : nat) (p p' : prog) (ps : list prog) : ps !! i = Some p → p' ∈ <[i := p']> ps.
Proof.
  intros Hp. apply list_elem_of_lookup. exists i. apply list_lookup_insert_eq. by eapply lookup_lt_Some.
Qed.

Lemma elem_of_stepped (i : nat) (p p' q : prog) (ps : list prog) :
  ps !! i = Some p → q ∈ <[i := p']> ps → q = p' ∨ q ∈ ps.
Proof.
  intros Hp Hq. apply list_elem_of_lookup in Hq as [j Hj]. destruct (decide (i = j)) as [->|Hne].
  - rewrite list_lookup_insert_eq in Hj by (by eapply lookup_lt_Some). left. congruence.
  - rewrite list_lookup_insert_ne in Hj by done. right. apply list_elem_of_lookup. by exists j.
Qed.

Lemma step_inv (w : world) (i : nat) (p p' : prog) (m' : manager) :
  world_inv w → w_ps w !! i = Some p → effect (w_m w) p m' p' →
  world_inv (mkWorld m' (<[i := p']> (w_ps w)) (w_hooked w)).
Proof.
  intros [Hs Hh Hf Hw] Hp [Es Eo Eof Ecl Ee Ef [Er Efl Ew]].
  set (w' := mkWorld m' _ _).
  assert (Hin : p' ∈ w_ps w') by (by eapply stepped_is_there).
  assert (Hset : ∀ fl, settled w fl → settled w' fl).
  { intros fl [H|(q & Hq & H)]; [left; by apply Er|].
    destruct (kept_by_others i p p' q _ Hp Hq) as [->|Hq']; [|right; by exists q].
    destruct (Ef _ H); [by left|right; by exists p']. }
  constructor.
  - intros q Hq. destruct (elem_of_stepped _ _ _ _ _ Hp Hq) as [->|?]; auto.
  - intros c id cl H. destruct (Eof _ _ H) as [H'|H']; [|right; right; by exists p'].
    destruct (Hh _ _ _ H') as [Hc|[Hc|(q & Hq & Hc)]].
    + left. by apply Ecl.
    + destruct (Ee id) as [E _|E _|_ E].
      * right; left. by rewrite <- Hc.
      * congruence.
      * right; right. exists p'. auto.
    + destruct (kept_by_others i p p' q _ Hp Hq) as [->|Hq']; [|right; right; by exists q].
      destruct (Eo _ _ Hc) as [?|[?|?]]; [by left|by right; left|right; right; by exists p'].
  - intros key fl H. destruct (Efl _ _ H) as [H'|H']; [by eapply Hset, Hf|right; by exists p'].
  - intros q fl Hq H. destruct (elem_of_stepped _ _ _ _ _ Hp Hq) as [->|Hq'].
    + destruct (Ew _ H) as [key Hk]. by eapply Hset, Hf.
    + by eapply Hset, Hw.
Qed.

Lemma world_step_inv (ttl : Z) (e : event) (w : world) : world_inv w → world_inv (world_step ttl e w).
Proof.
  intros Hi. destruct e as [c|i a|c|c|c|c|d|id r]; cbn [world_step].
  - apply (library_inv w _ [program ttl c]); try done. intros q ->%list_elem_of_singleton. apply program_good.
  - destruct (w_ps w !! i) as [p|] eqn:Hp; [|done]. destruct (step a p (w_m w)) as [[m' p']|] eqn:Hst; [|done].
    eapply step_inv; [done..|]. eapply step_effect; [|done]. eapply Hi, list_elem_of_lookup_2, Hp.
  - destruct (m_of (w_m w) !! c) as [[id cl]|]; [|done]. case_decide; [|done].
    apply (library_inv w _ [markDisconnected id]); try done.
    intros q ->%list_elem_of_singleton. apply (callback_good id c).
  - destruct (m_of (w_m w) !! c) as [[id cl]|]; [|done]. case_decide; [done|].
    apply (library_inv w _ [markReconnected id c]); try done.
    intros q ->%list_elem_of_singleton. apply callback_good.
  - destruct (m_of (w_m w) !! c); [|done]. apply (library_inv w _ []); try done.
    + by rewrite app_nil_r.
    + intros q H. by apply not_elem_of_nil in H.
    + simpl. set_solver.
  - destruct (m_of (w_m w) !! c) as [[id cl]|]; [|done]. case_decide; [|done].
    apply (library_inv w _ [OnClosed id]); try done.
    intros q ->%list_elem_of_singleton. apply (callback_good id c).
  - apply (library_inv w _ []); try done; [by rewrite app_nil_r|]. intros q H. by apply not_elem_of_nil in H.
  - apply (library_inv w _ []); try done; [by rewrite app_nil_r|]. intros q H. by apply not_elem_of_nil in H.
Qed.

Lemma run_inv (ttl : Z) (es : list event) (w : world) : world_inv w → world_inv (run ttl w es).
Proof.
  revert w. induction es as [|e es IH]; intros w Hi; [done|]. apply IH. by apply world_step_inv.
Qed.

(** ** Generations along a run *)

Lemma world_step_entry (ttl : Z) (e : event) (w : world) (id : string) :
  world_inv w → ∃ p, entry_change id (w_m w) (w_m (world_step ttl e w)) p.
Proof.
  intros Hi.
  assert (H0 : ∃ p, entry_change id (w_m w) (w_m w) p) by (exists (PDone RUnit); by apply entry_same).
  assert (Hl : ∀ w', m_cache (w_m w') = m_cache (w_m w) → m_gens (w_m w') = m_gens (w_m w) →
    ∃ p, entry_change id (w_m w) (w_m w') p).
  { intros w' Ec Eg. exists (PDone RUnit). apply entry_same; [by rewrite Ec|]. unfold sessionGeneration. by rewrite Eg. }
  destruct e as [c|i a|c|c|c|c|d|id' r]; cbn [world_step]; try by apply Hl.
  - destruct (w_ps w !! i) as [p|] eqn:Hp; [|done]. destruct (step a p (w_m w)) as [[m' p']|] eqn:Hst; [|done].
    exists p'. eapply step_effect; [|done]. eapply Hi, list_elem_of_lookup_2, Hp.
  - destruct (m_of (w_m w) !! c) as [[? ?]|]; [|done]. case_decide; [by apply Hl|done].
  - destruct (m_of (w_m w) !! c) as [[? ?]|]; [|done]. case_decide; [done|by apply Hl].
  - destruct (m_of (w_m w) !! c); [by apply Hl|done].
  - destruct (m_of (w_m w) !! c) as [[? ?]|]; [|done]. case_decide; [by apply Hl|done].
Qed.

(** At most [n] bumps of the generation, and none only when a cached client stays. *)
Definition aged (id : string) (n : nat) (m m' : manager) : Prop :=
  (sessionGeneration id m <= sessionGeneration id m' <= sessionGeneration id m + Z.of_nat n)%Z ∧
  (sessionGeneration id m' = sessionGeneration id m →
   m_cache m !! id = None ∨ m_cache m' !! id = m_cache m !! id).

Lemma aged_step (id : string) (m m' : manager) (p : prog) :
  (0 <= sessionGeneration id m)%Z → (sessionGeneration id m + 1 <= max_uint64)%Z →
  entry_change id m m' p → aged id 1 m m'.
Proof.
  intros H0 H1 [Ec Eg|Ec Eg|Eg _]; unfold aged; rewrite Eg.
  - split; [lia|auto].
  - split; [lia|auto].
  - rewrite u64_id by (unfold is_u64; lia). split; [lia|]. lia.
Qed.

Lemma aged_trans (id : string) (n1 n2 : nat) (m1 m2 m3 : manager) :
  aged id n1 m1 m2 → aged id n2 m2 m3 → aged id (n1 + n2) m1 m3.
Proof.
  intros [H1 E1] [H2 E2]. split; [lia|]. intros E.
  destruct E1 as [?|E1]; [lia|by left|]. destruct E2 as [E2|E2]; [lia|left; congruence|right; congruence].
Qed.

Lemma run_aged (ttl : Z) (id : string) (es : list event) (w : world) : world_inv w →
  (0 <= sessionGeneration id (w_m w))%Z →
  (sessionGeneration id (w_m w) + Z.of_nat (length es) <= max_uint64)%Z →
  aged id (length es) (w_m w) (w_m (run ttl w es)).
Proof.
  revert w. induction es as [|e es IH]; intros w Hi H0 H1.
  - split; [simpl; lia|by right].
  - simpl length in *. destruct (world_step_entry ttl e w id Hi) as [p He].
    assert (Ha : aged id 1 (w_m w) (w_m (world_step ttl e w))) by (eapply aged_step; [lia|lia|done]).
    change (S (length es)) with (1 + length es). eapply aged_trans; [exact Ha|].
    destruct Ha as [Ha _]. apply IH; [by apply world_step_inv|lia|lia].
Qed.

Lemma run_app (ttl : Z) (w : world) (es1 es2 : list event) : run ttl w (es1 ++ es2) = run ttl (run ttl w es1) es2.
Proof. apply foldl_app. Qed.

Lemma generation_range (ttl : Z) (db : gmap string Cluster) (now : Z) (id : string) (es : list event) :
  (Z.of_nat (length es) <= max_uint64)%Z →
  (0 <= sessionGeneration id (w_m (run ttl (start db now) es)) <= Z.of_nat (length es))%Z.
Proof.
  intros Hl. assert (E : sessionGeneration id (w_m (start db now)) = 0%Z) by done.
  destruct (run_aged ttl id es (start db now) (start_inv db now)) as [H _]; rewrite ?E in *; lia.
Qed.

(** * No client is lost *)

Lemma quiet_owes (w : world) (id : string) (c : nat) (p : prog) : quiet w = true → p ∈ w_ps w → ¬ owes id c p.
Proof.
  intros Hq Hp H. unfold quiet in Hq. rewrite forallb_forall in Hq.
  specialize (Hq p ltac:(by apply list_elem_of_In)). by destruct H.
Qed.

(** C22. However requests, sweeps, evictions, callbacks and failures interleave,
    when nothing is under way any more every client that was ever dialed is either
    closed or the cached client of its cluster: no connection leaks, and a
    cluster has at most one open. *)
Theorem no_client_leaks (ttl : Z) (db : gmap string Cluster) (now : Z) (es : list event)
    (c : nat) (clusterID : string) (cluster : Cluster) :
  let m := w_m (run ttl (start db now) es) in
  quiet (run ttl (start db now) es) = true →
  m_of m !! c = Some (clusterID, cluster) → c ∉ m_closed m →
  m_cache m !! clusterID = Some c.
Proof.
  intros m Hq Hc Hn.
  destruct (wi_held _ (run_inv ttl es _ (start_inv db now)) _ _ _ Hc) as [H|[H|(p & Hp & H)]]; [done|done|].
  exfalso. by eapply quiet_owes.
Qed.

(** * Handles *)

Lemma ensureValid_generation (s : Session) (m : manager) :
  ensureValid false s m = if decide (sessionGeneration (ss_clusterID s) m = ss_gen s) then None
                          else Some ErrSessionInvalidated.
Proof. unfold ensureValid. case_decide as E; [by rewrite E, Z.eqb_refl|]. by rewrite (proj2 (Z.eqb_neq _ _) E). Qed.

Lemma invalid_refused (ttl : Z) (s : Session) (m : manager) (e : session_error) :
  ensureValid false s m = Some e →
  step AYes (program ttl (CallClient false s)) m = Some (m, PDone (RErr e)) ∧
  step AYes (program ttl (CallHealthy false s)) m = Some (m, PDone (RErr e)).
Proof. intros H. unfold program, session_Client, session_Healthy, PRead. cbn [step]. by rewrite H. Qed.

(** A handle that was valid while [c] was the cached client of its cluster is
    refused from the moment [c] has left the cache, whatever made it leave (an
    eviction, the sweeper, a redial, a stop) and whatever happens afterwards: the
    calls on it end with [ErrSessionInvalidated] and never give a client, as
    long as the 64-bit generation does not wrap. *)
Theorem left_clients_handles_refused (ttl : Z) (db : gmap string Cluster) (now : Z)
    (es0 es1 es2 : list event) (s : Session) (c : nat) :
  let m0 := w_m (run ttl (start db now) es0) in
  let m1 := w_m (run ttl (start db now) (es0 ++ es1)) in
  let m2 := w_m (run ttl (start db now) (es0 ++ es1 ++ es2)) in
  (Z.of_nat (length (es0 ++ es1 ++ es2)) <= max_uint64)%Z →
  ensureValid false s m0 = None → m_cache m0 !! ss_clusterID s = Some c →
  m_cache m1 !! ss_clusterID s ≠ Some c →
  step AYes (program ttl (CallClient false s)) m2 = Some (m2, PDone (RErr ErrSessionInvalidated)) ∧
  step AYes (program ttl (CallHealthy false s)) m2 = Some (m2, PDone (RErr ErrSessionInvalidated)).
Proof.
  intros m0 m1 m2 Hlen Hv Hc Hne. subst m0 m1 m2. rewrite app_assoc, !run_app in *. set (cid := ss_clusterID s) in *.
  rewrite !length_app in Hlen.
  pose proof (run_inv ttl es0 _ (start_inv db now)) as Hi.
  pose proof (generation_range ttl db now cid es0 ltac:(lia)) as Hr.
  set (w0 := run ttl (start db now) es0) in *.
  pose proof (run_aged ttl cid es1 w0 Hi ltac:(lia) ltac:(lia)) as [A1 E1].
  pose proof (run_aged ttl cid es2 _ (run_inv ttl es1 w0 Hi) ltac:(lia) ltac:(lia)) as [A2 _].
  rewrite ensureValid_generation in Hv. fold cid in Hv. case_decide as Hg; [|done].
  assert (H : ensureValid false s (w_m (run ttl (run ttl w0 es1) es2)) = Some ErrSessionInvalidated).
  { rewrite ensureValid_generation. fold cid. rewrite decide_False; [done|]. intros E.
    destruct E1 as [?|?]; [lia|congruence|congruence]. }
  exact (invalid_refused ttl s _ _ H).
Qed.

(** * No call is stuck *)

Lemma finishing_step (a : answer) (fl : nat) (p : prog) (m : manager) : finishes fl p → is_Some (step a p m).
Proof. destruct 1; simpl; eauto. destruct a; eauto. Qed.

Lemma step_any_answer (a a' : answer) (p : prog) (m : manager) : is_Some (step a p m) → is_Some (step a' p m).
Proof. destruct p; simpl; eauto. destruct a'; eauto. Qed.

Lemma not_stuck (w : world) (a : answer) : world_inv w → quiet w = false →
  ∃ i p, w_ps w !! i = Some p ∧ is_Some (step a p (w_m w)).
Proof.
  intros Hi Hq.
  assert (Hu : ∃ p, p ∈ w_ps w ∧ ended p = false).
  { unfold quiet in Hq. induction (w_ps w) as [|p ps IH]; [done|]. simpl in Hq.
    destruct (ended p) eqn:E; [|exists p; split; [by left|done]].
    destruct (IH Hq) as (q & ? & ?). exists q. split; [by right|done]. }
  destruct Hu as (p & Hp & He).
  assert (Hgo : ∀ q, q ∈ w_ps w → is_Some (step a q (w_m w)) →
    ∃ i q, w_ps w !! i = Some q ∧ is_Some (step a q (w_m w))).
  { intros q Hq' Hs. apply list_elem_of_lookup in Hq' as [i ?]. eauto. }
  destruct p as [r|f k|id cl k|c k|c k|id k|fl k]; try done.
  all: try (eapply Hgo; [exact Hp|simpl; by eauto]).
  - eapply Hgo; [exact Hp|]. simpl. destruct a; by eexists.
  - destruct (wi_waits _ Hi _ fl Hp eq_refl) as [[r Hr]|(q & Hq' & Hf)].
    + eapply Hgo; [exact Hp|]. simpl. rewrite Hr. by eexists.
    + eapply Hgo; [exact Hq'|]. by eapply finishing_step.
Qed.

(** A program only takes finitely many steps, and so do several. *)
Definition after (p' p : prog) : Prop := ∃ a m m', step a p m = Some (m', p').
Definition after_any (ps' ps : list prog) : Prop :=
  ∃ i p p', ps !! i = Some p ∧ after p' p ∧ ps' = <[i := p']> ps.

Lemma after_wf (p : prog) : Acc after p.
Proof.
  induction p; constructor; intros p' (a & m & m' & Hs); simpl in Hs; simplify_eq; auto.
  - destruct a; simplify_eq; auto.
  - destruct (m_results m !! flight); simplify_eq; auto.
Qed.

Lemma after_any_wf (ps : list prog) : Acc after_any ps.
Proof.
  induction ps as [|p ps IH].
  - constructor. intros ps' (i & p & p' & H & _). done.
  - revert p. assert (H : ∀ p, Acc after p → Acc after_any (p :: ps)); [|intros p; apply H, after_wf].
    induction IH as [ps _ IHps]. induction 1 as [p Hp IHp].
    constructor. intros ps' ([|i] & q & q' & Hq & Ha & ->); simpl in *.
    + simplify_eq. by apply IHp.
    + apply (IHps (<[i := q']> ps)); [by exists i, q, q'|by constructor].
Qed.

(** C23. Calls neither deadlock nor go on for ever: from every state a run can
    reach, whatever the library and the database answer, letting the calls that
    were started take their steps ends all of them (those that wait for another
    call's dial included). *)
Theorem calls_come_to_an_end (ttl : Z) (db : gmap string Cluster) (now : Z) (es : list event) (a : answer) :
  ∃ steps, quiet (run ttl (run ttl (start db now) es) (map (λ i, EStep i a) steps)) = true.
Proof.
  pose proof (run_inv ttl es _ (start_inv db now)) as Hi.
  revert Hi. generalize (run ttl (start db now) es). intros w.
  remember (w_ps w) as ps eqn:E. revert w E. induction (after_any_wf ps) as [ps _ IH]. intros w -> Hi.
  destruct (quiet w) eqn:Hq; [by exists []|].
  destruct (not_stuck w a Hi Hq) as (i & p & Hp & [[m' p'] Hs]).
  assert (Es : world_step ttl (EStep i a) w = mkWorld m' (<[i := p']> (w_ps w)) (w_hooked w)).
  { cbn [world_step]. by rewrite Hp, Hs. }
  destruct (IH (<[i := p']> (w_ps w))) with (w := world_step ttl (EStep i a) w) as [steps H].
  - exists i, p, p'. split; [done|]. split; [|done]. by exists a, (w_m w), m'.
  - by rewrite Es.
  - by apply world_step_inv.
  - by exists (i :: steps).
Qed.

(** * The backoff *)

Lemma backoff_loop_spec (n : nat) (k : nat) : (k <= 6)%nat →
  backoff_loop n (healthBackoffBase * 2 ^ Z.of_nat k) = (healthBackoffBase * 2 ^ Z.of_nat (Nat.min 6 (k + n)))%Z.
Proof.
  revert k. induction n as [|n IH]; intros k Hk; cbn [backoff_loop].
  - by replace (Nat.min 6 (k + 0)) with k by lia.
  - destruct (decide (k = 6)) as [->|Hne].
    + rewrite (proj2 (Z.ltb_ge _ _)) by (vm_compute; discriminate). by replace (Nat.min 6 (6 + S n)) with 6 by lia.
    + assert (2 ^ Z.of_nat k <= 2 ^ 5)%Z by (apply Z.pow_le_mono_r; lia).
      rewrite (proj2 (Z.ltb_lt _ _)) by (unfold healthBackoffBase, healthBackoffMax, ms; lia).
      rewrite <- Z.mul_assoc, (Z.mul_comm (2 ^ _)), <- Z.pow_succ_r, <- Nat2Z.inj_succ, IH by lia.
      by replace (S k + n) with (k + S n) by lia.
Qed.

(** The pause after the n-th health failure in a row is 500 ms doubled n-1
    times, and 30 s from the seventh on: never negative, never above the cap,
    never shorter than after fewer failures. *)
Theorem healthBackoffDuration_spec (n : Z) :
  healthBackoffDuration n
  = (if n <=? 0 then 0 else if 7 <=? n then healthBackoffMax else healthBackoffBase * 2 ^ (n - 1))%Z ∧
  (0 <= healthBackoffDuration n <= healthBackoffMax)%Z ∧
  (∀ k, (n <= k)%Z → (healthBackoffDuration n <= healthBackoffDuration k)%Z).
Proof.
  assert (Hs : ∀ n, healthBackoffDuration n
    = (if n <=? 0 then 0 else if 7 <=? n then healthBackoffMax else healthBackoffBase * 2 ^ (n - 1))%Z).
  { intros n'. unfold healthBackoffDuration. destruct (n' <=? 0)%Z eqn:E0; [done|]. apply Z.leb_gt in E0.
    pose proof (backoff_loop_spec (Z.to_nat (n' - 1)) 0 ltac:(lia)) as Hd.
    change (healthBackoffBase * 2 ^ Z.of_nat 0)%Z with healthBackoffBase in Hd. rewrite Hd. cbv zeta. destruct (7 <=? n')%Z eqn:E7.
    - apply Z.leb_le in E7. by replace (Nat.min 6 _) with 6%nat by lia.
    - apply Z.leb_gt in E7. replace (Z.of_nat (Nat.min 6 _)) with (n' - 1)%Z by lia.
      rewrite (proj2 (Z.ltb_ge _ _)); [done|].
      assert (2 ^ (n' - 1) <= 2 ^ 5)%Z by (apply Z.pow_le_mono_r; lia). unfold healthBackoffMax, healthBackoffBase, ms. lia. }
  split; [apply Hs|]. rewrite !Hs.
  assert (Hp : ∀ a b, (0 < a)%Z → (a <= b)%Z → (1 <= 2 ^ (a - 1) <= 2 ^ (b - 1))%Z).
  { intros a b ? ?. pose proof (Z.pow_pos_nonneg 2 (a - 1)). split; [lia|apply Z.pow_le_mono_r; lia]. }
  assert (Hq : ∀ a, (a < 7)%Z → (2 ^ (a - 1) <= 32)%Z).
  { intros a ?. transitivity (2 ^ 5)%Z; [|done]. apply Z.pow_le_mono_r; lia. }
  assert (Hle : ∀ n k, (n <= k)%Z →
    ((if n <=? 0 then 0 else if 7 <=? n then healthBackoffMax else healthBackoffBase * 2 ^ (n - 1))
     <= (if k <=? 0 then 0 else if 7 <=? k then healthBackoffMax else healthBackoffBase * 2 ^ (k - 1)))%Z).
  { intros a b Hab. unfold healthBackoffMax, healthBackoffBase, ms. specialize (Hp a b). specialize (Hq a).
    pose proof (Z.pow_pos_nonneg 2 (b - 1)).
    destruct (Z.leb_spec a 0), (Z.leb_spec b 0), (Z.leb_spec 7 a), (Z.leb_spec 7 b); lia. }
  split; [|intros k Hk; rewrite Hs; by apply Hle]. split.
  - etransitivity; [|apply (Hle (Z.min n 0)); lia]. by rewrite (proj2 (Z.leb_le _ _)) by lia.
  - etransitivity; [apply (Hle n (Z.max n 7)); lia|].
    rewrite (proj2 (Z.leb_gt _ 0)), (proj2 (Z.leb_le 7 _)) by lia. done.
Qed.

(** * Runs on one cluster *)

Definition ten_minutes : Z := 10 * 60 * 1000 * ms.
Definition one_cluster : world := start {["c" := 0]} 0.
Definition go (i n : nat) : list event := replicate n (EStep i AYes).

(** Every program used below ends within 40 steps. *)
Definition dialed : list event := ECall (CallTest "c") :: go 0 40.
Definition redialed : list event :=
  dialed ++ [ETime (Z.to_N ten_minutes); ECall (CallTest "c")] ++ go 1 40.
Definition redialed_view (es : list event) : bool * option nat * list nat * option (string * Cluster) :=
  let w := run ten_minutes one_cluster es in
  (quiet w, m_cache (w_m w) !! "c", elements (m_closed (w_m w)), m_of (w_m w) !! 1).

Lemma no_client_leaks_witness :
  redialed_view redialed = (true, Some 1, [0], Some ("c", 0)) ∧
  m_cache (w_m (run ten_minutes one_cluster redialed)) !! "c" = Some 1.
Proof.
  split; [vm_compute; reflexivity|].
  refine (no_client_leaks ten_minutes {["c" := 0]} 0 redialed 1 "c" 0 _ _ _).
  - vm_compute. reflexivity.
  - vm_compute. reflexivity.
  - refine (bool_decide_unpack _ _). vm_compute. exact I.
Defined.

Definition first_handle : Session := mkSession "c" 0 0.

Lemma left_clients_handles_refused_witness :
  let m := w_m (run ten_minutes one_cluster (dialed ++ (ETime (Z.to_N ten_minutes) :: ECall CallSweep :: go 1 1) ++ go 1 40)) in
  step AYes (program ten_minutes (CallClient false first_handle)) m = Some (m, PDone (RErr ErrSessionInvalidated)) ∧
  step AYes (program ten_minutes (CallHealthy false first_handle)) m = Some (m, PDone (RErr ErrSessionInvalidated)).
Proof.
  refine (left_clients_handles_refused ten_minutes {["c" := 0]} 0 dialed
    (ETime (Z.to_N ten_minutes) :: ECall CallSweep :: go 1 1) (go 1 40) first_handle 0 _ _ _ _).
  - vm_compute. discriminate.
  - vm_compute. reflexivity.
  - vm_compute. reflexivity.
  - vm_compute. discriminate.
Defined.

(** An eviction between the health probe and the reading of the generation: the
    handle is given out over a client that is closed already, and it stays valid. *)
Lemma session_over_a_closed_client : ∃ n,
  let w := run ten_minutes one_cluster
    ((ECall (CallSession "c") :: go 0 n) ++ (ECall (CallEvict "c") :: go 1 40) ++ go 0 1) in
  ∃ s, result 0 w = Some (RSession s) ∧ ensureValid false s (w_m w) = None ∧ ss_client s ∈ m_closed (w_m w) ∧
       m_cache (w_m w) !! "c" = None.
Proof.
  exists 20. eexists. split; [vm_compute; reflexivity|]. split; [vm_compute; reflexivity|].
  split; [|vm_compute; reflexivity]. refine (bool_decide_unpack _ _). vm_compute. exact I.
Qed.

(** The library reports the closing of a client after its cluster was dialed again:
    the callback evicts by the name of the cluster, and so closes the new,
    healthy client and ends the handles on it. *)
Lemma callback_of_the_old_client_evicts_the_new : ∃ s,
  let w := run ten_minutes one_cluster
    (dialed ++ (ECall (CallEvict "c") :: go 1 40) ++ (ECall (CallSession "c") :: go 2 40)) in
  let w' := run ten_minutes w (EHook 0 :: go 3 40) in
  result 2 w = Some (RSession s) ∧ ss_client s = 1 ∧ ensureValid false s (w_m w) = None ∧
  IsAlive 1 (w_m w) = true ∧ m_cache (w_m w') !! "c" = None ∧ IsAlive 1 (w_m w') = false ∧
  ensureValid false s (w_m w') = Some ErrSessionInvalidated.
Proof. eexists. cbv zeta. split_and!; [vm_compute; reflexivity|reflexivity|vm_compute; reflexivity..]. Qed.

(** New credentials are saved and the cluster is evicted while a request holds the
    credentials it has read: the request puts the old ones into the cache after
    the eviction, and they are used until they expire. *)
Lemma evicted_credentials_come_back :
  let w := run ten_minutes one_cluster
    ((ECall (CallSession "c") :: go 0 2) ++ (EDb "c" (Some 1) :: ECall (CallEvict "c") :: go 1 40) ++ go 0 40 ++
     (ECall (CallTest "c") :: go 2 40)) in
  quiet w = true ∧ m_db (w_m w) !! "c" = Some 1 ∧ m_of (w_m w) !! 0 = Some ("c", 0) ∧
  m_cache (w_m w) !! "c" = Some 0 ∧ (cc_cluster <$> m_creds (w_m w) !! "c") = Some 0.
Proof. split_and!; vm_compute; reflexivity. Qed.

(** Two requests for a cluster share one dial. *)
Example one_dial_for_two : ∃ n,
  let w := run ten_minutes one_cluster
    ((ECall (CallTest "c") :: ECall (CallTest "c") :: go 0 n) ++ go 1 40 ++ go 0 40 ++ go 1 40) in
  result 0 w = Some (RClient 0) ∧ result 1 w = Some (RClient 0) ∧ elements (dom (m_of (w_m w))) = [0].
Proof. exists 6. split_and!; vm_compute; reflexivity. Qed.
