(* ===== verification/Jsz.v ===== *)
(** The payload of a topology request, internal/app/monitoring/types.go, and the
    inputs of the analyses that are read from it, internal/app/monitoring/extract.go;
    the seed of a chaos story and what is made of one, internal/domain/chaos_story.go.

    A nil pointer is [None]; a nil map is the empty one.  Counters are integers. *)

From S2P Require Export Naming Subjects Catalog.
From S2P Require Import GoStrings.

Record JSZPeerInfo := mkPeer {
  pi_Lag : Z;
  pi_Active : Z;
  pi_Name : string;
  pi_Peer : string;
  pi_Current : bool;
  pi_Offline : bool;
}.
Record JSZClusterInfo := mkClusterInfo {
  jci_Name : string;
  jci_RaftGroup : string;
  jci_Leader : string;
  jci_Replicas : list JSZPeerInfo;
}.
Record JSZMetaCluster := mkMetaCluster {
  mc_Name : string;
  mc_Leader : string;
  mc_Peer : string;
  mc_Size : Z;
  mc_Replicas : list JSZPeerInfo;
}.
Record JSZConsumerConfig := mkJszConsumerConfig {
  jcc_FilterSubject : string;
  jcc_FilterSubjects : list string;
  jcc_DurableName : string;
  jcc_DeliverPolicy : string;
  jcc_AckPolicy : string;
  jcc_NumReplicas : Z;
  jcc_MaxAckPending : Z;
  jcc_Metadata : gmap string string;
}.
(** [jc_Delivered]: the consumer and the stream sequence. *)
Record JSZConsumerDetail := mkJszConsumer {
  jco_Config : option JSZConsumerConfig;
  jco_Delivered : option (Z * Z);
  jco_Name : string;
  jco_NumPending : Z;
  jco_NumAckPending : Z;
  jco_NumWaiting : Z;
  jco_NumRedelivered : Z;
  jco_Cluster : option JSZClusterInfo;
}.
Record JSZStreamConfig := mkJszStreamConfig {
  jsc_Retention : string;
  jsc_Storage : string;
  jsc_Subjects : list string;
  jsc_NumReplicas : Z;
}.
Record JSZStreamState := mkJszStreamState {
  jss_Messages : Z;
  jss_ConsumerCount : Z;
  jss_Bytes : Z;
  jss_LastSeq : Z;
}.
Record JSZStreamDetail := mkJszStream {
  jst_Name : string;
  jst_Config : option JSZStreamConfig;
  jst_State : option JSZStreamState;
  jst_Cluster : option JSZClusterInfo;
  jst_ConsumerDetail : list JSZConsumerDetail;
}.
Record JSZAccountDetail := mkJszAccount {
  jad_Name : string;
  jad_StreamDetail : list JSZStreamDetail;
}.
Record JSZTopologyPayload := mkJszPayload {
  jp_ServerName : string;
  jp_ServerID : string;
  jp_MetaCluster : option JSZMetaCluster;
  jp_AccountDetails : list JSZAccountDetail;
}.

(** What [serializer.Unmarshal] reads from a body; [None]: an error. *)
Class JszJson := { parse_jsz : string → option JSZTopologyPayload }.
Definition ParsePayload `{JszJson} (raw : string) : option JSZTopologyPayload := parse_jsz raw.

Definition payload_streams (p : JSZTopologyPayload) : list JSZStreamDetail :=
  flat_map jad_StreamDetail (jp_AccountDetails p).
Definition stream_subjects (s : JSZStreamDetail) : list string :=
  match jst_Config s with Some c => jsc_Subjects c | None => [] end.
Definition consumer_filter (c : JSZConsumerDetail) : string :=
  match jco_Config c with Some c => jcc_FilterSubject c | None => "" end.
Definition consumer_filters (c : JSZConsumerDetail) : list string :=
  match jco_Config c with Some c => jcc_FilterSubjects c | None => [] end.

Definition zombie_consumer (c : JSZConsumerDetail) : ZombieConsumerInput := {|
  zc_Name := jco_Name c;
  zc_FilterSubject := consumer_filter c;
  zc_FilterSubjects := consumer_filters c;
  zc_DeliveredConsSeq := match jco_Delivered c with Some d => d.1 | None => 0 end;
  zc_DeliveredStrSeq := match jco_Delivered c with Some d => d.2 | None => 0 end |}.
Definition zombie_stream (s : JSZStreamDetail) : ZombieStreamInput := {|
  zs_Name := jst_Name s;
  zs_Subjects := stream_subjects s;
  zs_Consumers := zombie_consumer <$> jst_ConsumerDetail s;
  zs_Messages := match jst_State s with Some st => jss_Messages st | None => 0 end;
  zs_LastSeq := match jst_State s with Some st => jss_LastSeq st | None => 0 end |}.

Definition naming_consumer (c : JSZConsumerDetail) : NamingConsumer :=
  mkNamingConsumer (jco_Name c) (consumer_filter c) (consumer_filters c).
Definition naming_input (s : JSZStreamDetail) : NamingInput :=
  mkNamingInput (jst_Name s) (stream_subjects s) (naming_consumer <$> jst_ConsumerDetail s).

Definition live_consumer (c : JSZConsumerDetail) : EventCatalogLiveConsumer :=
  match jco_Config c with
  | Some cfg => mkLiveConsumer (jcc_Metadata cfg) (jco_Name c) (jcc_DurableName cfg) (jcc_FilterSubject cfg) (jcc_FilterSubjects cfg)
  | None => mkLiveConsumer ∅ (jco_Name c) "" "" []
  end.
Definition live_stream (s : JSZStreamDetail) : EventCatalogLiveStream :=
  mkLiveStream (jst_Name s) (stream_subjects s) (live_consumer <$> jst_ConsumerDetail s).

Record ChaosStoryInventoryInput := mkInventory {
  cv_Name : string;
  cv_Subjects : list string;
  cv_Consumers : list string;
}.
Definition chaos_input (s : JSZStreamDetail) : ChaosStoryInventoryInput :=
  mkInventory (jst_Name s) (stream_subjects s) (jco_Name <$> jst_ConsumerDetail s).

Section Extract.
Context `{JszJson}.
Definition ZombieStreamsFromJSZ (raw : string) : option (list ZombieStreamInput) :=
  (λ p, zombie_stream <$> payload_streams p) <$> ParsePayload raw.
Definition SubjectNamingInputsFromJSZ (raw : string) : option (list NamingInput) :=
  (λ p, naming_input <$> payload_streams p) <$> ParsePayload raw.
(** [EventGenomeInput] has the fields of [SubjectNamingInput]. *)
Definition EventGenomeInputsFromJSZ (raw : string) : option (list NamingInput) :=
  (λ p, naming_input <$> payload_streams p) <$> ParsePayload raw.
Definition ChaosStoryInputsFromJSZ (raw : string) : option (list ChaosStoryInventoryInput) :=
  (λ p, chaos_input <$> payload_streams p) <$> ParsePayload raw.
Definition EventCatalogLiveFromJSZ (raw : string) : option (list EventCatalogLiveStream) :=
  (λ p, live_stream <$> payload_streams p) <$> ParsePayload raw.
End Extract.

(** * Chaos stories *)

Record ChaosStorySeed := mkSeed {
  cseed_Streams : list string;
  cseed_Consumers : list string;
  cseed_Subjects : list string;
}.
Record ChaosStoryAct := mkAct {
  act_Title : string;
  act_Description : string;
  act_Kind : string;
  act_Targets : list string;
  act_DurationSec : Z;
}.
Record ChaosStory := mkStory {
  story_Title : string;
  story_Setting : string;
  story_Severity : string;
  story_Summary : string;
  story_Source : string;
  story_Acts : list ChaosStoryAct;
  story_BlastRadius : list string;
  story_RecoveryHints : list string;
  story_Demo : bool;
}.

Definition chaosStorySeedCap : nat := 20.
Definition chaosActDefaultSec : Z := 5.

Definition cappedSortedKeys (set : gset string) (capN : nat) : list string :=
  let out := SortStrings (elements set) in
  if Nat.ltb capN (length out) then take capN out else out.

Definition named (l : list string) : list string := List.filter (λ s, negb (IsEmpty s)) (TrimSpace <$> l).
Definition seed_subjects (l : list string) : list string := List.filter (λ s, negb (has_wildcard s)) (named l).
Definition BuildChaosStorySeed (inputs : list ChaosStoryInventoryInput) : ChaosStorySeed :=
  mkSeed (cappedSortedKeys (list_to_set (named (cv_Name <$> inputs))) chaosStorySeedCap)
    (cappedSortedKeys (list_to_set (flat_map (λ i, named (cv_Consumers i)) inputs)) chaosStorySeedCap)
    (cappedSortedKeys (list_to_set (flat_map (λ i, seed_subjects (cv_Subjects i)) inputs)) chaosStorySeedCap).

Definition NormalizeChaosAct (a : ChaosStoryAct) : ChaosStoryAct :=
  let d := if Z.leb (act_DurationSec a) 0 then chaosActDefaultSec else act_DurationSec a in
  mkAct (act_Title a) (act_Description a) (if IsEmpty (act_Kind a) then "traffic_spike" else act_Kind a) (act_Targets a)
    (if Z.ltb 30 d then 30 else d).
Definition NormalizeChaosStory (story : ChaosStory) (source : string) : ChaosStory :=
  mkStory (if IsEmpty (story_Title story) then "Chaos story" else story_Title story) (story_Setting story)
    (if IsEmpty (story_Severity story) then "warn" else story_Severity story) (story_Summary story)
    (if IsEmpty (story_Source story) then source else story_Source story) (NormalizeChaosAct <$> story_Acts story)
    (story_BlastRadius story) (story_RecoveryHints story) (story_Demo story).

Definition seed_names (seed : ChaosStorySeed) : list string :=
  cseed_Streams seed ++ cseed_Consumers seed ++ cseed_Subjects seed.
Definition with_acts (acts : list ChaosStoryAct) (s : ChaosStory) : ChaosStory :=
  mkStory (story_Title s) (story_Setting s) (story_Severity s) (story_Summary s) (story_Source s) acts
    (story_BlastRadius s) (story_RecoveryHints s) (story_Demo s).
Definition keep_targets (allowed : gset string) (a : ChaosStoryAct) : ChaosStoryAct :=
  mkAct (act_Title a) (act_Description a) (act_Kind a)
    (List.filter (λ t, bool_decide (t ∈ allowed)) (TrimSpace <$> act_Targets a)) (act_DurationSec a).
Definition FilterChaosStoryTargets (story : ChaosStory) (seed : ChaosStorySeed) : ChaosStory :=
  let allowed : gset string := list_to_set (seed_names seed) in
  if Nat.eqb (size allowed) 0 then story else with_acts (keep_targets allowed <$> story_Acts story) story.

(** ** The canned story *)

Definition DemoChaosStory : ChaosStory := {|
  story_Title := "Black Friday payment meltdown";
  story_Setting := "Black Friday peak traffic";
  story_Severity := "critical";
  story_Summary := "Payment cluster drops during Black Friday while one JetStream node loses quorum and a consumer deploy introduces a schema mismatch.";
  story_Acts := [
    mkAct "Traffic surge hits payments"
      "Checkout volume spikes; PAYMENTS stream lag climbs as shoppers flood the funnel."
      "traffic_spike" ["PAYMENTS"; "payments.authorized"] 5;
    mkAct "Payment cluster down"
      "The payment processing cluster becomes unreachable; publishers to PAYMENTS start timing out."
      "cluster_down" ["PAYMENTS"] 6;
    mkAct "JetStream quorum loss"
      "One JetStream replica drops out of R3; RAFT elections stall stream acknowledges on ORDERS."
      "quorum_loss" ["ORDERS"] 6;
    mkAct "Bad consumer deploy"
      "A rush deploy of ORDERS/billing expects a new required field; older messages fail validation and DLQ fills."
      "schema_mismatch" ["ORDERS"; "billing"; "orders.created"] 7;
    mkAct "Stabilization"
      "Rollback the consumer, restore the JetStream replica, and shed non-critical traffic until payments recover."
      "recovery" ["PAYMENTS"; "ORDERS"; "billing"] 5];
  story_BlastRadius := ["Checkout failures and abandoned carts"; "ORDERS consumers stalled or poisoning on schema";
    "Downstream fulfillment delayed"];
  story_RecoveryHints := ["Roll back the billing consumer before fixing schema"; "Restore JetStream replica / wait for quorum";
    "Pause non-critical publishers until PAYMENTS is healthy"];
  story_Source := "demo";
  story_Demo := true |}.
Definition DemoChaosStorySeed : ChaosStorySeed :=
  mkSeed ["PAYMENTS"; "ORDERS"; "BILLING"] ["billing"; "shipping"; "analytics"]
    ["payments.authorized"; "orders.created"; "orders.shipped"].

(** The next act, and whether the playbook is over. *)
Definition NextChaosActIndex (current actCount : Z) : Z * bool :=
  if Z.leb actCount 0 then (0%Z, true)
  else
    let next := i64 (current + 1) in
    if Z.leb actCount next then ((actCount - 1)%Z, true) else (next, false).
