(* ===== verification/JszFacts.v ===== *)
(** What a chaos story is made of: the seed taken from the live inventory, the acts
    of a normalised and filtered story, and the playback of its acts. *)

From S2P Require Export Jsz.
From S2P Require Import GoStrings.

(** * The seed *)

Lemma in_named x l : x ∈ named l ↔ x ≠ "" ∧ x ∈ TrimSpace <$> l.
Proof.
  unfold named. rewrite elem_of_filter_list, negb_true_iff, IsEmpty_false. tauto.
Qed.

(** The first names in the order of the strings. *)
Lemma cappedSortedKeys_spec set n :
  StronglySorted String.le (cappedSortedKeys set n) ∧ NoDup (cappedSortedKeys set n) ∧
  length (cappedSortedKeys set n) = Nat.min n (size set) ∧
  (∀ x, x ∈ cappedSortedKeys set n → x ∈ set ∧ ∀ y, y ∈ set → y ∉ cappedSortedKeys set n → String.le x y).
Proof.
  pose proof (SortStrings_sorted (elements set)) as Hs. pose proof (SortStrings_perm (elements set)) as Hp.
  assert (Hin : ∀ x, x ∈ SortStrings (elements set) ↔ x ∈ set) by (intros x; by rewrite Hp, elem_of_elements).
  assert (Hlen : length (SortStrings (elements set)) = size set) by (by rewrite Hp).
  assert (Hnd : NoDup (SortStrings (elements set))) by (rewrite Hp; apply NoDup_elements).
  assert (Htake : cappedSortedKeys set n = take n (SortStrings (elements set))).
  { unfold cappedSortedKeys. destruct (Nat.ltb_spec n (length (SortStrings (elements set)))); [done|]. by rewrite take_ge. }
  rewrite Htake. clear Htake. rewrite <- (take_drop n (SortStrings (elements set))) in Hs, Hnd.
  apply NoDup_app in Hnd as (Hnd & _ & _). split; [|split; [done|split; [by rewrite length_take, Hlen|]]].
  - clear -Hs. revert Hs. generalize (take n (SortStrings (elements set))) (drop n (SortStrings (elements set))). intros l k.
    induction l as [|x l IH]; cbn; [constructor|]. intros [Hl Hx]%StronglySorted_inv. constructor; [by apply IH|].
    by apply Forall_app in Hx as [? _].
  - intros x Hx. split; [apply Hin; rewrite <- (take_drop n (SortStrings (elements set))); apply elem_of_app; by left|].
    intros y Hy Hny. apply Hin in Hy. rewrite <- (take_drop n (SortStrings (elements set))) in Hy.
    apply elem_of_app in Hy as [?|Hy]; [done|]. clear -Hs Hx Hy. revert Hs Hx Hy.
    generalize (take n (SortStrings (elements set))) (drop n (SortStrings (elements set))). intros l k.
    induction l as [|z l IH]; cbn; [by intros _ ?%not_elem_of_nil|]. intros [Hl Hz]%StronglySorted_inv [->|Hx]%elem_of_cons Hy; [|by apply IH].
    rewrite Forall_forall in Hz. apply Hz, elem_of_app. by right.
Qed.
Lemma cappedSortedKeys_sub set n x : x ∈ cappedSortedKeys set n → x ∈ set.
Proof. intros Hx. by apply cappedSortedKeys_spec in Hx as [? _]. Qed.

(** A name of the live inventory: a stream, a consumer, or a subject without wildcards. *)
Definition live_name (inputs : list ChaosStoryInventoryInput) (t : string) : Prop :=
  t ≠ "" ∧ ∃ i n, i ∈ inputs ∧ t = TrimSpace n ∧
    (n = cv_Name i ∨ n ∈ cv_Consumers i ∨ n ∈ cv_Subjects i ∧ has_wildcard t = false).

Lemma seed_is_live inputs t : t ∈ seed_names (BuildChaosStorySeed inputs) → live_name inputs t.
Proof.
  unfold seed_names. cbn. rewrite !elem_of_app. intros [Ht|[Ht|Ht]]; apply cappedSortedKeys_sub, elem_of_list_to_set in Ht.
  - apply in_named in Ht as [Hne (n & -> & Hn)%list_elem_of_fmap]. apply list_elem_of_fmap in Hn as (i & -> & Hi).
    split; [done|]. exists i, (cv_Name i). auto.
  - apply list_elem_of_In, in_flat_map in Ht as (i & Hi & Ht). apply list_elem_of_In, in_named in Ht as [Hne (n & -> & Hn)%list_elem_of_fmap].
    split; [done|]. exists i, n. apply list_elem_of_In in Hi. auto.
  - apply list_elem_of_In, in_flat_map in Ht as (i & Hi & Ht). apply list_elem_of_In, elem_of_filter_list in Ht as [Ht Hw].
    apply in_named in Ht as [Hne (n & -> & Hn)%list_elem_of_fmap]. apply negb_true_iff in Hw.
    split; [done|]. exists i, n. apply list_elem_of_In in Hi. auto 6.
Qed.

(** * The acts *)

Lemma NormalizeChaosAct_spec a : (1 ≤ act_DurationSec (NormalizeChaosAct a) ≤ 30)%Z ∧ act_Kind (NormalizeChaosAct a) ≠ "" ∧
  act_Targets (NormalizeChaosAct a) = act_Targets a.
Proof.
  unfold NormalizeChaosAct, chaosActDefaultSec. cbn. split; [|split; [|done]].
  - destruct (Z.leb_spec (act_DurationSec a) 0); [cbn; lia|]. destruct (Z.ltb_spec 30 (act_DurationSec a)); lia.
  - destruct (IsEmpty (act_Kind a)) eqn:E; [done|]. by apply IsEmpty_false.
Qed.
Lemma NormalizeChaosAct_idemp a : NormalizeChaosAct (NormalizeChaosAct a) = NormalizeChaosAct a.
Proof.
  pose proof (NormalizeChaosAct_spec a) as (Hd & Hk & _). unfold NormalizeChaosAct at 1. apply IsEmpty_false in Hk. rewrite Hk.
  rewrite (proj2 (Z.leb_gt _ _)), (proj2 (Z.ltb_ge _ _)) by lia. by destruct (NormalizeChaosAct a).
Qed.
Lemma NormalizeChaosStory_idemp s src src' : NormalizeChaosStory (NormalizeChaosStory s src) src' =
  NormalizeChaosStory s (if IsEmpty src then src' else src).
Proof.
  assert (Ha : NormalizeChaosAct <$> (NormalizeChaosAct <$> story_Acts s) = NormalizeChaosAct <$> story_Acts s).
  { rewrite <- list_fmap_compose. apply list_fmap_ext. intros i a _. apply NormalizeChaosAct_idemp. }
  unfold NormalizeChaosStory. cbn [story_Title story_Setting story_Severity story_Summary story_Source story_Acts
    story_BlastRadius story_RecoveryHints story_Demo]. rewrite Ha. f_equal.
  - by destruct (IsEmpty (story_Title s)) eqn:E; [|rewrite E].
  - by destruct (IsEmpty (story_Severity s)) eqn:E; [|rewrite E].
  - destruct (IsEmpty (story_Source s)) eqn:E; [by destruct (IsEmpty src) eqn:E2|by rewrite E].
Qed.

(** The canned story needs neither, and every target of it is in its seed. *)
Lemma DemoChaosStory_fixed :
  NormalizeChaosStory DemoChaosStory "ai" = DemoChaosStory ∧ FilterChaosStoryTargets DemoChaosStory DemoChaosStorySeed = DemoChaosStory.
Proof. split; vm_compute; reflexivity. Qed.

(** * Playback *)

(** The acts shown from [current] on, with [fuel] steps at most. *)
Fixpoint playback (fuel : nat) (current actCount : Z) : list Z :=
  match fuel with
  | O => []
  | S fuel => let '(next, done) := NextChaosActIndex current actCount in
              if done then [] else next :: playback fuel next actCount
  end.
Lemma playback_from k fuel n : (0 < n ≤ max_int64)%Z → (0 ≤ k < n)%Z → Z.to_nat (n - k) ≤ fuel →
  playback fuel k n = seqZ (k + 1) (n - 1 - k).
Proof.
  revert k. induction fuel as [|fuel IH]; intros k Hn Hk Hf; [lia|]. cbn. unfold NextChaosActIndex.
  destruct (Z.leb_spec n 0); [lia|]. rewrite i64_id by (unfold is_i64, min_int64, max_int64 in *; lia).
  destruct (Z.leb_spec n (k + 1)).
  - replace (n - 1 - k)%Z with 0%Z by lia. done.
  - rewrite IH by lia. rewrite (seqZ_cons (k + 1)) by lia. f_equal. f_equal; lia.
Qed.

(** A story made from the live inventory, normalised and filtered, points at
    nothing that is not there: every target of every act is the name of a stream, a
    consumer or a concrete subject of the inventory, no target that is in the seed is
    lost, every act lasts from 1 to 30 seconds, and the playback that starts at the
    first act shows every act once and ends. *)
Theorem chaos_stories_stay_within_the_inventory inputs story src i a :
  seed_names (BuildChaosStorySeed inputs) ≠ [] → (Z.of_nat (length (story_Acts story)) ≤ max_int64)%Z →
  let told := FilterChaosStoryTargets (NormalizeChaosStory story src) (BuildChaosStorySeed inputs) in
  story_Acts told !! i = Some a →
  (∀ t, t ∈ act_Targets a → live_name inputs t) ∧
  (∃ a0, story_Acts story !! i = Some a0 ∧ ∀ t, t ∈ act_Targets a ↔
     t ∈ TrimSpace <$> act_Targets a0 ∧ t ∈ seed_names (BuildChaosStorySeed inputs)) ∧
  (1 ≤ act_DurationSec a ≤ 30)%Z ∧
  0%Z :: playback (length (story_Acts told)) 0 (Z.of_nat (length (story_Acts told))) = seqZ 0 (Z.of_nat (length (story_Acts story))).
Proof.
  intros Hseed Hlen told Ha. 
  assert (Htold : story_Acts told = keep_targets (list_to_set (seed_names (BuildChaosStorySeed inputs))) <$> (NormalizeChaosAct <$> story_Acts story)).
  { unfold told, FilterChaosStoryTargets. destruct (Nat.eqb_spec (size (list_to_set (seed_names (BuildChaosStorySeed inputs)) : gset string)) 0) as [E|_]; [|done].
    exfalso. apply size_empty_inv, leibniz_equiv in E. destruct (seed_names (BuildChaosStorySeed inputs)) as [|x l]; [done|].
    assert (x ∈ (∅ : gset string)) by (rewrite <- E; cbn; set_solver). set_solver. }
  assert (Hl : length (story_Acts told) = length (story_Acts story)) by (by rewrite Htold, !length_fmap).
  rewrite Htold in Ha. rewrite !list_lookup_fmap in Ha. destruct (story_Acts story !! i) as [a0|] eqn:E0; [|done]. cbn in Ha.
  injection Ha as <-. destruct (NormalizeChaosAct_spec a0) as (Hd & _ & Ht).
  assert (Htar : ∀ t, t ∈ act_Targets (keep_targets (list_to_set (seed_names (BuildChaosStorySeed inputs))) (NormalizeChaosAct a0)) ↔
     t ∈ TrimSpace <$> act_Targets a0 ∧ t ∈ seed_names (BuildChaosStorySeed inputs)).
  { intros t. unfold keep_targets. cbn [act_Targets]. rewrite elem_of_filter_list, bool_decide_eq_true, elem_of_list_to_set, <- Ht. done. }
  split; [|split; [by exists a0|split; [exact Hd|]]].
  - intros t [_ Hin]%Htar. by apply seed_is_live.
  - rewrite Hl. assert (0 < length (story_Acts story)) by (apply lookup_lt_Some in E0; lia).
    rewrite playback_from by lia. rewrite (seqZ_cons 0) by lia. f_equal. f_equal; lia.
Qed.

(** One stream, and a story that names it and another. *)
Definition sample_inventory : list ChaosStoryInventoryInput := [mkInventory " ORDERS " ["orders.created"; "orders.>"] ["billing"]].
Definition sample_story : ChaosStory :=
  mkStory "" "" "" "" "" [mkAct "" "" "" ["ORDERS"; "PAYMENTS"; " billing"; "orders.>"] 90; mkAct "" "" "" [] 0] [] [] false.
Lemma chaos_stories_stay_within_the_inventory_witness :
  let told := FilterChaosStoryTargets (NormalizeChaosStory sample_story "ai") (BuildChaosStorySeed sample_inventory) in
  (act_Targets <$> story_Acts told) = [["ORDERS"; "billing"]; []] ∧ 0%Z :: playback 2 0 2 = seqZ 0 2.
Proof.
  split; [vm_compute; reflexivity|].
  assert (E : seed_names (BuildChaosStorySeed sample_inventory) = ["ORDERS"; "billing"; "orders.created"]) by (vm_compute; reflexivity).
  refine (proj2 (proj2 (proj2 (chaos_stories_stay_within_the_inventory sample_inventory sample_story "ai" 0
    (mkAct "" "" "traffic_spike" ["ORDERS"; "billing"] 30) _ _ _)))); [by rewrite E|cbn; unfold max_int64; lia|vm_compute; reflexivity].
Defined.
