(* ===== verification/Monitoring.v ===== *)
(** Reading the monitoring endpoints: the hub of snapshots (internal/snapshot/hub.go),
    the read side (internal/app/query), the short cache of topologies
    (internal/app/monitoring/service.go), the proxy of
    internal/api/insights/monitoring.go and [Core.Raw] of internal/api/apikit/core.go.

    Bodies are strings; that a buffer is copied or shared makes no difference, as
    nobody writes to one.  The live executor of a cluster is the class
    [MonitoringLive].  Every reading of the clock is an argument, and so is the answer
    of a flight that a request joins ([JszCall]). *)

From S2P Require Export Prelude GoStrings Jsz.
From Stdlib Require Import Ascii.
From Stdlib.Floats Require Import SpecFloat.

(** * The hub *)

Record RequestReplyProbeResult := mkProbeResult {
  pr_MeasuredAt : Z;
  pr_Subject : string;
  pr_Error : string;
  pr_LatencyMs : spec_float;
  pr_OK : bool;
}.
(** [sn_CapturedAt] is 0 for the zero time. *)
Record ClusterSnapshot := mkSnapshot {
  sn_CapturedAt : Z;
  sn_Varz : string;
  sn_Jsz : string;
  sn_JszTopology : string;
  sn_Connz : string;
  sn_ProbeResults : list RequestReplyProbeResult;
}.
Definition sn_with_time (t : Z) (s : ClusterSnapshot) : ClusterSnapshot :=
  mkSnapshot t (sn_Varz s) (sn_Jsz s) (sn_JszTopology s) (sn_Connz s) (sn_ProbeResults s).

Record SnapshotEvent := mkSnapshotEvent {
  ev_CapturedAt : Z;
  ev_ClusterID : string;
}.
(** A channel has its capacity and what is queued; a publication sends to the
    channels it saw under the lock after it released it: [hub_sends]. *)
Record Hub := mkHub {
  hub_seq : Z;
  hub_entries : gmap string ClusterSnapshot;
  hub_listeners : gmap string (gset nat);
  hub_chans : gmap nat (nat * list SnapshotEvent);
  hub_next : nat;
  hub_sends : list (nat * SnapshotEvent);
}.
Definition NewHub : Hub := mkHub 0 ∅ ∅ ∅ 0 [].

Definition set_listeners (f : gmap string (gset nat) → gmap string (gset nat)) (h : Hub) : Hub :=
  mkHub (hub_seq h) (hub_entries h) (f (hub_listeners h)) (hub_chans h) (hub_next h) (hub_sends h).
Definition set_chan (ch : nat) (c : nat * list SnapshotEvent) (h : Hub) : Hub :=
  mkHub (hub_seq h) (hub_entries h) (hub_listeners h) (<[ch := c]> (hub_chans h)) (hub_next h) (hub_sends h).

(** [publish] up to the release of the lock, and the counter; [now] is the clock. *)
Definition publish (clusterID : string) (snap : ClusterSnapshot) (now : Z) (h : Hub) : Hub :=
  if IsEmpty clusterID then h
  else
    let entry := if Z.eqb (sn_CapturedAt snap) 0 then sn_with_time now snap else snap in
    let ev := mkSnapshotEvent (sn_CapturedAt entry) clusterID in
    mkHub (u64 (hub_seq h + 1)) (<[clusterID := entry]> (hub_entries h)) (hub_listeners h) (hub_chans h) (hub_next h)
      (hub_sends h ++ ((λ ch, (ch, ev)) <$> elements (default ∅ (hub_listeners h !! clusterID)))).

(** [select { case ch <- ev: default: }] *)
Definition try_send (ch : nat) (ev : SnapshotEvent) (h : Hub) : Hub :=
  match hub_chans h !! ch with
  | Some (cap, queue) => if Nat.ltb (length queue) cap then set_chan ch (cap, queue ++ [ev]) h else h
  | None => h
  end.
Definition drop_send (n : nat) (h : Hub) : Hub :=
  mkHub (hub_seq h) (hub_entries h) (hub_listeners h) (hub_chans h) (hub_next h) (delete n (hub_sends h)).

Definition hub_Invalidate (clusterID : string) (h : Hub) : Hub :=
  if IsEmpty clusterID then h
  else mkHub (hub_seq h) (delete clusterID (hub_entries h)) (hub_listeners h) (hub_chans h) (hub_next h) (hub_sends h).

Definition Latest (clusterID : string) (h : Hub) : option ClusterSnapshot := hub_entries h !! clusterID.
(** The results, the time, and whether there are results. *)
Definition ProbeResultsOverlay (clusterID : string) (h : Hub) : list RequestReplyProbeResult * Z * bool :=
  match hub_entries h !! clusterID with
  | None => ([], 0%Z, false)
  | Some e => if Nat.eqb (length (sn_ProbeResults e)) 0 then ([], sn_CapturedAt e, false)
              else (sn_ProbeResults e, sn_CapturedAt e, true)
  end.

(** The new channel; [None] is one that is closed already. *)
Definition SubscribeCluster (clusterID : string) (buffer : Z) (h : Hub) : option nat * Hub :=
  let buffer := if Z.ltb buffer 1 then 8%Z else buffer in
  if IsEmpty clusterID then (None, h)
  else
    let ch := hub_next h in
    let set := default ∅ (hub_listeners h !! clusterID) in
    (Some ch, mkHub (hub_seq h) (hub_entries h) (<[clusterID := {[ch]} ∪ set]> (hub_listeners h))
                (<[ch := (Z.to_nat buffer, [])]> (hub_chans h)) (S ch) (hub_sends h)).
Definition unsubscribe (clusterID : string) (ch : nat) (h : Hub) : Hub :=
  match hub_listeners h !! clusterID with
  | None => h
  | Some set =>
      let set := set ∖ {[ch]} in
      set_listeners (if decide (set = ∅) then delete clusterID else <[clusterID := set]>) h
  end.

(** ** Steps of the hub

    Publications, the sends they leave behind, receptions, subscriptions and
    invalidations interleave. *)
Inductive hub_label :=
  | LPublish (clusterID : string) (snap : ClusterSnapshot) (now : Z)
  | LSend (n : nat)
  | LRecv (ch : nat)
  | LSubscribe (clusterID : string) (buffer : Z)
  | LUnsubscribe (clusterID : string) (ch : nat)
  | LInvalidate (clusterID : string).
Inductive hub_step : Hub → hub_label → Hub → Prop :=
  | step_publish c s now h : hub_step h (LPublish c s now) (publish c s now h)
  | step_send n ch ev h : hub_sends h !! n = Some (ch, ev) → hub_step h (LSend n) (try_send ch ev (drop_send n h))
  | step_recv ch cap ev queue h : hub_chans h !! ch = Some (cap, ev :: queue) →
      hub_step h (LRecv ch) (set_chan ch (cap, queue) h)
  | step_subscribe c b h : hub_step h (LSubscribe c b) (snd (SubscribeCluster c b h))
  | step_unsubscribe c ch h : hub_step h (LUnsubscribe c ch) (unsubscribe c ch h)
  | step_invalidate c h : hub_step h (LInvalidate c) (hub_Invalidate c h).
Inductive hub_steps : Hub → list hub_label → Hub → Prop :=
  | steps_nil h : hub_steps h [] h
  | steps_cons h l h1 ls h2 : hub_step h l h1 → hub_steps h1 ls h2 → hub_steps h (l :: ls) h2.

(** * Monitoring paths *)

Definition RequestReplyConnzPath : string := "/connz?limit=1024&subs=detail".
Definition TopologyJSZPath : string := "/jsz?streams=1&consumers=1&config=1".

Definition byte_at (s : string) (i : nat) (c : ascii) : bool := bool_decide (String.get i s = Some c).
Definition flag_at (query flag : string) (i : nat) : bool :=
  (String.substring i (String.length flag) query =s flag) &&
  (Nat.eqb i 0 || byte_at query (i - 1) "&") &&
  (Nat.eqb (i + String.length flag) (String.length query) || byte_at query (i + String.length flag) "&").
Definition containsQueryFlag (query flag : string) : bool :=
  if query =s flag then true
  else if Nat.ltb (String.length query) (String.length flag) then false
  else existsb (flag_at query flag) (seq 0 (S (String.length query - String.length flag))).

Definition isTopologyJSZ (path : string) : bool :=
  if Nat.ltb (String.length path) 5 || (String.substring 0 5 path <>s "/jsz?") then false
  else
    let q := sdrop 5 path in
    containsQueryFlag q "streams=1" && containsQueryFlag q "consumers=1" && containsQueryFlag q "config=1".

Definition normalizeMonitoringPath (path : string) : string :=
  if IsEmpty path then ""
  else
    let path := if byte_at path 0 "/" then path else "/" +:+ path in
    if path ∈b ["/varz"; "/jsz"; TopologyJSZPath; RequestReplyConnzPath] then path
    else if isTopologyJSZ path then TopologyJSZPath
    else path.

Definition payload_of (path : string) (e : ClusterSnapshot) : option string :=
  let path := normalizeMonitoringPath path in
  if path =s "/varz" then Some (sn_Varz e)
  else if path =s "/jsz" then Some (sn_Jsz e)
  else if path =s TopologyJSZPath then Some (sn_JszTopology e)
  else if path =s RequestReplyConnzPath then Some (sn_Connz e)
  else None.
Definition MonitoringPayload (clusterID path : string) (h : Hub) : option (string * Z) :=
  match hub_entries h !! clusterID with
  | None => None
  | Some e => match payload_of path e with
              | Some raw => if IsEmpty raw then None else Some (raw, sn_CapturedAt e)
              | None => None
              end
  end.

(** * The read side: internal/app/query *)

Inductive merr :=
  | PayloadTooLarge
  | ENotFound | EForbidden | EInvalidInput    (* of package domain *)
  | EUpstream.                                (* any other error *)
#[export] Instance merr_eq_dec : EqDecision merr.
Proof. solve_decision. Defined.

(** [GetExecutor], and [Monitoring] of the executor: the body and its entity tag. *)
Class MonitoringLive (W : Type) := {
  mon_get : string → W → result merr unit * W;
  mon_exec : string → string → W → result merr (string * string) * W;
}.

(** One entry of the cache of topologies. *)
Record jszCacheEntry := mkJszEntry {
  je_raw : string;
  je_parsed : option JSZTopologyPayload;
  je_captured : Z;
  je_expiresAt : Z;
}.
Record MonState (W : Type) := mkMonState {
  ms_hub : option Hub;
  ms_cache : gmap string jszCacheEntry;
  ms_world : W;
}.
Arguments mkMonState {W}.
Arguments ms_hub {W}.
Arguments ms_cache {W}.
Arguments ms_world {W}.

Section Service.
Context {W : Type} `{!MonitoringLive W} `{!JszJson} (maxBodyBytes ttl : Z).
Abbreviation MM := (M (MonState W) merr).

Definition set_cache (f : gmap string jszCacheEntry → gmap string jszCacheEntry) (s : MonState W) : MonState W :=
  mkMonState (ms_hub s) (f (ms_cache s)) (ms_world s).

Definition PreferSnapshotMonitoring (clusterID path : string) (s : MonState W) : option (string * Z) :=
  match ms_hub s with Some h => MonitoringPayload clusterID path h | None => None end.

Definition on_world {A} (f : W → result merr A * W) : MM A := λ s,
  let '(r, w) := f (ms_world s) in (r, mkMonState (ms_hub s) (ms_cache s) w).
Definition GetExecutor (clusterID : string) : MM unit := on_world (mon_get clusterID).
Definition exec_live (clusterID path : string) : MM (string * string) := on_world (mon_exec clusterID path).
Definition fetchLive (now : Z) (clusterID path : string) : MM (string * Z) :=
  GetExecutor clusterID ;;
  let! raw := exec_live clusterID path in
  if Z.ltb 0 maxBodyBytes && Z.ltb maxBodyBytes (Z.of_nat (String.length raw.1)) then fail PayloadTooLarge
  else ret (raw.1, now).
Definition FetchMonitoring (now : Z) (clusterID path : string) (fresh : bool) : MM (string * Z) :=
  let! s := get in
  match (if fresh then None else PreferSnapshotMonitoring clusterID path s) with
  | Some r => ret r
  | None => fetchLive now clusterID path
  end.

(** * The cache of topologies: internal/app/monitoring/service.go *)

Definition getCached (now : Z) (clusterID : string) : MM (option (string * Z)) :=
  let! s := get in
  match ms_cache s !! clusterID with
  | None => ret None
  | Some e =>
      if Z.ltb (je_expiresAt e) now || Nat.eqb (String.length (je_raw e)) 0
      then modify (set_cache (delete clusterID)) ;; ret None
      else ret (Some (je_raw e, je_captured e))
  end.
Definition getCachedParsed (now : Z) (clusterID : string) : MM (option JSZTopologyPayload) :=
  let! s := get in
  ret (match ms_cache s !! clusterID with
       | None => None
       | Some e => if Z.ltb (je_expiresAt e) now then None else je_parsed e
       end).

Definition purge_jsz (now : Z) (cache : gmap string jszCacheEntry) : gmap string jszCacheEntry :=
  if Nat.ltb 1024 (size cache) then filter (λ ke, Z.ltb (je_expiresAt ke.2) now = false) cache else cache.
Definition putCached (now : Z) (clusterID raw : string) (parsed : option JSZTopologyPayload) (captured : Z) : MM unit :=
  if IsEmpty clusterID || Nat.eqb (String.length raw) 0 then ret tt
  else modify (set_cache (λ cache,
    let old := match cache !! clusterID with Some e => je_parsed e | None => None end in
    let parsed := match parsed with Some p => Some p | None => old end in
    purge_jsz now (<[clusterID := mkJszEntry raw parsed captured (now + ttl)]> cache))).

(** What a call meets: the clock at each of its readings, and what [singleflight]
    hands it when a flight of its key (the cluster, and whether fresh) is under way,
    in place of running its function. *)
Record JszCall := mkJszCall {
  jt_cached : Z;    (* getCached, before the flight *)
  jt_again : Z;     (* getCached, in the flight *)
  jt_live : Z;      (* the capture of a live answer *)
  jt_put : Z;       (* putCached *)
  jt_joined : option (result merr (string * Z));
}.

(** The function of a flight. *)
Definition jsz_flight (call : JszCall) (clusterID : string) (fresh : bool) : MM (string * Z) :=
  let! cached := (if fresh then ret None else getCached (jt_again call) clusterID) in
  match cached with
  | Some r => ret r
  | None =>
      let! r := FetchMonitoring (jt_live call) clusterID TopologyJSZPath fresh in
      putCached (jt_put call) clusterID r.1 None r.2 ;;
      ret r
  end.
Definition FetchJSZ (call : JszCall) (clusterID : string) (fresh : bool) : MM (string * Z) :=
  let! cached := (if fresh then ret None else getCached (jt_cached call) clusterID) in
  match cached with
  | Some r => ret r
  | None => match jt_joined call with
            | Some r => lift r
            | None => jsz_flight call clusterID fresh
            end
  end.

(** [parsed_at], [put_at]: the clock in [getCachedParsed] and in [putCached]. *)
Definition FetchAndParse (call : JszCall) (parsed_at put_at : Z) (clusterID : string) (fresh : bool) :
    MM (string * JSZTopologyPayload * Z) :=
  let! r := FetchJSZ call clusterID fresh in
  let! cached := (if fresh then ret None else getCachedParsed parsed_at clusterID) in
  match cached with
  | Some payload => ret (r.1, payload, r.2)
  | None =>
      match ParsePayload r.1 with
      | None => fail EUpstream
      | Some payload => putCached put_at clusterID r.1 (Some payload) r.2 ;; ret (r.1, payload, r.2)
      end
  end.

Definition InvalidateCluster (clusterID : string) : MM unit :=
  if IsEmpty clusterID then ret tt else modify (set_cache (delete clusterID)).

(** internal/api/apikit/core.go, called after every change of a stream or consumer *)
Definition InvalidateSnapshot (clusterID : string) : MM unit :=
  modify (λ s, mkMonState (hub_Invalidate clusterID <$> ms_hub s) (ms_cache s) (ms_world s)).

(** * Answers: internal/api/apikit *)

(** The statuses of [WriteAPIError] for the errors of package domain. *)
Definition domain_status (e : merr) : option Z :=
  match e with
  | ENotFound => Some 404%Z
  | EForbidden => Some 403%Z
  | EInvalidInput => Some 400%Z
  | _ => None
  end.
Definition WriteJSZFetchError (e : merr) : Z := default 502%Z (domain_status e).
Definition CheckIfNoneMatch (if_none_match etag : string) : bool :=
  if IsEmpty etag then false else negb (IsEmpty if_none_match) && (if_none_match =s etag).

(** The status, the body and the entity tag. *)
Record manswer := mkMAnswer { ma_Status : Z; ma_Body : string; ma_ETag : string }.
Definition mstatus (code : Z) : manswer := mkMAnswer code "" "".

(** ** [Core.Raw]; [etag_of] formats the time of a snapshot *)
Definition Raw (etag_of : Z → string) (now : Z) (clusterID path : string) (fresh : bool) (if_none_match : string) : MM manswer :=
  let! s := get in
  match (if fresh then None else PreferSnapshotMonitoring clusterID path s) with
  | Some (data, capturedAt) =>
      if Z.ltb maxBodyBytes (Z.of_nat (String.length data)) then ret (mstatus 502)
      else
        let etag := etag_of capturedAt in
        if CheckIfNoneMatch if_none_match etag then ret (mstatus 304) else ret (mkMAnswer 200 data etag)
  | None =>
      let! r := attempt (GetExecutor clusterID) in
      match r with
      | Err ENotFound => ret (mstatus 404)
      | Err _ => ret (mstatus 502)
      | Ok _ =>
          let! r := attempt (exec_live clusterID path) in
          match r with
          | Err _ => ret (mstatus 502)
          | Ok (data, etag) =>
              if Z.ltb maxBodyBytes (Z.of_nat (String.length data)) then ret (mstatus 502)
              else if CheckIfNoneMatch if_none_match etag then ret (mstatus 304)
              else ret (mkMAnswer 200 data etag)
          end
      end
  end.
End Service.

(** * The proxied endpoints: internal/api/insights/monitoring.go *)

Definition maxMonitoringQueryLimit : Z := 1024.
Definition allowedMonitoringEndpoints : list string :=
  ["varz"; "jsz"; "routez"; "gatewayz"; "leafz"; "connz"; "healthz"; "subsz"; "accountz"; "accstatz"].
Definition monitoringQueryAllow (endpoint : string) : option (list string) :=
  if endpoint ∈b ["varz"; "routez"; "gatewayz"; "leafz"] then Some []
  else if endpoint =s "healthz" then Some ["js-enabled-only"; "js-server-only"]
  else if endpoint ∈b ["accountz"; "accstatz"] then Some ["acc"]
  else if endpoint =s "subsz" then Some ["subs"; "offset"; "limit"]
  else if endpoint =s "connz" then Some ["limit"; "offset"; "auth"; "subs"; "state"; "cid"; "name"; "account"]
  else if endpoint =s "jsz" then Some ["streams"; "consumers"; "config"; "accounts"; "account"; "offset"; "limit"]
  else None.

Definition clamp_limit (val : string) : Z :=
  let n := match Atoi val with Some n => if Z.leb n 0 then maxMonitoringQueryLimit else n | None => maxMonitoringQueryLimit end in
  if Z.ltb maxMonitoringQueryLimit n then maxMonitoringQueryLimit else n.

(** [url.QueryEscape] *)
Definition hex_upper (n : nat) : ascii := ascii_of_nat (if Nat.ltb n 10 then 48 + n else 55 + n).
Definition unreserved (a : ascii) : bool :=
  let n := nat_of_ascii a in
  (Nat.leb 48 n && Nat.leb n 57) || (Nat.leb 65 n && Nat.leb n 90) || (Nat.leb 97 n && Nat.leb n 122) ||
  (a ∈b ["-"%char; "_"%char; "."%char; "~"%char]).
Definition escape_byte (a : ascii) : string :=
  if bool_decide (a = " "%char) then "+"
  else if unreserved a then String a ""
  else String "%" (String (hex_upper (nat_of_ascii a / 16)) (String (hex_upper (nat_of_ascii a mod 16)) "")).
Fixpoint QueryEscape (s : string) : string :=
  match s with "" => "" | String a s => escape_byte a +:+ QueryEscape s end.

(** [url.Values]: the values of a key in order; [Encode] sorts the keys. *)
Abbreviation Values := (gmap string (list string)).
Definition values_Set (k v : string) (vs : Values) : Values := <[k := [v]]> vs.
Definition values_Add (k v : string) (vs : Values) : Values := <[k := default [] (vs !! k) ++ [v]]> vs.
Definition values_pairs (vs : Values) : list (string * string) :=
  flat_map (λ k, (λ v, (k, v)) <$> default [] (vs !! k)) (SortStrings (map_to_list vs).*1).
Definition values_Encode (vs : Values) : string :=
  Join ((λ kv, QueryEscape kv.1 +:+ "=" +:+ QueryEscape kv.2) <$> values_pairs vs) "&".

Section Proxy.
Context `{GoUnicode}.

(** [None]: an error. *)
Definition validateMonitoringEndpoint (endpoint : string) : bool :=
  ToLower (TrimSpace endpoint) ∈b allowedMonitoringEndpoints.

Definition keep_arg (allowed : list string) (vs : Values) (kv : string * string) : Values :=
  let key := ToLower kv.1 in
  if negb (key ∈b allowed) then vs
  else if key =s "limit" then values_Set "limit" (Itoa (clamp_limit kv.2)) vs
  else values_Add key kv.2 vs.
Definition sanitized (endpoint : string) (args : list (string * string)) : Values :=
  match monitoringQueryAllow endpoint with
  | None => ∅
  | Some allowed => foldl (keep_arg allowed) ∅ args
  end.
Definition sanitizeMonitoringQuery (endpoint : string) (args : list (string * string)) : string :=
  values_Encode (sanitized endpoint args).

(** The path asked of NATS; [None]: answered with 400. *)
Definition monitoring_path (endpoint : string) (args : list (string * string)) : option string :=
  let endpoint := ToLower endpoint in
  if negb (validateMonitoringEndpoint endpoint) then None
  else
    let query := sanitizeMonitoringQuery endpoint args in
    Some (if IsEmpty query then "/" +:+ endpoint else "/" +:+ endpoint +:+ "?" +:+ query).

Context {W : Type} `{!MonitoringLive W} (maxBodyBytes : Z) (etag_of : Z → string).
Definition proxy_Monitoring (now : Z) (clusterID endpoint : string) (args : list (string * string)) (fresh : bool)
    (if_none_match : string) : M (MonState W) merr manswer :=
  match monitoring_path endpoint args with
  | None => ret (mstatus 400)
  | Some path => Raw maxBodyBytes etag_of now clusterID path fresh if_none_match
  end.
End Proxy.

(** * The reports: internal/api/insights/{zombies,subject_naming,event_genome,event_catalog,event_wikipedia,chaos_story}.go *)

Section Insights.
Context `{GoUnicode} {W : Type} `{!MonitoringLive W} `{!JszJson} (maxBodyBytes ttl : Z).

(** Fetch, read, analyse; the status of a failure, or the report and its time, [now]
    for a body that has none. *)
Definition insight {A} (analyse : string → option A) (call : JszCall) (now : Z) (clusterID : string) (fresh : bool) :
    M (MonState W) merr (result Z (A * Z)) :=
  let! r := attempt (FetchJSZ maxBodyBytes ttl call clusterID fresh) in
  match r with
  | Err e => ret (Err (WriteJSZFetchError e))
  | Ok (raw, capturedAt) =>
      match analyse raw with
      | None => ret (Err 502%Z)
      | Some a => ret (Ok (a, if Z.eqb capturedAt 0 then now else capturedAt))
      end
  end.

Definition Zombies := insight (λ raw, AnalyzeZombies <$> ZombieStreamsFromJSZ raw).
Definition SubjectNaming range := insight (λ raw, AnalyzeSubjectNaming range <$> SubjectNamingInputsFromJSZ raw).
Definition EventGenome range := insight (λ raw, AnalyzeEventGenome range <$> EventGenomeInputsFromJSZ raw).
Definition loadChaosStorySeed := insight (λ raw, BuildChaosStorySeed <$> ChaosStoryInputsFromJSZ raw).

(** The story, when the canned one was asked for, and the seed. *)
Definition ChaosStory (demo : bool) (call : JszCall) (now : Z) (clusterID : string) (fresh : bool) :
    M (MonState W) merr (result Z (option ChaosStory * ChaosStorySeed)) :=
  if demo then ret (Ok (Some DemoChaosStory, DemoChaosStorySeed))
  else
    let! r := loadChaosStorySeed call now clusterID fresh in
    ret (match r with Err st => Err st | Ok (seed, _) => Ok (None, seed) end).

(** [docs]: what the database answers to [ListDocs]. *)
Definition with_docs {A B} (docs : result err (list EventCatalogDoc)) (f : A → list EventCatalogDoc → B)
    (r : result Z (A * Z)) : result Z (B * Z) :=
  match r with
  | Err st => Err st
  | Ok (a, at_) => match docs with
                   | Err e => Err (catalog_status e)
                   | Ok docs => Ok (f a docs, at_)
                   end
  end.
Definition catalog_List ranges range docs call now clusterID fresh : M (MonState W) merr (result Z (EventCatalogSnapshot * Z)) :=
  let! r := insight EventCatalogLiveFromJSZ call now clusterID fresh in
  ret (with_docs docs (BuildEventCatalog ranges range) r).

Definition wikipedia_inputs (raw : string) : option (list EventCatalogLiveStream * list NamingInput) :=
  match EventCatalogLiveFromJSZ raw, EventGenomeInputsFromJSZ raw with
  | Some live, Some inputs => Some (live, inputs)
  | _, _ => None
  end.
Definition wikipedia_List ranges range rangec rangeg docs (subjectFilter : string) call now clusterID fresh :
    M (MonState W) merr (result Z (EventWikipediaSnapshot * Z)) :=
  let! r := insight wikipedia_inputs call now clusterID fresh in
  ret (with_docs docs (λ li docs,
    FilterEventWikipediaPages
      (BuildEventWikipedia rangec (BuildEventCatalog ranges range li.1 docs) (AnalyzeEventGenome rangeg li.2)) subjectFilter) r).
End Insights.
