(* ===== verification/MonitoringQuery.v ===== *)
(** What a proxied monitoring query can ask of NATS: the keys of the endpoint's
    allow list and no others, whatever the request carried; and when the hub answers
    a path. *)

From S2P Require Export Monitoring.
From S2P Require Import GoStrings.
From Stdlib Require Import Ascii.

(** * Reading a query back

    [url.ParseQuery], for queries without a semicolon. *)

Definition unhex (a : ascii) : option nat :=
  let n := nat_of_ascii a in
  if Nat.leb 48 n && Nat.leb n 57 then Some (n - 48)
  else if Nat.leb 65 n && Nat.leb n 70 then Some (n - 55)
  else if Nat.leb 97 n && Nat.leb n 102 then Some (n - 87)
  else None.
Fixpoint QueryUnescape (s : string) : option string :=
  match s with
  | "" => Some ""
  | String "%" (String h (String l t)) =>
      match unhex h, unhex l, QueryUnescape t with
      | Some h, Some l, Some t => Some (String (ascii_of_nat (16 * h + l)) t)
      | _, _, _ => None
      end
  | String "%" _ => None
  | String "+" t => String " " <$> QueryUnescape t
  | String a t => String a <$> QueryUnescape t
  end.
Definition parse_pair (p : string) : option (string * string) :=
  let '(k, v, _) := Cut p "=" in
  match QueryUnescape k, QueryUnescape v with Some k, Some v => Some (k, v) | _, _ => None end.
Definition ParseQuery (q : string) : option (list (string * string)) :=
  mapM parse_pair (List.filter (λ p, negb (IsEmpty p)) (Split q "&")).

Lemma unescape_byte a t : QueryUnescape (escape_byte a +:+ t) = String a <$> QueryUnescape t.
Proof. destruct a as [[] [] [] [] [] [] [] []]; cbn; try done. Qed.
Lemma QueryUnescape_Escape s : QueryUnescape (QueryEscape s) = Some s.
Proof. induction s as [|a s IH]; [done|]. cbn. by rewrite unescape_byte, IH. Qed.

Lemma escape_no_sep s : ContainsByte (QueryEscape s) "&" = false ∧ ContainsByte (QueryEscape s) "=" = false.
Proof.
  induction s as [|a s IH]; [done|]. cbn. rewrite !ContainsByte_app, (proj1 IH), (proj2 IH), !orb_false_r.
  destruct a as [[] [] [] [] [] [] [] []]; split; vm_compute; reflexivity.
Qed.

Definition encode_pair (kv : string * string) : string := QueryEscape kv.1 +:+ "=" +:+ QueryEscape kv.2.
Lemma encode_pair_no_amp kv : ContainsByte (encode_pair kv) "&" = false.
Proof. unfold encode_pair. by rewrite !ContainsByte_app, !(proj1 (escape_no_sep _)). Qed.
Lemma encode_pair_nonempty kv : IsEmpty (encode_pair kv) = false.
Proof. apply IsEmpty_false. unfold encode_pair. by destruct (QueryEscape kv.1). Qed.
Lemma parse_encode_pair kv : parse_pair (encode_pair kv) = Some kv.
Proof.
  unfold parse_pair, encode_pair. change ("=" +:+ ?t) with (String "=" t).
  rewrite Cut_app by apply escape_no_sep. rewrite !QueryUnescape_Escape. by destruct kv.
Qed.

(** Reading an encoded query gives the pairs that were encoded. *)
Lemma ParseQuery_Encode vs : ParseQuery (values_Encode vs) = Some (values_pairs vs).
Proof.
  unfold values_Encode, ParseQuery. change (fmap _ (values_pairs vs)) with (encode_pair <$> values_pairs vs).
  destruct (decide (values_pairs vs = [])) as [->|Hne]; [done|].
  rewrite Split_Join; [|by destruct (values_pairs vs)|apply Forall_fmap, Forall_true, encode_pair_no_amp].
  clear Hne. induction (values_pairs vs) as [|kv l IH]; [done|]. cbn. rewrite encode_pair_nonempty. cbn.
  by rewrite parse_encode_pair, IH.
Qed.

(** * The sanitized query *)

Lemma in_values_pairs vs k v : (k, v) ∈ values_pairs vs ↔ ∃ l, vs !! k = Some l ∧ v ∈ l.
Proof.
  unfold values_pairs. rewrite list_elem_of_In, in_flat_map. split.
  - intros (k' & _ & Hin). apply list_elem_of_In, list_elem_of_fmap in Hin as (v' & [= -> ->] & Hv).
    destruct (vs !! k') as [l|]; [by exists l|by apply not_elem_of_nil in Hv].
  - intros (l & Hl & Hv). exists k. rewrite Hl. split.
    + apply list_elem_of_In. rewrite SortStrings_perm. apply list_elem_of_fmap. exists (k, l). split; [done|]. by apply elem_of_map_to_list.
    + apply list_elem_of_In, list_elem_of_fmap. by exists v.
Qed.

Section Sanitize.
Context `{GoUnicode}.

(** What the values hold of the arguments read so far. *)
Record sanitized_from (allowed : list string) (args : list (string * string)) (vs : Values) : Prop := {
  sf_allowed k v : (k, v) ∈ values_pairs vs → k ∈ allowed;
  sf_other k v : k ≠ "limit" → (k, v) ∈ values_pairs vs ↔ k ∈ allowed ∧ ∃ k0, ToLower k0 = k ∧ (k0, v) ∈ args;
  sf_limit l : vs !! "limit" = Some l → ∃ n, l = [Itoa n] ∧ (1 ≤ n ≤ maxMonitoringQueryLimit)%Z;
}.

Lemma in_no_values k v : (k, v) ∉ values_pairs ∅.
Proof. intros (l & Hl & _)%in_values_pairs. by rewrite lookup_empty in Hl. Qed.
Lemma no_values allowed args : allowed = [] ∨ args = [] → sanitized_from allowed args ∅.
Proof.
  intros Hno. split; [by intros k v ?%in_no_values| |by intros l; rewrite lookup_empty].
  intros k v _. split; [by intros ?%in_no_values|]. intros [Hk (k0 & _ & Hin)].
  destruct Hno as [-> | ->]; [by apply not_elem_of_nil in Hk|by apply not_elem_of_nil in Hin].
Qed.

Lemma clamp_limit_range v : (1 ≤ clamp_limit v ≤ maxMonitoringQueryLimit)%Z.
Proof. unfold clamp_limit, maxMonitoringQueryLimit. repeat (case_match; go_bool); lia. Qed.

Lemma keep_arg_from allowed args vs kv : sanitized_from allowed args vs → sanitized_from allowed (args ++ [kv]) (keep_arg allowed vs kv).
Proof.
  intros [Ha Ho Hl]. destruct kv as [k0 v0]. unfold keep_arg. cbn.
  destruct (ToLower k0 ∈b allowed) eqn:Ea; cbn.
  2:{ assert (Hn : ToLower k0 ∉ allowed) by (rewrite <- elem_of_bool_spec; congruence). split; [done| |done].
      intros k v Hk. rewrite (Ho k v Hk). split; intros [Hin (k1 & E & Hk1)]; (split; [done|]).
      - exists k1. split; [done|]. apply elem_of_app. by left.
      - apply elem_of_app in Hk1 as [Hk1|Hk1]; [by exists k1|]. apply list_elem_of_singleton in Hk1 as [= -> ->].
        by subst k. }
  apply elem_of_bool_spec in Ea. case_bool_decide as El.
  - split.
    + intros k v (l & Hk & Hv)%in_values_pairs. unfold values_Set in Hk. apply lookup_insert_Some in Hk as [[<- _]|[_ Hk]]; [by rewrite <- El|].
      apply (Ha k v). apply in_values_pairs. by exists l.
    + intros k v Hk. rewrite in_values_pairs. unfold values_Set. rewrite lookup_insert_ne by done. rewrite <- in_values_pairs, Ho by done.
      split; intros [Hin (k1 & E & Hk1)]; (split; [done|]).
      * exists k1. split; [done|]. apply elem_of_app. by left.
      * apply elem_of_app in Hk1 as [Hk1|Hk1]; [by exists k1|]. apply list_elem_of_singleton in Hk1 as [= -> ->]. congruence.
    + intros l. unfold values_Set. rewrite lookup_insert_eq. intros [= <-]. exists (clamp_limit v0). split; [done|apply clamp_limit_range].
  - assert (Hadd : ∀ k v, (k, v) ∈ values_pairs (values_Add (ToLower k0) v0 vs) ↔
        (k, v) ∈ values_pairs vs ∨ k = ToLower k0 ∧ v = v0).
    { intros k v. rewrite !in_values_pairs. unfold values_Add. destruct (decide (k = ToLower k0)) as [->|Hne].
      - rewrite lookup_insert_eq. split.
        + intros (l & [= <-] & [Hv|Hv]%elem_of_app); [left|right; by apply list_elem_of_singleton in Hv].
          destruct (vs !! ToLower k0) as [l|]; [by exists l|by apply not_elem_of_nil in Hv].
        + intros [(l & -> & Hv)|[_ ->]]; eexists; (split; [done|]); apply elem_of_app; [by left|right; by apply list_elem_of_singleton].
      - rewrite lookup_insert_ne by done. split; [by left|]. by intros [?|[? _]]. }
    split.
    + intros k v [Hin|[-> _]]%Hadd; [by eapply Ha|done].
    + intros k v Hk. rewrite Hadd, (Ho k v Hk). split.
      * intros [[Hin (k1 & E & Hk1)]|[-> ->]].
        -- split; [done|]. exists k1. split; [done|]. apply elem_of_app. by left.
        -- split; [done|]. exists k0. split; [done|]. apply elem_of_app. right. by apply list_elem_of_singleton.
      * intros [Hin (k1 & E & [Hk1|Hk1]%elem_of_app)]; [left; by split; [|exists k1]|].
        apply list_elem_of_singleton in Hk1 as [= -> ->]. by right.
    + intros l. unfold values_Add. rewrite lookup_insert_ne by done. apply Hl.
Qed.

Lemma keep_args_from allowed args : sanitized_from allowed args (foldl (keep_arg allowed) ∅ args).
Proof.
  induction args as [|kv args IH] using rev_ind.
  - apply no_values. by right.
  - rewrite foldl_app. cbn. by apply keep_arg_from.
Qed.

(** C32. Whatever the request's arguments are, the query sent to NATS reads back as
    exactly: the arguments whose key, in lower case, is on the endpoint's list, and
    at most one limit, a number from 1 to 1024; an endpoint without a list sends
    none.  The escapes leave no way to smuggle another key in. *)
Theorem proxied_query_is_allowed endpoint args path : monitoring_path endpoint args = Some path →
  ∃ query pairs allowed,
    path = "/" +:+ ToLower endpoint +:+ (if IsEmpty query then "" else "?" +:+ query) ∧
    ToLower (TrimSpace (ToLower endpoint)) ∈ allowedMonitoringEndpoints ∧
    ParseQuery query = Some pairs ∧
    allowed = default [] (monitoringQueryAllow (ToLower endpoint)) ∧
    (∀ k v, (k, v) ∈ pairs → k ∈ allowed) ∧
    (∀ k v, k ≠ "limit" → (k, v) ∈ pairs ↔ k ∈ allowed ∧ ∃ k0, ToLower k0 = k ∧ (k0, v) ∈ args) ∧
    (∀ v, ("limit", v) ∈ pairs → ∃ n, v = Itoa n ∧ (1 ≤ n ≤ maxMonitoringQueryLimit)%Z) ∧
    (∀ v w, ("limit", v) ∈ pairs → ("limit", w) ∈ pairs → v = w).
Proof.
  unfold monitoring_path. destruct (validateMonitoringEndpoint _) eqn:Ev; [|done]. cbn. intros [= <-].
  exists (sanitizeMonitoringQuery (ToLower endpoint) args), (values_pairs (sanitized (ToLower endpoint) args)),
    (default [] (monitoringQueryAllow (ToLower endpoint))).
  split; [destruct (IsEmpty _); [by rewrite app_nil_r|done]|]. split; [by apply elem_of_bool_spec|]. split; [apply ParseQuery_Encode|]. split; [done|].
  assert (Hs : sanitized_from (default [] (monitoringQueryAllow (ToLower endpoint))) args (sanitized (ToLower endpoint) args)).
  { unfold sanitized. destruct (monitoringQueryAllow _) as [al|]; [apply keep_args_from|]. cbn.
    apply no_values. by left. }
  destruct Hs as [Ha Ho Hl]. split; [done|]. split; [done|].
  assert (Hlim : ∀ v, ("limit", v) ∈ values_pairs (sanitized (ToLower endpoint) args) →
      ∃ n, sanitized (ToLower endpoint) args !! "limit" = Some [Itoa n] ∧ v = Itoa n ∧ (1 ≤ n ≤ maxMonitoringQueryLimit)%Z).
  { intros v (l & Hv & Hin)%in_values_pairs. destruct (Hl l Hv) as (n & -> & Hn). exists n. by apply list_elem_of_singleton in Hin. }
  split.
  - intros v (n & _ & -> & Hn)%Hlim. by exists n.
  - intros v w (n & En & -> & _)%Hlim (m & Em & -> & _)%Hlim. congruence.
Qed.
End Sanitize.

(** A request for one account, with a limit. *)
Lemma proxied_query_is_allowed_witness :
  monitoring_path (H := ascii_only) "JSZ" [("Account", "a&b=c"); ("limit", "5000"); ("acc", "x")]
    = Some "/jsz?account=a%26b%3Dc&limit=1024" ∧
  ParseQuery "account=a%26b%3Dc&limit=1024" = Some [("account", "a&b=c"); ("limit", "1024")].
Proof.
  assert (E : monitoring_path (H := ascii_only) "JSZ" [("Account", "a&b=c"); ("limit", "5000"); ("acc", "x")]
    = Some "/jsz?account=a%26b%3Dc&limit=1024") by (vm_compute; reflexivity).
  split; [exact E|]. pose proof (proxied_query_is_allowed _ _ _ E) as (q & ps & al & Hq & _). vm_compute. reflexivity.
Defined.

(** * The flags of a query *)

Lemma Split_app_any s c t : Split (s +:+ String c t) c = Split s c ++ Split t c.
Proof.
  induction s as [|a s IH]; cbn.
  - by rewrite app_nil_l; cbn; rewrite bool_decide_eq_true_2.
  - rewrite app_cons. cbn. rewrite IH. case_bool_decide; [done|].
    pose proof (Split_nonempty s c). by destruct (Split s c).
Qed.

(** The text starts or ends at a separator. *)
Definition starts_item (pre : string) (c : ascii) : Prop := pre = "" ∨ ∃ p, pre = p +:+ String c "".
Definition ends_item (post : string) (c : ascii) : Prop := post = "" ∨ ∃ p, post = String c p.

Lemma Join_app l k sep : l ≠ [] → k ≠ [] → Join (l ++ k) sep = Join l sep +:+ sep +:+ Join k sep.
Proof.
  intros Hl Hk. induction l as [|x l IH]; [done|]. destruct l as [|y l].
  - destruct k; [done|]. apply Join_cons.
  - cbn [app] in *. rewrite !Join_cons, IH by done. by rewrite !app_assoc.
Qed.

Lemma elem_of_Split x s c : ContainsByte x c = false →
  x ∈ Split s c ↔ ∃ pre post, s = pre +:+ x +:+ post ∧ starts_item pre c ∧ ends_item post c.
Proof.
  intros Hx. split.
  - intros (l1 & l2 & El)%list_elem_of_split. rewrite <- (Join_Split s c), El. 
    assert (Hl : Join (x :: l2) (String c "") = x +:+ match l2 with [] => "" | _ => String c (Join l2 (String c "")) end).
    { destruct l2; [by rewrite app_nil_r|]. by rewrite Join_cons. }
    destruct l1 as [|y l1].
    + cbn [app]. eexists "", _. split; [exact Hl|]. split; [by left|]. destruct l2; [by left|right; eauto].
    + rewrite Join_app, Hl by done. eexists (Join (y :: l1) (String c "") +:+ String c ""), _.
      split; [by rewrite !app_assoc|]. split; [right; eauto|]. destruct l2; [by left|right; eauto].
  - intros (pre & post & -> & Hpre & Hpost).
    assert (Hin : x ∈ Split (x +:+ post) c).
    { destruct Hpost as [->|[p ->]]; [rewrite app_nil_r, Split_absent by done|rewrite Split_app by done]; by left. }
    destruct Hpre as [->|[p ->]]; [done|]. rewrite app_assoc. change (String c "" +:+ ?t) with (String c t).
    rewrite Split_app_any. apply elem_of_app. by right.
Qed.

Lemma substring_split s i n : i + n ≤ String.length s →
  ∃ pre post, s = pre +:+ String.substring i n s +:+ post ∧ String.length pre = i ∧ String.length (String.substring i n s) = n.
Proof.
  revert i n. induction s as [|a s IH]; intros i n Hle; cbn in Hle.
  - assert (i = 0 ∧ n = 0) as [-> ->] by lia. by exists "", "".
  - destruct i as [|i]; cbn.
    + destruct n as [|n]; [by exists "", (String a s)|]. destruct (IH 0 n) as (pre & post & E & Hpre & Hlen); [lia|].
      destruct pre; [|done]. exists "", post. rewrite app_nil_l in *. rewrite app_cons, <- E. cbn. by rewrite Hlen.
    + destruct (IH i n) as (pre & post & E & Hpre & Hlen); [lia|]. exists (String a pre), post. rewrite app_cons, <- E. cbn. by rewrite Hpre.
Qed.
Lemma substring_app pre x post : String.substring (String.length pre) (String.length x) (pre +:+ x +:+ post) = x.
Proof.
  induction pre as [|a pre IH].
  - rewrite app_nil_l. cbn. induction x as [|b x IH]; cbn; [by destruct post|]. rewrite app_cons; cbn; by rewrite IH.
  - rewrite app_cons. cbn. apply IH.
Qed.
Lemma byte_at_app pre post c : byte_at (pre +:+ post) (String.length pre) c = byte_at post 0 c.
Proof. induction pre as [|a pre IH]; [done|]. rewrite app_cons. apply IH. Qed.

Lemma starts_item_bool pre post : starts_item pre "&" ↔
  Nat.eqb (String.length pre) 0 || byte_at (pre +:+ post) (String.length pre - 1) "&" = true.
Proof.
  unfold starts_item. rewrite orb_true_iff, Nat.eqb_eq. destruct (decide (pre = "")) as [->|Hne]; [split; [by left|by left]|].
  assert (Hl : String.length pre ≠ 0) by (by destruct pre).
  assert (∃ p a, pre = p +:+ String a "") as (p & a & ->).
  { clear Hl. induction pre as [|b pre IH]; [done|]. destruct (decide (pre = "")) as [->|Hp]; [by exists "", b|].
    destruct (IH Hp) as (p & a & ->). by exists (String b p), a. }
  rewrite length_app_string. cbn. rewrite Nat.add_sub, app_assoc, byte_at_app. unfold byte_at. cbn. rewrite bool_decide_eq_true.
  split.
  - intros [?|[q Hq]]; [done|]. right. f_equal. apply (f_equal (λ t, byte_at t (String.length p) "&")) in Hq as Hb.
    assert (Elen : String.length p = String.length q) by (apply (f_equal String.length) in Hq; rewrite !length_app_string in Hq; cbn in Hq; lia).
    rewrite byte_at_app, Elen, byte_at_app in Hb. unfold byte_at in Hb. cbn in Hb. case_bool_decide; [by simplify_eq|done].
  - intros [?|[= ->]]; [lia|]. right. by exists p.
Qed.
Lemma ends_item_bool pre post : ends_item post "&" ↔
  Nat.eqb (String.length pre) (String.length (pre +:+ post)) || byte_at (pre +:+ post) (String.length pre) "&" = true.
Proof.
  unfold ends_item. rewrite orb_true_iff, Nat.eqb_eq, byte_at_app, length_app_string. unfold byte_at. destruct post as [|a post]; cbn.
  - split; [intros _; left; lia|by left].
  - rewrite bool_decide_eq_true. split; [intros [?|[p [= -> ->]]]; [done|by right]|]. intros [?|[= ->]]; [lia|right; eauto].
Qed.

(** A flag is one of the items between the ampersands. *)
Lemma containsQueryFlag_spec query flag : ContainsByte flag "&" = false →
  containsQueryFlag query flag = true ↔ flag ∈ Split query "&".
Proof.
  intros Hf. rewrite elem_of_Split by done. unfold containsQueryFlag. case_bool_decide as Eq.
  { subst. split; [|done]. intros _. exists "", "". rewrite app_nil_r. by split_and!; [|left..]. }
  destruct (Nat.ltb_spec (String.length query) (String.length flag)) as [Hlt|Hle].
  { split; [done|]. intros (pre & post & -> & _). rewrite !length_app_string in Hlt. lia. }
  rewrite existsb_true_iff. split.
  - intros (i & Hi & Hat). apply elem_of_seq in Hi. unfold flag_at in Hat. rewrite !andb_true_iff in Hat. destruct Hat as [[Hs Hpre] Hpost].
    apply bool_decide_eq_true in Hs. destruct (substring_split query i (String.length flag)) as (pre & post & E & Hlen & _); [lia|].
    rewrite Hs in E. exists pre, post. split; [done|]. subst i query. split.
    + by apply (starts_item_bool _ (flag +:+ post)).
    + apply (ends_item_bool (pre +:+ flag)). rewrite length_app_string. by rewrite app_assoc.
  - intros (pre & post & -> & Hpre & Hpost). exists (String.length pre). split.
    + apply elem_of_seq. rewrite !length_app_string. lia.
    + unfold flag_at. rewrite substring_app, bool_decide_eq_true_2 by done. apply (starts_item_bool _ (flag +:+ post)) in Hpre.
      rewrite Hpre. apply (ends_item_bool (pre +:+ flag)) in Hpost. rewrite length_app_string, app_assoc in Hpost. by rewrite Hpost.
Qed.

(** The hub takes a query for the topology when it has the three flags, whatever
    else it has. *)
Lemma isTopologyJSZ_spec path : isTopologyJSZ path = true ↔
  ∃ q, path = "/jsz?" +:+ q ∧ "streams=1" ∈ Split q "&" ∧ "consumers=1" ∈ Split q "&" ∧ "config=1" ∈ Split q "&".
Proof.
  unfold isTopologyJSZ. split.
  - destruct (Nat.ltb_spec (String.length path) 5) as [|Hlen]; [done|]. cbn [orb].
    destruct (substring_split path 0 5) as (pre & post & Ep & Hpre & _); [lia|]. destruct pre; [|done].
    case_bool_decide as E; cbn [negb]; [|done]. rewrite E, app_nil_l in Ep.
    rewrite Ep, (sdrop_app "/jsz?" post : sdrop 5 ("/jsz?" +:+ post) = post).
    rewrite !andb_true_iff, !containsQueryFlag_spec by done. intros [[H1 H2] H3]. by exists post.
  - intros (q & -> & H1 & H2 & H3). assert (Nat.ltb (String.length ("/jsz?" +:+ q)) 5 = false) as ->.
    { apply Nat.ltb_ge. rewrite length_app_string. cbn. lia. }
    assert (String.substring 0 5 ("/jsz?" +:+ q) = "/jsz?") as -> by (apply (substring_app "" "/jsz?" q)).
    rewrite bool_decide_eq_true_2 by done. cbn [orb negb].
    rewrite (sdrop_app "/jsz?" q : sdrop 5 ("/jsz?" +:+ q) = q). by rewrite !andb_true_iff, !containsQueryFlag_spec.
Qed.

(** The topology of one account is asked for, and every account's is answered. *)
Lemma account_filter_is_ignored e :
  monitoring_path (H := ascii_only) "jsz" [("streams", "1"); ("consumers", "1"); ("config", "1"); ("account", "A")]
    = Some "/jsz?account=A&config=1&consumers=1&streams=1" ∧
  payload_of "/jsz?account=A&config=1&consumers=1&streams=1" e = Some (sn_JszTopology e).
Proof. split; vm_compute; reflexivity. Qed.

(** An endpoint with a space passes the check, and is asked for with the space. *)
Lemma endpoint_is_not_trimmed : monitoring_path (H := ascii_only) "varz " [] = Some "/varz ".
Proof. vm_compute. reflexivity. Qed.
