(* ===== verification/MonitoringFacts.v ===== *)
(** What the read side of monitoring guarantees: subscribers of the hub hear of
    refreshes, what a fresh topology is, what the cache does not see,
    and what a proxied query can ask. *)

From S2P Require Export Monitoring.
From S2P Require Import GoStrings.
From Stdlib Require Import Ascii.

(** * The hub *)

(** Channels have room for one event at least and are no fuller than that; a
    listener is a channel that hears of one cluster only. *)
Definition hears (owner : nat → string) (h : Hub) : Prop :=
  (∀ c set ch, hub_listeners h !! c = Some set → ch ∈ set → owner ch = c ∧ is_Some (hub_chans h !! ch)) ∧
  (∀ ch cap q, hub_chans h !! ch = Some (cap, q) → 1 ≤ cap ∧ length q ≤ cap ∧ ch < hub_next h ∧
     ∀ ev, ev ∈ q → ev_ClusterID ev = owner ch) ∧
  (∀ ch ev, (ch, ev) ∈ hub_sends h → ev_ClusterID ev = owner ch ∧ is_Some (hub_chans h !! ch)).
Definition hub_ok (h : Hub) : Prop := ∃ owner, hears owner h.

Lemma NewHub_ok : hub_ok NewHub.
Proof.
  exists (λ _, ""). split; [|split]; cbn.
  - intros c set ch. by rewrite lookup_empty.
  - intros ch cap q. by rewrite lookup_empty.
  - by intros ch ev ?%not_elem_of_nil.
Qed.

Lemma publish_hears owner c s now h : hears owner h → hears owner (publish c s now h).
Proof.
  intros (Hl & Hc & Hs). unfold publish. destruct (IsEmpty c); [done|]. split; [|split]; cbn; [done|done|].
  intros ch ev [Hin|Hin]%elem_of_app; [by apply Hs|]. apply list_elem_of_fmap in Hin as (ch' & [= -> ->] & Hin). cbn.
  rewrite elem_of_elements in Hin. destruct (hub_listeners h !! c) as [set|] eqn:El; cbn in Hin; [|set_solver].
  destruct (Hl c set ch' El Hin) as [-> ?]. done.
Qed.
Lemma set_chan_hears owner ch cap q q' h : hears owner h → hub_chans h !! ch = Some (cap, q) → length q' ≤ cap →
  (∀ ev, ev ∈ q' → ev_ClusterID ev = owner ch) → hears owner (set_chan ch (cap, q') h).
Proof.
  intros (Hl & Hc & Hs) Hch Hlen Hq. assert (Hsome : ∀ x, is_Some (hub_chans h !! x) → is_Some (<[ch := (cap, q')]> (hub_chans h) !! x)).
  { intros x Hx. destruct (decide (x = ch)) as [->|Hne]; [by rewrite lookup_insert_eq|by rewrite lookup_insert_ne]. }
  split; [|split]; cbn.
  - intros c set x Hx Hin. destruct (Hl c set x Hx Hin). auto.
  - intros x cap' r [[<- [= <- <-]]|[_ Hx]]%lookup_insert_Some; [|by apply Hc]. destruct (Hc ch cap q Hch) as (? & _ & ? & _). done.
  - intros x ev Hin. destruct (Hs x ev Hin). auto.
Qed.
Lemma drop_send_hears owner n h : hears owner h → hears owner (drop_send n h).
Proof.
  intros (Hl & Hc & Hs). split; [|split]; cbn; [done|done|]. intros ch ev Hin. apply Hs.
  eapply elem_of_sublist; [exact Hin|apply sublist_delete].
Qed.
Lemma try_send_hears owner ch ev h : hears owner h → ev_ClusterID ev = owner ch → hears owner (try_send ch ev h).
Proof.
  intros Hh He. unfold try_send. destruct (hub_chans h !! ch) as [[cap q]|] eqn:Ech; [|done].
  destruct (Nat.ltb (length q) cap) eqn:Elt; [|done]. apply Nat.ltb_lt in Elt. eapply set_chan_hears; [done|done| |].
  - rewrite length_app. cbn. lia.
  - pose proof Hh as (_ & Hc & _). destruct (Hc _ _ _ Ech) as (_ & _ & _ & Hq).
    intros e [Hin| ->%list_elem_of_singleton]%elem_of_app; [by apply Hq|done].
Qed.

Lemma subscribe_hears owner c b h : hears owner h → c ≠ "" →
  hears (λ ch, if Nat.eqb ch (hub_next h) then c else owner ch) (snd (SubscribeCluster c b h)).
Proof.
  intros (Hl & Hc & Hs) Hne. unfold SubscribeCluster. apply IsEmpty_false in Hne. rewrite Hne. cbn [snd].
  assert (Hold : ∀ ch, is_Some (hub_chans h !! ch) → Nat.eqb ch (hub_next h) = false).
  { intros ch [[cap q] Hch]. destruct (Hc _ _ _ Hch) as (_ & _ & ? & _). apply Nat.eqb_neq. lia. }
  split; [|split]; cbn.
  - intros c' set ch [[<- <-]|[_ Hset]]%lookup_insert_Some Hin.
    + apply elem_of_union in Hin as [->%elem_of_singleton|Hin].
      * rewrite Nat.eqb_refl, lookup_insert_eq. done.
      * destruct (hub_listeners h !! c) as [set|] eqn:El; cbn in Hin; [|set_solver].
        destruct (Hl c set ch El Hin) as [-> Hsome]. rewrite (Hold _ Hsome). split; [done|].
        apply lookup_insert_is_Some. destruct (decide (hub_next h = ch)); [by left|by right].
    + destruct (Hl c' set ch Hset Hin) as [-> Hsome]. rewrite (Hold _ Hsome). split; [done|].
      apply lookup_insert_is_Some. destruct (decide (hub_next h = ch)); [by left|by right].
  - intros ch cap q [[<- [= <- <-]]|[Hne' Hch]]%lookup_insert_Some.
    + cbn. split_and!; try lia; [|by intros ev ?%not_elem_of_nil]. destruct (Z.ltb_spec b 1); lia.
    + destruct (Hc _ _ _ Hch) as (? & ? & ? & Hq). rewrite (Hold ch) by done. split_and!; try done. lia.
  - intros ch ev Hin. destruct (Hs ch ev Hin) as [-> Hsome]. rewrite (Hold _ Hsome). split; [done|].
    apply lookup_insert_is_Some. destruct (decide (hub_next h = ch)); [by left|by right].
Qed.

Lemma hub_step_ok h l h' : hub_ok h → hub_step h l h' → hub_ok h'.
Proof.
  intros [owner Hh] Hst. destruct Hst as [c s now h|n ch ev h Hn|ch cap ev q h Hch|c b h|c ch h|c h].
  - exists owner. by apply publish_hears.
  - exists owner. apply try_send_hears; [by apply drop_send_hears|]. destruct Hh as (_ & _ & Hs). by eapply Hs, list_elem_of_lookup_2.
  - exists owner. pose proof Hh as (_ & Hc & _). destruct (Hc _ _ _ Hch) as (_ & Hlen & _ & Hq). cbn in Hlen.
    eapply set_chan_hears; [done|done|lia|]. intros e He. apply Hq. by right.
  - destruct (decide (c = "")) as [->|Hne]; [by exists owner|]. eexists. by apply subscribe_hears.
  - exists owner. unfold unsubscribe. destruct (hub_listeners h !! c) as [set|] eqn:El; [|done].
    destruct Hh as (Hl & Hc & Hs). split; [|split]; cbn; [|done|done]. intros c' set' x Hset Hin. case_decide.
    + apply lookup_delete_Some in Hset as [_ Hset]. by eapply Hl.
    + apply lookup_insert_Some in Hset as [[<- <-]|[_ Hset]]; [|by eapply Hl]. eapply Hl; [exact El|set_solver].
  - exists owner. unfold hub_Invalidate. by destruct (IsEmpty c).
Qed.
Lemma hub_steps_ok h ls h' : hub_steps h ls h' → hub_ok h → hub_ok h'.
Proof. induction 1 as [|h l h1 ls h2 Hs _ IH]; [done|]. intros Hh. apply IH. by eapply hub_step_ok. Qed.

(** ** No refresh is missed *)

(** A publication is still to be sent to the channel, or something is queued. *)
Definition woken (ch : nat) (h : Hub) : Prop :=
  (∃ ev, (ch, ev) ∈ hub_sends h) ∨ ∃ cap ev q, hub_chans h !! ch = Some (cap, ev :: q).

Lemma try_send_woken ch ev h : hub_ok h → is_Some (hub_chans h !! ch) → woken ch (try_send ch ev h).
Proof.
  intros [owner (_ & Hc & _)] [[cap q] Hch]. right. unfold try_send. rewrite Hch.
  destruct (Hc _ _ _ Hch) as (Hcap & Hlen & _). destruct (Nat.ltb_spec (length q) cap).
  - cbn. rewrite lookup_insert_eq. destruct q as [|e q]; [by exists cap, ev, []|]. by exists cap, e, (q ++ [ev]).
  - destruct q as [|e q]; [cbn in *; lia|]. by exists cap, e, q.
Qed.
Lemma try_send_other ch x ev h : woken ch h → woken ch (try_send x ev h).
Proof.
  unfold try_send. destruct (hub_chans h !! x) as [[cap q]|] eqn:Ex; [|done]. destruct (Nat.ltb _ _); [|done].
  intros [Hs|(cap' & e & q' & Hch)]; [by left|]. right. cbn. destruct (decide (x = ch)) as [->|Hne].
  - rewrite Ex in Hch. injection Hch as -> ->. rewrite lookup_insert_eq. by exists cap', e, (q' ++ [ev]).
  - rewrite lookup_insert_ne by done. by exists cap', e, q'.
Qed.
Lemma delete_keeps_others {A} (l : list A) n x y : l !! n = Some y → x ∈ l → x ≠ y → x ∈ delete n l.
Proof.
  revert n. induction l as [|z l IH]; intros n Hn Hx Hne; [by apply not_elem_of_nil in Hx|].
  destruct n as [|n]; cbn in *.
  - injection Hn as ->. by apply elem_of_cons in Hx as [->|?].
  - apply elem_of_cons in Hx as [->|Hx]; [left|right; by apply IH].
Qed.

Lemma woken_step ch h l h' : hub_ok h → hub_step h l h' → l ≠ LRecv ch → woken ch h → woken ch h'.
Proof.
  intros Hok Hst Hl Hw. destruct Hst as [c s now h|n x ev h Hn|x cap ev q h Hch|c b h|c x h|c h].
  - unfold publish. destruct (IsEmpty c); [done|]. destruct Hw as [[ev Hin]|Hq]; [left|by right].
    exists ev. cbn. apply elem_of_app. by left.
  - assert (Hok' : hub_ok (drop_send n h)) by (destruct Hok as [owner Hh]; exists owner; by apply drop_send_hears).
    destruct Hok as [owner (_ & _ & Hs)]. destruct (Hs x ev) as [_ Hsome]; [by eapply list_elem_of_lookup_2|].
    destruct (decide (x = ch)) as [->|Hne]; [by apply try_send_woken|]. apply try_send_other.
    destruct Hw as [[e Hin]|Hq]; [left|by right]. exists e. cbn. eapply delete_keeps_others; [done..|congruence].
  - destruct (decide (x = ch)) as [->|Hne]; [done|]. destruct Hw as [Hs|(cap' & e & q' & Hq)]; [by left|].
    right. exists cap', e, q'. cbn. by rewrite lookup_insert_ne.
  - unfold SubscribeCluster. destruct (IsEmpty c); [done|]. destruct Hw as [Hs|(cap' & e & q' & Hq)]; [by left|].
    right. exists cap', e, q'. cbn. rewrite lookup_insert_ne; [done|]. intros <-.
    destruct Hok as [owner (_ & Hc & _)]. destruct (Hc _ _ _ Hq) as (_ & _ & ? & _). lia.
  - unfold unsubscribe. by destruct (hub_listeners h !! c).
  - unfold hub_Invalidate. by destruct (IsEmpty c).
Qed.

Lemma chan_stays ch h l h' : hub_step h l h' → is_Some (hub_chans h !! ch) → is_Some (hub_chans h' !! ch).
Proof.
  assert (Hset : ∀ x c m, is_Some ((m : gmap nat (nat * list SnapshotEvent)) !! ch) → is_Some (<[x := c]> m !! ch)).
  { intros x c m Hm. apply lookup_insert_is_Some. destruct (decide (x = ch)); [by left|by right]. }
  intros Hst Hs. destruct Hst as [c s now h|n x ev h Hn|x cap ev q h Hch|c b h|c x h|c h].
  - unfold publish. by destruct (IsEmpty c).
  - unfold try_send. change (hub_chans (drop_send n h)) with (hub_chans h).
    destruct (hub_chans h !! x) as [[cap q]|]; [|done]. destruct (Nat.ltb (length q) cap); [|done]. cbn. by apply Hset.
  - by apply Hset.
  - unfold SubscribeCluster. destruct (IsEmpty c); [done|]. by apply Hset.
  - unfold unsubscribe. by destruct (hub_listeners h !! c).
  - unfold hub_Invalidate. by destruct (IsEmpty c).
Qed.

(** The snapshot of a cluster: the last one published and not invalidated. *)
Definition last_snapshot (c : string) (acc : option ClusterSnapshot) (l : hub_label) : option ClusterSnapshot :=
  match l with
  | LPublish c' s now => if c' =s c then Some (if Z.eqb (sn_CapturedAt s) 0 then sn_with_time now s else s) else acc
  | LInvalidate c' => if c' =s c then None else acc
  | _ => acc
  end.
Lemma last_snapshot_step c h l h' : c ≠ "" → hub_step h l h' → hub_entries h' !! c = last_snapshot c (hub_entries h !! c) l.
Proof.
  intros Hne Hst. destruct Hst as [c' s now h|n x ev h Hn|x cap ev q h Hch|c' b h|c' x h|c' h]; cbn.
  - unfold publish. case_bool_decide as E.
    + subst c'. apply IsEmpty_false in Hne. rewrite Hne. cbn. by rewrite lookup_insert_eq.
    + destruct (IsEmpty c'); [done|]. cbn. by rewrite lookup_insert_ne.
  - unfold try_send, drop_send. cbn. repeat case_match; done.
  - done.
  - unfold SubscribeCluster. by destruct (IsEmpty c').
  - unfold unsubscribe. by destruct (hub_listeners h !! c').
  - unfold hub_Invalidate. case_bool_decide as E.
    + subst c'. apply IsEmpty_false in Hne. rewrite Hne. cbn. by rewrite lookup_delete_eq.
    + destruct (IsEmpty c'); [done|]. cbn. by rewrite lookup_delete_ne.
Qed.
Lemma last_snapshot_steps c h ls h' : c ≠ "" → hub_steps h ls h' →
  hub_entries h' !! c = foldl (last_snapshot c) (hub_entries h !! c) ls.
Proof. intros Hne. induction 1 as [|h l h1 ls h2 Hs _ IH]; [done|]. cbn. by rewrite IH, (last_snapshot_step c h l h1). Qed.

(** C31. Under every interleaving of the hub's operations: what it answers for a
    cluster is the last snapshot published and not invalidated; a listener of a
    cluster finds, from a publication until it next receives, an event queued or
    being sent; and its queue holds events of its own cluster only, no more than its
    capacity. *)
Theorem subscribers_hear_of_refreshes ls h c snap now h1 ls' h2 ch set :
  hub_steps NewHub ls h → hub_listeners h !! c = Some set → ch ∈ set → c ≠ "" →
  hub_step h (LPublish c snap now) h1 → hub_steps h1 ls' h2 → LRecv ch ∉ ls' →
  woken ch h2 ∧
  (∃ cap q, hub_chans h2 !! ch = Some (cap, q) ∧ length q ≤ cap) ∧
  (∀ cap q ev, hub_chans h !! ch = Some (cap, q) → ev ∈ q → ev_ClusterID ev = c) ∧
  hub_entries h2 !! c = foldl (last_snapshot c) None (ls ++ LPublish c snap now :: ls').
Proof.
  intros Hls Hset Hin Hne Hp Hls' Hno. pose proof (hub_steps_ok _ _ _ Hls NewHub_ok) as Hok.
  pose proof Hok as [owner Hh]. pose proof (hub_step_ok _ _ _ Hok Hp) as Hok1.
  assert (Hsome : is_Some (hub_chans h !! ch)) by (destruct Hh as (Hl & _); by eapply Hl).
  assert (Hw : woken ch h1 ∧ is_Some (hub_chans h1 !! ch)).
  { inversion Hp as [? ? ? ? Hd| | | | |]. subst. unfold publish. apply IsEmpty_false in Hne. rewrite Hne. cbn. split; [|done].
    left. eexists. cbn. apply elem_of_app. right. apply list_elem_of_fmap. exists ch. split; [done|].
    rewrite Hset. by apply elem_of_elements. }
  assert (H2 : woken ch h2 ∧ is_Some (hub_chans h2 !! ch) ∧ hub_ok h2).
  { clear -Hls' Hno Hw Hok1. destruct Hw as [Hw Hs]. induction Hls' as [|h l h' ls h2 Hst _ IH]; [done|].
    apply not_elem_of_cons in Hno as [Hl Hno]. apply IH; [done|by eapply hub_step_ok| |].
    - eapply woken_step; [done..|congruence|done].
    - by eapply chan_stays. }
  destruct H2 as (Hw2 & [[cap q] Hq] & [owner2 (_ & Hc2 & _)]). split; [done|]. split.
  { exists cap, q. split; [done|]. by destruct (Hc2 _ _ _ Hq) as (_ & ? & _). }
  split.
  { intros cap' q' ev Hq' Hev. destruct Hh as (Hl & Hc & _). destruct (Hl c set ch Hset Hin) as [<- _].
    destruct (Hc _ _ _ Hq') as (_ & _ & _ & He). by apply He. }
  rewrite (last_snapshot_steps c h1 ls' h2) by done. rewrite (last_snapshot_step c h _ h1 Hne Hp).
  rewrite (last_snapshot_steps c _ _ _ Hne Hls). by rewrite foldl_app.
Qed.

(** * The cache of topologies *)

Section Cache.
Context {W : Type} `{!MonitoringLive W} `{!JszJson} (maxBodyBytes ttl : Z).

Lemma getCached_eq now c (s : MonState W) :
  getCached now c s = match ms_cache s !! c with
  | None => (Ok None, s)
  | Some e => if Z.ltb (je_expiresAt e) now || Nat.eqb (String.length (je_raw e)) 0
              then (Ok None, set_cache (delete c) s) else (Ok (Some (je_raw e, je_captured e)), s)
  end.
Proof. unfold getCached, bind, get. cbn. destruct (ms_cache s !! c) as [e|]; [|done]. by destruct (_ || _). Qed.

(** A fresh request is answered by the cluster itself, or by the flight of another
    fresh request for it; neither the cache nor the hub answers it. *)
Lemma fresh_is_live call c (s : MonState W) a s' : FetchJSZ maxBodyBytes ttl call c true s = (Ok a, s') →
  jt_joined call = Some (Ok a) ∨ ∃ s1, fetchLive maxBodyBytes (jt_live call) c TopologyJSZPath s = (Ok a, s1).
Proof.
  unfold FetchJSZ. intros (cached & s0 & E0 & E)%bind_Ok. injection E0 as <- <-.
  destruct (jt_joined call) as [r|]; [injection E as -> _; by left|]. right.
  unfold jsz_flight in E. apply bind_Ok in E as (cached & s0 & E0 & E). injection E0 as <- <-.
  apply bind_Ok in E as (r & s1 & E1 & E). exists s1. apply bind_Ok in E as ([] & s2 & _ & E). injection E as <- _. exact E1.
Qed.
End Cache.

(** ** What the cache does not see *)

Section CacheLimits.
Context {W : Type} `{!MonitoringLive W} `{!JszJson} (maxBodyBytes ttl : Z).

(** Dropping the snapshot leaves the cached topology in place: the next read that is
    not fresh answers it, whatever became of the cluster since. *)
Lemma invalidated_snapshot_is_still_cached call c e (s : MonState W) w : ms_cache s !! c = Some e →
  (jt_cached call ≤ je_expiresAt e)%Z → je_raw e ≠ "" →
  let s1 := snd (InvalidateSnapshot c s) in
  fst (FetchJSZ maxBodyBytes ttl call c false (mkMonState (ms_hub s1) (ms_cache s1) w)) = Ok (je_raw e, je_captured e).
Proof.
  intros He Hle Hraw. cbn. unfold FetchJSZ, bind at 1. rewrite getCached_eq. cbn [ms_cache]. rewrite He.
  assert (Z.ltb (je_expiresAt e) (jt_cached call) = false) as -> by (apply Z.ltb_ge; lia).
  assert (Nat.eqb (String.length (je_raw e)) 0 = false) as -> by (apply Nat.eqb_neq; by destruct (je_raw e)). done.
Qed.
(** A new body is stored with the payload of the old one. *)
Lemma put_keeps_payload now c raw captured e (s : MonState W) : ms_cache s !! c = Some e → c ≠ "" → raw ≠ "" →
  size (<[c := mkJszEntry raw (je_parsed e) captured (now + ttl)]> (ms_cache s)) ≤ 1024 →
  ms_cache (snd (putCached ttl now c raw None captured s)) !! c = Some (mkJszEntry raw (je_parsed e) captured (now + ttl)).
Proof.
  intros He Hc Hraw Hsz. unfold putCached. apply IsEmpty_false in Hc. rewrite Hc.
  assert (Nat.eqb (String.length raw) 0 = false) as -> by (apply Nat.eqb_neq; by destruct raw). cbn. rewrite He.
  unfold purge_jsz. destruct (Nat.ltb_spec 1024 (size (<[c := mkJszEntry raw (je_parsed e) captured (now + ttl)]> (ms_cache s)))); [lia|].
  by rewrite lookup_insert_eq.
Qed.
End CacheLimits.

(** * Witnesses *)

Definition hub_subscribed : Hub := snd (SubscribeCluster "c" 1 NewHub).
Definition hub_published : Hub := publish "c" (mkSnapshot 0 "v" "" "" "" []) 7 hub_subscribed.
Definition hub_resent : Hub :=
  publish "c" (mkSnapshot 8 "w" "" "" "" []) 9 (try_send 0 (mkSnapshotEvent 7 "c") (drop_send 0 hub_published)).
Lemma subscribers_hear_of_refreshes_witness :
  woken 0 hub_resent ∧ hub_entries hub_resent !! "c" = Some (mkSnapshot 8 "w" "" "" "" []).
Proof.
  assert (Hset : hub_listeners hub_subscribed !! "c" = Some {[0]}) by (vm_compute; reflexivity).
  assert (H := subscribers_hear_of_refreshes [LSubscribe "c" 1] hub_subscribed "c" (mkSnapshot 0 "v" "" "" "" []) 7 hub_published
    [LSend 0; LPublish "c" (mkSnapshot 8 "w" "" "" "" []) 9] hub_resent 0 {[0]}).
  destruct H as (H1 & _ & _ & H2).
  - eapply steps_cons; [constructor|constructor].
  - exact Hset.
  - by apply elem_of_singleton.
  - done.
  - constructor.
  - eapply steps_cons; [by apply (step_send 0 0 (mkSnapshotEvent 7 "c"))|]. eapply steps_cons; [constructor|constructor].
  - intros [?|[?|?%not_elem_of_nil]%elem_of_cons]%elem_of_cons; done.
  - split; [exact H1|]. rewrite H2. reflexivity.
Defined.
