(* ===== verification/Architecture.v ===== *)
(** The review of an event architecture, internal/domain/event_architecture.go: too
    many consumers, circular dependencies, tight coupling, large payloads and the
    findings of [Naming], ordered and counted.

    The maps that are ranged over are arguments as in [Naming]: the order taken
    of the subjects, of the prefixes and of the groups of both analyses of names. *)

From S2P Require Export Naming Sorting.
From S2P Require Import GoStrings.
From Stdlib Require Import Ascii.

Inductive ArchKind := TooManyConsumers | CircularDependency | TightCoupling | NamingInconsistent | PayloadTooLarge.
#[export] Instance ArchKind_eq_dec : EqDecision ArchKind.
Proof. solve_decision. Defined.
Definition arch_kind_text (k : ArchKind) : string :=
  match k with
  | TooManyConsumers => "too_many_consumers"
  | CircularDependency => "circular_dependency"
  | TightCoupling => "tight_coupling"
  | NamingInconsistent => "naming_inconsistent"
  | PayloadTooLarge => "payload_too_large"
  end.
Inductive ArchSeverity := ArchInfo | ArchWarn | ArchCritical.
#[export] Instance ArchSeverity_eq_dec : EqDecision ArchSeverity.
Proof. solve_decision. Defined.
Inductive ArchVerdict := Healthy | NeedsAttention | AtRisk.
#[export] Instance ArchVerdict_eq_dec : EqDecision ArchVerdict.
Proof. solve_decision. Defined.

Definition archTooManyConsumersPerSubject : nat := 8.
Definition archTooManyConsumersPerStream : nat := 12.
Definition archTightCouplingMinStreams : nat := 3.
Definition archPayloadAvgBytesThreshold : Z := 256 * 1024.
Definition archMaxNamingFindings : nat := 8.
Definition archMaxGenomeFindings : nat := 8.

(** The consumers have the fields of [EventArchitectureConsumerInput]. *)
Record EventArchitectureInput := mkArchInput {
  ai_Name : string;
  ai_Subjects : list string;
  ai_Consumers : list NamingConsumer;
  ai_Messages : Z;
  ai_Bytes : Z;
}.
Record EventArchitectureFinding := mkArchFinding {
  af_Kind : ArchKind;
  af_Severity : ArchSeverity;
  af_Title : string;
  af_Evidence : list string;
  af_Suggestion : string;
  af_Stream : string;
  af_Subject : string;
  af_Consumer : string;
}.
Record EventArchitectureTotals := mkArchTotals {
  at_ByKind : gmap string nat;
  at_Problems : nat;
  at_Critical : nat;
  at_Warn : nat;
  at_Info : nat;
}.
Record EventArchitectureSnapshot := mkArchSnapshot {
  as_Verdict : ArchVerdict;
  as_Problems : list EventArchitectureFinding;
  as_Suggestions : list string;
  as_Totals : EventArchitectureTotals;
  as_Demo : bool;
}.

(** * Subjects and filters *)

Fixpoint filter_tokens (ft st : list string) : bool :=
  match ft, st with
  | tok :: ft', s :: st' =>
      if tok =s ">" then true
      else if (tok <>s "*") && (tok <>s s) then false
      else filter_tokens ft' st'
  | [], [] => true
  | tok :: _, [] => tok =s ">"
  | [], _ :: _ => false
  end.
Definition natsSubjectMatch (filter subject : string) : bool := filter_tokens (Split filter ".") (Split subject ".").
Definition subjectIntersects (published filter : string) : bool :=
  let published := TrimSpace published in
  let filter := TrimSpace filter in
  if IsEmpty published || IsEmpty filter then false
  else if filter =s ">" then true
  else if published =s filter then true
  else natsSubjectMatch filter published.
Definition archConsumerFilters (c : NamingConsumer) : list string :=
  match namingConsumerFilters c with [] => [">"] | l => l end.

(** Some filter of the consumer is for the subject. *)
Definition consumer_hears (subj : string) (c : NamingConsumer) : bool :=
  existsb (subjectIntersects subj) (archConsumerFilters c).
Definition concrete_subjects (s : EventArchitectureInput) : list string :=
  List.filter (λ x, negb (subjectHasWildcard x)) (omap nonempty_trimmed (ai_Subjects s)).

Section Arch.
Context `{GoUnicode}.

Definition firstSubjectToken (subj : string) : string := ToLower (TrimSpace (default "" (head (Split subj ".")))).

(** * Too many consumers *)

Definition stream_fanout (stream : EventArchitectureInput) : list EventArchitectureFinding :=
  let n := Itoa (Z.of_nat (length (ai_Consumers stream))) in
  if Nat.leb archTooManyConsumersPerStream (length (ai_Consumers stream))
  then [mkArchFinding TooManyConsumers ArchWarn ("Stream " +:+ ai_Name stream +:+ " has " +:+ n +:+ " consumers")
          ["stream=" +:+ ai_Name stream +:+ " consumers=" +:+ n]
          "Split high-fan-out streams by bounded contexts or use queue groups / interest retention instead of many durable consumers."
          (ai_Name stream) "" ""]
  else [].

(** A stream and a consumer. *)
Abbreviation hit := (string * string)%type.
Definition hits_for (stream : EventArchitectureInput) (subj : string) : list hit :=
  (λ c, (ai_Name stream, nmc_Name c)) <$> List.filter (consumer_hears subj) (ai_Consumers stream).
Definition add_hits (stream : EventArchitectureInput) (m : gmap string (list hit)) (subj : string) : gmap string (list hit) :=
  match hits_for stream subj with
  | [] => m
  | hits => <[subj := default [] (m !! subj) ++ hits]> m
  end.
(** Its own subjects, then those of the streams of other names. *)
Definition heard_subjects (inputs : list EventArchitectureInput) (stream : EventArchitectureInput) : list string :=
  concrete_subjects stream ++
  flat_map concrete_subjects (List.filter (λ other, ai_Name other <>s ai_Name stream) inputs).
Definition bySubject (inputs : list EventArchitectureInput) : gmap string (list hit) :=
  foldl (λ m stream, foldl (add_hits stream) m (heard_subjects inputs stream)) ∅ inputs.

Definition hit_key (h : hit) : string := h.1 +:+ nul +:+ h.2.
Definition subject_fanout (e : string * list hit) : list EventArchitectureFinding :=
  let uniq := first_by hit_key [] e.2 in
  if Nat.ltb (length uniq) archTooManyConsumersPerSubject then []
  else [mkArchFinding TooManyConsumers ArchWarn ("Subject " +:+ e.1 +:+ " has " +:+ Itoa (Z.of_nat (length uniq)) +:+ " consumers")
          (SortStrings ((λ h : hit, h.1 +:+ "/" +:+ h.2) <$> uniq))
          ("Reduce fan-out on " +:+ e.1 +:+ " — prefer fewer consumers, shared queue groups, or split into narrower subjects.")
          "" e.1 ""].
Definition findTooManyConsumers (range : gmap string (list hit) → list (string * list hit)) (inputs : list EventArchitectureInput) :
    list EventArchitectureFinding :=
  flat_map stream_fanout inputs ++ flat_map subject_fanout (range (bySubject inputs)).

(** * Circular dependencies *)

Definition streamsCrossConsume (publisher consumerStream : EventArchitectureInput) : bool :=
  existsb (λ subj, existsb (consumer_hears subj) (ai_Consumers consumerStream)) (omap nonempty_trimmed (ai_Subjects publisher)).
(** The pairs [inputs[i]], [inputs[j]] with [i < j]. *)
Fixpoint ordered_pairs {A} (l : list A) : list (A * A) :=
  match l with [] => [] | x :: l => (pair x <$> l) ++ ordered_pairs l end.
Definition circular (p : EventArchitectureInput * EventArchitectureInput) : bool :=
  streamsCrossConsume p.1 p.2 && streamsCrossConsume p.2 p.1.
Definition circular_finding (p : EventArchitectureInput * EventArchitectureInput) : EventArchitectureFinding :=
  let a := ai_Name p.1 in
  let b := ai_Name p.2 in
  mkArchFinding CircularDependency ArchCritical ("Circular dependency between " +:+ a +:+ " and " +:+ b)
    [a +:+ " subjects consumed by " +:+ b; b +:+ " subjects consumed by " +:+ a]
    "Break the cycle — pick a single owner stream for shared subjects, or introduce a dedicated bridge stream with one-way flow."
    a "" "".
Definition pair_key (p : EventArchitectureInput * EventArchitectureInput) : string := ai_Name p.1 +:+ nul +:+ ai_Name p.2.
Definition findCircularDependencies (inputs : list EventArchitectureInput) : list EventArchitectureFinding :=
  circular_finding <$> first_by pair_key [] (List.filter circular (ordered_pairs inputs)).

(** * Tight coupling *)

Definition add_prefix (stream : EventArchitectureInput) (m : gmap string (gset string)) (subj : string) : gmap string (gset string) :=
  let tok := firstSubjectToken subj in
  if IsEmpty tok then m else <[tok := {[ai_Name stream]} ∪ default ∅ (m !! tok)]> m.
Definition prefixStreams (inputs : list EventArchitectureInput) : gmap string (gset string) :=
  foldl (λ m stream, foldl (add_prefix stream) m (concrete_subjects stream)) ∅ inputs.
Definition coupling_finding (inputs : list EventArchitectureInput) (e : string * gset string) : list EventArchitectureFinding :=
  let names := elements e.2 in
  if Nat.ltb (length names) archTightCouplingMinStreams then []
  else if negb (existsb (λ s, (ai_Name s ∈b names) && Nat.ltb 0 (length (ai_Consumers s))) inputs) then []
  else [mkArchFinding TightCoupling ArchWarn
          ("Tight coupling on prefix " +:+ e.1 +:+ " across " +:+ Itoa (Z.of_nat (length names)) +:+ " streams")
          (SortStrings names)
          ("Consolidate " +:+ e.1 +:+ ".* ownership into fewer streams or introduce an anti-corruption layer subject boundary.")
          "" e.1 ""].
Definition findTightCoupling (range : gmap string (gset string) → list (string * gset string)) (inputs : list EventArchitectureInput) :
    list EventArchitectureFinding :=
  flat_map (coupling_finding inputs) (range (prefixStreams inputs)).

(** * Large payloads *)

(** The quotient to the nearest integer, ties to even. *)
Definition round_half_even (a b : Z) : Z :=
  let q := (a / b)%Z in
  let r := (a mod b)%Z in
  if Z.ltb (2 * r) b then q
  else if Z.ltb b (2 * r) then (q + 1)%Z
  else if Z.even q then q else (q + 1)%Z.
(** [float64(n)], an integer again *)
Definition float64_of (n : Z) : Z :=
  if Z.ltb n (2 ^ 53) then n
  else let ulp := (2 ^ (Z.log2 n - 52))%Z in (round_half_even n ulp * ulp)%Z.
(** [%.1f] of [float64(n)/float64(unit)], for a power of two [unit] *)
Definition one_decimal (n unit : Z) : string :=
  let tenths := round_half_even (10 * float64_of n) unit in
  Itoa (tenths / 10) +:+ "." +:+ Itoa (tenths mod 10).
Definition formatByteSize (n : Z) : string :=
  if Z.leb (1024 * 1024) n then one_decimal n (1024 * 1024) +:+ " MiB"
  else if Z.leb 1024 n then one_decimal n 1024 +:+ " KiB"
  else Itoa n +:+ " B".

Definition payload_finding (stream : EventArchitectureInput) : list EventArchitectureFinding :=
  if Z.eqb (ai_Messages stream) 0 then []
  else
    let avg := (ai_Bytes stream / ai_Messages stream)%Z in
    if Z.ltb avg archPayloadAvgBytesThreshold then []
    else [mkArchFinding PayloadTooLarge ArchWarn ("Stream " +:+ ai_Name stream +:+ " average message size is " +:+ formatByteSize avg)
            ["bytes=" +:+ Itoa (ai_Bytes stream) +:+ " messages=" +:+ Itoa (ai_Messages stream) +:+ " avg=" +:+ Itoa avg]
            ("Shrink payloads on " +:+ ai_Name stream +:+ " — store blobs in Object Store/KV and publish references, or compress large fields.")
            (ai_Name stream) "" ""].
Definition findLargePayloads (inputs : list EventArchitectureInput) : list EventArchitectureFinding := flat_map payload_finding inputs.

(** * Names *)

Definition naming_kind_text (k : SubjectNamingKind) : string :=
  match k with
  | WrongCase => "wrong_case"
  | MissingDots => "missing_dots"
  | NonDotSeparator => "non_dot_separator"
  | ShallowHierarchy => "shallow_hierarchy"
  | InconsistentVariant => "inconsistent_variant"
  end.
(** The one reason of a finding. *)
Definition naming_reason_text (k : SubjectNamingKind) : string :=
  match k with
  | WrongCase => "uppercase"
  | MissingDots => "camel_case"
  | NonDotSeparator => "underscore_or_dash"
  | ShallowHierarchy => "fewer_than_three_tokens"
  | InconsistentVariant => "variant_cluster"
  end.
(** [SubjectNamingInput], [EventGenomeInput] of a stream *)
Definition arch_naming_input (s : EventArchitectureInput) : NamingInput := mkNamingInput (ai_Name s) (ai_Subjects s) (ai_Consumers s).

Definition naming_finding (f : SubjectNamingFinding) : EventArchitectureFinding :=
  let o := sn_Where f in
  mkArchFinding NamingInconsistent ArchInfo ("Inconsistent event naming: " +:+ oc_Subject o)
    [naming_kind_text (sn_Kind f); naming_reason_text (sn_Kind f)]
    (if IsEmpty (sn_Suggested f) then "Normalize subject to lowercase dotted hierarchy (entity.action)."
     else "Rename " +:+ oc_Subject o +:+ " toward " +:+ sn_Suggested f)
    (oc_Stream o) (oc_Subject o) (oc_Consumer o).
Definition mapNamingFindings range (inputs : list EventArchitectureInput) : list EventArchitectureFinding :=
  naming_finding <$> take archMaxNamingFindings (fst (AnalyzeSubjectNaming range (arch_naming_input <$> inputs))).

Definition genome_finding (f : EventGenomeFinding) : EventArchitectureFinding :=
  let o := gf_Where f in
  mkArchFinding NamingInconsistent ArchInfo ("Semantic duplicate subject: " +:+ oc_Subject o)
    (("genome=" +:+ gf_Genome f) :: gf_Cluster f)
    (if IsEmpty (gf_Suggested f) then "Converge synonym subjects onto a single canonical event name."
     else "Converge synonyms onto " +:+ gf_Suggested f)
    (oc_Stream o) (oc_Subject o) (oc_Consumer o).
Definition mapGenomeFindings range (inputs : list EventArchitectureInput) : list EventArchitectureFinding :=
  genome_finding <$> take archMaxGenomeFindings (gs_Findings (AnalyzeEventGenome range (arch_naming_input <$> inputs))).

(** * The review *)

Definition severityRank (s : ArchSeverity) : Z := match s with ArchCritical => 3 | ArchWarn => 2 | ArchInfo => 1 end.
(** Not after the other: the more severe first, then by kind and title. *)
Definition problem_le (f g : EventArchitectureFinding) : bool :=
  let si := severityRank (af_Severity f) in
  let sj := severityRank (af_Severity g) in
  if negb (Z.eqb si sj) then Z.ltb sj si
  else
    let ki := arch_kind_text (af_Kind f) in
    let kj := arch_kind_text (af_Kind g) in
    if ki =s kj then bool_decide (String.le (af_Title f) (af_Title g)) else bool_decide (String.le ki kj).
Definition tally_problem (t : EventArchitectureTotals) (p : EventArchitectureFinding) : EventArchitectureTotals :=
  let k := arch_kind_text (af_Kind p) in
  let bump (s : ArchSeverity) (n : nat) := if bool_decide (af_Severity p = s) then S n else n in
  mkArchTotals (<[k := S (default 0 (at_ByKind t !! k))]> (at_ByKind t)) (S (at_Problems t))
    (bump ArchCritical (at_Critical t)) (bump ArchWarn (at_Warn t)) (bump ArchInfo (at_Info t)).
Definition arch_totals (problems : list EventArchitectureFinding) : EventArchitectureTotals :=
  foldl tally_problem (mkArchTotals ∅ 0 0 0 0) problems.
Definition arch_suggestions (problems : list EventArchitectureFinding) : list string :=
  first_by id [] (omap (λ p, nonempty_trimmed (af_Suggestion p)) problems).
Definition arch_verdict (t : EventArchitectureTotals) : ArchVerdict :=
  if Nat.ltb 0 (at_Critical t) then AtRisk
  else if Nat.ltb 0 (at_Warn t) || Nat.ltb 0 (at_Info t) then NeedsAttention
  else Healthy.

(** The orders in which the maps are ranged over. *)
Record Ranges := mkRanges {
  rg_subjects : gmap string (list hit) → list (string * list hit);
  rg_prefixes : gmap string (gset string) → list (string * gset string);
  rg_naming : gmap string (list namingOccurrence) → list (string * list namingOccurrence);
  rg_genome : gmap string (list namingOccurrence) → list (string * list namingOccurrence);
}.
Definition arch_findings (r : Ranges) (inputs : list EventArchitectureInput) : list EventArchitectureFinding :=
  findTooManyConsumers (rg_subjects r) inputs ++ findCircularDependencies inputs ++ findTightCoupling (rg_prefixes r) inputs ++
  findLargePayloads inputs ++ mapNamingFindings (rg_naming r) inputs ++ mapGenomeFindings (rg_genome r) inputs.
Definition AnalyzeEventArchitecture (r : Ranges) (inputs : list EventArchitectureInput) : EventArchitectureSnapshot :=
  let problems := sort_stable problem_le (arch_findings r inputs) in
  let totals := arch_totals problems in
  mkArchSnapshot (arch_verdict totals) problems (arch_suggestions problems) totals false.

(** ** The showcase *)

Definition listener (name filter : string) : NamingConsumer := mkNamingConsumer name filter [].
Definition demo_architecture : list EventArchitectureInput := [
  mkArchInput "ORDERS" ["orders.created"; "orders.new"; "Orders.Updated"]
    [listener "billing" "orders.>"; listener "shipping" "orders.>"; listener "analytics" "orders.>"; listener "crm" "orders.>";
     listener "fraud" "orders.>"; listener "loyalty" "orders.>"; listener "notify" "orders.>"; listener "search" "orders.>";
     listener "audit" "orders.>"; listener "billing-echo" "billing.>"]
    1000 (1000 * 400 * 1024);
  mkArchInput "BILLING" ["orders.paid"; "billing.charged"] [listener "orders-sync" "orders.>"] 100 50000;
  mkArchInput "FULFILLMENT" ["orders.shipped"; "orders.fulfilled"] [listener "orders-mirror" "orders.>"] 200 80000;
  mkArchInput "ORDERS_OUTBOX" ["orders.created"] [listener "billing-bridge" "billing.>"] 50 10000].
Definition DemoEventArchitectureSnapshot (r : Ranges) : EventArchitectureSnapshot :=
  let snap := AnalyzeEventArchitecture r demo_architecture in
  mkArchSnapshot (if bool_decide (as_Verdict snap = Healthy) then NeedsAttention else as_Verdict snap)
    (as_Problems snap) (as_Suggestions snap) (as_Totals snap) true.
End Arch.
