(* ===== verification/ArchitectureFacts.v ===== *)
(** What the review of an event architecture says: its counts and its verdict, when
    it finds a cycle or a subject with too many consumers, and how much of it
    depends on the order of Go's maps. *)

From S2P Require Export Architecture.
From S2P Require Import NamingFacts Subjects GoStrings.
From Stdlib Require Import Ascii.

(** * The order of the problems *)

Definition problem_key (f : EventArchitectureFinding) : list string := [arch_kind_text (af_Kind f); af_Title f].
Lemma problem_le_spec f g : problem_le f g = true ↔
  (severityRank (af_Severity g) < severityRank (af_Severity f))%Z ∨
  severityRank (af_Severity f) = severityRank (af_Severity g) ∧ keys_le (problem_key f) (problem_key g).
Proof.
  unfold problem_le. cbn.
  destruct (Z.eqb_spec (severityRank (af_Severity f)) (severityRank (af_Severity g))) as [E|Hne]; cbn; [|rewrite Z.ltb_lt; intuition lia].
  destruct (decide (arch_kind_text (af_Kind f) = arch_kind_text (af_Kind g))) as [Ek|Ek].
  - rewrite (bool_decide_eq_true_2 (_ = _)), bool_decide_eq_true by done. split.
    + intros Ht. right. split; [done|]. right. split; [done|]. destruct (decide (af_Title f = af_Title g)); [by right|by left].
    + intros [?|[_ [[? _]|[_ [[_ ?]|[-> _]]]]]]; [lia|done|done|done].
  - rewrite (bool_decide_eq_false_2 (_ = _)), bool_decide_eq_true by done. split.
    + intros Ht. right. split; [done|]. by left.
    + intros [?|[_ [[_ ?]|[? _]]]]; [lia|done|done].
Qed.
Lemma problem_le_total f g : problem_le f g = false → problem_le g f = true.
Proof.
  rewrite <- not_true_iff_false, !problem_le_spec. intros Hn.
  destruct (Z.lt_total (severityRank (af_Severity f)) (severityRank (af_Severity g))) as [?|[E|?]]; [by left| |by destruct Hn; left].
  right. split; [done|]. destruct (keys_le_total (problem_key f) (problem_key g)); [|done]. destruct Hn. by right.
Qed.
Lemma problem_le_trans f g h : problem_le f g = true → problem_le g h = true → problem_le f h = true.
Proof.
  rewrite !problem_le_spec. intros [H1|[E1 H1]] [H2|[E2 H2]]; [left; lia..|].
  right. split; [congruence|]. by eapply keys_le_trans.
Qed.
(** Tied problems have one kind and one title. *)
Lemma problem_tied z f : tied problem_le z f = true → af_Kind f = af_Kind z ∧ af_Title f = af_Title z.
Proof.
  unfold tied. rewrite andb_true_iff, !problem_le_spec. intros [[?|[E H1]] [?|[E' H2]]]; try lia.
  pose proof (keys_le_antisym _ _ H1 H2) as [= Ek Et]. split; [|done]. by destruct (af_Kind z), (af_Kind f).
Qed.

(** * Counts and verdict *)

Definition of_severity (s : ArchSeverity) (l : list EventArchitectureFinding) : list EventArchitectureFinding :=
  List.filter (λ f, bool_decide (af_Severity f = s)) l.
Definition of_kind (k : ArchKind) (l : list EventArchitectureFinding) : list EventArchitectureFinding :=
  List.filter (λ f, bool_decide (af_Kind f = k)) l.

#[export] Instance arch_kind_text_inj : Inj (=) (=) arch_kind_text.
Proof. by intros [] []. Qed.

Lemma arch_totals_from t l : let t' := foldl tally_problem t l in
  at_Problems t' = at_Problems t + length l ∧ at_Critical t' = at_Critical t + length (of_severity ArchCritical l) ∧
  at_Warn t' = at_Warn t + length (of_severity ArchWarn l) ∧ at_Info t' = at_Info t + length (of_severity ArchInfo l) ∧
  ∀ k, default 0 (at_ByKind t' !! arch_kind_text k) = default 0 (at_ByKind t !! arch_kind_text k) + length (of_kind k l).
Proof.
  unfold of_severity, of_kind. revert t. induction l as [|f l IH]; intros t; cbn; [split_and!; try lia; intros; lia|].
  destruct (IH (tally_problem t f)) as (Hp & Hc & Hw & Hi & Hk). rewrite Hp, Hc, Hw, Hi. cbn [tally_problem at_Problems at_Critical at_Warn at_Info at_ByKind].
  split; [lia|]. split; [case_bool_decide; cbn; lia|]. split; [case_bool_decide; cbn; lia|]. split; [case_bool_decide; cbn; lia|].
  intros k. rewrite Hk. cbn. case_bool_decide as E; cbn.
  - rewrite E, lookup_insert_eq. cbn. lia.
  - rewrite lookup_insert_ne; [done|]. by intros ?%(inj arch_kind_text).
Qed.
Lemma arch_totals_spec l :
  at_Problems (arch_totals l) = length l ∧ at_Critical (arch_totals l) = length (of_severity ArchCritical l) ∧
  at_Warn (arch_totals l) = length (of_severity ArchWarn l) ∧ at_Info (arch_totals l) = length (of_severity ArchInfo l) ∧
  ∀ k, default 0 (at_ByKind (arch_totals l) !! arch_kind_text k) = length (of_kind k l).
Proof.
  destruct (arch_totals_from (mkArchTotals ∅ 0 0 0 0) l) as (Hp & Hc & Hw & Hi & Hk). split_and!; [done..|].
  intros k. unfold arch_totals. rewrite Hk. cbn. by rewrite lookup_empty.
Qed.

Lemma severities_cover l : length l = length (of_severity ArchCritical l) + length (of_severity ArchWarn l) + length (of_severity ArchInfo l).
Proof. unfold of_severity. induction l as [|f l IH]; [done|]. cbn. destruct (af_Severity f); repeat (case_bool_decide; try congruence); cbn; lia. Qed.

Lemma arch_verdict_spec l :
  (arch_verdict (arch_totals l) = AtRisk ↔ ∃ f, f ∈ l ∧ af_Severity f = ArchCritical) ∧
  (arch_verdict (arch_totals l) = Healthy ↔ l = []).
Proof.
  destruct (arch_totals_spec l) as (_ & Hc & Hw & Hi & _). unfold arch_verdict. rewrite Hc, Hw, Hi. clear Hc Hw Hi.
  pose proof (severities_cover l) as Hl. split.
  - destruct (Nat.ltb_spec 0 (length (of_severity ArchCritical l))) as [Hpos|Hz].
    + split; [intros _|done]. destruct (of_severity ArchCritical l) as [|f k] eqn:E; [cbn in Hpos; lia|].
      assert (Hf : f ∈ of_severity ArchCritical l) by (rewrite E; by left). apply elem_of_filter_list in Hf as [Hf Hs]. exists f.
      split; [done|]. by apply bool_decide_eq_true in Hs.
    + split; [by destruct (Nat.ltb 0 _ || Nat.ltb 0 _)|]. intros (f & Hf & Hs).
      assert (Hin : f ∈ of_severity ArchCritical l) by (apply elem_of_filter_list; by rewrite bool_decide_eq_true).
      destruct (of_severity ArchCritical l); [by apply not_elem_of_nil in Hin|cbn in Hz; lia].
  - destruct (Nat.ltb_spec 0 (length (of_severity ArchCritical l))); [split; [done|intros ->; cbn in *; lia]|].
    destruct (Nat.ltb_spec 0 (length (of_severity ArchWarn l))); cbn [orb]; [split; [done|intros ->; cbn in *; lia]|].
    destruct (Nat.ltb_spec 0 (length (of_severity ArchInfo l))); [split; [done|intros ->; cbn in *; lia]|].
    split; [intros _; apply nil_length_inv; lia|done].
Qed.

(** * What is found *)

(** The consumer [h], of some stream, listens to a subject that its own stream or a
    stream of another name publishes. *)
Definition listens (inputs : list EventArchitectureInput) (S : string) (h : string * string) : Prop :=
  ∃ stream c, stream ∈ inputs ∧ c ∈ ai_Consumers stream ∧ h = (ai_Name stream, nmc_Name c) ∧
    consumer_hears S c = true ∧
    ∃ other, (other = stream ∨ other ∈ inputs ∧ ai_Name other ≠ ai_Name stream) ∧ S ∈ concrete_subjects other.

Lemma elem_heard inputs stream S : S ∈ heard_subjects inputs stream ↔
  ∃ other, (other = stream ∨ other ∈ inputs ∧ ai_Name other ≠ ai_Name stream) ∧ S ∈ concrete_subjects other.
Proof.
  unfold heard_subjects. rewrite elem_of_app. split.
  - intros [HS|HS]; [exists stream; auto|]. apply list_elem_of_In, in_flat_map in HS as (o & Ho & HS).
    apply list_elem_of_In, elem_of_filter_list in Ho as [Ho Hn]. apply negb_true_iff, bool_decide_eq_false in Hn.
    exists o. apply list_elem_of_In in HS. auto.
  - intros (o & [->|[Ho Hn]] & HS); [by left|right]. apply list_elem_of_In, in_flat_map. exists o.
    split; [apply list_elem_of_In, elem_of_filter_list; by rewrite negb_true_iff, bool_decide_eq_false|by apply list_elem_of_In].
Qed.
Lemma elem_hits stream S h : h ∈ hits_for stream S ↔
  ∃ c, c ∈ ai_Consumers stream ∧ h = (ai_Name stream, nmc_Name c) ∧ consumer_hears S c = true.
Proof.
  unfold hits_for. rewrite list_elem_of_fmap. split.
  - intros (c & -> & [Hc Hh]%elem_of_filter_list). eauto.
  - intros (c & Hc & -> & Hh). exists c. split; [done|]. by apply elem_of_filter_list.
Qed.

Lemma add_hits_elem stream m S subj h : h ∈ default [] (add_hits stream m subj !! S) ↔
  h ∈ default [] (m !! S) ∨ S = subj ∧ h ∈ hits_for stream S.
Proof.
  unfold add_hits. destruct (hits_for stream subj) as [|x l] eqn:E.
  - split; [by left|]. intros [?|[-> Hh]]; [done|]. rewrite E in Hh. by apply not_elem_of_nil in Hh.
  - destruct (decide (subj = S)) as [->|Hne].
    + rewrite lookup_insert_eq, E. cbn. rewrite elem_of_app. tauto.
    + rewrite lookup_insert_ne by done. split; [by left|]. by intros [?|[-> _]].
Qed.
Lemma add_all_hits_elem stream l m S h : h ∈ default [] (foldl (add_hits stream) m l !! S) ↔
  h ∈ default [] (m !! S) ∨ S ∈ l ∧ h ∈ hits_for stream S.
Proof.
  revert m. induction l as [|x l IH]; intros m; cbn; [split; [by left|]; intros [?|[?%not_elem_of_nil _]]; done|].
  rewrite IH, add_hits_elem, elem_of_cons. tauto.
Qed.
Lemma bySubject_elem inputs S h : h ∈ default [] (bySubject inputs !! S) ↔ listens inputs S h.
Proof.
  unfold bySubject. assert (Hgen : ∀ l m, h ∈ default [] (foldl (λ m stream, foldl (add_hits stream) m (heard_subjects inputs stream)) m l !! S) ↔
    h ∈ default [] (m !! S) ∨ ∃ stream, stream ∈ l ∧ S ∈ heard_subjects inputs stream ∧ h ∈ hits_for stream S).
  { induction l as [|s l IH]; intros m; cbn; [split; [by left|]; intros [?|(? & ?%not_elem_of_nil & _)]; done|].
    rewrite IH, add_all_hits_elem. split.
    - intros [[?|[? ?]]|(x & Hx & ?)]; [by left|right; exists s; split; [by left|done]|right; exists x; split; [by right|done]].
    - intros [?|(x & [->|Hx]%elem_of_cons & ?)]; [by left; left|by left; right|right; eauto]. }
  rewrite Hgen. cbn. rewrite lookup_empty. cbn. split.
  - intros [?%not_elem_of_nil|(s & Hs & HS & Hh)]; [done|]. apply elem_heard in HS. apply elem_hits in Hh as (c & Hc & -> & Hh).
    exists s, c. auto.
  - intros (s & c & Hs & Hc & -> & Hh & HS). right. exists s. split; [done|]. split; [by apply elem_heard|]. apply elem_hits. eauto.
Qed.

(** Filters of permuted lists are permuted. *)
Lemma filter_perm {A} (p : A → bool) (l k : list A) : l ≡ₚ k → List.filter p l ≡ₚ List.filter p k.
Proof.
  induction 1 as [|x l k _ IH|x y l|l k m _ IH1 _ IH2]; cbn; [done| | |by etrans]; [destruct (p x)|destruct (p x), (p y)];
    rewrite ?IH; done || apply perm_swap.
Qed.

(** Streams whose names and consumers are told apart by the key of a hit. *)
Lemma keyed_hits {A} (key : A → string) n (l : list A) :
  n ≤ length (first_by key [] l) ↔ ∃ k, NoDup (key <$> k) ∧ n ≤ length k ∧ ∀ x, x ∈ k → x ∈ l.
Proof.
  split.
  - intros Hn. exists (first_by key [] l). split; [apply first_by_keys|]. split; [done|]. by intros x [? _]%first_by_sub.
  - intros (k & Hk & Hn & Hsub). etrans; [exact Hn|]. rewrite <- (length_fmap key k), <- (length_fmap key (first_by key [] l)).
    apply NoDup_incl_length; [by apply NoDup_ListNoDup|]. intros y Hy. apply list_elem_of_In, list_elem_of_fmap in Hy as (x & -> & Hx).
    apply Hsub in Hx. destruct (first_by_cover key [] l x Hx) as [?%not_elem_of_nil|(z & Hz & <-)]; [done|].
    apply list_elem_of_In, list_elem_of_fmap. by exists z.
Qed.

(** * The order of the maps *)

Definition range_ok {A} (range : gmap string A → list (string * A)) : Prop := ∀ m, range m ≡ₚ map_to_list m.

(** Findings of one entry each, with a title that names its key. *)
Lemma ranged_findings {A} (find : string * A → list EventArchitectureFinding) (r1 r2 : gmap string A → list (string * A)) m z :
  range_ok r1 → range_ok r2 →
  (∀ e f g, f ∈ find e → g ∈ find e → f = g) →
  (∀ e e' f g, f ∈ find e → g ∈ find e' → af_Title f = af_Title g → e.1 = e'.1) →
  List.filter (tied problem_le z) (flat_map find (r1 m)) = List.filter (tied problem_le z) (flat_map find (r2 m)).
Proof.
  intros H1 H2 Hone Hname. apply perm_filter_eq.
  - apply Permutation_flat_map. by rewrite H1, H2.
  - intros f g Hf Hg Htf Htg. apply list_elem_of_In, in_flat_map in Hf as (e & He & Hf), Hg as (e' & He' & Hg).
    apply list_elem_of_In in Hf, Hg, He, He'. rewrite H1 in He, He'.
    destruct (problem_tied _ _ Htf) as [_ Ef]. destruct (problem_tied _ _ Htg) as [_ Eg].
    assert (Ek : e.1 = e'.1) by (eapply Hname; [done..|congruence]). destruct e as [k a], e' as [k' a']. cbn in Ek. subst k'.
    apply elem_of_map_to_list in He, He'. rewrite He in He'. injection He' as <-. by eapply Hone.
Qed.

Lemma subject_fanout_title e f : f ∈ subject_fanout e → ∃ n, (0 ≤ n)%Z ∧ af_Title f = "Subject " +:+ e.1 +:+ " has " +:+ Itoa n +:+ " consumers".
Proof.
  unfold subject_fanout. destruct (Nat.ltb _ _); [by intros ?%not_elem_of_nil|]. intros ->%list_elem_of_singleton.
  eexists. split; [|reflexivity]. lia.
Qed.
Section Canonical.
Context `{GoUnicode}.
Lemma coupling_title inputs e f : f ∈ coupling_finding inputs e →
  ∃ n, (0 ≤ n)%Z ∧ af_Title f = "Tight coupling on prefix " +:+ e.1 +:+ " across " +:+ Itoa n +:+ " streams".
Proof.
  unfold coupling_finding. destruct (Nat.ltb _ _); [by intros ?%not_elem_of_nil|].
  destruct (negb _); [by intros ?%not_elem_of_nil|]. intros ->%list_elem_of_singleton. eexists. split; [|reflexivity]. lia.
Qed.

Lemma fanout_keeps r1 r2 inputs z : range_ok r1 → range_ok r2 →
  List.filter (tied problem_le z) (findTooManyConsumers r1 inputs) = List.filter (tied problem_le z) (findTooManyConsumers r2 inputs).
Proof.
  intros H1 H2. unfold findTooManyConsumers. rewrite !List.filter_app. f_equal. apply ranged_findings; [done..| |].
  - intros e f g. unfold subject_fanout. destruct (Nat.ltb _ _); [by intros ?%not_elem_of_nil|]. by intros ->%list_elem_of_singleton ->%list_elem_of_singleton.
  - intros e e' f g (n & Hn & ->)%subject_fanout_title (k & Hk & ->)%subject_fanout_title E.
    by apply (titled_name_inj "Subject " " consumers" " has" _ _ n k).
Qed.
Lemma coupling_keeps r1 r2 inputs z : range_ok r1 → range_ok r2 →
  List.filter (tied problem_le z) (findTightCoupling r1 inputs) = List.filter (tied problem_le z) (findTightCoupling r2 inputs).
Proof.
  intros H1 H2. apply ranged_findings; [done..| |].
  - intros e f g. unfold coupling_finding. destruct (Nat.ltb _ _); [by intros ?%not_elem_of_nil|]. destruct (negb _); [by intros ?%not_elem_of_nil|].
    by intros ->%list_elem_of_singleton ->%list_elem_of_singleton.
  - intros e e' f g (n & Hn & ->)%coupling_title (k & Hk & ->)%coupling_title E.
    by apply (titled_name_inj "Tight coupling on prefix " " streams" " across" _ _ n k).
Qed.

Record ranges_ok (r : Ranges) : Prop := {
  ro_subjects : range_ok (rg_subjects r);
  ro_prefixes : range_ok (rg_prefixes r);
  ro_naming : range_ok (rg_naming r);
  ro_genome : range_ok (rg_genome r);
}.
Lemma genome_part r1 r2 inputs : ranges_ok r1 → ranges_ok r2 → mapGenomeFindings (rg_genome r1) inputs = mapGenomeFindings (rg_genome r2) inputs.
Proof. intros [_ _ _ H1] [_ _ _ H2]. unfold mapGenomeFindings. by rewrite !genome_report_sorted. Qed.

(** The review does not depend on the order in which its maps are ranged over,
    but for the naming findings it keeps: from equal ones, equal reviews. *)
Theorem architecture_review_canonical r1 r2 inputs : ranges_ok r1 → ranges_ok r2 →
  mapNamingFindings (rg_naming r1) inputs = mapNamingFindings (rg_naming r2) inputs →
  AnalyzeEventArchitecture r1 inputs = AnalyzeEventArchitecture r2 inputs.
Proof.
  intros H1 H2 Hn. unfold AnalyzeEventArchitecture. rewrite (sort_stable_eq problem_le problem_le_total problem_le_trans
    (arch_findings r1 inputs) (arch_findings r2 inputs)); [done|].
  intros z. unfold arch_findings. rewrite !List.filter_app, (genome_part r1 r2), Hn by done.
  destruct H1 as [Hs1 Hp1 _ _], H2 as [Hs2 Hp2 _ _]. by rewrite (fanout_keeps (rg_subjects r1) (rg_subjects r2)), (coupling_keeps (rg_prefixes r1) (rg_prefixes r2)).
Qed.
End Canonical.

(** * Which finding comes from where *)

Section Exact.
Context `{GoUnicode}.

Lemma elem_ordered_pairs {A} (l : list A) a b : (a, b) ∈ ordered_pairs l ↔ ∃ i j, i < j ∧ l !! i = Some a ∧ l !! j = Some b.
Proof.
  induction l as [|x l IH]; cbn; [split; [by intros ?%not_elem_of_nil|by intros (i & j & _ & ? & _)]|].
  rewrite elem_of_app, IH, list_elem_of_fmap. split.
  - intros [(y & [= -> ->] & Hy)|(i & j & Hij & Hi & Hj)].
    + apply list_elem_of_lookup in Hy as [j Hj]. exists 0, (S j). split; [lia|done].
    + exists (S i), (S j). split; [lia|done].
  - intros ([|i] & [|j] & Hij & Hi & Hj); [lia| |lia|].
    + left. cbn in Hi, Hj. injection Hi as ->. exists b. split; [done|]. by apply list_elem_of_lookup_2 in Hj.
    + right. exists i, j. split; [lia|done].
Qed.

(** Every finding has the severity of its kind. *)
Definition kind_severity (k : ArchKind) : ArchSeverity :=
  match k with CircularDependency => ArchCritical | NamingInconsistent => ArchInfo | _ => ArchWarn end.
(** The kind of a finding tells which finder made it. *)
Definition found_by (r : Ranges) (inputs : list EventArchitectureInput) (k : ArchKind) : list EventArchitectureFinding :=
  match k with
  | TooManyConsumers => findTooManyConsumers (rg_subjects r) inputs
  | CircularDependency => findCircularDependencies inputs
  | TightCoupling => findTightCoupling (rg_prefixes r) inputs
  | PayloadTooLarge => findLargePayloads inputs
  | NamingInconsistent => mapNamingFindings (rg_naming r) inputs ++ mapGenomeFindings (rg_genome r) inputs
  end.
Lemma found_by_kind r inputs k f : f ∈ found_by r inputs k → af_Kind f = k ∧ af_Severity f = kind_severity k.
Proof.
  destruct k; cbn.
  - unfold findTooManyConsumers. intros [Hf|Hf]%elem_of_app; apply list_elem_of_In, in_flat_map in Hf as (x & _ & Hf); apply list_elem_of_In in Hf.
    + unfold stream_fanout in Hf. destruct (Nat.leb _ _); [by apply list_elem_of_singleton in Hf as ->|by apply not_elem_of_nil in Hf].
    + unfold subject_fanout in Hf. destruct (Nat.ltb _ _); [by apply not_elem_of_nil in Hf|by apply list_elem_of_singleton in Hf as ->].
  - by intros (p & -> & _)%list_elem_of_fmap.
  - intros Hf. apply list_elem_of_In, in_flat_map in Hf as (x & _ & Hf). apply list_elem_of_In in Hf.
    unfold coupling_finding in Hf. destruct (Nat.ltb _ _); [by apply not_elem_of_nil in Hf|]. destruct (negb _); [by apply not_elem_of_nil in Hf|].
    by apply list_elem_of_singleton in Hf as ->.
  - intros [Hf|Hf]%elem_of_app; by apply list_elem_of_fmap in Hf as (x & -> & _).
  - intros Hf. apply list_elem_of_In, in_flat_map in Hf as (x & _ & Hf). apply list_elem_of_In in Hf.
    unfold payload_finding in Hf. destruct (Z.eqb _ _); [by apply not_elem_of_nil in Hf|]. destruct (Z.ltb _ _); [by apply not_elem_of_nil in Hf|].
    by apply list_elem_of_singleton in Hf as ->.
Qed.
Lemma elem_arch_findings r inputs f : f ∈ arch_findings r inputs ↔ f ∈ found_by r inputs (af_Kind f).
Proof.
  unfold arch_findings. rewrite !elem_of_app. split.
  - assert (Hk : ∀ k, f ∈ found_by r inputs k → f ∈ found_by r inputs (af_Kind f)) by (intros k Hf; by rewrite (proj1 (found_by_kind _ _ _ _ Hf))).
    intros [Hf|[Hf|[Hf|[Hf|[Hf|Hf]]]]];
      [apply (Hk TooManyConsumers)|apply (Hk CircularDependency)|apply (Hk TightCoupling)|apply (Hk PayloadTooLarge)|
       apply (Hk NamingInconsistent)|apply (Hk NamingInconsistent)]; cbn; rewrite ?elem_of_app; auto.
  - intros Hf. destruct (af_Kind f); cbn in Hf; rewrite ?elem_of_app in Hf; tauto.
Qed.

Lemma of_kind_all k l : (∀ f, f ∈ l → af_Kind f = k) → of_kind k l = l.
Proof.
  unfold of_kind. induction l as [|f l IH]; intros Hl; [done|]. cbn. rewrite bool_decide_eq_true_2 by (apply Hl; by left).
  rewrite IH; [done|]. intros g Hg. apply Hl. by right.
Qed.
Lemma of_kind_none k l : (∀ f, f ∈ l → af_Kind f ≠ k) → of_kind k l = [].
Proof.
  unfold of_kind. induction l as [|f l IH]; intros Hl; [done|]. cbn. rewrite bool_decide_eq_false_2 by (apply Hl; by left).
  apply IH. intros g Hg. apply Hl. by right.
Qed.
Lemma of_kind_found r inputs k : of_kind k (arch_findings r inputs) = found_by r inputs k.
Proof.
  assert (Hpart : ∀ k' l, (∀ f, f ∈ l → f ∈ found_by r inputs k') → of_kind k l = if decide (k' = k) then l else []).
  { intros k' l Hl. case_decide as E.
    - apply of_kind_all. intros f Hf. rewrite <- E. by apply Hl, found_by_kind in Hf as [? _].
    - apply of_kind_none. intros f Hf. apply Hl, found_by_kind in Hf as [-> _]. done. }
  unfold arch_findings, of_kind. rewrite !List.filter_app.
  change (λ f, bool_decide (af_Kind f = k)) with (λ f, bool_decide (af_Kind f = k)).
  pose proof (Hpart TooManyConsumers _ (λ f Hf, Hf)) as H1. pose proof (Hpart CircularDependency _ (λ f Hf, Hf)) as H2.
  pose proof (Hpart TightCoupling _ (λ f Hf, Hf)) as H3. pose proof (Hpart PayloadTooLarge _ (λ f Hf, Hf)) as H4.
  pose proof (Hpart NamingInconsistent _ (λ f Hf, Hf)) as H5. unfold of_kind in *. cbn [found_by] in *. rewrite List.filter_app in H5.
  rewrite H1, H2, H3, H4, H5. destruct k; cbn; by rewrite ?List.app_nil_r.
Qed.

Lemma circular_found inputs : (∃ f, f ∈ findCircularDependencies inputs) ↔
  ∃ i j a b, i < j ∧ inputs !! i = Some a ∧ inputs !! j = Some b ∧ circular (a, b) = true.
Proof.
  unfold findCircularDependencies. split.
  - intros (f & ([a b] & _ & Hp)%list_elem_of_fmap). apply first_by_sub in Hp as [Hp _]. apply elem_of_filter_list in Hp as [Hp Hc].
    apply elem_ordered_pairs in Hp as (i & j & ? & ? & ?). by exists i, j, a, b.
  - intros (i & j & a & b & Hij & Ha & Hb & Hc). destruct (first_by_cover pair_key [] (List.filter circular (ordered_pairs inputs)) (a, b)) as [?%not_elem_of_nil|(p & Hp & _)]; [|done|].
    + apply elem_of_filter_list. split; [apply elem_ordered_pairs; by exists i, j|done].
    + exists (circular_finding p). apply list_elem_of_fmap. by exists p.
Qed.

Lemma payload_found s : (0 ≤ ai_Messages s)%Z →
  payload_finding s ≠ [] ↔ (0 < ai_Messages s ∧ archPayloadAvgBytesThreshold * ai_Messages s ≤ ai_Bytes s)%Z.
Proof.
  intros Hm. unfold payload_finding. destruct (Z.eqb_spec (ai_Messages s) 0) as [E|Hne]; [split; [done|lia]|].
  destruct (Z.ltb_spec (ai_Bytes s / ai_Messages s) archPayloadAvgBytesThreshold) as [Hlt|Hle].
  - split; [done|]. intros [Hp Hb]. pose proof (Z.div_le_lower_bound (ai_Bytes s) (ai_Messages s) archPayloadAvgBytesThreshold). nia.
  - split; [|done]. intros _. split; [lia|]. pose proof (Z.mul_div_le (ai_Bytes s) (ai_Messages s)). nia.
Qed.

Lemma fanout_found range inputs S : range_ok range → S ≠ "" →
  (∃ f, f ∈ findTooManyConsumers range inputs ∧ af_Subject f = S) ↔
  ∃ hs, NoDup (hit_key <$> hs) ∧ archTooManyConsumersPerSubject ≤ length hs ∧ ∀ h, h ∈ hs → listens inputs S h.
Proof.
  intros Hr HS. assert (Hkeyed := keyed_hits hit_key archTooManyConsumersPerSubject (default [] (bySubject inputs !! S))). unfold findTooManyConsumers. split.
  - intros (f & [Hf|Hf]%elem_of_app & <-); apply list_elem_of_In, in_flat_map in Hf as (e & He & Hf); apply list_elem_of_In in Hf.
    + unfold stream_fanout in Hf. destruct (Nat.leb _ _); [by apply list_elem_of_singleton in Hf as ->|by apply not_elem_of_nil in Hf].
    + apply list_elem_of_In in He. rewrite (Hr (bySubject inputs)) in He. destruct e as [S hs]. apply elem_of_map_to_list in He.
      unfold subject_fanout in Hf. destruct (Nat.ltb_spec (length (first_by hit_key [] (S, hs).2)) archTooManyConsumersPerSubject) as [|Hle];
        [by apply not_elem_of_nil in Hf|]. apply list_elem_of_singleton in Hf as ->. cbn in *. rewrite He in Hkeyed. cbn in Hkeyed.
      apply Hkeyed in Hle as (k & Hk & Hlen & Hsub). exists k. split; [done|]. split; [done|]. intros h Hh. apply bySubject_elem. rewrite He. by apply Hsub.
  - intros (hs & Hk & Hlen & Hsub). assert (Hle : archTooManyConsumersPerSubject ≤ length (first_by hit_key [] (default [] (bySubject inputs !! S)))).
    { apply Hkeyed. exists hs. split; [done|]. split; [done|]. intros h Hh. apply bySubject_elem. by apply Hsub. }
    destruct (bySubject inputs !! S) as [all|] eqn:E; [|cbn in Hle; unfold archTooManyConsumersPerSubject in Hle; lia]. cbn in Hle.
    eexists. split; [apply elem_of_app; right; apply list_elem_of_In, in_flat_map; exists (S, all)|].
    + split; [apply list_elem_of_In; rewrite (Hr (bySubject inputs)); by apply elem_of_map_to_list|].
      unfold subject_fanout. cbn [fst snd]. destruct (Nat.ltb_spec (length (first_by hit_key [] all)) archTooManyConsumersPerSubject); [lia|]. by left.
    + done.
Qed.

Lemma elem_suggestions l t : t ∈ arch_suggestions l ↔ t ≠ "" ∧ ∃ f, f ∈ l ∧ t = TrimSpace (af_Suggestion f).
Proof.
  unfold arch_suggestions. rewrite first_by_elem by done. rewrite list_elem_of_omap. unfold nonempty_trimmed. split.
  - intros (f & Hf & Ht). destruct (IsEmpty (TrimSpace (af_Suggestion f))) eqn:E; [done|]. injection Ht as <-.
    split; [by apply IsEmpty_false|]. by exists f.
  - intros (Hne & f & Hf & ->). exists f. split; [done|]. apply IsEmpty_false in Hne. by rewrite Hne.
Qed.

(** ** What NATS delivers

    The tokens of a filter and of a subject: each token of the filter is that of the
    subject or [*], and a last [>] stands for one token or more. *)
Inductive delivers : list string → list string → Prop :=
  | delivers_end : delivers [] []
  | delivers_token t F S : t ≠ ">" → delivers F S → delivers (t :: F) (t :: S)
  | delivers_any t F S : delivers F S → delivers ("*" :: F) (t :: S)
  | delivers_rest t S : delivers [">"] (t :: S).

Lemma filter_tokens_spec F : ∀ S, (∀ p q, F = p ++ ">" :: q → q = []) → (∀ p, F = p ++ [">"] → ¬ delivers p S) →
  filter_tokens F S = true ↔ delivers F S.
Proof.
  induction F as [|tok F IH]; intros S Hlast Hbare.
  { destruct S; cbn; split; [constructor|done|done|by inversion 1]. }
  assert (HlastF : ∀ p q, F = p ++ ">" :: q → q = []) by (intros p q ->; by apply (Hlast (tok :: p))).
  destruct S as [|t S]; cbn [filter_tokens].
  { split; [|by inversion 1]. case_bool_decide as Htok; [|done]. subst. intros _. exfalso.
    rewrite (Hlast [] F eq_refl) in Hbare. apply (Hbare []); [done|constructor]. }
  case_bool_decide as Htok.
  { subst. rewrite (Hlast [] F eq_refl). split; [constructor|done]. }
  assert (HbareF : tok = "*" ∨ tok = t → ∀ p, F = p ++ [">"] → ¬ delivers p S).
  { intros Ht p -> Hp. apply (Hbare (tok :: p)); [done|]. destruct Ht as [->| ->]; by constructor. }
  destruct (decide (tok = "*")) as [->|Hstar].
  - rewrite (bool_decide_eq_true_2 ("*" = "*")) by done. cbn. rewrite IH by auto. split; [by constructor|].
    inversion 1; by subst.
  - rewrite (bool_decide_eq_false_2 (tok = "*")) by done. cbn. case_bool_decide as Ht; cbn.
    + subst. rewrite IH by auto. split; [by constructor|]. inversion 1; by subst.
    + split; [done|]. inversion 1; by subst.
Qed.

(** The inputs on which the checks mean what they say: subjects without wildcards;
    consumers with filters, in which [>] is last; and no filter [x.>] where [x] is, or
    covers, a subject (the check takes it for a match: [filter_tail_matches_nothing]). *)
Record orderly (inputs : list EventArchitectureInput) : Prop := {
  o_concrete : ∀ s x, s ∈ inputs → x ∈ ai_Subjects s → subjectHasWildcard (TrimSpace x) = false;
  o_filtered : ∀ s c, s ∈ inputs → c ∈ ai_Consumers s → namingConsumerFilters c ≠ [];
  o_last : ∀ s c F, s ∈ inputs → c ∈ ai_Consumers s → F ∈ namingConsumerFilters c →
    ∀ p q, Split F "." = p ++ ">" :: q → q = [];
  o_bare : ∀ s c F, s ∈ inputs → c ∈ ai_Consumers s → F ∈ namingConsumerFilters c →
    ∀ t x p, t ∈ inputs → x ∈ ai_Subjects t → Split F "." = p ++ [">"] → ¬ delivers p (Split (TrimSpace x) ".");
}.

(** Some filter of the consumer is delivered the subject. *)
Definition is_delivered (S : string) (c : NamingConsumer) : Prop :=
  ∃ F, F ∈ namingConsumerFilters c ∧ delivers (Split F ".") (Split S ".").

Lemma trimmed_filter c F : F ∈ namingConsumerFilters c → TrimSpace F = F ∧ F ≠ "".
Proof.
  unfold namingConsumerFilters. intros (x & _ & Hx)%list_elem_of_omap. unfold nonempty_trimmed in Hx.
  destruct (IsEmpty (TrimSpace x)) eqn:E; [done|]. injection Hx as <-. split; [apply TrimSpace_idemp|by apply IsEmpty_false].
Qed.

Lemma hears_delivered inputs s c t x : orderly inputs → s ∈ inputs → c ∈ ai_Consumers s → t ∈ inputs → x ∈ ai_Subjects t →
  TrimSpace x ≠ "" → consumer_hears (TrimSpace x) c = true ↔ is_delivered (TrimSpace x) c.
Proof.
  intros Ho Hs Hc Ht Hx Hne. unfold consumer_hears, archConsumerFilters, is_delivered.
  pose proof (o_filtered _ Ho s c Hs Hc) as Hfil.
  destruct (namingConsumerFilters c) as [|F0 Fs] eqn:EF; [done|]. rewrite <- EF in *. rewrite existsb_true_iff.
  assert (Heq : ∀ F, F ∈ namingConsumerFilters c → subjectIntersects (TrimSpace x) F = true ↔ delivers (Split F ".") (Split (TrimSpace x) ".")).
  { intros F HF. destruct (trimmed_filter c F HF) as [HtF HneF].
    rewrite <- (filter_tokens_spec _ _ (o_last _ Ho s c F Hs Hc HF) (λ p, o_bare _ Ho s c F Hs Hc HF t x p Ht Hx)).
    unfold subjectIntersects. rewrite TrimSpace_idemp, HtF, (proj2 (IsEmpty_false _) Hne), (proj2 (IsEmpty_false _) HneF). cbn [orb].
    case_bool_decide as Hall; [|case_bool_decide as Hsame; [|done]].
    - subst F. split; [intros _|done]. change (Split ">" ".") with [">"] in *.
      destruct (Split (TrimSpace x) ".") as [|tok S] eqn:ES; [by apply Split_nonempty in ES|]. reflexivity.
    - subst F. split; [intros _|done]. apply filter_tokens_spec; [by apply (o_last _ Ho s c _ Hs Hc HF)|
        intros p; by apply (o_bare _ Ho s c _ Hs Hc HF t x p Ht Hx)|].
      pose proof (o_concrete _ Ho t x Ht Hx) as Hw. unfold subjectHasWildcard in Hw.
      induction (Split (TrimSpace x) ".") as [|tok S IH]; [constructor|]. cbn in Hw. apply orb_false_iff in Hw as [Htok Hw].
      apply orb_false_iff in Htok as [_ Htok%bool_decide_eq_false]. apply delivers_token; [done|by apply IH]. }
  split; intros (F & HF & H'); exists F; (split; [done|]); by apply Heq.
Qed.

(** A consumer of [b] is delivered a subject of [a]. *)
Definition consumes_from (b a : EventArchitectureInput) : Prop :=
  ∃ x c, x ∈ ai_Subjects a ∧ TrimSpace x ≠ "" ∧ c ∈ ai_Consumers b ∧ is_delivered (TrimSpace x) c.
Lemma cross_consumes inputs a b : orderly inputs → a ∈ inputs → b ∈ inputs →
  streamsCrossConsume a b = true ↔ consumes_from b a.
Proof.
  intros Ho Ha Hb. unfold streamsCrossConsume, consumes_from. rewrite existsb_true_iff. setoid_rewrite list_elem_of_omap. split.
  - intros (S & (x & Hx & HS) & (c & Hc & Hh)%existsb_true_iff). unfold nonempty_trimmed in HS.
    destruct (IsEmpty (TrimSpace x)) eqn:E; [done|]. injection HS as <-. apply IsEmpty_false in E.
    exists x, c. split_and!; [done..|]. by apply (hears_delivered inputs b c a x).
  - intros (x & c & Hx & Hne & Hc & Hd). exists (TrimSpace x). split.
    + exists x. split; [done|]. unfold nonempty_trimmed. by rewrite (proj2 (IsEmpty_false _) Hne).
    + apply existsb_true_iff. exists c. split; [done|]. by apply (hears_delivered inputs b c a x).
Qed.

(** The consumer [h], of some stream, is delivered the subject [S], which its own stream
    or a stream of another name publishes. *)
Definition consumes (inputs : list EventArchitectureInput) (S : string) (h : string * string) : Prop :=
  ∃ stream c, stream ∈ inputs ∧ c ∈ ai_Consumers stream ∧ h = (ai_Name stream, nmc_Name c) ∧ is_delivered S c ∧
    ∃ other x, (other = stream ∨ other ∈ inputs ∧ ai_Name other ≠ ai_Name stream) ∧ x ∈ ai_Subjects other ∧ S = TrimSpace x.
Lemma listens_consumes inputs S h : orderly inputs → S ≠ "" → listens inputs S h ↔ consumes inputs S h.
Proof.
  intros Ho HS. unfold listens, consumes. split.
  - intros (s & c & Hs & Hc & -> & Hh & o & Hos & Hin). unfold concrete_subjects in Hin.
    apply elem_of_filter_list in Hin as [(x & Hx & Ex)%list_elem_of_omap _]. unfold nonempty_trimmed in Ex.
    destruct (IsEmpty (TrimSpace x)); [done|]. injection Ex as <-.
    assert (o ∈ inputs) by (by destruct Hos as [->|[? ?]]). exists s, c.
    split_and!; [done..|by apply (hears_delivered inputs s c o x)|by exists o, x].
  - intros (s & c & Hs & Hc & -> & Hd & o & x & Hos & Hx & ->). assert (o ∈ inputs) by (by destruct Hos as [->|[? ?]]).
    exists s, c. split_and!; [done..|by apply (hears_delivered inputs s c o x)|]. exists o. split; [done|]. unfold concrete_subjects.
    apply elem_of_filter_list. rewrite (o_concrete _ Ho o x) by done. split; [|done].
    apply list_elem_of_omap. exists x. split; [done|]. unfold nonempty_trimmed. by rewrite (proj2 (IsEmpty_false _) HS).
Qed.

End Exact.

(** * What the checks take for a cycle and for a match *)

(** Two streams with a subject each and a consumer without a filter each are a
    critical cycle, although such a consumer hears its own stream only. *)
Lemma unfiltered_consumers_are_circular a b x y c d :
  x ∈ ai_Subjects a → TrimSpace x ≠ "" → y ∈ ai_Subjects b → TrimSpace y ≠ "" →
  c ∈ ai_Consumers a → d ∈ ai_Consumers b → namingConsumerFilters c = [] → namingConsumerFilters d = [] →
  circular (a, b) = true.
Proof.
  assert (Hcross : ∀ a b x d, x ∈ ai_Subjects a → TrimSpace x ≠ "" → d ∈ ai_Consumers b → namingConsumerFilters d = [] →
    streamsCrossConsume a b = true).
  { intros p q z e Hz Hne He Hf. unfold streamsCrossConsume. apply existsb_true_iff. exists (TrimSpace z). split.
    - apply list_elem_of_omap. exists z. split; [done|]. unfold nonempty_trimmed. apply IsEmpty_false in Hne. by rewrite Hne.
    - apply existsb_true_iff. exists e. split; [done|]. unfold consumer_hears, archConsumerFilters. rewrite Hf. cbn.
      unfold subjectIntersects. rewrite TrimSpace_idemp. apply IsEmpty_false in Hne. by rewrite Hne. }
  intros. unfold circular. cbn. rewrite (Hcross a b x d), (Hcross b a y c); done.
Qed.
(** The rest of a filter matches no token at all, and a subject with a wildcard
    misses the filters it covers. *)
Lemma filter_tail_matches_nothing : natsSubjectMatch "orders.>" "orders" = true ∧ subjectIntersects "orders.*" "orders.created" = false.
Proof. split; vm_compute; reflexivity. Qed.

(** * Witnesses *)

#[local] Existing Instance ascii_only.
Definition in_order : Ranges := mkRanges map_to_list map_to_list map_to_list map_to_list.
Definition subjects_reversed : Ranges := mkRanges (λ m, rev (map_to_list m)) (λ m, rev (map_to_list m)) map_to_list (λ m, rev (map_to_list m)).
Lemma in_order_ok : ranges_ok in_order.
Proof. split; intros m; reflexivity. Qed.
Lemma subjects_reversed_ok : ranges_ok subjects_reversed.
Proof. split; intros m; cbn; [symmetry; apply Permutation_rev..|reflexivity|symmetry; apply Permutation_rev]. Qed.

Lemma architecture_review_canonical_witness :
  AnalyzeEventArchitecture in_order demo_architecture = AnalyzeEventArchitecture subjects_reversed demo_architecture.
Proof. exact (architecture_review_canonical in_order subjects_reversed demo_architecture in_order_ok subjects_reversed_ok eq_refl). Defined.

(** Two streams, each of which consumes from the other. *)
Definition pair_streams : list EventArchitectureInput :=
  [mkArchInput "A" ["a.x"] [mkNamingConsumer "ca" "b.>" []] 1 400000; mkArchInput "B" ["b.y"] [mkNamingConsumer "cb" "a.*" []] 0 0].
Lemma pair_streams_orderly : orderly pair_streams.
Proof.
  split.
  - intros s x [->|[->|?%not_elem_of_nil]%elem_of_cons]%elem_of_cons; [..|done]; intros ->%list_elem_of_singleton; reflexivity.
  - intros s c [->|[->|?%not_elem_of_nil]%elem_of_cons]%elem_of_cons; [..|done]; intros ->%list_elem_of_singleton; discriminate.
  - intros s c F [->|[->|?%not_elem_of_nil]%elem_of_cons]%elem_of_cons; [..|done]; intros ->%list_elem_of_singleton ->%list_elem_of_singleton;
      intros p q E; vm_compute in E; destruct p as [|? [|? [|? ?]]]; by simplify_list_eq.
  - intros s c F [->|[->|?%not_elem_of_nil]%elem_of_cons]%elem_of_cons; [..|done]; intros ->%list_elem_of_singleton ->%list_elem_of_singleton;
      intros t x p [->|[->|?%not_elem_of_nil]%elem_of_cons]%elem_of_cons; [..|done| | |done]; intros ->%list_elem_of_singleton E Hd;
      vm_compute in E; destruct p as [|? [|? [|? ?]]]; simplify_list_eq; vm_compute in Hd; inversion Hd as [| |? ? ? Hd'|]; subst;
      try (by inversion Hd'); by match goal with H : delivers [] _ |- _ => inversion H end.
Qed.


(** The review keeps the first naming findings of an order Go leaves open. *)
Definition shop_streams : list EventArchitectureInput :=
  (λ name, mkArchInput name ["orders.a.created"; "order.a.created"; "users.a.created"; "user.a.created"] [] 0 0) <$> ["S"; "T"; "U"; "V"; "W"; "X"].
Lemma review_order_is_open :
  (af_Subject <$> as_Problems (AnalyzeEventArchitecture in_order shop_streams)) ≠
  (af_Subject <$> as_Problems (AnalyzeEventArchitecture (mkRanges map_to_list map_to_list (λ m, rev (map_to_list m)) map_to_list) shop_streams)).
Proof. vm_compute. discriminate. Qed.
