(* ===== verification/ArchScore.v ===== *)
(** The architecture score: internal/domain/architecture_score.go, its table of daily
    scores, internal/repo/architecture_score.go with migrations/027, the service
    internal/app/architecture_score.go, the handler
    internal/api/insights/architecture_score.go and the collector's daily entry,
    internal/snapshot/collector.go.

    The factors of a row are stored as the list that was sent: [json.Unmarshal] reads
    back what [json.Marshal] wrote. *)

From S2P Require Export Architecture Dates Floats Store.
From S2P Require Import GoStrings.

Inductive ScoreFactorID := FNaming | FConsumerExplosion | FDuplicateEvents | FPayloadSize | FLatency | FCoupling.
#[export] Instance ScoreFactorID_eq_dec : EqDecision ScoreFactorID.
Proof. solve_decision. Defined.
Definition factor_text (f : ScoreFactorID) : string :=
  match f with
  | FNaming => "naming"
  | FConsumerExplosion => "consumer_explosion"
  | FDuplicateEvents => "duplicate_events"
  | FPayloadSize => "payload_size"
  | FLatency => "latency"
  | FCoupling => "coupling"
  end.

Definition archScoreMax : Z := 100.
Definition archScorePenaltyCritical : Z := 12.
Definition archScorePenaltyWarn : Z := 6.
Definition archScorePenaltyInfo : Z := 2.
Definition archScoreCapPerKind : Z := 24.
Definition archScoreNamingCleanBonus : Z := 3.
Definition archScoreLatencyImproveBonus : Z := 4.
Definition archScoreLatencyWorsenPen : Z := 4.

(** [sf_Plus]: the sign is "plus". *)
Record ArchitectureScoreFactor := mkFactor {
  sf_ID : string;
  sf_Label : string;
  sf_Plus : bool;
  sf_Delta : Z;
}.
Record ArchitectureScorePrior := mkPrior {
  sp_Score : Z;
  sp_AvgLag : spec_float;
  sp_HasLag : bool;
}.
Record ArchitectureScoreHints := mkHints {
  sh_Prior : option ArchitectureScorePrior;
  sh_AvgLag : spec_float;
  sh_HasLag : bool;
}.
Record ArchitectureScoreTrendPoint := mkTrend {
  tp_Period : string;
  tp_Kind : string;
  tp_Score : Z;
}.
Record ArchitectureScoreDailyRow := mkDaily {
  dr_ScoreDay : Z;
  dr_CapturedAt : Z;
  dr_ClusterID : string;
  dr_Factors : list ArchitectureScoreFactor;
  dr_Score : Z;
  dr_AvgLag : spec_float;
}.
Record ArchitectureScoreSnapshot := mkScore {
  ss_CapturedAt : Z;
  ss_Verdict : string;
  ss_Factors : list ArchitectureScoreFactor;
  ss_Trend : list ArchitectureScoreTrendPoint;
  ss_Score : Z;
  ss_AvgLag : spec_float;
  ss_Demo : bool;
}.

(** * The score *)

Definition isGenomeDuplicateFinding (p : EventArchitectureFinding) : bool :=
  if HasPrefix (af_Title p) "Semantic duplicate" then true
  else existsb (λ e, HasPrefix e "genome=") (af_Evidence p).
Definition findingsOfKind (problems : list EventArchitectureFinding) (kind : ArchKind) : list EventArchitectureFinding :=
  List.filter (λ p, bool_decide (af_Kind p = kind)) problems.
(** The findings about names, and those about duplicates. *)
Definition splitNamingAndDuplicates (problems : list EventArchitectureFinding) :
    list EventArchitectureFinding * list EventArchitectureFinding :=
  let l := findingsOfKind problems NamingInconsistent in
  (List.filter (λ p, negb (isGenomeDuplicateFinding p)) l, List.filter isGenomeDuplicateFinding l).

Definition finding_penalty (p : EventArchitectureFinding) : Z :=
  match af_Severity p with
  | ArchCritical => archScorePenaltyCritical
  | ArchWarn => archScorePenaltyWarn
  | ArchInfo => archScorePenaltyInfo
  end.
Definition minInt (a b : Z) : Z := if Z.ltb a b then a else b.
Definition cappedPenalty (findings : list EventArchitectureFinding) : Z :=
  minInt (foldl (λ pen f, pen + finding_penalty f)%Z 0%Z findings) archScoreCapPerKind.

Definition scoreVerdict (score : Z) : string :=
  "Architecture score " +:+ Itoa score +:+
  (if Z.leb 90 score then "/100 — healthy with room to polish"
   else if Z.leb 75 score then "/100 — needs attention on a few factors"
   else "/100 — at risk; address high-impact factors").

(** The factor that takes points, if any. *)
Definition minus_factor (id : ScoreFactorID) (label : string) (pen : Z) : list ArchitectureScoreFactor :=
  if Z.ltb 0 pen then [mkFactor (factor_text id) label false (- pen)] else [].
Definition latency_factor (hints : ArchitectureScoreHints) : list ArchitectureScoreFactor :=
  match sh_Prior hints with
  | Some prior =>
      if sh_HasLag hints && sp_HasLag prior && fpos (sp_AvgLag prior) then
        if SFleb (sh_AvgLag hints) (fmul (sp_AvgLag prior) (fconst 9 10))
        then [mkFactor (factor_text FLatency) "Better latency" true archScoreLatencyImproveBonus]
        else if SFleb (fmul (sp_AvgLag prior) (fconst 11 10)) (sh_AvgLag hints)
        then minus_factor FLatency "Worse latency" archScoreLatencyWorsenPen
        else []
      else []
  | None => []
  end.
(** The positive ones first, then by their identifiers. *)
Definition factor_le (f g : ArchitectureScoreFactor) : bool :=
  if bool_decide (sf_Plus f = sf_Plus g) then bool_decide (String.le (sf_ID f) (sf_ID g)) else sf_Plus f.
Definition clamp_score (score : Z) : Z :=
  let score := if Z.ltb archScoreMax score then archScoreMax else score in
  if Z.ltb score 0 then 0 else score.

Section Score.
Context `{GoUnicode}.

Definition analyzeGenomeForScore range (inputs : list EventArchitectureInput) : EventGenomeSnapshot :=
  AnalyzeEventGenome range (arch_naming_input <$> inputs).

(** The factors in the order they are applied. *)
Definition score_factors (r : Ranges) (inputs : list EventArchitectureInput) (hints : ArchitectureScoreHints) :
    list ArchitectureScoreFactor :=
  let problems := as_Problems (AnalyzeEventArchitecture r inputs) in
  let '(namingFindings, duplicateFindings) := splitNamingAndDuplicates problems in
  let namingPenalty := cappedPenalty namingFindings in
  let genome := length (gs_Findings (analyzeGenomeForScore (rg_genome r) inputs)) in
  let dupCount := Z.of_nat (if Nat.eqb genome 0 then length duplicateFindings else genome) in
  (if Z.ltb 0 namingPenalty then minus_factor FNaming "Naming inconsistent" namingPenalty
   else [mkFactor (factor_text FNaming) "Better naming" true archScoreNamingCleanBonus]) ++
  minus_factor FDuplicateEvents "Duplicate events" (minInt (dupCount * archScorePenaltyInfo) archScoreCapPerKind) ++
  minus_factor FConsumerExplosion "Consumer explosion" (cappedPenalty (findingsOfKind problems TooManyConsumers)) ++
  minus_factor FPayloadSize "Growing payload sizes" (cappedPenalty (findingsOfKind problems PayloadTooLarge)) ++
  minus_factor FCoupling "Tight coupling"
    (cappedPenalty (findingsOfKind problems CircularDependency ++ findingsOfKind problems TightCoupling)) ++
  latency_factor hints.
Definition ComputeArchitectureScore (r : Ranges) (inputs : list EventArchitectureInput) (hints : ArchitectureScoreHints) :
    ArchitectureScoreSnapshot :=
  let factors := score_factors r inputs hints in
  let score := clamp_score (foldl (λ s f, s + sf_Delta f)%Z archScoreMax factors) in
  mkScore 0 (scoreVerdict score) (sort_stable factor_le factors) [] score (sh_AvgLag hints) false.
End Score.

(** * The trend *)

(** The sum and the number of the scores of each month. *)
Definition add_month (m : gmap string (Z * Z)) (r : ArchitectureScoreDailyRow) : gmap string (Z * Z) :=
  let month := format_month (dr_ScoreDay r) in
  let '(sum, n) := default (0, 0)%Z (m !! month) in
  <[month := (sum + dr_Score r, n + 1)%Z]> m.
Definition monthly_points (rows : list ArchitectureScoreDailyRow) : list ArchitectureScoreTrendPoint :=
  let months := foldl add_month ∅ rows in
  omap (λ m, match months !! m with
             | Some (sum, n) => if Z.leb n 0 then None else Some (mkTrend m "month" (sum ÷ n))
             | None => None
             end) (SortStrings (map_to_list months).*1).
Definition daily_points (rows : list ArchitectureScoreDailyRow) : list ArchitectureScoreTrendPoint :=
  (λ r, mkTrend (format_day (dr_ScoreDay r)) "day" (dr_Score r)) <$> rows.
Definition with_trend (trend : list ArchitectureScoreTrendPoint) (s : ArchitectureScoreSnapshot) : ArchitectureScoreSnapshot :=
  mkScore (ss_CapturedAt s) (ss_Verdict s) (ss_Factors s) trend (ss_Score s) (ss_AvgLag s) (ss_Demo s).
Definition AttachArchitectureScoreTrend (snap : ArchitectureScoreSnapshot) (rows : list ArchitectureScoreDailyRow) :
    ArchitectureScoreSnapshot :=
  let monthly := monthly_points rows in
  with_trend (if Nat.leb 2 (length monthly) then monthly else daily_points rows) snap.

(** The showcase; its months count back from the day it is shown. *)
Definition DemoArchitectureScoreSnapshot (now : Z) : ArchitectureScoreSnapshot := {|
  ss_CapturedAt := now;
  ss_Verdict := "Architecture score 92/100 — naming and latency improved; watch consumer fan-out and payloads";
  ss_Factors := [
    mkFactor (factor_text FNaming) "Better naming" true 3;
    mkFactor (factor_text FLatency) "Better latency" true 4;
    mkFactor (factor_text FConsumerExplosion) "Consumer explosion" false (-6);
    mkFactor (factor_text FDuplicateEvents) "Duplicate events" false (-2);
    mkFactor (factor_text FPayloadSize) "Growing payload sizes" false (-6)];
  ss_Trend := imap (λ i s, mkTrend (format_month (add_date (Z.of_nat i - 5) 0 now)) "month" s) [84; 86; 88; 90; 91; 92]%Z;
  ss_Score := 92;
  ss_AvgLag := f64 0;
  ss_Demo := true |}.

(** The mean, if there are samples. *)
Definition AverageConsumerLag (lags : list spec_float) : spec_float * bool :=
  if Nat.eqb (length lags) 0 then (f64 0, false)
  else (fdiv (fsum lags) (f64 (Z.of_nat (length lags))), true).
Definition NormalizeArchitectureScoreFactors (factors : list ArchitectureScoreFactor) : list ArchitectureScoreFactor :=
  List.filter (λ f, negb (IsEmpty (sf_ID f))) factors.

(** * The table: one row per cluster and day *)

Record ScoreTables := mkScoreTables {
  sct_up : bool;
  sct_clusters : list string;
  sct_rows : gmap (string * Z) ArchitectureScoreDailyRow;
}.
Definition set_scores (f : gmap (string * Z) ArchitectureScoreDailyRow → gmap (string * Z) ArchitectureScoreDailyRow)
    (t : ScoreTables) : ScoreTables := mkScoreTables (sct_up t) (sct_clusters t) (f (sct_rows t)).
Abbreviation ScM := (M ScoreTables err).
Definition scores_online : ScM unit := let! t := get in ensure (sct_up t) ErrDB.

(** With the constraints of the table; [captured_at] of the zero time is now. *)
Definition UpsertArchitectureScoreDaily (now : Z) (row : ArchitectureScoreDailyRow) : ScM unit :=
  scores_online ;;
  let! t := get in
  let day := truncate day_ns (dr_ScoreDay row) in
  ensure (dr_ClusterID row ∈b sct_clusters t) ErrDB ;;
  ensure (Z.leb 0 (dr_Score row) && Z.leb (dr_Score row) 100) ErrDB ;;
  modify (set_scores (<[(dr_ClusterID row, day_of day) :=
    mkDaily day (if Z.eqb (dr_CapturedAt row) 0 then now else dr_CapturedAt row) (dr_ClusterID row)
      (NormalizeArchitectureScoreFactors (dr_Factors row)) (dr_Score row) (dr_AvgLag row)]>)).
Definition GetArchitectureScoreDaily (clusterID : string) (day : Z) : ScM (option ArchitectureScoreDailyRow) :=
  scores_online ;;
  let! t := get in
  ret (sct_rows t !! (clusterID, day_of day)).
(** By day, from and to included. *)
Definition day_le (r s : ArchitectureScoreDailyRow) : bool := Z.leb (dr_ScoreDay r) (dr_ScoreDay s).
Definition ListArchitectureScoreDaily (clusterID : string) (from to : Z) : ScM (list ArchitectureScoreDailyRow) :=
  scores_online ;;
  let! t := get in
  ret (sort_stable day_le (snd <$> List.filter (λ kr, (kr.1.1 =s clusterID) && Z.leb (day_of from) kr.1.2 && Z.leb kr.1.2 (day_of to))
                                     (map_to_list (sct_rows t)))).
Definition DeleteArchitectureScoreDailyOlderThan (cutoff : Z) : ScM Z :=
  scores_online ;;
  let! t := get in
  let old := filter (λ kr, Z.ltb kr.1.2 (day_of cutoff) = true) (sct_rows t) in
  modify (set_scores (filter (λ kr, Z.ltb kr.1.2 (day_of cutoff) = false))) ;;
  ret (Z.of_nat (size old)).

(** * The service *)

Definition architectureScoreLookback : Z := 180 * day_ns.
Definition ListHistory (now : Z) (clusterID : string) : ScM (list ArchitectureScoreDailyRow) :=
  ListArchitectureScoreDaily clusterID (now - architectureScoreLookback) now.
Definition PriorDay (clusterID : string) (day : Z) : ScM (option ArchitectureScorePrior) :=
  let! row := GetArchitectureScoreDaily clusterID (add_date 0 (-1) day) in
  ret ((λ r, mkPrior (dr_Score r) (dr_AvgLag r) (fpos (dr_AvgLag r))) <$> row).
Definition UpsertToday (now : Z) (row : ArchitectureScoreDailyRow) : ScM unit := UpsertArchitectureScoreDaily now row.

(** * The handler and the collector *)

Section Handler.
Context `{GoUnicode}.
Definition score_hints (lags : option (list spec_float)) (prior : result err (option ArchitectureScorePrior)) : ArchitectureScoreHints :=
  let '(avg, ok) := match lags with Some l => AverageConsumerLag l | None => (f64 0, false) end in
  mkHints (match prior with Ok (Some p) => Some p | _ => None end) avg ok.

(** [loadArchitectureScore] once the topology was read: its inputs, the lags of its
    consumers, and the time it was captured; [None]: answered with 500. *)
Definition loadArchitectureScore (r : Ranges) (now : Z) (clusterID : string) (inputs : list EventArchitectureInput)
    (lags : option (list spec_float)) (capturedAt : Z) : ScM (option ArchitectureScoreSnapshot) :=
  let! prior := attempt (PriorDay clusterID now) in
  let hints := score_hints lags prior in
  let snap := ComputeArchitectureScore r inputs hints in
  let capturedAt := if Z.eqb capturedAt 0 then now else capturedAt in
  let! rows := attempt (ListHistory now clusterID) in
  match rows with
  | Err _ => ret None
  | Ok rows =>
      let snap := AttachArchitectureScoreTrend (mkScore capturedAt (ss_Verdict snap) (ss_Factors snap) (ss_Trend snap)
                    (ss_Score snap) (ss_AvgLag snap) (ss_Demo snap)) rows in
      attempt (UpsertToday now (mkDaily capturedAt capturedAt clusterID (ss_Factors snap) (ss_Score snap) (sh_AvgLag hints))) ;;
      ret (Some snap)
  end.

(** [Collector.upsertArchitectureScore] *)
Definition upsertArchitectureScore (r : Ranges) (now : Z) (clusterID : string) (capturedAt : Z)
    (inputs : list EventArchitectureInput) (lags : list spec_float) : ScM unit :=
  if Nat.eqb (length inputs) 0 then ret tt
  else
    let! prior := attempt (PriorDay clusterID capturedAt) in
    let hints := score_hints (Some lags) prior in
    let snap := ComputeArchitectureScore r inputs hints in
    attempt (UpsertArchitectureScoreDaily now
      (mkDaily capturedAt capturedAt clusterID (ss_Factors snap) (ss_Score snap) (sh_AvgLag hints))) ;;
    ret tt.
End Handler.
