(* ===== verification/ArchScoreFacts.v ===== *)
(** What the architecture score says: how it follows from the numbers of findings,
    that it does not depend on the order of Go's maps, and that the table of daily
    scores gives back what was stored. *)

From S2P Require Export ArchScore.
From S2P Require Import ArchitectureFacts NamingFacts Subjects GoStrings.

(** * Penalties *)

#[local] Arguments finding_penalty : simpl never.
Definition total_penalty (l : list EventArchitectureFinding) : Z := foldr (λ f n, finding_penalty f + n)%Z 0%Z l.
Lemma foldl_penalty l n : foldl (λ pen f, pen + finding_penalty f)%Z n l = (n + total_penalty l)%Z.
Proof. revert n. induction l as [|f l IH]; intros n; cbn; [lia|]. rewrite IH. unfold total_penalty. lia. Qed.
Lemma total_penalty_perm l k : l ≡ₚ k → total_penalty l = total_penalty k.
Proof. unfold total_penalty. induction 1; cbn [foldr]; lia. Qed.
Lemma total_penalty_app l k : total_penalty (l ++ k) = (total_penalty l + total_penalty k)%Z.
Proof. unfold total_penalty in *. induction l as [|f l IH]; cbn [app foldr]; [done|]. rewrite IH. lia. Qed.
Lemma total_penalty_of s l : (∀ f, f ∈ l → af_Severity f = s) →
  total_penalty l = (Z.of_nat (length l) * match s with ArchCritical => 12 | ArchWarn => 6 | ArchInfo => 2 end)%Z.
Proof.
  induction l as [|f l IH]; intros Hl; [done|]. cbn [total_penalty foldr length]. change (foldr _ 0%Z l) with (total_penalty l).
  rewrite IH by (intros; apply Hl; by right). unfold finding_penalty. rewrite (Hl f) by left.
  destruct s; unfold archScorePenaltyCritical, archScorePenaltyWarn, archScorePenaltyInfo; lia.
Qed.
Lemma cappedPenalty_total l : cappedPenalty l = Z.min (total_penalty l) 24.
Proof. unfold cappedPenalty. rewrite foldl_penalty. unfold minInt, archScoreCapPerKind. destruct (Z.ltb_spec (0 + total_penalty l) 24); lia. Qed.

(** * The findings counted *)

Record Counts := mkCounts {
  ct_naming : nat; ct_genome : nat; ct_fanout : nat; ct_payload : nat; ct_circular : nat; ct_coupling : nat;
}.
(** The factors of a report with so many findings of each kind. *)
Definition counted_factors (c : Counts) (hints : ArchitectureScoreHints) : list ArchitectureScoreFactor :=
  let n x := Z.of_nat (x c) in
  (if Nat.eqb (ct_naming c) 0 then [mkFactor (factor_text FNaming) "Better naming" true 3]
   else minus_factor FNaming "Naming inconsistent" (Z.min (2 * n ct_naming) 16)) ++
  minus_factor FDuplicateEvents "Duplicate events" (Z.min (2 * n ct_genome) 24) ++
  minus_factor FConsumerExplosion "Consumer explosion" (Z.min (6 * n ct_fanout) 24) ++
  minus_factor FPayloadSize "Growing payload sizes" (Z.min (6 * n ct_payload) 24) ++
  minus_factor FCoupling "Tight coupling" (Z.min (12 * n ct_circular + 6 * n ct_coupling) 24) ++
  latency_factor hints.

Section Counted.
Context `{GoUnicode}.
Definition counts (r : Ranges) (inputs : list EventArchitectureInput) : Counts := {|
  ct_naming := length (fst (AnalyzeSubjectNaming (rg_naming r) (arch_naming_input <$> inputs)));
  ct_genome := length (gs_Findings (AnalyzeEventGenome (rg_genome r) (arch_naming_input <$> inputs)));
  ct_fanout := length (found_by r inputs TooManyConsumers);
  ct_payload := length (found_by r inputs PayloadTooLarge);
  ct_circular := length (found_by r inputs CircularDependency);
  ct_coupling := length (found_by r inputs TightCoupling) |}.

Lemma problems_of_kind r inputs k : findingsOfKind (as_Problems (AnalyzeEventArchitecture r inputs)) k ≡ₚ found_by r inputs k.
Proof. rewrite <- of_kind_found. unfold findingsOfKind, of_kind. apply filter_perm, sort_stable_perm. Qed.
Lemma kind_penalty r inputs k : total_penalty (findingsOfKind (as_Problems (AnalyzeEventArchitecture r inputs)) k) =
  (Z.of_nat (length (found_by r inputs k)) * match kind_severity k with ArchCritical => 12 | ArchWarn => 6 | ArchInfo => 2 end)%Z.
Proof. rewrite (total_penalty_perm _ _ (problems_of_kind r inputs k)). apply total_penalty_of. intros f Hf. by apply found_by_kind in Hf as [_ ->]. Qed.

Lemma naming_not_duplicate f : isGenomeDuplicateFinding (naming_finding f) = false.
Proof. unfold isGenomeDuplicateFinding. cbn. by destruct (sn_Kind f). Qed.
Lemma genome_is_duplicate f : isGenomeDuplicateFinding (genome_finding f) = true.
Proof. reflexivity. Qed.
Lemma filter_all {A} (p : A → bool) l : (∀ x, x ∈ l → p x = true) → List.filter p l = l.
Proof. induction l as [|x l IH]; intros Hl; [done|]. cbn. rewrite (Hl x) by left. rewrite IH; [done|]. intros; apply Hl; by right. Qed.
Lemma filter_no {A} (p : A → bool) l : (∀ x, x ∈ l → p x = false) → List.filter p l = [].
Proof. induction l as [|x l IH]; intros Hl; [done|]. cbn. rewrite (Hl x) by left. apply IH. intros; apply Hl; by right. Qed.

Lemma split_problems r inputs :
  let '(naming, duplicates) := splitNamingAndDuplicates (as_Problems (AnalyzeEventArchitecture r inputs)) in
  naming ≡ₚ mapNamingFindings (rg_naming r) inputs ∧ duplicates ≡ₚ mapGenomeFindings (rg_genome r) inputs.
Proof.
  unfold splitNamingAndDuplicates. pose proof (problems_of_kind r inputs NamingInconsistent) as Hp. cbn [found_by] in Hp.
  assert (Hn : ∀ f, f ∈ mapNamingFindings (rg_naming r) inputs → isGenomeDuplicateFinding f = false)
    by (intros f (x & -> & _)%list_elem_of_fmap; apply naming_not_duplicate).
  assert (Hg : ∀ f, f ∈ mapGenomeFindings (rg_genome r) inputs → isGenomeDuplicateFinding f = true)
    by (intros f (x & -> & _)%list_elem_of_fmap; apply genome_is_duplicate).
  split; rewrite (filter_perm _ _ _ Hp), List.filter_app.
  - rewrite (filter_all _ (mapNamingFindings _ _)), (filter_no _ (mapGenomeFindings _ _)); [by rewrite List.app_nil_r|intros f Hf; by rewrite Hg|intros f Hf; by rewrite Hn].
  - by rewrite (filter_no _ (mapNamingFindings _ _)), (filter_all _ (mapGenomeFindings _ _)).
Qed.

(** The score counts the findings. *)
Lemma score_factors_counted r inputs hints : score_factors r inputs hints = counted_factors (counts r inputs) hints.
Proof.
  unfold score_factors, counted_factors. pose proof (split_problems r inputs) as Hs.
  destruct (splitNamingAndDuplicates _) as [naming dup]. destruct Hs as [Hn Hd].
  rewrite !cappedPenalty_total, total_penalty_app, !kind_penalty, (total_penalty_perm _ _ Hn), (Permutation_length Hd).
  rewrite (total_penalty_of ArchInfo (mapNamingFindings _ _)) by (intros f (x & -> & _)%list_elem_of_fmap; done).
  unfold mapNamingFindings, mapGenomeFindings. rewrite !length_fmap, !length_take. cbn [kind_severity counts ct_naming ct_genome ct_fanout ct_payload ct_circular ct_coupling].
  unfold archMaxNamingFindings, archMaxGenomeFindings, analyzeGenomeForScore.
  set (nn := length (fst _)). set (ng := length (gs_Findings _)). f_equal; [|f_equal; [|f_equal; [|f_equal; [|f_equal]]]].
  - destruct (Nat.eqb_spec nn 0) as [->|Hne]; [done|]. destruct (Z.ltb_spec 0 (Z.min (Z.of_nat (8 `min` nn) * 2) 24)); [|lia]. f_equal. lia.
  - f_equal. unfold minInt, archScorePenaltyInfo, archScoreCapPerKind. destruct (Nat.eqb_spec ng 0) as [->|Hne]; [done|].
    destruct (Z.ltb_spec (Z.of_nat ng * 2) 24); lia.
  - f_equal. lia.
  - f_equal. lia.
  - f_equal. lia.
Qed.

(** The numbers of findings do not depend on the order of the maps. *)
Lemma counts_canonical r1 r2 inputs : ranges_ok r1 → ranges_ok r2 → counts r1 inputs = counts r2 inputs.
Proof.
  intros [Hs1 Hp1 Hn1 Hg1] [Hs2 Hp2 Hn2 Hg2]. unfold counts. f_equal.
  - unfold AnalyzeSubjectNaming. cbn [fst]. rewrite !length_app. f_equal. apply Permutation_length, flat_map_perm. by rewrite Hn1, Hn2.
  - by rewrite !genome_report_sorted.
  - cbn. unfold findTooManyConsumers. rewrite !length_app. f_equal. apply Permutation_length, flat_map_perm. by rewrite Hs1, Hs2.
  - cbn. unfold findTightCoupling. apply Permutation_length, flat_map_perm. by rewrite Hp1, Hp2.
Qed.
End Counted.

(** * The factors and the score *)

Definition sum_deltas (l : list ArchitectureScoreFactor) : Z := foldr (λ f n, sf_Delta f + n)%Z 0%Z l.
Lemma foldl_deltas l n : foldl (λ s f, s + sf_Delta f)%Z n l = (n + sum_deltas l)%Z.
Proof. unfold sum_deltas. revert n. induction l as [|f l IH]; intros n; cbn [foldl foldr]; [lia|]. rewrite IH. lia. Qed.
Lemma sum_deltas_perm l k : l ≡ₚ k → sum_deltas l = sum_deltas k.
Proof. unfold sum_deltas. induction 1; cbn [foldr]; lia. Qed.

(** The sign of a factor is that of its points, of which it takes at most 24 and
    gives at most 4. *)
Definition sound_factor (f : ArchitectureScoreFactor) : Prop :=
  (sf_Delta f ≠ 0 ∧ -24 ≤ sf_Delta f ≤ 4 ∧ (sf_Plus f = true ↔ 0 < sf_Delta f))%Z.
Lemma minus_factor_sound id label pen f : (pen ≤ 24)%Z → f ∈ minus_factor id label pen → sound_factor f ∧ sf_ID f = factor_text id.
Proof.
  intros Hp. unfold minus_factor. destruct (Z.ltb_spec 0 pen); [|by intros ?%not_elem_of_nil]. intros ->%list_elem_of_singleton.
  unfold sound_factor. cbn. split; [|done]. split; [lia|]. split; [lia|]. split; [done|lia].
Qed.
Lemma latency_factor_sound hints f : f ∈ latency_factor hints → sound_factor f ∧ sf_ID f = factor_text FLatency.
Proof.
  unfold latency_factor. destruct (sh_Prior hints) as [prior|]; [|by intros ?%not_elem_of_nil].
  destruct (_ && _); [|by intros ?%not_elem_of_nil]. destruct (SFleb _ _); [by intros ->%list_elem_of_singleton|].
  destruct (SFleb _ _); [by apply minus_factor_sound|by intros ?%not_elem_of_nil].
Qed.
Lemma counted_factors_sound c hints f : f ∈ counted_factors c hints → sound_factor f.
Proof.
  unfold counted_factors. rewrite !elem_of_app. intros [Hf|[Hf|[Hf|[Hf|[Hf|Hf]]]]]; [|by apply minus_factor_sound in Hf as [? _]; [|lia]..|by apply latency_factor_sound in Hf as [? _]].
  destruct (Nat.eqb _ _); [by apply list_elem_of_singleton in Hf as ->|]. apply minus_factor_sound in Hf as [? _]; [done|lia].
Qed.

Lemma minus_factor_ids id label pen : sf_ID <$> minus_factor id label pen = [] ∨ sf_ID <$> minus_factor id label pen = [factor_text id].
Proof. unfold minus_factor. destruct (Z.ltb _ _); [by right|by left]. Qed.
Lemma latency_factor_ids hints : sf_ID <$> latency_factor hints = [] ∨ sf_ID <$> latency_factor hints = [factor_text FLatency].
Proof. unfold latency_factor. repeat case_match; auto using minus_factor_ids. Qed.
Lemma counted_factors_ids c hints : NoDup (sf_ID <$> counted_factors c hints).
Proof.
  unfold counted_factors. rewrite !fmap_app.
  assert (Hn : ∀ b : bool, ∀ pen, sf_ID <$> (if b then [mkFactor (factor_text FNaming) "Better naming" true 3] else minus_factor FNaming "Naming inconsistent" pen) = [] ∨
    sf_ID <$> (if b then [mkFactor (factor_text FNaming) "Better naming" true 3] else minus_factor FNaming "Naming inconsistent" pen) = [factor_text FNaming])
    by (intros [] pen; [by right|apply minus_factor_ids]).
  destruct (Hn (Nat.eqb (ct_naming c) 0) (Z.min (2 * Z.of_nat (ct_naming c)) 16)) as [-> | ->];
  destruct (minus_factor_ids FDuplicateEvents "Duplicate events" (Z.min (2 * Z.of_nat (ct_genome c)) 24)) as [-> | ->];
  destruct (minus_factor_ids FConsumerExplosion "Consumer explosion" (Z.min (6 * Z.of_nat (ct_fanout c)) 24)) as [-> | ->];
  destruct (minus_factor_ids FPayloadSize "Growing payload sizes" (Z.min (6 * Z.of_nat (ct_payload c)) 24)) as [-> | ->];
  destruct (minus_factor_ids FCoupling "Tight coupling" (Z.min (12 * Z.of_nat (ct_circular c) + 6 * Z.of_nat (ct_coupling c)) 24)) as [-> | ->];
  destruct (latency_factor_ids hints) as [-> | ->]; apply (bool_decide_eq_true_1 (NoDup _)); vm_compute; reflexivity.
Qed.

Lemma factor_le_total f g : factor_le f g = false → factor_le g f = true.
Proof.
  unfold factor_le. case_bool_decide as E.
  - rewrite (bool_decide_eq_true_2 (sf_Plus g = sf_Plus f)) by done. intros Hn%bool_decide_eq_false. apply bool_decide_eq_true. by destruct (total String.le (sf_ID f) (sf_ID g)).
  - rewrite (bool_decide_eq_false_2 (sf_Plus g = sf_Plus f)) by congruence. by destruct (sf_Plus f), (sf_Plus g).
Qed.
Lemma factor_le_trans f g h : factor_le f g = true → factor_le g h = true → factor_le f h = true.
Proof.
  unfold factor_le. destruct (sf_Plus f), (sf_Plus g), (sf_Plus h); cbn; try done; intros Hfg%bool_decide_eq_true; try done; intros Hgh%bool_decide_eq_true; apply bool_decide_eq_true; by etrans.
Qed.

Section Score.
Context `{GoUnicode}.
(** The score is between 0 and 100: 100 and the points of its factors, which are
    those the numbers of findings give, at most one of each kind, each giving at
    most 4 points or taking at most 24, the ones that give first. *)
Theorem architecture_score_exact r inputs hints :
  let s := ComputeArchitectureScore r inputs hints in
  (0 ≤ ss_Score s ≤ archScoreMax)%Z ∧
  ss_Score s = clamp_score (archScoreMax + sum_deltas (ss_Factors s)) ∧
  ss_Factors s ≡ₚ counted_factors (counts r inputs) hints ∧
  StronglySorted (λ f g, factor_le f g = true) (ss_Factors s) ∧
  NoDup (sf_ID <$> ss_Factors s) ∧
  ∀ f, f ∈ ss_Factors s → sound_factor f.
Proof.
  intros s. assert (Hp : ss_Factors s ≡ₚ counted_factors (counts r inputs) hints)
    by (rewrite <- score_factors_counted; apply sort_stable_perm).
  split; [|split; [|split; [done|split; [|split]]]].
  - cbn. unfold clamp_score, archScoreMax. repeat case_match; rewrite ?Z.ltb_lt, ?Z.ltb_ge in *; lia.
  - rewrite (sum_deltas_perm _ _ Hp), <- score_factors_counted. cbn. by rewrite foldl_deltas.
  - apply sort_stable_sorted; [apply factor_le_total|apply factor_le_trans].
  - rewrite (Permutation_map sf_ID Hp). apply counted_factors_ids.
  - intros f. rewrite Hp. apply counted_factors_sound.
Qed.

(** Of whatever order Go ranges over its maps in, the score, its factors and its
    verdict are the same, though the review behind them is not. *)
Theorem architecture_score_canonical r1 r2 inputs hints : ranges_ok r1 → ranges_ok r2 →
  ComputeArchitectureScore r1 inputs hints = ComputeArchitectureScore r2 inputs hints.
Proof. intros H1 H2. unfold ComputeArchitectureScore. by rewrite !score_factors_counted, (counts_canonical r1 r2). Qed.
End Score.

(** * Days *)

Lemma add_days n t : add_date 0 n t = (t + n * day_ns)%Z.
Proof.
  unfold add_date. pose proof (days_of_civil (day_of t)) as Hd. destruct (civil (day_of t)) as [[y m] d]. destruct Hd as [Hd Hv].
  unfold valid_date in Hv. rewrite !andb_true_iff, !Z.leb_le in Hv.
  rewrite Z.add_0_r, (Z.div_small (m - 1) 12), (Z.mod_small (m - 1) 12), Z.add_0_r, Z.sub_add, Hd by lia.
  unfold day_of. pose proof (Z.div_mod t day_ns). unfold day_ns, hour, minute, second in *. lia.
Qed.
Lemma day_of_add n t : day_of (t + n * day_ns) = (day_of t + n)%Z.
Proof. unfold day_of. by rewrite Z_div_plus_full. Qed.
Lemma day_of_truncate t : day_of (truncate day_ns t) = day_of t.
Proof. unfold day_of, truncate. by rewrite Z.div_mul. Qed.

(** * The table *)

(** A row is that of its cluster and of the beginning of its day. *)
Definition scores_ok (t : ScoreTables) : Prop := ∀ c d r, sct_rows t !! (c, d) = Some r →
  dr_ClusterID r = c ∧ dr_ScoreDay r = (d * day_ns)%Z ∧ c ∈ sct_clusters t ∧ (0 ≤ dr_Score r ≤ archScoreMax)%Z ∧
  Forall (λ f, sf_ID f ≠ "") (dr_Factors r).
(** The row that is stored. *)
Definition stored_row (now : Z) (row : ArchitectureScoreDailyRow) : ArchitectureScoreDailyRow :=
  mkDaily (day_of (dr_ScoreDay row) * day_ns) (if Z.eqb (dr_CapturedAt row) 0 then now else dr_CapturedAt row) (dr_ClusterID row)
    (NormalizeArchitectureScoreFactors (dr_Factors row)) (dr_Score row) (dr_AvgLag row).
Definition put_row (now : Z) (row : ArchitectureScoreDailyRow) (t : ScoreTables) : ScoreTables :=
  set_scores (<[(dr_ClusterID row, day_of (dr_ScoreDay row)) := stored_row now row]>) t.

Lemma upsert_run now row t : sct_up t = true → dr_ClusterID row ∈ sct_clusters t → (0 ≤ dr_Score row ≤ 100)%Z →
  UpsertArchitectureScoreDaily now row t = (Ok tt, put_row now row t).
Proof.
  intros Hup Hc Hs. unfold UpsertArchitectureScoreDaily, scores_online, bind, get, ensure. cbn. rewrite Hup. cbn.
  rewrite bool_decide_eq_true_2 by done. destruct (Z.leb_spec 0 (dr_Score row)), (Z.leb_spec (dr_Score row) 100); try lia. cbn.
  unfold modify, put_row, stored_row. by rewrite day_of_truncate.
Qed.
(** What is not stored leaves the table as it was. *)
Lemma upsert_cases now row t : let '(res, t') := UpsertArchitectureScoreDaily now row t in
  (res = Ok tt ∧ t' = put_row now row t ∧ dr_ClusterID row ∈ sct_clusters t ∧ (0 ≤ dr_Score row ≤ 100)%Z) ∨ (res = Err ErrDB ∧ t' = t).
Proof.
  destruct (sct_up t) eqn:Hup.
  - destruct (decide (dr_ClusterID row ∈ sct_clusters t)) as [Hc|Hc].
    + destruct (decide (0 ≤ dr_Score row ≤ 100)%Z) as [Hs|Hs]; [rewrite upsert_run by done; by left|].
      unfold UpsertArchitectureScoreDaily, scores_online, bind, get, ensure. cbn. rewrite Hup. cbn. rewrite bool_decide_eq_true_2 by done. cbn.
      destruct (Z.leb_spec 0 (dr_Score row)), (Z.leb_spec (dr_Score row) 100); try lia; by right.
    + unfold UpsertArchitectureScoreDaily, scores_online, bind, get, ensure. cbn. rewrite Hup. cbn. rewrite bool_decide_eq_false_2 by done. by right.
  - unfold UpsertArchitectureScoreDaily, scores_online, bind, get, ensure. cbn. rewrite Hup. by right.
Qed.
Lemma put_row_ok now row t : scores_ok t → dr_ClusterID row ∈ sct_clusters t → (0 ≤ dr_Score row ≤ 100)%Z → scores_ok (put_row now row t).
Proof.
  intros Ht Hc Hs c d r Hr. cbn in Hr. destruct (decide ((dr_ClusterID row, day_of (dr_ScoreDay row)) = (c, d))) as [[= <- <-]|Hne].
  - rewrite lookup_insert_eq in Hr. injection Hr as <-. cbn. split_and!; try done; [apply Hs..|].
    apply Forall_forall. intros f [_ Hf]%elem_of_filter_list. by apply negb_true_iff, IsEmpty_false in Hf.
  - rewrite lookup_insert_ne in Hr by done. by apply Ht.
Qed.
Lemma get_row_run c day t : sct_up t = true → GetArchitectureScoreDaily c day t = (Ok (sct_rows t !! (c, day_of day)), t).
Proof. intros Hup. unfold GetArchitectureScoreDaily, scores_online, bind, get, ensure. cbn. by rewrite Hup. Qed.
Lemma prior_run c day t : sct_up t = true →
  PriorDay c day t = (Ok ((λ r, mkPrior (dr_Score r) (dr_AvgLag r) (fpos (dr_AvgLag r))) <$> sct_rows t !! (c, day_of day - 1)%Z), t).
Proof. intros Hup. unfold PriorDay, bind. rewrite get_row_run by done. by rewrite add_days, day_of_add. Qed.

(** The history: the rows of the cluster and of those days, a day after the other. *)
Lemma history_run c from to t : sct_up t = true → scores_ok t →
  ∃ l, ListArchitectureScoreDaily c from to t = (Ok l, t) ∧
    StronglySorted (λ r s, (dr_ScoreDay r < dr_ScoreDay s)%Z) l ∧
    ∀ r, r ∈ l ↔ ∃ d, sct_rows t !! (c, d) = Some r ∧ (day_of from ≤ d ≤ day_of to)%Z.
Proof.
  intros Hup Ht. unfold ListArchitectureScoreDaily, scores_online, bind, get, ensure. cbn. rewrite Hup. cbn. eexists. split; [done|].
  set (keep := λ kr : string * Z * ArchitectureScoreDailyRow, _). set (l := snd <$> List.filter keep (map_to_list (sct_rows t))).
  assert (Hin : ∀ r, r ∈ l ↔ ∃ d, sct_rows t !! (c, d) = Some r ∧ (day_of from ≤ d ≤ day_of to)%Z).
  { intros r. unfold l. rewrite list_elem_of_fmap. split.
    - intros ([[c' d] r'] & -> & [Hr Hk]%elem_of_filter_list). apply elem_of_map_to_list in Hr. unfold keep in Hk. cbn in Hk.
      rewrite !andb_true_iff, !Z.leb_le in Hk. destruct Hk as [[->%bool_decide_eq_true ?] ?]. by exists d.
    - intros (d & Hr & Hd). exists ((c, d), r). split; [done|]. apply elem_of_filter_list. split; [by apply elem_of_map_to_list|].
      unfold keep. cbn. rewrite bool_decide_eq_true_2 by done. rewrite !andb_true_iff, !Z.leb_le. split; [split; [done|lia]|lia]. }
  assert (Hnd : NoDup (dr_ScoreDay <$> l)).
  { unfold l. rewrite <- list_fmap_compose. apply NoDup_fmap_2_strong.
    - intros [[c1 d1] r1] [[c2 d2] r2] [H1 K1]%elem_of_filter_list [H2 K2]%elem_of_filter_list E. cbn in E.
      apply elem_of_map_to_list in H1, H2. destruct (Ht _ _ _ H1) as (_ & E1 & _), (Ht _ _ _ H2) as (_ & E2 & _).
      unfold keep in K1, K2. cbn in K1, K2. rewrite !andb_true_iff in K1, K2. destruct K1 as [[->%bool_decide_eq_true _] _], K2 as [[->%bool_decide_eq_true _] _].
      assert (d1 = d2) as -> by (unfold day_ns, hour, minute, second in *; lia). rewrite H1 in H2. by injection H2 as ->.
    - apply NoDup_ListNoDup, List.NoDup_filter, NoDup_ListNoDup, NoDup_map_to_list. }
  split; [|intros r; by rewrite sort_stable_perm].
  assert (Hsort : StronglySorted (λ r s, day_le r s = true) (sort_stable day_le l)).
  { apply sort_stable_sorted; unfold day_le; intros r s; [rewrite Z.leb_gt, Z.leb_le; lia|]. intros u. rewrite !Z.leb_le. lia. }
  assert (Hnd' : NoDup (dr_ScoreDay <$> sort_stable day_le l)) by (by rewrite (Permutation_map dr_ScoreDay (sort_stable_perm day_le l))).
  clear -Hsort Hnd'. induction Hsort as [|r k _ IH Hr]; [constructor|]. cbn in Hnd'. apply NoDup_cons in Hnd' as [Hn Hk]. constructor; [by apply IH|].
  apply Forall_forall. intros s Hs. rewrite Forall_forall in Hr. specialize (Hr s Hs). unfold day_le in Hr. apply Z.leb_le in Hr.
  assert (dr_ScoreDay r ≠ dr_ScoreDay s); [|lia]. intros E. apply Hn. rewrite E. by apply list_elem_of_fmap_2.
Qed.

(** * A reading and the table *)

Lemma factor_named f id : sf_ID f = factor_text id → negb (IsEmpty (sf_ID f)) = true.
Proof. intros ->. by destruct id. Qed.
Lemma counted_factors_named c hints f : f ∈ counted_factors c hints → negb (IsEmpty (sf_ID f)) = true.
Proof.
  unfold counted_factors. rewrite !elem_of_app.
  intros [Hf|[Hf|[Hf|[Hf|[Hf|Hf]]]]]; [|apply minus_factor_sound in Hf as [_ Hf]; [by eapply factor_named|lia]..|apply latency_factor_sound in Hf as [_ Hf]; by eapply factor_named].
  destruct (Nat.eqb _ _); [by apply list_elem_of_singleton in Hf as ->|]. apply minus_factor_sound in Hf as [_ Hf]; [by eapply factor_named|lia].
Qed.

Section Reading.
Context `{GoUnicode}.
Lemma factors_stored r inputs hints : NormalizeArchitectureScoreFactors (ss_Factors (ComputeArchitectureScore r inputs hints)) =
  ss_Factors (ComputeArchitectureScore r inputs hints).
Proof.
  apply filter_all. intros f Hf. unfold ComputeArchitectureScore in Hf. cbn [ss_Factors] in Hf.
  rewrite sort_stable_perm, score_factors_counted in Hf. by apply counted_factors_named in Hf.
Qed.
Lemma score_range r inputs hints : (0 ≤ ss_Score (ComputeArchitectureScore r inputs hints) ≤ 100)%Z.
Proof. cbn. unfold clamp_score, archScoreMax. repeat case_match; rewrite ?Z.ltb_lt, ?Z.ltb_ge in *; lia. Qed.

(** What a reading shows: the score with the hints of the day before. *)
Definition prior_of (t : ScoreTables) (c : string) (day : Z) : option ArchitectureScorePrior :=
  (λ r, mkPrior (dr_Score r) (dr_AvgLag r) (fpos (dr_AvgLag r))) <$> sct_rows t !! (c, day_of day - 1)%Z.

(** A reading shows the score against the stored score of the day before and the
    history of the cluster's last 180 days, a day after the other, and keeps its
    score as that of the day the topology was taken, and of no other: asked for on
    the next day, the day before is the score and the lag shown.  Of a cluster that
    is gone nothing is kept, and the score is shown all the same. *)
Theorem architecture_score_is_kept r now c inputs lags cap t : sct_up t = true → scores_ok t →
  let at_ := if Z.eqb cap 0 then now else cap in
  ∃ rows snap t', loadArchitectureScore r now c inputs lags cap t = (Ok (Some snap), t') ∧
    ss_Score snap = ss_Score (ComputeArchitectureScore r inputs (score_hints lags (Ok (prior_of t c now)))) ∧
    ss_Trend snap = ss_Trend (AttachArchitectureScoreTrend snap rows) ∧
    StronglySorted (λ r s, (dr_ScoreDay r < dr_ScoreDay s)%Z) rows ∧
    (∀ row, row ∈ rows ↔ ∃ d, sct_rows t !! (c, d) = Some row ∧ (day_of now - 180 ≤ d ≤ day_of now)%Z) ∧
    scores_ok t' ∧
    (c ∉ sct_clusters t → t' = t) ∧
    (c ∈ sct_clusters t → sct_rows t' =
       <[(c, day_of at_) := mkDaily (day_of at_ * day_ns) at_ c (ss_Factors snap) (ss_Score snap) (ss_AvgLag snap)]> (sct_rows t) ∧
       ∀ day, day_of day = (day_of at_ + 1)%Z →
         PriorDay c day t' = (Ok (Some (mkPrior (ss_Score snap) (ss_AvgLag snap) (fpos (ss_AvgLag snap)))), t')).
Proof.
  intros Hup Ht at_. destruct (history_run c (now - architectureScoreLookback) now t Hup Ht) as (rows & Hrows & Hsort & Hin).
  set (hints := score_hints lags (Ok (prior_of t c now))). set (s := ComputeArchitectureScore r inputs hints).
  pose proof (score_range r inputs hints) as Hs. pose proof (factors_stored r inputs hints) as Hf. fold s in Hs, Hf.
  set (snap := AttachArchitectureScoreTrend (mkScore at_ (ss_Verdict s) (ss_Factors s) (ss_Trend s) (ss_Score s) (ss_AvgLag s) (ss_Demo s)) rows).
  set (row := mkDaily at_ at_ c (ss_Factors s) (ss_Score s) (sh_AvgLag hints)).
  assert (Hrun : loadArchitectureScore r now c inputs lags cap t = (Ok (Some snap), snd (UpsertArchitectureScoreDaily now row t))).
  { unfold loadArchitectureScore, bind, attempt. rewrite prior_run by done. cbn [fst snd]. unfold ListHistory. rewrite Hrows.
    fold (prior_of t c now). fold hints. fold s. fold at_. fold snap. unfold UpsertToday. change (mkDaily at_ at_ c _ _ _) with row.
    by destruct (UpsertArchitectureScoreDaily now row t) as [res t']. }
  exists rows, snap, (snd (UpsertArchitectureScoreDaily now row t)).
  split; [exact Hrun|]. split; [done|]. split; [done|]. split; [done|].
  split. { intros x. rewrite Hin. unfold architectureScoreLookback. replace (now - 180 * day_ns)%Z with (now + -180 * day_ns)%Z by lia. by rewrite day_of_add. }
  destruct (decide (c ∈ sct_clusters t)) as [Hc|Hc].
  - rewrite (upsert_run now row t) by done. cbn [snd]. split; [by apply put_row_ok|]. split; [done|]. intros _.
    assert (E : stored_row now row = mkDaily (day_of at_ * day_ns) at_ c (ss_Factors snap) (ss_Score snap) (ss_AvgLag snap)).
    { unfold stored_row, row. cbn [dr_ScoreDay dr_CapturedAt dr_ClusterID dr_Factors dr_Score dr_AvgLag]. rewrite Hf. f_equal. unfold at_. destruct (Z.eqb_spec cap 0); destruct (Z.eqb_spec now 0), (Z.eqb_spec cap 0); congruence. }
    split; [cbn [sct_rows put_row set_scores]; by rewrite E|]. intros day Hd. rewrite prior_run by done.
    rewrite Hd, Z.add_simpl_r. cbn [sct_rows put_row set_scores]. rewrite lookup_insert_eq, E. done.
  - pose proof (upsert_cases now row t) as Hcases. destruct (UpsertArchitectureScoreDaily now row t) as [res t']. cbn [snd].
    destruct Hcases as [(_ & _ & Hc' & _)|[_ ->]]; [done|]. split; [done|]. split; [done|]. by intros ?.
Qed.
End Reading.

(** The collector's daily entry leaves the table well formed, too. *)
Lemma collected_scores_ok `{GoUnicode} r now c cap inputs lags t : scores_ok t → scores_ok (snd (upsertArchitectureScore r now c cap inputs lags t)).
Proof.
  intros Ht. unfold upsertArchitectureScore. destruct (Nat.eqb _ _); [done|]. unfold bind, attempt.
  assert (Hprior : snd (PriorDay c cap t) = t) by (destruct (sct_up t) eqn:Hup; [by rewrite prior_run|];
    unfold PriorDay, GetArchitectureScoreDaily, scores_online, bind, get, ensure; cbn; by rewrite Hup).
  destruct (PriorDay c cap t) as [p t1]. cbn in Hprior. subst t1. set (row := mkDaily _ _ _ _ _ _).
  pose proof (upsert_cases now row t) as Hcases. destruct (UpsertArchitectureScoreDaily now row t) as [res t'].
  destruct Hcases as [(_ & -> & Hc & Hs)|[_ ->]]; [by apply put_row_ok|done].
Qed.

(** * The showcase *)

(** Counting months back from the 31st, which not every month has, the showcase names
    some month twice and leaves one out. *)
Lemma demo_months_repeat : tp_Period <$> ss_Trend (DemoArchitectureScoreSnapshot (19813 * day_ns)) =
  ["2023-10"; "2023-12"; "2023-12"; "2024-01"; "2024-03"; "2024-03"].
Proof. vm_compute. reflexivity. Qed.

(** * Witnesses *)

#[local] Existing Instance ascii_only.
Definition no_hints : ArchitectureScoreHints := mkHints None (f64 0) false.
Definition demo_hints : ArchitectureScoreHints := mkHints (Some (mkPrior 90 (f64 100) true)) (f64 80) true.
Lemma architecture_score_exact_witness :
  ss_Score (ComputeArchitectureScore in_order demo_architecture demo_hints) = 28%Z ∧
  NoDup (sf_ID <$> ss_Factors (ComputeArchitectureScore in_order demo_architecture demo_hints)).
Proof.
  destruct (architecture_score_exact in_order demo_architecture demo_hints) as (_ & _ & _ & _ & Hnd & _).
  split; [vm_compute; reflexivity|exact Hnd].
Defined.
Lemma architecture_score_canonical_witness :
  ComputeArchitectureScore in_order shop_streams no_hints =
  ComputeArchitectureScore (mkRanges map_to_list map_to_list (λ m, rev (map_to_list m)) map_to_list) shop_streams no_hints.
Proof.
  apply architecture_score_canonical; [exact in_order_ok|].
  split; intros m; cbn; [reflexivity|reflexivity|symmetry; apply Permutation_rev|reflexivity].
Defined.
Definition score_table : ScoreTables := mkScoreTables true ["main"] ∅.
Lemma architecture_score_is_kept_witness :
  sct_rows (snd (loadArchitectureScore in_order (19813 * day_ns + 5) "main" demo_architecture (Some [f64 1]) 0 score_table)) !! ("main", 19813%Z) ≠ None.
Proof.
  destruct (architecture_score_is_kept in_order (19813 * day_ns + 5) "main" demo_architecture (Some [f64 1]) 0 score_table eq_refl)
    as (rows & snap & t' & Hrun & _ & _ & _ & _ & _ & _ & Hkept).
  - intros c d row Hr. cbn in Hr. by rewrite lookup_empty in Hr.
  - rewrite Hrun. cbn [snd]. destruct Hkept as [-> _]; [by left|].
    change (day_of _) with 19813%Z. by rewrite lookup_insert_eq.
Defined.
