(* ===== verification/Scrape.v ===== *)
(** What is read from a scrape of a cluster: internal/nats/metrics_extract.go.

    The decoders of the monitoring answers are the class [ScrapeJson]; the answers of
    NATS are an argument.  The calls of a scrape run side by side and do not depend on
    each other. *)

From S2P Require Export Metrics Architecture.
From S2P Require Import GoStrings.
From Stdlib Require Import Ascii.

(** [repo.MetricSampleRow] *)
Abbreviation MetricSampleRow := (string * spec_float)%type.
(** [domain.IncidentConsumerSample]; [ic_CapturedAt] is zero when it is scraped. *)
Record IncidentConsumerSample := mkSample {
  ic_CapturedAt : Z;
  ic_StreamName : string;
  ic_ConsumerName : string;
  ic_Lag : spec_float;
  ic_NumRedelivered : spec_float;
  ic_DeliveredSeq : spec_float;
  ic_AckFloorSeq : spec_float;
}.

(** * Answers of NATS *)

Record AccountInfo := mkAccount { ac_Store : Z; ac_Memory : Z; ac_Streams : Z; ac_Consumers : Z }.
Record varzPayload := mkVarz {
  vz_Connections : Z; vz_InMsgs : Z; vz_OutMsgs : Z; vz_InBytes : Z; vz_OutBytes : Z; vz_CPU : spec_float; vz_Mem : Z;
}.
Record jszPayload := mkJszCounts { jc_Streams : Z; jc_Consumers : Z; jc_Messages : Z }.
Record routePayload := mkRoute { ro_RemoteID : string; ro_RemoteName : string; ro_Name : string }.
Record routezPayload := mkRoutez { rz_ServerName : string; rz_Routes : list routePayload }.

Record topoConsumerConfig := mkTopoConfig {
  tc_FilterSubject : string;
  tc_FilterSubjects : list string;
  tc_DurableName : string;
  tc_MaxAckPending : Z;
}.
(** The stream's and the consumer's sequence. *)
Record topoSeqs := mkSeqs { sq_Stream : Z; sq_Consumer : Z }.
Record topoConsumer := mkTopoConsumer {
  to_Name : string;
  to_Config : option topoConsumerConfig;
  to_Delivered : option topoSeqs;
  to_AckFloor : option topoSeqs;
  to_NumPending : Z;
  to_NumAckPending : Z;
  to_NumRedelivered : Z;
}.
Record topoState := mkTopoState { ts_Messages : Z; ts_Bytes : Z; ts_LastSeq : Z }.
Record topoStream := mkTopoStream {
  tp_Name : string;
  tp_Subjects : option (list string);   (* Config *)
  tp_State : option topoState;
  tp_Consumers : list topoConsumer;
}.
Record topologyJSZPayload := mkTopology {
  ty_Counts : jszPayload;
  ty_Accounts : list (list topoStream);
}.

Class ScrapeJson := {
  parse_varz : string → option varzPayload;
  parse_jsz : string → option jszPayload;
  parse_routez : string → option routezPayload;
  parseTopologyJSZ : string → option topologyJSZPayload;
}.

(** * Samples *)

Definition ExtractAccountMetrics (info : AccountInfo) : list MetricSampleRow :=
  [("jetstream.storage_bytes", f64 (ac_Store info)); ("jetstream.memory_bytes", f64 (ac_Memory info));
   ("jetstream.streams", f64 (ac_Streams info)); ("jetstream.consumers", f64 (ac_Consumers info))].
Definition varz_samples (p : varzPayload) : list MetricSampleRow :=
  [("server.connections", f64 (vz_Connections p)); ("server.in_msgs_total", f64 (vz_InMsgs p)); ("server.out_msgs_total", f64 (vz_OutMsgs p));
   ("server.in_bytes_total", f64 (vz_InBytes p)); ("server.out_bytes_total", f64 (vz_OutBytes p))] ++
  (if SFltb (f64 0) (vz_CPU p) then [("server.cpu_percent", vz_CPU p)] else []) ++
  (if Z.ltb 0 (vz_Mem p) then [("server.mem_bytes", f64 (vz_Mem p))] else []).
Definition jsz_samples (p : jszPayload) : list MetricSampleRow :=
  [("jsz.streams", f64 (jc_Streams p)); ("jsz.consumers", f64 (jc_Consumers p)); ("jsz.messages", f64 (jc_Messages p))].

Definition topo_streams (p : topologyJSZPayload) : list topoStream := concat (ty_Accounts p).
Definition last_seq (s : topoStream) : Z := match tp_State s with Some st => ts_LastSeq st | None => 0 end.
Definition state_bytes (s : topoStream) : Z := match tp_State s with Some st => ts_Bytes st | None => 0 end.
Definition consumer_seq (o : option topoSeqs) : Z := match o with Some q => sq_Consumer q | None => 0 end.
Definition stream_seq (o : option topoSeqs) : Z := match o with Some q => sq_Stream q | None => 0 end.
(** Sums of 64 bits. *)
Definition sum_seqs (l : list Z) : Z := foldl (λ n x, u64 (n + x)) 0%Z l.
Definition rate_samples (s : topoStream) : list MetricSampleRow :=
  if IsEmpty (tp_Name s) then []
  else [(StreamMetric (tp_Name s) "last_seq", f64 (last_seq s)); (StreamMetric (tp_Name s) "bytes", f64 (state_bytes s));
        (StreamMetric (tp_Name s) "delivered_seq", f64 (sum_seqs ((λ c, consumer_seq (to_Delivered c)) <$> tp_Consumers s)));
        (StreamMetric (tp_Name s) "ack_floor_seq", f64 (sum_seqs ((λ c, consumer_seq (to_AckFloor c)) <$> tp_Consumers s)))].
Definition streamRateSamplesFromTopology (p : topologyJSZPayload) : list MetricSampleRow := flat_map rate_samples (topo_streams p).

(** The consumers, each with the last sequence of its stream. *)
Definition topo_consumers (p : topologyJSZPayload) : list (Z * topoConsumer) :=
  flat_map (λ s, (λ c, (last_seq s, c)) <$> tp_Consumers s) (topo_streams p).
Record health := mkHealth { he_slow : spec_float; he_lag : spec_float; he_pending : spec_float; he_ack : spec_float }.
Definition consumer_lag (x : Z * topoConsumer) : Z := ConsumerLagMessages x.1 (stream_seq (to_Delivered x.2)).
Definition consumer_pending (x : Z * topoConsumer) : Z := if Z.ltb 0 (to_NumPending x.2) then to_NumPending x.2 else 0.
Definition max_ack_pending (c : topoConsumer) : Z := match to_Config c with Some g => tc_MaxAckPending g | None => 0 end.
Definition is_slow (thr : SlowConsumerThresholds) (x : Z * topoConsumer) : bool :=
  (EvaluateSlowConsumer (consumer_pending x) (consumer_lag x) (to_NumAckPending x.2) (max_ack_pending x.2) thr).1.
Definition add_health (thr : SlowConsumerThresholds) (h : health) (x : Z * topoConsumer) : health := mkHealth
  (if is_slow thr x then fadd (he_slow h) (f64 1) else he_slow h)
  (fmax (he_lag h) (f64 (consumer_lag x)))
  (fmax (he_pending h) (f64 (consumer_pending x)))
  (fmax (he_ack h) (f64 (to_NumAckPending x.2))).
Definition consumerHealthSamplesFromTopology (p : topologyJSZPayload) (thr : SlowConsumerThresholds) : list MetricSampleRow :=
  let h := foldl (add_health (WithDefaults thr)) (mkHealth (f64 0) (f64 0) (f64 0) (f64 0)) (topo_consumers p) in
  [("jetstream.slow_consumers", he_slow h); ("jetstream.consumer_max_lag", he_lag h);
   ("jetstream.consumer_max_pending", he_pending h); ("jetstream.consumer_max_ack_pending", he_ack h)].

(** The name of a consumer, or the durable one. *)
Definition consumer_name (c : topoConsumer) : string :=
  let name := TrimSpace (to_Name c) in
  match to_Config c with
  | Some g => if IsEmpty name then TrimSpace (tc_DurableName g) else name
  | None => name
  end.
Definition incident_sample (s : topoStream) (c : topoConsumer) : list IncidentConsumerSample :=
  if IsEmpty (consumer_name c) then []
  else [mkSample 0 (tp_Name s) (consumer_name c) (f64 (ConsumerLagMessages (last_seq s) (stream_seq (to_Delivered c))))
          (f64 (to_NumRedelivered c)) (f64 (stream_seq (to_Delivered c))) (f64 (stream_seq (to_AckFloor c)))].
Definition incidentSamplesFromTopology (p : topologyJSZPayload) : list IncidentConsumerSample :=
  flat_map (λ s, if IsEmpty (tp_Name s) then [] else flat_map (incident_sample s) (tp_Consumers s)) (topo_streams p).

Definition arch_consumer (c : topoConsumer) : list NamingConsumer :=
  if IsEmpty (consumer_name c) then []
  else [match to_Config c with
        | Some g => mkNamingConsumer (consumer_name c) (tc_FilterSubject g) (tc_FilterSubjects g)
        | None => mkNamingConsumer (consumer_name c) "" []
        end].
Definition arch_stream (s : topoStream) : list EventArchitectureInput :=
  if IsEmpty (tp_Name s) then []
  else [mkArchInput (tp_Name s) (default [] (tp_Subjects s)) (flat_map arch_consumer (tp_Consumers s))
          (match tp_State s with Some st => ts_Messages st | None => 0 end) (state_bytes s)].
Definition architectureInputsFromTopology (p : topologyJSZPayload) : list EventArchitectureInput := flat_map arch_stream (topo_streams p).

Definition samplesFromTopologyJSZ (p : topologyJSZPayload) (thr : SlowConsumerThresholds) :
    list MetricSampleRow * list IncidentConsumerSample :=
  (jsz_samples (ty_Counts p) ++ streamRateSamplesFromTopology p ++ consumerHealthSamplesFromTopology p thr, incidentSamplesFromTopology p).
Definition quoted (key : string) : string := String (ascii_of_nat 34) (key +:+ String (ascii_of_nat 34) ":").
Definition slimJSZFromTopology (p : topologyJSZPayload) : string :=
  "{" +:+ quoted "streams" +:+ Itoa (jc_Streams (ty_Counts p)) +:+ "," +:+ quoted "consumers" +:+ Itoa (jc_Consumers (ty_Counts p)) +:+
  "," +:+ quoted "messages" +:+ Itoa (jc_Messages (ty_Counts p)) +:+ "}".

(** * Routes *)

Definition route_name (r : routePayload) : string :=
  if negb (IsEmpty (ro_RemoteName r)) then ro_RemoteName r else if negb (IsEmpty (ro_Name r)) then ro_Name r else ro_RemoteID r.
Definition route_nodes (p : routezPayload) : list string :=
  first_by id [] (omap nonempty_trimmed (rz_ServerName p :: (route_name <$> rz_Routes p))).
(** [DiffRouteNodes]: the names gone and the names new, sorted. *)
Definition DiffRouteNodes (previous current : list string) : list string * list string :=
  let prev : gset string := list_to_set (omap nonempty_trimmed previous) in
  let names := omap nonempty_trimmed current in
  let cur : gset string := list_to_set names in
  (SortStrings (elements (prev ∖ cur)), SortStrings (List.filter (λ n, negb (bool_decide (n ∈ prev))) names)).

(** * A scrape *)

Record ClusterSnapshotResult := mkResult {
  cs_Samples : list MetricSampleRow;
  cs_ConsumerSamples : list IncidentConsumerSample;
  cs_ArchitectureInputs : list EventArchitectureInput;
  cs_RouteNodes : list string;
  cs_Varz : string;
  cs_Jsz : string;
  cs_JszTopology : string;
  cs_Connz : string;
  cs_Routez : string;
}.
(** What the client answers; [None]: an error. *)
Record Answers := mkAnswers {
  an_account : option AccountInfo;
  an_varz : option string;
  an_topology : option string;
  an_connz : option string;
  an_routez : option string;
  an_jsz : option string;   (* asked for when there is no topology *)
}.
Definition body (o : option string) : string := default "" o.

Section Scrape.
Context `{ScrapeJson}.
Definition ExtractVarzMetrics (raw : string) : option (list MetricSampleRow) := varz_samples <$> parse_varz raw.
Definition ExtractJSZMetrics (raw : string) : option (list MetricSampleRow) := jsz_samples <$> parse_jsz raw.
Definition ExtractRouteNodeNames (raw : string) : option (list string) := route_nodes <$> parse_routez raw.
Definition ExtractStreamRateMetrics (raw : string) : option (list MetricSampleRow) := streamRateSamplesFromTopology <$> parseTopologyJSZ raw.
Definition ExtractConsumerHealthMetrics (raw : string) (thr : SlowConsumerThresholds) : option (list MetricSampleRow) :=
  (λ p, consumerHealthSamplesFromTopology p thr) <$> parseTopologyJSZ raw.
Definition ExtractEventArchitectureInputs (raw : string) : option (list EventArchitectureInput) := architectureInputsFromTopology <$> parseTopologyJSZ raw.
Definition ExtractIncidentConsumerSamples (raw : string) : option (list IncidentConsumerSample) := incidentSamplesFromTopology <$> parseTopologyJSZ raw.

(** What the topology gives: samples, samples of consumers, streams, and the short
    answer to /jsz; the fallback without one. *)
Definition topology_part (thr : SlowConsumerThresholds) (a : Answers) :
    list MetricSampleRow * list IncidentConsumerSample * list EventArchitectureInput * string * string :=
  let topo := body (an_topology a) in
  if negb (IsEmpty topo) then
    match parseTopologyJSZ topo with
    | Some p => let '(samples, consumers) := samplesFromTopologyJSZ p thr in
                (samples, consumers, architectureInputsFromTopology p, slimJSZFromTopology p, topo)
    | None => ([], [], [], "", topo)
    end
  else match an_jsz a with
  | Some raw => (default [] (ExtractJSZMetrics raw), [], [], raw, "")
  | None => ([], [], [], "", "")
  end.
(** [None]: no metrics collected. *)
Definition CollectClusterSnapshot (thr : SlowConsumerThresholds) (a : Answers) : option ClusterSnapshotResult :=
  let account := match an_account a with Some info => ExtractAccountMetrics info | None => [] end in
  let varz := body (an_varz a) in
  let varz_rows := if IsEmpty varz then [] else default [] (ExtractVarzMetrics varz) in
  let '(rows, consumers, inputs, jsz, topo) := topology_part thr a in
  let connz := body (an_connz a) in
  let routez := body (an_routez a) in
  let nodes := if IsEmpty routez then [] else default [] (ExtractRouteNodeNames routez) in
  let samples := account ++ varz_rows ++ rows in
  if Nat.eqb (length samples) 0 && IsEmpty varz && IsEmpty jsz && IsEmpty connz then None
  else Some (mkResult samples consumers inputs nodes varz jsz topo connz routez).
Definition CollectClusterMetrics (thr : SlowConsumerThresholds) (a : Answers) : option (list MetricSampleRow) :=
  cs_Samples <$> CollectClusterSnapshot thr a.
End Scrape.
