(* ===== verification/Samples.v ===== *)
(** The tables of samples: internal/repo/{metrics,partitions,incident,bottleneck}.go with
    their queries and migrations/007, 019, 022 and 026.

    The tables of samples are partitioned by day: a row is stored in the partition of
    its day, which must be there, and goes when the partition is dropped.  The bound of
    a partition is its day; how its text is read, and that a statement takes 65535
    parameters at most, is not modelled. *)

From S2P Require Export Scrape Store Sorting.
From S2P Require Import GoStrings.

Definition metricSamplesParent : string := "cluster_metric_samples".
Definition incidentSamplesParent : string := "incident_consumer_samples".
Definition samplePartitionForwardDays : Z := 2.

Record IncidentNodeEvent := mkNodeEvent { ne_OccurredAt : Z; ne_NodeName : string; ne_EventType : string }.
Definition IncidentNodeDisconnect : string := "disconnect".
Definition IncidentNodeReconnect : string := "reconnect".
Record IncidentAnnotation := mkAnnotation {
  ia_ID : string;
  ia_ClusterID : string;
  ia_OccurredAt : Z;
  ia_Type : string;
  ia_Title : string;
  ia_Details : string;
}.
(** [OccurredAt] that is left out or zero is now. *)
Record IncidentAnnotationCreate := mkAnnotationCreate {
  ic_OccurredAt : option Z;
  ic_Type : string;
  ic_Title : string;
  ic_Details : string;
}.
Record IncidentAuditChange := mkAuditChange {
  iu_Timestamp : Z;
  iu_Action : string;
  iu_ResourceType : string;
  iu_ResourceName : string;
  iu_Actor : string;
}.
Record BottleneckHourBucket := mkBucket {
  bh_ClusterID : string;
  bh_StreamName : string;
  bh_ConsumerName : string;
  bh_BucketHour : Z;
  bh_AvgLag : spec_float;
  bh_MaxLag : spec_float;
  bh_AvgPayloadBytes : spec_float;
  bh_AvgProcessingMs : option spec_float;
  bh_Samples : Z;
}.

(** [sm_parts]: the partitions there are, by table and day; [sm_ensured]: those this
    process knows of.  Rows are kept by their primary keys; [sm_audit] is the log of
    [Rbac] as far as incidents read it, with the cluster of each entry. *)
Record SampleTables := mkSamples {
  sm_up : bool;
  sm_clusters : list string;
  sm_parts : gset (string * Z);
  sm_ensured : gset (string * Z);
  sm_metrics : gmap (string * Z * string) spec_float;
  sm_consumers : gmap (string * Z * (string * string)) IncidentConsumerSample;
  sm_nodes : list (string * IncidentNodeEvent);
  sm_annotations : gmap string IncidentAnnotation;
  sm_audit : list (string * IncidentAuditChange);
  sm_buckets : gmap (string * string * string * Z) BottleneckHourBucket;
}.
Definition set_parts f t := mkSamples (sm_up t) (sm_clusters t) (f (sm_parts t)) (sm_ensured t) (sm_metrics t) (sm_consumers t) (sm_nodes t) (sm_annotations t) (sm_audit t) (sm_buckets t).
Definition set_ensured f t := mkSamples (sm_up t) (sm_clusters t) (sm_parts t) (f (sm_ensured t)) (sm_metrics t) (sm_consumers t) (sm_nodes t) (sm_annotations t) (sm_audit t) (sm_buckets t).
Definition set_metrics f t := mkSamples (sm_up t) (sm_clusters t) (sm_parts t) (sm_ensured t) (f (sm_metrics t)) (sm_consumers t) (sm_nodes t) (sm_annotations t) (sm_audit t) (sm_buckets t).
Definition set_consumers f t := mkSamples (sm_up t) (sm_clusters t) (sm_parts t) (sm_ensured t) (sm_metrics t) (f (sm_consumers t)) (sm_nodes t) (sm_annotations t) (sm_audit t) (sm_buckets t).
Definition set_nodes f t := mkSamples (sm_up t) (sm_clusters t) (sm_parts t) (sm_ensured t) (sm_metrics t) (sm_consumers t) (f (sm_nodes t)) (sm_annotations t) (sm_audit t) (sm_buckets t).
Definition set_annotations f t := mkSamples (sm_up t) (sm_clusters t) (sm_parts t) (sm_ensured t) (sm_metrics t) (sm_consumers t) (sm_nodes t) (f (sm_annotations t)) (sm_audit t) (sm_buckets t).
Definition set_buckets f t := mkSamples (sm_up t) (sm_clusters t) (sm_parts t) (sm_ensured t) (sm_metrics t) (sm_consumers t) (sm_nodes t) (sm_annotations t) (sm_audit t) (f (sm_buckets t)).

Abbreviation SaM := (M SampleTables err).
Definition samples_online : SaM unit := let! t := get in ensure (sm_up t) ErrDB.
(** cluster_id REFERENCES clusters *)
Definition known_cluster (clusterID : string) : SaM unit := let! t := get in ensure (clusterID ∈b sm_clusters t) ErrDB.

(** [INSERT ... VALUES ... ON CONFLICT (key) DO UPDATE] cannot touch a row twice: with
    a key that occurs twice it fails. *)
Definition upsert_rows {K V} `{Countable K} (merge : V → V → V) (rows : list (K * V)) (m : gmap K V) : option (gmap K V) :=
  if bool_decide (NoDup rows.*1)
  then Some (foldl (λ m kv, <[kv.1 := match m !! kv.1 with Some old => merge old kv.2 | None => kv.2 end]> m) m rows)
  else None.
Definition overwrite {V} (old new : V) : V := new.

(** * Partitions *)

(** [parent|day] known to this process is not asked for again. *)
Definition ensureDayPartition (parent : string) (day : Z) : SaM unit :=
  let key := (parent, day_of (truncate day_ns day)) in
  let! t := get in
  if bool_decide (key ∈ sm_ensured t) then ret tt
  else
    samples_online ;;
    modify (set_parts (union {[key]})) ;;
    modify (set_ensured (union {[key]})).
(** The days from [d] on, [n] of them. *)
Fixpoint ensure_days (n : nat) (d : Z) : SaM unit :=
  match n with
  | O => ret tt
  | S n =>
      ensureDayPartition metricSamplesParent d ;;
      ensureDayPartition incidentSamplesParent d ;;
      ensure_days n (d + day_ns)%Z
  end.
Definition EnsureSamplePartitions (now retention : Z) : SaM unit :=
  let start := if Z.leb retention 0 then truncate day_ns now else truncate day_ns (now - retention) in
  let end_ := (truncate day_ns now + samplePartitionForwardDays * day_ns)%Z in
  ensure_days (Z.to_nat ((end_ - start) / day_ns + 1)) start.

(** The partitions that end at or before [cutoff]. *)
Definition expired (parent : string) (cutoff : Z) (k : string * Z) : bool :=
  (k.1 =s parent) && Z.leb ((k.2 + 1) * day_ns) cutoff.
Definition dropParentPartitionsOlderThan (parent : string) (cutoff : Z) : SaM Z :=
  samples_online ;;
  let! t := get in
  let gone (day : Z) := bool_decide ((parent, day) ∈ sm_parts t) && expired parent cutoff (parent, day) in
  modify (set_parts (filter (λ k, expired parent cutoff k = false))) ;;
  (if parent =s metricSamplesParent
   then modify (set_metrics (filter (λ kv, gone (day_of kv.1.1.2) = false)))
   else modify (set_consumers (filter (λ kv, gone (day_of kv.1.1.2) = false)))) ;;
  ret (Z.of_nat (size (filter (λ k, expired parent cutoff k = true) (sm_parts t)))).
Definition DropSamplePartitionsOlderThan (cutoff : Z) : SaM Z :=
  let! n := dropParentPartitionsOlderThan metricSamplesParent cutoff in
  let! m := dropParentPartitionsOlderThan incidentSamplesParent cutoff in
  ret (n + m)%Z.

(** * Metrics *)

(** A row needs its partition. *)
Definition has_partition (parent : string) (at_ : Z) : SaM unit :=
  let! t := get in ensure (bool_decide ((parent, day_of at_) ∈ sm_parts t)) ErrDB.
Definition InsertMetricSamples (clusterID : string) (capturedAt : Z) (samples : list MetricSampleRow) : SaM unit :=
  if Nat.eqb (length samples) 0 then ret tt
  else
    let capturedAt := truncate second capturedAt in
    ensureDayPartition metricSamplesParent capturedAt ;;
    samples_online ;;
    known_cluster clusterID ;;
    has_partition metricSamplesParent capturedAt ;;
    let! t := get in
    match upsert_rows overwrite ((λ s : MetricSampleRow, ((clusterID, capturedAt, s.1), s.2)) <$> samples) (sm_metrics t) with
    | Some m => modify (set_metrics (λ _, m))
    | None => fail ErrDB
    end.
Definition DeleteMetricSamplesOlderThan (cutoff : Z) : SaM Z := dropParentPartitionsOlderThan metricSamplesParent cutoff.

(** The rows of a metric in a window, by time. *)
Definition point_le (p q : MetricPoint) : bool := Z.leb (mp_T p) (mp_T q).
Definition metric_rows (t : SampleTables) (clusterID metric : string) (from to : Z) : list MetricPoint :=
  sort_stable point_le (omap (λ kv, if (kv.1.1.1 =s clusterID) && (kv.1.2 =s metric) && Z.leb from kv.1.1.2 && Z.leb kv.1.1.2 to
                                    then Some (mkPoint kv.1.1.2 kv.2) else None) (map_to_list (sm_metrics t))).
(** Per bucket the maximum of a counter, the mean of any other. *)
Definition bucket_of (secs at_ : Z) : Z := (at_ / (secs * second) * (secs * second))%Z.
Definition aggregate (counter : bool) (l : list spec_float) : spec_float :=
  match l with
  | [] => f64 0
  | x :: l' => if counter then foldl fmax x l' else fdiv (fsum l) (f64 (Z.of_nat (length l)))
  end.
(** Consecutive rows of one bucket. *)
Fixpoint buckets (secs : Z) (counter : bool) (at_ : Z) (acc : list spec_float) (l : list MetricPoint) : list MetricPoint :=
  match l with
  | [] => match acc with [] => [] | _ => [mkPoint at_ (aggregate counter (reverse acc))] end
  | p :: l =>
      let b := bucket_of secs (mp_T p) in
      match acc with
      | [] => buckets secs counter b [mp_V p] l
      | _ => if Z.eqb b at_ then buckets secs counter at_ (mp_V p :: acc) l
             else mkPoint at_ (aggregate counter (reverse acc)) :: buckets secs counter b [mp_V p] l
      end
  end.
Definition QueryMetricSeries (clusterID : string) (metrics : list string) (from to step : Z) : SaM (gmap string (list MetricPoint)) :=
  if Nat.eqb (length metrics) 0 then ret ∅
  else
    samples_online ;;
    let! t := get in
    let secs := Z.quot step second in
    let secs := if Z.leb secs 0 then 60%Z else secs in
    let points m := let rows := metric_rows t clusterID m from to in
                    if Z.leb step 0 then rows else buckets secs (IsCounterMetric m) 0 [] rows in
    ret (list_to_map (omap (λ m, match points m with [] => None | l => Some (m, l) end) metrics)).

(** * Incidents *)

Definition NormalizedType (c : IncidentAnnotationCreate) : string :=
  let typ := TrimSpace (ic_Type c) in if IsEmpty typ then "deploy" else typ.
Definition Validate (c : IncidentAnnotationCreate) : bool := (NormalizedType c =s "deploy") && negb (IsEmpty (TrimSpace (ic_Title c))).
(** [id] is new; [ErrInvalidInput]. *)
Definition ErrInvalidAnnotation : err := ErrMsg "invalid input".
Definition InsertIncidentAnnotation (id : string) (now : Z) (clusterID : string) (c : IncidentAnnotationCreate) : SaM IncidentAnnotation :=
  ensure (Validate c) ErrInvalidAnnotation ;;
  let occurredAt := match ic_OccurredAt c with Some at_ => if Z.eqb at_ 0 then now else at_ | None => now end in
  let a := mkAnnotation id clusterID occurredAt (NormalizedType c) (TrimSpace (ic_Title c)) (TrimSpace (ic_Details c)) in
  samples_online ;;
  known_cluster clusterID ;;
  let! t := get in
  ensure (negb (bool_decide (id ∈ dom (sm_annotations t)))) ErrDB ;;
  modify (set_annotations <[id := a]>) ;;
  ret a.
Definition annotation_le (a b : IncidentAnnotation) : bool := Z.leb (ia_OccurredAt a) (ia_OccurredAt b).
Definition in_window (from to at_ : Z) : bool := Z.leb from at_ && Z.leb at_ to.
Definition ListIncidentAnnotations (clusterID : string) (from to : Z) : SaM (list IncidentAnnotation) :=
  samples_online ;;
  let! t := get in
  ret (sort_stable annotation_le (List.filter (λ a, (ia_ClusterID a =s clusterID) && in_window from to (ia_OccurredAt a))
                                              (map_to_list (sm_annotations t)).*2)).

Definition at_time (at_ : Z) (s : IncidentConsumerSample) : IncidentConsumerSample :=
  mkSample at_ (ic_StreamName s) (ic_ConsumerName s) (ic_Lag s) (ic_NumRedelivered s) (ic_DeliveredSeq s) (ic_AckFloorSeq s).
Definition InsertIncidentConsumerSamples (clusterID : string) (capturedAt : Z) (samples : list IncidentConsumerSample) : SaM unit :=
  if Nat.eqb (length samples) 0 then ret tt
  else
    let capturedAt := truncate second capturedAt in
    ensureDayPartition incidentSamplesParent capturedAt ;;
    samples_online ;;
    known_cluster clusterID ;;
    has_partition incidentSamplesParent capturedAt ;;
    let! t := get in
    match upsert_rows overwrite ((λ s, ((clusterID, capturedAt, (ic_StreamName s, ic_ConsumerName s)), at_time capturedAt s)) <$> samples)
            (sm_consumers t) with
    | Some m => modify (set_consumers (λ _, m))
    | None => fail ErrDB
    end.
Definition sample_le (a b : IncidentConsumerSample) : bool := Z.leb (ic_CapturedAt a) (ic_CapturedAt b).
Definition ListIncidentConsumerSamples (clusterID stream consumer : string) (from to : Z) : SaM (list IncidentConsumerSample) :=
  samples_online ;;
  let! t := get in
  ret (sort_stable sample_le (snd <$> List.filter (λ kv, (kv.1.1.1 =s clusterID) && (kv.1.2.1 =s stream) && (kv.1.2.2 =s consumer) && in_window from to kv.1.1.2)
                                        (map_to_list (sm_consumers t)))).

#[export] Instance IncidentNodeEvent_eq_dec : EqDecision IncidentNodeEvent.
Proof. solve_decision. Defined.
(** ON CONFLICT DO NOTHING, and the kinds the table allows. *)
Definition node_row (ev : IncidentNodeEvent) : IncidentNodeEvent :=
  mkNodeEvent (truncate second (ne_OccurredAt ev)) (TrimSpace (ne_NodeName ev)) (ne_EventType ev).
Definition add_node (clusterID : string) (rows : list (string * IncidentNodeEvent)) (ev : IncidentNodeEvent) : list (string * IncidentNodeEvent) :=
  if bool_decide ((clusterID, node_row ev) ∈ rows) then rows else rows ++ [(clusterID, node_row ev)].
Definition InsertIncidentNodeEvents (clusterID : string) (events : list IncidentNodeEvent) : SaM unit :=
  if Nat.eqb (length events) 0 then ret tt
  else
    samples_online ;;
    known_cluster clusterID ;;
    ensure (forallb (λ ev, ne_EventType ev ∈b [IncidentNodeDisconnect; IncidentNodeReconnect]) events) ErrDB ;;
    modify (set_nodes (λ rows, foldl (add_node clusterID) rows events)).
Definition event_le (a b : IncidentNodeEvent) : bool := Z.leb (ne_OccurredAt a) (ne_OccurredAt b).
Definition ListIncidentNodeEvents (clusterID : string) (from to : Z) : SaM (list IncidentNodeEvent) :=
  samples_online ;;
  let! t := get in
  ret (sort_stable event_le (snd <$> List.filter (λ r, (r.1 =s clusterID) && in_window from to (ne_OccurredAt r.2)) (sm_nodes t))).
Definition audit_le (a b : IncidentAuditChange) : bool := Z.leb (iu_Timestamp a) (iu_Timestamp b).
Definition ListAuditInRange (clusterID : string) (from to limit : Z) : SaM (list IncidentAuditChange) :=
  let limit := if Z.leb limit 0 then 200%Z else limit in
  let limit := if Z.ltb 500 limit then 500%Z else limit in
  samples_online ;;
  let! t := get in
  ret (take (Z.to_nat limit)
    (sort_stable audit_le (snd <$> List.filter (λ r, (r.1 =s clusterID) && in_window from to (iu_Timestamp r.2)) (sm_audit t)))).
Definition DeleteIncidentDataOlderThan (cutoff : Z) : SaM Z :=
  let! n := dropParentPartitionsOlderThan incidentSamplesParent cutoff in
  let! t := get in
  let old_node (r : string * IncidentNodeEvent) := Z.ltb (ne_OccurredAt r.2) cutoff in
  modify (set_nodes (List.filter (λ r, negb (old_node r)))) ;;
  modify (set_annotations (filter (λ kv, Z.ltb (ia_OccurredAt kv.2) cutoff = false))) ;;
  ret (n + Z.of_nat (length (List.filter old_node (sm_nodes t))) +
       Z.of_nat (size (filter (λ kv, Z.ltb (ia_OccurredAt kv.2) cutoff = true) (sm_annotations t))))%Z.

(** internal/repo/audit.go, of the entries incidents read *)
Definition set_audit f t := mkSamples (sm_up t) (sm_clusters t) (sm_parts t) (sm_ensured t) (sm_metrics t) (sm_consumers t) (sm_nodes t) (sm_annotations t) (f (sm_audit t)) (sm_buckets t).
Definition DeleteAuditOlderThan (cutoff : Z) : SaM Z :=
  samples_online ;;
  let! t := get in
  let old (r : string * IncidentAuditChange) := Z.ltb (iu_Timestamp r.2) cutoff in
  modify (set_audit (List.filter (λ r, negb (old r)))) ;;
  ret (Z.of_nat (length (List.filter old (sm_audit t)))).

(** * Hourly rollups *)

(** The weighted mean of a column. *)
Definition weighted (a : spec_float) (n : Z) (b : spec_float) (m : Z) : spec_float :=
  fdiv (fadd (fmul a (f64 n)) (fmul b (f64 m))) (f64 (n + m)).
Definition merge_bucket (old new : BottleneckHourBucket) : BottleneckHourBucket :=
  let n := bh_Samples old in
  let m := bh_Samples new in
  let none := Z.eqb (n + m) 0 in
  mkBucket (bh_ClusterID old) (bh_StreamName old) (bh_ConsumerName old) (bh_BucketHour old)
    (if none then f64 0 else weighted (bh_AvgLag old) n (bh_AvgLag new) m)
    (fmax (bh_MaxLag old) (bh_MaxLag new))
    (if SFleb (bh_AvgPayloadBytes new) (f64 0) then bh_AvgPayloadBytes old
     else if SFleb (bh_AvgPayloadBytes old) (f64 0) then bh_AvgPayloadBytes new
     else if none then f64 0 else weighted (bh_AvgPayloadBytes old) n (bh_AvgPayloadBytes new) m)
    (match bh_AvgProcessingMs new, bh_AvgProcessingMs old with
     | None, p => p
     | p, None => p
     | Some b, Some a => Some (if none then b else weighted a n b m)
     end)
    (n + m).
Definition bucket_row (r : BottleneckHourBucket) : string * string * string * Z * BottleneckHourBucket :=
  let at_ := truncate hour (bh_BucketHour r) in
  ((bh_ClusterID r, bh_StreamName r, bh_ConsumerName r, at_),
   mkBucket (bh_ClusterID r) (bh_StreamName r) (bh_ConsumerName r) at_ (bh_AvgLag r) (bh_MaxLag r) (bh_AvgPayloadBytes r)
     (bh_AvgProcessingMs r) (if Z.leb (bh_Samples r) 0 then 1 else bh_Samples r)).
Definition UpsertBottleneckHourBuckets (rows : list BottleneckHourBucket) : SaM unit :=
  if Nat.eqb (length rows) 0 then ret tt
  else
    samples_online ;;
    let! t := get in
    ensure (forallb (λ r, bh_ClusterID r ∈b sm_clusters t) rows) ErrDB ;;
    match upsert_rows merge_bucket (bucket_row <$> rows) (sm_buckets t) with
    | Some m => modify (set_buckets (λ _, m))
    | None => fail ErrDB
    end.
Definition bucket_le (a b : BottleneckHourBucket) : bool := Z.leb (bh_BucketHour a) (bh_BucketHour b).
Definition ListBottleneckHourBuckets (clusterID : string) (from to : Z) : SaM (list BottleneckHourBucket) :=
  samples_online ;;
  let! t := get in
  ret (sort_stable bucket_le (snd <$> List.filter (λ kv, (kv.1.1.1.1 =s clusterID) && in_window from to kv.1.2) (map_to_list (sm_buckets t)))).
Definition DeleteBottleneckHourBucketsOlderThan (cutoff : Z) : SaM Z :=
  samples_online ;;
  let! t := get in
  modify (set_buckets (filter (λ kv, Z.ltb kv.1.2 cutoff = false))) ;;
  ret (Z.of_nat (size (filter (λ kv, Z.ltb kv.1.2 cutoff = true) (sm_buckets t)))).
