(* ===== verification/SamplesFacts.v ===== *)
(** The tables of samples: partitions are there when rows are inserted, what was
    inserted is read back, and cleaning up removes what is old and nothing else. *)

From S2P Require Export Samples.
From S2P Require Import Subjects GoStrings.

(** * INSERT ... ON CONFLICT *)

Section Upsert.
Context {K V : Type} `{Countable K}.
Implicit Types (rows : list (K * V)) (m : gmap K V).

Definition put_all rows m : gmap K V := foldl (λ m kv, <[kv.1 := kv.2]> m) m rows.
Lemma upsert_overwrite rows m : upsert_rows overwrite rows m = if bool_decide (NoDup rows.*1) then Some (put_all rows m) else None.
Proof.
  unfold upsert_rows, put_all. destruct (bool_decide _); [|done]. f_equal. revert m. induction rows as [|[k v] rows IH]; intros m; [done|].
  cbn [foldl fst snd]. unfold overwrite at 2. replace (match m !! k with Some _ => v | None => v end) with v by (by destruct (m !! k)). apply IH.
Qed.
Lemma put_all_other rows m k : k ∉ rows.*1 → put_all rows m !! k = m !! k.
Proof.
  unfold put_all. revert m. induction rows as [|[k' v] rows IH]; intros m; cbn; [done|]. rewrite not_elem_of_cons. intros [Hne Hk].
  rewrite IH by done. by rewrite lookup_insert_ne.
Qed.
Lemma put_all_lookup rows m k v : NoDup rows.*1 → (k, v) ∈ rows → put_all rows m !! k = Some v.
Proof.
  unfold put_all. revert m. induction rows as [|[k' v'] rows IH]; intros m; cbn; [by intros _ ?%not_elem_of_nil|].
  rewrite NoDup_cons. intros [Hn Hnd] [[= -> ->]|Hin]%elem_of_cons; [|by apply IH].
  change (put_all rows (<[k':=v']> m) !! k' = Some v'). rewrite put_all_other by done. by rewrite lookup_insert_eq.
Qed.
Lemma put_all_some rows m k v : put_all rows m !! k = Some v → m !! k = Some v ∨ (k, v) ∈ rows.
Proof.
  unfold put_all. revert m. induction rows as [|[k' v'] rows IH]; intros m; cbn; [by left|]. intros [Hm|Hin]%IH; [|right; by right].
  apply lookup_insert_Some in Hm as [[-> <-]|[_ Hm]]; [right; left|by left].
Qed.
End Upsert.

(** * Partitions *)

Lemma day_of_seconds at_ : day_of (truncate second at_) = day_of at_.
Proof. unfold day_of, truncate, day_ns, hour, minute, second. Z.to_euclidean_division_equations. lia. Qed.
Lemma day_of_days d at_ : day_of (truncate day_ns at_ + d * day_ns) = (day_of at_ + d)%Z.
Proof. unfold day_of, truncate. rewrite Z_div_plus_full by done. by rewrite Z.div_mul. Qed.

(** Every row is in a partition that is there; one this process takes for granted is
    there, unless it ended before [horizon], the last time up to which partitions were
    dropped. *)
Record parts_ok (horizon : Z) (t : SampleTables) : Prop := {
  po_metrics : ∀ c at_ m v, sm_metrics t !! (c, at_, m) = Some v → (metricSamplesParent, day_of at_) ∈ sm_parts t;
  po_consumers : ∀ c at_ k v, sm_consumers t !! (c, at_, k) = Some v → (incidentSamplesParent, day_of at_) ∈ sm_parts t;
  po_ensured : ∀ p d, (p, d) ∈ sm_ensured t → (p, d) ∈ sm_parts t ∨ ((d + 1) * day_ns ≤ horizon)%Z;
}.

Definition with_partition (parent : string) (d : Z) (t : SampleTables) : SampleTables :=
  if bool_decide ((parent, d) ∈ sm_ensured t) then t else set_ensured (union {[(parent, d)]}) (set_parts (union {[(parent, d)]}) t).
Lemma ensure_run parent at_ t : sm_up t = true → ensureDayPartition parent at_ t = (Ok tt, with_partition parent (day_of at_) t).
Proof.
  intros Hup. unfold ensureDayPartition, with_partition, samples_online, bind, get, ensure, truncate. cbv zeta.
  replace (day_of (at_ / day_ns * day_ns)) with (day_of at_) by (unfold day_of; by rewrite Z.div_mul).
  destruct (bool_decide _); [done|]. cbn. by rewrite Hup.
Qed.
Lemma with_partition_same parent d t : let t' := with_partition parent d t in
  sm_up t' = sm_up t ∧ sm_clusters t' = sm_clusters t ∧ sm_metrics t' = sm_metrics t ∧ sm_consumers t' = sm_consumers t ∧
  sm_nodes t' = sm_nodes t ∧ sm_annotations t' = sm_annotations t ∧ sm_audit t' = sm_audit t ∧ sm_buckets t' = sm_buckets t ∧
  sm_parts t ⊆ sm_parts t'.
Proof. unfold with_partition. destruct (bool_decide _); cbn; split_and!; try done. set_solver. Qed.
Lemma with_partition_ok horizon parent d t : parts_ok horizon t → parts_ok horizon (with_partition parent d t).
Proof.
  intros [Hm Hc He]. unfold with_partition. destruct (bool_decide _); [done|]. split; cbn.
  - intros c at_ m v Hv. apply elem_of_union. right. by eapply Hm.
  - intros c at_ k v Hv. apply elem_of_union. right. by eapply Hc.
  - intros p d' [->%elem_of_singleton|Hin]%elem_of_union; [left; set_solver|]. destruct (He _ _ Hin); [left; set_solver|by right].
Qed.
(** The partition of a day that had not ended is there. *)
Lemma with_partition_in horizon parent d t : parts_ok horizon t → (horizon < (d + 1) * day_ns)%Z → (parent, d) ∈ sm_parts (with_partition parent d t).
Proof.
  intros [_ _ He] Hd. unfold with_partition. case_bool_decide as Hin; [|cbn; set_solver]. destruct (He _ _ Hin); [done|lia].
Qed.

(** ** Inserting *)

Definition metric_rows_of (clusterID : string) (at_ : Z) (samples : list MetricSampleRow) : list (string * Z * string * spec_float) :=
  (λ s : MetricSampleRow, ((clusterID, truncate second at_, s.1), s.2)) <$> samples.
Lemma metric_rows_NoDup c at_ samples : NoDup (metric_rows_of c at_ samples).*1 ↔ NoDup samples.*1.
Proof.
  assert (E : (metric_rows_of c at_ samples).*1 = (λ m : string, (c, truncate second at_, m)) <$> samples.*1)
    by (unfold metric_rows_of; by rewrite <- !list_fmap_compose).
  rewrite E. split; [apply NoDup_fmap_1|apply NoDup_fmap_2]. by intros x y [= ->].
Qed.

Lemma insert_metrics_run horizon clusterID at_ samples t : sm_up t = true → clusterID ∈ sm_clusters t → parts_ok horizon t →
  (horizon < (day_of at_ + 1) * day_ns)%Z → samples ≠ [] →
  let t1 := with_partition metricSamplesParent (day_of at_) t in
  InsertMetricSamples clusterID at_ samples t =
    if bool_decide (NoDup samples.*1) then (Ok tt, set_metrics (put_all (metric_rows_of clusterID at_ samples)) t1) else (Err ErrDB, t1).
Proof.
  intros Hup Hc Hok Hd Hne t1. unfold InsertMetricSamples. destruct (Nat.eqb_spec (length samples) 0) as [E|_]; [by apply nil_length_inv in E|].
  destruct (with_partition_same metricSamplesParent (day_of at_) t) as (Hu & Hcl & Hme & _). fold t1 in Hu, Hcl, Hme.
  cbv zeta. unfold bind at 1. rewrite ensure_run by done. rewrite day_of_seconds. fold t1.
  unfold samples_online, known_cluster, has_partition, bind, get, ensure. cbn [fst snd]. rewrite Hu, Hup. cbn. rewrite Hcl, bool_decide_eq_true_2 by done.
  cbn. rewrite day_of_seconds, bool_decide_eq_true_2 by (by eapply with_partition_in). cbn.
  change ((λ s : MetricSampleRow, _) <$> samples) with (metric_rows_of clusterID at_ samples). rewrite upsert_overwrite.
  rewrite (bool_decide_ext _ _ (metric_rows_NoDup clusterID at_ samples)). rewrite Hme. destruct (bool_decide _); [|done].
  unfold modify, set_metrics. by rewrite Hme.
Qed.

Lemma insert_metrics_ok horizon clusterID at_ samples t : (metricSamplesParent, day_of at_) ∈ sm_parts t → parts_ok horizon t →
  parts_ok horizon (set_metrics (put_all (metric_rows_of clusterID at_ samples)) t).
Proof.
  intros Hin [Hm Hc He]. split; cbn; [|done..]. intros c a m v Hv. apply put_all_some in Hv as [Hv|Hv]; [by eapply Hm|].
  apply list_elem_of_fmap in Hv as (s & [= -> -> -> ->] & _). by rewrite day_of_seconds.
Qed.

(** What an operation leaves alone: the metrics, and that partitions are there. *)
Record keeps_metrics (t t' : SampleTables) : Prop := {
  km_up : sm_up t' = sm_up t;
  km_clusters : sm_clusters t' = sm_clusters t;
  km_metrics : sm_metrics t' = sm_metrics t;
  km_parts : ∀ horizon, parts_ok horizon t → parts_ok horizon t';
}.
#[export] Instance keeps_metrics_preorder : PreOrder keeps_metrics.
Proof. split; [by split|]. intros a b c [] []. split; [congruence..|auto]. Qed.
Lemma keeps_same t t' : sm_up t' = sm_up t → sm_clusters t' = sm_clusters t → sm_metrics t' = sm_metrics t → sm_consumers t' = sm_consumers t →
  sm_parts t' = sm_parts t → sm_ensured t' = sm_ensured t → keeps_metrics t t'.
Proof. intros Hu Hc Hm Hco Hp He. split; [done..|]. intros h [H1 H2 H3]. split; rewrite ?Hm, ?Hco, ?Hp, ?He; done. Qed.
Lemma keeps_partition parent d t : keeps_metrics t (with_partition parent d t).
Proof.
  destruct (with_partition_same parent d t) as (Hu & Hc & Hm & _). split; [done..|]. intros h. apply with_partition_ok.
Qed.

Lemma insert_consumers_keeps clusterID at_ samples : runs keeps_metrics (InsertIncidentConsumerSamples clusterID at_ samples).
Proof.
  intros t. unfold InsertIncidentConsumerSamples. destruct (Nat.eqb _ 0); [done|]. cbv zeta. unfold bind at 1.
  destruct (sm_up t) eqn:Hup.
  - rewrite ensure_run by done. rewrite day_of_seconds. set (t1 := with_partition _ _ t). pose proof (keeps_partition incidentSamplesParent (day_of at_) t) as Hk.
    fold t1 in Hk. etrans; [exact Hk|]. unfold samples_online, known_cluster, has_partition, bind, get, ensure. cbn.
    destruct (sm_up t1); [|done]. cbn. destruct (bool_decide (clusterID ∈ _)); [|done]. cbn. case_bool_decide as Hin; [|done]. cbn.
    rewrite upsert_overwrite. destruct (bool_decide _); [|done]. cbn. split; [done..|]. intros h [Hm Hc He]. split; cbn; [done| |done].
    intros c a k v Hv. apply put_all_some in Hv as [Hv|Hv]; [by eapply Hc|]. apply list_elem_of_fmap in Hv as (s & [= -> -> -> ->] & _). done.
  - unfold ensureDayPartition, samples_online, bind, get, ensure. cbn. destruct (bool_decide _).
    + cbn. by rewrite Hup.
    + cbn. by rewrite Hup.
Qed.
Lemma insert_nodes_keeps clusterID events : runs keeps_metrics (InsertIncidentNodeEvents clusterID events).
Proof.
  intros t. unfold InsertIncidentNodeEvents. destruct (Nat.eqb _ 0); [done|]. unfold samples_online, known_cluster, bind, get, ensure. cbn.
  destruct (sm_up t); [|done]. cbn. destruct (bool_decide _); [|done]. cbn. destruct (forallb _ _); [|done]. cbn. by apply keeps_same.
Qed.
Lemma upsert_buckets_keeps rows : runs keeps_metrics (UpsertBottleneckHourBuckets rows).
Proof.
  intros t. unfold UpsertBottleneckHourBuckets. destruct (Nat.eqb _ 0); [done|]. unfold samples_online, bind, get, ensure. cbn.
  destruct (sm_up t); [|done]. cbn. destruct (forallb _ _); [|done]. cbn. destruct (upsert_rows _ _ _); [|done]. cbn. by apply keeps_same.
Qed.
