(* ===== verification/Collector.v ===== *)
(** The collector that polls the clusters: internal/snapshot/collector.go.

    Its state is that of the tables it writes, the hub it publishes to, and what it
    remembers of the last scrape.  The clusters are scraped side by side; a scrape is
    one computation here, since what it remembers is kept by cluster under a lock.
    Errors are logged and do not stop the collector. *)

From S2P Require Export Samples Monitoring ArchScore Alerts.
From S2P Require Import Base64 GoStrings.

Record streamCounters := mkCounters { sk_bytes : spec_float; sk_lastSeq : spec_float }.
Record fpCacheEntry := mkFp { fp_at : Z; fp_ms : spec_float }.
Definition fingerprintCacheTTL : Z := 10 * minute.

Record Collector := mkCollector {
  co_samples : SampleTables;
  co_world : World;
  co_scores : ScoreTables;
  co_hub : Hub;
  co_lastRoutes : gmap string (list string);
  co_lastStream : gmap string (gmap string streamCounters);
  co_fpCache : gmap string fpCacheEntry;
}.
Definition set_hub f c := mkCollector (co_samples c) (co_world c) (co_scores c) (f (co_hub c)) (co_lastRoutes c) (co_lastStream c) (co_fpCache c).
Definition set_lastRoutes f c := mkCollector (co_samples c) (co_world c) (co_scores c) (co_hub c) (f (co_lastRoutes c)) (co_lastStream c) (co_fpCache c).
Definition set_lastStream f c := mkCollector (co_samples c) (co_world c) (co_scores c) (co_hub c) (co_lastRoutes c) (f (co_lastStream c)) (co_fpCache c).
Definition set_fpCache f c := mkCollector (co_samples c) (co_world c) (co_scores c) (co_hub c) (co_lastRoutes c) (co_lastStream c) (f (co_fpCache c)).
Abbreviation CoM := (M Collector err).

(** A computation on one of the groups of tables. *)
Definition on_samples {A} (m : SaM A) : CoM A := λ c,
  let '(r, t) := m (co_samples c) in (r, mkCollector t (co_world c) (co_scores c) (co_hub c) (co_lastRoutes c) (co_lastStream c) (co_fpCache c)).
Definition on_world {A} (m : AM A) : CoM A := λ c,
  let '(r, w) := m (co_world c) in (r, mkCollector (co_samples c) w (co_scores c) (co_hub c) (co_lastRoutes c) (co_lastStream c) (co_fpCache c)).
Definition on_scores {A} (m : ScM A) : CoM A := λ c,
  let '(r, t) := m (co_scores c) in (r, mkCollector (co_samples c) (co_world c) t (co_hub c) (co_lastRoutes c) (co_lastStream c) (co_fpCache c)).
(** An error that is logged. *)
Definition logged {A} (m : CoM A) : CoM unit := attempt m ;; ret tt.

(** * Routes *)

Definition route_events (at_ : Z) (previous current : list string) : list IncidentNodeEvent :=
  let '(disconnected, reconnected) := DiffRouteNodes previous current in
  ((λ n, mkNodeEvent at_ n IncidentNodeDisconnect) <$> disconnected) ++ ((λ n, mkNodeEvent at_ n IncidentNodeReconnect) <$> reconnected).
Definition persistRouteTransitions (clusterID : string) (capturedAt : Z) (current : list string) : CoM unit :=
  let! c := get in
  modify (set_lastRoutes <[clusterID := current]>) ;;
  match co_lastRoutes c !! clusterID with
  | None => ret tt
  | Some previous =>
      match route_events capturedAt previous current with
      | [] => ret tt
      | events => logged (on_samples (InsertIncidentNodeEvents clusterID events))
      end
  end.

(** * Payloads *)

Definition count_sample (m : gmap string streamCounters) (s : MetricSampleRow) : gmap string streamCounters :=
  match ParseStreamMetric s.1 with
  | None => m
  | Some (stream, kind) =>
      let ctr := default (mkCounters (f64 0) (f64 0)) (m !! stream) in
      <[stream := if kind =s "bytes" then mkCounters s.2 (sk_lastSeq ctr)
                  else if kind =s "last_seq" then mkCounters (sk_bytes ctr) s.2 else ctr]> m
  end.
Definition avg_payload (prev : gmap string streamCounters) (e : string * streamCounters) : option (string * spec_float) :=
  match prev !! e.1 with
  | None => None
  | Some p => (λ avg, (e.1, avg)) <$> AvgPayloadBytes (fsub (sk_bytes e.2) (sk_bytes p)) (fsub (sk_lastSeq e.2) (sk_lastSeq p))
  end.

Section Collect.
Context `{GoUnicode} `{ScrapeJson}.
Context (newID : nat → string) (r : Ranges).
(** The order in which the map of the counters is ranged over. *)
Context (range : gmap string streamCounters → list (string * streamCounters)).

(** The samples with the averages, and the averages. *)
Definition appendAvgPayloadSamples (clusterID : string) (samples : list MetricSampleRow) : CoM (list MetricSampleRow * list (string * spec_float)) :=
  let current := foldl count_sample ∅ samples in
  let! c := get in
  modify (set_lastStream <[clusterID := current]>) ;;
  match co_lastStream c !! clusterID with
  | None => ret (samples, [])
  | Some prev =>
      let avgs := omap (avg_payload prev) (range current) in
      ret (samples ++ ((λ e, (StreamMetric e.1 "avg_payload_bytes", e.2)) <$> avgs), avgs)
  end.

(** * Rollups *)

(** What the key-value store of a cluster answers for a bucket and a key, and how a
    worker's report in it reads: its current processing time, if it is complete. *)
Context (GetKVEntry : string → string → option string).
Context (ParseBehaviorFingerprintKV : string → option spec_float).
Context (BehaviorFingerprintKVBucket : string).

Definition DefaultBehaviorFingerprintKVBucket : string := "nats_consol_fingerprints".
Definition BehaviorFingerprintKVKey (stream durable : string) : string := TrimSpace stream +:+ "/" +:+ TrimSpace durable.
Definition fingerprint_bucket : string :=
  let bucket := TrimSpace BehaviorFingerprintKVBucket in if IsEmpty bucket then DefaultBehaviorFingerprintKVBucket else bucket.
Definition fetch_fingerprint (cs : IncidentConsumerSample) : option spec_float :=
  match GetKVEntry fingerprint_bucket (BehaviorFingerprintKVKey (ic_StreamName cs) (ic_ConsumerName cs)) with
  | None => None
  | Some value =>
      if IsEmpty value then None
      else match DecodeString value with Some raw => ParseBehaviorFingerprintKV raw | None => None end
  end.
Definition fp_key (clusterID : string) (cs : IncidentConsumerSample) : string := clusterID +:+ "/" +:+ ic_StreamName cs +:+ "/" +:+ ic_ConsumerName cs.
Definition sample_key (cs : IncidentConsumerSample) : string := ic_StreamName cs +:+ "/" +:+ ic_ConsumerName cs.
Definition fresh_fp (now : Z) (e : fpCacheEntry) : bool := Z.ltb (now - fp_at e) fingerprintCacheTTL.
(** What is remembered of a consumer for a time. *)
Definition cached_fp (now : Z) (clusterID : string) (cache : gmap string fpCacheEntry) (cs : IncidentConsumerSample) : option spec_float :=
  match cache !! fp_key clusterID cs with
  | Some e => if fresh_fp now e then Some (fp_ms e) else None
  | None => None
  end.
(** The processing time of a consumer that lags, asked for if it is not remembered. *)
Definition load_fp (now : Z) (clusterID : string) (old : gmap string fpCacheEntry)
    (s : gmap string spec_float * gmap string fpCacheEntry) (cs : IncidentConsumerSample) : gmap string spec_float * gmap string fpCacheEntry :=
  let '(out, cache) := s in
  if SFleb (ic_Lag cs) (f64 0) then s
  else match cached_fp now clusterID old cs with
  | Some ms => (<[sample_key cs := ms]> out, cache)
  | None => match fetch_fingerprint cs with
            | Some ms => (<[sample_key cs := ms]> out, <[fp_key clusterID cs := mkFp now ms]> cache)
            | None => s
            end
  end.
Definition loadFingerprintProcessing (now : Z) (clusterID : string) (consumers : list IncidentConsumerSample) : CoM (gmap string spec_float) :=
  let! c := get in
  let '(out, cache) := foldl (load_fp now clusterID (co_fpCache c)) (∅, co_fpCache c) consumers in
  modify (set_fpCache (λ _, cache)) ;;
  ret out.

Definition consumer_bucket (clusterID : string) (at_ : Z) (payloads : list (string * spec_float)) (processing : gmap string spec_float)
    (cs : IncidentConsumerSample) : BottleneckHourBucket :=
  let payload := default (f64 0) ((list_to_map payloads : gmap string spec_float) !! ic_StreamName cs) in
  mkBucket clusterID (ic_StreamName cs) (ic_ConsumerName cs) at_ (ic_Lag cs) (ic_Lag cs) payload (processing !! sample_key cs) 1.
Definition stream_bucket (clusterID : string) (at_ : Z) (p : string * spec_float) : BottleneckHourBucket :=
  mkBucket clusterID p.1 "" at_ (f64 0) (f64 0) p.2 None 1.
Definition upsertBottleneckRollups (now : Z) (clusterID : string) (capturedAt : Z) (consumers : list IncidentConsumerSample)
    (payloads : list (string * spec_float)) : CoM unit :=
  let bucketHour := truncate hour capturedAt in
  let! processing := loadFingerprintProcessing now clusterID consumers in
  match (consumer_bucket clusterID bucketHour payloads processing <$> consumers) ++ (stream_bucket clusterID bucketHour <$> payloads) with
  | [] => ret tt
  | rows => logged (on_samples (UpsertBottleneckHourBuckets rows))
  end.

(** * A scrape *)

Context (opts : Options) (thr : SlowConsumerThresholds).

Definition snapshot_of (capturedAt : Z) (result : ClusterSnapshotResult) : ClusterSnapshot :=
  mkSnapshot capturedAt (cs_Varz result) (cs_Jsz result) (cs_JszTopology result) (cs_Connz result) [].
(** The rollups and the score of the day, after everything else. *)
Definition collect_rest (now : Z) (clusterID : string) (capturedAt : Z) (result : ClusterSnapshotResult) (payloads : list (string * spec_float)) : CoM unit :=
  upsertBottleneckRollups now clusterID capturedAt (cs_ConsumerSamples result) payloads ;;
  on_scores (upsertArchitectureScore r now clusterID capturedAt (cs_ArchitectureInputs result) (ic_Lag <$> cs_ConsumerSamples result)).
Definition sampleCluster (now : Z) (clusterID : string) (capturedAt : Z) (answers : option Answers) : CoM unit :=
  match answers with
  | None => ret tt   (* no client *)
  | Some answers =>
      match CollectClusterSnapshot thr answers with
      | None => ret tt
      | Some result =>
          modify (set_hub (publish clusterID (snapshot_of capturedAt result) now)) ;;
          logged (on_samples (InsertIncidentConsumerSamples clusterID capturedAt (cs_ConsumerSamples result))) ;;
          persistRouteTransitions clusterID capturedAt (cs_RouteNodes result) ;;
          let! sp := appendAvgPayloadSamples clusterID (cs_Samples result) in
          let '(samples, payloads) := sp in
          if Nat.eqb (length samples) 0 then collect_rest now clusterID capturedAt result payloads
          else
            let! inserted := attempt (on_samples (InsertMetricSamples clusterID capturedAt samples)) in
            match inserted with
            | Err _ => ret tt
            | Ok _ =>
                logged (on_world (Evaluate newID clusterID samples opts now)) ;;
                collect_rest now clusterID capturedAt result payloads
            end
      end
  end.
(** The clusters, one after the other. *)
Fixpoint sample_all (now capturedAt : Z) (clusters : list string) (answer : string → option Answers) : CoM unit :=
  match clusters with
  | [] => ret tt
  | clusterID :: rest => sampleCluster now clusterID capturedAt (answer clusterID) ;; sample_all now capturedAt rest answer
  end.
Definition sample (now : Z) (clusters : option (list string)) (answer : string → option Answers) : CoM unit :=
  match clusters with Some l => sample_all now now l answer | None => ret tt end.
End Collect.

(** * Cleaning up *)

Definition architectureScoreRetention : Z := 180 * day_ns.
(** The number of rows, if there was no error. *)
Definition counted (m : CoM Z) : CoM Z := let! r := attempt m in ret (match r with Ok n => n | Err _ => 0%Z end).
Definition cleanup (now retention bottleneckRetention : Z) : CoM Z :=
  if Z.leb retention 0 then ret 0%Z
  else
    logged (on_samples (EnsureSamplePartitions now retention)) ;;
    let cutoff := (now - retention)%Z in
    let! deleted := attempt (on_samples (DeleteMetricSamplesOlderThan cutoff)) in
    match deleted with
    | Err _ => ret 0%Z
    | Ok deleted =>
        let! incidents := counted (on_samples (DeleteIncidentDataOlderThan cutoff)) in
        let! audit := counted (on_samples (DeleteAuditOlderThan cutoff)) in
        let! alerts := counted (let! n := on_world (DeleteClosedAlertsOlderThan cutoff) in ret (Z.of_nat n)) in
        let bottleneckRetention := if Z.leb bottleneckRetention 0 then (672 * hour)%Z else bottleneckRetention in
        let! rollups := counted (on_samples (DeleteBottleneckHourBucketsOlderThan (now - bottleneckRetention))) in
        let! scores := counted (on_scores (DeleteArchitectureScoreDailyOlderThan (now - architectureScoreRetention))) in
        ret (deleted + incidents + audit + alerts + rollups + scores)%Z
    end.
