(* ===== verification/CollectorFacts.v ===== *)
(** What a scrape leaves behind: every sample of a cluster is stored and its alerts are
    evaluated on exactly those, unless two streams share a name; the node events replay
    to the routes of the last scrape; cleaning up keeps what is young. *)

From S2P Require Export Collector SamplesFacts.
From S2P Require Import ArchitectureFacts Subjects Base64 GoStrings.
From Stdlib Require Import Ascii.

(** * Names of metrics *)

Lemma split_last {A} (x : A) l1 l2 k1 k2 : x ∉ k1 → x ∉ k2 → l1 ++ x :: k1 = l2 ++ x :: k2 → l1 = l2 ∧ k1 = k2.
Proof.
  intros H1 H2. revert l2. induction l1 as [|a l1 IH]; intros [|b l2] E; cbn in E.
  - by injection E as ->.
  - injection E as -> ->. exfalso. apply H1. set_solver.
  - injection E as -> <-. exfalso. apply H2. set_solver.
  - injection E as -> E. destruct (IH l2 E). by subst.
Qed.
Definition colon_free (kind : string) : bool := bool_decide (":"%char ∉ bytes_of kind).
Lemma StreamMetric_inj s s' k k' : colon_free k = true → colon_free k' = true → StreamMetric s k = StreamMetric s' k' → s = s' ∧ k = k'.
Proof.
  intros H1%bool_decide_eq_true H2%bool_decide_eq_true E. unfold StreamMetric in E. apply (f_equal bytes_of) in E.
  rewrite !bytes_of_app in E. apply (app_inv_head (bytes_of "stream:")) in E. cbn [bytes_of app String.list_ascii_of_string] in E.
  apply split_last in E as [E1 E2]; [|done..]. split; by apply bytes_of_inj.
Qed.
Lemma StreamMetric_not_fixed s k : StreamMetric s k ∉ DefaultDashboardMetrics.
Proof.
  intros Hin. unfold DefaultDashboardMetrics in Hin. repeat (apply elem_of_cons in Hin as [E|Hin]; [discriminate E|]). by apply not_elem_of_nil in Hin.
Qed.

(** The names of the streams that have one. *)
Definition stream_names (p : topologyJSZPayload) : list string := List.filter (λ n, negb (IsEmpty n)) (tp_Name <$> topo_streams p).
Definition rate_names (n : string) : list string :=
  [StreamMetric n "last_seq"; StreamMetric n "bytes"; StreamMetric n "delivered_seq"; StreamMetric n "ack_floor_seq"].
Lemma stream_rate_names p : (streamRateSamplesFromTopology p).*1 = flat_map rate_names (stream_names p).
Proof.
  unfold streamRateSamplesFromTopology, stream_names. induction (topo_streams p) as [|s l IH]; [done|]. cbn. rewrite fmap_app, IH.
  unfold rate_samples. by destruct (IsEmpty (tp_Name s)).
Qed.
Definition rate_kinds : list string := ["last_seq"; "bytes"; "delivered_seq"; "ack_floor_seq"].
Lemma rate_names_elem n m : m ∈ rate_names n ↔ ∃ k, k ∈ rate_kinds ∧ m = StreamMetric n k.
Proof.
  change (rate_names n) with (StreamMetric n <$> rate_kinds). rewrite list_elem_of_fmap. split; intros (k & H1 & H2); eauto.
Qed.
Lemma rate_kind_colon k : k ∈ rate_kinds → colon_free k = true.
Proof. intros Hin. unfold rate_kinds in Hin. repeat (apply elem_of_cons in Hin as [->|Hin]; [done|]). by apply not_elem_of_nil in Hin. Qed.
Lemma rate_names_NoDup_1 n : NoDup (rate_names n).
Proof.
  change (rate_names n) with (StreamMetric n <$> rate_kinds). apply NoDup_fmap_2_strong; [|by apply (bool_decide_eq_true_1 (NoDup rate_kinds))].
  intros k k' H1 H2 E. apply StreamMetric_inj in E as [_ E]; auto using rate_kind_colon.
Qed.
Lemma flat_rate_names l : NoDup (flat_map rate_names l) ↔ NoDup l.
Proof.
  induction l as [|n l IH]; [by split; constructor|]. cbn [flat_map]. rewrite NoDup_cons, NoDup_app, IH. split.
  - intros (_ & Hn & Hl). split; [|done]. intros Hin. eapply (Hn (StreamMetric n "bytes")); [by apply rate_names_elem; exists "bytes"; split; [right; left|]|].
    apply list_elem_of_In, in_flat_map. exists n. split; [by apply list_elem_of_In|]. apply list_elem_of_In, rate_names_elem. exists "bytes".
    split; [right; left|done].
  - intros [Hn Hl]. split; [apply rate_names_NoDup_1|]. split; [|done]. intros m (k & Hk & ->)%rate_names_elem Hin.
    apply list_elem_of_In, in_flat_map in Hin as (n' & Hn' & Hm). apply list_elem_of_In in Hn', Hm.
    apply rate_names_elem in Hm as (k' & Hk' & E). apply StreamMetric_inj in E as [-> _]; auto using rate_kind_colon.
Qed.

(** The metrics of the cluster, by the answers that were there. *)
Definition account_names (has : bool) : list string :=
  if has then ["jetstream.storage_bytes"; "jetstream.memory_bytes"; "jetstream.streams"; "jetstream.consumers"] else [].
Definition varz_names (has cpu mem : bool) : list string :=
  if has then ["server.connections"; "server.in_msgs_total"; "server.out_msgs_total"; "server.in_bytes_total"; "server.out_bytes_total"] ++
              (if cpu then ["server.cpu_percent"] else []) ++ (if mem then ["server.mem_bytes"] else []) else [].
Definition fixed_names (account varz cpu mem : bool) : list string :=
  account_names account ++ varz_names varz cpu mem ++
  ["jsz.streams"; "jsz.consumers"; "jsz.messages"] ++
  ["jetstream.slow_consumers"; "jetstream.consumer_max_lag"; "jetstream.consumer_max_pending"; "jetstream.consumer_max_ack_pending"].
Lemma fixed_names_ok a v c m : NoDup (fixed_names a v c m) ∧ ∀ n, n ∈ fixed_names a v c m → n ∈ DefaultDashboardMetrics.
Proof.
  assert (E : bool_decide (NoDup (fixed_names a v c m)) && forallb (λ n, n ∈b DefaultDashboardMetrics) (fixed_names a v c m) = true)
    by (by destruct a, v, c, m; vm_compute).
  apply andb_true_iff in E as [E1%bool_decide_eq_true E2]. split; [done|]. rewrite forallb_forall in E2. intros n Hn%list_elem_of_In.
  by apply E2, bool_decide_eq_true in Hn.
Qed.

Section Names.
Context `{GoUnicode} `{ScrapeJson}.
Implicit Types (a : Answers) (p : topologyJSZPayload) (result : ClusterSnapshotResult).

(** [a] has a topology, and it reads as [p]. *)
Definition has_topology a p : Prop := body (an_topology a) ≠ "" ∧ parseTopologyJSZ (body (an_topology a)) = Some p.
Lemma scrape_parts thr a p result : has_topology a p → CollectClusterSnapshot thr a = Some result →
  ∃ b v c m, (cs_Samples result).*1 ≡ₚ fixed_names b v c m ++ flat_map rate_names (stream_names p).
Proof.
  intros [Hne Hp] Hc. unfold CollectClusterSnapshot, topology_part in Hc. apply IsEmpty_false in Hne. rewrite Hne, Hp in Hc. cbn [negb samplesFromTopologyJSZ] in Hc.
  destruct (_ && _) in Hc; [discriminate Hc|]. injection Hc as <-. cbn [cs_Samples]. rewrite !fmap_app.
  assert (Hv : ∃ v c m, (if IsEmpty (body (an_varz a)) then [] else default [] (ExtractVarzMetrics (body (an_varz a)))).*1 = varz_names v c m).
  { destruct (IsEmpty (body (an_varz a))); [by exists false, false, false|]. unfold ExtractVarzMetrics. destruct (parse_varz _) as [q|]; [|exists false, false, false; reflexivity].
    exists true, (SFltb (f64 0) (vz_CPU q)), (Z.ltb 0 (vz_Mem q)). cbn. by destruct (SFltb _ _), (Z.ltb _ _). }
  destruct Hv as (v & c & m & ->). exists (bool_decide (is_Some (an_account a))), v, c, m. unfold fixed_names.
  replace ((match an_account a with Some info => ExtractAccountMetrics info | None => [] end).*1) with (account_names (bool_decide (is_Some (an_account a))))
    by (by destruct (an_account a)).
  rewrite !fmap_cons, fmap_app, stream_rate_names. cbn [fst]. rewrite <- !List.app_assoc. f_equiv. f_equiv. cbn [app].
  do 3 f_equiv. apply Permutation_app_comm.
Qed.

Context (range : gmap string streamCounters → list (string * streamCounters)).
Lemma avg_names prev current : range_ok range → NoDup (omap (avg_payload prev) (range current)).*1.
Proof.
  intros Hr. assert (Hnd : NoDup (range current).*1) by (rewrite Hr; apply NoDup_fst_map_to_list).
  induction (range current) as [|[s x] l IH]; [constructor|]. cbn in Hnd. apply NoDup_cons in Hnd as [Hn Hnd]. cbn.
  unfold avg_payload at 1. cbn [fst snd]. destruct (prev !! s); [|by apply IH]. destruct (AvgPayloadBytes _ _); [|by apply IH]. cbn.
  apply NoDup_cons. split; [|by apply IH]. intros ([s' z] & -> & Hin)%list_elem_of_fmap. apply Hn. apply list_elem_of_omap in Hin as ([s2 y] & Hin & E).
  unfold avg_payload in E. cbn in E. destruct (prev !! s2); [|done]. destruct (AvgPayloadBytes _ _); [|done]. injection E as <- _.
  apply list_elem_of_fmap. by exists (s2, y).
Qed.

(** The samples with the averages, and the averages, as a function of the state. *)
Definition averaged (clusterID : string) (samples : list MetricSampleRow) (c : Collector) : list MetricSampleRow * list (string * spec_float) :=
  match co_lastStream c !! clusterID with
  | None => (samples, [])
  | Some prev =>
      let avgs := omap (avg_payload prev) (range (foldl count_sample ∅ samples)) in
      (samples ++ ((λ e : string * spec_float, (StreamMetric e.1 "avg_payload_bytes", e.2)) <$> avgs), avgs)
  end.
Lemma append_run clusterID samples c : appendAvgPayloadSamples range clusterID samples c =
  (Ok (averaged clusterID samples c), set_lastStream <[clusterID := foldl count_sample ∅ samples]> c).
Proof. unfold appendAvgPayloadSamples, averaged, bind, get, modify. by destruct (co_lastStream c !! clusterID). Qed.

(** The names of all samples are distinct exactly if those of the streams are. *)
Lemma sample_names_distinct thr a p result clusterID c : range_ok range → has_topology a p → CollectClusterSnapshot thr a = Some result →
  (averaged clusterID (cs_Samples result) c).1 ≠ [] ∧ (NoDup (averaged clusterID (cs_Samples result) c).1.*1 ↔ NoDup (stream_names p)).
Proof.
  intros Hr Ht Hc. destruct (scrape_parts _ _ _ _ Ht Hc) as (b & v & x & m & Hperm).
  destruct (fixed_names_ok b v x m) as [Hfix Hin]. assert (Hns : cs_Samples result ≠ []).
  { intros E. rewrite E in Hperm. cbn in Hperm. apply Permutation_nil_l in Hperm. by destruct b, v, x, m. }
  assert (Hfr : ∀ n k, StreamMetric n k ∉ fixed_names b v x m) by (intros n k Hk; by apply (StreamMetric_not_fixed n k), Hin).
  assert (Hbase : NoDup (cs_Samples result).*1 ↔ NoDup (stream_names p)).
  { rewrite Hperm, NoDup_app, flat_rate_names. split; [by intros (_ & _ & ?)|]. intros Hs. split; [done|]. split; [|done].
    intros n Hn Hf. apply list_elem_of_In, in_flat_map in Hf as (s & _ & Hf). apply list_elem_of_In, rate_names_elem in Hf as (k & _ & ->). by eapply Hfr. }
  unfold averaged. destruct (co_lastStream c !! clusterID) as [prev|]; [|done]. cbn [fst]. split; [by destruct (cs_Samples result)|].
  rewrite fmap_app, NoDup_app, Hbase. split; [by intros (? & _)|]. intros Hs. split; [done|].
  set (avgs := omap _ _). assert (E : ((λ e : string * spec_float, (StreamMetric e.1 "avg_payload_bytes", e.2)) <$> avgs).*1 = (λ n : string, StreamMetric n "avg_payload_bytes") <$> avgs.*1)
    by (by rewrite <- !list_fmap_compose). rewrite E. split.
  - intros n Hn (s & -> & _)%list_elem_of_fmap. rewrite Hperm in Hn. apply elem_of_app in Hn as [Hn|Hn]; [by eapply Hfr|].
    apply list_elem_of_In, in_flat_map in Hn as (s' & _ & Hn). apply list_elem_of_In, rate_names_elem in Hn as (k & Hk & Ek).
    apply StreamMetric_inj in Ek as [_ Ek]; [|done|by apply rate_kind_colon]. subst k. unfold rate_kinds in Hk.
    repeat (apply elem_of_cons in Hk as [Hk|Hk]; [discriminate Hk|]). by apply not_elem_of_nil in Hk.
  - apply NoDup_fmap_2_strong; [|by apply avg_names]. intros s s' _ _ Es. by apply StreamMetric_inj in Es as [? _].
Qed.
End Names.

(** * A scrape *)

(** What the steps before the insertion of the metrics leave alone. *)
Record prepared (c c' : Collector) : Prop := {
  pr_samples : keeps_metrics (co_samples c) (co_samples c');
  pr_world : co_world c' = co_world c;
  pr_scores : co_scores c' = co_scores c;
  pr_lastStream : co_lastStream c' = co_lastStream c;
}.
#[export] Instance prepared_preorder : PreOrder prepared.
Proof. split; [by split|]. intros a b c [] []. split; [by etrans|congruence..]. Qed.
Lemma on_samples_prepared {A} (m : SaM A) : runs keeps_metrics m → runs prepared (on_samples m).
Proof. intros Hm c. unfold on_samples. specialize (Hm (co_samples c)). destruct (m (co_samples c)) as [x t]. by split. Qed.
Lemma logged_runs {A} (R : relation Collector) `{!PreOrder R} (m : CoM A) : runs R m → runs R (logged m).
Proof. intros Hm. unfold logged. simple apply runs_bind; [apply _|by apply runs_attempt|]. intros a. by apply runs_ret. Qed.
Lemma logged_ok {A} (m : CoM A) c : logged m c = (Ok tt, snd (m c)).
Proof. unfold logged, bind, attempt, ret. by destruct (m c). Qed.
Lemma persist_run clusterID at_ current c : persistRouteTransitions clusterID at_ current c =
  (Ok tt, snd (persistRouteTransitions clusterID at_ current c)).
Proof.
  unfold persistRouteTransitions, bind, get, modify, ret. destruct (co_lastRoutes c !! clusterID); [|done].
  destruct (route_events _ _ _); [done|]. by rewrite logged_ok.
Qed.
Lemma persist_prepared clusterID at_ current : runs prepared (persistRouteTransitions clusterID at_ current).
Proof.
  unfold persistRouteTransitions. simple apply runs_bind; [apply _|run_rules|]. intros c.
  simple apply runs_bind; [apply _|by apply runs_modify|]. intros _. destruct (co_lastRoutes c !! clusterID); [|run_rules].
  destruct (route_events _ _ _); [run_rules|]. apply logged_runs; [apply _|]. apply on_samples_prepared, insert_nodes_keeps.
Qed.

Section Flow.
Context `{GoUnicode} `{ScrapeJson}.
Context (newID : nat → string) (r : Ranges) (range : gmap string streamCounters → list (string * streamCounters)).
Context (GetKVEntry : string → string → option string) (ParseBehaviorFingerprintKV : string → option spec_float).
Context (BehaviorFingerprintKVBucket : string) (opts : Options) (thr : SlowConsumerThresholds).
Local Notation rest := (collect_rest r GetKVEntry ParseBehaviorFingerprintKV BehaviorFingerprintKVBucket).
Local Notation scrape := (sampleCluster newID r range GetKVEntry ParseBehaviorFingerprintKV BehaviorFingerprintKVBucket opts thr).

(** The rollups and the score touch neither metrics nor alerts. *)
Record after_metrics (c c' : Collector) : Prop := {
  am_samples : keeps_metrics (co_samples c) (co_samples c');
  am_world : co_world c' = co_world c;
}.
#[local] Instance after_metrics_preorder : PreOrder after_metrics.
Proof. split; [by split|]. intros a b c [] []. split; [by etrans|congruence]. Qed.
Lemma rest_after now clusterID at_ result payloads : runs after_metrics (rest now clusterID at_ result payloads).
Proof.
  unfold collect_rest. simple apply runs_bind; [apply _| |intros _].
  - unfold upsertBottleneckRollups. simple apply runs_bind; [apply _| |intros processing].
    + unfold loadFingerprintProcessing. simple apply runs_bind; [apply _|run_rules|]. intros c. destruct (foldl _ _ _) as [out cache].
      simple apply runs_bind; [apply _|by apply runs_modify|]. intros _. run_rules.
    + destruct (_ ++ _); [run_rules|]. apply logged_runs; [apply _|]. intros c. unfold on_samples.
      set (rows := b :: l). pose proof (upsert_buckets_keeps rows (co_samples c)) as Hk. destruct (UpsertBottleneckHourBuckets rows (co_samples c)). by split.
  - intros c. unfold on_scores. by destruct (upsertArchitectureScore _ _ _ _ _ _ _).
Qed.

(** The state when the metrics are to be inserted. *)
Definition before_insert (now : Z) (clusterID : string) (at_ : Z) (result : ClusterSnapshotResult) (c : Collector) : Collector :=
  let c1 := set_hub (publish clusterID (snapshot_of at_ result) now) c in
  let c2 := snd (on_samples (InsertIncidentConsumerSamples clusterID at_ (cs_ConsumerSamples result)) c1) in
  snd (persistRouteTransitions clusterID at_ (cs_RouteNodes result) c2).
Lemma before_insert_prepared now clusterID at_ result c : prepared c (before_insert now clusterID at_ result c).
Proof.
  unfold before_insert. etrans; [|apply persist_prepared]. etrans; [|apply on_samples_prepared, insert_consumers_keeps]. by split.
Qed.
Lemma scrape_run now clusterID at_ a result c : CollectClusterSnapshot thr a = Some result →
  let c1 := before_insert now clusterID at_ result c in
  let '(samples, payloads) := averaged range clusterID (cs_Samples result) c in
  let c2 := set_lastStream <[clusterID := foldl count_sample ∅ (cs_Samples result)]> c1 in
  samples ≠ [] →
  snd (scrape now clusterID at_ (Some a) c) =
    match on_samples (InsertMetricSamples clusterID at_ samples) c2 with
    | (Err _, c3) => c3
    | (Ok _, c3) => snd (rest now clusterID at_ result payloads (snd (on_world (Evaluate newID clusterID samples opts now) c3)))
    end.
Proof.
  intros Hc c1. pose proof (pr_lastStream _ _ (before_insert_prepared now clusterID at_ result c)) as Hls. fold c1 in Hls.
  assert (Hav : averaged range clusterID (cs_Samples result) c = averaged range clusterID (cs_Samples result) c1) by (unfold averaged; by rewrite Hls).
  destruct (averaged range clusterID (cs_Samples result) c) as [samples payloads] eqn:Ea. intros c2 Hne. unfold sampleCluster. rewrite Hc.
  unfold bind at 1. unfold modify at 1. unfold bind at 1. rewrite logged_ok. unfold bind at 1. rewrite persist_run.
  change (snd (persistRouteTransitions _ _ _ _)) with c1. unfold bind at 1. rewrite append_run, <- Hav. fold c2.
  destruct (Nat.eqb_spec (length samples) 0) as [E|_]; [by apply nil_length_inv in E|]. unfold bind at 1, attempt.
  destruct (on_samples _ c2) as [[?|?] c3]; [|done]. unfold bind at 1. by rewrite logged_ok.
Qed.

Definition metrics_of (c : Collector) := sm_metrics (co_samples c).
(** C35. The names of the streams decide: if they are distinct, every sample is stored under
    its name and the second of the scrape, and nothing else changes in the table; the
    alerts are evaluated on these samples.  If two streams, of two accounts, have one
    name, no sample of the cluster is stored, no alert is evaluated, and the score of the
    day is not written. *)
Theorem metrics_reach_alerts horizon now clusterID at_ a p result c :
  range_ok range → has_topology a p → CollectClusterSnapshot thr a = Some result →
  sm_up (co_samples c) = true → clusterID ∈ sm_clusters (co_samples c) →
  parts_ok horizon (co_samples c) → (horizon < (day_of at_ + 1) * day_ns)%Z →
  let samples := (averaged range clusterID (cs_Samples result) c).1 in
  let c' := snd (scrape now clusterID at_ (Some a) c) in
  parts_ok horizon (co_samples c') ∧
  if bool_decide (NoDup (stream_names p)) then
    (∀ m v, (m, v) ∈ samples → metrics_of c' !! (clusterID, truncate second at_, m) = Some v) ∧
    (∀ k, (∀ m, m ∈ samples.*1 → k ≠ (clusterID, truncate second at_, m)) → metrics_of c' !! k = metrics_of c !! k) ∧
    co_world c' = snd (Evaluate newID clusterID samples opts now (co_world c))
  else metrics_of c' = metrics_of c ∧ co_world c' = co_world c ∧ co_scores c' = co_scores c.
Proof.
  intros Hr Ht Hc Hup Hcl Hok Hday samples c'. destruct (sample_names_distinct _ _ _ _ _ clusterID c Hr Ht Hc) as [Hne Hnd].
  pose proof (scrape_run now clusterID at_ a result c Hc) as Hrun. cbv zeta in Hrun. fold c' in Hrun.
  pose proof (before_insert_prepared now clusterID at_ result c) as [[Ku Kc Km Kp] Hw Hs _].
  set (c1 := before_insert now clusterID at_ result c) in *.
  subst samples. destruct (averaged range clusterID (cs_Samples result) c) as [samples payloads]. cbn [fst] in *.
  specialize (Hrun Hne). unfold on_samples in Hrun. cbn [co_samples set_lastStream] in Hrun.
  rewrite (insert_metrics_run horizon) in Hrun by (rewrite ?Ku, ?Kc; auto). rewrite (bool_decide_ext _ _ Hnd) in Hrun.
  pose proof (keeps_partition metricSamplesParent (day_of at_) (co_samples c1)) as [_ _ Pm Pp].
  set (t1 := with_partition metricSamplesParent (day_of at_) (co_samples c1)) in *.
  case_bool_decide as Hdist; [|by subst c'; rewrite Hrun; unfold metrics_of; cbn; rewrite Pm, Km; auto].
  set (c3 := snd (on_world _ _)) in Hrun.
  pose proof (rest_after now clusterID at_ result payloads c3) as [[_ _ Rm Rp] Rw]. rewrite <- Hrun in Rm, Rp, Rw.
  assert (E3 : metrics_of c3 = put_all (metric_rows_of clusterID at_ samples) (metrics_of c) ∧ (parts_ok horizon (co_samples c3)) ∧
               co_world c3 = snd (Evaluate newID clusterID samples opts now (co_world c))).
  { subst c3. unfold on_world, metrics_of. cbn [co_samples co_world set_lastStream]. rewrite Hw. destruct (Evaluate newID clusterID samples opts now (co_world c)) as [? w]. cbn [snd]. cbn. split; [by rewrite Pm, Km|]. split; [|done].
    apply insert_metrics_ok; [|auto]. apply (with_partition_in horizon); auto. }
  destruct E3 as (E3 & P3 & W3). split; [auto|]. unfold metrics_of in *. rewrite Rm, E3. split_and!; [| |congruence].
  - intros m v Hin. apply put_all_lookup; [by apply metric_rows_NoDup, Hnd|]. apply list_elem_of_fmap. by exists (m, v).
  - intros k Hk. apply put_all_other. unfold metric_rows_of. intros ([k' v] & -> & ([m v'] & [= -> ->] & Hin)%list_elem_of_fmap)%list_elem_of_fmap.
    apply (Hk m); [|done]. apply list_elem_of_fmap. by exists (m, v').
Qed.
End Flow.

(** A stream [ORDERS] of one account, and of two. *)
Definition one_stream : topologyJSZPayload :=
  mkTopology (mkJszCounts 1 0 7) [[mkTopoStream "ORDERS" None (Some (mkTopoState 7 700 7)) []]].
Definition two_accounts : topologyJSZPayload :=
  mkTopology (mkJszCounts 2 0 7) [[mkTopoStream "ORDERS" None (Some (mkTopoState 7 700 7)) []]; [mkTopoStream "ORDERS" None None []]].
Definition scrape_reader : ScrapeJson := {|
  parse_varz _ := None;
  parse_jsz _ := None;
  parse_routez raw := if raw =s "routes" then Some (mkRoutez "n1" [mkRoute "" "n2" ""]) else None;
  parseTopologyJSZ raw := if raw =s "one" then Some one_stream else if raw =s "two" then Some two_accounts else None;
|}.
Definition topology_answer (raw : string) : Answers := mkAnswers None None (Some raw) None None None.
Definition empty_samples : SampleTables := mkSamples true ["c1"] ∅ ∅ ∅ ∅ [] ∅ [] ∅.
Definition quiet_world : World := mkWorld empty_tables {[ "c1" := "prod" ]} ∅ ∅ 0 ∅ false [] [].
Definition fresh_collector : Collector := mkCollector empty_samples quiet_world (mkScoreTables true ["c1"] ∅) NewHub ∅ ∅ ∅.
Definition default_thresholds : SlowConsumerThresholds := mkThresholds 0 0 (f64 0).
Definition scrape_once (raw : string) (c : Collector) : Collector :=
  snd (@sampleCluster ascii_only scrape_reader (λ n, "") in_order map_to_list (λ _ _, None) (λ _, None) "" (mkOptions false "") default_thresholds
         0 "c1" 0 (Some (topology_answer raw)) c).
Definition scraped (raw : string) : option ClusterSnapshotResult := @CollectClusterSnapshot scrape_reader default_thresholds (topology_answer raw).
Lemma empty_samples_ok horizon : parts_ok horizon empty_samples.
Proof. split; cbn; [by intros ? ? ? ? ?%lookup_empty_Some..|by intros ? ? ?%elem_of_empty]. Qed.
Lemma metrics_reach_alerts_witness :
  metrics_of (scrape_once "one" fresh_collector) !! ("c1", 0%Z, "stream:ORDERS:bytes") = Some (f64 700) ∧
  metrics_of (scrape_once "two" fresh_collector) = ∅.
Proof.
  split.
  - destruct (scraped "one") as [result|] eqn:E; [|by vm_compute in E].
    pose proof (@metrics_reach_alerts ascii_only scrape_reader (λ n, "") in_order map_to_list (λ _ _, None) (λ _, None) "" (mkOptions false "") default_thresholds
      0 0 "c1" 0 (topology_answer "one") one_stream result fresh_collector) as Hw.
    cbv zeta in Hw. destruct Hw as [_ Hw]; [by intros m|by split; [discriminate|]|exact E|done|by left|apply empty_samples_ok|done|].
    rewrite bool_decide_eq_true_2 in Hw by (by apply (bool_decide_eq_true_1 (NoDup (stream_names one_stream)))). destruct Hw as [Hw _]. apply Hw.
    apply (list_elem_of_lookup_2 _ 4). injection E as <-. by vm_compute.
  - destruct (scraped "two") as [result|] eqn:E; [|by vm_compute in E].
    pose proof (@metrics_reach_alerts ascii_only scrape_reader (λ n, "") in_order map_to_list (λ _ _, None) (λ _, None) "" (mkOptions false "") default_thresholds
      0 0 "c1" 0 (topology_answer "two") two_accounts result fresh_collector) as Hw.
    cbv zeta in Hw. destruct Hw as [_ Hw]; [by intros m|by split; [discriminate|]|exact E|done|by left|apply empty_samples_ok|done|].
    rewrite bool_decide_eq_false_2 in Hw by (by apply (bool_decide_eq_false_1 (NoDup (stream_names two_accounts)))). apply Hw.
Defined.
