(* ===== verification/RouteFacts.v ===== *)
(** The node events of a cluster replay to the routes of its last scrape, and cleaning
    up removes what is old and nothing else. *)

From S2P Require Export CollectorFacts.
From S2P Require Import Subjects CatalogFacts ArchScoreFacts GoStrings.

(** * Routes *)

Definition node_names (l : list string) : gset string := list_to_set (omap nonempty_trimmed l).
(** A reader of the events: who was connected, then what happened. *)
Definition replay_event (up : gset string) (ev : IncidentNodeEvent) : gset string :=
  if ne_EventType ev =s IncidentNodeDisconnect then up ∖ {[ne_NodeName ev]} else up ∪ {[ne_NodeName ev]}.
Definition replay (base : gset string) (events : list IncidentNodeEvent) : gset string := foldl replay_event base events.
Definition node_events (clusterID : string) (t : SampleTables) : list IncidentNodeEvent :=
  snd <$> List.filter (λ r : string * IncidentNodeEvent, r.1 =s clusterID) (sm_nodes t).

Definition events_of (at_ : Z) (kind : string) (names : list string) : list IncidentNodeEvent := (λ n, mkNodeEvent at_ n kind) <$> names.
Lemma replay_down base at_ l : replay base (events_of at_ IncidentNodeDisconnect l) = base ∖ list_to_set l.
Proof.
  unfold replay, events_of. revert base. induction l as [|n l IH]; intros base; cbn; [set_solver|].
  rewrite IH. unfold replay_event. cbn. set_solver.
Qed.
Lemma replay_up base at_ l : replay base (events_of at_ IncidentNodeReconnect l) = base ∪ list_to_set l.
Proof.
  unfold replay, events_of. revert base. induction l as [|n l IH]; intros base; cbn; [set_solver|].
  rewrite IH. unfold replay_event. cbn. set_solver.
Qed.
(** The events of a change lead from the old routes to the new ones. *)
Lemma replay_change at_ previous current : replay (node_names previous) (route_events at_ previous current) = node_names current.
Proof.
  unfold route_events, DiffRouteNodes. fold (events_of at_ IncidentNodeDisconnect) (events_of at_ IncidentNodeReconnect).
  set (d := SortStrings _). set (u := SortStrings (List.filter _ _)). unfold replay. rewrite foldl_app.
  change (replay (replay (node_names previous) (events_of at_ IncidentNodeDisconnect d)) (events_of at_ IncidentNodeReconnect u) = node_names current).
  rewrite replay_down, replay_up.
  assert (Ed : (list_to_set d : gset string) = node_names previous ∖ node_names current).
  { apply leibniz_equiv. intros n. subst d. unfold SortStrings. rewrite elem_of_list_to_set, merge_sort_Permutation, elem_of_elements. done. }
  assert (Eu : (list_to_set u : gset string) = node_names current ∖ node_names previous).
  { apply leibniz_equiv. intros n. subst u. unfold SortStrings. rewrite elem_of_list_to_set, merge_sort_Permutation. unfold node_names.
    rewrite elem_of_difference, !elem_of_list_to_set. rewrite <- (elem_of_list_to_set (C := gset string) n (omap nonempty_trimmed previous)).
    split.
    - intros [Hn Hf]%elem_of_filter_list. split; [done|]. apply negb_true_iff in Hf. by apply bool_decide_eq_false in Hf.
    - intros [Hn Hf]. apply elem_of_filter_list. split; [exact Hn|]. by rewrite bool_decide_eq_false_2. }
  rewrite Ed, Eu. apply leibniz_equiv. intros n. destruct (decide (n ∈ node_names previous)), (decide (n ∈ node_names current)); set_solver.
Qed.

(** The rows of events that are all new are appended. *)
Lemma add_nodes clusterID rows events : NoDup (node_row <$> events) → (∀ ev, ev ∈ events → (clusterID, node_row ev) ∉ rows) →
  foldl (add_node clusterID) rows events = rows ++ ((λ ev, (clusterID, node_row ev)) <$> events).
Proof.
  revert rows. induction events as [|ev events IH]; intros rows Hnd Hnew; [by rewrite List.app_nil_r|]. cbn in *. apply NoDup_cons in Hnd as [Hn Hnd].
  unfold add_node at 2. rewrite bool_decide_eq_false_2 by (apply Hnew; by left). rewrite IH; [by rewrite <- List.app_assoc|done|].
  intros ev' Hin [Hr|E%list_elem_of_singleton%(f_equal snd)]%elem_of_app; [by apply (Hnew ev'); [right|]|]. apply Hn.
  change (node_row ev' = node_row ev) in E. rewrite <- E. by apply list_elem_of_fmap_2.
Qed.
Lemma first_trimmed l : omap nonempty_trimmed (first_by id [] (omap nonempty_trimmed l)) = first_by id [] (omap nonempty_trimmed l).
Proof.
  assert (Hall : ∀ n, n ∈ first_by id [] (omap nonempty_trimmed l) → nonempty_trimmed n = Some n).
  { intros n [Hin _]%first_by_sub. apply list_elem_of_omap in Hin as (s & _ & [-> Hne]%nonempty_trimmed_Some). apply nonempty_trimmed_Some.
    by rewrite TrimSpace_idemp. }
  induction (first_by id [] (omap nonempty_trimmed l)) as [|n k IH]; [done|]. cbn. rewrite Hall by (by left). f_equal. apply IH. intros n' Hin. apply Hall. by right.
Qed.
Lemma route_nodes_trimmed q : omap nonempty_trimmed (route_nodes q) = route_nodes q.
Proof. apply first_trimmed. Qed.
Lemma route_nodes_NoDup q : NoDup (route_nodes q).
Proof. unfold route_nodes. rewrite <- (list_fmap_id (first_by id [] _)). apply first_by_keys. Qed.

(** What a scrape reads of the routes; nothing, if they cannot be asked for. *)
Definition routes_read (o : option routezPayload) : list string := default [] (route_nodes <$> o).
Lemma routes_read_clean o : omap nonempty_trimmed (routes_read o) = routes_read o ∧ NoDup (routes_read o).
Proof. destruct o as [q|]; cbn; [split; [apply route_nodes_trimmed|apply route_nodes_NoDup]|by split; [|constructor]]. Qed.

(** The rows of a change: one of a node, none of which was there. *)
Lemma change_rows_NoDup at_ previous o : NoDup (node_row <$> route_events at_ previous (routes_read o)).
Proof.
  destruct (routes_read_clean o) as [Hc Hnd]. unfold route_events, DiffRouteNodes. rewrite Hc, fmap_app.
  set (d := SortStrings _). set (u := SortStrings (List.filter _ _)).
  assert (Hd : NoDup d ∧ ∀ n, n ∈ d → TrimSpace n = n).
  { subst d. unfold SortStrings. rewrite merge_sort_Permutation. split; [apply NoDup_elements|]. intros n. rewrite merge_sort_Permutation, elem_of_elements.
    intros [Hin _]%elem_of_difference. apply elem_of_list_to_set, list_elem_of_omap in Hin as (s & _ & [-> _]%nonempty_trimmed_Some). apply TrimSpace_idemp. }
  assert (Hu : NoDup u ∧ ∀ n, n ∈ u → TrimSpace n = n).
  { subst u. unfold SortStrings. rewrite merge_sort_Permutation. split; [by apply NoDup_ListNoDup, List.NoDup_filter, NoDup_ListNoDup|].
    intros n. rewrite merge_sort_Permutation. intros [Hin _]%elem_of_filter_list. rewrite <- Hc in Hin.
    apply list_elem_of_omap in Hin as (s & _ & [-> _]%nonempty_trimmed_Some). apply TrimSpace_idemp. }
  assert (Hrows : ∀ kind l, NoDup l → (∀ n, n ∈ l → TrimSpace n = n) → NoDup (node_row <$> events_of at_ kind l)).
  { intros kind l Hl Ht. unfold events_of. rewrite <- list_fmap_compose. apply NoDup_fmap_2_strong; [|done]. intros x y Hx Hy [= E]. by rewrite !Ht in E. }
  apply NoDup_app. split; [by apply Hrows; apply Hd|]. split; [|by apply Hrows; apply Hu].
  intros ev (e1 & -> & (n & -> & _)%list_elem_of_fmap)%list_elem_of_fmap (e2 & E & (n2 & -> & _)%list_elem_of_fmap)%list_elem_of_fmap. discriminate E.
Qed.

(** Nodes of other clusters are left alone. *)
Definition rows_of (clusterID : string) (rows : list (string * IncidentNodeEvent)) : list IncidentNodeEvent :=
  snd <$> List.filter (λ r : string * IncidentNodeEvent, r.1 =s clusterID) rows.
Lemma rows_of_app clusterID l k : rows_of clusterID (l ++ k) = rows_of clusterID l ++ rows_of clusterID k.
Proof. unfold rows_of. by rewrite List.filter_app, fmap_app. Qed.
Lemma rows_of_same clusterID evs : rows_of clusterID ((λ ev, (clusterID, ev)) <$> evs) = evs.
Proof. unfold rows_of. induction evs as [|ev evs IH]; [done|]. cbn. rewrite bool_decide_eq_true_2 by done. cbn. by f_equal. Qed.
Lemma add_nodes_other clusterID other rows evs : other ≠ clusterID → rows_of clusterID (foldl (add_node other) rows evs) = rows_of clusterID rows.
Proof.
  intros Hne. revert rows. induction evs as [|ev evs IH]; intros rows; [done|]. cbn [foldl]. rewrite IH. unfold add_node. destruct (bool_decide _); [done|].
  rewrite rows_of_app. unfold rows_of at 2. cbn. rewrite bool_decide_eq_false_2 by done. cbn. by rewrite List.app_nil_r.
Qed.

Lemma route_events_kinds at_ previous current :
  forallb (λ ev, ne_EventType ev ∈b [IncidentNodeDisconnect; IncidentNodeReconnect]) (route_events at_ previous current) = true.
Proof.
  unfold route_events. destruct (DiffRouteNodes previous current) as [d u]. rewrite forallb_app. apply andb_true_iff.
  split; apply forallb_forall; intros ev (n & -> & _)%list_elem_of_In%list_elem_of_fmap; done.
Qed.
Lemma insert_nodes_run clusterID events t : sm_up t = true → clusterID ∈ sm_clusters t → events ≠ [] →
  forallb (λ ev, ne_EventType ev ∈b [IncidentNodeDisconnect; IncidentNodeReconnect]) events = true →
  InsertIncidentNodeEvents clusterID events t = (Ok tt, set_nodes (λ rows, foldl (add_node clusterID) rows events) t).
Proof.
  intros Hup Hcl Hne Hk. unfold InsertIncidentNodeEvents. destruct (Nat.eqb_spec (length events) 0) as [E|_]; [by apply nil_length_inv in E|].
  unfold samples_online, known_cluster, bind, get, ensure, modify. rewrite Hk, Hup. cbn. by rewrite bool_decide_eq_true_2 by done.
Qed.
Definition tables_up (clusterID : string) (c : Collector) : Prop := sm_up (co_samples c) = true ∧ clusterID ∈ sm_clusters (co_samples c).
(** The state after the routes of a scrape. *)
Definition routes_after (clusterID : string) (at_ : Z) (current : list string) (c : Collector) : Collector :=
  let c1 := set_lastRoutes <[clusterID := current]> c in
  match co_lastRoutes c !! clusterID with
  | None => c1
  | Some previous =>
      mkCollector (set_nodes (λ rows, foldl (add_node clusterID) rows (route_events at_ previous current)) (co_samples c))
        (co_world c) (co_scores c) (co_hub c) (co_lastRoutes c1) (co_lastStream c) (co_fpCache c)
  end.
Lemma persist_after clusterID at_ current c : tables_up clusterID c →
  snd (persistRouteTransitions clusterID at_ current c) = routes_after clusterID at_ current c.
Proof.
  intros [Hup Hcl]. unfold persistRouteTransitions, routes_after, bind, get, modify. destruct (co_lastRoutes c !! clusterID) as [previous|]; [|done].
  pose proof (route_events_kinds at_ previous current) as Hk. destruct (route_events at_ previous current) as [|ev evs] eqn:E.
  - cbn. unfold set_lastRoutes, set_nodes. f_equal. by destruct (co_samples c).
  - rewrite logged_ok. unfold on_samples. by rewrite insert_nodes_run.
Qed.

(** The stored events of a cluster replay, from its first routes, to its last. *)
Record history_ok (clusterID : string) (base : gset string) (at_ : Z) (o : option routezPayload) (c : Collector) : Prop := {
  hi_last : co_lastRoutes c !! clusterID = Some (routes_read o);
  hi_replay : replay base (rows_of clusterID (sm_nodes (co_samples c))) = node_names (routes_read o);
  hi_time : ∀ ev, (clusterID, ev) ∈ sm_nodes (co_samples c) → (ne_OccurredAt ev ≤ at_)%Z;
}.
Lemma row_time ev at_ previous current : ev ∈ route_events at_ previous current → ne_OccurredAt (node_row ev) = truncate second at_.
Proof.
  unfold route_events. destruct (DiffRouteNodes previous current) as [d u].
  intros [(n & -> & _)%list_elem_of_fmap|(n & -> & _)%list_elem_of_fmap]%elem_of_app; done.
Qed.
Lemma event_name ev at_ previous current : ev ∈ route_events at_ previous current → TrimSpace (ne_NodeName ev) = ne_NodeName ev.
Proof.
  unfold route_events, DiffRouteNodes. cbn.
  intros [(n & -> & Hn)%list_elem_of_fmap|(n & -> & Hn)%list_elem_of_fmap]%elem_of_app; unfold SortStrings in Hn; rewrite merge_sort_Permutation in Hn.
  - apply elem_of_elements, elem_of_difference in Hn as [Hn _]. apply elem_of_list_to_set, list_elem_of_omap in Hn as (s & _ & [-> _]%nonempty_trimmed_Some).
    apply TrimSpace_idemp.
  - apply elem_of_filter_list in Hn as [Hn _]. apply list_elem_of_omap in Hn as (s & _ & [-> _]%nonempty_trimmed_Some). apply TrimSpace_idemp.
Qed.
Lemma replay_rows base evs : (∀ ev, ev ∈ evs → TrimSpace (ne_NodeName ev) = ne_NodeName ev) → replay base (node_row <$> evs) = replay base evs.
Proof.
  unfold replay. revert base. induction evs as [|ev evs IH]; intros base Ht; [done|]. cbn [fmap list_fmap foldl].
  rewrite IH by (intros; apply Ht; by right). f_equal. unfold replay_event, node_row. cbn. by rewrite Ht by (by left).
Qed.

Lemma history_step clusterID base at_ o at' o' c : tables_up clusterID c → history_ok clusterID base at_ o c → (at_ < truncate second at')%Z →
  history_ok clusterID base (truncate second at') o' (routes_after clusterID at' (routes_read o') c).
Proof.
  intros Hup [Hl Hr Ht] Hlt. unfold routes_after. rewrite Hl. set (evs := route_events at' (routes_read o) (routes_read o')).
  assert (E : foldl (add_node clusterID) (sm_nodes (co_samples c)) evs = sm_nodes (co_samples c) ++ ((λ ev, (clusterID, node_row ev)) <$> evs)).
  { apply add_nodes; [apply change_rows_NoDup|]. intros ev Hin Hrow. apply Ht in Hrow. rewrite (row_time _ _ _ _ Hin) in Hrow. lia. }
  assert (Es : (λ ev, (clusterID, node_row ev)) <$> evs = (λ ev, (clusterID, ev)) <$> (node_row <$> evs)) by (by rewrite <- list_fmap_compose).
  split; cbn [co_lastRoutes co_samples set_lastRoutes sm_nodes set_nodes].
  - by rewrite lookup_insert_eq.
  - rewrite E, Es, rows_of_app, rows_of_same. unfold replay. rewrite foldl_app. change (replay (replay base (rows_of clusterID (sm_nodes (co_samples c)))) (node_row <$> evs) = node_names (routes_read o')).
    rewrite Hr, replay_rows by (intros ev; apply event_name). apply replay_change.
  - intros ev Hin. rewrite E in Hin. apply elem_of_app in Hin as [Hin|(ev' & [= ->] & Hin)%list_elem_of_fmap]; [apply Ht in Hin; lia|].
    by rewrite (row_time _ _ _ _ Hin).
Qed.
Lemma history_other clusterID other base at_ o at' o' c : other ≠ clusterID → history_ok clusterID base at_ o c →
  history_ok clusterID base at_ o (routes_after other at' (routes_read o') c).
Proof.
  intros Hne [Hl Hr Ht]. unfold routes_after. destruct (co_lastRoutes c !! other) as [previous|].
  - split; cbn [co_lastRoutes co_samples sm_nodes set_nodes set_lastRoutes]; [by rewrite lookup_insert_ne|by rewrite add_nodes_other|]. intros ev Hin. apply Ht. revert Hin.
    generalize (sm_nodes (co_samples c)). induction (route_events at' previous (routes_read o')) as [|e evs IH]; intros rows; [done|]. cbn [foldl].
    intros Hin%IH. unfold add_node in Hin. destruct (bool_decide _); [done|]. by apply elem_of_app in Hin as [Hin|[= ? _]%list_elem_of_singleton].
  - split; cbn; [by rewrite lookup_insert_ne|done..].
Qed.
Lemma routes_after_up clusterID other at_ current c : tables_up clusterID c → tables_up clusterID (routes_after other at_ current c).
Proof. unfold routes_after. by destruct (co_lastRoutes c !! other). Qed.

(** The scrapes of the clusters, in order: the cluster, the time, what /routez answered. *)
Abbreviation route_scrape := (string * Z * option routezPayload)%type.
Fixpoint scrape_routes (l : list route_scrape) : CoM unit :=
  match l with
  | [] => ret tt
  | x :: l => persistRouteTransitions x.1.1 x.1.2 (routes_read x.2) ;; scrape_routes l
  end.
Definition of_cluster (clusterID : string) (l : list route_scrape) : list route_scrape := List.filter (λ x, x.1.1 =s clusterID) l.
Definition times (l : list route_scrape) : list Z := (λ x : route_scrape, truncate second x.1.2) <$> l.
Definition last_routes (first : option routezPayload) (l : list route_scrape) : option routezPayload :=
  match last l with Some x => x.2 | None => first end.
Lemma scrapes_history clusterID base l : ∀ at_ o c, tables_up clusterID c → Forall (λ x, tables_up x.1.1 c) l →
  history_ok clusterID base at_ o c → StronglySorted Z.lt (at_ :: times (of_cluster clusterID l)) →
  ∃ at', history_ok clusterID base at' (last_routes o (of_cluster clusterID l)) (snd (scrape_routes l c)).
Proof.
  induction l as [|[[other at'] o'] l IH]; intros at_ o c Hup Hall Hok Hs; [by exists at_|].
  apply Forall_cons in Hall as [Hother Hall]. cbn [scrape_routes fst snd]. unfold bind. rewrite persist_run. rewrite persist_after by done.
  set (c1 := routes_after other at' (routes_read o') c).
  assert (Hup1 : ∀ k, tables_up k c → tables_up k c1) by (intros k; apply routes_after_up).
  assert (Hall1 : Forall (λ x, tables_up x.1.1 c1) l) by (eapply Forall_impl; [exact Hall|intros x; apply Hup1]).
  unfold of_cluster in *. cbn [List.filter fst snd] in *. destruct (other =s clusterID) eqn:E.
  - apply bool_decide_eq_true in E as ->. cbn [times fmap list_fmap fst snd] in Hs. apply StronglySorted_inv in Hs as [Hs Hlt].
    apply Forall_cons in Hlt as [Hlt _].
    destruct (IH (truncate second at') o' c1 (Hup1 _ Hup) Hall1 (history_step _ _ _ _ _ _ _ Hup Hok Hlt) Hs) as [at2 Hh].
    exists at2. unfold last_routes in *. rewrite last_cons. by destruct (last _).
  - apply bool_decide_eq_false in E. apply (IH at_ o c1); [by apply Hup1|done|by apply history_other|done].
Qed.

(** C36. The scrapes of a cluster from the first on, among those of other clusters: a reader
    who starts from the routes of the first scrape and follows the events that were
    stored arrives at the routes of the last.  The scrapes of a cluster are in different
    seconds. *)
Theorem route_history_replays clusterID at_ first l c :
  tables_up clusterID c → Forall (λ x, tables_up x.1.1 c) l →
  co_lastRoutes c !! clusterID = None → rows_of clusterID (sm_nodes (co_samples c)) = [] →
  StronglySorted Z.lt (truncate second at_ :: times (of_cluster clusterID l)) →
  let c' := snd (scrape_routes ((clusterID, at_, first) :: l) c) in
  replay (node_names (routes_read first)) (rows_of clusterID (sm_nodes (co_samples c'))) =
    node_names (routes_read (last_routes first (of_cluster clusterID l))) ∧
  co_lastRoutes c' !! clusterID = Some (routes_read (last_routes first (of_cluster clusterID l))).
Proof.
  intros Hup Hall Hnone Hrows Hs c'. subst c'. cbn [scrape_routes fst snd]. unfold bind. rewrite persist_run. rewrite persist_after by done.
  set (c1 := routes_after clusterID at_ (routes_read first) c).
  assert (Hup1 : ∀ k, tables_up k c → tables_up k c1) by (intros k; apply routes_after_up).
  destruct (scrapes_history clusterID (node_names (routes_read first)) l (truncate second at_) first c1) as (at2 & [H1 H2 _]); [by apply Hup1| | |done|done].
  - eapply Forall_impl; [exact Hall|intros x; apply Hup1].
  - subst c1. unfold routes_after. rewrite Hnone. split; cbn [co_lastRoutes co_samples set_lastRoutes]; [by rewrite lookup_insert_eq|by rewrite Hrows|].
    intros ev Hin. exfalso. assert (Hr : ev ∈ rows_of clusterID (sm_nodes (co_samples c))).
    { apply list_elem_of_fmap. exists (clusterID, ev). split; [done|]. apply elem_of_filter_list. split; [done|]. by apply bool_decide_eq_true. }
    rewrite Hrows in Hr. by apply not_elem_of_nil in Hr.
Qed.

(** Where /routez cannot be read for one scrape, the events say that every node was
    lost, and came back. *)
Definition three_nodes : option routezPayload := Some (mkRoutez "n1" [mkRoute "" "n2" ""; mkRoute "" "n3" ""]).
Definition one_outage : list route_scrape := [("c1", 60 * second, None); ("c1", 120 * second, three_nodes)]%Z.
Lemma route_history_replays_witness :
  replay {[ "n1"; "n2"; "n3" ]} (rows_of "c1" (sm_nodes (co_samples (snd (scrape_routes (("c1", 0%Z, three_nodes) :: one_outage) fresh_collector))))) =
    {[ "n1"; "n2"; "n3" ]}.
Proof.
  pose proof (route_history_replays "c1" 0 three_nodes one_outage fresh_collector) as Hw. destruct Hw as [Hw _].
  - split; [done|by left].
  - repeat constructor.
  - done.
  - done.
  - repeat constructor.
  - exact Hw.
Defined.
Lemma unread_routes_look_lost :
  (λ ev, (ne_OccurredAt ev, ne_NodeName ev, ne_EventType ev)) <$>
    rows_of "c1" (sm_nodes (co_samples (snd (scrape_routes (("c1", 0%Z, three_nodes) :: one_outage) fresh_collector)))) =
  [(60 * second, "n1", "disconnect"); (60 * second, "n2", "disconnect"); (60 * second, "n3", "disconnect");
   (120 * second, "n1", "reconnect"); (120 * second, "n2", "reconnect"); (120 * second, "n3", "reconnect")]%Z.
Proof. by vm_compute. Qed.
