(* ===== verification/Retention.v ===== *)
(** Cleaning up: what is older than the retention goes, nothing else does, and the
    partitions the next scrapes need are there. *)

From S2P Require Export CollectorFacts.
From S2P Require Import GoStrings.

(** * Partitions of the days to come *)

(** Rows are as they were, and no partition is lost. *)
Record more_partitions (t t' : SampleTables) : Prop := {
  mp_up : sm_up t' = sm_up t;
  mp_clusters : sm_clusters t' = sm_clusters t;
  mp_metrics : sm_metrics t' = sm_metrics t;
  mp_consumers : sm_consumers t' = sm_consumers t;
  mp_nodes : sm_nodes t' = sm_nodes t;
  mp_annotations : sm_annotations t' = sm_annotations t;
  mp_audit : sm_audit t' = sm_audit t;
  mp_buckets : sm_buckets t' = sm_buckets t;
  mp_sub : sm_parts t ⊆ sm_parts t';
  mp_ok : ∀ horizon, parts_ok horizon t → parts_ok horizon t';
}.
#[export] Instance more_partitions_preorder : PreOrder more_partitions.
Proof. split; [by split|]. intros a b c [] []. split; [congruence..|set_solver|auto]. Qed.
Lemma with_partition_more parent d t : more_partitions t (with_partition parent d t).
Proof.
  destruct (with_partition_same parent d t) as (H1 & H2 & H3 & H4 & H5 & H6 & H7 & H8 & H9). split; [done..|]. intros h. apply with_partition_ok.
Qed.

Lemma ensure_days_run horizon n : ∀ d t, sm_up t = true → parts_ok horizon t →
  ∃ t', ensure_days n d t = (Ok tt, t') ∧ more_partitions t t' ∧
    ∀ i, (0 ≤ i < Z.of_nat n)%Z → (horizon < (day_of d + i + 1) * day_ns)%Z →
      (metricSamplesParent, day_of d + i)%Z ∈ sm_parts t' ∧ (incidentSamplesParent, day_of d + i)%Z ∈ sm_parts t'.
Proof.
  induction n as [|n IH]; intros d t Hup Hok; [exists t; split_and!; [done..|lia]|]. cbn [ensure_days]. unfold bind. rewrite ensure_run by done.
  set (t1 := with_partition metricSamplesParent (day_of d) t). pose proof (with_partition_more metricSamplesParent (day_of d) t) as M1. fold t1 in M1.
  rewrite ensure_run by (by rewrite (mp_up _ _ M1)). set (t2 := with_partition incidentSamplesParent (day_of d) t1).
  pose proof (with_partition_more incidentSamplesParent (day_of d) t1) as M2. fold t2 in M2.
  assert (Ok1 : parts_ok horizon t1) by (by apply M1). assert (Ok2 : parts_ok horizon t2) by (by apply M2).
  destruct (IH (d + day_ns)%Z t2) as (t' & -> & M3 & Hday); [by rewrite (mp_up _ _ M2), (mp_up _ _ M1)|done|].
  exists t'. split_and!; [done|by etrans; [exact M1|etrans]|]. intros i Hi Hh.
  assert (Ed : day_of (d + day_ns) = (day_of d + 1)%Z) by (unfold day_of; rewrite <- (Z.mul_1_l day_ns) at 1; by apply Z.div_add).
  destruct (decide (i = 0%Z)) as [->|Hne].
  - rewrite Z.add_0_r in *. split; apply (mp_sub _ _ M3).
    + apply (mp_sub _ _ M2). by apply (with_partition_in horizon).
    + by apply (with_partition_in horizon).
  - specialize (Hday (i - 1)%Z). rewrite Ed in Hday. replace (day_of d + 1 + (i - 1))%Z with (day_of d + i)%Z in Hday by lia. apply Hday; lia.
Qed.

(** The days a process asks for: from the oldest that is kept to the day after tomorrow. *)
Lemma ensure_partitions_run horizon now retention t : sm_up t = true → parts_ok horizon t → (horizon ≤ now - retention)%Z → (0 < retention)%Z →
  ∃ t', EnsureSamplePartitions now retention t = (Ok tt, t') ∧ more_partitions t t' ∧
    ∀ d, (day_of (now - retention) ≤ d ≤ day_of now + 2)%Z → (metricSamplesParent, d) ∈ sm_parts t' ∧ (incidentSamplesParent, d) ∈ sm_parts t'.
Proof.
  intros Hup Hok Hh Hr. unfold EnsureSamplePartitions. destruct (Z.leb_spec retention 0); [lia|].
  assert (Hcount : ((truncate day_ns now + samplePartitionForwardDays * day_ns - truncate day_ns (now - retention)) / day_ns)%Z =
                   (day_of now + 2 - day_of (now - retention))%Z).
  { unfold truncate, samplePartitionForwardDays, day_of. rewrite <- Z.mul_add_distr_r, <- Z.mul_sub_distr_r. by apply Z.div_mul. }
  rewrite Hcount.
  destruct (ensure_days_run horizon (Z.to_nat (day_of now + 2 - day_of (now - retention) + 1)) (truncate day_ns (now - retention)) t Hup Hok) as (t' & E & M & Hday).
  exists t'. split_and!; [exact E|done|]. intros d Hd.
  assert (E0 : day_of (truncate day_ns (now - retention)) = day_of (now - retention)) by (unfold day_of, truncate; by rewrite Z.div_mul).
  specialize (Hday (d - day_of (now - retention))%Z). rewrite E0 in Hday. replace (day_of (now - retention) + (d - day_of (now - retention)))%Z with d in Hday by lia.
  apply Hday; [lia|]. revert Hd Hh Hr. unfold day_of, day_ns, hour, minute, second. intros. Z.to_euclidean_division_equations. lia.
Qed.

(** * Partitions dropped *)

(** The day of [at_] had ended by [cutoff]. *)
Definition ended (cutoff at_ : Z) : bool := Z.leb ((day_of at_ + 1) * day_ns) cutoff.
Definition drop_metrics (cutoff : Z) (t : SampleTables) : SampleTables := snd (dropParentPartitionsOlderThan metricSamplesParent cutoff t).
Definition drop_consumers (cutoff : Z) (t : SampleTables) : SampleTables := snd (dropParentPartitionsOlderThan incidentSamplesParent cutoff t).
Lemma drop_run parent cutoff t : sm_up t = true →
  ∃ n, dropParentPartitionsOlderThan parent cutoff t = (Ok n, snd (dropParentPartitionsOlderThan parent cutoff t)).
Proof. intros Hup. unfold dropParentPartitionsOlderThan, samples_online, bind, get, ensure. cbn. rewrite Hup. cbn. destruct (parent =s _); eexists; reflexivity. Qed.

(** What is left when the partitions of one table are dropped. *)
Record dropped (parent : string) (cutoff : Z) (t t' : SampleTables) : Prop := {
  dr_up : sm_up t' = sm_up t;
  dr_clusters : sm_clusters t' = sm_clusters t;
  dr_metrics : ∀ k, sm_metrics t' !! k = if (parent =s metricSamplesParent) && ended cutoff k.1.2 then None else sm_metrics t !! k;
  dr_consumers : ∀ k, sm_consumers t' !! k = if negb (parent =s metricSamplesParent) && ended cutoff k.1.2 then None else sm_consumers t !! k;
  dr_parts : ∀ p d, (p, d) ∈ sm_parts t' ↔ (p, d) ∈ sm_parts t ∧ (p = parent → (cutoff < (d + 1) * day_ns)%Z);
  dr_ensured : sm_ensured t' = sm_ensured t;
  dr_nodes : sm_nodes t' = sm_nodes t;
  dr_annotations : sm_annotations t' = sm_annotations t;
  dr_audit : sm_audit t' = sm_audit t;
  dr_buckets : sm_buckets t' = sm_buckets t;
}.
Lemma expired_false parent cutoff p d : expired parent cutoff (p, d) = false ↔ (p = parent → (cutoff < (d + 1) * day_ns)%Z).
Proof.
  unfold expired. cbn [fst snd]. rewrite andb_false_iff, Z.leb_gt. split.
  - intros [H%bool_decide_eq_false|H]; [by intros ->|done].
  - intros H. destruct (decide (p = parent)) as [->|Hne]; [right; by apply H|left; by apply bool_decide_eq_false].
Qed.
(** The rows of a table, of which a part is dropped with its partitions. *)
Lemma dropped_rows {K V : Type} `{Countable K} (parent : string) (cutoff : Z) (parts : gset (string * Z)) (day : K → Z) (m : gmap K V) (k : K) :
  (∀ k v, m !! k = Some v → (parent, day k) ∈ parts) →
  filter (λ kv : K * V, bool_decide ((parent, day kv.1) ∈ parts) && expired parent cutoff (parent, day kv.1) = false) m !! k =
    if Z.leb ((day k + 1) * day_ns) cutoff then None else m !! k.
Proof.
  intros Hin. assert (E : expired parent cutoff (parent, day k) = Z.leb ((day k + 1) * day_ns) cutoff)
    by (unfold expired; cbn; by rewrite bool_decide_eq_true_2). rewrite map_lookup_filter. destruct (m !! k) as [v|] eqn:Ev; cbn; [|by destruct (Z.leb _ _)].
  rewrite E. rewrite bool_decide_eq_true_2 by (by eapply Hin). cbn. by destruct (Z.leb _ _); cbn; [rewrite option_guard_False|rewrite option_guard_True].
Qed.
Lemma drop_metrics_spec horizon cutoff t : sm_up t = true → parts_ok horizon t → dropped metricSamplesParent cutoff t (drop_metrics cutoff t).
Proof.
  intros Hup [Hm _ _]. unfold drop_metrics, dropParentPartitionsOlderThan, samples_online, bind, get, ensure. cbn. rewrite Hup.
  rewrite (bool_decide_eq_true_2 (metricSamplesParent = _)) by done. cbn.
  split; rewrite ?(bool_decide_eq_true_2 (metricSamplesParent = metricSamplesParent)) by done; cbn; try done.
  - intros k. apply (dropped_rows metricSamplesParent cutoff (sm_parts t) (λ k, day_of k.1.2)). intros [[c a] m] v. apply Hm.
  - intros p d. rewrite elem_of_filter, expired_false. tauto.
Qed.
Lemma drop_consumers_spec horizon cutoff t : sm_up t = true → parts_ok horizon t → dropped incidentSamplesParent cutoff t (drop_consumers cutoff t).
Proof.
  intros Hup [_ Hc _]. unfold drop_consumers, dropParentPartitionsOlderThan, samples_online, bind, get, ensure. cbn. rewrite Hup.
  rewrite (bool_decide_eq_false_2 (incidentSamplesParent = _)) by done. cbn.
  split; rewrite ?(bool_decide_eq_false_2 (incidentSamplesParent = metricSamplesParent)) by done; cbn; try done.
  - intros k. apply (dropped_rows incidentSamplesParent cutoff (sm_parts t) (λ k, day_of k.1.2)). intros [[c a] m] v. apply Hc.
  - intros p d. rewrite elem_of_filter, expired_false. tauto.
Qed.
Lemma dropped_ok parent horizon cutoff t t' : parent = metricSamplesParent ∨ parent = incidentSamplesParent → (horizon ≤ cutoff)%Z →
  parts_ok horizon t → dropped parent cutoff t t' → parts_ok cutoff t'.
Proof.
  intros Hp Hh [Hm Hc He] D. split.
  - intros c a m v Hv. rewrite (dr_metrics _ _ _ _ D) in Hv. apply (dr_parts _ _ _ _ D). destruct ((parent =s metricSamplesParent) && ended cutoff (c, a, m).1.2) eqn:E; [done|].
    split; [by eapply Hm|]. intros <-. rewrite bool_decide_eq_true_2 in E by done. apply Z.leb_gt in E. exact E.
  - intros c a m v Hv. rewrite (dr_consumers _ _ _ _ D) in Hv. apply (dr_parts _ _ _ _ D). destruct (negb (parent =s metricSamplesParent) && ended cutoff (c, a, m).1.2) eqn:E; [done|].
    split; [by eapply Hc|]. intros <-. rewrite bool_decide_eq_false_2 in E by done. apply Z.leb_gt in E. exact E.
  - intros p d Hin. rewrite (dr_ensured _ _ _ _ D) in Hin. destruct (He _ _ Hin) as [Hd|Hd]; [|right; lia].
    destruct (decide (cutoff < (d + 1) * day_ns)%Z); [left; apply (dr_parts _ _ _ _ D); auto|right; lia].
Qed.

(** * Cleaning up *)

(** The rows that carry a time, from [cutoff] on. *)
Definition young {A} (at_ : A → Z) (cutoff : Z) (l : list A) : list A := List.filter (λ a, Z.leb cutoff (at_ a)) l.
Lemma young_eq {A} (at_ : A → Z) cutoff (l : list A) : List.filter (λ a, negb (Z.ltb (at_ a) cutoff)) l = young at_ cutoff l.
Proof. unfold young. induction l as [|a l IH]; [done|]. cbn. rewrite IH, Z.leb_antisym. done. Qed.
Lemma young_lookup {K V : Type} `{Countable K} (at_ : K * V → Z) (cutoff : Z) (m : gmap K V) (k : K) (v : V) :
  filter (λ kv, Z.ltb (at_ kv) cutoff = false) m !! k = Some v ↔ m !! k = Some v ∧ (cutoff ≤ at_ (k, v))%Z.
Proof. rewrite map_lookup_filter_Some. by rewrite Z.ltb_ge. Qed.

Definition rollup_retention (d : Z) : Z := if Z.leb d 0 then (672 * hour)%Z else d.
(** What each of the deletions leaves of the tables of samples. *)
Definition delete_incidents (cutoff : Z) (t : SampleTables) : SampleTables := snd (DeleteIncidentDataOlderThan cutoff t).
Definition delete_audit (cutoff : Z) (t : SampleTables) : SampleTables := snd (DeleteAuditOlderThan cutoff t).
Definition delete_buckets (cutoff : Z) (t : SampleTables) : SampleTables := snd (DeleteBottleneckHourBucketsOlderThan cutoff t).
Lemma counted_run m c : counted m c = (Ok (match fst (m c) with Ok n => n | Err _ => 0%Z end), snd (m c)).
Proof. unfold counted, bind, attempt, ret. by destruct (m c). Qed.
Lemma on_samples_run {A} (m : SaM A) c : snd (on_samples m c) =
  mkCollector (snd (m (co_samples c))) (co_world c) (co_scores c) (co_hub c) (co_lastRoutes c) (co_lastStream c) (co_fpCache c).
Proof. unfold on_samples. by destruct (m (co_samples c)). Qed.
Lemma on_world_keeps {A} (m : AM A) (k : A → CoM Z) c : (∀ a c, snd (k a c) = c) → co_samples (snd (bind (on_world m) k c)) = co_samples c.
Proof. intros Hk. unfold bind, on_world. destruct (m (co_world c)) as [[a|e] w]; [by rewrite Hk|done]. Qed.
Lemma on_scores_keeps {A} (m : ScM A) c : co_samples (snd (on_scores m c)) = co_samples c.
Proof. unfold on_scores. by destruct (m (co_scores c)). Qed.

Lemma cleanup_run now retention bottleneckRetention c t1 : (0 < retention)%Z → sm_up t1 = true →
  EnsureSamplePartitions now retention (co_samples c) = (Ok tt, t1) →
  let cutoff := (now - retention)%Z in
  co_samples (snd (cleanup now retention bottleneckRetention c)) =
    delete_buckets (now - rollup_retention bottleneckRetention) (delete_audit cutoff (delete_incidents cutoff (drop_metrics cutoff t1))).
Proof.
  intros Hr Hup He cutoff. unfold cleanup. destruct (Z.leb_spec retention 0); [lia|]. unfold bind at 1. rewrite logged_ok, on_samples_run, He. cbn [snd].
  fold cutoff. unfold bind at 1, attempt at 1, on_samples at 1. cbn [co_samples]. destruct (drop_run metricSamplesParent cutoff t1 Hup) as [n E].
  unfold DeleteMetricSamplesOlderThan. rewrite E. fold (drop_metrics cutoff t1).
  unfold bind at 1. rewrite counted_run, on_samples_run. cbn [co_samples]. fold (delete_incidents cutoff (drop_metrics cutoff t1)).
  unfold bind at 1. rewrite counted_run, on_samples_run. cbn [co_samples]. fold (delete_audit cutoff (delete_incidents cutoff (drop_metrics cutoff t1))).
  unfold bind at 1. rewrite counted_run. match goal with |- context [snd (bind (on_world ?m) ?k ?c2)] => pose proof (on_world_keeps m k c2) as Hw;
    set (c3 := snd (bind (on_world m) k c2)) in * end. cbn [co_samples] in Hw.
  unfold bind at 1. rewrite counted_run, on_samples_run. rewrite Hw by done. fold (rollup_retention bottleneckRetention).
  unfold bind at 1. rewrite counted_run. cbn [snd ret]. unfold ret. cbn [snd]. by rewrite on_scores_keeps.
Qed.
Lemma delete_incidents_run cutoff t : sm_up t = true → delete_incidents cutoff t =
  set_annotations (filter (λ kv, Z.ltb (ia_OccurredAt kv.2) cutoff = false)) (set_nodes (young (λ r, ne_OccurredAt r.2) cutoff) (drop_consumers cutoff t)).
Proof.
  intros Hup. unfold delete_incidents, DeleteIncidentDataOlderThan, bind. destruct (drop_run incidentSamplesParent cutoff t Hup) as [n ->].
  unfold get, modify, ret. cbn [snd]. fold (drop_consumers cutoff t). f_equal. unfold set_nodes. f_equal.
  by rewrite (young_eq (λ r : string * IncidentNodeEvent, ne_OccurredAt r.2)).
Qed.
Lemma delete_audit_run cutoff t : sm_up t = true → delete_audit cutoff t = set_audit (young (λ r, iu_Timestamp r.2) cutoff) t.
Proof.
  intros Hup. unfold delete_audit, DeleteAuditOlderThan, samples_online, bind, get, ensure. rewrite Hup. cbn. unfold set_audit. f_equal.
  by rewrite (young_eq (λ r : string * IncidentAuditChange, iu_Timestamp r.2)).
Qed.
Lemma delete_buckets_run cutoff t : sm_up t = true → delete_buckets cutoff t = set_buckets (filter (λ kv, Z.ltb kv.1.2 cutoff = false)) t.
Proof. intros Hup. unfold delete_buckets, DeleteBottleneckHourBucketsOlderThan, samples_online, bind, get, ensure. by rewrite Hup. Qed.
Lemma parts_ok_same horizon t t' : sm_metrics t' = sm_metrics t → sm_consumers t' = sm_consumers t → sm_parts t' = sm_parts t → sm_ensured t' = sm_ensured t →
  parts_ok horizon t → parts_ok horizon t'.
Proof. intros Em Ec Ep Ee [H1 H2 H3]. split; rewrite ?Em, ?Ec, ?Ep, ?Ee; done. Qed.

(** C37. Cleaning up, when the tables answer.  Samples go with the day they are in once all
    of it is older than the retention, and not before; events, annotations and log
    entries go when they are older than it, rollups when they are older than their own;
    everything else stays as it was.  The partitions of the days that are kept, of today
    and of the next two days are there. *)
Theorem cleanup_keeps_the_young horizon now retention bottleneckRetention c :
  sm_up (co_samples c) = true → (0 < retention)%Z → parts_ok horizon (co_samples c) → (horizon ≤ now - retention)%Z →
  let cutoff := (now - retention)%Z in
  let t := co_samples c in
  let t' := co_samples (snd (cleanup now retention bottleneckRetention c)) in
  parts_ok cutoff t' ∧
  (∀ d, (day_of cutoff ≤ d ≤ day_of now + 2)%Z → (metricSamplesParent, d) ∈ sm_parts t' ∧ (incidentSamplesParent, d) ∈ sm_parts t') ∧
  (∀ k, sm_metrics t' !! k = if ended cutoff k.1.2 then None else sm_metrics t !! k) ∧
  (∀ k, sm_consumers t' !! k = if ended cutoff k.1.2 then None else sm_consumers t !! k) ∧
  sm_nodes t' = young (λ r, ne_OccurredAt r.2) cutoff (sm_nodes t) ∧
  (∀ id a, sm_annotations t' !! id = Some a ↔ sm_annotations t !! id = Some a ∧ (cutoff ≤ ia_OccurredAt a)%Z) ∧
  sm_audit t' = young (λ r, iu_Timestamp r.2) cutoff (sm_audit t) ∧
  (∀ k b, sm_buckets t' !! k = Some b ↔ sm_buckets t !! k = Some b ∧ (now - rollup_retention bottleneckRetention ≤ k.2)%Z).
Proof.
  intros Hup Hr Hok Hh cutoff t t'. destruct (ensure_partitions_run horizon now retention t Hup Hok Hh Hr) as (t1 & He & [Mu _ Mm Mc Mn Ma Md Mb _ Mok] & Hdays).
  assert (Hup1 : sm_up t1 = true) by (by rewrite Mu). specialize (Mok _ Hok).
  pose proof (drop_metrics_spec horizon cutoff t1 Hup1 Mok) as D1. set (t2 := drop_metrics cutoff t1) in *.
  assert (Ok2 : parts_ok cutoff t2) by (eapply dropped_ok; [by left|exact Hh|exact Mok|exact D1]).
  assert (Hup2 : sm_up t2 = true) by (by rewrite (dr_up _ _ _ _ D1)).
  pose proof (drop_consumers_spec cutoff cutoff t2 Hup2 Ok2) as D2. set (t3 := drop_consumers cutoff t2) in *.
  assert (Ok3 : parts_ok cutoff t3) by (eapply dropped_ok; [by right|reflexivity|exact Ok2|exact D2]).
  assert (Hup3 : sm_up t3 = true) by (by rewrite (dr_up _ _ _ _ D2)).
  assert (E : t' = set_buckets (filter (λ kv, Z.ltb kv.1.2 (now - rollup_retention bottleneckRetention) = false))
                     (set_audit (young (λ r, iu_Timestamp r.2) cutoff)
                       (set_annotations (filter (λ kv, Z.ltb (ia_OccurredAt kv.2) cutoff = false)) (set_nodes (young (λ r, ne_OccurredAt r.2) cutoff) t3)))).
  { subst t'. rewrite (cleanup_run now retention bottleneckRetention c t1 Hr Hup1 He). fold cutoff t2. rewrite delete_incidents_run by done. fold t3.
    rewrite delete_audit_run, delete_buckets_run by done. done. }
  rewrite E. cbn [sm_metrics sm_consumers sm_parts sm_nodes sm_annotations sm_audit sm_buckets set_nodes set_annotations set_audit set_buckets].
  assert (Hm3 : ∀ k, sm_metrics t3 !! k = if ended cutoff k.1.2 then None else sm_metrics t !! k).
  { intros k. rewrite (dr_metrics _ _ _ _ D2), (bool_decide_eq_false_2 (_ = _)) by done. cbn [andb]. rewrite (dr_metrics _ _ _ _ D1), (bool_decide_eq_true_2 (_ = _)) by done.
    cbn [andb]. by rewrite Mm. }
  assert (Hc3 : ∀ k, sm_consumers t3 !! k = if ended cutoff k.1.2 then None else sm_consumers t !! k).
  { intros k. rewrite (dr_consumers _ _ _ _ D2), (bool_decide_eq_false_2 (_ = _)) by done. cbn [negb andb]. rewrite (dr_consumers _ _ _ _ D1), (bool_decide_eq_true_2 (_ = _)) by done.
    cbn [negb andb]. by rewrite Mc. }
  split_and!; [by apply (parts_ok_same cutoff t3)| |exact Hm3|exact Hc3| | | |].
  - intros d Hd. specialize (Hdays d Hd). assert (Hlt : (cutoff < (d + 1) * day_ns)%Z).
    { revert Hd. unfold day_of, day_ns, hour, minute, second. intros. Z.to_euclidean_division_equations. lia. }
    split; apply (dr_parts _ _ _ _ D2); (split; [|by intros]); apply (dr_parts _ _ _ _ D1); (split; [apply Hdays|by intros]).
  - by rewrite (dr_nodes _ _ _ _ D2), (dr_nodes _ _ _ _ D1), Mn.
  - intros id a. rewrite young_lookup. by rewrite (dr_annotations _ _ _ _ D2), (dr_annotations _ _ _ _ D1), Ma.
  - by rewrite (dr_audit _ _ _ _ D2), (dr_audit _ _ _ _ D1), Md.
  - intros k b. rewrite young_lookup. by rewrite (dr_buckets _ _ _ _ D2), (dr_buckets _ _ _ _ D1), Mb.
Qed.

(** Two days of samples, of which the second is kept. *)
Definition two_days : SampleTables :=
  mkSamples true ["c1"] {[ (metricSamplesParent, 0%Z); (metricSamplesParent, 1%Z) ]} ∅
    {[ ("c1", 0%Z, "jsz.streams") := f64 1; ("c1", day_ns, "jsz.streams") := f64 2 ]} ∅ [] ∅ [] ∅.
Definition old_collector : Collector := mkCollector two_days quiet_world (mkScoreTables true ["c1"] ∅) NewHub ∅ ∅ ∅.
Lemma two_days_ok : parts_ok 0 two_days.
Proof.
  split; cbn; [|by intros ? ? ? ? ?%lookup_empty_Some|by intros ? ? ?%elem_of_empty]. intros c a m v Hv.
  apply lookup_insert_Some in Hv as [[[= <- <- <-] _]|[_ [[= <- <- <-] _]%lookup_singleton_Some]]; apply (bool_decide_eq_true_1 (_ ∈ _)); by vm_compute.
Qed.
Lemma cleanup_keeps_the_young_witness :
  let t' := co_samples (snd (cleanup (2 * day_ns)%Z day_ns 0 old_collector)) in
  sm_metrics t' !! ("c1", 0%Z, "jsz.streams") = None ∧ sm_metrics t' !! ("c1", day_ns, "jsz.streams") = Some (f64 2) ∧
  (metricSamplesParent, 4%Z) ∈ sm_parts t'.
Proof.
  pose proof (cleanup_keeps_the_young 0 (2 * day_ns)%Z day_ns 0 old_collector) as Hw. cbv zeta in Hw.
  destruct Hw as (_ & Hdays & Hm & _); [done|done|exact two_days_ok|by vm_compute|]. cbv zeta. rewrite !Hm. split_and!; [done|by vm_compute|].
  refine (proj1 (Hdays 4%Z _)). by vm_compute.
Defined.

Lemma drop_down cutoff t : sm_up t = false → DeleteMetricSamplesOlderThan cutoff t = (Err ErrDB, t).
Proof.
  intros Hup. unfold DeleteMetricSamplesOlderThan, dropParentPartitionsOlderThan, samples_online, get, ensure. unfold bind at 1. unfold bind at 1. by rewrite Hup.
Qed.
(** Where the samples cannot be cleaned up, nothing else is. *)
Lemma cleanup_stops now retention bottleneckRetention c : (0 < retention)%Z → sm_up (co_samples c) = false →
  co_world (snd (cleanup now retention bottleneckRetention c)) = co_world c ∧ co_scores (snd (cleanup now retention bottleneckRetention c)) = co_scores c.
Proof.
  intros Hr Hup. enough (E : ∃ t1, snd (cleanup now retention bottleneckRetention c) =
    mkCollector t1 (co_world c) (co_scores c) (co_hub c) (co_lastRoutes c) (co_lastStream c) (co_fpCache c)) by (by destruct E as [t1 ->]).
  unfold cleanup. destruct (Z.leb_spec retention 0); [lia|]. unfold bind at 1. rewrite logged_ok, on_samples_run. set (t1 := snd (EnsureSamplePartitions _ _ _)).
  assert (Hup1 : sm_up t1 = false).
  { subst t1. unfold EnsureSamplePartitions. set (n := Z.to_nat _). generalize (if (retention <=? 0)%Z then truncate day_ns now else truncate day_ns (now - retention)).
    generalize (co_samples c), Hup. clear. induction n as [|n IH]; intros t Hup d; [done|]. cbn [ensure_days].
    assert (Hk : ∀ p d t, sm_up t = false → sm_up (snd (ensureDayPartition p d t)) = false).
    { clear. intros p d t Hup. unfold ensureDayPartition, samples_online, bind, get, ensure. cbn. destruct (bool_decide _); [done|]. cbn. by rewrite Hup. }
    unfold bind. pose proof (Hk metricSamplesParent d t Hup) as H1. destruct (ensureDayPartition metricSamplesParent d t) as [[?|?] t1]; [|done].
    pose proof (Hk incidentSamplesParent d t1 H1) as H2. destruct (ensureDayPartition incidentSamplesParent d t1) as [[?|?] t2]; [|done]. by apply IH. }
  unfold bind at 1, attempt at 1, on_samples at 1. cbn [co_samples]. rewrite drop_down by done. by exists t1.
Qed.
