(* ===== verification/Rfc3339.v ===== *)
(** [time.Parse(time.RFC3339, s)] of package time: a date, a time of day with one or
    two digits for the hour and an optional fraction, and a zone.  What is written for
    an instant of whole seconds is read back as that instant. *)

From S2P Require Export Dates.
From Stdlib Require Import Ascii.

(** Readers take the text and leave the rest of it. *)
Definition reader (A : Type) := list ascii → option (A * list ascii).
Definition read_then {A B} (m : reader A) (k : A → reader B) : reader B := λ s,
  match m s with Some (a, s) => k a s | None => None end.
Definition read_done {A} (a : A) : reader A := λ s, Some (a, s).
(** A number that is in range. *)
Definition in_range (lo hi n : Z) : bool := Z.leb lo n && Z.leb n hi.
Definition guarded (b : bool) : reader unit := λ s, if b then Some (tt, s) else None.

Definition one_digit : reader Z := λ s,
  match s with a :: s => (λ n, (n, s)) <$> digit a | [] => None end.
Definition two_digits : reader Z := read_then one_digit (λ a, read_then one_digit (λ b, read_done (10 * a + b)%Z)).
(** [getnum(s, false)] *)
Definition one_or_two_digits : reader Z := λ s,
  match two_digits s with Some r => Some r | None => one_digit s end.
Definition literal (c : ascii) : reader unit := λ s,
  match s with a :: s => if Ascii.eqb a c then Some (tt, s) else None | [] => None end.
Definition year4 : reader Z := read_then two_digits (λ a, read_then two_digits (λ b, read_done (100 * a + b)%Z)).

(** Digits, as nanoseconds: what comes after the ninth does not count. *)
Fixpoint fraction (scale acc : Z) (s : list ascii) : Z * list ascii :=
  match s with
  | a :: s' => match digit a with Some n => fraction (scale / 10) (acc + n * scale) s' | None => (acc, s) end
  | [] => (acc, [])
  end.
Definition opt_fraction : reader Z := λ s,
  match s with
  | c :: a :: _ =>
      if (Ascii.eqb c "." || Ascii.eqb c ",") && bool_decide (is_Some (digit a)) then Some (fraction 100000000 0 (tail s))
      else Some (0%Z, s)
  | _ => Some (0%Z, s)
  end.
(** The offset from UTC in seconds. *)
Definition zone : reader Z := λ s,
  match s with
  | c :: s' =>
      if Ascii.eqb c "Z" then Some (0%Z, s')
      else if Ascii.eqb c "+" || Ascii.eqb c "-" then
        read_then two_digits (λ hr, read_then (literal ":") (λ _, read_then two_digits (λ mm,
          read_then (guarded (Z.leb hr 24 && Z.leb mm 60)) (λ _,
            let offset := ((hr * 60 + mm) * 60)%Z in read_done (if Ascii.eqb c "-" then (- offset)%Z else offset))))) s'
      else None
  | [] => None
  end.
Definition read_date : reader Z :=
  read_then year4 (λ y, read_then (literal "-") (λ _, read_then two_digits (λ m, read_then (literal "-") (λ _, read_then two_digits (λ d,
    read_then (guarded (valid_date y m d)) (λ _, read_done (days_of y m d))))))).
Definition read_clock : reader Z :=
  read_then one_or_two_digits (λ h, read_then (literal ":") (λ _, read_then two_digits (λ m, read_then (literal ":") (λ _, read_then two_digits (λ s,
    read_then (guarded (in_range 0 23 h && in_range 0 59 m && in_range 0 59 s)) (λ _,
      read_then opt_fraction (λ ns, read_done (h * hour + m * minute + s * second + ns)%Z))))))).
Definition ParseRFC3339 (s : string) : option Z :=
  match read_then read_date (λ days, read_then (literal "T") (λ _, read_then read_clock (λ clock, read_then zone (λ offset,
          read_done (days * day_ns + clock - offset * second)%Z)))) (bytes_of s) with
  | Some (t, []) => Some t
  | _ => None
  end.

(** The window of a query, [from] and [to], as the handlers read it: the last day, unless
    the query says otherwise. *)
Definition query_window (now : Z) (from to : string) : option (Z * Z) :=
  let given (raw : string) (dflt : Z) := if IsEmpty raw then Some dflt else ParseRFC3339 raw in
  match given from (now - 24 * hour)%Z, given to now with
  | Some from, Some to => if Z.ltb from to then Some (from, to) else None
  | _, _ => None
  end.

Example parse_epoch : ParseRFC3339 "1970-01-01T00:00:00Z" = Some 0%Z.
Proof. by vm_compute. Qed.
Example parse_zone : ParseRFC3339 "2024-02-29T9:30:00.25+01:30" = ParseRFC3339 "2024-02-29T08:00:00,25Z".
Proof. by vm_compute. Qed.
Example parse_refused : ParseRFC3339 <$> ["2023-02-29T00:00:00Z"; "2024-01-01T24:00:00Z"; "2024-01-01 00:00:00Z"; "2024-01-01T00:00:00"; ""] =
  [None; None; None; None; None].
Proof. by vm_compute. Qed.
