(* ===== verification/Incidents.v ===== *)
(** What happened to a consumer: internal/domain/incident_reconstruction.go over the
    tables of [Samples], with internal/app/incident.go and the handlers of
    internal/api/incident_reconstruction.go. *)

From S2P Require Export Samples Rfc3339.
From S2P Require Import Access Streams GoStrings.

(** [%.0f] *)
Definition format_whole (x : spec_float) : string :=
  match x with
  | S754_zero s => if s then "-0" else "0"
  | S754_finite s m e =>
      (if s then "-" else "") +:+ pretty (if Z.leb 0 e then (Zpos m * 2 ^ e)%Z else round_half_even (Zpos m) (2 ^ (- e)))
  | S754_infinity s => if s then "-Inf" else "+Inf"
  | S754_nan => "NaN"
  end.

Definition IncidentLagGrowthMinAbsolute : spec_float := f64 50.
Definition IncidentLagGrowthMinRatio : spec_float := fconst 1 4.
Definition IncidentRedeliverySpikeMinDelta : spec_float := f64 5.
Definition IncidentProcessingFlatSamples : nat := 2.

Inductive IncidentCategory := EventDeploy | EventChange | EventLagGrowth | EventRedeliverySpike | EventNodeDisconnect | EventProcessingStopped.
Definition category_text (c : IncidentCategory) : string :=
  match c with
  | EventDeploy => "deploy" | EventChange => "change" | EventLagGrowth => "lag_growth" | EventRedeliverySpike => "redelivery_spike"
  | EventNodeDisconnect => "node_disconnect" | EventProcessingStopped => "processing_stopped"
  end.
Record IncidentTimelineEvent := mkTimeline {
  te_At : Z;
  te_Category : IncidentCategory;
  te_Label : string;
  te_Source : string;
  te_Evidence : string;
}.
Record IncidentReconstruction := mkReconstruction {
  ir_ClusterID : string;
  ir_Stream : string;
  ir_Consumer : string;
  ir_From : Z;
  ir_To : Z;
  ir_Events : list IncidentTimelineEvent;
  ir_EventCount : nat;
  ir_UsedDeploy : bool;
  ir_UsedAudit : bool;
}.
Record IncidentReconstructionInput := mkIncidentInput {
  ii_ClusterID : string;
  ii_Stream : string;
  ii_Consumer : string;
  ii_From : Z;
  ii_To : Z;
  ii_Annotations : list IncidentAnnotation;
  ii_Samples : list IncidentConsumerSample;
  ii_NodeEvents : list IncidentNodeEvent;
  ii_Audit : list IncidentAuditChange;
}.

(** * Selecting *)

Definition IncidentAnnotationTypeDeploy : string := "deploy".
Definition is_deploy (a : IncidentAnnotation) : bool :=
  let typ := TrimSpace (ia_Type a) in (if IsEmpty typ then IncidentAnnotationTypeDeploy else typ) =s IncidentAnnotationTypeDeploy.
Definition filterDeployAnnotations (anns : list IncidentAnnotation) (from to : Z) : list IncidentAnnotation :=
  List.filter (λ a, is_deploy a && in_window from to (ia_OccurredAt a)) anns.
Definition filterAuditInWindow (items : list IncidentAuditChange) (from to : Z) : list IncidentAuditChange :=
  List.filter (λ a, in_window from to (iu_Timestamp a) && negb (IsEmpty (TrimSpace (iu_Action a)))) items.
Definition filterConsumerSamples (samples : list IncidentConsumerSample) (stream consumer : string) (from to : Z) : list IncidentConsumerSample :=
  let stream := TrimSpace stream in
  let consumer := TrimSpace consumer in
  List.filter (λ s, (IsEmpty stream || (ic_StreamName s =s stream)) && (IsEmpty consumer || (ic_ConsumerName s =s consumer)) &&
                    in_window from to (ic_CapturedAt s)) samples.
Definition formatAuditChangeLabel (a : IncidentAuditChange) : string :=
  let res := TrimSpace (TrimSpace (iu_ResourceType a +:+ " " +:+ iu_ResourceName a)) in
  let parts := (if IsEmpty (iu_Action a) then [] else [iu_Action a]) ++
               (if IsEmpty (iu_ResourceType a) && IsEmpty (iu_ResourceName a) then [] else [res]) in
  match parts with [] => "Change" | _ => Join parts " " end.

(** * Detection, in samples by time *)

(** The rest of an episode in which a value does not fall. *)
Fixpoint skip_rising (value : IncidentConsumerSample → spec_float) (cur : IncidentConsumerSample) (l : list IncidentConsumerSample) :
    IncidentConsumerSample * list IncidentConsumerSample :=
  match l with
  | next :: l' => if SFleb (value cur) (value next) then skip_rising value next l' else (cur, l)
  | [] => (cur, [])
  end.
(** From each pair of consecutive samples an event, if any; one of an episode.  [n] is
    at least the number of samples. *)
Fixpoint detect_rising (n : nat) (value : IncidentConsumerSample → spec_float)
    (event : IncidentConsumerSample → IncidentConsumerSample → option IncidentTimelineEvent)
    (prev : IncidentConsumerSample) (l : list IncidentConsumerSample) : list IncidentTimelineEvent :=
  match n, l with
  | S n, cur :: l =>
      match event prev cur with
      | None => detect_rising n value event cur l
      | Some e => let '(last, rest) := skip_rising value cur l in e :: detect_rising n value event last rest
      end
  | _, _ => []
  end.
Definition detect (value : IncidentConsumerSample → spec_float) (event : IncidentConsumerSample → IncidentConsumerSample → option IncidentTimelineEvent)
    (samples : list IncidentConsumerSample) : list IncidentTimelineEvent :=
  match samples with [] => [] | s :: l => detect_rising (length l) value event s l end.

Definition lag_event (prev cur : IncidentConsumerSample) : option IncidentTimelineEvent :=
  let delta := fsub (ic_Lag cur) (ic_Lag prev) in
  if SFltb delta IncidentLagGrowthMinAbsolute then None
  else
    let ratioOK := SFleb (ic_Lag prev) (f64 0) || SFleb IncidentLagGrowthMinRatio (fdiv delta (ic_Lag prev)) in
    if negb ratioOK && SFltb delta (fmul IncidentLagGrowthMinAbsolute (f64 2)) then None
    else Some (mkTimeline (ic_CapturedAt cur) EventLagGrowth "Consumer lag grows" "consumer_sample"
                 ("lag " +:+ format_whole (ic_Lag prev) +:+ " → " +:+ format_whole (ic_Lag cur))).
Definition detectLagGrowth : list IncidentConsumerSample → list IncidentTimelineEvent := detect ic_Lag lag_event.
Definition redelivery_event (prev cur : IncidentConsumerSample) : option IncidentTimelineEvent :=
  let delta := fsub (ic_NumRedelivered cur) (ic_NumRedelivered prev) in
  if SFltb delta IncidentRedeliverySpikeMinDelta then None
  else Some (mkTimeline (ic_CapturedAt cur) EventRedeliverySpike "Redeliveries spike" "consumer_sample"
               ("redelivered +" +:+ format_whole delta +:+ " (" +:+ format_whole (ic_NumRedelivered prev) +:+ " → " +:+ format_whole (ic_NumRedelivered cur) +:+ ")")).
Definition detectRedeliverySpike : list IncidentConsumerSample → list IncidentTimelineEvent := detect ic_NumRedelivered redelivery_event.

(** Neither delivered nor acknowledged anything, with messages waiting. *)
Definition is_flat (prev cur : IncidentConsumerSample) : bool :=
  SFeqb (ic_DeliveredSeq cur) (ic_DeliveredSeq prev) && SFeqb (ic_AckFloorSeq cur) (ic_AckFloorSeq prev) && SFltb (f64 0) (ic_Lag cur).
Definition stopped_event (cur : IncidentConsumerSample) : IncidentTimelineEvent :=
  mkTimeline (ic_CapturedAt cur) EventProcessingStopped "Processing stops" "consumer_sample"
    ("delivered/ack flat at " +:+ format_whole (ic_DeliveredSeq cur) +:+ "/" +:+ format_whole (ic_AckFloorSeq cur) +:+
     " with lag " +:+ format_whole (ic_Lag cur)).
Fixpoint detect_flat (flat : nat) (prev : IncidentConsumerSample) (l : list IncidentConsumerSample) : list IncidentTimelineEvent :=
  match l with
  | [] => []
  | cur :: l =>
      if is_flat prev cur then
        (if Nat.eqb (S flat) IncidentProcessingFlatSamples then [stopped_event cur] else []) ++ detect_flat (S flat) cur l
      else detect_flat 0 cur l
  end.
Definition detectProcessingStopped (samples : list IncidentConsumerSample) : list IncidentTimelineEvent :=
  if Nat.ltb (length samples) (IncidentProcessingFlatSamples + 1) then []
  else match samples with [] => [] | s :: l => detect_flat 0 s l end.

(** * The timeline *)

(** Category, second and label. *)
Definition timeline_key (e : IncidentTimelineEvent) : string * Z * string := (category_text (te_Category e), (te_At e / second)%Z, te_Label e).
Definition dedupeTimelineEvents (l : list IncidentTimelineEvent) : list IncidentTimelineEvent := first_by timeline_key [] l.
Definition timeline_le (a b : IncidentTimelineEvent) : bool :=
  if Z.eqb (te_At b) (te_At a) then String.leb (category_text (te_Category a)) (category_text (te_Category b))
  else negb (Z.ltb (te_At b) (te_At a)).

Definition deploy_event (a : IncidentAnnotation) : IncidentTimelineEvent :=
  let label := TrimSpace (ia_Title a) in
  mkTimeline (ia_OccurredAt a) EventDeploy (if IsEmpty label then "Deploy" else label) "annotation" (TrimSpace (ia_Details a)).
Definition change_event (a : IncidentAuditChange) : IncidentTimelineEvent :=
  mkTimeline (iu_Timestamp a) EventChange (formatAuditChangeLabel a) "audit" (TrimSpace (iu_Actor a)).
Definition disconnect_event (from to : Z) (n : IncidentNodeEvent) : option IncidentTimelineEvent :=
  if negb (ne_EventType n =s IncidentNodeDisconnect) then None
  else if negb (in_window from to (ne_OccurredAt n)) then None
  else
    let name := TrimSpace (ne_NodeName n) in
    Some (mkTimeline (ne_OccurredAt n) EventNodeDisconnect ((if IsEmpty name then "Node" else name) +:+ " disconnects") "routez" "node membership lost").
(** The samples in order of time; a consumer has one at a time. *)
Definition input_samples (inp : IncidentReconstructionInput) : list IncidentConsumerSample :=
  sort_stable sample_le (filterConsumerSamples (ii_Samples inp) (ii_Stream inp) (ii_Consumer inp) (ii_From inp) (ii_To inp)).
Definition change_events (inp : IncidentReconstructionInput) : list IncidentTimelineEvent :=
  match filterDeployAnnotations (ii_Annotations inp) (ii_From inp) (ii_To inp) with
  | [] => change_event <$> filterAuditInWindow (ii_Audit inp) (ii_From inp) (ii_To inp)
  | anns => deploy_event <$> anns
  end.
Definition all_events (inp : IncidentReconstructionInput) : list IncidentTimelineEvent :=
  let samples := input_samples inp in
  change_events inp ++ detectLagGrowth samples ++ detectRedeliverySpike samples ++ detectProcessingStopped samples ++
  omap (disconnect_event (ii_From inp) (ii_To inp)) (ii_NodeEvents inp).
Definition ComputeIncidentTimeline (inp : IncidentReconstructionInput) : IncidentReconstruction :=
  let deploys := filterDeployAnnotations (ii_Annotations inp) (ii_From inp) (ii_To inp) in
  let events := sort_stable timeline_le (dedupeTimelineEvents (all_events inp)) in
  mkReconstruction (ii_ClusterID inp) (ii_Stream inp) (ii_Consumer inp) (ii_From inp) (ii_To inp) events (length events)
    (Nat.ltb 0 (length deploys))
    (Nat.eqb (length deploys) 0 && Nat.ltb 0 (length (filterAuditInWindow (ii_Audit inp) (ii_From inp) (ii_To inp)))).

(** * internal/app/incident.go *)

Definition Reconstruction (clusterID stream consumer : string) (from to : Z) : SaM IncidentReconstruction :=
  let! annotations := ListIncidentAnnotations clusterID from to in
  let! samples := ListIncidentConsumerSamples clusterID stream consumer from to in
  let! nodeEvents := ListIncidentNodeEvents clusterID from to in
  let! audit := ListAuditInRange clusterID from to 200 in
  ret (ComputeIncidentTimeline (mkIncidentInput clusterID stream consumer from to annotations samples nodeEvents audit)).

(** * internal/api/incident_reconstruction.go *)

Inductive incident_data := IncidentNothing | IncidentAnnotated (a : IncidentAnnotation) | IncidentShown (r : IncidentReconstruction).
Record incident_answer := mkIncidentAnswer { ia_Status : Z; ia_Data : incident_data }.
Definition incident_refused (code : Z) : SaM incident_answer := ret (mkIncidentAnswer code IncidentNothing).
(** [body]: [None] if it does not decode. *)
Definition CreateAnnotation (id : string) (now : Z) (clusterID : string) (body : option IncidentAnnotationCreate) : SaM incident_answer :=
  if negb (ValidateUUID clusterID) then incident_refused 400
  else match body with
  | None => incident_refused 400
  | Some req =>
      if negb (Validate req) then incident_refused 400
      else
        let! r := attempt (InsertIncidentAnnotation id now clusterID req) in
        match r with
        | Ok ann => ret (mkIncidentAnswer 201 (IncidentAnnotated ann))
        | Err e => incident_refused (Session.api_status e)
        end
  end.
Definition GetReconstruction (now : Z) (clusterID stream consumer from to : string) : SaM incident_answer :=
  if negb (ValidateUUID clusterID) then incident_refused 400
  else if negb (ValidateResourceName stream) then incident_refused 400
  else if negb (ValidateResourceName consumer) then incident_refused 400
  else match query_window now from to with
  | None => incident_refused 400
  | Some (from, to) =>
      let! r := attempt (Reconstruction clusterID stream consumer from to) in
      match r with
      | Ok out => ret (mkIncidentAnswer 200 (IncidentShown out))
      | Err _ => incident_refused 502
      end
  end.
