(* ===== verification/IncidentFacts.v ===== *)
(** The timeline of an incident: what is on it, in which order, and that a deployment
    that was annotated appears. *)

From S2P Require Export Incidents.
From S2P Require Import Subjects GoStrings.
From S2P Require Access Streams.

(** * Episodes *)

Section Episodes.
Context (value : IncidentConsumerSample → spec_float).
Context (event : IncidentConsumerSample → IncidentConsumerSample → option IncidentTimelineEvent).
Implicit Types (s : IncidentConsumerSample) (l : list IncidentConsumerSample).

(** From the sample [i] to the next the value does not fall. *)
Definition rises l (i : nat) : Prop := ∃ a b, l !! i = Some a ∧ l !! S i = Some b ∧ SFleb (value a) (value b) = true.
Definition triggers l (i : nat) (e : IncidentTimelineEvent) : Prop := ∃ a b, l !! i = Some a ∧ l !! S i = Some b ∧ event a b = Some e.
(** The first event of an episode: since any earlier one the value fell. *)
Definition opens l (i : nat) (e : IncidentTimelineEvent) : Prop :=
  triggers l i e ∧ ∀ j e', j < i → triggers l j e' → ∃ k, j < k ≤ i ∧ ¬ rises l k.

(** From the sample [i] to the next the value grows; and the first event of a stretch of
    growth: since any earlier one the value fell or stayed the same. *)
Definition grows l (i : nat) : Prop := ∃ a b, l !! i = Some a ∧ l !! S i = Some b ∧ SFltb (value a) (value b) = true.
Definition starts l (i : nat) (e : IncidentTimelineEvent) : Prop :=
  triggers l i e ∧ ∀ j e', j < i → triggers l j e' → ∃ k, j < k ≤ i ∧ ¬ grows l k.
Lemma opens_starts l i e : opens l i e → starts l i e.
Proof.
  intros [Ht Hq]. split; [done|]. intros j e' Hj Ht'. destruct (Hq j e' Hj Ht') as (k & Hk & Hno). exists k. split; [done|].
  intros (a & b & Ha & Hb & Hlt). apply Hno. exists a, b. split_and!; [done..|]. revert Hlt. unfold SFltb, SFleb. by destruct (SFcompare _ _) as [[]|].
Qed.

Lemma skip_rising_spec cur l : ∃ pre, let '(last', rest) := skip_rising value cur l in
  l = pre ++ rest ∧ (cur :: pre) !! length pre = Some last' ∧ (∀ i, i < length pre → rises (cur :: pre) i) ∧
  (∀ b, head rest = Some b → SFleb (value last') (value b) = false).
Proof.
  revert cur. induction l as [|next l IH]; intros cur; cbn.
  - exists []. split_and!; [done|done|cbn; lia|done].
  - destruct (SFleb (value cur) (value next)) eqn:E.
    + destruct (IH next) as [pre Hp]. exists (next :: pre). destruct (skip_rising value next l) as [last' rest]. destruct Hp as (-> & Hl & Hr & Hb).
      split_and!; [done|done| |done]. intros [|i] Hi; [by exists cur, next|]. cbn in Hi. destruct (Hr i) as (a & b & Ha & Hb' & Hab); [lia|]. by exists a, b.
    + exists []. split_and!; [done|done|cbn; lia|]. cbn. by intros b [= <-].
Qed.
Lemma rises_app l k i : rises l i → rises (l ++ k) i.
Proof. intros (a & b & Ha & Hb & Hab). exists a, b. split_and!; [by apply lookup_app_l_Some..|done]. Qed.
Lemma triggers_lt l i e : triggers l i e → S i < length l.
Proof. intros (a & b & _ & Hb & _). by eapply lookup_lt_Some. Qed.
(** Shifting by a prefix. *)
Lemma lookup_shift l k i : (l ++ k) !! (length l + i) = k !! i.
Proof. rewrite lookup_app_r by lia. f_equal. lia. Qed.
Lemma triggers_shift l k i e : triggers (l ++ k) (length l + i) e ↔ triggers k i e.
Proof. unfold triggers. rewrite <- Nat.add_succ_r, !lookup_shift. done. Qed.
Lemma rises_shift l k i : rises (l ++ k) (length l + i) ↔ rises k i.
Proof. unfold rises. rewrite <- Nat.add_succ_r, !lookup_shift. done. Qed.

(** An event of a later part opens an episode in the whole if a fall comes before it, or
    nothing happened before. *)
Lemma opens_shift l k i e : (∀ j e', j < length l → triggers (l ++ k) j e' → ∃ m, j < m ≤ length l + i ∧ ¬ rises (l ++ k) m) →
  opens (l ++ k) (length l + i) e ↔ opens k i e.
Proof.
  intros Hbefore. unfold opens. rewrite triggers_shift. split; intros [Ht Hq]; (split; [done|]); intros j e' Hj Hj'.
  - destruct (Hq (length l + j) e') as (m & Hm & Hr); [lia|by apply triggers_shift|]. exists (m - length l). split; [lia|].
    intros Hx. apply Hr. replace m with (length l + (m - length l)) by lia. by apply rises_shift.
  - destruct (decide (j < length l)) as [Hl|Hl]; [by apply (Hbefore j e')|]. replace j with (length l + (j - length l)) in Hj' by lia.
    rewrite triggers_shift in Hj'. destruct (Hq (j - length l) e') as (m & Hm & Hr); [lia|done|]. exists (length l + m). split; [lia|]. by rewrite rises_shift.
Qed.

Lemma detect_rising_spec n : ∀ prev l e, length l ≤ n → e ∈ detect_rising n value event prev l ↔ ∃ i, opens (prev :: l) i e.
Proof.
  induction n as [|n IH]; intros prev l e Hn.
  - destruct l; [|cbn in Hn; lia]. cbn. split; [by intros ?%not_elem_of_nil|]. intros (i & Ht & _). apply triggers_lt in Ht. cbn in Ht. lia.
  - destruct l as [|cur l]; [cbn; split; [by intros ?%not_elem_of_nil|]; intros (i & Ht & _); apply triggers_lt in Ht; cbn in Ht; lia|].
    cbn [detect_rising]. cbn in Hn. destruct (event prev cur) as [e0|] eqn:E0.
    + destruct (skip_rising_spec cur l) as [pre Hp]. destruct (skip_rising value cur l) as [last' rest]. destruct Hp as (-> & Hl & Hup & Hdown).
      assert (H0 : triggers (prev :: cur :: pre ++ rest) 0 e0) by (by exists prev, cur).
      destruct (list_elem_of_split_length _ _ _ Hl) as (front & back & Efb & Hfl).
      assert (back = []) as ->. { destruct back; [done|]. apply (f_equal length) in Efb. rewrite length_app in Efb. cbn in Efb. lia. }
      assert (Esplit : prev :: cur :: pre ++ rest = (prev :: front) ++ last' :: rest).
      { cbn. f_equal. change (cur :: pre ++ rest) with ((cur :: pre) ++ rest). rewrite Efb. by rewrite <- List.app_assoc. }
      assert (Hrise : ∀ m, 0 < m ≤ length pre → rises (prev :: cur :: pre ++ rest) m).
      { intros [|m] Hm; [lia|]. apply (rises_shift [prev] (cur :: pre ++ rest) m). change (cur :: pre ++ rest) with ((cur :: pre) ++ rest). apply rises_app, Hup. lia. }
      assert (Hshift : ∀ i, opens (prev :: cur :: pre ++ rest) (length (prev :: front) + i) e ↔ opens (last' :: rest) i e).
      { intros i. rewrite Esplit. destruct (decide (S i < length (last' :: rest))) as [Hi|Hi].
        - apply opens_shift. intros j e' Hj _. exists (length (prev :: front)). split; [lia|].
          rewrite <- (Nat.add_0_r (length (prev :: front))), rises_shift. intros (x & y & [= <-] & Hy & Hxy). destruct rest as [|y' rest]; [discriminate Hy|]. injection Hy as <-.
          by rewrite (Hdown y' eq_refl) in Hxy.
        - split; intros [Ht _]; exfalso; apply Hi; [apply triggers_shift in Ht|]; by apply (triggers_lt _ _ _ Ht). }
      rewrite elem_of_cons, IH by (rewrite length_app in Hn; lia). split.
      * intros [->|[i Hi]]; [exists 0; split; [done|lia]|]. exists (length (prev :: front) + i). by apply Hshift.
      * intros [i Hi]. destruct (decide (i = 0)) as [->|Hi0]; [left; destruct Hi as [(a & b & [= <-] & [= <-] & Ha) _]; congruence|].
        destruct (decide (i ≤ length pre)) as [Hle|Hgt].
        -- exfalso. destruct Hi as [_ Hq]. destruct (Hq 0 e0) as (m & Hm & Hr); [lia|done|]. apply Hr, Hrise. lia.
        -- right. exists (i - length (prev :: front)). apply Hshift. replace (length (prev :: front) + (i - length (prev :: front))) with i; [done|]. cbn. lia.
    + rewrite IH by lia. assert (Hno : ∀ e', ¬ triggers (prev :: cur :: l) 0 e') by (intros e' (a & b & [= <-] & [= <-] & Ha); congruence).
      assert (Hs : ∀ i, opens (prev :: cur :: l) (S i) e ↔ opens (cur :: l) i e).
      { intros i. apply (opens_shift [prev] (cur :: l) i e). intros [|j] e' Hj Ht; [by apply Hno in Ht|cbn in Hj; lia]. }
      split; [intros [i Hi]; exists (S i); by apply Hs|]. intros [[|i] Hi]; [destruct Hi as [Ht _]; by apply Hno in Ht|]. exists i. by apply Hs.
Qed.
Lemma detect_spec samples e : e ∈ detect value event samples ↔ ∃ i, opens samples i e.
Proof.
  destruct samples as [|s l]; cbn [detect]; [|by apply detect_rising_spec]. split; [by intros ?%not_elem_of_nil|].
  intros (i & Ht & _). apply triggers_lt in Ht. cbn in Ht. lia.
Qed.
End Episodes.

(** * Consumers that stand still *)

Definition flat_at (l : list IncidentConsumerSample) (i : nat) : Prop :=
  ∃ a b, l !! i = Some a ∧ l !! S i = Some b ∧ is_flat a b = true.
(** The second flat step of a run, after [flat] of them before the list. *)
Definition second_flat (flat : nat) (l : list IncidentConsumerSample) (i : nat) : Prop :=
  flat_at l i ∧ match i with O => flat = 1 | 1 => flat = 0 ∧ flat_at l 0 | S (S k) => flat_at l (S k) ∧ ¬ flat_at l k end.
Lemma flat_at_cons s l i : flat_at (s :: l) (S i) ↔ flat_at l i.
Proof. done. Qed.
Lemma flat_at_0 a b l : flat_at (a :: b :: l) 0 ↔ is_flat a b = true.
Proof. split; [by intros (x & y & [= <-] & [= <-] & H)|]. intros H. by exists a, b. Qed.
Lemma flat_at_none a i : ¬ flat_at [a] i.
Proof. by intros (x & y & _ & Hy & _). Qed.
Lemma detect_flat_spec l : ∀ flat prev e, e ∈ detect_flat flat prev l ↔
  ∃ i c, (prev :: l) !! S i = Some c ∧ e = stopped_event c ∧ second_flat flat (prev :: l) i.
Proof.
  induction l as [|cur l IH]; intros flat prev e; cbn [detect_flat].
  { split; [by intros ?%not_elem_of_nil|]. by intros (i & c & Hc & _). }
  pose proof (flat_at_0 prev cur l) as H0. destruct (is_flat prev cur) eqn:E.
  - rewrite elem_of_app, IH. split.
    + intros [Hin|(i & c & Hc & He & Hf & Hs)].
      * destruct (Nat.eqb_spec (S flat) IncidentProcessingFlatSamples) as [Ef|]; [|by apply not_elem_of_nil in Hin]. apply list_elem_of_singleton in Hin.
        exists 0, cur. split_and!; [done|done|]. split; [by apply H0|]. unfold IncidentProcessingFlatSamples in Ef. lia.
      * exists (S i), c. split_and!; [done|done|]. split; [done|]. destruct i as [|[|k]]; [|by destruct Hs|exact Hs]. split; [lia|by apply H0].
    + intros ([|i] & c & Hc & -> & Hf & Hs).
      * left. subst flat. injection Hc as <-. by apply list_elem_of_singleton.
      * right. exists i, c. split_and!; [done|done|]. split; [done|]. destruct i as [|[|k]]; [by destruct Hs as [-> _]|destruct Hs as [_ Hs]; exfalso; by apply Hs, H0|exact Hs].
  - rewrite IH. split.
    + intros (i & c & Hc & He & Hf & Hs). exists (S i), c. split_and!; [done|done|]. split; [done|]. destruct i as [|[|k]]; [done| |exact Hs].
      destruct Hs as [_ Hs]. split; [done|]. intros Hx. by apply H0 in Hx.
    + intros ([|i] & c & Hc & -> & Hf & Hs); [by apply H0 in Hf|]. exists i, c. split_and!; [done|done|]. split; [done|].
      destruct i as [|[|k]]; [destruct Hs as [_ Hs]; by apply H0 in Hs|by split; [|destruct Hs]|exact Hs].
Qed.
(** Processing stopped where a second step in a row delivered and acknowledged nothing. *)
Definition stands_still (samples : list IncidentConsumerSample) (i : nat) : Prop :=
  flat_at samples i ∧ flat_at samples (S i) ∧ match i with O => True | S k => ¬ flat_at samples k end.
Lemma detectProcessingStopped_spec samples e : e ∈ detectProcessingStopped samples ↔
  ∃ i c, samples !! S (S i) = Some c ∧ e = stopped_event c ∧ stands_still samples i.
Proof.
  unfold detectProcessingStopped. destruct (Nat.ltb_spec (length samples) (IncidentProcessingFlatSamples + 1)) as [Hlt|_].
  { split; [by intros ?%not_elem_of_nil|]. intros (i & c & Hc%lookup_lt_Some & _). unfold IncidentProcessingFlatSamples in Hlt. lia. }
  destruct samples as [|s l]; [split; [by intros ?%not_elem_of_nil|by intros (i & c & Hc & _)]|]. rewrite detect_flat_spec. split.
  - intros ([|i] & c & Hc & -> & Hf & Hs); [done|]. exists i, c. split_and!; [done|done|]. destruct i as [|k]; split_and!; try done; by destruct Hs.
  - intros (i & c & Hc & -> & Hf & Hf' & Hs). exists (S i), c. split_and!; [done|done|]. split; [done|]. by destruct i.
Qed.

(** * Order and duplicates *)

Lemma timeline_le_total a b : timeline_le a b = false → timeline_le b a = true.
Proof.
  unfold timeline_le. rewrite (Z.eqb_sym (te_At a)). destruct (Z.eqb_spec (te_At b) (te_At a)) as [E|Hne].
  - by destruct (te_Category a), (te_Category b).
  - rewrite negb_false_iff, negb_true_iff, Z.ltb_lt, Z.ltb_ge. lia.
Qed.
Lemma timeline_le_trans a b c : timeline_le a b = true → timeline_le b c = true → timeline_le a c = true.
Proof.
  unfold timeline_le. destruct (Z.eqb_spec (te_At b) (te_At a)), (Z.eqb_spec (te_At c) (te_At b)), (Z.eqb_spec (te_At c) (te_At a));
    rewrite ?negb_true_iff, ?Z.ltb_ge; try lia.
  by destruct (te_Category a), (te_Category b), (te_Category c).
Qed.

(** * The timeline *)

(** What there is to tell of a window: deployments, or changes if there are none; the
    growth of the lag ([growth]) and the episodes of redeliveries and of standstill;
    nodes lost. *)
Definition deployed (inp : IncidentReconstructionInput) (a : IncidentAnnotation) : Prop :=
  a ∈ ii_Annotations inp ∧ is_deploy a = true ∧ in_window (ii_From inp) (ii_To inp) (ia_OccurredAt a) = true.
Definition changed (inp : IncidentReconstructionInput) (a : IncidentAuditChange) : Prop :=
  a ∈ ii_Audit inp ∧ in_window (ii_From inp) (ii_To inp) (iu_Timestamp a) = true ∧ TrimSpace (iu_Action a) ≠ "".
Definition told (growth : list IncidentConsumerSample → nat → IncidentTimelineEvent → Prop)
    (inp : IncidentReconstructionInput) (e : IncidentTimelineEvent) : Prop :=
  (∃ a, deployed inp a ∧ e = deploy_event a) ∨
  ((∀ a, ¬ deployed inp a) ∧ ∃ a, changed inp a ∧ e = change_event a) ∨
  (∃ i, growth (input_samples inp) i e) ∨
  (∃ i, opens ic_NumRedelivered redelivery_event (input_samples inp) i e) ∨
  (∃ i c, input_samples inp !! S (S i) = Some c ∧ e = stopped_event c ∧ stands_still (input_samples inp) i) ∨
  (∃ n, n ∈ ii_NodeEvents inp ∧ disconnect_event (ii_From inp) (ii_To inp) n = Some e).
(** The lag by the comment of detectLagGrowth, which ends an episode when it drops or
    flattens; and what is shown, where only a drop ends one. *)
Definition on_record := told (starts ic_Lag lag_event).
Definition shown_record := told (opens ic_Lag lag_event).
Lemma shown_on_record inp e : shown_record inp e → on_record inp e.
Proof. unfold shown_record, on_record, told. intros [?|[?|[[i Hi]|?]]]; [tauto..| |tauto]. right; right; left. exists i. by apply opens_starts. Qed.

Lemma elem_deploys inp a : a ∈ filterDeployAnnotations (ii_Annotations inp) (ii_From inp) (ii_To inp) ↔ deployed inp a.
Proof. unfold filterDeployAnnotations, deployed. by rewrite elem_of_filter_list, andb_true_iff. Qed.
Lemma elem_changes inp a : a ∈ filterAuditInWindow (ii_Audit inp) (ii_From inp) (ii_To inp) ↔ changed inp a.
Proof. unfold filterAuditInWindow, changed. by rewrite elem_of_filter_list, andb_true_iff, negb_true_iff, IsEmpty_false. Qed.
Lemma elem_change_events inp e : e ∈ change_events inp ↔
  (∃ a, deployed inp a ∧ e = deploy_event a) ∨ ((∀ a, ¬ deployed inp a) ∧ ∃ a, changed inp a ∧ e = change_event a).
Proof.
  unfold change_events. pose proof (elem_deploys inp) as Hd. destruct (filterDeployAnnotations _ _ _) as [|a0 l].
  - assert (Hno : ∀ a, ¬ deployed inp a) by (intros a Ha%Hd; by apply not_elem_of_nil in Ha). rewrite list_elem_of_fmap. setoid_rewrite elem_changes. split.
    + intros (a & -> & Ha). right. eauto.
    + intros [(a & Ha & _)|(_ & a & Ha & ->)]; [by apply Hno in Ha|eauto].
  - rewrite list_elem_of_fmap. setoid_rewrite Hd. split.
    + intros (a & -> & Ha). left. eauto.
    + intros [(a & Ha & ->)|[Hno _]]; [eauto|]. exfalso. apply (Hno a0), Hd. by left.
Qed.
Lemma elem_all_events inp e : e ∈ all_events inp ↔ shown_record inp e.
Proof.
  unfold all_events, shown_record, told. rewrite !elem_of_app, elem_change_events. unfold detectLagGrowth, detectRedeliverySpike. rewrite !detect_spec.
  rewrite detectProcessingStopped_spec, list_elem_of_omap. tauto.
Qed.
Lemma elem_samples inp s : s ∈ input_samples inp → in_window (ii_From inp) (ii_To inp) (ic_CapturedAt s) = true.
Proof. unfold input_samples. rewrite sort_stable_perm. unfold filterConsumerSamples. intros [_ Hs]%elem_of_filter_list. by apply andb_true_iff in Hs as [_ Hs]. Qed.
Lemma shown_window inp e : shown_record inp e → in_window (ii_From inp) (ii_To inp) (te_At e) = true.
Proof.
  assert (Hs : ∀ i (s : IncidentConsumerSample), input_samples inp !! i = Some s → in_window (ii_From inp) (ii_To inp) (ic_CapturedAt s) = true)
    by (intros i s Hi; by eapply elem_samples, list_elem_of_lookup_2).
  intros [(a & (_ & _ & Hw) & ->)|[(_ & a & (_ & Hw & _) & ->)|[(i & (a & b & _ & Hb & Ee) & _)|[(i & (a & b & _ & Hb & Ee) & _)|[(i & c & Hc & -> & _)|(n & _ & Ee)]]]]].
  - done.
  - done.
  - unfold lag_event in Ee. destruct (SFltb _ _) in Ee; [done|]. destruct (_ && _) in Ee; [done|]. injection Ee as <-. by eapply Hs.
  - unfold redelivery_event in Ee. destruct (SFltb _ _) in Ee; [done|]. injection Ee as <-. by eapply Hs.
  - by eapply Hs.
  - unfold disconnect_event in Ee. destruct (negb _) in Ee; [done|]. destruct (in_window _ _ (ne_OccurredAt n)) eqn:E; [|done]. by injection Ee as <-.
Qed.
Lemma some_length {A} (l : list A) : Nat.ltb 0 (length l) = true ↔ ∃ a, a ∈ l.
Proof. destruct l as [|a l]; [|split; [intros _; exists a; by left|done]]. split; [done|]. by intros [a ?%not_elem_of_nil]. Qed.

Lemma timeline_perm inp : ir_Events (ComputeIncidentTimeline inp) ≡ₚ first_by timeline_key [] (all_events inp).
Proof. apply sort_stable_perm. Qed.
Lemma timeline_covers inp e : shown_record inp e → ∃ e', e' ∈ ir_Events (ComputeIncidentTimeline inp) ∧ timeline_key e' = timeline_key e.
Proof.
  intros He%elem_all_events. destruct (first_by_cover timeline_key [] _ e He) as [?%not_elem_of_nil|(e' & He' & Ek)]; [done|]. exists e'. by rewrite timeline_perm.
Qed.
Lemma used_deploy inp : ir_UsedDeploy (ComputeIncidentTimeline inp) = true ↔ ∃ a, deployed inp a.
Proof. unfold ComputeIncidentTimeline. cbn [ir_UsedDeploy]. rewrite some_length. by setoid_rewrite elem_deploys. Qed.
Lemma used_audit inp : ir_UsedAudit (ComputeIncidentTimeline inp) = true ↔ (∀ a, ¬ deployed inp a) ∧ ∃ a, changed inp a.
Proof.
  unfold ComputeIncidentTimeline. cbn [ir_UsedAudit]. rewrite andb_true_iff, some_length, Nat.eqb_eq. setoid_rewrite elem_changes. split; intros [Hd Hc]; (split; [|done]).
  - intros a Ha%elem_deploys. apply nil_length_inv in Hd. rewrite Hd in Ha. by apply not_elem_of_nil in Ha.
  - destruct (filterDeployAnnotations _ _ _) as [|a l] eqn:E; [done|]. exfalso. apply (Hd a), elem_deploys. rewrite E. by left.
Qed.

(** C38. The timeline of a consumer in a window.  Its events are in order of time, and of
    category where the time is the same; no two share category, label and second; each
    is on record and in the window.  On record are the annotated deployments, or the
    logged changes if there are none, the first step of each stretch in which the lag
    grows, and of each in which the redeliveries do not fall, the second step of each
    standstill, and the nodes that were lost.  Of everything on record there is an event
    with its category, label and second, except of growth of the lag that resumes with
    no fall since the growth before, which the code takes for the same episode
    ([flat_lag_hides_growth]). *)
Theorem incident_timeline_exact inp :
  let r := ComputeIncidentTimeline inp in
  StronglySorted (λ a b, timeline_le a b = true) (ir_Events r) ∧
  NoDup (timeline_key <$> ir_Events r) ∧
  ir_EventCount r = length (ir_Events r) ∧
  (∀ e, e ∈ ir_Events r → on_record inp e ∧ in_window (ii_From inp) (ii_To inp) (te_At e) = true) ∧
  (∀ e, shown_record inp e → ∃ e', e' ∈ ir_Events r ∧ timeline_key e' = timeline_key e) ∧
  (ir_UsedDeploy r = true ↔ ∃ a, deployed inp a) ∧
  (ir_UsedAudit r = true ↔ (∀ a, ¬ deployed inp a) ∧ ∃ a, changed inp a).
Proof.
  intros r. subst r.
  split; [apply sort_stable_sorted; [exact timeline_le_total|exact timeline_le_trans]|]. split; [rewrite timeline_perm; apply first_by_keys|].
  split; [done|]. split; [|split; [apply timeline_covers|split; [apply used_deploy|apply used_audit]]].
  intros e. rewrite timeline_perm. intros [Hin _]%first_by_sub. apply elem_all_events in Hin. split; [by apply shown_on_record|by apply shown_window].
Qed.

(** * From an annotation to the timeline *)

Lemma list_annotations_run clusterID from to t : sm_up t = true → ListIncidentAnnotations clusterID from to t =
  (Ok (sort_stable annotation_le (List.filter (λ a, (ia_ClusterID a =s clusterID) && in_window from to (ia_OccurredAt a)) (map_to_list (sm_annotations t)).*2)), t).
Proof. intros Hup. unfold ListIncidentAnnotations, samples_online, bind, get, ensure. by rewrite Hup. Qed.
(** What is read of a window. *)
Definition record_of (t : SampleTables) (clusterID stream consumer : string) (from to : Z) : IncidentReconstructionInput :=
  mkIncidentInput clusterID stream consumer from to
    (sort_stable annotation_le (List.filter (λ a, (ia_ClusterID a =s clusterID) && in_window from to (ia_OccurredAt a)) (map_to_list (sm_annotations t)).*2))
    (sort_stable sample_le (snd <$> List.filter (λ kv, (kv.1.1.1 =s clusterID) && (kv.1.2.1 =s stream) && (kv.1.2.2 =s consumer) && in_window from to kv.1.1.2)
                                      (map_to_list (sm_consumers t))))
    (sort_stable event_le (snd <$> List.filter (λ r, (r.1 =s clusterID) && in_window from to (ne_OccurredAt r.2)) (sm_nodes t)))
    (take 200 (sort_stable audit_le (snd <$> List.filter (λ r, (r.1 =s clusterID) && in_window from to (iu_Timestamp r.2)) (sm_audit t)))).
Lemma reconstruction_run clusterID stream consumer from to t : sm_up t = true →
  Reconstruction clusterID stream consumer from to t = (Ok (ComputeIncidentTimeline (record_of t clusterID stream consumer from to)), t).
Proof.
  intros Hup. unfold Reconstruction. unfold bind at 1. rewrite list_annotations_run by done.
  unfold ListIncidentConsumerSamples, ListIncidentNodeEvents, ListAuditInRange, samples_online, bind, get, ensure, ret. rewrite !Hup. reflexivity.
Qed.

(** What an annotation that is made looks like, and where it is. *)
Lemma annotate_run id now clusterID c t a t' : InsertIncidentAnnotation id now clusterID c t = (Ok a, t') →
  t' = set_annotations <[id := a]> t ∧ sm_up t = true ∧ ia_ClusterID a = clusterID ∧ ia_Type a = "deploy" ∧
  TrimSpace (ia_Title a) = ia_Title a ∧ ia_Title a ≠ "".
Proof.
  unfold InsertIncidentAnnotation. unfold bind at 1, ensure at 1. destruct (Validate c) eqn:Hv; [|done].
  unfold samples_online, known_cluster, bind, get, ensure, modify, ret. destruct (sm_up t) eqn:Hup; [|done]. cbn.
  destruct (bool_decide (clusterID ∈ _)); [|done]. cbn. destruct (negb _); [|done]. intros [= <- <-]. cbn.
  unfold Validate in Hv. apply andb_true_iff in Hv as [Ht Hn]. apply bool_decide_eq_true in Ht. apply negb_true_iff, IsEmpty_false in Hn.
  split_and!; [done|done|done|done|apply TrimSpace_idemp|done].
Qed.

(** A deployment that was annotated is on every timeline of its cluster whose window
    holds it, with its title and in its second; changes of the log are left out then. *)
Theorem annotation_is_shown id now clusterID body a t t' now' stream consumer from to f u :
  CreateAnnotation id now clusterID body t = (Ok (mkIncidentAnswer 201 (IncidentAnnotated a)), t') →
  Streams.ValidateResourceName stream = true → Streams.ValidateResourceName consumer = true →
  query_window now' from to = Some (f, u) → (f ≤ ia_OccurredAt a ≤ u)%Z →
  ∃ r e, GetReconstruction now' clusterID stream consumer from to t' = (Ok (mkIncidentAnswer 200 (IncidentShown r)), t') ∧
    e ∈ ir_Events r ∧ te_Category e = EventDeploy ∧ te_Label e = ia_Title a ∧ (te_At e / second)%Z = (ia_OccurredAt a / second)%Z ∧
    ir_UsedDeploy r = true ∧ ir_UsedAudit r = false.
Proof.
  unfold CreateAnnotation, incident_refused, ret. destruct (Access.ValidateUUID clusterID) eqn:Hid; [|done]. destruct body as [req|]; [|done]. cbn [negb].
  destruct (Validate req); [|done]. cbn [negb]. unfold bind, attempt. destruct (InsertIncidentAnnotation id now clusterID req t) as [[a0|e0] t0] eqn:E; [|done].
  intros [= <- <-] Hstream Hconsumer Hq Hw. destruct (annotate_run _ _ _ _ _ _ _ E) as (-> & Hup & Hcl & Hty & Htrim & Htitle).
  set (t1 := set_annotations <[id := a0]> t). set (inp := record_of t1 clusterID stream consumer f u).
  assert (Ha : deployed inp a0).
  { unfold deployed. subst inp. cbn [ii_Annotations record_of ii_From ii_To]. assert (Hwin : in_window f u (ia_OccurredAt a0) = true)
      by (apply andb_true_iff; rewrite !Z.leb_le; done).
    split_and!; [|unfold is_deploy; by rewrite Hty|done]. rewrite sort_stable_perm. apply elem_of_filter_list. split.
    - apply list_elem_of_fmap. exists (id, a0). split; [done|]. apply elem_of_map_to_list. cbn. by rewrite lookup_insert_eq.
    - rewrite Hwin, andb_true_r. by apply bool_decide_eq_true. }
  set (r := ComputeIncidentTimeline inp).
  assert (Hrun : GetReconstruction now' clusterID stream consumer from to t1 = (Ok (mkIncidentAnswer 200 (IncidentShown r)), t1)).
  { unfold GetReconstruction. rewrite Hid, Hstream, Hconsumer, Hq. cbn [negb]. unfold bind, attempt. by rewrite (reconstruction_run clusterID stream consumer f u t1). }
  destruct (timeline_covers inp (deploy_event a0)) as (e & He & Ek); [by left; exists a0|].
  exists r, e. injection Ek as Ecat Esec Elabel. rewrite Htrim in Elabel. apply IsEmpty_false in Htitle. rewrite Htitle in Elabel.
  split; [exact Hrun|]. split; [exact He|]. split; [by destruct (te_Category e)|]. split; [done|]. split; [exact Esec|].
  split; [apply used_deploy; by exists a0|]. apply not_true_is_false. intros Hu%used_audit. destruct Hu as [Hno _]. by apply (Hno a0).
Qed.

(** A release annotated at noon, on a cluster with nothing else on record. *)
Definition shop_cluster : string := "0190f3a2-7c11-7a55-8e21-3f6d5b1c9a00".
Definition shop_tables : SampleTables := mkSamples true [shop_cluster] ∅ ∅ ∅ ∅ [] ∅ [] ∅.
Definition noon : Z := 12 * hour.
Definition release : IncidentAnnotationCreate := mkAnnotationCreate (Some noon) "" " orders 2.1 " "".
Definition release_row : IncidentAnnotation := mkAnnotation "a1" shop_cluster noon "deploy" "orders 2.1" "".
Lemma annotation_is_shown_witness :
  let t' := set_annotations <["a1" := release_row]> shop_tables in
  CreateAnnotation "a1" noon shop_cluster (Some release) shop_tables = (Ok (mkIncidentAnswer 201 (IncidentAnnotated release_row)), t') ∧
  ∃ r e, GetReconstruction (2 * noon)%Z shop_cluster "ORDERS" "worker" "" "1970-01-02T00:00:00Z" t' = (Ok (mkIncidentAnswer 200 (IncidentShown r)), t') ∧
    e ∈ ir_Events r ∧ te_Label e = "orders 2.1".
Proof.
  cbv zeta. split; [by vm_compute|].
  destruct (annotation_is_shown "a1" noon shop_cluster (Some release) release_row shop_tables (set_annotations <["a1" := release_row]> shop_tables)
    (2 * noon)%Z "ORDERS" "worker" "" "1970-01-02T00:00:00Z" 0 day_ns) as (r & e & Hr & He & _ & Hl & _); [by vm_compute..|]. by exists r, e.
Defined.

(** The comment of detectLagGrowth ends an episode when the lag drops or flattens; a lag
    that stays the same does not end it: the second growth is not on the timeline. *)
Definition lag_at (t lag : Z) : IncidentConsumerSample := mkSample (t * minute)%Z "ORDERS" "worker" (f64 lag) (f64 0) (f64 0) (f64 0).
Lemma flat_lag_hides_growth :
  te_Evidence <$> detectLagGrowth [lag_at 0 0; lag_at 1 100; lag_at 2 100; lag_at 3 100; lag_at 4 9000] = ["lag 0 → 100"] ∧
  te_Evidence <$> detectLagGrowth [lag_at 0 0; lag_at 1 100; lag_at 2 99; lag_at 3 99; lag_at 4 9000] = ["lag 0 → 100"; "lag 99 → 9000"].
Proof. split; by vm_compute. Qed.
