(* ===== verification/Bottlenecks.v ===== *)
(** Recurring slow hours: internal/domain/hidden_bottlenecks.go over the rollups of
    [Samples], with internal/app/bottlenecks.go and the report of
    internal/api/insights/hidden_bottlenecks.go.

    A map that is ranged over is taken in an order of the caller's choice, another one
    each time ([range_use] says which). *)

From S2P Require Export Samples Incidents.
From S2P Require Import GoStrings.

Inductive BottleneckKind := CorrelatedPayloadLag | ScheduleLagSpike | SchedulePayloadGrowth | ScheduleProcessingSlow.
Definition bottleneck_text (k : BottleneckKind) : string :=
  match k with
  | CorrelatedPayloadLag => "correlated_payload_lag" | ScheduleLagSpike => "schedule_lag_spike"
  | SchedulePayloadGrowth => "schedule_payload_growth" | ScheduleProcessingSlow => "schedule_processing_slow"
  end.
#[export] Instance BottleneckKind_eq_dec : EqDecision BottleneckKind.
Proof. solve_decision. Defined.

Definition bottleneckMinDistinctWeeks : nat := 2.
Definition bottleneckLagRatio : spec_float := fconst 3 2.
Definition bottleneckLagAbsFloor : spec_float := f64 50.
Definition bottleneckPayloadRatio : spec_float := fconst 5 4.
Definition bottleneckPayloadAbsFloor : spec_float := f64 256.
Definition bottleneckProcessingRatio : spec_float := fconst 3 2.
Definition bottleneckProcessingAbsFloor : spec_float := f64 50.
Definition bottleneckMaxFindings : nat := 20.

Record HiddenBottleneckFinding := mkBottleneck {
  hb_Kind : BottleneckKind;
  hb_Severity : ArchSeverity;
  hb_Title : string;
  hb_Suggestion : string;
  hb_Stream : string;
  hb_Consumer : string;
  hb_Schedule : string;
  hb_Evidence : list string;
  hb_Weekday : Z;
  hb_HourUTC : Z;
}.
Record HiddenBottleneckTotals := mkBottleneckTotals {
  ht_ByKind : gmap string nat;
  ht_Problems : nat;
  ht_Critical : nat;
  ht_Warn : nat;
  ht_Info : nat;
}.
Record HiddenBottleneckSnapshot := mkBottleneckSnapshot {
  hs_CapturedAt : Z;
  hs_From : Z;
  hs_To : Z;
  hs_Verdict : ArchVerdict;
  hs_Findings : list HiddenBottleneckFinding;
  hs_Suggestions : list string;
  hs_Totals : HiddenBottleneckTotals;
  hs_Demo : bool;
}.

(** * The week *)

(** [time.Weekday]: Sunday is 0; 1970 began on a Thursday. *)
Definition weekday_of (t : Z) : Z := ((day_of t + 4) mod 7)%Z.
Definition hour_of (t : Z) : Z := ((t mod day_ns) / hour)%Z.
Definition year_of (t : Z) : Z := let '(y, _, _) := civil (day_of t) in y.
(** The number of the ISO week: that of its Thursday in the Thursday's year. *)
Definition ISOWeek (t : Z) : Z :=
  let thursday := (day_of t + 3 - (weekday_of t + 6) mod 7)%Z in
  let '(y, _, _) := civil thursday in ((thursday - days_of y 1 1) / 7 + 1)%Z.
Definition weekday_text (w : Z) : string :=
  if Z.eqb w 0 then "Sunday" else if Z.eqb w 1 then "Monday" else if Z.eqb w 2 then "Tuesday" else if Z.eqb w 3 then "Wednesday"
  else if Z.eqb w 4 then "Thursday" else if Z.eqb w 5 then "Friday" else "Saturday".
Definition formatSchedule (weekday h : Z) : string := weekday_text weekday +:+ " " +:+ pad 2 h +:+ ":00 UTC".

(** * Cells *)

(** Stream, consumer, weekday and hour. *)
Abbreviation scheduleCellKey := (string * string * (Z * Z))%type.
Record scheduleCell := mkCell {
  ce_weekNumbers : gset Z;
  ce_lags : list spec_float;
  ce_payloads : list spec_float;
  ce_processing : list spec_float;
}.
Definition cell_key (b : BottleneckHourBucket) : scheduleCellKey :=
  (TrimSpace (bh_StreamName b), TrimSpace (bh_ConsumerName b), (weekday_of (bh_BucketHour b), hour_of (bh_BucketHour b))).
Definition week_key (t : Z) : Z := (year_of t * 100 + ISOWeek t)%Z.
Definition add_bucket (cells : gmap scheduleCellKey scheduleCell) (b : BottleneckHourBucket) : gmap scheduleCellKey scheduleCell :=
  let key := cell_key b in
  if IsEmpty key.1.1 then cells
  else
    let cell := default (mkCell ∅ [] [] []) (cells !! key) in
    <[key := mkCell ({[week_key (bh_BucketHour b)]} ∪ ce_weekNumbers cell)
               (if IsEmpty key.1.2 then ce_lags cell else ce_lags cell ++ [bh_AvgLag b])
               (if SFltb (f64 0) (bh_AvgPayloadBytes b) then ce_payloads cell ++ [bh_AvgPayloadBytes b] else ce_payloads cell)
               (match bh_AvgProcessingMs b with
                | Some ms => if SFltb (f64 0) ms then ce_processing cell ++ [ms] else ce_processing cell
                | None => ce_processing cell
                end)]> cells.
Definition buildScheduleCells (buckets : list BottleneckHourBucket) : gmap scheduleCellKey scheduleCell := foldl add_bucket ∅ buckets.

(** * Comparing *)

Definition median (vals : list spec_float) : spec_float :=
  match vals with
  | [] => f64 0
  | _ =>
      let cp := sort_stable float_le vals in
      let mid := (length cp / 2)%nat in
      let at_ i := nth i cp (f64 0) in
      if Nat.even (length cp) then fdiv (fadd (at_ (mid - 1)%nat) (at_ mid)) (f64 2) else at_ mid
  end.
Definition safeRatio (cur base : spec_float) : spec_float :=
  if SFleb base (f64 0) then (if SFltb (f64 0) cur then S754_infinity false else f64 1) else fdiv cur base.
Definition elevated (cur base ratio absFloor : spec_float) : bool :=
  if SFltb cur absFloor then false
  else if SFleb base (f64 0) then SFleb (fmul absFloor ratio) cur
  else SFleb (fmul base ratio) cur && SFleb (fmul absFloor (fconst 1 4)) (fsub cur base).
Definition severityForRatio (lagCur lagBase payCur payBase : spec_float) : ArchSeverity :=
  let lagR := safeRatio lagCur lagBase in
  let payR := safeRatio payCur payBase in
  if SFleb (f64 3) lagR || SFleb (fconst 5 2) payR then ArchCritical
  else if SFleb (f64 2) lagR || SFleb (fconst 9 5) payR then ArchWarn
  else ArchInfo.
Definition kindRank (k : BottleneckKind) : Z :=
  match k with CorrelatedPayloadLag => 4 | ScheduleProcessingSlow => 3 | ScheduleLagSpike => 2 | SchedulePayloadGrowth => 1 end.

(** Which of the loops over the cells. *)
Inductive range_use := RangeConsumers | RangeStreams | RangeLags (k : scheduleCellKey) | RangeProcessing (k : scheduleCellKey) | RangePayloads (k : scheduleCellKey).

Section Discover.
Context (range : range_use → gmap scheduleCellKey scheduleCell → list (scheduleCellKey * scheduleCell)).

Definition other_schedule (match_ key : scheduleCellKey) : bool :=
  (key.1.1 =s match_.1.1) && negb (Z.eqb key.2.1 match_.2.1 && Z.eqb key.2.2 match_.2.2).
(** With [requireSameConsumer] *)
Definition baselineOtherSchedules (use : range_use) (cells : gmap scheduleCellKey scheduleCell) (match_ : scheduleCellKey)
    (pick : scheduleCell → list spec_float) : spec_float :=
  median (flat_map (λ kc, pick kc.2) (List.filter (λ kc, other_schedule match_ kc.1 && (kc.1.1.2 =s match_.1.2)) (range use cells))).
Definition hasStreamOnlyPayload (cells : gmap scheduleCellKey scheduleCell) (stream : string) : bool :=
  existsb (λ kc, (kc.1.1.1 =s stream) && IsEmpty kc.1.1.2 && Nat.ltb 0 (length (ce_payloads kc.2))) (map_to_list cells).
Definition streamPayloadBaseline (cells : gmap scheduleCellKey scheduleCell) (key : scheduleCellKey) : spec_float :=
  median (flat_map (λ kc, ce_payloads kc.2)
    (List.filter (λ kc, other_schedule key kc.1 && negb (negb (IsEmpty kc.1.1.2) && hasStreamOnlyPayload cells key.1.1)) (range (RangePayloads key) cells))).

Definition weeks_text (cell : scheduleCell) : string := "weeks=" +:+ Itoa (Z.of_nat (size (ce_weekNumbers cell))).
Definition against (name unit : string) (cur base : spec_float) : string :=
  name +:+ "=" +:+ format_whole cur +:+ unit +:+ " (baseline " +:+ format_whole base +:+ unit +:+ ")".
Definition schedule_findings (cells : gmap scheduleCellKey scheduleCell) (kc : scheduleCellKey * scheduleCell) : list HiddenBottleneckFinding :=
  let '((stream, consumer, (weekday, h)) as key, cell) := kc in
  if IsEmpty consumer then []
  else if Nat.ltb (size (ce_weekNumbers cell)) bottleneckMinDistinctWeeks then []
  else
    let schedule := formatSchedule weekday h in
    let lagBase := baselineOtherSchedules (RangeLags key) cells key ce_lags in
    let payBase := streamPayloadBaseline cells key in
    let procBase := baselineOtherSchedules (RangeProcessing key) cells key ce_processing in
    let lagCur := median (ce_lags cell) in
    let payCur := median (ce_payloads cell) in
    let procCur := median (ce_processing cell) in
    let lagElevated := elevated lagCur lagBase bottleneckLagRatio bottleneckLagAbsFloor in
    let payElevated := elevated payCur payBase bottleneckPayloadRatio bottleneckPayloadAbsFloor in
    let procElevated := elevated procCur procBase bottleneckProcessingRatio bottleneckProcessingAbsFloor in
    if lagElevated && payElevated then
      [mkBottleneck CorrelatedPayloadLag (severityForRatio lagCur lagBase payCur payBase)
         (schedule +:+ " " +:+ consumer +:+ " slows when " +:+ stream +:+ " payload grows")
         "Inspect producers that enlarge payloads on this schedule; consider compression, schema trimming, or scaling the consumer before the window."
         stream consumer schedule
         ["schedule=" +:+ schedule; "consumer=" +:+ consumer; "stream=" +:+ stream; against "lag" "" lagCur lagBase;
          against "avgPayload" "B" payCur payBase; weeks_text cell] weekday h]
    else
      (if lagElevated then
         [mkBottleneck ScheduleLagSpike ArchWarn (schedule +:+ ": " +:+ consumer +:+ " lag spikes on a schedule")
            "Look for batch jobs, cron publishers, or downstream slowdowns that recur at this weekday/hour."
            stream consumer schedule
            ["schedule=" +:+ schedule; "consumer=" +:+ consumer; "stream=" +:+ stream; against "lag" "" lagCur lagBase; weeks_text cell] weekday h]
       else []) ++
      (if procElevated then
         [mkBottleneck ScheduleProcessingSlow ArchWarn (schedule +:+ ": " +:+ consumer +:+ " processing latency elevated")
            "Correlate worker fingerprints with dependency latency (DB, HTTP) during this window."
            stream consumer schedule
            ["schedule=" +:+ schedule; "consumer=" +:+ consumer; against "processingMs" "" procCur procBase; weeks_text cell] weekday h]
       else []).
(** Already covered by a finding that correlates payload and lag. *)
Definition covered (findings : list HiddenBottleneckFinding) (stream schedule : string) : bool :=
  existsb (λ f, bool_decide (hb_Kind f = CorrelatedPayloadLag) && (hb_Stream f =s stream) && (hb_Schedule f =s schedule)) findings.
Definition stream_finding (cells : gmap scheduleCellKey scheduleCell) (found : list HiddenBottleneckFinding)
    (kc : scheduleCellKey * scheduleCell) : option HiddenBottleneckFinding :=
  let '((stream, consumer, (weekday, h)) as key, cell) := kc in
  if negb (IsEmpty consumer) then None
  else if Nat.ltb (size (ce_weekNumbers cell)) bottleneckMinDistinctWeeks then None
  else
    let payBase := streamPayloadBaseline cells key in
    let payCur := median (ce_payloads cell) in
    let schedule := formatSchedule weekday h in
    if negb (elevated payCur payBase bottleneckPayloadRatio bottleneckPayloadAbsFloor) then None
    else if covered found stream schedule then None
    else Some (mkBottleneck SchedulePayloadGrowth ArchInfo (schedule +:+ ": " +:+ stream +:+ " average payload grows")
                 "Identify which subjects enlarge on this schedule; trim fields or split large events."
                 stream "" schedule
                 ["schedule=" +:+ schedule; "stream=" +:+ stream; against "avgPayload" "B" payCur payBase; weeks_text cell] weekday h).
Definition bottleneck_le (f g : HiddenBottleneckFinding) : bool :=
  let ki := kindRank (hb_Kind f) in
  let kj := kindRank (hb_Kind g) in
  if negb (Z.eqb ki kj) then Z.ltb kj ki
  else
    let si := severityRank (hb_Severity f) in
    let sj := severityRank (hb_Severity g) in
    if negb (Z.eqb si sj) then Z.ltb sj si else bool_decide (String.le (hb_Title f) (hb_Title g)).
Definition all_findings (cells : gmap scheduleCellKey scheduleCell) : list HiddenBottleneckFinding :=
  let found := flat_map (schedule_findings cells) (range RangeConsumers cells) in
  found ++ omap (stream_finding cells found) (range RangeStreams cells).
Definition tally_bottleneck (t : HiddenBottleneckTotals) (f : HiddenBottleneckFinding) : HiddenBottleneckTotals :=
  let k := bottleneck_text (hb_Kind f) in
  let bump (s : ArchSeverity) (n : nat) := if bool_decide (hb_Severity f = s) then S n else n in
  mkBottleneckTotals (<[k := S (default 0 (ht_ByKind t !! k))]> (ht_ByKind t)) (S (ht_Problems t))
    (bump ArchCritical (ht_Critical t)) (bump ArchWarn (ht_Warn t)) (bump ArchInfo (ht_Info t)).
Definition no_totals : HiddenBottleneckTotals := mkBottleneckTotals ∅ 0 0 0 0.
Definition bottleneck_verdict (t : HiddenBottleneckTotals) : ArchVerdict :=
  if Nat.ltb 0 (ht_Critical t) then AtRisk
  else if Nat.ltb 0 (ht_Warn t) || Nat.ltb 0 (ht_Info t) then NeedsAttention else Healthy.
Definition DiscoverHiddenBottlenecks (buckets : list BottleneckHourBucket) : HiddenBottleneckSnapshot :=
  match buckets with
  | [] => mkBottleneckSnapshot 0 0 0 Healthy [] [] no_totals false
  | _ =>
      let findings := take bottleneckMaxFindings (sort_stable bottleneck_le (all_findings (buildScheduleCells buckets))) in
      let totals := foldl tally_bottleneck no_totals findings in
      mkBottleneckSnapshot 0 0 0 (bottleneck_verdict totals) findings
        (first_by id [] (omap (λ f, nonempty_trimmed (hb_Suggestion f)) findings)) totals false
  end.

(** * The showcase *)

Definition demo_bucket (consumer : string) (at_ lag max payload : Z) (proc : option Z) : BottleneckHourBucket :=
  mkBucket "" "ORDERS" consumer at_ (f64 lag) (f64 max) (f64 payload) (f64 <$> proc) 12.
Definition demo_hour (at_ lag max payload proc : Z) : list BottleneckHourBucket :=
  [demo_bucket "billing-worker" at_ lag max payload (Some proc); demo_bucket "" at_ 0 0 payload None].
(** The same day at [h] *)
Definition at_hour (t h : Z) : Z := (truncate day_ns t + h * hour)%Z.
Definition demo_week (now weeksAgo : Z) : list BottleneckHourBucket :=
  let friday := (truncate day_ns (add_date 0 (- weekday_of now - 6 - 7 * weeksAgo) now) + 18 * hour)%Z in
  let friday := if Z.eqb (weekday_of friday) 5 then friday else add_date 0 (5 - weekday_of friday) friday in
  let friday := at_hour friday 18 in
  demo_hour friday 420 800 8192 2400 ++ demo_hour (at_hour friday 10) 40 60 4096 200 ++ demo_hour (at_hour friday 14) 40 60 4096 200 ++
  demo_hour (at_hour (add_date 0 (-2) friday) 18) 45 70 4100 210.
Definition demo_finding : HiddenBottleneckFinding :=
  mkBottleneck CorrelatedPayloadLag ArchWarn "Friday 18:00 UTC billing-worker slows when ORDERS payload grows"
    "Inspect producers that enlarge payloads on this schedule; consider compression, schema trimming, or scaling the consumer before the window."
    "ORDERS" "billing-worker" "Friday 18:00 UTC"
    ["schedule=Friday 18:00 UTC"; "consumer=billing-worker"; "stream=ORDERS"; "lag=420 (baseline 42)"; "avgPayload=8192B (baseline 4096B)"; "weeks=4"] 5 18.
Definition DemoHiddenBottlenecksSnapshot (now : Z) : HiddenBottleneckSnapshot :=
  let now := truncate hour now in
  let snap := DiscoverHiddenBottlenecks (flat_map (demo_week now) [0; 1; 2; 3]%Z) in
  match hs_Verdict snap with
  | Healthy => mkBottleneckSnapshot now 0 0 NeedsAttention [demo_finding] [hb_Suggestion demo_finding]
                 (mkBottleneckTotals {[ bottleneck_text CorrelatedPayloadLag := 1 ]} 1 0 1 0) true
  | v => mkBottleneckSnapshot now (hs_From snap) (hs_To snap) v (hs_Findings snap) (hs_Suggestions snap) (hs_Totals snap) true
  end.

(** * internal/app/bottlenecks.go and the handler *)

Definition Discover (now lookBack : Z) (clusterID : string) : SaM HiddenBottleneckSnapshot :=
  let to := now in
  let from := (to - lookBack)%Z in
  let! buckets := ListBottleneckHourBuckets clusterID from to in
  let snap := DiscoverHiddenBottlenecks buckets in
  ret (mkBottleneckSnapshot to from to (hs_Verdict snap) (hs_Findings snap) (hs_Suggestions snap) (hs_Totals snap) (hs_Demo snap)).
(** [demo]: the parameter of the query; the service is there. *)
Definition loadHiddenBottlenecks (now lookBack : Z) (clusterID demo : string) : SaM (Z * option HiddenBottleneckSnapshot) :=
  if demo =s "1" then ret (200%Z, Some (DemoHiddenBottlenecksSnapshot now))
  else
    let! r := attempt (Discover now lookBack clusterID) in
    match r with Ok snap => ret (200%Z, Some snap) | Err _ => ret (500%Z, None) end.
End Discover.
