(* ===== verification/BottleneckFacts.v ===== *)
(** Hidden bottlenecks: every finding recurs, the counts are those of what is shown, and
    what is cut off does not change the verdict. *)

From S2P Require Export Bottlenecks.
From S2P Require Import ArchitectureFacts Subjects GoStrings.

(** * Cells *)

(** The rollups of a cell. *)
Definition in_cell (key : scheduleCellKey) (buckets : list BottleneckHourBucket) : list BottleneckHourBucket :=
  List.filter (λ b, bool_decide (cell_key b = key)) buckets.
Lemma add_bucket_weeks cells b key : key.1.1 ≠ "" →
  default ∅ (ce_weekNumbers <$> add_bucket cells b !! key) =
    (if bool_decide (cell_key b = key) then {[week_key (bh_BucketHour b)]} else ∅) ∪ default ∅ (ce_weekNumbers <$> cells !! key).
Proof.
  intros Hk. unfold add_bucket. cbv zeta. case_bool_decide as E.
  - subst key. apply IsEmpty_false in Hk. rewrite Hk, lookup_insert_eq. cbn. by destruct (cells !! cell_key b).
  - rewrite union_empty_l_L. destruct (IsEmpty _); [done|]. by rewrite lookup_insert_ne.
Qed.
Lemma cell_weeks buckets key : key.1.1 ≠ "" →
  default ∅ (ce_weekNumbers <$> buildScheduleCells buckets !! key) = list_to_set ((λ b, week_key (bh_BucketHour b)) <$> in_cell key buckets).
Proof.
  intros Hk. unfold buildScheduleCells, in_cell.
  assert (Hgen : ∀ cells, default ∅ (ce_weekNumbers <$> foldl add_bucket cells buckets !! key) =
    list_to_set ((λ b, week_key (bh_BucketHour b)) <$> List.filter (λ b, bool_decide (cell_key b = key)) buckets) ∪ default ∅ (ce_weekNumbers <$> cells !! key)).
  { induction buckets as [|b l IH]; intros cells; cbn [foldl List.filter]; [set_solver|]. rewrite IH, add_bucket_weeks by done.
    destruct (bool_decide _); cbn; set_solver. }
  rewrite Hgen. set_solver.
Qed.
Lemma cells_named buckets key cell : buildScheduleCells buckets !! key = Some cell → key.1.1 ≠ "".
Proof.
  unfold buildScheduleCells. assert (Hgen : ∀ cells, (∀ k c, cells !! k = Some c → k.1.1 ≠ "") → ∀ k c, foldl add_bucket cells buckets !! k = Some c → k.1.1 ≠ "").
  { induction buckets as [|b l IH]; intros cells Hc; cbn; [done|]. apply IH. intros k c. unfold add_bucket. cbv zeta.
    destruct (IsEmpty (cell_key b).1.1) eqn:E; [apply Hc|]. intros [[<- _]|[_ Hk]]%lookup_insert_Some; [by apply IsEmpty_false|by eapply Hc]. }
  apply (Hgen ∅). intros k c ?%lookup_empty_Some. done.
Qed.

(** Two hours with one weekday in different weeks are on different days, a week apart at
    least. *)
Lemma weeks_apart t t' : weekday_of t = weekday_of t' → week_key t ≠ week_key t' → (7 ≤ Z.abs (day_of t - day_of t'))%Z.
Proof.
  intros Hw Hk. assert (Hd : day_of t ≠ day_of t').
  { intros E. apply Hk. unfold week_key, year_of, ISOWeek. by rewrite Hw, E. }
  unfold weekday_of in Hw. clear Hk. Z.to_euclidean_division_equations. lia.
Qed.

(** The stream and the consumer of a finding were seen in its hour of its weekday twice,
    at least a week apart. *)
Definition recurs (buckets : list BottleneckHourBucket) (f : HiddenBottleneckFinding) : Prop :=
  ∃ b b', b ∈ buckets ∧ b' ∈ buckets ∧ cell_key b = cell_key b' ∧
    cell_key b = (hb_Stream f, hb_Consumer f, (hb_Weekday f, hb_HourUTC f)) ∧ (7 ≤ Z.abs (day_of (bh_BucketHour b) - day_of (bh_BucketHour b')))%Z.
Lemma many_weeks buckets key cell : buildScheduleCells buckets !! key = Some cell → bottleneckMinDistinctWeeks ≤ size (ce_weekNumbers cell) →
  ∃ b b', b ∈ buckets ∧ b' ∈ buckets ∧ cell_key b = key ∧ cell_key b' = key ∧ (7 ≤ Z.abs (day_of (bh_BucketHour b) - day_of (bh_BucketHour b')))%Z.
Proof.
  intros Hc Hs. pose proof (cell_weeks buckets key (cells_named _ _ _ Hc)) as Hw. rewrite Hc in Hw. cbn in Hw.
  assert (Hin : ∀ w, w ∈ ce_weekNumbers cell → ∃ b, b ∈ buckets ∧ cell_key b = key ∧ week_key (bh_BucketHour b) = w).
  { intros w. rewrite Hw, elem_of_list_to_set, list_elem_of_fmap. intros (b & -> & [Hb Hk]%elem_of_filter_list). apply bool_decide_eq_true in Hk. eauto. }
  assert (∃ w w', w ∈ ce_weekNumbers cell ∧ w' ∈ ce_weekNumbers cell ∧ w ≠ w') as (w & w' & H1 & H2 & Hne).
  { destruct (set_choose_L (ce_weekNumbers cell)) as [w H1]; [intros E; rewrite E in Hs; unfold bottleneckMinDistinctWeeks in Hs; rewrite size_empty in Hs; lia|].
    destruct (decide (ce_weekNumbers cell ∖ {[w]} = ∅)) as [E|E]; [|destruct (set_choose_L _ E) as [w' [H2 Hne]%elem_of_difference]; exists w, w'; split_and!; [done..|]; by intros ->; apply Hne, elem_of_singleton].
    exfalso. assert (Hsub : ce_weekNumbers cell ⊆ {[w]}).
    { intros x Hx. apply elem_of_singleton. destruct (decide (x = w)) as [|Hx']; [done|]. exfalso. apply (not_elem_of_empty (C := gset Z) x).
      rewrite <- E. apply elem_of_difference. split; [done|]. by rewrite elem_of_singleton. }
    apply subseteq_size in Hsub. rewrite size_singleton in Hsub.
    unfold bottleneckMinDistinctWeeks in Hs. lia. }
  destruct (Hin _ H1) as (b & Hb & Hk & E1). destruct (Hin _ H2) as (b' & Hb' & Hk' & E2). exists b, b'. split_and!; [done..|].
  apply weeks_apart; [|by rewrite E1, E2].
  transitivity key.2.1; [by rewrite <- Hk|by rewrite <- Hk'].
Qed.

(** * Findings *)

Section Findings.
Context (range : range_use → gmap scheduleCellKey scheduleCell → list (scheduleCellKey * scheduleCell)).
(** Ranging over a map meets its entries, each once. *)
Hypothesis range_all : ∀ use m, range use m ≡ₚ map_to_list m.

Lemma consumer_finding_of cells key cell f : f ∈ schedule_findings range cells (key, cell) →
  key = (hb_Stream f, hb_Consumer f, (hb_Weekday f, hb_HourUTC f)) ∧ bottleneckMinDistinctWeeks ≤ size (ce_weekNumbers cell) ∧
  (hb_Severity f = ArchCritical → hb_Kind f = CorrelatedPayloadLag) ∧ hb_Kind f ≠ SchedulePayloadGrowth.
Proof.
  destruct key as [[stream consumer] [weekday h]]. unfold schedule_findings. destruct (IsEmpty consumer); [by intros ?%not_elem_of_nil|].
  destruct (Nat.ltb_spec (size (ce_weekNumbers cell)) bottleneckMinDistinctWeeks) as [|Hs]; [by intros ?%not_elem_of_nil|].
  destruct (_ && _); [by intros ->%list_elem_of_singleton|].
  destruct (elevated _ _ bottleneckLagRatio _), (elevated _ _ bottleneckProcessingRatio _); cbn [app];
    repeat (intros [->|H]%elem_of_cons; [done|revert H]); by intros ?%not_elem_of_nil.
Qed.
Lemma stream_finding_of cells found key cell f : stream_finding range cells found (key, cell) = Some f →
  key = (hb_Stream f, hb_Consumer f, (hb_Weekday f, hb_HourUTC f)) ∧ bottleneckMinDistinctWeeks ≤ size (ce_weekNumbers cell) ∧
  hb_Severity f = ArchInfo ∧ hb_Kind f = SchedulePayloadGrowth.
Proof.
  destruct key as [[stream consumer] [weekday h]]. unfold stream_finding. destruct (IsEmpty consumer) eqn:Hc; [|done]. cbn [negb].
  apply IsEmpty_true in Hc as ->.
  destruct (Nat.ltb_spec (size (ce_weekNumbers cell)) bottleneckMinDistinctWeeks) as [|Hs]; [done|].
  destruct (negb _); [done|]. destruct (covered _ _ _); [done|]. by intros [= <-].
Qed.
Lemma all_findings_of buckets f : f ∈ all_findings range (buildScheduleCells buckets) →
  recurs buckets f ∧ (hb_Severity f = ArchCritical → hb_Kind f = CorrelatedPayloadLag).
Proof using range_all.
  set (cells := buildScheduleCells buckets). assert (Hrec : ∀ use key cell, (key, cell) ∈ range use cells →
    key = (hb_Stream f, hb_Consumer f, (hb_Weekday f, hb_HourUTC f)) → bottleneckMinDistinctWeeks ≤ size (ce_weekNumbers cell) → recurs buckets f).
  { intros use key cell Hin -> Hs. rewrite range_all in Hin. apply elem_of_map_to_list in Hin.
    destruct (many_weeks _ _ _ Hin Hs) as (b & b' & Hb & Hb' & Hk & Hk' & Hd). exists b, b'. split_and!; [done|done|congruence|done|done]. }
  intros [Hin|Hin]%elem_of_app.
  - apply list_elem_of_In, in_flat_map in Hin as ([key cell] & Hkc & Hin). apply list_elem_of_In in Hkc, Hin.
    apply consumer_finding_of in Hin as (Ek & Hs & Hcrit & _). split; [by eapply Hrec|done].
  - apply list_elem_of_omap in Hin as ([key cell] & Hkc & Hin). apply stream_finding_of in Hin as (Ek & Hs & Hinfo & _). split; [by eapply Hrec|congruence].
Qed.

(** ** Order *)

Definition bottleneck_rank (f : HiddenBottleneckFinding) : Z * Z := (kindRank (hb_Kind f), severityRank (hb_Severity f)).
Lemma bottleneck_le_spec f g : bottleneck_le f g = true ↔
  (kindRank (hb_Kind g) < kindRank (hb_Kind f))%Z ∨ kindRank (hb_Kind f) = kindRank (hb_Kind g) ∧
    ((severityRank (hb_Severity g) < severityRank (hb_Severity f))%Z ∨ severityRank (hb_Severity f) = severityRank (hb_Severity g) ∧ String.le (hb_Title f) (hb_Title g)).
Proof.
  unfold bottleneck_le. destruct (Z.eqb_spec (kindRank (hb_Kind f)) (kindRank (hb_Kind g))) as [E|E]; cbn [negb]; [|rewrite Z.ltb_lt; lia].
  destruct (Z.eqb_spec (severityRank (hb_Severity f)) (severityRank (hb_Severity g))) as [E'|E']; cbn [negb]; [|rewrite Z.ltb_lt; lia].
  rewrite bool_decide_eq_true. split; [auto|]. intros [?|[_ [?|[_ ?]]]]; [lia|lia|done].
Qed.
Lemma bottleneck_le_total f g : bottleneck_le f g = false → bottleneck_le g f = true.
Proof.
  rewrite <- not_true_iff_false, !bottleneck_le_spec. intros Hn.
  destruct (Z.lt_total (kindRank (hb_Kind f)) (kindRank (hb_Kind g))) as [?|[E|?]]; [by left| |by destruct Hn; left].
  right. split; [done|]. destruct (Z.lt_total (severityRank (hb_Severity f)) (severityRank (hb_Severity g))) as [?|[E'|?]];
    [by left| |by destruct Hn; right; split; [|left]].
  right. split; [done|]. destruct (total String.le (hb_Title f) (hb_Title g)) as [Ht|Ht]; [|done]. destruct Hn. right. split; [done|]. by right.
Qed.
Lemma bottleneck_le_trans f g h : bottleneck_le f g = true → bottleneck_le g h = true → bottleneck_le f h = true.
Proof.
  rewrite !bottleneck_le_spec. intros [H1|[E1 [H1|[F1 H1]]]] [H2|[E2 [H2|[F2 H2]]]]; try (left; lia); try (right; split; [lia|]; left; lia).
  right. split; [lia|]. right. split; [lia|]. by etrans.
Qed.
End Findings.

(** * The report *)

Definition of_rank (s : ArchSeverity) (l : list HiddenBottleneckFinding) : list HiddenBottleneckFinding :=
  List.filter (λ f, bool_decide (hb_Severity f = s)) l.
Lemma bottleneck_totals_from t l : let t' := foldl tally_bottleneck t l in
  ht_Problems t' = ht_Problems t + length l ∧ ht_Critical t' = ht_Critical t + length (of_rank ArchCritical l) ∧
  ht_Warn t' = ht_Warn t + length (of_rank ArchWarn l) ∧ ht_Info t' = ht_Info t + length (of_rank ArchInfo l).
Proof.
  unfold of_rank. revert t. induction l as [|f l IH]; intros t; cbn [foldl List.filter]; [cbn; lia|].
  destruct (IH (tally_bottleneck t f)) as (E1 & E2 & E3 & E4). cbv zeta. rewrite E1, E2, E3, E4. unfold tally_bottleneck. cbn [ht_Problems ht_Critical ht_Warn ht_Info].
  split; [cbn; lia|]. split_and!; (case_bool_decide; cbn; lia).
Qed.
Lemma of_rank_some s l : 0 < length (of_rank s l) ↔ ∃ f, f ∈ l ∧ hb_Severity f = s.
Proof.
  split.
  - destruct (of_rank s l) as [|f k] eqn:E; cbn; [lia|]. intros _. exists f.
    assert (Hf : f ∈ of_rank s l) by (rewrite E; left). apply elem_of_filter_list in Hf as [Hf Hs]. by apply bool_decide_eq_true in Hs.
  - intros (f & Hf & Hs). assert (Hf' : f ∈ of_rank s l) by (apply elem_of_filter_list; rewrite bool_decide_eq_true; done).
    destruct (of_rank s l); [by apply not_elem_of_nil in Hf'|cbn; lia].
Qed.
Lemma bottleneck_verdict_spec l : let t := foldl tally_bottleneck no_totals l in
  (bottleneck_verdict t = AtRisk ↔ ∃ f, f ∈ l ∧ hb_Severity f = ArchCritical) ∧ (bottleneck_verdict t = Healthy ↔ l = []).
Proof.
  destruct (bottleneck_totals_from no_totals l) as (_ & E2 & E3 & E4). cbv zeta. unfold bottleneck_verdict. rewrite E2, E3, E4. cbn [ht_Critical ht_Warn ht_Info no_totals Nat.add].
  rewrite <- of_rank_some. split.
  - destruct (Nat.ltb_spec 0 (length (of_rank ArchCritical l))); [done|]. split; [by destruct (_ || _)|lia].
  - destruct l as [|f l]; [done|]. split; [|done]. intros H. exfalso. revert H.
    assert (Hs : 0 < length (of_rank (hb_Severity f) (f :: l))) by (apply of_rank_some; exists f; split; [left|done]). apply Nat.ltb_lt in Hs.
    destruct (hb_Severity f); rewrite Hs; repeat destruct (Nat.ltb 0 _); done.
Qed.
(** What comes before a critical correlation is one, too. *)
Lemma before_critical f g : hb_Severity f = ArchCritical → hb_Kind f = CorrelatedPayloadLag → bottleneck_le g f = true → hb_Severity g = ArchCritical.
Proof.
  intros Hs Hk Hle%bottleneck_le_spec. rewrite Hs, Hk in Hle. cbn in Hle. destruct (hb_Kind g), (hb_Severity g); cbn in Hle; (done || (exfalso; lia)).
Qed.
(** A non-empty prefix of the sorted findings has a critical one when the whole has. *)
Lemma cut_keeps_critical n l : 0 < n → (∀ f, f ∈ l → hb_Severity f = ArchCritical → hb_Kind f = CorrelatedPayloadLag) →
  StronglySorted (λ f g, bottleneck_le f g = true) l →
  (∃ f, f ∈ take n l ∧ hb_Severity f = ArchCritical) ↔ ∃ f, f ∈ l ∧ hb_Severity f = ArchCritical.
Proof.
  intros Hn Hc Hs. split; [intros (f & Hf & Hf'); exists f; split; [|done]; rewrite <- (take_drop n l); apply elem_of_app; by left|].
  intros (f & Hf & Hf'). destruct l as [|g l]; [by apply not_elem_of_nil in Hf|]. destruct n as [|n]; [lia|]. exists g. split; [left|].
  apply elem_of_cons in Hf as [->|Hf]; [done|]. apply StronglySorted_inv in Hs as [_ Hg]. rewrite Forall_forall in Hg.
  eapply before_critical; [exact Hf'|apply Hc; [by right|done]|by apply Hg].
Qed.

(** C39. What the report of hidden bottlenecks shows, whatever order Go takes the cells
    in: every finding is about a stream (and a consumer) that was rolled up in this hour
    of this weekday at least twice, a week or more apart; at most twenty findings are
    shown, by kind, severity and title; the totals count what is shown; and although
    what is beyond the twentieth is cut off before the verdict is given, the verdict is
    "at risk" exactly when some finding of all is critical, and "healthy" exactly when
    there is none at all. *)
Theorem hidden_bottlenecks_sound range (Hrange : ∀ use m, range use m ≡ₚ map_to_list m) buckets :
  let snap := DiscoverHiddenBottlenecks range buckets in
  let all := all_findings range (buildScheduleCells buckets) in
  (∀ f, f ∈ hs_Findings snap → f ∈ all ∧ recurs buckets f) ∧
  length (hs_Findings snap) = Nat.min bottleneckMaxFindings (length all) ∧
  StronglySorted (λ f g, bottleneck_le f g = true) (hs_Findings snap) ∧
  ht_Problems (hs_Totals snap) = length (hs_Findings snap) ∧
  ht_Critical (hs_Totals snap) = length (of_rank ArchCritical (hs_Findings snap)) ∧
  ht_Warn (hs_Totals snap) = length (of_rank ArchWarn (hs_Findings snap)) ∧
  ht_Info (hs_Totals snap) = length (of_rank ArchInfo (hs_Findings snap)) ∧
  (hs_Verdict snap = AtRisk ↔ ∃ f, f ∈ all ∧ hb_Severity f = ArchCritical) ∧
  (hs_Verdict snap = Healthy ↔ all = []).
Proof.
  set (all := all_findings range (buildScheduleCells buckets)). set (sorted := sort_stable bottleneck_le all).
  assert (Hsnap : let snap := DiscoverHiddenBottlenecks range buckets in hs_Findings snap = take bottleneckMaxFindings sorted ∧
    hs_Totals snap = foldl tally_bottleneck no_totals (take bottleneckMaxFindings sorted) ∧ hs_Verdict snap = bottleneck_verdict (hs_Totals snap)).
  { destruct buckets as [|b l]; [|done]. subst sorted. assert (all = []) as ->; [|done]. subst all.
    destruct (all_findings range (buildScheduleCells [])) as [|f k] eqn:E; [done|]. exfalso.
    assert (Hf : f ∈ all_findings range (buildScheduleCells [])) by (rewrite E; left).
    apply all_findings_of in Hf as [(b & _ & Hb & _) _]; [by apply not_elem_of_nil in Hb|done]. }
  cbv zeta in Hsnap |- *. destruct Hsnap as (EF & ET & EV). rewrite EV, ET, EF. fold all.
  assert (Hperm : sorted ≡ₚ all) by apply sort_stable_perm.
  assert (Hsorted : StronglySorted (λ f g, bottleneck_le f g = true) sorted) by (apply sort_stable_sorted; [exact bottleneck_le_total|exact bottleneck_le_trans]).
  destruct (bottleneck_totals_from no_totals (take bottleneckMaxFindings sorted)) as (T1 & T2 & T3 & T4).
  destruct (bottleneck_verdict_spec (take bottleneckMaxFindings sorted)) as [V1 V2]. rewrite T1, T2, T3, T4.
  split_and!; [| | |done..| |].
  - intros f Hf. assert (Hin : f ∈ all) by (rewrite <- Hperm, <- (take_drop bottleneckMaxFindings sorted); apply elem_of_app; by left).
    split; [done|]. by apply all_findings_of in Hin as [Hr _].
  - rewrite length_take. by rewrite Hperm.
  - apply (StronglySorted_app_1_l _ _ (drop bottleneckMaxFindings sorted)). by rewrite take_drop.
  - rewrite V1, cut_keeps_critical; [|unfold bottleneckMaxFindings; lia| |done].
    + by setoid_rewrite Hperm.
    + intros f Hf. rewrite Hperm in Hf. by apply all_findings_of in Hf as [_ Hc].
  - rewrite V2. split; [|intros E; rewrite E in Hperm; by apply Permutation_nil_r in Hperm as ->].
    intros E. apply Permutation_nil_r. rewrite <- Hperm. by destruct sorted.
Qed.
Definition in_key_order (use : range_use) (m : gmap scheduleCellKey scheduleCell) : list (scheduleCellKey * scheduleCell) := map_to_list m.
Lemma hidden_bottlenecks_sound_witness :
  let snap := DiscoverHiddenBottlenecks in_key_order (flat_map (demo_week (days_of 2026 3 4 * day_ns)) [0; 1; 2; 3]%Z) in
  length (hs_Findings snap) = 1 ∧ hs_Verdict snap = AtRisk ∧ ∀ f, f ∈ hs_Findings snap → recurs (flat_map (demo_week (days_of 2026 3 4 * day_ns)) [0; 1; 2; 3]%Z) f.
Proof.
  destruct (hidden_bottlenecks_sound in_key_order (λ _ _, Permutation_refl _) (flat_map (demo_week (days_of 2026 3 4 * day_ns)) [0; 1; 2; 3]%Z)) as [H _].
  split_and!; [vm_compute; reflexivity|vm_compute; reflexivity|]. intros f Hf. exact (proj2 (H f Hf)).
Defined.

(** * Findings on the code *)

(** "Mix year into week key so multi-year retention still works": the year is the
    calendar's and the week the ISO one, so that the first Monday of 2024 and the last one
    fall on the same key. *)
Lemma weeks_a_year_apart_collide : week_key (days_of 2024 1 1 * day_ns) = week_key (days_of 2024 12 30 * day_ns).
Proof. vm_compute. reflexivity. Qed.
(** The title of a lag spike does not name the stream: the spikes of one consumer name on
    two streams tie, and the order of the map decides which is shown first. *)
Definition in_reverse (use : range_use) (m : gmap scheduleCellKey scheduleCell) : list (scheduleCellKey * scheduleCell) := rev (map_to_list m).
Definition spikes_on (stream : string) : list BottleneckHourBucket :=
  (λ week, mkBucket "" stream "w" (week * 7 * day_ns)%Z (f64 400) (f64 400) (f64 0) None 1) <$> [0; 1]%Z.
Lemma spike_order_is_open :
  hs_Findings (DiscoverHiddenBottlenecks in_key_order (spikes_on "A" ++ spikes_on "B")) ≠
  hs_Findings (DiscoverHiddenBottlenecks in_reverse (spikes_on "A" ++ spikes_on "B")).
Proof.
  intros E. apply (f_equal (λ l, hb_Stream <$> l)) in E. revert E. vm_compute. discriminate.
Qed.
