(* ===== verification/JsonValid.v ===== *)
(** [json.Valid] of package encoding/json: its scanner, a machine with a stack of the
    arrays and objects it is in. *)

From S2P Require Export Prelude.
From S2P Require Import GoStrings.
From Stdlib Require Import Ascii.

(** What is read in the innermost container, and what is read next. *)
Inductive json_context := ParseObjectKey | ParseObjectValue | ParseArrayValue.
Inductive json_state :=
  | BeginValueOrEmpty | BeginValue | BeginStringOrEmpty | BeginString
  | InString | InStringEsc | InStringHex (left : nat)
  | AfterMinus | AfterDigit | AfterZero | AfterDot | AfterFraction | AfterE | AfterESign | AfterExponent
  | InLiteral (rest : list ascii)
  | EndValue | EndTop.
Definition maxNestingDepth : nat := 10000.

Definition json_space (c : ascii) : bool :=
  let n := nat_of_ascii c in Nat.eqb n 32 || Nat.eqb n 9 || Nat.eqb n 10 || Nat.eqb n 13.
Definition json_digit (c : ascii) : bool := let n := nat_of_ascii c in Nat.leb 48 n && Nat.leb n 57.
Definition json_hex (c : ascii) : bool :=
  let n := nat_of_ascii c in json_digit c || (Nat.leb 97 n && Nat.leb n 102) || (Nat.leb 65 n && Nat.leb n 70).
Definition is_char (c d : ascii) : bool := Ascii.eqb c d.
Definition dquote_char : ascii := ascii_of_nat 34.
Definition backslash_char : ascii := ascii_of_nat 92.

Abbreviation json_config := (json_state * list json_context)%type.
Definition push_state (st : json_state) (c : json_context) (stack : list json_context) : option json_config :=
  if Nat.ltb (length stack) maxNestingDepth then Some (st, c :: stack) else None.
Definition pop_state (stack : list json_context) : json_config :=
  match tail stack with [] => (EndTop, []) | l => (EndValue, l) end.
Definition step_end (stack : list json_context) (c : ascii) : option json_config :=
  match stack with
  | [] => if json_space c then Some (EndTop, []) else None
  | top :: rest =>
      if json_space c then Some (EndValue, stack)
      else match top with
      | ParseObjectKey => if is_char c ":" then Some (BeginValue, ParseObjectValue :: rest) else None
      | ParseObjectValue =>
          if is_char c "," then Some (BeginString, ParseObjectKey :: rest)
          else if is_char c "}" then Some (pop_state stack) else None
      | ParseArrayValue =>
          if is_char c "," then Some (BeginValue, stack) else if is_char c "]" then Some (pop_state stack) else None
      end
  end.
Definition step_value (stack : list json_context) (c : ascii) : option json_config :=
  if json_space c then Some (BeginValue, stack)
  else if is_char c "{" then push_state BeginStringOrEmpty ParseObjectKey stack
  else if is_char c "[" then push_state BeginValueOrEmpty ParseArrayValue stack
  else if is_char c dquote_char then Some (InString, stack)
  else if is_char c "-" then Some (AfterMinus, stack)
  else if is_char c "0" then Some (AfterZero, stack)
  else if is_char c "t" then Some (InLiteral (bytes_of "rue"), stack)
  else if is_char c "f" then Some (InLiteral (bytes_of "alse"), stack)
  else if is_char c "n" then Some (InLiteral (bytes_of "ull"), stack)
  else if json_digit c then Some (AfterDigit, stack)
  else None.
Definition step_string (stack : list json_context) (c : ascii) : option json_config :=
  if json_space c then Some (BeginString, stack) else if is_char c dquote_char then Some (InString, stack) else None.
Definition step_zero (stack : list json_context) (c : ascii) : option json_config :=
  if is_char c "." then Some (AfterDot, stack)
  else if is_char c "e" || is_char c "E" then Some (AfterE, stack)
  else step_end stack c.
Definition json_step (st : json_state) (stack : list json_context) (c : ascii) : option json_config :=
  match st with
  | BeginValueOrEmpty =>
      if json_space c then Some (BeginValueOrEmpty, stack)
      else if is_char c "]" then step_end stack c else step_value stack c
  | BeginValue => step_value stack c
  | BeginStringOrEmpty =>
      if json_space c then Some (BeginStringOrEmpty, stack)
      else if is_char c "}" then step_end (ParseObjectValue :: tail stack) c else step_string stack c
  | BeginString => step_string stack c
  | InString =>
      if is_char c dquote_char then Some (EndValue, stack)
      else if is_char c backslash_char then Some (InStringEsc, stack)
      else if Nat.ltb (nat_of_ascii c) 32 then None else Some (InString, stack)
  | InStringEsc =>
      if existsb (is_char c) (dquote_char :: backslash_char :: bytes_of "/bfnrt") then Some (InString, stack)
      else if is_char c "u" then Some (InStringHex 4, stack) else None
  | InStringHex n =>
      if json_hex c then Some (match n with S (S n) => InStringHex (S n) | _ => InString end, stack) else None
  | AfterMinus => if is_char c "0" then Some (AfterZero, stack) else if json_digit c then Some (AfterDigit, stack) else None
  | AfterDigit => if json_digit c then Some (AfterDigit, stack) else step_zero stack c
  | AfterZero => step_zero stack c
  | AfterDot => if json_digit c then Some (AfterFraction, stack) else None
  | AfterFraction =>
      if json_digit c then Some (AfterFraction, stack)
      else if is_char c "e" || is_char c "E" then Some (AfterE, stack) else step_end stack c
  | AfterE =>
      if is_char c "+" || is_char c "-" then Some (AfterESign, stack)
      else if json_digit c then Some (AfterExponent, stack) else None
  | AfterESign => if json_digit c then Some (AfterExponent, stack) else None
  | AfterExponent => if json_digit c then Some (AfterExponent, stack) else step_end stack c
  | InLiteral (d :: rest) => if is_char c d then Some (match rest with [] => EndValue | _ => InLiteral rest end, stack) else None
  | InLiteral [] => None
  | EndValue => step_end stack c
  | EndTop => if json_space c then Some (EndTop, stack) else None
  end.
Fixpoint json_scan (st : json_state) (stack : list json_context) (s : list ascii) : option json_config :=
  match s with
  | [] => Some (st, stack)
  | c :: s => match json_step st stack c with Some (st, stack) => json_scan st stack s | None => None end
  end.
(** At the end a space completes a number. *)
Definition json_Valid (raw : string) : bool :=
  match json_scan BeginValue [] (bytes_of raw ++ [ascii_of_nat 32]) with Some (EndTop, _) => true | _ => false end.

Definition quoted_text (s : string) : string := String dquote_char s +:+ String dquote_char "".
Example json_valid : json_Valid <$> [" {}"; "[1, -2.5e+3,[true] ,null]"; "{" +:+ quoted_text "a" +:+ ":[]}"; quoted_text "x"; "0"; "1e9 "] =
  [true; true; true; true; true; true].
Proof. by vm_compute. Qed.
Example json_invalid : json_Valid <$> [""; "{,}"; "[1,]"; "01"; "nul"; "1 2"; quoted_text "x" +:+ ":"; "{" +:+ quoted_text "a" +:+ "}"; "-"; "1."; "]"] =
  [false; false; false; false; false; false; false; false; false; false; false].
Proof. by vm_compute. Qed.
