(* ===== verification/Durations.v ===== *)
(** [time.ParseDuration] of package time: a sequence of decimal numbers with units. *)

From S2P Require Export Floats Dates.
From S2P Require Import GoStrings.
From Stdlib Require Import Ascii.

Definition two63 : Z := 2 ^ 63.
(** Digits; [None] beyond 2^63. *)
Fixpoint leadingInt (x : Z) (s : list ascii) : option (Z * list ascii) :=
  match s with
  | a :: s' =>
      match digit a with
      | Some n =>
          if Z.ltb (two63 / 10) x then None
          else let y := (x * 10 + n)%Z in if Z.ltb two63 y then None else leadingInt y s'
      | None => Some (x, s)
      end
  | [] => Some (x, [])
  end.
(** Digits and their scale; those that do not fit are passed over. *)
Fixpoint leadingFraction (overflow : bool) (x scale : Z) (s : list ascii) : Z * Z * list ascii :=
  match s with
  | a :: s' =>
      match digit a with
      | Some n =>
          if overflow then leadingFraction true x scale s'
          else if Z.ltb ((two63 - 1) / 10) x then leadingFraction true x scale s'
          else let y := (x * 10 + n)%Z in
               if Z.ltb two63 y then leadingFraction true x scale s' else leadingFraction false y (scale * 10) s'
      | None => (x, scale, s)
      end
  | [] => (x, scale, [])
  end.
Definition number_char (a : ascii) : bool := Ascii.eqb a "." || bool_decide (is_Some (digit a)).
Fixpoint unit_part (s : list ascii) : list ascii * list ascii :=
  match s with
  | a :: s' => if number_char a then ([], s) else let '(u, r) := unit_part s' in (a :: u, r)
  | [] => ([], [])
  end.
Definition unit_of (u : list ascii) : option Z :=
  let u := of_bytes u in
  if u =s "ns" then Some 1%Z
  else if u ∈b ["us"; "µs"; "μs"] then Some 1000%Z
  else if u =s "ms" then Some 1000000%Z
  else if u =s "s" then Some second
  else if u =s "m" then Some minute
  else if u =s "h" then Some hour
  else None.
(** One number with its unit; something of the text is taken. *)
Definition duration_part (s : list ascii) : option (Z * list ascii) :=
  match s with
  | a :: _ =>
      if negb (number_char a) then None
      else match leadingInt 0 s with
      | None => None
      | Some (v, s1) =>
          let pre := negb (Nat.eqb (length s1) (length s)) in
          let '(f, scale, post, s2) :=
            match s1 with
            | b :: r => if Ascii.eqb b "." then let '(f, scale, s2) := leadingFraction false 0 1 r in (f, scale, negb (Nat.eqb (length s2) (length r)), s2)
                        else (0, 1, false, s1)%Z
            | [] => (0, 1, false, s1)%Z
            end in
          if negb pre && negb post then None
          else
            let '(u, s3) := unit_part s2 in
            match unit_of u with
            | None => None
            | Some unit =>
                if Z.ltb (two63 / unit) v then None
                else
                  let v := (v * unit)%Z in
                  let v := if Z.ltb 0 f then (v + f_int (fmul (f64 f) (fdiv (f64 unit) (f64 scale))))%Z else v in
                  if Z.ltb two63 v then None else Some (v, s3)
            end
      end
  | [] => None
  end.
(** [fuel]: at least the length of [s]. *)
Fixpoint duration_parts (fuel : nat) (d : Z) (s : list ascii) : option Z :=
  match s, fuel with
  | [], _ => Some d
  | _, O => None
  | _, S fuel =>
      match duration_part s with
      | None => None
      | Some (v, rest) => let d := (d + v)%Z in if Z.ltb two63 d then None else duration_parts fuel d rest
      end
  end.
Definition ParseDuration (s : string) : option Z :=
  let '(neg, l) := match bytes_of s with
                   | a :: r => if Ascii.eqb a "-" then (true, r) else if Ascii.eqb a "+" then (false, r) else (false, a :: r)
                   | [] => (false, [])
                   end in
  if bool_decide (l = bytes_of "0") then Some 0%Z
  else if Nat.eqb (length l) 0 then None
  else match duration_parts (length l) 0 l with
  | None => None
  | Some d => if neg then Some (- d)%Z else if Z.ltb (two63 - 1) d then None else Some d
  end.

Example durations : ParseDuration <$> ["1.5ms"; "2h3m"; "-10us"; "0"; "3.25µs"; "+1s"; ".5s"] =
  [Some 1500000; Some 7380000000000; Some (-10000); Some 0; Some 3250; Some 1000000000; Some 500000000]%Z.
Proof. by vm_compute. Qed.
Example not_durations : ParseDuration <$> [""; "-"; "1"; "s"; "1x"; "1s "; "9223372036854775808ns"; "."; ".s"] = replicate 9 None.
Proof. by vm_compute. Qed.

(** A number takes something of the text, so that the fuel is enough. *)
Lemma leadingInt_length x s y r : leadingInt x s = Some (y, r) → length r ≤ length s.
Proof.
  revert x. induction s as [|a s IH]; intros x; cbn; [by intros [= <- <-]|]. destruct (digit a); [|by intros [= <- <-]].
  destruct (Z.ltb _ _); [done|]. destruct (Z.ltb _ _); [done|]. intros Hr%IH. lia.
Qed.
Lemma leadingFraction_length o x scale s y sc r : leadingFraction o x scale s = (y, sc, r) → length r ≤ length s.
Proof.
  revert o x scale. induction s as [|a s IH]; intros o x scale; cbn; [by intros [= <- <- <-]|]. destruct (digit a); [|by intros [= <- <- <-]].
  destruct o; [intros Hr%IH; lia|]. destruct (Z.ltb _ x); [intros Hr%IH; lia|]. destruct (Z.ltb _ _); intros Hr%IH; lia.
Qed.
Lemma unit_part_length s u r : unit_part s = (u, r) → length s = length u + length r.
Proof.
  revert u. induction s as [|a s IH]; intros u; cbn; [by intros [= <- <-]|]. destruct (number_char a); [by intros [= <- <-]|].
  destruct (unit_part s) as [u' r']. intros [= <- <-]. cbn. rewrite (IH _ eq_refl). done.
Qed.
Lemma duration_part_shorter s v r : duration_part s = Some (v, r) → length r < length s.
Proof.
  unfold duration_part. destruct s as [|a s]; [done|]. destruct (negb _); [done|]. destruct (leadingInt 0 (a :: s)) as [[x s1]|] eqn:E1; [|done].
  apply leadingInt_length in E1. cbv zeta.
  destruct (match s1 with b :: r0 => _ | [] => _ end) as [[[f scale] post] s2] eqn:E2.
  assert (H2 : length s2 ≤ length s1).
  { destruct s1 as [|b r0]; [by injection E2 as _ _ _ <-|]. destruct (Ascii.eqb b "."); [|by injection E2 as _ _ _ <-].
    destruct (leadingFraction false 0 1 r0) as [[f' sc'] s2'] eqn:E3. apply leadingFraction_length in E3. injection E2 as _ _ _ <-. cbn. lia. }
  destruct (_ && _); [done|]. destruct (unit_part s2) as [u s3] eqn:E3. apply unit_part_length in E3.
  destruct (unit_of u) as [unit|] eqn:Eu; [|done]. destruct (Z.ltb _ x); [done|]. destruct (Z.ltb two63 _); [done|]. intros [= _ <-].
  destruct u; [by vm_compute in Eu|]. cbn [length] in *. lia.
Qed.
Lemma duration_parts_fuel n m d s : length s ≤ n → length s ≤ m → duration_parts n d s = duration_parts m d s.
Proof.
  revert m d s. induction n as [|n IH]; intros m d s Hn Hm; destruct s as [|a s]; cbn [length] in *; [by destruct m|lia|by destruct m|].
  destruct m as [|m]; [lia|]. cbn [duration_parts]. destruct (duration_part (a :: s)) as [[v r]|] eqn:E; [|done].
  apply duration_part_shorter in E. cbn [length] in E. destruct (Z.ltb _ _); [done|]. apply IH; lia.
Qed.
