(* ===== verification/Probes.v ===== *)
(** Request-reply probes: the requests of internal/domain/request_reply.go, the table of
    internal/repo/request_reply_probes.go with its queries and migrations/017 and 018,
    and the runs of internal/nats/request_reply_probes.go over [Client.ProbeRequest] of
    internal/nats/client.go.

    What the connection answers is an argument of a run, the names of the content types
    in the NATS library are the class [ProbeLib]. *)

From S2P Require Export Store Metrics JsonValid Monitoring.
From S2P Require Import GoStrings Base64 Sorting Runes.
From Stdlib Require Import Ascii.

Definition DefaultRequestReplyTimeoutMs : Z := 2000.
Definition MaxRequestReplyTimeoutMs : Z := 30000.
Definition MaxRequestReplyPayloadBytes : nat := 64 * 1024.
Definition MaxRequestReplyReplyPreview : nat := 16 * 1024.
Definition MaxRequestReplyProbesPerCluster : nat := 50.

Definition RequestReplyFormatJSON : string := "json".
Definition RequestReplyFormatMsgPack : string := "msgpack".
Definition RequestReplyFormatProtobuf : string := "protobuf".
Definition RequestReplyFormatRaw : string := "raw".

Record RequestReplyProbe := mkProbe {
  rp_CreatedAt : Z;
  rp_UpdatedAt : Z;
  rp_ID : string;
  rp_ClusterID : string;
  rp_Subject : string;
  rp_PayloadB64 : string;
  rp_PayloadFormat : string;
  rp_TimeoutMs : Z;
  rp_Enabled : bool;
}.
Record RequestReplyProbeCreate := mkProbeCreate {
  pc_Enabled : option bool;
  pc_Subject : string;
  pc_PayloadB64 : string;
  pc_PayloadFormat : string;
  pc_TimeoutMs : Z;
}.
Record RequestReplyProbeUpdate := mkProbeUpdate {
  pu_Subject : option string;
  pu_PayloadB64 : option string;
  pu_PayloadFormat : option string;
  pu_TimeoutMs : option Z;
  pu_Enabled : option bool;
}.
Record RequestReplyProbeRunResult := mkProbeRun {
  pn_MeasuredAt : Z;
  pn_ReplyHeaders : list (string * string);
  pn_Subject : string;
  pn_Error : string;
  pn_ReplyDataB64 : string;
  pn_ReplyFormat : string;
  pn_LatencyMs : spec_float;
  pn_OK : bool;
}.
Definition WithoutPayload (p : RequestReplyProbe) : RequestReplyProbe :=
  mkProbe (rp_CreatedAt p) (rp_UpdatedAt p) (rp_ID p) (rp_ClusterID p) (rp_Subject p) "" (rp_PayloadFormat p) (rp_TimeoutMs p) (rp_Enabled p).

(** * Validation *)

(** [unicode.IsSpace] of a rune *)
Definition IsSpace (r : string) : bool :=
  match bytes_of r with [a] => space1 a | [a; b] => space2 a b | [a; b; c] => space3 a b c | _ => false end.
Definition wildcard_char (a : ascii) : bool := Ascii.eqb a "*" || Ascii.eqb a ">".
(** What [validateProbePayload] accepts, decoded. *)
Definition validateProbePayload_known (format payloadB64 : string) : result err unit :=
  if IsEmpty payloadB64 then Ok tt
  else match DecodeString payloadB64 with
  | None => Err (ErrMsg "payloadB64 must be valid base64")
  | Some raw =>
      if Nat.ltb MaxRequestReplyPayloadBytes (String.length raw) then Err (ErrMsg "payload must be <= 65536 bytes")
      else if (format =s RequestReplyFormatJSON) && negb (Nat.eqb (String.length raw) 0) && negb (json_Valid raw)
           then Err (ErrMsg "payload must be valid JSON for json format")
      else Ok tt
  end.
Definition NormalizeProbeTimeoutMs (timeoutMs : Z) : result err Z :=
  if Z.ltb timeoutMs 0 then Err (ErrMsg "timeoutMs must be non-negative")
  else if Z.eqb timeoutMs 0 then Ok DefaultRequestReplyTimeoutMs
  else if Z.ltb MaxRequestReplyTimeoutMs timeoutMs then Err (ErrMsg "timeoutMs must be <= 30000")
  else Ok timeoutMs.

Section Unicode.
Context `{GoUnicode}.
Definition Normalize (f : string) : string :=
  let f := ToLower (TrimSpace f) in
  if f =s RequestReplyFormatMsgPack then RequestReplyFormatMsgPack
  else if f =s RequestReplyFormatProtobuf then RequestReplyFormatProtobuf
  else if f =s RequestReplyFormatRaw then RequestReplyFormatRaw
  else if (f =s RequestReplyFormatJSON) || IsEmpty f then RequestReplyFormatJSON
  else "".
(** The format that is stored. *)
Definition or_json (f : string) : string := let f := Normalize f in if IsEmpty f then RequestReplyFormatJSON else f.
Definition validateProbePayload (format payloadB64 : string) : result err unit := validateProbePayload_known (Normalize format) payloadB64.
Definition ValidateProbeSubject (subject : string) : result err unit :=
  if existsb wildcard_char (bytes_of subject) then Err (ErrMsg "probe subject cannot contain wildcards")
  else
    let upper := ToUpper subject in
    if HasPrefix upper "$JS." then Err (ErrMsg "JetStream API subjects cannot be probed")
    else if HasPrefix upper "$SYS." then Err (ErrMsg "system subjects cannot be probed")
    else if HasPrefix upper "_INBOX." then Err (ErrMsg "inbox subjects cannot be probed")
    else if HasPrefix subject "$" then Err (ErrMsg "reserved $ subjects cannot be probed")
    else
      (fix tokens (l : list string) : result err unit :=
         match l with
         | [] => Ok tt
         | part :: l =>
             if IsEmpty part then Err (ErrMsg "probe subject cannot contain empty tokens")
             else if existsb IsSpace (runes part) then Err (ErrMsg "probe subject cannot contain whitespace in tokens")
             else tokens l
         end) (Split subject ".").
Definition CanonicalProbeSubject (subject : string) : result err string :=
  let subject := TrimSpace subject in
  if IsEmpty subject then Err (ErrMsg "subject is required")
  else match ValidateProbeSubject subject with Ok _ => Ok subject | Err e => Err e end.

Definition first_error {A} (r : result err A) (k : result err unit) : result err unit := match r with Ok _ => k | Err e => Err e end.
Definition ErrPayloadFormat : err := ErrMsg "payloadFormat must be json, msgpack, protobuf, or raw".
Definition Create_Validate (c : RequestReplyProbeCreate) : result err unit :=
  first_error (CanonicalProbeSubject (pc_Subject c))
    (first_error (NormalizeProbeTimeoutMs (pc_TimeoutMs c))
       (let format := Normalize (pc_PayloadFormat c) in
        if IsEmpty format then Err ErrPayloadFormat else validateProbePayload format (pc_PayloadB64 c))).
Definition ValidateUpdate (u : RequestReplyProbeUpdate) (currentFormat : string) : result err unit :=
  first_error (match pu_Subject u with Some s => CanonicalProbeSubject s | None => Ok "" end)
    (first_error (match pu_TimeoutMs u with Some t => NormalizeProbeTimeoutMs t | None => Ok 0%Z end)
       (let format := match pu_PayloadFormat u with Some f => Normalize f | None => or_json currentFormat end in
        if IsEmpty format then Err ErrPayloadFormat
        else match pu_PayloadB64 u with Some p => validateProbePayload format p | None => Ok tt end)).

(** * The table *)

Record probe_row := mkProbeRow {
  pw_id : string;
  pw_cluster : string;
  pw_subject : string;
  pw_payload : string;   (* bytes *)
  pw_format : string;
  pw_timeout : Z;
  pw_enabled : bool;
  pw_created : Z;
  pw_updated : Z;
}.
Record ProbeTables := mkProbeTables { pt_up : bool; pt_clusters : list string; pt_rows : list probe_row }.
Definition set_rows (l : list probe_row) (t : ProbeTables) : ProbeTables := mkProbeTables (pt_up t) (pt_clusters t) l.
Abbreviation PrM := (M ProbeTables err).
Definition probes_online : PrM unit := let! t := get in ensure (pt_up t) ErrDB.
Definition ErrRequestReplyProbeNotFound : err := ErrMsg "request reply probe not found".

Definition decodeProbePayload (payloadB64 : string) : option string := if IsEmpty payloadB64 then Some "" else DecodeString payloadB64.
Definition encodeProbePayload (payload : string) : string := if Nat.eqb (String.length payload) 0 then "" else EncodeToString payload.
Definition mustDecodeProbePayload (payloadB64 : string) : string := default "" (decodeProbePayload payloadB64).
Definition scanRequestReplyProbe (r : probe_row) : RequestReplyProbe :=
  mkProbe (pw_created r) (pw_updated r) (pw_id r) (pw_cluster r) (pw_subject r) (encodeProbePayload (pw_payload r))
    (or_json (pw_format r)) (pw_timeout r) (pw_enabled r).
(** [ORDER BY subject ASC] *)
Definition row_le (a b : probe_row) : bool := bool_decide (String.le (pw_subject a) (pw_subject b)).
Definition cluster_rows (clusterID : string) (t : ProbeTables) : list probe_row := List.filter (λ r, pw_cluster r =s clusterID) (pt_rows t).
Definition ListRequestReplyProbes (clusterID : string) : PrM (list RequestReplyProbe) :=
  probes_online ;;
  let! t := get in
  ret (scanRequestReplyProbe <$> sort_stable row_le (cluster_rows clusterID t)).
Definition ListRequestReplyProbesPublic (clusterID : string) : PrM (list RequestReplyProbe) :=
  let! probes := ListRequestReplyProbes clusterID in ret (WithoutPayload <$> probes).
Definition ListEnabledRequestReplyProbes (clusterID : string) : PrM (list RequestReplyProbe) :=
  probes_online ;;
  let! t := get in
  ret (scanRequestReplyProbe <$> sort_stable row_le (List.filter pw_enabled (cluster_rows clusterID t))).
Definition is_probe (clusterID probeID : string) (r : probe_row) : bool := (pw_cluster r =s clusterID) && (pw_id r =s probeID).
Definition GetRequestReplyProbe (clusterID probeID : string) : PrM RequestReplyProbe :=
  probes_online ;;
  let! t := get in
  match List.find (is_probe clusterID probeID) (pt_rows t) with
  | Some r => ret (scanRequestReplyProbe r)
  | None => fail ErrRequestReplyProbeNotFound
  end.
(** The primary key, the reference to the cluster, and one probe per cluster and subject. *)
Definition insertable (r : probe_row) (t : ProbeTables) : bool :=
  (pw_cluster r ∈b pt_clusters t) && negb (existsb (λ r', pw_id r' =s pw_id r) (pt_rows t)) &&
  negb (existsb (λ r', (pw_cluster r' =s pw_cluster r) && (pw_subject r' =s pw_subject r)) (pt_rows t)).
Definition insert_probe (r : probe_row) : PrM unit :=
  probes_online ;;
  let! t := get in
  ensure (insertable r t) ErrDB ;;
  modify (set_rows (pt_rows t ++ [r])).
Definition update_probe (now : Z) (clusterID probeID subject payload format : string) (timeoutMs : Z) (enabled : bool) : PrM unit :=
  probes_online ;;
  let! t := get in
  ensure (negb (existsb (λ r, (pw_cluster r =s clusterID) && (pw_subject r =s subject) && negb (pw_id r =s probeID)) (pt_rows t)) ||
          negb (existsb (is_probe clusterID probeID) (pt_rows t))) ErrDB ;;
  modify (set_rows ((λ r, if is_probe clusterID probeID r
                          then mkProbeRow (pw_id r) (pw_cluster r) subject payload format timeoutMs enabled (pw_created r) now else r) <$> pt_rows t)).

(** [id], [now]: [newID] and [NOW()]. *)
Definition count_probes (clusterID : string) : PrM unit :=
  let! existing := ListRequestReplyProbes clusterID in
  ensure (negb (Nat.leb MaxRequestReplyProbesPerCluster (length existing))) (ErrMsg "at most 50 probes per cluster").
Definition CreateRequestReplyProbe (id : string) (now : Z) (clusterID : string) (c : RequestReplyProbeCreate) : PrM RequestReplyProbe :=
  lift (Create_Validate c) ;;
  let! subject := lift (CanonicalProbeSubject (pc_Subject c)) in
  count_probes clusterID ;;
  let! timeoutMs := lift (NormalizeProbeTimeoutMs (pc_TimeoutMs c)) in
  let enabled := default true (pc_Enabled c) in
  let format := or_json (pc_PayloadFormat c) in
  let! payload := lift (match decodeProbePayload (pc_PayloadB64 c) with Some p => Ok p | None => Err (ErrMsg "illegal base64 data") end) in
  insert_probe (mkProbeRow id clusterID subject payload format timeoutMs enabled now now) ;;
  GetRequestReplyProbe clusterID id.
Definition UpdateRequestReplyProbe (now : Z) (clusterID probeID : string) (u : RequestReplyProbeUpdate) : PrM RequestReplyProbe :=
  let! current := GetRequestReplyProbe clusterID probeID in
  lift (ValidateUpdate u (rp_PayloadFormat current)) ;;
  let! subject := lift (match pu_Subject u with Some s => CanonicalProbeSubject s | None => Ok (rp_Subject current) end) in
  let! timeoutMs := lift (match pu_TimeoutMs u with Some t => NormalizeProbeTimeoutMs t | None => Ok (rp_TimeoutMs current) end) in
  let enabled := default (rp_Enabled current) (pu_Enabled u) in
  let format := or_json (default (rp_PayloadFormat current) (pu_PayloadFormat u)) in
  let! payload := lift (match pu_PayloadB64 u with
                        | Some p => match decodeProbePayload p with Some raw => Ok raw | None => Err (ErrMsg "illegal base64 data") end
                        | None => Ok (mustDecodeProbePayload (rp_PayloadB64 current))
                        end) in
  update_probe now clusterID probeID subject payload format timeoutMs enabled ;;
  GetRequestReplyProbe clusterID probeID.
Definition DeleteRequestReplyProbe (clusterID probeID : string) : PrM unit :=
  probes_online ;;
  let! t := get in
  modify (set_rows (List.filter (λ r, negb (is_probe clusterID probeID r)) (pt_rows t))) ;;
  ensure (existsb (is_probe clusterID probeID) (pt_rows t)) ErrRequestReplyProbeNotFound.

(** * Runs *)

(** Constants of the NATS library. *)
Class ProbeLib := {
  HeaderContentType : string;
  ContentTypeJSON : string;
  ContentTypeMsgPack : string;
  ContentTypeProto : string;
}.
Context `{ProbeLib}.

(** [nats.Header], a map with the values of a key. *)
Abbreviation nats_header := (list (string * list string)).
Record nats_reply := mkReply { rm_Data : string; rm_Header : nats_header }.
Definition ProbeRequestHeaders (format : string) (hasPayload : bool) : nats_header :=
  let format := or_json format in
  if format =s RequestReplyFormatRaw then []
  else if format =s RequestReplyFormatMsgPack then [(HeaderContentType, [ContentTypeMsgPack])]
  else if format =s RequestReplyFormatProtobuf then [(HeaderContentType, [ContentTypeProto])]
  else if format =s RequestReplyFormatJSON then (if hasPayload then [(HeaderContentType, [ContentTypeJSON])] else [])
  else [].
(** [Header.Get], the first value. *)
Definition header_get (headers : nats_header) (key : string) : string :=
  match List.find (λ kv, kv.1 =s key) headers with Some (_, v :: _) => v | _ => "" end.
Definition DetectReplyFormat (headers : nats_header) : string :=
  match headers with
  | [] => ContentTypeJSON
  | _ =>
      let ct := header_get headers HeaderContentType in
      if ct ∈b [ContentTypeMsgPack; "application/msgpack"; "application/x-msgpack"] then ContentTypeMsgPack
      else if ct ∈b [ContentTypeProto; "application/protobuf"; "application/x-protobuf"; "application/vnd.google.protobuf"] then ContentTypeProto
      else if ct ∈b [ContentTypeJSON; "application/json"; ""] then ContentTypeJSON
      else "bytes"
  end.
Definition headerMap (headers : nats_header) : list (string * string) :=
  omap (λ kv, match kv.2 with v :: _ => Some (kv.1, v) | [] => None end) headers.
Definition TruncateReplyPreview (data : string) : string := of_bytes (take MaxRequestReplyReplyPreview (bytes_of data)).

(** A request as the connection gets it: subject, data, headers, and the time out in
    nanoseconds.  It answers with an error or a message after some time. *)
Record nats_request := mkRequest { rq_Subject : string; rq_Data : string; rq_Header : nats_header; rq_Timeout : Z }.
Abbreviation nats_connection := (option (nats_request → string + (option nats_reply * Z))).
Definition ms : Z := 1000000.
(** [Client.ProbeRequest]; the connection is [None] when it is not connected. *)
Definition ProbeRequest (conn : nats_connection) (subject format payload : string) (timeout : Z) : string + (option nats_reply * Z) :=
  match conn with
  | None => inl "nats connection unavailable"
  | Some send =>
      let timeout := if Z.leb timeout 0 then (2 * second)%Z else timeout in
      send (mkRequest subject payload (ProbeRequestHeaders format (Nat.ltb 0 (String.length payload))) timeout)
  end.
Definition decodeProbePayloadBytes (payloadB64 : string) : string :=
  if IsEmpty payloadB64 then "" else default "" (DecodeString payloadB64).
(** The result of what the connection answered, and the sample of a reply. *)
Definition probe_result (subject : string) (measuredAt : Z) (answer : string + (option nats_reply * Z)) :
    RequestReplyProbeRunResult * option (string * spec_float) :=
  match answer with
  | inl e => (mkProbeRun measuredAt [] subject e "" "" (f64 0) false, None)
  | inr (reply, latency) =>
      let latencyMs := fdiv (f64 latency) (f64 ms) in
      (match reply with
       | Some m => mkProbeRun measuredAt (headerMap (rm_Header m)) subject "" (EncodeToString (TruncateReplyPreview (rm_Data m)))
                     (DetectReplyFormat (rm_Header m)) latencyMs true
       | None => mkProbeRun measuredAt [] subject "" "" "" latencyMs true
       end, Some (RequestReplyProbeMetric subject, latencyMs))
  end.
Definition RunRequestReplyProbe (conn : nats_connection) (probe : RequestReplyProbe) (measuredAt : Z) :
    RequestReplyProbeRunResult * option (string * spec_float) :=
  let payload := decodeProbePayloadBytes (rp_PayloadB64 probe) in
  let timeout := (rp_TimeoutMs probe * ms)%Z in
  let timeout := if Z.leb timeout 0 then (2 * second)%Z else timeout in
  let format := or_json (rp_PayloadFormat probe) in
  probe_result (rp_Subject probe) measuredAt (ProbeRequest conn (rp_Subject probe) format payload timeout).
Definition RunRequestReplyProbes (conn : nats_connection) (probes : list RequestReplyProbe) (measuredAt : Z) :
    list RequestReplyProbeResult * list (string * spec_float) :=
  let runs := (λ p, RunRequestReplyProbe conn p measuredAt) <$> List.filter rp_Enabled probes in
  ((λ run, mkProbeResult (pn_MeasuredAt run.1) (pn_Subject run.1) (pn_Error run.1) (pn_LatencyMs run.1) (pn_OK run.1)) <$> runs, omap snd runs).
End Unicode.
