(* ===== verification/ProbeFacts.v ===== *)
(** Probes: what is stored can be asked, is kept so by every request, and is asked as it
    was put. *)

From S2P Require Export Probes.
From S2P Require Import GoStrings Base64 Sorting Runes Subjects.
From Stdlib Require Import Ascii.

Section Facts.
Context `{GoUnicode}.

(** * Subjects and formats *)

(** A subject that may be probed: literal tokens, and nobody's API. *)
Definition probeable (s : string) : Prop :=
  s ≠ "" ∧ (∀ a, a ∈ bytes_of s → wildcard_char a = false) ∧
  HasPrefix (ToUpper s) "$JS." = false ∧ HasPrefix (ToUpper s) "$SYS." = false ∧ HasPrefix (ToUpper s) "_INBOX." = false ∧ HasPrefix s "$" = false ∧
  ∀ part, part ∈ Split s "." → part ≠ "" ∧ ∀ r, r ∈ runes part → IsSpace r = false.
Lemma existsb_none {A} (f : A → bool) l : existsb f l = false ↔ ∀ x, x ∈ l → f x = false.
Proof.
  induction l as [|x l IH]; cbn; [split; [by intros _ ? ?%not_elem_of_nil|done]|]. rewrite orb_false_iff, IH. split.
  - intros [Hx Hl] y [->|Hy]%elem_of_cons; [done|by apply Hl].
  - intros Hl. split; [apply Hl; left|intros y Hy; apply Hl; by right].
Qed.
Lemma ValidateProbeSubject_ok s : s ≠ "" → ValidateProbeSubject s = Ok tt ↔ probeable s.
Proof.
  intros Hs. unfold ValidateProbeSubject, probeable. rewrite <- existsb_none. cbv zeta.
  destruct (existsb wildcard_char (bytes_of s)); [naive_solver|].
  destruct (HasPrefix (ToUpper s) "$JS."); [naive_solver|]. destruct (HasPrefix (ToUpper s) "$SYS."); [naive_solver|].
  destruct (HasPrefix (ToUpper s) "_INBOX."); [naive_solver|]. destruct (HasPrefix s "$"); [naive_solver|].
  generalize (Split s "."). intros l.
  transitivity (∀ part, part ∈ l → part ≠ "" ∧ ∀ r, r ∈ runes part → IsSpace r = false); [|naive_solver].
  induction l as [|part l IH]; [split; [by intros _ ? ?%not_elem_of_nil|done]|].
  destruct (IsEmpty part) eqn:Ee; [apply IsEmpty_true in Ee as ->; split; [done|]; intros Hl; by destruct (Hl "" (list_elem_of_here _ _))|].
  apply IsEmpty_false in Ee. destruct (existsb IsSpace (runes part)) eqn:Es.
  - split; [done|]. intros Hl. destruct (Hl part (list_elem_of_here _ _)) as [_ Hr]. rewrite <- existsb_none in Hr. congruence.
  - rewrite IH. split; [|intros Hl p Hp; apply Hl; by right]. intros Hl p [->|Hp]%elem_of_cons; [|by apply Hl]. split; [done|by apply existsb_none].
Qed.
Lemma CanonicalProbeSubject_ok s s' : CanonicalProbeSubject s = Ok s' ↔ s' = TrimSpace s ∧ probeable s'.
Proof.
  unfold CanonicalProbeSubject. cbv zeta. destruct (IsEmpty (TrimSpace s)) eqn:E.
  { apply IsEmpty_true in E. split; [done|]. intros [-> [Hne _]]. by destruct Hne. }
  apply IsEmpty_false in E. pose proof (ValidateProbeSubject_ok _ E) as Hv.
  destruct (ValidateProbeSubject (TrimSpace s)) as [[]|e]; split.
  - intros [= <-]. split; [done|]. by apply Hv.
  - by intros [-> _].
  - done.
  - intros [-> Hp]. by apply Hv in Hp.
Qed.
Lemma canonical_idemp s s' : CanonicalProbeSubject s = Ok s' → CanonicalProbeSubject s' = Ok s'.
Proof. rewrite !CanonicalProbeSubject_ok. intros [-> Hp]. by rewrite TrimSpace_idemp. Qed.
Lemma timeout_ok t t' : NormalizeProbeTimeoutMs t = Ok t' → (1 ≤ t' ≤ MaxRequestReplyTimeoutMs)%Z.
Proof.
  unfold NormalizeProbeTimeoutMs, DefaultRequestReplyTimeoutMs, MaxRequestReplyTimeoutMs.
  destruct (Z.ltb_spec t 0); [done|]. destruct (Z.eqb_spec t 0); [intros [= <-]; lia|]. destruct (Z.ltb_spec 30000 t); [done|]. intros [= <-]. lia.
Qed.
Definition probe_formats : list string := [RequestReplyFormatJSON; RequestReplyFormatMsgPack; RequestReplyFormatProtobuf; RequestReplyFormatRaw].
Lemma Normalize_known f : Normalize f = "" ∨ Normalize f ∈ probe_formats.
Proof.
  unfold Normalize, probe_formats. cbv zeta. destruct (_ =s RequestReplyFormatMsgPack); [right; set_solver|]. destruct (_ =s RequestReplyFormatProtobuf); [right; set_solver|].
  destruct (_ =s RequestReplyFormatRaw); [right; set_solver|]. destruct (_ || _); [right; set_solver|by left].
Qed.
Lemma or_json_known f : or_json f ∈ probe_formats.
Proof.
  unfold or_json. cbv zeta. destruct (Normalize_known f) as [->|Hf]; [cbn; unfold probe_formats; set_solver|].
  destruct (IsEmpty (Normalize f)); [unfold probe_formats; set_solver|done].
Qed.
Lemma Normalize_of_known f : f ∈ probe_formats → Normalize f = f.
Proof. unfold probe_formats. by intros [->|[->|[->|[->|[]%not_elem_of_nil]%elem_of_cons]%elem_of_cons]%elem_of_cons]%elem_of_cons; vm_compute. Qed.
Lemma or_json_idemp f : or_json (or_json f) = or_json f.
Proof.
  pose proof (or_json_known f) as Hk. unfold or_json at 1. cbv zeta. rewrite (Normalize_of_known _ Hk).
  destruct (IsEmpty (or_json f)) eqn:E; [|done]. apply IsEmpty_true in E. rewrite E in Hk. unfold probe_formats in Hk. exfalso. revert Hk.
  by intros [E'|[E'|[E'|[E'|[]%not_elem_of_nil]%elem_of_cons]%elem_of_cons]%elem_of_cons]%elem_of_cons.
Qed.

(** * Payloads *)

Lemma decode_encode_payload p : decodeProbePayload (encodeProbePayload p) = Some p.
Proof.
  unfold decodeProbePayload, encodeProbePayload. destruct (Nat.eqb_spec (String.length p) 0) as [E|E]; [by destruct p|].
  rewrite DecodeString_encode. destruct (IsEmpty (EncodeToString p)) eqn:Ee; [|done]. apply IsEmpty_true in Ee.
  pose proof (DecodeString_encode p) as Hd. rewrite Ee in Hd. cbn in Hd. destruct p; [done|]. vm_compute in Hd. congruence.
Qed.
Lemma payload_bound f p raw : validateProbePayload f p = Ok tt → decodeProbePayload p = Some raw → String.length raw ≤ MaxRequestReplyPayloadBytes.
Proof.
  unfold validateProbePayload, validateProbePayload_known, decodeProbePayload. destruct (IsEmpty p); [intros _ [= <-]; apply Nat.le_0_l|].
  destruct (DecodeString p) as [r|]; [|done]. destruct (Nat.ltb_spec MaxRequestReplyPayloadBytes (String.length r)) as [|Hle]; [done|]. by intros _ [= <-].
Qed.

(** * The table *)

(** A probe that can be run as it is stored. *)
Record probe_ok (r : probe_row) : Prop := {
  po_subject : probeable (pw_subject r) ∧ TrimSpace (pw_subject r) = pw_subject r;
  po_timeout : (1 ≤ pw_timeout r ≤ MaxRequestReplyTimeoutMs)%Z;
  po_format : pw_format r ∈ probe_formats;
  po_payload : String.length (pw_payload r) ≤ MaxRequestReplyPayloadBytes;
}.
Abbreviation probe_key := (λ r : probe_row, (pw_cluster r, pw_subject r)).
Record probes_ok (t : ProbeTables) : Prop := {
  ps_rows : ∀ r, r ∈ pt_rows t → probe_ok r;
  ps_ids : NoDup (pw_id <$> pt_rows t);
  ps_keys : NoDup (probe_key <$> pt_rows t);
  ps_clusters : ∀ r, r ∈ pt_rows t → pw_cluster r ∈ pt_clusters t;
  ps_limit : ∀ c, length (cluster_rows c t) ≤ MaxRequestReplyProbesPerCluster;
}.

Lemma canonical_ok s s' : CanonicalProbeSubject s = Ok s' → probeable s' ∧ TrimSpace s' = s'.
Proof. intros [-> Hp]%CanonicalProbeSubject_ok. by rewrite TrimSpace_idemp. Qed.
Lemma list_run clusterID t : ListRequestReplyProbes clusterID t =
  (if pt_up t then Ok (scanRequestReplyProbe <$> sort_stable row_le (cluster_rows clusterID t)) else Err ErrDB, t).
Proof. unfold ListRequestReplyProbes, probes_online, bind, get, ensure, ret, fail. by destruct (pt_up t). Qed.
Lemma get_run clusterID probeID t : GetRequestReplyProbe clusterID probeID t =
  (if pt_up t then match List.find (is_probe clusterID probeID) (pt_rows t) with
                   | Some r => Ok (scanRequestReplyProbe r) | None => Err ErrRequestReplyProbeNotFound end else Err ErrDB, t).
Proof. unfold GetRequestReplyProbe, probes_online, bind, get, ensure, ret, fail. destruct (pt_up t); [|done]. by destruct (List.find _ _). Qed.
Lemma count_run clusterID t : count_probes clusterID t =
  (if pt_up t then if Nat.leb MaxRequestReplyProbesPerCluster (length (cluster_rows clusterID t)) then Err (ErrMsg "at most 50 probes per cluster") else Ok tt
   else Err ErrDB, t).
Proof.
  unfold count_probes, bind. rewrite list_run. destruct (pt_up t); [|done].
  rewrite length_fmap, (sort_stable_perm _ (cluster_rows clusterID t)). unfold ensure. by destruct (Nat.leb _ _).
Qed.
Lemma insert_run r t : insert_probe r t =
  (if pt_up t then if insertable r t then Ok tt else Err ErrDB else Err ErrDB, if pt_up t && insertable r t then set_rows (pt_rows t ++ [r]) t else t).
Proof. unfold insert_probe, probes_online, bind, get, ensure, ret, fail, modify. destruct (pt_up t); [|done]. by destruct (insertable r t). Qed.
Lemma lift_run {A B} (r : result err A) (k : A → M ProbeTables err B) t : bind (lift r) k t = match r with Ok a => k a t | Err e => (Err e, t) end.
Proof. done. Qed.
Lemma probe_bind_run {A B} (m : M ProbeTables err A) (k : A → M ProbeTables err B) t : bind m k t = match m t with (Ok a, t') => k a t' | (Err e, t') => (Err e, t') end.
Proof. done. Qed.
Lemma is_probe_spec c i r : is_probe c i r = true ↔ pw_cluster r = c ∧ pw_id r = i.
Proof. unfold is_probe. by rewrite andb_true_iff, !bool_decide_eq_true. Qed.

Lemma insert_keeps r t : probes_ok t → probe_ok r → length (cluster_rows (pw_cluster r) t) < MaxRequestReplyProbesPerCluster →
  insertable r t = true → probes_ok (set_rows (pt_rows t ++ [r]) t).
Proof.
  intros Ht Hr Hn Hi. unfold insertable in Hi. rewrite !andb_true_iff, !negb_true_iff, !existsb_none, elem_of_bool_spec in Hi. destruct Hi as [[Hc Hid] Hkey].
  destruct Ht as [H1 H2 H3 H4 H5]. split; cbn [set_rows pt_rows pt_clusters].
  - intros r' [Hr'| ->%list_elem_of_singleton]%elem_of_app; [by apply H1|done].
  - rewrite fmap_app. apply NoDup_app. split; [done|]. split; [|apply NoDup_singleton].
    intros i (r' & -> & Hr')%list_elem_of_fmap. cbn. intros E%list_elem_of_singleton. apply Hid in Hr'. rewrite E in Hr'. by apply bool_decide_eq_false in Hr'.
  - rewrite fmap_app. apply NoDup_app. split; [done|]. split; [|apply NoDup_singleton].
    intros i (r' & -> & Hr')%list_elem_of_fmap. cbn. intros E%list_elem_of_singleton. injection E as E1 E2. apply Hkey in Hr'. rewrite <- E1, <- E2 in Hr'. by rewrite !bool_decide_eq_true_2 in Hr'.
  - intros r' [Hr'| ->%list_elem_of_singleton]%elem_of_app; [by apply H4|done].
  - intros c. unfold cluster_rows. cbn [set_rows pt_rows]. rewrite List.filter_app, length_app. cbn [List.filter].
    case_bool_decide as Hne; [subst c|]; cbn [length]; [unfold cluster_rows in Hn; lia|].
    specialize (H5 c). unfold cluster_rows in H5. lia.
Qed.
Lemma filter_keeps f t : probes_ok t → probes_ok (set_rows (List.filter f (pt_rows t)) t).
Proof.
  intros [H1 H2 H3 H4 H5].
  assert (Hnd : ∀ {B} (g : probe_row → B), NoDup (g <$> pt_rows t) → NoDup (g <$> List.filter f (pt_rows t))).
  { intros B g. clear. induction (pt_rows t) as [|r l IH]; [done|]. rewrite fmap_cons. intros [Hr Hl]%NoDup_cons. cbn [List.filter].
    destruct (f r); [|exact (IH Hl)]. rewrite fmap_cons. constructor; [|exact (IH Hl)].
    intros (r' & E & [Hr' _]%elem_of_filter_list)%list_elem_of_fmap. apply Hr. apply list_elem_of_fmap. eauto. }
  split; cbn [set_rows pt_rows pt_clusters]; [by intros r [Hr _]%elem_of_filter_list; apply H1|by apply Hnd|by apply Hnd|by intros r [Hr _]%elem_of_filter_list; apply H4|].
  intros c. etrans; [|apply (H5 c)]. unfold cluster_rows. cbn [set_rows pt_rows]. clear. induction (pt_rows t) as [|r l IH]; [done|]. cbn.
  destruct (f r); cbn; destruct (_ =s c); cbn; lia.
Qed.

(** ** Requests *)

Definition created_row (id : string) (now : Z) (clusterID : string) (c : RequestReplyProbeCreate) (payload : string) (timeoutMs : Z) : probe_row :=
  mkProbeRow id clusterID (TrimSpace (pc_Subject c)) payload (or_json (pc_PayloadFormat c)) timeoutMs (default true (pc_Enabled c)) now now.
(** What a request that is carried out was, and did. *)
Record created (id : string) (now : Z) (clusterID : string) (c : RequestReplyProbeCreate) (t : ProbeTables) (payload : string) (timeoutMs : Z) : Prop := {
  cr_subject : probeable (TrimSpace (pc_Subject c));
  cr_timeout : NormalizeProbeTimeoutMs (pc_TimeoutMs c) = Ok timeoutMs;
  cr_payload : decodeProbePayload (pc_PayloadB64 c) = Some payload;
  cr_valid : validateProbePayload (Normalize (pc_PayloadFormat c)) (pc_PayloadB64 c) = Ok tt;
  cr_format : Normalize (pc_PayloadFormat c) ≠ "";
  cr_limit : length (cluster_rows clusterID t) < MaxRequestReplyProbesPerCluster;
  cr_insertable : insertable (created_row id now clusterID c payload timeoutMs) t = true;
}.
Lemma probe_create_cases id now clusterID c t : (∃ e, CreateRequestReplyProbe id now clusterID c t = (Err e, t)) ∨
  ∃ payload timeoutMs, created id now clusterID c t payload timeoutMs ∧
    let r := created_row id now clusterID c payload timeoutMs in
    CreateRequestReplyProbe id now clusterID c t = (Ok (scanRequestReplyProbe r), set_rows (pt_rows t ++ [r]) t).
Proof.
  unfold CreateRequestReplyProbe. rewrite lift_run. destruct (Create_Validate c) as [[]|e] eqn:Ev; [|left; by eexists].
  unfold Create_Validate in Ev. rewrite lift_run.
  destruct (CanonicalProbeSubject (pc_Subject c)) as [subject|e] eqn:Es; [|done]. apply CanonicalProbeSubject_ok in Es as [-> Hs]. cbn [first_error] in Ev.
  rewrite probe_bind_run, count_run. destruct (pt_up t) eqn:Eu; [|left; by eexists].
  destruct (Nat.leb_spec MaxRequestReplyProbesPerCluster (length (cluster_rows clusterID t))) as [|Hn]; [left; by eexists|].
  rewrite lift_run. destruct (NormalizeProbeTimeoutMs (pc_TimeoutMs c)) as [timeoutMs|e] eqn:Et; [|done]. cbn [first_error] in Ev. cbv zeta in Ev |- *.
  destruct (IsEmpty (Normalize (pc_PayloadFormat c))) eqn:Ef; [done|]. apply IsEmpty_false in Ef.
  rewrite lift_run. destruct (decodeProbePayload (pc_PayloadB64 c)) as [payload|] eqn:Ep; [|left; by eexists].
  fold (created_row id now clusterID c payload timeoutMs). set (r := created_row id now clusterID c payload timeoutMs).
  rewrite probe_bind_run, insert_run, Eu. destruct (insertable r t) eqn:Ei; [|left; by eexists]. right. exists payload, timeoutMs. split; [by split|].
  rewrite get_run. cbn [set_rows pt_up pt_rows andb]. rewrite Eu. unfold insertable in Ei.
  rewrite !andb_true_iff, !negb_true_iff, !existsb_none in Ei. destruct Ei as [[_ Hid] _].
  assert (Hfind : List.find (is_probe clusterID id) (pt_rows t ++ [r]) = Some r); [|by rewrite Hfind].
  clear -Hid. induction (pt_rows t) as [|x l IH]; cbn.
  - destruct (is_probe clusterID id r) eqn:E; [done|]. apply not_true_iff_false in E. by destruct E; apply is_probe_spec.
  - destruct (is_probe clusterID id x) eqn:E; [|apply IH; intros y Hy; apply Hid; by right]. apply is_probe_spec in E as [_ E].
    specialize (Hid x (list_elem_of_here _ _)). apply bool_decide_eq_false in Hid. by destruct Hid.
Qed.
Lemma create_keeps id now clusterID c t : probes_ok t → probes_ok (snd (CreateRequestReplyProbe id now clusterID c t)).
Proof.
  intros Ht. destruct (probe_create_cases id now clusterID c t) as [[e ->]|(payload & timeoutMs & [Hs Htm Hp Hv Hf Hn Hi] & ->)]; [done|].
  cbn [snd]. apply insert_keeps; [done| |done|done]. split; cbn [created_row pw_subject pw_timeout pw_format pw_payload].
  - by rewrite TrimSpace_idemp.
  - by apply timeout_ok in Htm.
  - apply or_json_known.
  - by eapply payload_bound.
Qed.
Lemma probe_delete_keeps clusterID probeID t : probes_ok t → probes_ok (snd (DeleteRequestReplyProbe clusterID probeID t)).
Proof.
  intros Ht. unfold DeleteRequestReplyProbe, probes_online, bind, get, ensure, ret, fail, modify. destruct (pt_up t); [|done]. cbn.
  destruct (existsb _ _); by apply filter_keeps.
Qed.

Definition edit (now : Z) (clusterID probeID subject payload format : string) (timeoutMs : Z) (enabled : bool) (r : probe_row) : probe_row :=
  if is_probe clusterID probeID r then mkProbeRow (pw_id r) (pw_cluster r) subject payload format timeoutMs enabled (pw_created r) now else r.
Lemma NoDup_fmap_at {A B} (f : A → B) l : NoDup (f <$> l) ↔ ∀ i j x y, l !! i = Some x → l !! j = Some y → f x = f y → i = j.
Proof.
  rewrite NoDup_alt. setoid_rewrite list_lookup_fmap_Some. split.
  - intros Hl i j x y Hx Hy E. apply (Hl i j (f x)); [by exists x|by exists y].
  - intros Hl i j z (x & -> & Hx) (y & E & Hy). by eapply Hl.
Qed.
Lemma edit_keeps now clusterID probeID subject payload format timeoutMs enabled t : probes_ok t →
  probeable subject ∧ TrimSpace subject = subject → (1 ≤ timeoutMs ≤ MaxRequestReplyTimeoutMs)%Z → format ∈ probe_formats →
  String.length payload ≤ MaxRequestReplyPayloadBytes →
  (∀ r, r ∈ pt_rows t → pw_cluster r = clusterID → pw_subject r = subject → pw_id r = probeID) →
  probes_ok (set_rows (edit now clusterID probeID subject payload format timeoutMs enabled <$> pt_rows t) t).
Proof.
  intros [H1 H2 H3 H4 H5] Hs Htm Hf Hp Hg. set (ed := edit now clusterID probeID subject payload format timeoutMs enabled).
  assert (Hc : ∀ r, pw_cluster (ed r) = pw_cluster r) by (intros r; unfold ed, edit; by destruct (is_probe _ _ r)).
  assert (Hi : ∀ r, pw_id (ed r) = pw_id r) by (intros r; unfold ed, edit; by destruct (is_probe _ _ r)).
  assert (Hsub : ∀ r, pw_subject (ed r) = if is_probe clusterID probeID r then subject else pw_subject r)
    by (intros r; unfold ed, edit; by destruct (is_probe _ _ r)).
  split; cbn [set_rows pt_rows pt_clusters].
  - intros r (r' & -> & Hr')%list_elem_of_fmap. unfold ed, edit. destruct (is_probe clusterID probeID r'); [by split|by apply H1].
  - rewrite <- list_fmap_compose. rewrite (list_fmap_ext _ pw_id); [done|]. intros i r _. apply Hi.
  - rewrite <- list_fmap_compose. rewrite NoDup_fmap_at in H2. rewrite NoDup_fmap_at in H3. rewrite NoDup_fmap_at. intros i j x y Hx Hy. cbn. rewrite !Hc, !Hsub. intros [= E1 E2].
    pose proof (list_elem_of_lookup_2 _ _ _ Hx) as Hx'. pose proof (list_elem_of_lookup_2 _ _ _ Hy) as Hy'.
    destruct (is_probe clusterID probeID x) eqn:Ex, (is_probe clusterID probeID y) eqn:Ey.
    + apply is_probe_spec in Ex as [_ Ex], Ey as [_ Ey]. apply (H2 i j x y Hx Hy). congruence.
    + apply is_probe_spec in Ex as [Ex Ex']. apply not_true_iff_false in Ey. destruct Ey. apply is_probe_spec. split; [congruence|]. apply Hg; [done|congruence|congruence].
    + apply is_probe_spec in Ey as [Ey Ey']. apply not_true_iff_false in Ex. destruct Ex. apply is_probe_spec. split; [congruence|]. apply Hg; [done|congruence|congruence].
    + apply (H3 i j x y Hx Hy). cbn. congruence.
  - intros r (r' & -> & Hr')%list_elem_of_fmap. rewrite Hc. by apply H4.
  - intros c. unfold cluster_rows. cbn [set_rows pt_rows]. etrans; [|apply (H5 c)]. unfold cluster_rows. apply Nat.eq_le_incl. clear -Hc.
    induction (pt_rows t) as [|r l IH]; [done|]. cbn. rewrite Hc. by destruct (_ =s c); cbn; rewrite IH.
Qed.
Lemma update_run now clusterID probeID subject payload format timeoutMs enabled t :
  let ed := edit now clusterID probeID subject payload format timeoutMs enabled in
  let '(_, t') := update_probe now clusterID probeID subject payload format timeoutMs enabled t in
  t' = t ∨ t' = set_rows (ed <$> pt_rows t) t ∧
    ((∀ r, r ∈ pt_rows t → pw_cluster r = clusterID → pw_subject r = subject → pw_id r = probeID) ∨ ∀ r, r ∈ pt_rows t → is_probe clusterID probeID r = false).
Proof.
  cbv zeta. unfold update_probe, probes_online, bind, get, ensure, ret, fail, modify. destruct (pt_up t); [|by left].
  destruct (negb _ || negb _) eqn:E; [|by left]. right. split; [done|]. apply orb_true_iff in E as [E|E]; apply negb_true_iff in E; rewrite existsb_none in E; [left|by right].
  intros r Hr Hc Hs. specialize (E r Hr). cbn in E. rewrite Hc, Hs, !bool_decide_eq_true_2 in E by done. cbn in E. apply negb_false_iff in E. by apply bool_decide_eq_true in E.
Qed.
Lemma update_keeps now clusterID probeID u t : probes_ok t → probes_ok (snd (UpdateRequestReplyProbe now clusterID probeID u t)).
Proof.
  intros Ht. unfold UpdateRequestReplyProbe. rewrite probe_bind_run, get_run. destruct (pt_up t); [|done].
  destruct (List.find (is_probe clusterID probeID) (pt_rows t)) as [r|] eqn:Er; [|done]. apply List.find_some in Er as [Hr Hrp].
  apply list_elem_of_In in Hr. destruct (ps_rows t Ht r Hr) as [Rs Rt Rf Rp].
  rewrite lift_run. destruct (ValidateUpdate u (rp_PayloadFormat (scanRequestReplyProbe r))) as [[]|e] eqn:Ev; [|done].
  rewrite lift_run. match goal with |- context [match ?x with Ok a => _ | Err e => _ end] => destruct x as [subject|e] eqn:Es end; [|done].
  rewrite lift_run. match goal with |- context [match ?x with Ok a => _ | Err e => _ end] => destruct x as [timeoutMs|e] eqn:Et end; [|done].
  cbv zeta. rewrite lift_run. match goal with |- context [match ?x with Ok a => _ | Err e => _ end] => destruct x as [payload|e] eqn:Ep end; [|done].
  rewrite probe_bind_run. set (enabled := default _ (pu_Enabled u)). set (format := or_json (default _ _)).
  pose proof (update_run now clusterID probeID subject payload format timeoutMs enabled t) as Hrun. cbv zeta in Hrun.
  destruct (update_probe now clusterID probeID subject payload format timeoutMs enabled t) as [res t'].
  assert (Ht' : probes_ok t'); [|destruct res; [rewrite get_run|]; done].
  destruct Hrun as [->|[-> [Hg|Hno]]]; [done| |by rewrite Hno in Hrp].
  apply edit_keeps; [done| | | | |done].
  - destruct (pu_Subject u) as [s|]; [by apply canonical_ok in Es|injection Es as <-; done].
  - destruct (pu_TimeoutMs u) as [m|]; [by apply timeout_ok in Et|injection Et as <-; done].
  - apply or_json_known.
  - destruct (pu_PayloadB64 u) as [p|] eqn:Epu.
    + unfold ValidateUpdate in Ev. rewrite Epu in Ev. destruct (decodeProbePayload p) as [raw|] eqn:Ed; [|done]. injection Ep as <-.
      destruct (match pu_Subject u with Some s => _ | None => _ end); [|done]. cbn [first_error] in Ev.
      destruct (match pu_TimeoutMs u with Some s => _ | None => _ end); [|done]. cbn [first_error] in Ev. cbv zeta in Ev.
      destruct (IsEmpty _); [done|]. by eapply payload_bound.
    + injection Ep as <-. unfold mustDecodeProbePayload. cbn [scanRequestReplyProbe rp_PayloadB64]. by rewrite decode_encode_payload.
Qed.

(** * Any requests *)

Inductive probe_request :=
  | PutProbe (id : string) (now : Z) (clusterID : string) (c : RequestReplyProbeCreate)
  | EditProbe (now : Z) (clusterID probeID : string) (u : RequestReplyProbeUpdate)
  | DropProbe (clusterID probeID : string).
Definition serve_probe (t : ProbeTables) (r : probe_request) : ProbeTables :=
  match r with
  | PutProbe id now clusterID c => snd (CreateRequestReplyProbe id now clusterID c t)
  | EditProbe now clusterID probeID u => snd (UpdateRequestReplyProbe now clusterID probeID u t)
  | DropProbe clusterID probeID => snd (DeleteRequestReplyProbe clusterID probeID t)
  end.
(** Whatever probes are created, edited and deleted, one request at a time, every
    probe stored can be run: its subject is literal, trimmed, made of non-empty tokens
    without white space, and none of JetStream's, the system's, an inbox's or another
    reserved one; its time out is between a millisecond and thirty seconds; its format
    is one of the four and its payload at most 64 KiB.  Identifiers are unique, and so
    are the subjects of a cluster, which has fifty probes at most. *)
Theorem probes_stay_valid requests t : probes_ok t → probes_ok (foldl serve_probe t requests).
Proof.
  revert t. induction requests as [|r l IH]; intros t Ht; [done|]. cbn [foldl]. apply IH.
  destruct r; [by apply create_keeps|by apply update_keeps|by apply probe_delete_keeps].
Qed.

(** What is put is what is asked: a probe that was created is found again, as it was
    answered, and a run of it sends NATS the subject asked for, trimmed, with the bytes
    that were encoded in the payload, the header of the format and the time out asked
    for (two seconds if none was), once; the result is what the connection answered. *)
Theorem created_probe_is_asked `{ProbeLib} id now clusterID c t p t' : CreateRequestReplyProbe id now clusterID c t = (Ok p, t') →
  GetRequestReplyProbe clusterID id t' = (Ok p, t') ∧
  rp_Enabled p = default true (pc_Enabled c) ∧
  ∃ payload timeoutMs, decodeProbePayload (pc_PayloadB64 c) = Some payload ∧
    timeoutMs = (if Z.eqb (pc_TimeoutMs c) 0 then 2000 else pc_TimeoutMs c)%Z ∧
    ∀ send at_, RunRequestReplyProbe (Some send) p at_ = probe_result (TrimSpace (pc_Subject c)) at_
      (send (mkRequest (TrimSpace (pc_Subject c)) payload (ProbeRequestHeaders (pc_PayloadFormat c) (Nat.ltb 0 (String.length payload))) (timeoutMs * ms))).
Proof.
  intros Hc. destruct (probe_create_cases id now clusterID c t) as [[e E]|(payload & timeoutMs & [Hs Htm Hp Hv Hf Hn Hi] & E)]; [congruence|].
  cbv zeta in E. pose proof E as Eget. rewrite E in Hc. injection Hc as <- <-.
  split.
  { unfold CreateRequestReplyProbe in Eget. rewrite lift_run in Eget. destruct (Create_Validate c); [|done]. rewrite lift_run in Eget.
    destruct (CanonicalProbeSubject _); [|done]. rewrite probe_bind_run, count_run in Eget. destruct (pt_up t) eqn:Eu; [|done]. destruct (Nat.leb _ _); [done|].
    rewrite lift_run in Eget. destruct (NormalizeProbeTimeoutMs _); [|done]. cbv zeta in Eget. rewrite lift_run in Eget.
    destruct (match decodeProbePayload _ with Some _ => _ | None => _ end); [|done]. rewrite probe_bind_run in Eget.
    destruct (insert_probe _ t) as [[]] eqn:Ein; [|done]. pose proof (f_equal snd Eget) as E2. rewrite get_run in E2. cbn [snd] in E2. subst. exact Eget. }
  split; [done|]. exists payload, timeoutMs. split; [done|].
  assert (Ht : timeoutMs = (if Z.eqb (pc_TimeoutMs c) 0 then 2000 else pc_TimeoutMs c)%Z).
  { revert Htm. unfold NormalizeProbeTimeoutMs. destruct (Z.ltb _ 0); [done|]. destruct (Z.eqb _ 0); [by intros [= <-]|]. destruct (Z.ltb _ _); [done|]. by intros [= <-]. }
  split; [done|]. intros send at_. unfold RunRequestReplyProbe. cbv zeta. cbn [scanRequestReplyProbe created_row pw_subject pw_payload pw_format pw_timeout rp_Subject rp_PayloadB64 rp_PayloadFormat rp_TimeoutMs].
  assert (Hpay : decodeProbePayloadBytes (encodeProbePayload payload) = payload).
  { pose proof (decode_encode_payload payload) as Hd. unfold decodeProbePayload, decodeProbePayloadBytes in *. destruct (IsEmpty (encodeProbePayload payload)); [congruence|]. by rewrite Hd. }
  rewrite Hpay, !or_json_idemp. apply timeout_ok in Htm. unfold ms. destruct (Z.leb_spec (timeoutMs * 1000000) 0); [lia|].
  unfold ProbeRequest. destruct (Z.leb_spec (timeoutMs * 1000000) 0); [lia|]. unfold ProbeRequestHeaders. by rewrite or_json_idemp.
Qed.
End Facts.

(** * Witnesses and findings *)

#[local] Existing Instance ascii_only.
#[local] Instance probe_lib : ProbeLib := {| HeaderContentType := "Content-Type"; ContentTypeJSON := "json"; ContentTypeMsgPack := "msgpack"; ContentTypeProto := "protobuf" |}.
Definition no_probes : ProbeTables := mkProbeTables true ["c1"] [].
Lemma no_probes_ok : probes_ok no_probes.
Proof. split; cbn; try by intros ? ?%not_elem_of_nil. all: try apply NoDup_nil_2. intros c. apply Nat.le_0_l. Qed.
Definition ping : RequestReplyProbeCreate := mkProbeCreate None " svc.ping " "e30=" "JSON" 0.
Definition edits : list probe_request :=
  [PutProbe "p1" 5 "c1" ping; PutProbe "p2" 5 "c1" ping; PutProbe "p3" 6 "c1" (mkProbeCreate None "$JS.API" "" "" 0);
   EditProbe 7 "c1" "p1" (mkProbeUpdate (Some "svc.health") None None (Some 100%Z) None)].
Lemma probes_stay_valid_witness : probes_ok (foldl serve_probe no_probes edits) ∧ pw_subject <$> pt_rows (foldl serve_probe no_probes edits) = ["svc.health"].
Proof. split; [exact (probes_stay_valid edits no_probes no_probes_ok)|vm_compute; reflexivity]. Defined.
Definition echo (r : nats_request) : string + (option nats_reply * Z) := inr (Some (mkReply (rq_Subject r +:+ rq_Data r) []), 3000000%Z).
Lemma created_probe_is_asked_witness :
  ∃ p t', CreateRequestReplyProbe "p1" 5 "c1" ping no_probes = (Ok p, t') ∧ rp_Enabled p = true ∧
    RunRequestReplyProbe (Some echo) p 9 = probe_result "svc.ping" 9 (echo (mkRequest "svc.ping" "{}" [("Content-Type", ["json"])] (2 * second))).
Proof.
  destruct (CreateRequestReplyProbe "p1" 5 "c1" ping no_probes) as [r t'] eqn:E. pose proof E as E'. vm_compute in E'. destruct r as [p|e]; [|discriminate E'].
  clear E'. exists p, t'. split; [reflexivity|]. destruct (created_probe_is_asked "p1" 5 "c1" ping no_probes p t' E) as (_ & He & payload & timeoutMs & Hp & -> & Hrun).
  split; [exact He|]. rewrite Hrun. vm_compute in Hp. injection Hp as <-. vm_compute. reflexivity.
Defined.

(** An edit that changes the format does not look at the payload that is stored: what may
    not be created can be made in two steps. *)
Definition binary : string := "//8=".
Lemma format_change_keeps_payload :
  fst (CreateRequestReplyProbe "p1" 5 "c1" (mkProbeCreate None "svc.ping" binary "json" 0) no_probes) = Err (ErrMsg "payload must be valid JSON for json format") ∧
  let t := foldl serve_probe no_probes [PutProbe "p1" 5 "c1" (mkProbeCreate None "svc.ping" binary "raw" 0);
                                        EditProbe 6 "c1" "p1" (mkProbeUpdate None None (Some "json") None None)] in
  ∃ p, GetRequestReplyProbe "c1" "p1" t = (Ok p, t) ∧ rp_PayloadFormat p = "json" ∧ rp_PayloadB64 p = binary.
Proof. split; [vm_compute; reflexivity|]. cbv zeta. eexists. split; [vm_compute; reflexivity|]. split; vm_compute; reflexivity. Qed.
(** Counting and inserting are two statements: two requests that count before either
    inserts leave more probes than are allowed. *)
Definition numbered (n : nat) : probe_row :=
  mkProbeRow (pretty n) "c1" ("s" +:+ pretty n) "" "json" 2000 true 0 0.
Definition nearly_full : ProbeTables := mkProbeTables true ["c1"] (numbered <$> seq 0 49).
Lemma probe_limit_is_racy :
  fst (count_probes "c1" nearly_full) = Ok tt ∧
  ∃ t1 t2, insert_probe (numbered 49) nearly_full = (Ok tt, t1) ∧ insert_probe (numbered 50) t1 = (Ok tt, t2) ∧
    MaxRequestReplyProbesPerCluster < length (cluster_rows "c1" t2).
Proof.
  split; [vm_compute; reflexivity|]. eexists _, _. split; [vm_compute; reflexivity|]. split; [vm_compute; reflexivity|].
  apply Nat.ltb_lt. vm_compute. reflexivity.
Qed.
(** The samples of two probes go by one name when their subjects differ in a colon or a
    comma. *)
Lemma probe_metrics_collide : RequestReplyProbeMetric "a:b" = RequestReplyProbeMetric "a,b" ∧ probeable "a:b" ∧ probeable "a,b".
Proof.
  split; [vm_compute; reflexivity|]. split; apply ValidateProbeSubject_ok; (discriminate || (vm_compute; reflexivity)).
Qed.
