(* ===== verification/RequestReply.v ===== *)
(** The request-reply inspector: internal/nats/request_reply.go with the records of
    internal/domain/request_reply.go, and the handler internal/api/request_reply.go over
    the hub and the executor of [Monitoring].

    The decoder of an answer of /connz is the class [ConnzJson].  Optional numbers are
    options: the slab their addresses come from never moves. *)

From S2P Require Export Monitoring Durations.
From S2P Require Import GoStrings Sorting.
From Stdlib Require Import Ascii.

Record RequestReplyPattern := mkPattern {
  rt_RttMinMs : option spec_float;
  rt_RttMedianMs : option spec_float;
  rt_RttMaxMs : option spec_float;
  rt_ProbeLatencyMs : option spec_float;
  rt_ProbeOk : option bool;
  rt_Subject : string;
  rt_Queue : string;
  rt_ProbeError : string;
  rt_RequesterCount : nat;
  rt_ResponderCount : nat;
}.
Record RequestReplyConnection := mkConnection {
  rc_RttMs : option spec_float;
  rc_Name : string;
  rc_Account : string;
  rc_InboxSubs : list string;
  rc_ServiceSubs : list string;
  rc_CID : Z;
  rc_PendingBytes : Z;
}.
Record RequestReplySnapshot := mkRRSnapshot {
  rs_CapturedAt : Z;
  rs_MedianRttMs : option spec_float;
  rs_MaxProbeMs : option spec_float;
  rs_Patterns : list RequestReplyPattern;
  rs_Connections : list RequestReplyConnection;
  rs_Requesters : nat;
  rs_Responders : nat;
}.

(** * Connections *)

Record connzSubscription := mkSubscription { su_Subject : string; su_Queue : string }.
Record connzSubDetail := mkSubDetail { sd_Subject : string; sd_Queue : string; sd_QGroup : string }.
(** [cz_SubscriptionsRaw]: the JSON text of the field. *)
Record connzConnection := mkConnz {
  cz_Name : string;
  cz_Account : string;
  cz_Rtt : string;
  cz_SubscriptionsRaw : string;
  cz_SubscriptionsList : list string;
  cz_SubscriptionsListDetail : list connzSubDetail;
  cz_CID : Z;
  cz_PendingBytes : Z;
}.
Class ConnzJson := {
  read_connz : string → option (list connzConnection);
  read_subscriptions : string → option (list connzSubscription);
}.

Section Connz.
Context `{ConnzJson}.
Definition subscriptions (c : connzConnection) : list connzSubscription :=
  if Nat.ltb 0 (length (cz_SubscriptionsListDetail c)) then
    (λ d, mkSubscription (sd_Subject d) (if IsEmpty (sd_QGroup d) then sd_Queue d else sd_QGroup d)) <$> cz_SubscriptionsListDetail c
  else if Nat.ltb 0 (length (cz_SubscriptionsList c)) then (λ s, mkSubscription s "") <$> cz_SubscriptionsList c
  else
    let raw := cz_SubscriptionsRaw c in
    if Nat.eqb (String.length raw) 0 || (raw =s "null") then []
    else if negb (HasPrefix raw "[") then []
    else default [] (read_subscriptions raw).
End Connz.

Definition isInboxSubject (subject : string) : bool := (subject =s "_INBOX.>") || HasPrefix subject "_INBOX.".
Definition isInternalSubject (subject : string) : bool := HasPrefix subject "$JS." || HasPrefix subject "$SYS." || isInboxSubject subject.
Definition queueServiceLabel (subject queue : string) : string := subject +:+ " (queue:" +:+ queue +:+ ")".
Definition inbox_sub (s : connzSubscription) : option string :=
  let subject := TrimSpace (su_Subject s) in
  if IsEmpty subject then None else if isInboxSubject subject then Some subject else None.
Definition service_sub (s : connzSubscription) : option string :=
  let subject := TrimSpace (su_Subject s) in
  if IsEmpty subject then None
  else if isInboxSubject subject then None
  else if isInternalSubject subject then None
  else Some (if IsEmpty (su_Queue s) then subject else queueServiceLabel subject (su_Queue s)).
Definition classifySubscriptions (subs : list connzSubscription) : list string * list string := (omap inbox_sub subs, omap service_sub subs).

Definition float_ms (d : Z) : spec_float := fdiv (f64 d) (f64 1000000).
(** The quotient of two whole numbers is neither NaN nor infinite. *)
Definition ParseRttMs (rtt : string) : option spec_float :=
  let rtt := TrimSpace rtt in
  if IsEmpty rtt then None
  else match ParseDuration rtt with
  | None => None
  | Some d => let ms := float_ms d in if SFltb ms (f64 0) then None else Some ms
  end.
(** Minimum, median and maximum. *)
Definition rttStats (values : list spec_float) : option (spec_float * spec_float * spec_float) :=
  match values with
  | [] => None
  | _ =>
      let sorted := sort_stable float_le values in
      let at_ i := nth i sorted (f64 0) in
      let n := length sorted in
      Some (at_ 0, (if Nat.even n then fdiv (fadd (at_ (n / 2 - 1)) (at_ (n / 2))) (f64 2) else at_ (n / 2)), at_ (n - 1))%nat
  end.
Definition medianPtr (values : list spec_float) : option spec_float := (λ s, s.1.2) <$> rttStats values.
Definition maxProbeLatency (results : list RequestReplyProbeResult) : option spec_float :=
  foldl (λ max result, if pr_OK result
                       then match max with
                            | Some m => if SFltb m (pr_LatencyMs result) then Some (pr_LatencyMs result) else max
                            | None => Some (pr_LatencyMs result)
                            end
                       else max) None results.

(** * The snapshot *)

Abbreviation patternKey := (string * string)%type.
Record rr_state := mkRRState {
  st_requesterCIDs : gset Z;
  st_responderCIDs : gset Z;
  st_patternResponders : gmap patternKey (gset Z);
  st_patternRtts : gmap patternKey (list spec_float);
  st_connections : list RequestReplyConnection;
  st_participantRtts : list spec_float;
}.
Definition no_rr_state : rr_state := mkRRState ∅ ∅ ∅ ∅ [] [].
Definition sub_key (s : connzSubscription) : patternKey := (su_Subject s, su_Queue s).
Definition shown_sub (s : connzSubscription) : bool := negb (isInternalSubject (su_Subject s) || isInboxSubject (su_Subject s)).
Definition add_pattern (cid : Z) (rtt : option spec_float) (ps : gmap patternKey (gset Z) * gmap patternKey (list spec_float)) (s : connzSubscription) :=
  if shown_sub s then
    let key := sub_key s in
    (<[key := {[cid]} ∪ default ∅ (ps.1 !! key)]> ps.1,
     match rtt with Some v => <[key := default [] (ps.2 !! key) ++ [v]]> ps.2 | None => ps.2 end)
  else ps.

Section Build.
Context `{ConnzJson}.
Definition add_connection (st : rr_state) (c : connzConnection) : rr_state :=
  let subs := subscriptions c in
  let '(inboxSubs, serviceSubs) := classifySubscriptions subs in
  let isRequester := Nat.ltb 0 (length inboxSubs) in
  let isResponder := Nat.ltb 0 (length serviceSubs) in
  if negb isRequester && negb isResponder then st
  else
    let rtt := ParseRttMs (cz_Rtt c) in
    let ps := foldl (add_pattern (cz_CID c) rtt) (st_patternResponders st, st_patternRtts st) subs in
    mkRRState (if isRequester then {[cz_CID c]} ∪ st_requesterCIDs st else st_requesterCIDs st)
      (if isResponder then {[cz_CID c]} ∪ st_responderCIDs st else st_responderCIDs st) ps.1 ps.2
      (st_connections st ++ [mkConnection rtt (cz_Name c) (cz_Account c) inboxSubs serviceSubs (cz_CID c) (cz_PendingBytes c)])
      (match rtt with Some v => st_participantRtts st ++ [v] | None => st_participantRtts st end).
(** The last result for a subject. *)
Definition probeBySubject (results : list RequestReplyProbeResult) (subject : string) : option RequestReplyProbeResult :=
  List.find (λ r, pr_Subject r =s subject) (rev results).
Definition pattern_of (st : rr_state) (results : list RequestReplyProbeResult) (kc : patternKey * gset Z) : RequestReplyPattern :=
  let '((subject, queue) as key, cids) := kc in
  let stats := rttStats (default [] (st_patternRtts st !! key)) in
  let probe := probeBySubject results subject in
  mkPattern ((λ s, s.1.1) <$> stats) ((λ s, s.1.2) <$> stats) ((λ s, s.2) <$> stats)
    (pr_LatencyMs <$> probe) (pr_OK <$> probe) subject queue (match probe with Some r => pr_Error r | None => "" end)
    (size (st_requesterCIDs st)) (size cids).
Definition pattern_le (a b : RequestReplyPattern) : bool :=
  if bool_decide (rt_Subject a = rt_Subject b) then bool_decide (String.le (rt_Queue a) (rt_Queue b))
  else bool_decide (String.le (rt_Subject a) (rt_Subject b)).
Definition connection_le (a b : RequestReplyConnection) : bool := Z.leb (rc_CID a) (rc_CID b).
(** [range]: the order in which the map of patterns is taken.  A connection has its own
    number, so that any sort by it is the stable one. *)
Definition BuildRequestReplySnapshot (range : gmap patternKey (gset Z) → list (patternKey * gset Z)) (raw : string)
    (probeResults : list RequestReplyProbeResult) : RequestReplySnapshot :=
  match read_connz raw with
  | None => mkRRSnapshot 0 None None [] [] 0 0
  | Some conns =>
      let st := foldl add_connection no_rr_state conns in
      mkRRSnapshot 0 (medianPtr (st_participantRtts st)) (maxProbeLatency probeResults)
        (sort_stable pattern_le (pattern_of st probeResults <$> range (st_patternResponders st)))
        (sort_stable connection_le (st_connections st))
        (size (st_requesterCIDs st)) (size (st_responderCIDs st))
  end.

(** * The handler *)

Context {W : Type} `{!MonitoringLive W} (range : gmap patternKey (gset Z) → list (patternKey * gset Z)).
Definition WriteAPIError_status (e : merr) : Z := default 500%Z (domain_status e).
(** [CapturedAt] 0 is the zero time; [fresh]: the parameter of the query. *)
Definition Snapshot (now : Z) (cluster fresh : string) : M (MonState W) merr (Z * option RequestReplySnapshot) :=
  let fresh := fresh =s "1" in
  let! s := get in
  let cached := if fresh then None else PreferSnapshotMonitoring cluster RequestReplyConnzPath s in
  let overlay := match ms_hub s with Some h => (ProbeResultsOverlay cluster h).1.1 | None => [] end in
  let probeResults := if fresh then [] else overlay in
  let answer (connz : string) (capturedAt : Z) (results : list RequestReplyProbeResult) :=
    let snap := BuildRequestReplySnapshot range connz results in
    (200%Z, Some (mkRRSnapshot capturedAt (rs_MedianRttMs snap) (rs_MaxProbeMs snap) (rs_Patterns snap) (rs_Connections snap)
                    (rs_Requesters snap) (rs_Responders snap))) in
  match cached with
  | Some (connz, capturedAt) => ret (answer connz capturedAt probeResults)
  | None =>
      let! r := attempt (GetExecutor cluster) in
      match r with
      | Err e => ret (WriteAPIError_status e, None)
      | Ok _ =>
          let! r := attempt (exec_live cluster RequestReplyConnzPath) in
          match r with
          | Err _ => ret (502%Z, None)
          | Ok (connz, _) => let! s := get in ret (answer connz now (if Nat.eqb (length probeResults) 0 then
                                 match ms_hub s with Some h => (ProbeResultsOverlay cluster h).1.1 | None => [] end else probeResults))
          end
      end
  end.
End Build.
