(* ===== verification/RequestReplyFacts.v ===== *)
(** The inspector shows exactly who listens to what, whatever order Go takes its maps
    in. *)

From S2P Require Export RequestReply.
From S2P Require Import GoStrings Sorting Subjects ArchitectureFacts.

Section Facts.
Context `{ConnzJson}.

(** * What a connection adds *)

Definition is_requester (c : connzConnection) : bool := Nat.ltb 0 (length (omap inbox_sub (subscriptions c))).
Definition is_responder (c : connzConnection) : bool := Nat.ltb 0 (length (omap service_sub (subscriptions c))).
Definition participates (c : connzConnection) : bool := is_requester c || is_responder c.
Definition on_key (k : patternKey) (s : connzSubscription) : bool := shown_sub s && bool_decide (sub_key s = k).
(** The connection is listed under [k]. *)
Definition listens_on (k : patternKey) (c : connzConnection) : bool := participates c && existsb (on_key k) (subscriptions c).
Definition cids (p : connzConnection → bool) (conns : list connzConnection) : gset Z := list_to_set (cz_CID <$> List.filter p conns).
(** The round trips measured for [k], one for each subscription. *)
Definition rtts_of (k : patternKey) (c : connzConnection) : list spec_float :=
  if participates c then flat_map (λ s, if on_key k s then option_list (ParseRttMs (cz_Rtt c)) else []) (subscriptions c) else [].
Definition row_of (c : connzConnection) : RequestReplyConnection :=
  mkConnection (ParseRttMs (cz_Rtt c)) (cz_Name c) (cz_Account c) (omap inbox_sub (subscriptions c)) (omap service_sub (subscriptions c)) (cz_CID c) (cz_PendingBytes c).

Lemma add_patterns_responders cid rtt ps subs k : (foldl (add_pattern cid rtt) ps subs).1 !! k =
  if existsb (on_key k) subs then Some ({[cid]} ∪ default ∅ (ps.1 !! k)) else ps.1 !! k.
Proof.
  revert ps. induction subs as [|s l IH]; intros ps; [done|]. cbn [foldl existsb]. rewrite IH. clear IH. unfold add_pattern, on_key at 2.
  destruct (shown_sub s); [|done]. cbv zeta. cbn [fst snd andb]. case_bool_decide as E; cbn [orb].
  - subst k. rewrite lookup_insert_eq. destruct (existsb _ l); [|done]. f_equal. cbn. set_solver.
  - by rewrite lookup_insert_ne.
Qed.
Lemma add_patterns_rtts cid rtt ps subs k : default [] ((foldl (add_pattern cid rtt) ps subs).2 !! k) =
  default [] (ps.2 !! k) ++ flat_map (λ s, if on_key k s then option_list rtt else []) subs.
Proof.
  revert ps. induction subs as [|s l IH]; intros ps; cbn [foldl flat_map]; [by rewrite List.app_nil_r|]. rewrite IH, List.app_assoc. clear IH. f_equal.
  unfold add_pattern, on_key. destruct (shown_sub s); cbn [andb]; [|by rewrite List.app_nil_r]. cbv zeta. cbn [snd].
  destruct rtt as [v|]; [|by case_bool_decide; rewrite List.app_nil_r]. case_bool_decide as E; cbn [option_list].
  - subst k. by rewrite lookup_insert_eq.
  - by rewrite lookup_insert_ne, List.app_nil_r.
Qed.
Lemma add_connection_run st c : add_connection st c =
  if participates c then
    let rtt := ParseRttMs (cz_Rtt c) in
    let ps := foldl (add_pattern (cz_CID c) rtt) (st_patternResponders st, st_patternRtts st) (subscriptions c) in
    mkRRState (if is_requester c then {[cz_CID c]} ∪ st_requesterCIDs st else st_requesterCIDs st)
      (if is_responder c then {[cz_CID c]} ∪ st_responderCIDs st else st_responderCIDs st) ps.1 ps.2 (st_connections st ++ [row_of c])
      (st_participantRtts st ++ option_list rtt)
  else st.
Proof.
  unfold add_connection, classifySubscriptions, participates. fold (is_requester c) (is_responder c). cbv zeta.
  destruct (is_requester c), (is_responder c); cbn [negb andb orb]; try done; f_equal; destruct (ParseRttMs (cz_Rtt c)); cbn [option_list]; by rewrite ?List.app_nil_r.
Qed.
Lemma conns_spec conns st : let st' := foldl add_connection st conns in
  (∀ k, st_patternResponders st' !! k =
     if existsb (listens_on k) conns then Some (cids (listens_on k) conns ∪ default ∅ (st_patternResponders st !! k)) else st_patternResponders st !! k) ∧
  (∀ k, default [] (st_patternRtts st' !! k) = default [] (st_patternRtts st !! k) ++ flat_map (rtts_of k) conns) ∧
  st_requesterCIDs st' = cids is_requester conns ∪ st_requesterCIDs st ∧ st_responderCIDs st' = cids is_responder conns ∪ st_responderCIDs st ∧
  st_connections st' = st_connections st ++ (row_of <$> List.filter participates conns) ∧
  st_participantRtts st' = st_participantRtts st ++ flat_map (λ c, if participates c then option_list (ParseRttMs (cz_Rtt c)) else []) conns.
Proof.
  revert st. induction conns as [|c l IH]; intros st; cbv zeta; cbn [foldl existsb flat_map List.filter].
  { split_and!; try done; unfold cids; cbn; try (intros; by rewrite List.app_nil_r); try set_solver; by rewrite List.app_nil_r. }
  destruct (IH (add_connection st c)) as (I1 & I2 & I3 & I4 & I5 & I6). cbv zeta in I1, I2, I3, I4, I5, I6.
  rewrite I3, I4, I5, I6. clear I3 I4 I5 I6 IH. rewrite add_connection_run in *.
  unfold cids, listens_on, rtts_of in *. destruct (participates c) eqn:Ep; cbv zeta in *; cbn [st_patternResponders st_patternRtts st_requesterCIDs st_responderCIDs st_connections st_participantRtts] in *.
  2:{ pose proof Ep as Ep'. unfold participates in Ep'. apply orb_false_iff in Ep' as [E1 E2]. split_and!; try done.
      all: try (cbn [List.filter]; by rewrite ?Ep, ?E1, ?E2).
      all: intros k; rewrite ?I1, ?I2; cbn [List.filter]; by rewrite ?Ep. }
  split_and!.
  - intros k. rewrite I1, add_patterns_responders. cbn [fst List.filter]. rewrite Ep. cbn [andb].
    destruct (existsb (on_key k) (subscriptions c)) eqn:Ek; cbn [orb]; [|done].
    destruct (existsb _ l) eqn:El; f_equal; [cbn; set_solver|].
    assert (Hnone : List.filter (λ c, participates c && existsb (on_key k) (subscriptions c)) l = []).
    { clear -El. induction l as [|x l IH]; [done|]. cbn in *. apply orb_false_iff in El as [-> El]. by apply IH. }
    rewrite Hnone. cbn. set_solver.
  - intros k. rewrite I2, add_patterns_rtts. cbn [snd]. by rewrite List.app_assoc.
  - destruct (is_requester c) eqn:E; cbn [List.filter]; rewrite E; cbn -[is_requester is_responder]; set_solver.
  - destruct (is_responder c) eqn:E; cbn [List.filter]; rewrite E; cbn -[is_requester is_responder]; set_solver.
  - cbn. by rewrite <- List.app_assoc.
  - by rewrite List.app_assoc.
Qed.

(** * Order *)

Abbreviation pattern_key := (λ p : RequestReplyPattern, (rt_Subject p, rt_Queue p)).
Lemma pattern_le_spec a b : pattern_le a b = true ↔
  rt_Subject a ≠ rt_Subject b ∧ String.le (rt_Subject a) (rt_Subject b) ∨ rt_Subject a = rt_Subject b ∧ String.le (rt_Queue a) (rt_Queue b).
Proof. unfold pattern_le. case_bool_decide as E; rewrite bool_decide_eq_true; naive_solver. Qed.
Lemma pattern_le_total a b : pattern_le a b = false → pattern_le b a = true.
Proof.
  rewrite <- not_true_iff_false, !pattern_le_spec. intros Hn. destruct (decide (rt_Subject a = rt_Subject b)) as [E|E].
  - right. split; [done|]. destruct (total String.le (rt_Queue a) (rt_Queue b)); [|done]. destruct Hn. by right.
  - left. split; [by intros E'; apply E|]. destruct (total String.le (rt_Subject a) (rt_Subject b)); [|done]. destruct Hn. by left.
Qed.
Lemma pattern_le_trans a b c : pattern_le a b = true → pattern_le b c = true → pattern_le a c = true.
Proof.
  rewrite !pattern_le_spec. intros [[N1 L1]|[E1 L1]] [[N2 L2]|[E2 L2]].
  - left. split; [|by etrans]. intros E. rewrite E in L1. by destruct N2; apply (anti_symm String.le).
  - left. by rewrite <- E2.
  - left. by rewrite E1.
  - right. split; [congruence|by etrans].
Qed.
Lemma pattern_tied a b : tied pattern_le a b = true → pattern_key a = pattern_key b.
Proof.
  unfold tied. rewrite andb_true_iff, !pattern_le_spec. intros [[[N1 L1]|[E1 L1]] [[N2 L2]|[E2 L2]]]; try congruence.
  - by destruct N1; apply (anti_symm String.le).
  - f_equal; [done|]. by apply (anti_symm String.le).
Qed.
Lemma connection_le_total a b : connection_le a b = false → connection_le b a = true.
Proof. unfold connection_le. rewrite Z.leb_gt, Z.leb_le. lia. Qed.
Lemma connection_le_trans a b c : connection_le a b = true → connection_le b c = true → connection_le a c = true.
Proof. unfold connection_le. rewrite !Z.leb_le. lia. Qed.

(** * The snapshot *)

Definition any_order (range : gmap patternKey (gset Z) → list (patternKey * gset Z)) : Prop := ∀ m, range m ≡ₚ map_to_list m.
Lemma ranged_keys range st results : any_order range →
  NoDup (pattern_key <$> (pattern_of st results <$> range (st_patternResponders st))).
Proof.
  intros Hr. rewrite (Hr _). rewrite <- list_fmap_compose.
  rewrite (list_fmap_ext _ fst); [apply NoDup_fst_map_to_list|]. by intros i [[subject queue] c] _.
Qed.
Lemma patterns_canonical r1 r2 st results : any_order r1 → any_order r2 →
  sort_stable pattern_le (pattern_of st results <$> r1 (st_patternResponders st)) = sort_stable pattern_le (pattern_of st results <$> r2 (st_patternResponders st)).
Proof.
  intros H1 H2. apply (sort_stable_eq _ pattern_le_total pattern_le_trans). intros z. apply perm_filter_eq.
  - by rewrite (H1 _), (H2 _).
  - intros x y Hx Hy Tx Ty. apply pattern_tied in Tx, Ty. pose proof (ranged_keys r1 st results H1) as Hnd.
    apply list_elem_of_lookup in Hx as [i Hi], Hy as [j Hj]. rewrite NoDup_alt in Hnd.
    assert (i = j) as <-; [|congruence]. apply (Hnd i j (pattern_key x)); rewrite list_lookup_fmap; [by rewrite Hi|]. rewrite Hj. cbn. by f_equal; rewrite <- Tx, Ty.
Qed.

(** C40. What the inspector shows of the connections NATS lists, whatever order Go takes
    its maps in.  The patterns are sorted by subject and queue and are, once each, the
    subjects outside NATS' own that a connection taking part subscribes to; a connection
    takes part if it listens on an inbox or serves something.  A pattern counts the
    connections that listen on it and all that ask; its round trips are those measured
    of its subscriptions, its probe the last result for its subject.  The connections
    shown are the ones that take part, by their numbers. *)
Theorem request_reply_exact range raw conns results : any_order range → read_connz raw = Some conns →
  let snap := BuildRequestReplySnapshot range raw results in
  (∀ r2, any_order r2 → BuildRequestReplySnapshot r2 raw results = snap) ∧
  StronglySorted (λ a b, pattern_le a b = true) (rs_Patterns snap) ∧ NoDup (pattern_key <$> rs_Patterns snap) ∧
  (∀ k, (∃ p, p ∈ rs_Patterns snap ∧ pattern_key p = k) ↔ ∃ c s, c ∈ conns ∧ participates c = true ∧ s ∈ subscriptions c ∧ shown_sub s = true ∧ sub_key s = k) ∧
  (∀ p, p ∈ rs_Patterns snap →
     rt_ResponderCount p = size (cids (listens_on (pattern_key p)) conns) ∧
     rt_RequesterCount p = size (cids is_requester conns) ∧
     (let stats := rttStats (flat_map (rtts_of (pattern_key p)) conns) in
      rt_RttMinMs p = (λ s, s.1.1) <$> stats ∧ rt_RttMedianMs p = (λ s, s.1.2) <$> stats ∧ rt_RttMaxMs p = (λ s, s.2) <$> stats) ∧
     rt_ProbeOk p = pr_OK <$> probeBySubject results (rt_Subject p) ∧ rt_ProbeLatencyMs p = pr_LatencyMs <$> probeBySubject results (rt_Subject p)) ∧
  rs_Requesters snap = size (cids is_requester conns) ∧ rs_Responders snap = size (cids is_responder conns) ∧
  StronglySorted (λ a b, connection_le a b = true) (rs_Connections snap) ∧
  rs_Connections snap ≡ₚ row_of <$> List.filter participates conns.
Proof.
  intros Hr Hraw. destruct (conns_spec conns no_rr_state) as (I1 & I2 & I3 & I4 & I5 & _). cbv zeta.
  assert (Hb : ∀ r, BuildRequestReplySnapshot r raw results = let st := foldl add_connection no_rr_state conns in
    mkRRSnapshot 0 (medianPtr (st_participantRtts st)) (maxProbeLatency results)
      (sort_stable pattern_le (pattern_of st results <$> r (st_patternResponders st))) (sort_stable connection_le (st_connections st))
      (size (st_requesterCIDs st)) (size (st_responderCIDs st))) by (intros r; unfold BuildRequestReplySnapshot; by rewrite Hraw).
  rewrite (Hb range). cbv zeta in Hb |- *. set (st := foldl add_connection no_rr_state conns) in *.
  cbn [st_patternResponders st_patternRtts st_requesterCIDs st_responderCIDs st_connections no_rr_state] in I1, I2, I3, I4, I5.
  cbn [rs_Patterns rs_Connections rs_Requesters rs_Responders]. rewrite I3, I4, I5, !union_empty_r_L.
  assert (Hperm : sort_stable pattern_le (pattern_of st results <$> range (st_patternResponders st)) ≡ₚ pattern_of st results <$> map_to_list (st_patternResponders st))
    by (rewrite sort_stable_perm; by rewrite (Hr _)).
  assert (Hlook : ∀ k c, st_patternResponders st !! k = Some c ↔ existsb (listens_on k) conns = true ∧ c = cids (listens_on k) conns).
  { intros k c. rewrite I1, lookup_empty. cbn. rewrite union_empty_r_L. destruct (existsb _ _); naive_solver. }
  split_and!; try done.
  - intros r2 H2. rewrite (Hb r2), I3, I4, I5, !union_empty_r_L. f_equal. by apply patterns_canonical.
  - apply sort_stable_sorted; [exact pattern_le_total|exact pattern_le_trans].
  - rewrite sort_stable_perm. by apply ranged_keys.
  - intros k. transitivity (existsb (listens_on k) conns = true).
    + split.
      * intros (p & Hp & <-). rewrite Hperm in Hp. apply list_elem_of_fmap in Hp as ([[subject queue] c] & -> & Hc).
        apply elem_of_map_to_list in Hc. by apply Hlook in Hc as [Hc _].
      * intros Hk. exists (pattern_of st results (k, cids (listens_on k) conns)). split; [|by destruct k].
        rewrite Hperm. apply list_elem_of_fmap. eexists. split; [done|]. apply elem_of_map_to_list. by apply Hlook.
    + unfold listens_on. rewrite List.existsb_exists. setoid_rewrite andb_true_iff. setoid_rewrite List.existsb_exists. unfold on_key. setoid_rewrite andb_true_iff.
      setoid_rewrite bool_decide_eq_true. setoid_rewrite <- list_elem_of_In. naive_solver.
  - intros p Hp. rewrite Hperm in Hp. apply list_elem_of_fmap in Hp as ([[subject queue] c] & -> & Hc). apply elem_of_map_to_list in Hc.
    apply Hlook in Hc as [_ ->]. unfold pattern_of. cbv zeta. cbn [rt_ResponderCount rt_RequesterCount rt_RttMinMs rt_RttMedianMs rt_RttMaxMs rt_ProbeOk rt_ProbeLatencyMs rt_Subject rt_Queue].
    rewrite I3, union_empty_r_L, I2, lookup_empty. cbn [default List.app]. done.
  - apply sort_stable_sorted; [exact connection_le_total|exact connection_le_trans].
  - apply sort_stable_perm.
Qed.
End Facts.

(** * A reading *)

Definition two_services : list connzConnection :=
  [mkConnz "api" "A" "1.5ms" "2" [] [mkSubDetail "_INBOX.x.*" "" ""; mkSubDetail "orders.get" "" "workers"] 7 0;
   mkConnz "worker" "A" "500us" "" ["orders.get"; "$SYS.x"] [] 3 0;
   mkConnz "idle" "A" "1ms" "0" [] [] 5 0].
#[local] Instance two_connections : ConnzJson := {| read_connz _ := Some two_services; read_subscriptions _ := None |}.
Lemma request_reply_exact_witness :
  let snap := BuildRequestReplySnapshot map_to_list "" [mkProbeResult 0 "orders.get" "" (f64 3) true] in
  rc_CID <$> rs_Connections snap = [3; 7]%Z ∧ ((λ p, (rt_Subject p, rt_Queue p)) <$> rs_Patterns snap = [("orders.get", ""); ("orders.get", "workers")]) ∧
  (∀ r2, any_order r2 → BuildRequestReplySnapshot r2 "" [mkProbeResult 0 "orders.get" "" (f64 3) true] = snap) ∧ rs_Requesters snap = 1.
Proof.
  destruct (request_reply_exact (H := two_connections) map_to_list "" two_services [mkProbeResult 0 "orders.get" "" (f64 3) true] (λ m, Permutation_refl _) eq_refl) as (H1 & _).
  split; [vm_compute; reflexivity|]. split; [vm_compute; reflexivity|]. split; [exact H1|vm_compute; reflexivity].
Defined.
