(* ===== verification/ArchExport.v ===== *)
(** The export of an architecture, internal/domain/architecture_export.go: the inventory
    with its limits, which it keeps and is whole unless it says otherwise, and the files
    generated from it.

    Letters and digits outside ASCII are the class [GoLetters].  A tag of the Draw.io file
    is written by [xml_tag]; the Excalidraw file, a JSON document, the bundle that holds it
    (GenerateArchitectureExport) and the archive are not modelled. *)

From S2P Require Export Architecture Dates.
From S2P Require Import Runes GoStrings Subjects.
From Stdlib Require Import Ascii.

Definition archExportMaxStreams : nat := 40.
Definition archExportMaxConsumers : nat := 80.

Record ArchitectureInventory := mkInventory {
  iv_CapturedAt : Z;
  iv_ClusterName : string;
  iv_Streams : list EventArchitectureInput;
  iv_Demo : bool;
  iv_Truncated : bool;
}.
Record ArchitectureExportFile := mkExportFile { ef_Path : string; ef_Content : string }.

(** * The inventory *)

Definition stream_name_le (a b : EventArchitectureInput) : bool := bool_decide (String.le (ai_Name a) (ai_Name b)).
Definition with_consumers (s : EventArchitectureInput) (l : list NamingConsumer) : EventArchitectureInput :=
  mkArchInput (ai_Name s) (ai_Subjects s) l (ai_Messages s) (ai_Bytes s).
(** The streams with the consumers that are left for them, [total] having been taken;
    and whether any was cut. *)
Fixpoint clip_consumers (total : nat) (streams : list EventArchitectureInput) : list EventArchitectureInput * bool :=
  match streams with
  | [] => ([], false)
  | s :: l =>
      if Nat.leb archExportMaxConsumers total then
        let '(l, _) := clip_consumers total l in (with_consumers s [] :: l, true)
      else
        let remain := (archExportMaxConsumers - total)%nat in
        let cut := Nat.ltb remain (length (ai_Consumers s)) in
        let kept := if cut then take remain (ai_Consumers s) else ai_Consumers s in
        let '(l, truncated) := clip_consumers (total + length kept) l in (with_consumers s kept :: l, cut || truncated)
  end.
(** [now]: the clock; a time that is zero is now. *)
Definition BuildArchitectureInventory (now : Z) (clusterName : string) (capturedAt : Z) (streams : list EventArchitectureInput) : ArchitectureInventory :=
  let sorted := sort_stable stream_name_le streams in
  let many := Nat.ltb archExportMaxStreams (length sorted) in
  let '(streams, truncated) := clip_consumers 0 (if many then take archExportMaxStreams sorted else sorted) in
  mkInventory (if Z.eqb capturedAt 0 then now else capturedAt) (if IsEmpty clusterName then "cluster" else clusterName) streams false (many || truncated).
Definition listening (name filter : string) : NamingConsumer := mkNamingConsumer name filter [].
Definition DemoArchitectureInventory (now : Z) : ArchitectureInventory :=
  let inv := BuildArchitectureInventory now "demo-cluster" now [
    mkArchInput "ORDERS" ["orders.created"; "orders.updated"; "orders.shipped"]
      [listening "billing" "orders.>"; listening "shipping" "orders.shipped"; listening "analytics" "orders.>"] 1000 2000000;
    mkArchInput "BILLING" ["billing.charged"; "billing.refunded"] [listening "ledger" "billing.>"] 400 400000;
    mkArchInput "NOTIFY" ["notify.email"; "notify.sms"] [listening "mailer" "notify.email"] 200 80000] in
  mkInventory (iv_CapturedAt inv) (iv_ClusterName inv) (iv_Streams inv) true (iv_Truncated inv).

(** * Texts *)

Definition nl : string := String (ascii_of_nat 10) "".
Definition q (s : string) : string := let d := String (ascii_of_nat 34) "" in d +:+ s +:+ d.
Definition cat (l : list string) : string := Join l "".
(** A text of lines, each ended. *)
Definition lines (l : list string) : string := cat ((λ s, s +:+ nl) <$> l).
Definition num (n : nat) : string := Itoa (Z.of_nat n).
(** [strings.ReplaceAll] of one byte *)
Definition replace_byte (old : ascii) (new s : string) : string := cat ((λ a, if Ascii.eqb a old then new else String a "") <$> bytes_of s).
Definition sanitizeLabel (s : string) : string := replace_byte (ascii_of_nat 10) " " (replace_byte (ascii_of_nat 34) "'" s).
Definition escapeMermaid (s : string) : string := replace_byte "]" ")" (replace_byte "[" "(" (sanitizeLabel s)).

Class GoLetters := {
  unicode_is_letter : string → bool;   (* of one rune, as UTF-8 *)
  unicode_is_digit : string → bool;
}.
Section Letters.
Context `{GoLetters}.
Definition IsLetter (r : string) : bool :=
  match one_ascii r with Some a => upper_byte_b a || lower_byte_b a | None => unicode_is_letter r end.
Definition IsDigit (r : string) : bool := match one_ascii r with Some a => bool_decide (is_Some (digit a)) | None => unicode_is_digit r end.
Definition mermaidID (s : string) : string := "n" +:+ of_runes ((λ r, if IsLetter r || IsDigit r then r else "_") <$> runes s).
Definition plantID (s : string) : string := let id := mermaidID s in if id =s "n" then "nX" else id.

Definition primaryFilter (c : NamingConsumer) : string := default ">" (head (archConsumerFilters c)).
(** The first [n] subjects that are not empty. *)
Definition clipSubjects (subjects : list string) (n : nat) : list string := take n (omap nonempty_trimmed subjects).
(** [Format(time.RFC3339)] in UTC *)
Definition format_rfc3339 (t : Z) : string :=
  let s := ((t mod day_ns) / second)%Z in
  format_day t +:+ "T" +:+ pad 2 (s / 3600)%Z +:+ ":" +:+ pad 2 ((s / 60) mod 60)%Z +:+ ":" +:+ pad 2 (s mod 60)%Z +:+ "Z".

Definition stream_id (s : EventArchitectureInput) : string := "S_" +:+ ai_Name s.
Definition consumer_id (s : EventArchitectureInput) (c : NamingConsumer) : string := "C_" +:+ ai_Name s +:+ "_" +:+ nmc_Name c.

Definition renderManifest (inv : ArchitectureInventory) : string := lines (
  ["# Architecture export manifest"; ""; "- Cluster: `" +:+ iv_ClusterName inv +:+ "`"; "- Captured: " +:+ format_rfc3339 (iv_CapturedAt inv);
   "- Streams: " +:+ num (length (iv_Streams inv));
   if iv_Demo inv then "- Source: sample / demo inventory" else "- Source: live JetStream jsz scan"] ++
  (if iv_Truncated inv then ["- Note: inventory truncated for export size limits"] else []) ++
  [""; "## Files"; ""; "- `c4/context.puml` — C4-PlantUML context"; "- `c4/containers.mmd` — C4-style Mermaid container view";
   "- `diagrams/architecture.mmd` — Mermaid flowchart"; "- `diagrams/architecture.puml` — PlantUML components";
   "- `diagrams/architecture.excalidraw` — Excalidraw scene"; "- `diagrams/architecture.drawio` — diagrams.net / Draw.io";
   "- `docs/architecture.md` — Markdown architecture doc"; "- `adr/0001-jetstream-topology.md` — ADR: JetStream topology";
   "- `adr/0002-subject-boundaries.md` — ADR: subject boundaries"]).
Definition renderC4PlantUML (inv : ArchitectureInventory) : string := lines (
  ["@startuml"; "!include https://raw.githubusercontent.com/plantuml-stdlib/C4-PlantUML/master/C4_Container.puml"; "";
   "title C4 Container — " +:+ sanitizeLabel (iv_ClusterName inv) +:+ " JetStream"; "";
   "Person(ops, " +:+ q "Operator" +:+ ", " +:+ q "Uses NATS Consol" +:+ ")"; "System_Boundary(js, " +:+ q "JetStream" +:+ ") {"] ++
  ((λ s, "  Container(" +:+ plantID (stream_id s) +:+ ", " +:+ q (sanitizeLabel (ai_Name s)) +:+ ", " +:+ q "JetStream stream" +:+ ", " +:+
         q (sanitizeLabel (Join (clipSubjects (ai_Subjects s) 3) ", ")) +:+ ")") <$> iv_Streams inv) ++
  ["}"; "Rel(ops, js, " +:+ q "Manages via Consol" +:+ ")"] ++
  flat_map (λ s, flat_map (λ c,
    ["Container(" +:+ plantID (consumer_id s c) +:+ ", " +:+ q (sanitizeLabel (nmc_Name c)) +:+ ", " +:+ q "Consumer" +:+ ", " +:+ q (sanitizeLabel (primaryFilter c)) +:+ ")";
     "Rel(" +:+ plantID (consumer_id s c) +:+ ", " +:+ plantID (stream_id s) +:+ ", " +:+ q "consumes" +:+ ")"]) (ai_Consumers s)) (iv_Streams inv) ++
  ["@enduml"]).
Definition node (id label : string) : string := id +:+ "[" +:+ q label +:+ "]".
Definition arrow (a b : string) : string := a +:+ " --> " +:+ b.
Definition renderC4Mermaid (inv : ArchitectureInventory) : string := lines (
  ["%% C4-style container view (Mermaid flowchart)"; "flowchart TB"; "  subgraph " +:+ node "cluster" (escapeMermaid (iv_ClusterName inv))] ++
  flat_map (λ s, let sid := mermaidID (stream_id s) in
    ("    " +:+ node sid ("Stream: " +:+ escapeMermaid (ai_Name s))) ::
    flat_map (λ c, let cid := mermaidID (consumer_id s c) in
      ["    " +:+ node cid ("Consumer: " +:+ escapeMermaid (nmc_Name c)); "    " +:+ arrow sid cid]) (ai_Consumers s)) (iv_Streams inv) ++
  ["  end"; "  Operator((Operator)) --> cluster"]).
Definition mermaid_stream (s : EventArchitectureInput) : list string :=
  let sid := mermaidID (stream_id s) in
  ("  " +:+ node sid (escapeMermaid (ai_Name s))) ::
  flat_map (λ subj, let jid := mermaidID ("J_" +:+ ai_Name s +:+ "_" +:+ subj) in
    ["  " +:+ jid +:+ "((" +:+ q (escapeMermaid subj) +:+ "))"; "  " +:+ arrow jid sid]) (clipSubjects (ai_Subjects s) 4) ++
  flat_map (λ c, let cid := mermaidID (consumer_id s c) in
    ["  " +:+ node cid (escapeMermaid (nmc_Name c)); "  " +:+ arrow sid cid]) (ai_Consumers s).
Definition renderMermaidFlow (inv : ArchitectureInventory) : string := lines ("flowchart LR" :: flat_map mermaid_stream (iv_Streams inv)).
Definition renderPlantUML (inv : ArchitectureInventory) : string := lines (
  ["@startuml"; "left to right direction"; "title " +:+ sanitizeLabel (iv_ClusterName inv) +:+ " — JetStream components"; ""] ++
  flat_map (λ s,
    ["package " +:+ q (sanitizeLabel (ai_Name s)) +:+ " {"; "  component [" +:+ sanitizeLabel (ai_Name s) +:+ "] as " +:+ plantID (stream_id s)] ++
    flat_map (λ c,
      ["  component [" +:+ sanitizeLabel (nmc_Name c) +:+ "] as " +:+ plantID (consumer_id s c);
       "  " +:+ arrow (plantID (stream_id s)) (plantID (consumer_id s c)) +:+ " : " +:+ sanitizeLabel (primaryFilter c)]) (ai_Consumers s) ++
    ["}"]) (iv_Streams inv) ++
  ["@enduml"]).

(** ** Draw.io *)

(** [html.EscapeString] *)
Definition escape_char (a : ascii) : string :=
  if Ascii.eqb a "&" then "&amp;" else if Ascii.eqb a "'" then "&#39;" else if Ascii.eqb a "<" then "&lt;"
  else if Ascii.eqb a ">" then "&gt;" else if Ascii.eqb a (ascii_of_nat 34) then "&#34;" else String a "".
Definition EscapeString (s : string) : string := cat (escape_char <$> bytes_of s).
Inductive xml_kind := XmlOpen | XmlClose | XmlEmpty.
#[export] Instance xml_kind_eq_dec : EqDecision xml_kind.
Proof. solve_decision. Defined.
(** A tag with its attributes, whose values are escaped already. *)
Definition xml_attr (kv : string * string) : string := " " +:+ kv.1 +:+ "=" +:+ q kv.2.
Definition xml_tag (k : xml_kind) (name : string) (attrs : list (string * string)) : string :=
  (match k with XmlClose => "</" | _ => "<" end) +:+ name +:+ cat (xml_attr <$> attrs) +:+ (match k with XmlEmpty => "/>" | _ => ">" end).
Definition geometry (x y width height : Z) : string :=
  xml_tag XmlEmpty "mxGeometry" [("x", Itoa x); ("y", Itoa y); ("width", Itoa width); ("height", Itoa height); ("as", "geometry")].
Definition vertex_cell (id : Z) (value style : string) (x y width height : Z) : string :=
  xml_tag XmlOpen "mxCell" [("id", Itoa id); ("value", EscapeString value); ("style", style); ("vertex", "1"); ("parent", "1")] +:+
  geometry x y width height +:+ xml_tag XmlClose "mxCell" [].
Definition edge_cell (id source target : Z) : string :=
  xml_tag XmlOpen "mxCell" [("id", Itoa id);
    ("style", "edgeStyle=orthogonalEdgeStyle;rounded=0;orthogonalLoop=1;jettySize=auto;html=1;endArrow=block;");
    ("edge", "1"); ("parent", "1"); ("source", Itoa source); ("target", Itoa target)] +:+
  xml_tag XmlEmpty "mxGeometry" [("relative", "1"); ("as", "geometry")] +:+ xml_tag XmlClose "mxCell" [].
Definition stream_style : string := "rounded=1;whiteSpace=wrap;html=1;fillColor=#E6FFFA;strokeColor=#0F766E;".
Definition consumer_style : string := "rounded=1;whiteSpace=wrap;html=1;fillColor=#E0F2FE;strokeColor=#0369A1;".
(** The consumers of the stream [sid], from the cell [cell] and the height [cy] on. *)
Fixpoint drawio_consumers (sid cell x cy : Z) (l : list NamingConsumer) : string * Z :=
  match l with
  | [] => ("", cell)
  | c :: l =>
      let '(rest, cell') := drawio_consumers sid (cell + 2) x (cy + 60) l in
      (vertex_cell cell (nmc_Name c) consumer_style (x + 10) cy 140 44 +:+ edge_cell (cell + 1) sid cell +:+ rest, cell')
  end.
Fixpoint drawio_streams (cell x y col : Z) (l : list EventArchitectureInput) : string :=
  match l with
  | [] => ""
  | s :: l =>
      let '(inner, cell') := drawio_consumers cell (cell + 1) x (y + 90) (ai_Consumers s) in
      let col := (col + 1)%Z in
      let '(x', y') := if Z.eqb (col mod 3) 0 then (40, y + 280)%Z else (x + 220, y)%Z in
      vertex_cell cell (ai_Name s) stream_style x y 160 60 +:+ inner +:+ drawio_streams cell' x' y' col l
  end.
Definition renderDrawIO (inv : ArchitectureInventory) : string :=
  xml_tag XmlOpen "mxfile" [("host", "nats-consol"); ("modified", format_rfc3339 (iv_CapturedAt inv)); ("agent", "nats-consol"); ("version", "1.0")] +:+
  xml_tag XmlOpen "diagram" [("id", "architecture"); ("name", "Architecture")] +:+
  xml_tag XmlOpen "mxGraphModel" [("dx", "1200"); ("dy", "800"); ("grid", "1"); ("gridSize", "10"); ("guides", "1"); ("tooltips", "1"); ("connect", "1");
    ("arrows", "1"); ("fold", "1"); ("page", "1"); ("pageScale", "1"); ("pageWidth", "1169"); ("pageHeight", "827")] +:+
  xml_tag XmlOpen "root" [] +:+ xml_tag XmlEmpty "mxCell" [("id", "0")] +:+ xml_tag XmlEmpty "mxCell" [("id", "1"); ("parent", "0")] +:+
  drawio_streams 2 40 40 0 (iv_Streams inv) +:+
  xml_tag XmlClose "root" [] +:+ xml_tag XmlClose "mxGraphModel" [] +:+ xml_tag XmlClose "diagram" [] +:+ xml_tag XmlClose "mxfile" [] +:+ nl.

(** ** Documents *)

Definition code (s : string) : string := "`" +:+ s +:+ "`".
Definition renderArchitectureMarkdown (inv : ArchitectureInventory) : string :=
  lines (["# Architecture — " +:+ iv_ClusterName inv; "";
          "Generated by NATS Consol Architecture Generator at " +:+ format_rfc3339 (iv_CapturedAt inv) +:+ "."; ""] ++
         (if iv_Truncated inv then ["> Inventory was truncated for export limits."; ""] else []) ++
         ["## Overview diagram"; ""; "```mermaid"]) +:+
  renderMermaidFlow inv +:+
  lines (["```"; ""; "## Streams"; ""; "| Stream | Subjects | Consumers | Messages | Bytes |"; "| --- | --- | ---: | ---: | ---: |"] ++
         ((λ s, "| " +:+ code (ai_Name s) +:+ " | " +:+ Join (clipSubjects (ai_Subjects s) 5) ", " +:+ " | " +:+ num (length (ai_Consumers s)) +:+ " | " +:+
                Itoa (ai_Messages s) +:+ " | " +:+ Itoa (ai_Bytes s) +:+ " |") <$> iv_Streams inv) ++
         [""; "## Consumers"; ""; "| Stream | Consumer | Filter |"; "| --- | --- | --- |"] ++
         flat_map (λ s, (λ c, "| " +:+ code (ai_Name s) +:+ " | " +:+ code (nmc_Name c) +:+ " | " +:+ code (primaryFilter c) +:+ " |") <$> ai_Consumers s) (iv_Streams inv) ++
         [""; "## Related artifacts"; ""; "- C4: `c4/context.puml`, `c4/containers.mmd`"; "- Diagrams: `diagrams/architecture.*`"; "- ADRs: `adr/`"]).
Definition renderADRTopology (inv : ArchitectureInventory) : string := lines (
  ["# ADR 0001: JetStream topology"; ""; "- Status: Accepted"; "- Date: " +:+ format_day (iv_CapturedAt inv); "- Cluster: " +:+ iv_ClusterName inv; "";
   "## Context"; ""; "The cluster exposes " +:+ num (length (iv_Streams inv)) +:+ " JetStream streams observed by NATS Consol."; "";
   "## Decision"; ""; "Treat each stream as a bounded persistence boundary for its subject set. Consumers attach per stream with explicit filter subjects."; "";
   "### Observed streams"; ""] ++
  ((λ s, "- " +:+ code (ai_Name s) +:+ " — subjects: " +:+ Join (clipSubjects (ai_Subjects s) 6) ", " +:+ " — consumers: " +:+ num (length (ai_Consumers s)))
     <$> iv_Streams inv) ++
  [""; "## Consequences"; ""; "- Stream ownership is the unit of retention, replication, and purge.";
   "- Cross-stream coupling should go through subjects, not shared storage."; "- Topology exports (this zip) should be regenerated after structural changes."]).
Definition appendUnique (l : list string) (v : string) : list string := if v ∈b l then l else l ++ [v].
(** The streams of each first token, in their order. *)
Definition add_prefix (stream : string) (m : gmap string (list string)) (subj : string) `{GoUnicode} : gmap string (list string) :=
  let tok := firstSubjectToken subj in
  if IsEmpty tok then m else <[tok := appendUnique (default [] (m !! tok)) stream]> m.
Definition prefixes `{GoUnicode} (streams : list EventArchitectureInput) : gmap string (list string) :=
  foldl (λ m s, foldl (λ m subj, add_prefix (ai_Name s) m subj) m (ai_Subjects s)) ∅ streams.
Definition boundary_lines `{GoUnicode} (streams : list EventArchitectureInput) : list string :=
  let m := prefixes streams in
  match SortStrings (map_to_list m).*1 with
  | [] => ["- (no concrete subjects observed)"]
  | keys => (λ k, "- " +:+ code (k +:+ ".*") +:+ " → " +:+ Join (default [] (m !! k)) ", ") <$> keys
  end.
Definition renderADRBoundaries `{GoUnicode} (inv : ArchitectureInventory) : string := lines (
  ["# ADR 0002: Subject boundaries"; ""; "- Status: Proposed"; "- Date: " +:+ format_day (iv_CapturedAt inv); "- Cluster: " +:+ iv_ClusterName inv; "";
   "## Context"; ""; "Subject prefixes hint at domain ownership. Multiple streams sharing a prefix may indicate tight coupling."; "";
   "## Decision"; ""; "Prefer one owning stream (or explicit bridge stream) per subject prefix family."; ""; "### Prefix → streams"; ""] ++
  boundary_lines (iv_Streams inv) ++
  [""; "## Consequences"; ""; "- Rename or split subjects that span unrelated streams."; "- Document public subjects in the Event Catalog."]).
End Letters.

(** internal/api/insights/architecture_export.go: the name of the archive *)
Definition filename_char (a : ascii) : bool :=
  upper_byte_b a || lower_byte_b a || bool_decide (is_Some (digit a)) || Ascii.eqb a "-" || Ascii.eqb a "_".
Definition sanitizeExportFilename (name : string) : string :=
  if IsEmpty name then "cluster"
  else
    let out := of_runes ((λ r, match one_ascii r with Some a => if filename_char a then r else "_" | None => "_" end) <$> runes name) in
    if IsEmpty out then "cluster" else out.

(** * What the inventory holds *)

Definition consumer_count (l : list EventArchitectureInput) : nat := length (flat_map ai_Consumers l).
(** The same stream with the first of its consumers. *)
Definition clipped (s s' : EventArchitectureInput) : Prop := ∃ k, s' = with_consumers s (take k (ai_Consumers s)).
Lemma with_all s : with_consumers s (ai_Consumers s) = s.
Proof. by destruct s. Qed.
Lemma consumer_count_cons s l : consumer_count (s :: l) = length (ai_Consumers s) + consumer_count l.
Proof. unfold consumer_count. cbn [flat_map]. by rewrite length_app. Qed.
Lemma clip_spec total l : let '(l', truncated) := clip_consumers total l in
  Forall2 clipped l l' ∧ consumer_count l' ≤ archExportMaxConsumers - total ∧ (truncated = false → l' = l).
Proof.
  revert total. induction l as [|s l IH]; intros total; cbn [clip_consumers].
  { split; [constructor|]. split; [apply Nat.le_0_l|done]. }
  destruct (Nat.leb_spec archExportMaxConsumers total) as [Hle|Hlt].
  - specialize (IH total). destruct (clip_consumers total l) as [l' tr]. destruct IH as (I1 & I2 & _). split; [|split; [|done]].
    + constructor; [by exists 0|done].
    + by rewrite consumer_count_cons.
  - cbv zeta. set (kept := if Nat.ltb (archExportMaxConsumers - total) (length (ai_Consumers s)) then take (archExportMaxConsumers - total) (ai_Consumers s) else ai_Consumers s). specialize (IH (total + length kept)). destruct (clip_consumers (total + length kept) l) as [l' tr].
    assert (Hk : length kept ≤ archExportMaxConsumers - total ∧ (∃ k, kept = take k (ai_Consumers s)) ∧
      (Nat.ltb (archExportMaxConsumers - total) (length (ai_Consumers s)) = false → kept = ai_Consumers s)).
    { unfold kept. destruct (Nat.ltb_spec (archExportMaxConsumers - total) (length (ai_Consumers s))) as [H|H].
      - rewrite length_take. split; [lia|]. split; [by eexists|done].
      - split; [done|]. split; [|done]. exists (length (ai_Consumers s)). by rewrite firstn_all. }
    destruct Hk as (K1 & [k K2] & K3). destruct IH as (I1 & I2 & I3). split; [|split].
    + constructor; [|done]. exists k. by rewrite <- K2.
    + rewrite consumer_count_cons. cbn [with_consumers ai_Consumers]. lia.
    + intros [E1 E2]%orb_false_iff. by rewrite (I3 E2), (K3 E1), with_all.
Qed.
Lemma stream_name_total a b : stream_name_le a b = false → stream_name_le b a = true.
Proof. unfold stream_name_le. rewrite bool_decide_eq_false, bool_decide_eq_true. by destruct (total String.le (ai_Name a) (ai_Name b)). Qed.
Lemma stream_name_trans a b c : stream_name_le a b = true → stream_name_le b c = true → stream_name_le a c = true.
Proof. unfold stream_name_le. rewrite !bool_decide_eq_true. intros. by etrans. Qed.

(** The inventory of an export has at most forty streams, by name, and eighty
    consumers: the streams are the first by name, each with the first of its consumers
    and otherwise as it is.  An inventory that does not say it was truncated has every
    stream with every consumer. *)
Theorem inventory_within_limits now name at_ streams :
  let inv := BuildArchitectureInventory now name at_ streams in
  let sorted := sort_stable stream_name_le streams in
  length (iv_Streams inv) ≤ archExportMaxStreams ∧ consumer_count (iv_Streams inv) ≤ archExportMaxConsumers ∧
  Forall2 clipped (take archExportMaxStreams sorted) (iv_Streams inv) ∧
  StronglySorted String.le (ai_Name <$> sorted) ∧ sorted ≡ₚ streams ∧
  (iv_Truncated inv = false → iv_Streams inv = sorted) ∧ iv_ClusterName inv ≠ "".
Proof.
  cbv zeta. set (sorted := sort_stable stream_name_le streams).
  assert (Htake : (if Nat.ltb archExportMaxStreams (length sorted) then take archExportMaxStreams sorted else sorted) = take archExportMaxStreams sorted).
  { destruct (Nat.ltb_spec archExportMaxStreams (length sorted)); [done|]. by rewrite take_ge. }
  pose proof (clip_spec 0 (take archExportMaxStreams sorted)) as Hc. unfold BuildArchitectureInventory. cbv zeta. fold sorted. rewrite Htake.
  destruct (clip_consumers 0 (take archExportMaxStreams sorted)) as [l tr]. destruct Hc as (C1 & C2 & C3). cbn [iv_Streams iv_Truncated iv_ClusterName].
  split_and!.
  - rewrite <- (Forall2_length _ _ _ C1), length_take. lia.
  - lia.
  - done.
  - assert (Hs : StronglySorted (λ a b, stream_name_le a b = true) sorted) by (apply sort_stable_sorted; [exact stream_name_total|exact stream_name_trans]).
    clear -Hs. induction Hs as [|s l _ IH Hl]; [constructor|]. rewrite fmap_cons. constructor; [done|]. rewrite Forall_fmap. eapply Forall_impl; [exact Hl|].
    intros x Hx. by apply bool_decide_eq_true in Hx.
  - apply sort_stable_perm.
  - intros [E1 E2]%orb_false_iff. rewrite (C3 E2). apply Nat.ltb_ge in E1. by rewrite take_ge.
  - destruct (IsEmpty name) eqn:E; [done|]. by apply IsEmpty_false.
Qed.
