(* ===== verification/DrawIoFacts.v ===== *)
(** The Draw.io file of an export reads back: a reader of XML tags is the specification
    of what [renderDrawIO] writes.  It takes names in ASCII, each attribute of a tag once, no
    reference but the five of [EscapeString], and values in UTF-8 without control bytes
    and noncharacters. *)

From S2P Require Export ArchExport.
From S2P Require Import GoStrings Subjects.
From Stdlib Require Import Ascii.

(** * Reading tags *)

Definition quote_char : ascii := ascii_of_nat 34.
Fixpoint span (p : ascii → bool) (l : list ascii) : list ascii * list ascii :=
  match l with
  | a :: l' => if p a then let '(u, r) := span p l' in (a :: u, r) else ([], l)
  | [] => ([], [])
  end.
Definition xml_name_char (a : ascii) : bool :=
  Nat.ltb 32 (nat_of_ascii a) && Nat.ltb (nat_of_ascii a) 127 && negb (existsb (Ascii.eqb a) (bytes_of " /=>" ++ [quote_char])).
(** U+FFFE or U+FFFF, which are no characters. *)
Fixpoint noncharacter (l : list ascii) : bool :=
  match l with
  | [] => false
  | a :: l => match l with
              | b :: c :: _ => Nat.eqb (nat_of_ascii a) 239 && Nat.eqb (nat_of_ascii b) 191 && Nat.leb 190 (nat_of_ascii c)
              | _ => false
              end || noncharacter l
  end.
(** What a value may be: UTF-8 without control bytes and noncharacters. *)
Definition xml_text (s : string) : bool :=
  LiveEncode.valid_utf8 [] s && forallb (λ a, Nat.leb 32 (nat_of_ascii a)) (bytes_of s) && negb (noncharacter (bytes_of s)).
(** The entity after an ampersand, and its length. *)
Definition entity (l : list ascii) : option (ascii * nat) :=
  let starts (s : string) := HasPrefix (of_bytes l) s in
  if starts "amp;" then Some ("&"%char, 4)
  else if starts "#39;" then Some ("'"%char, 4)
  else if starts "lt;" then Some ("<"%char, 3)
  else if starts "gt;" then Some (">"%char, 3)
  else if starts "#34;" then Some (quote_char, 4)
  else None.
Fixpoint unescape (skip : nat) (l : list ascii) : option (list ascii) :=
  match l with
  | [] => Some []
  | a :: l =>
      match skip with
      | S k => unescape k l
      | O => if Ascii.eqb a "&" then match entity l with Some (c, k) => cons c <$> unescape k l | None => None end
             else cons a <$> unescape 0 l
      end
  end.
(** Attributes up to the end of the tag; whether it is empty. *)
Fixpoint read_attrs (fuel : nat) (l : list ascii) : option (list (string * string) * bool * list ascii) :=
  match fuel, l with
  | S fuel, a :: l =>
      if Ascii.eqb a ">" then Some ([], false, l)
      else if Ascii.eqb a "/" then match l with b :: l => if Ascii.eqb b ">" then Some ([], true, l) else None | [] => None end
      else if Ascii.eqb a " " then
        let '(k, l) := span xml_name_char l in
        match l with
        | e :: d :: l =>
            if Ascii.eqb e "=" && Ascii.eqb d quote_char then
              let '(v, l) := span (λ a, negb (Ascii.eqb a quote_char)) l in
              match of_bytes <$> unescape 0 v, read_attrs fuel (tail l) with
              | Some text, Some (attrs, empty, l) =>
                  if existsb (Ascii.eqb "<") v || negb (xml_text text) || bool_decide (of_bytes k ∈ attrs.*1) then None
                  else Some ((of_bytes k, text) :: attrs, empty, l)
              | _, _ => None
              end
            else None
        | _ => None
        end
      else None
  | _, _ => None
  end.
Record xml := mkXml { xm_Kind : xml_kind; xm_Name : string; xm_Attrs : list (string * string) }.
Definition take_slash (l : list ascii) : bool * list ascii :=
  match l with b :: l' => if Ascii.eqb b "/" then (true, l') else (false, l) | [] => (false, l) end.
(** Tags, and line breaks between them. *)
Fixpoint read_tags (fuel : nat) (l : list ascii) : option (list xml) :=
  match fuel, l with
  | _, [] => Some []
  | O, _ => None
  | S fuel, a :: l =>
      if Ascii.eqb a (ascii_of_nat 10) then read_tags fuel l
      else if Ascii.eqb a "<" then
        let '(closes, l) := take_slash l in
        let '(name, l) := span xml_name_char l in
        match read_attrs (S (length l)) l with
        | Some (attrs, empty, l) =>
            (cons (mkXml (if closes then XmlClose else if empty then XmlEmpty else XmlOpen) (of_bytes name) attrs)) <$> read_tags fuel l
        | None => None
        end
      else None
  end.
Definition read_xml (s : string) : option (list xml) := read_tags (String.length s) (bytes_of s).

(** * Writing them *)

(** A tag with its values as they are. *)
Definition write_xml (t : xml) : string := xml_tag (xm_Kind t) (xm_Name t) (prod_map id EscapeString <$> xm_Attrs t).
Definition name_ok (s : string) : Prop := s ≠ "" ∧ forallb xml_name_char (bytes_of s) = true.
Definition xml_ok (t : xml) : Prop :=
  name_ok (xm_Name t) ∧ (∀ kv, kv ∈ xm_Attrs t → name_ok kv.1 ∧ xml_text kv.2 = true) ∧ NoDup (xm_Attrs t).*1 ∧ (xm_Kind t = XmlClose → xm_Attrs t = []).

Lemma span_app p u a r : forallb p u = true → p a = false → span p (u ++ a :: r) = (u, a :: r).
Proof. intros Hu Ha. induction u as [|b u IH]; cbn in *; [by rewrite Ha|]. apply andb_true_iff in Hu as [-> Hu]. by rewrite (IH Hu). Qed.
Lemma cat_cons s l : cat (s :: l) = s +:+ cat l.
Proof. unfold cat. destruct l as [|x l]; [by rewrite app_nil_r|]. by rewrite Join_cons, app_nil_l. Qed.
Lemma entity_escape a l : escape_char a ≠ String a "" → ∃ k r, bytes_of (escape_char a) ++ l = "&"%char :: r ++ l ∧ entity (r ++ l) = Some (a, k) ∧ length r = k.
Proof.
  unfold escape_char, entity. intros Hne.
  assert (Hp : ∀ s : string, HasPrefix (of_bytes (bytes_of s ++ l)) s = true).
  { intros s. apply HasPrefix_spec. exists (of_bytes l). by rewrite of_bytes_app, of_bytes_of. }
  assert (Hn : ∀ s t : string, (∀ r, HasPrefix (s +:+ r) t = false) → HasPrefix (of_bytes (bytes_of s ++ l)) t = false).
  { intros s t Ht. by rewrite of_bytes_app, of_bytes_of. }
  destruct (Ascii.eqb_spec a "&") as [->|]; [exists 4, (bytes_of "amp;"); split; [done|]; cbv zeta; by rewrite Hp|].
  destruct (Ascii.eqb_spec a "'") as [->|]; [exists 4, (bytes_of "#39;"); split; [done|]; cbv zeta; rewrite (Hn "#39;" "amp;") by done; by rewrite Hp|].
  destruct (Ascii.eqb_spec a "<") as [->|]; [exists 3, (bytes_of "lt;"); split; [done|]; cbv zeta; rewrite (Hn "lt;" "amp;"), (Hn "lt;" "#39;") by done; by rewrite Hp|].
  destruct (Ascii.eqb_spec a ">") as [->|]; [exists 3, (bytes_of "gt;"); split; [done|]; cbv zeta; rewrite (Hn "gt;" "amp;"), (Hn "gt;" "#39;"), (Hn "gt;" "lt;") by done; by rewrite Hp|].
  destruct (Ascii.eqb_spec a (ascii_of_nat 34)) as [->|]; [|done].
  exists 4, (bytes_of "#34;"); split; [done|]; cbv zeta; rewrite (Hn "#34;" "amp;"), (Hn "#34;" "#39;"), (Hn "#34;" "lt;"), (Hn "#34;" "gt;") by done; by rewrite Hp.
Qed.
Lemma unescape_skip k r l : length r = k → unescape k (r ++ l) = unescape 0 l.
Proof. revert k. induction r as [|a r IH]; intros k <-; [done|]. cbn. by apply IH. Qed.
Lemma unescape_escape s l : unescape 0 (bytes_of (EscapeString s) ++ l) = List.app (bytes_of s) <$> unescape 0 l.
Proof.
  unfold EscapeString. induction s as [|a s IH]; [change (unescape 0 l = List.app [] <$> unescape 0 l); by destruct (unescape 0 l)|]. change (bytes_of (String a s)) with (a :: bytes_of s). rewrite fmap_cons, cat_cons, bytes_of_app, <- List.app_assoc.
  destruct (decide (escape_char a = String a "")) as [E|E].
  - rewrite E. cbn [bytes_of String.list_ascii_of_string List.app unescape].
    destruct (Ascii.eqb_spec a "&") as [->|]; [by vm_compute in E|]. rewrite IH. by destruct (unescape 0 l).
  - destruct (entity_escape a (bytes_of (cat (escape_char <$> bytes_of s)) ++ l) E) as (k & r & -> & He & Hk).
    cbn [unescape Ascii.eqb]. change (Ascii.eqb "&" "&") with true. cbv iota. rewrite He, (unescape_skip k r _ Hk), IH. by destruct (unescape 0 l).
Qed.
Lemma escape_char_safe a : forallb (λ b, negb (Ascii.eqb b quote_char) && negb (Ascii.eqb "<" b)) (bytes_of (escape_char a)) = true.
Proof. by destruct a as [[] [] [] [] [] [] [] []]; vm_compute. Qed.
Lemma escaped_safe s : forallb (λ b, negb (Ascii.eqb b quote_char) && negb (Ascii.eqb "<" b)) (bytes_of (EscapeString s)) = true.
Proof.
  unfold EscapeString. induction (bytes_of s) as [|a l IH]; [done|]. rewrite fmap_cons, cat_cons, bytes_of_app, forallb_app, IH, escape_char_safe. done.
Qed.

Lemma bytes_q s : bytes_of (q s) = quote_char :: bytes_of s ++ [quote_char].
Proof. unfold q. cbv zeta. rewrite !bytes_of_app. done. Qed.
Lemma attr_bytes k v l : bytes_of (xml_attr (k, v)) ++ l = " "%char :: bytes_of k ++ "="%char :: quote_char :: bytes_of v ++ quote_char :: l.
Proof.
  unfold xml_attr. cbn [fst snd]. rewrite !bytes_of_app, bytes_q. change (bytes_of " ") with [" "%char]. change (bytes_of "=") with ["="%char].
  cbn [List.app]. rewrite <- !List.app_assoc. cbn [List.app]. by rewrite <- List.app_assoc.
Qed.
Lemma forallb_weaken {A} (p p' : A → bool) l : (∀ a, p a = true → p' a = true) → forallb p l = true → forallb p' l = true.
Proof. intros Hp. induction l as [|a l IH]; [done|]. cbn. intros [Ha Hl]%andb_true_iff. by rewrite (Hp a Ha), (IH Hl). Qed.
Lemma forallb_no_existsb {A} (p p' : A → bool) l : (∀ a, p a = true → p' a = false) → forallb p l = true → existsb p' l = false.
Proof. intros Hp. induction l as [|a l IH]; [done|]. cbn. intros [Ha Hl]%andb_true_iff. by rewrite (Hp a Ha), (IH Hl). Qed.
Definition end_mark (empty : bool) : string := if empty then "/>" else ">".
Lemma read_attrs_write attrs empty rest : (∀ kv, kv ∈ attrs → name_ok kv.1 ∧ xml_text kv.2 = true) → NoDup attrs.*1 → ∀ fuel, length attrs < fuel →
  read_attrs fuel (bytes_of (cat (xml_attr <$> (prod_map id EscapeString <$> attrs))) ++ bytes_of (end_mark empty) ++ rest) = Some (attrs, empty, rest).
Proof.
  intros Hok Hnd. induction attrs as [|[k v] attrs IH]; intros fuel Hf.
  - destruct fuel as [|fuel]; [lia|]. by destruct empty.
  - rewrite fmap_cons in Hnd. apply NoDup_cons in Hnd as [Hkey Hnd]. cbn [fst] in Hkey.
    destruct fuel as [|fuel]; [lia|]. cbn [length] in Hf. rewrite !fmap_cons, cat_cons, bytes_of_app, <- List.app_assoc. cbn [prod_map id fst snd].
    rewrite attr_bytes. cbn [read_attrs]. change (Ascii.eqb " " ">") with false. change (Ascii.eqb " " "/") with false. change (Ascii.eqb " " " ") with true. cbv iota.
    destruct (Hok (k, v) (list_elem_of_here _ _)) as [[_ Hk] Htext]. cbn [fst snd] in Hk, Htext. rewrite (span_app _ _ _ _ Hk) by done.
    change (Ascii.eqb "=" "=") with true. rewrite Ascii.eqb_refl. cbn [andb].
    rewrite (span_app (λ a, negb (Ascii.eqb a quote_char))); [| |by rewrite Ascii.eqb_refl].
    2:{ eapply forallb_weaken; [|apply escaped_safe]. by intros a [Ha _]%andb_true_iff. }
    rewrite (forallb_no_existsb (λ b, negb (Ascii.eqb b quote_char) && negb (Ascii.eqb "<" b)));
      [|by intros a [_ Ha%negb_true_iff]%andb_true_iff|apply escaped_safe].
    pose proof (unescape_escape v []) as Hu. rewrite !List.app_nil_r in Hu. change (unescape 0 []) with (Some (@nil ascii)) in Hu.
    cbn [fmap option_fmap option_map] in Hu. rewrite List.app_nil_r in Hu. rewrite Hu. cbn [fmap option_fmap option_map tail].
    rewrite !of_bytes_of, Htext. rewrite IH; [|intros kv Hkv; apply Hok; by right|done|lia]. by rewrite bool_decide_eq_false_2 by done.
Qed.
Lemma attrs_length attrs : length attrs ≤ length (bytes_of (cat (xml_attr <$> attrs))).
Proof.
  induction attrs as [|[k v] attrs IH]; [done|]. rewrite fmap_cons, cat_cons, bytes_of_app, length_app. cbn [length].
  pose proof (attr_bytes k v []) as E. rewrite List.app_nil_r in E. rewrite E. cbn [length]. lia.
Qed.
Lemma write_bytes t : xml_ok t → bytes_of (write_xml t) = "<"%char :: (if decide (xm_Kind t = XmlClose) then ["/"%char] else []) ++ bytes_of (xm_Name t) ++
  bytes_of (cat (xml_attr <$> (prod_map id EscapeString <$> xm_Attrs t))) ++ bytes_of (end_mark (bool_decide (xm_Kind t = XmlEmpty))).
Proof.
  intros _. unfold write_xml, xml_tag, end_mark. rewrite !bytes_of_app. by destruct (xm_Kind t).
Qed.
Lemma span_name name r : forallb xml_name_char (bytes_of name) = true → (match r with a :: _ => xml_name_char a = false | [] => False end) →
  span xml_name_char (bytes_of name ++ r) = (bytes_of name, r).
Proof. intros Hn Hr. destruct r as [|a r]; [done|]. by apply span_app. Qed.
Lemma after_name attrs empty rest : match bytes_of (cat (xml_attr <$> attrs)) ++ bytes_of (end_mark empty) ++ rest with
                                    | a :: _ => xml_name_char a = false | [] => False end.
Proof.
  destruct attrs as [|[k v] attrs]; [by destruct empty|]. rewrite fmap_cons, cat_cons, bytes_of_app, <- List.app_assoc, attr_bytes. done.
Qed.
Lemma read_tags_write tags : (∀ t, t ∈ tags → xml_ok t) → ∀ fuel, S (length tags) ≤ fuel →
  read_tags fuel (bytes_of (cat (write_xml <$> tags)) ++ [ascii_of_nat 10]) = Some tags.
Proof.
  intros Hok. induction tags as [|t tags IH]; intros fuel Hf.
  - destruct fuel as [|fuel]; [lia|]. cbn. by destruct fuel.
  - destruct fuel as [|fuel]; [lia|]. cbn [length] in Hf. assert (Ht := Hok t (list_elem_of_here _ _)).
    rewrite fmap_cons, cat_cons, bytes_of_app, <- List.app_assoc, (write_bytes t Ht). destruct Ht as ([Hne Hname] & Hattrs & Hnd & Hclose).
    set (rest := bytes_of (cat (write_xml <$> tags)) ++ [ascii_of_nat 10]).
    assert (IH' : read_tags fuel rest = Some tags) by (apply IH; [intros t' Ht'; apply Hok; by right|lia]).
    clearbody rest. rewrite <- List.app_comm_cons. cbn [read_tags]. change (Ascii.eqb "<" (ascii_of_nat 10)) with false. change (Ascii.eqb "<" "<") with true. cbv iota.
    set (attrs := prod_map id EscapeString <$> xm_Attrs t). set (empty := bool_decide (xm_Kind t = XmlEmpty)).
    rewrite <- !List.app_assoc. set (body := bytes_of (cat (xml_attr <$> attrs)) ++ bytes_of (end_mark empty) ++ rest).
    assert (Hslash : take_slash ((if decide (xm_Kind t = XmlClose) then ["/"%char] else []) ++ bytes_of (xm_Name t) ++ body) =
      (bool_decide (xm_Kind t = XmlClose), bytes_of (xm_Name t) ++ body)).
    { rewrite decide_bool_decide. destruct (bool_decide (xm_Kind t = XmlClose)); [done|]. destruct (xm_Name t) as [|b name]; [done|].
      cbn in Hname |- *. unfold take_slash. destruct (Ascii.eqb_spec b "/") as [->|]; done. }
    rewrite Hslash, span_name; [|done|apply after_name]. unfold body. rewrite (read_attrs_write (xm_Attrs t) empty rest Hattrs Hnd).
    2:{ rewrite length_app. pose proof (attrs_length attrs) as Hl. unfold attrs in Hl. rewrite length_fmap in Hl. unfold attrs. lia. }
    rewrite of_bytes_of, IH'. cbn. do 2 f_equal. unfold empty. destruct t as [k name l]. cbn in *. destruct k; [done| |done].
    by rewrite Hclose.
Qed.
Lemma read_write tags : (∀ t, t ∈ tags → xml_ok t) → read_xml (cat (write_xml <$> tags) +:+ nl) = Some tags.
Proof.
  intros Hok. unfold read_xml. rewrite bytes_of_app. change (bytes_of nl) with [ascii_of_nat 10]. apply read_tags_write; [done|].
  assert (Hlen : ∀ s, String.length s = length (bytes_of s)) by (induction s as [|a s IH]; [done|cbn; by rewrite IH]).
  rewrite Hlen, bytes_of_app, length_app. cbn [length]. clear Hlen.
  assert (Hl : length tags ≤ length (bytes_of (cat (write_xml <$> tags)))); [|change (bytes_of nl) with [ascii_of_nat 10]; cbn [length]; lia].
  induction tags as [|t tags IH]; [done|]. rewrite fmap_cons, cat_cons, bytes_of_app, length_app, (write_bytes t) by (apply Hok; left). cbn [length].
  assert (length tags ≤ length (bytes_of (cat (write_xml <$> tags)))) by (apply IH; intros t' Ht'; apply Hok; by right). lia.
Qed.

(** * The diagram *)

(** Printable ASCII with nothing to escape. *)
Definition plain_char (a : ascii) : bool :=
  bool_decide (escape_char a = String a "") && Nat.leb 32 (nat_of_ascii a) && Nat.ltb (nat_of_ascii a) 127.
Definition plain_text (s : string) : bool := forallb plain_char (bytes_of s).
Lemma EscapeString_plain s : plain_text s = true → EscapeString s = s.
Proof.
  unfold plain_text, EscapeString. induction s as [|a s IH]; [done|]. change (bytes_of (String a s)) with (a :: bytes_of s). cbn [forallb].
  intros [[[Ha%bool_decide_eq_true _]%andb_true_iff _]%andb_true_iff Hs]%andb_true_iff. rewrite fmap_cons, cat_cons, Ha, (IH Hs). done.
Qed.
Lemma plain_xml_text s : plain_text s = true → xml_text s = true.
Proof.
  unfold plain_text, xml_text. induction s as [|a s IH]; [done|]. change (bytes_of (String a s)) with (a :: bytes_of s). cbn [forallb].
  intros [[[_ Hlo]%andb_true_iff Hhi%Nat.ltb_lt]%andb_true_iff Hs]%andb_true_iff. apply IH, andb_true_iff in Hs as [[Hu Hc]%andb_true_iff Hx].
  assert (Hne : Nat.eqb (nat_of_ascii a) 239 = false) by (apply Nat.eqb_neq; lia).
  assert (Hnon : noncharacter (a :: bytes_of s) = false).
  { cbn [noncharacter]. rewrite Hne. apply negb_true_iff in Hx. rewrite Hx. by destruct (bytes_of s) as [|? []]. }
  rewrite Hlo, Hc, Hnon, !andb_true_r.
  rewrite LiveEncode.utf8_cons; [done|]. unfold LiveEncode.code. lia.
Qed.
Lemma plain_app s t : plain_text (s +:+ t) = plain_text s && plain_text t.
Proof. unfold plain_text. by rewrite bytes_of_app, forallb_app. Qed.
Lemma plain_digit a : is_digit a = true → plain_char a = true.
Proof. destruct a as [[] [] [] [] [] [] [] []]; vm_compute; done. Qed.
Lemma plain_Itoa n : plain_text (Itoa n) = true.
Proof.
  assert (Hpos : ∀ m, (0 ≤ m)%Z → plain_text (Itoa m) = true).
  { intros m Hm. unfold plain_text. apply forallb_forall. intros a Ha. apply plain_digit, (Itoa_digits m); [done|]. by apply list_elem_of_In. }
  destruct n as [|p|p]; [by apply Hpos|by apply Hpos|]. change (Itoa (Zneg p)) with ("-" +:+ Itoa (Zpos p)). rewrite plain_app, Hpos by lia. done.
Qed.
Lemma plain_pad w n : plain_text (pad w n) = true.
Proof.
  unfold pad. cbv zeta. rewrite plain_app, plain_Itoa, andb_true_r. induction (w - String.length (Itoa n)) as [|k IH]; [done|].
  destruct k; [done|]. cbn [repeat String.concat] in *. rewrite !plain_app. by rewrite IH.
Qed.
Lemma plain_time t : plain_text (format_rfc3339 t) = true.
Proof.
  unfold format_rfc3339, format_day. cbv zeta. destruct (civil (day_of t)) as [[y m] d]. by rewrite !plain_app, !plain_pad.
Qed.

Definition geometry_tag (x y width height : Z) : xml :=
  mkXml XmlEmpty "mxGeometry" [("x", Itoa x); ("y", Itoa y); ("width", Itoa width); ("height", Itoa height); ("as", "geometry")].
Definition vertex_tags (id : Z) (value style : string) (x y width height : Z) : list xml :=
  [mkXml XmlOpen "mxCell" [("id", Itoa id); ("value", value); ("style", style); ("vertex", "1"); ("parent", "1")];
   geometry_tag x y width height; mkXml XmlClose "mxCell" []].
Definition edge_style : string := "edgeStyle=orthogonalEdgeStyle;rounded=0;orthogonalLoop=1;jettySize=auto;html=1;endArrow=block;".
Definition edge_tags (id source target : Z) : list xml :=
  [mkXml XmlOpen "mxCell" [("id", Itoa id); ("style", edge_style); ("edge", "1"); ("parent", "1"); ("source", Itoa source); ("target", Itoa target)];
   mkXml XmlEmpty "mxGeometry" [("relative", "1"); ("as", "geometry")]; mkXml XmlClose "mxCell" []].
Lemma cat_app l k : cat (l ++ k) = cat l +:+ cat k.
Proof. induction l as [|s l IH]; [by rewrite app_nil_l|]. cbn [List.app]. by rewrite !cat_cons, IH, app_assoc. Qed.
Lemma vertex_cell_write id value style x y w h : plain_text style = true →
  vertex_cell id value style x y w h = cat (write_xml <$> vertex_tags id value style x y w h).
Proof.
  intros Hs. unfold vertex_cell, vertex_tags, geometry, geometry_tag. rewrite !fmap_cons, fmap_nil, !cat_cons. unfold write_xml. cbn [xm_Kind xm_Name xm_Attrs].
  rewrite !fmap_cons, !fmap_nil. cbn [prod_map Datatypes.id fst snd]. rewrite !(EscapeString_plain (Itoa _)), (EscapeString_plain style) by (apply plain_Itoa || done).
  rewrite (EscapeString_plain "1"), (EscapeString_plain "geometry") by (vm_compute; reflexivity). by rewrite app_nil_r.
Qed.
Lemma edge_cell_write id source target : edge_cell id source target = cat (write_xml <$> edge_tags id source target).
Proof.
  unfold edge_cell, edge_tags. fold edge_style. rewrite !fmap_cons, fmap_nil, !cat_cons. unfold write_xml. cbn [xm_Kind xm_Name xm_Attrs].
  rewrite !fmap_cons, !fmap_nil. cbn [prod_map Datatypes.id fst snd]. rewrite !(EscapeString_plain (Itoa _)) by apply plain_Itoa.
  rewrite (EscapeString_plain "1"), (EscapeString_plain "geometry"), (EscapeString_plain edge_style) by (vm_compute; reflexivity). by rewrite app_nil_r.
Qed.

Fixpoint consumer_tags (sid cell x cy : Z) (l : list NamingConsumer) : list xml :=
  match l with
  | [] => []
  | c :: l => vertex_tags cell (nmc_Name c) consumer_style (x + 10) cy 140 44 ++ edge_tags (cell + 1) sid cell ++ consumer_tags sid (cell + 2) x (cy + 60) l
  end.
Fixpoint stream_tags (cell x y col : Z) (l : list EventArchitectureInput) : list xml :=
  match l with
  | [] => []
  | s :: l =>
      let col := (col + 1)%Z in
      let '(x', y') := if Z.eqb (col mod 3) 0 then (40, y + 280)%Z else (x + 220, y)%Z in
      vertex_tags cell (ai_Name s) stream_style x y 160 60 ++ consumer_tags cell (cell + 1) x (y + 90) (ai_Consumers s) ++
      stream_tags (cell + 1 + 2 * Z.of_nat (length (ai_Consumers s))) x' y' col l
  end.
Lemma drawio_consumers_write sid cell x cy l : drawio_consumers sid cell x cy l =
  (cat (write_xml <$> consumer_tags sid cell x cy l), (cell + 2 * Z.of_nat (length l))%Z).
Proof.
  revert cell cy. induction l as [|c l IH]; intros cell cy; cbn [drawio_consumers consumer_tags]; [f_equal; cbn; lia|].
  rewrite IH. f_equal; [|cbn [length]; lia]. rewrite !fmap_app, !cat_app, vertex_cell_write, edge_cell_write by done. done.
Qed.
Lemma drawio_streams_write cell x y col l : drawio_streams cell x y col l = cat (write_xml <$> stream_tags cell x y col l).
Proof.
  revert cell x y col. induction l as [|s l IH]; intros cell x y col; [done|]. cbn [drawio_streams stream_tags].
  rewrite drawio_consumers_write. cbv zeta. destruct (if Z.eqb _ 0 then _ else _) as [x' y'].
  rewrite !fmap_app, !cat_app, vertex_cell_write by done. by rewrite IH.
Qed.
Definition head_tags (t : Z) : list xml := [
  mkXml XmlOpen "mxfile" [("host", "nats-consol"); ("modified", format_rfc3339 t); ("agent", "nats-consol"); ("version", "1.0")];
  mkXml XmlOpen "diagram" [("id", "architecture"); ("name", "Architecture")];
  mkXml XmlOpen "mxGraphModel" [("dx", "1200"); ("dy", "800"); ("grid", "1"); ("gridSize", "10"); ("guides", "1"); ("tooltips", "1"); ("connect", "1");
    ("arrows", "1"); ("fold", "1"); ("page", "1"); ("pageScale", "1"); ("pageWidth", "1169"); ("pageHeight", "827")];
  mkXml XmlOpen "root" []; mkXml XmlEmpty "mxCell" [("id", "0")]; mkXml XmlEmpty "mxCell" [("id", "1"); ("parent", "0")]].
Definition foot_tags : list xml := [mkXml XmlClose "root" []; mkXml XmlClose "mxGraphModel" []; mkXml XmlClose "diagram" []; mkXml XmlClose "mxfile" []].
Definition drawio_tags (inv : ArchitectureInventory) : list xml :=
  head_tags (iv_CapturedAt inv) ++ stream_tags 2 40 40 0 (iv_Streams inv) ++ foot_tags.
Lemma renderDrawIO_write inv : renderDrawIO inv = cat (write_xml <$> drawio_tags inv) +:+ nl.
Proof.
  unfold renderDrawIO, drawio_tags. rewrite drawio_streams_write, !fmap_app, !cat_app. generalize (cat (write_xml <$> stream_tags 2 40 40 0 (iv_Streams inv))). intros body.
  unfold head_tags, foot_tags. rewrite !fmap_cons, !fmap_nil, !cat_cons. unfold write_xml. cbn [xm_Kind xm_Name xm_Attrs].
  rewrite !fmap_cons, !fmap_nil. cbn [prod_map Datatypes.id fst snd]. rewrite (EscapeString_plain (format_rfc3339 _)) by apply plain_time.
  rewrite !(EscapeString_plain _) by (vm_compute; reflexivity). change (cat []) with "". rewrite !app_assoc, ?app_nil_l. reflexivity.
Qed.

(** ** What is drawn *)

Inductive diagram_cell := Vertex (id name : string) | Edge (id source target : string).
Definition attr_of (key : string) (t : xml) : string := match List.find (λ kv, kv.1 =s key) (xm_Attrs t) with Some kv => kv.2 | None => "" end.
Definition is_cell (t : xml) : bool := (xm_Name t =s "mxCell") && negb (bool_decide (xm_Kind t = XmlClose)).
Definition cell_of (t : xml) : option diagram_cell :=
  if negb (is_cell t) then None
  else if attr_of "vertex" t =s "1" then Some (Vertex (attr_of "id" t) (attr_of "value" t))
  else if attr_of "edge" t =s "1" then Some (Edge (attr_of "id" t) (attr_of "source" t) (attr_of "target" t))
  else None.
Definition cells_of (tags : list xml) : list diagram_cell := omap cell_of tags.
Definition cell_ids (tags : list xml) : list string := attr_of "id" <$> List.filter is_cell tags.
Definition vertex_names (cells : list diagram_cell) : list string := omap (λ c, match c with Vertex _ n => Some n | _ => None end) cells.
Definition edges (cells : list diagram_cell) : list (string * string) := omap (λ c, match c with Edge _ s t => Some (s, t) | _ => None end) cells.
(** The streams with their consumers, and who belongs to whom. *)
Definition drawn_names (streams : list EventArchitectureInput) : list string := flat_map (λ s, ai_Name s :: (nmc_Name <$> ai_Consumers s)) streams.
Definition drawn_links (streams : list EventArchitectureInput) : list (string * string) :=
  flat_map (λ s, (λ c, (ai_Name s, nmc_Name c)) <$> ai_Consumers s) streams.
(** The edge joins the cells of the two names. *)
Definition joins (cells : list diagram_cell) (e link : string * string) : Prop := Vertex e.1 link.1 ∈ cells ∧ Vertex e.2 link.2 ∈ cells.

Lemma vertex_cells id value style x y w h : cells_of (vertex_tags id value style x y w h) = [Vertex (Itoa id) value].
Proof. reflexivity. Qed.
Lemma edge_cells id s t : cells_of (edge_tags id s t) = [Edge (Itoa id) (Itoa s) (Itoa t)].
Proof. reflexivity. Qed.
Lemma cells_app l k : cells_of (l ++ k) = cells_of l ++ cells_of k.
Proof. apply omap_app. Qed.
Lemma ids_app l k : cell_ids (l ++ k) = cell_ids l ++ cell_ids k.
Proof. unfold cell_ids. by rewrite List.filter_app, fmap_app. Qed.
Lemma consumer_cells sid cell x cy l : let tags := consumer_tags sid cell x cy l in
  vertex_names (cells_of tags) = nmc_Name <$> l ∧ cell_ids tags = Itoa <$> seqZ cell (2 * Z.of_nat (length l)) ∧
  ∀ name (cells : list diagram_cell), Vertex (Itoa sid) name ∈ cells → (∀ c, c ∈ cells_of tags → c ∈ cells) →
    Forall2 (joins cells) (edges (cells_of tags)) ((λ c, (name, nmc_Name c)) <$> l).
Proof.
  revert cell cy. induction l as [|c l IH]; intros cell cy; cbn [consumer_tags]; [by split_and!; [..|constructor]|].
  destruct (IH (cell + 2)%Z (cy + 60)%Z) as (I1 & I2 & I3). cbv zeta in I1, I2, I3 |- *. rewrite !cells_app, !ids_app, vertex_cells, edge_cells, I2.
  split_and!.
  - unfold vertex_names in *. rewrite !omap_app, I1. done.
  - cbn [length]. rewrite (seqZ_cons cell) by lia. rewrite (seqZ_cons (Z.succ cell)) by lia. rewrite !fmap_cons.
    replace (Z.succ (Z.succ cell)) with (cell + 2)%Z by lia. replace (Z.pred (Z.pred (2 * Z.of_nat (S (length l))))) with (2 * Z.of_nat (length l))%Z by lia.
    replace (Z.succ cell) with (cell + 1)%Z by lia. reflexivity.
  - intros name cells Hn Hc. unfold edges. rewrite !omap_app. change (Forall2 (joins cells) ((Itoa sid, Itoa cell) :: edges (cells_of (consumer_tags sid (cell + 2) x (cy + 60) l))) ((λ c, (name, nmc_Name c)) <$> c :: l)).
    rewrite fmap_cons. constructor; [|apply I3; [done|intros c' Hc'; apply Hc; set_solver]]. split; [done|]. apply Hc. left.
Qed.
Definition cell_count (l : list EventArchitectureInput) : Z := foldr (λ s n, 1 + 2 * Z.of_nat (length (ai_Consumers s)) + n)%Z 0%Z l.
Lemma cell_count_nonneg l : (0 ≤ cell_count l)%Z.
Proof. induction l as [|s l IH]; [done|]. change (cell_count (s :: l)) with (1 + 2 * Z.of_nat (length (ai_Consumers s)) + cell_count l)%Z. lia. Qed.
Lemma stream_cells cell x y col l : let tags := stream_tags cell x y col l in
  vertex_names (cells_of tags) = drawn_names l ∧ cell_ids tags = Itoa <$> seqZ cell (cell_count l) ∧
  ∀ cells, (∀ c, c ∈ cells_of tags → c ∈ cells) → Forall2 (joins cells) (edges (cells_of tags)) (drawn_links l).
Proof.
  revert cell x y col. induction l as [|s l IH]; intros cell x y col; cbn [stream_tags]; [by split_and!; [..|constructor]|].
  cbv zeta. destruct (if Z.eqb _ 0 then _ else _) as [x' y'].
  destruct (IH (cell + 1 + 2 * Z.of_nat (length (ai_Consumers s)))%Z x' y' (col + 1)%Z) as (I1 & I2 & I3).
  destruct (consumer_cells cell (cell + 1) x (y + 90) (ai_Consumers s)) as (C1 & C2 & C3). cbv zeta in *.
  rewrite !cells_app, !ids_app, vertex_cells, I2, C2. split_and!.
  - unfold vertex_names in *. rewrite !omap_app, I1, C1. done.
  - pose proof (cell_count_nonneg l). change (cell_count (s :: l)) with (1 + 2 * Z.of_nat (length (ai_Consumers s)) + cell_count l)%Z.
    change (cell_ids (vertex_tags cell (ai_Name s) stream_style x y 160 60)) with [Itoa cell].
    rewrite (seqZ_cons cell) by lia. rewrite fmap_cons. cbn [List.app]. f_equal.
    replace (Z.pred (1 + 2 * Z.of_nat (length (ai_Consumers s)) + cell_count l)) with (2 * Z.of_nat (length (ai_Consumers s)) + cell_count l)%Z by lia.
    rewrite seqZ_app by lia. rewrite fmap_app. by replace (Z.succ cell) with (cell + 1)%Z by lia.
  - intros cells Hc. unfold edges. rewrite !omap_app. change (omap _ [Vertex (Itoa cell) (ai_Name s)]) with (@nil (string * string)). cbn [List.app].
    change (drawn_links (s :: l)) with (((λ c, (ai_Name s, nmc_Name c)) <$> ai_Consumers s) ++ drawn_links l).
    apply Forall2_app; [apply C3|apply I3]; try (intros c Hin; apply Hc; rewrite !elem_of_app; tauto). apply Hc. left.
Qed.

Fixpoint balanced (stack : list string) (tags : list xml) : bool :=
  match tags with
  | [] => match stack with [] => true | _ => false end
  | t :: l =>
      match xm_Kind t with
      | XmlOpen => balanced (xm_Name t :: stack) l
      | XmlEmpty => balanced stack l
      | XmlClose => match stack with n :: stack => (n =s xm_Name t) && balanced stack l | [] => false end
      end
  end.
Lemma consumers_balanced stack sid cell x cy l k : balanced stack (consumer_tags sid cell x cy l ++ k) = balanced stack k.
Proof. revert cell cy. induction l as [|c l IH]; intros cell cy; [done|]. cbn [consumer_tags]. rewrite <- !List.app_assoc. cbn. apply IH. Qed.
Lemma streams_balanced stack cell x y col l k : balanced stack (stream_tags cell x y col l ++ k) = balanced stack k.
Proof.
  revert cell x y col. induction l as [|s l IH]; intros cell x y col; [done|]. cbn [stream_tags]. cbv zeta. destruct (if Z.eqb _ 0 then _ else _) as [x' y'].
  rewrite <- !List.app_assoc. cbn. rewrite consumers_balanced. apply IH.
Qed.
Definition key_ok (s : string) : bool := negb (IsEmpty s) && forallb xml_name_char (bytes_of s).
Definition tag_ok (t : xml) : bool :=
  key_ok (xm_Name t) && forallb (λ kv, key_ok kv.1 && xml_text kv.2) (xm_Attrs t) && bool_decide (NoDup (xm_Attrs t).*1) && (negb (bool_decide (xm_Kind t = XmlClose)) || Nat.eqb (length (xm_Attrs t)) 0).
Lemma key_ok_spec s : key_ok s = true → name_ok s.
Proof. intros [Hs Hc]%andb_true_iff. split; [|done]. by apply IsEmpty_false, negb_true_iff. Qed.
Lemma tag_ok_spec t : tag_ok t = true → xml_ok t.
Proof.
  intros [[[Hn Ha]%andb_true_iff Hnd%bool_decide_eq_true]%andb_true_iff Hc]%andb_true_iff. split; [by apply key_ok_spec|]. split; [|split; [done|]].
  - intros kv Hkv. rewrite forallb_forall in Ha. apply list_elem_of_In, Ha, andb_true_iff in Hkv as [Hk Ht]. split; [by apply key_ok_spec|done].
  - intros E. rewrite bool_decide_eq_true_2 in Hc by done. cbn in Hc. by destruct (xm_Attrs t).
Qed.
Lemma Itoa_text n : xml_text (Itoa n) = true.
Proof. apply plain_xml_text, plain_Itoa. Qed.
Lemma vertex_tags_ok id value style x y w h : xml_text value = true → xml_text style = true → forallb tag_ok (vertex_tags id value style x y w h) = true.
Proof. intros Hv Hs. unfold vertex_tags, geometry_tag, tag_ok. cbn [forallb xm_Name xm_Attrs xm_Kind fst snd]. by rewrite !Itoa_text, Hv, Hs. Qed.
Lemma edge_tags_ok id source target : forallb tag_ok (edge_tags id source target) = true.
Proof. unfold edge_tags, tag_ok. cbn [forallb xm_Name xm_Attrs xm_Kind fst snd]. by rewrite !Itoa_text. Qed.
Lemma consumer_tags_ok sid cell x cy l : forallb xml_text (nmc_Name <$> l) = true → forallb tag_ok (consumer_tags sid cell x cy l) = true.
Proof.
  revert cell cy. induction l as [|c l IH]; intros cell cy; [done|]. rewrite fmap_cons. cbn [forallb consumer_tags]. intros [Hc Hl]%andb_true_iff.
  by rewrite !forallb_app, IH, edge_tags_ok, vertex_tags_ok.
Qed.
Lemma stream_tags_ok cell x y col l : forallb xml_text (drawn_names l) = true → forallb tag_ok (stream_tags cell x y col l) = true.
Proof.
  revert cell x y col. induction l as [|s l IH]; intros cell x y col; [done|]. cbn [stream_tags]. cbv zeta. destruct (if Z.eqb _ 0 then _ else _) as [x' y'].
  unfold drawn_names. cbn [flat_map]. rewrite !forallb_app. cbn [forallb]. intros [[Hs Hc]%andb_true_iff Hl]%andb_true_iff.
  by rewrite consumer_tags_ok, IH, vertex_tags_ok.
Qed.
Lemma head_tags_ok t : forallb tag_ok (head_tags t) = true.
Proof. unfold head_tags. cbn [forallb]. unfold tag_ok at 1. cbn [forallb xm_Name xm_Attrs xm_Kind fst snd]. by rewrite (plain_xml_text (format_rfc3339 t)) by apply plain_time. Qed.


Definition awkward_names : ArchitectureInventory :=
  mkInventory 0 "x" [mkArchInput "A&B" [] [mkNamingConsumer "<c>" "" []; mkNamingConsumer (of_bytes [quote_char]) "" []] 0 0] false false.
